(* ===== verification/_CoqProject ===== *)
-Q . S2P
Prelude.v
Py.v
PyStr.v
Triples.v
Scheduler.v
SchedulerThreads.v
SchedulerExamples.v
PyText.v
Decimal.v
Fs.v
Keeps.v
Calm.v
Artifacts.v
StagedInstall.v
Atomic.v
Paths.v
LinkTransaction.v
LinkTransactionProofs.v
LinkRecovery.v
LinkRollForward.v
Pending.v
PendingProofs.v
PendingThreads.v
Reconciliation.v
ReconciliationProofs.v
SyncPlan.v
SyncRunner.v
SyncRunnerProofs.v
Protocol.v
Transport.v
ControllerPolicy.v
Controller.v
ControllerProofs.v
ControllerSubmission.v
ControllerResults.v
ControllerExamples.v
Retry.v
Sentences.v
UploadState.v
UploadProofs.v
UploadResume.v
UploadQueue.v
UploadQueueProofs.v
UploadExamples.v
UploadFrame.v
DeferredMetadata.v
Retirement.v
RetirementProofs.v
CorePublication.v
CorePublicationProofs.v
CoreQueue.v
SyncApplication.v
SyncApplicationProofs.v
SyncApplicationExamples.v
KeyDict.v
Linker.v
LinkerProofs.v
Uploader.v
UploaderProofs.v
PolygonLinks.v
PolygonLinkProofs.v
RecoveryRows.v
RecoveryMerge.v
RecoveryProofs.v
RecoveryMergeProofs.v
RecoveryTransaction.v
RecoveryTransactionProofs.v
RecoveryTransactionExamples.v
Tables.v
Integrity.v
RejectionLedger.v
IntegrityProofs.v
IntegrityExamples.v
DocumentMigration.v
DocumentMigrationProofs.v
Checkpoints.v
CheckpointProofs.v
FetchProofs.v
CheckpointExamples.v
SentenceRun.v
