(* ===== verification/Prelude.v ===== *)
(** * Verification library of osm-polygon-wikidata-only

    The repository builds a dataset of OpenStreetMap polygons, their Wikidata entities and their
    Wikipedia documents, splits the documents into sentences on a GPU cluster (Grid5000) and
    publishes everything on the Hugging Face Hub.  This library models the parts in which the
    program's own logic decides whether data is lost, published twice, published unverified or
    requested too fast, and proves what they guarantee.  Paths below are relative to
    [src/src/osm_polygon_wikidata_only/].

    ** The parts and how they interact

    - Grid5000 controller ([grid5000/]).  [run] ([Controller.v]) plans batches of regions
      ([Protocol.v]), submits them with [oarsub] over SSH ([Transport.v]), polls their jobs,
      copies the results back, verifies them against a receipt ([ControllerPolicy.v],
      [Protocol.import_checkpoint_tree]), publishes them and records every step in a ledger
      that is replaced atomically ([Atomic.v]).
    - Upload queue ([hf/upload_queue.py]).  Publications are snapshotted into a state directory
      ([UploadState.v], over [Atomic.v] and [Artifacts.v]), handed to a bounded queue with one
      worker thread ([UploadQueue.v]) and retried ([UploadQueue.v], with the Retry-After
      arithmetic of [utils/http_retry.py]).
    - Link migration ([pipeline/_link_migration/transaction.py]).  The staged files of one region
      replace their targets in a journaled, ordered transaction ([LinkTransaction.v]).
    - Staged installation ([io/staged_install.py]).  Several files are installed with rollback
      ([StagedInstall.v]).
    - Requests.  Every network call goes through the adaptive scheduler ([Scheduler.v]) and the
      retry loop ([Retry.v]).
    - Sentences ([v2/sentence_logic.py]).  Sections are routed to segmenters, segmented in batches
      and turned into sentence rows ([Sentences.v]).

    ** Files and the code they model

    - [Prelude.v] (this file), [Py.v], [PyStr.v], [PyText.v], [Decimal.v]: the fragment of Python
      the code uses - rational clock values, code-point strings, dynamic values with Python's
      equality and truth, ordered dictionaries, the exception hierarchy, the monads [outcome]
      (may raise) and [PyM] (may raise, and keeps the state reached before), string methods,
      regular-expression blocks, [shlex.quote], decimal texts that are read back.
    - [Fs.v], [Keeps.v], [Calm.v]: a tree of files and directories whose primitives each consume
      one entry of a fault script; frame lemmas ([keeps]) for every fault script, and a Hoare
      triple for the empty one ([calmly]).  [Paths.v]: lemmas on resolution and texts of paths.
    - [Artifacts.v]: [io/hashing.py] (digests of contents), [io/json_files.py], [config/paths.py],
      [domain/stems.py], [io/processed_manifest.py] and the manifest of [v2/storage.py].
    - [Atomic.v]: [io/atomic.py].  [StagedInstall.v]: [io/staged_install.py].
    - [LinkTransaction.v] (definitions), [LinkTransactionProofs.v], [LinkRecovery.v],
      [LinkRollForward.v] (proofs), [LinkExamples.v]: [_link_migration/transaction.py].
    - [Protocol.v]: [grid5000/sentence_protocol.py].  [Transport.v]: [sentence_transport.py].
      [ControllerPolicy.v]: [sentence_controller_policy.py].  [Controller.v]: the mixins
      [sentence_controller{,_ledger,_batches,_import,_lifecycle}.py].  [ControllerProofs.v],
      [ControllerSubmission.v], [ControllerResults.v], [ControllerExamples.v]: their theorems.
    - [Scheduler.v]: [utils/request_scheduler.py], one function per critical section.
      [SchedulerThreads.v]: threads that interleave them, as a labelled step relation.
      [SchedulerExamples.v]: witnesses.
    - [Retry.v]: [utils/retry.py].  [Sentences.v]: [v2/sentence_logic.py] with the helpers of
      [enrichment/text_cleaning.py], [domain/ids.py] and [augmentation/models.py] it calls.
    - [UploadState.v]: [hf/_upload_state.py], [hf/_upload_state_files.py] and the operations of
      [hf/_uploader/plan.py].  [UploadQueue.v]: [hf/upload_queue.py], [hf/_upload_retry.py],
      [utils/http_retry.py], [hf/_uploader/errors.py].  [UploadProofs.v], [UploadResume.v],
      [UploadQueueProofs.v], [UploadExamples.v]: their theorems.

    Definitions keep the names of the code (a leading underscore is dropped where Rocq or a
    sibling would clash); a method takes its object's state as a record or threads it through
    [PyM].

    ** What the theorems show

    - Submission: a batch is sent at most once for one attempt, and a run that returns has
      published every batch from verified results; results are verified before anything is
      installed; a failed publication costs no further GPU job; the outside footprint of a run
      is the listed commands ([ControllerSubmission.v], [ControllerProofs.v],
      [ControllerResults.v]).
    - Planning and identity: batches partition the pending regions in order and within the
      bounds, manifest extension is characterised exactly, a checkpoint import validates the
      whole tree before it writes, remote arguments survive the shell ([Protocol.v],
      [Transport.v]).
    - Files: atomic publication under every fault script ([Atomic.v]); a staged installation
      that fails is rolled back, one that succeeds has installed everything, and the manifest is
      the last file to appear ([StagedInstall.v]); a migration interrupted at any step is
      completed by the next call, and one that returns has installed everything
      ([LinkRollForward.v]).
    - Uploads: sequence numbers are never reused across processes, a submission that fails leaves
      nothing behind, a persisted upload resumes as it was, every accepted upload is processed
      once and in order under every interleaving, a closed queue drains ([UploadProofs.v],
      [UploadResume.v], [UploadQueueProofs.v]).
    - Requests: on every reachable state of every interleaving, concurrency stays below its
      bound, slots are spaced, the rate stays within its limits, systemic reductions are spaced,
      and cooldowns are waited out ([SchedulerThreads.v]); the retry loop equals its reference
      and follows the documented schedule, certificate failures are permanent ([Retry.v]).
    - Sentences: splitting is lossless and independent of the batch size ([Sentences.v]).
    - Findings, each proved by a closed theorem or for every run: a rolled-back link migration
      can block its region for ever, and targets that share a file name share their backup
      ([LinkExamples.v]); a failed backup leaks a temporary and a failed restore deletes the
      backups it did not use ([StagedInstall.v]); a policy failure after a successful
      submission forgets the queued job ([ControllerExamples.v]); an interrupted batch cannot be
      resumed ([ControllerSubmission.v]).

    ** Bounds and fuel

    Structural recursion covers the loops over lists.  An unbounded [with_retries] takes fuel, and
    [with_retries_reference] says how much is enough: as many attempts as it takes to reach the
    decisive outcome.  [slices] takes the length of the list, which [concat_slices] shows to be
    enough.  The cluster may keep a job running for ever, so the polling loop of the controller
    takes the number of polls as fuel and ends with [StillPolling] when it is used up; every
    theorem on it holds for every fuel.  The worker of the upload queue is a step relation, and
    [closed_queue_drains] bounds its steps by an explicit measure.  Integers of the code are unbounded Python integers, modelled by [Z];
    nothing here wraps around.

    ** Conventions of the model

    - Floats that carry times, delays and rates are exact rationals; rounding is not modelled.
    - A string is the list of its code points.  JSON documents are values ([CJson]); the layout
      and key order of their text is not modelled, the text is decided by the value.  Newline
      translation and the digit limit of [int(...)] are ignored.
    - Paths are absolute lists of components; there are no symbolic links, so [resolve] is
      lexical.  Errors carry the errno of Linux.  Each primitive that can fail takes one entry
      of the fault script; [rmtree(..., ignore_errors=True)] always succeeds.
    - Code that is not in the repository is a parameter: [hashlib] and the text of values that
      are not strings ([Runtime]), the JSON codec and the Parquet reader ([FileFormats]), the
      names [tempfile] chooses, SSH, the scheduler of the cluster, [git] and the clock ([Site],
      [Subprocess]), the Hub client
      ([UploadSite]), the cancellation event and jitter ([RetryEnv]), the segmenters.
      Hypotheses on them are named in the sections that use them, and each theorem that has one
      comes with a concrete instance.
    - The memo of digests in [io/hashing.py] is assumed sound: a digest is that of the contents.
      Logging has no effect on the model.
    - In [UploadQueue.v] one job of the worker is atomic with respect to the client, and the
      client resumes persisted uploads before it closes the queue.

    ** Not modelled

    - Arrow tables and Parquet contents: OSM extraction, enrichment, augmentation, the V2 runner
      and its checkpoints, the planning and the artifacts of link migration, statistics, dataset
      cards and maps.  Their logic is inseparable from the columnar library it calls.
    - The Hub uploader's calls of [huggingface_hub], the remote sentence job (it loads the
      model), the command line, the deployment scripts and the presentations.
    - The facade of the controller that wires credentials and takes the process lock; the SQLite
      cache; resolution of the data root from the environment.

    ** Plan

    The pending-publication envelope of [hf/] and its merge, the rejection ledger, the
    synchronization planner, the sentence checkpoints and deduplication, in this order. *)
From Stdlib Require Import QArith Lqa Lia.
From Stdlib Require Export Sorted.
From stdpp Require Export prelude list gmap strings.

#[global] Open Scope Z_scope.

(** * Rational clock values

    Python floats that carry times and rates are modelled by exact rationals. *)

Declare Scope py_scope.
Delimit Scope py_scope with py.

(** [max(a, b)]: Python keeps the first argument unless the second is greater. *)
Definition fmax (a b : Q) : Q := if Qle_bool b a then a else b.
(** [min(a, b)]: Python keeps the first argument unless the second is smaller. *)
Definition fmin (a b : Q) : Q := if Qle_bool a b then a else b.
(** [a < b] as a Python comparison. *)
Definition fltb (a b : Q) : bool := negb (Qle_bool b a).
(** [a <= b] as a Python comparison. *)
Definition fleb (a b : Q) : bool := Qle_bool a b.

Lemma fleb_spec a b : reflect (a <= b)%Q (fleb a b).
Proof.
  apply iff_reflect. unfold fleb. symmetry. apply Qle_bool_iff.
Qed.

Lemma fltb_spec a b : reflect (a < b)%Q (fltb a b).
Proof.
  unfold fltb. destruct (fleb_spec b a) as [H|H]; unfold fleb in *.
  - rewrite (proj2 (Qle_bool_iff _ _) H). constructor. lra.
  - destruct (Qle_bool b a) eqn:E.
    + apply Qle_bool_iff in E. contradiction.
    + constructor. lra.
Qed.

Lemma fmax_spec a b : (a <= b)%Q /\ (fmax a b == b)%Q \/ (b < a)%Q /\ fmax a b = a.
Proof.
  unfold fmax. change (Qle_bool b a) with (fleb b a).
  destruct (fleb_spec b a) as [H|H]; [|left; split; [lra|reflexivity]].
  destruct (fltb_spec b a) as [H'|H']; [by right|].
  left. split; lra.
Qed.

Lemma fmin_spec a b : (a <= b)%Q /\ fmin a b = a \/ (b < a)%Q /\ fmin a b = b.
Proof.
  unfold fmin. change (Qle_bool a b) with (fleb a b).
  destruct (fleb_spec a b) as [H|H]; [by left|right; split; [lra|done]].
Qed.

Lemma Qhalf_spec x : (x / 2 == x * (1 # 2))%Q.
Proof. reflexivity. Qed.

(** [qorder]: linear arithmetic over [Q] after the comparisons, [fmax] and [fmin] in the
    context and the goal have been replaced by their specifications. *)
Ltac qspec :=
  repeat match goal with
  | |- context [fmax ?a ?b] => pose proof (fmax_spec a b); generalize dependent (fmax a b); intros
  | H : context [fmax ?a ?b] |- _ => pose proof (fmax_spec a b); generalize dependent (fmax a b); intros
  | |- context [fmin ?a ?b] => pose proof (fmin_spec a b); generalize dependent (fmin a b); intros
  | H : context [fmin ?a ?b] |- _ => pose proof (fmin_spec a b); generalize dependent (fmin a b); intros
  | |- context [(?a / 2)%Q] => pose proof (Qhalf_spec a); generalize dependent (a / 2)%Q; intros
  | H : context [(?a / 2)%Q] |- _ => pose proof (Qhalf_spec a); generalize dependent (a / 2)%Q; intros
  | H : context [fleb ?a ?b] |- _ => destruct (fleb_spec a b)
  | H : context [fltb ?a ?b] |- _ => destruct (fltb_spec a b)
  | |- context [fleb ?a ?b] => destruct (fleb_spec a b)
  | |- context [fltb ?a ?b] => destruct (fltb_spec a b)
  end.
Ltac qorder := qspec; repeat match goal with
  | H : _ \/ _ |- _ => destruct H
  | H : _ /\ _ |- _ => destruct H
  | H : @eq Q ?x _ |- _ => is_var x; subst x
  end; simpl in *; repeat split; try done; try lra.

Lemma fmax_l a b : (a <= fmax a b)%Q.
Proof. qorder. Qed.
Lemma fmax_r a b : (b <= fmax a b)%Q.
Proof. qorder. Qed.

(** * Sums over a list *)

Section Sum.
Context {A : Type} (f : A -> Z).

Definition zsum (l : list A) : Z := foldr (fun x n => f x + n) 0 l.

Lemma zsum_app l k : zsum (l ++ k) = zsum l + zsum k.
Proof. induction l as [|x l IH]; simpl; [done|]. unfold zsum in *. simpl. lia. Qed.

Lemma zsum_insert l i x y : l !! i = Some x -> zsum (<[i:=y]> l) = zsum l - f x + f y.
Proof.
  revert i. induction l as [|z l IH]; intros [|i] H; simplify_eq/=; [unfold zsum; simpl; lia|].
  specialize (IH i H). unfold zsum in *. simpl. lia.
Qed.

Lemma zsum_nonneg l : (forall x, 0 <= f x) -> 0 <= zsum l.
Proof. intros H. induction l as [|x l IH]; unfold zsum in *; simpl; [lia|]. specialize (H x). lia. Qed.

Lemma zsum_le (g : A -> Z) l : (forall x, f x <= g x) -> zsum l <= foldr (fun x n => g x + n) 0 l.
Proof. intros H. induction l as [|x l IH]; unfold zsum in *; simpl; [lia|]. specialize (H x). lia. Qed.
End Sum.

(** * Sorted lists grown at their end *)

Lemma StronglySorted_snoc {A} (R : A -> A -> Prop) l x :
  StronglySorted R l -> Forall (fun y => R y x) l -> StronglySorted R (l ++ [x]).
Proof.
  induction 1 as [|y l Hl IH Hy]; simpl; intros Hx; [by repeat constructor|].
  inversion Hx; subst. constructor; [by apply IH|]. apply Forall_app. by repeat constructor.
Qed.

Lemma StronglySorted_weaken {A} (R R' : A -> A -> Prop) l :
  (forall x y, R x y -> R' x y) -> StronglySorted R l -> StronglySorted R' l.
Proof.
  intros HR. induction 1 as [|y l Hl IH Hy]; constructor; [done|].
  eapply Forall_impl; [exact Hy|]. auto.
Qed.

Lemma Sorted_adjacent_snoc {A} (R : A -> A -> Prop) l a b :
  Sorted R (l ++ [a]) -> R a b -> Sorted R (l ++ [a; b]).
Proof.
  induction l as [|x l IH]; simpl; intros H Hab; [by repeat constructor|].
  inversion H as [|? ? Hs Hh]; subst. constructor; [auto|].
  destruct l; simpl in *; inversion Hh; subst; by constructor.
Qed.

(** Replacing the last element by one the relation does not tell apart from it. *)
Lemma Sorted_replace_last {A} (R : A -> A -> Prop) l a a' :
  Sorted R (l ++ [a]) -> (forall x, R x a -> R x a') -> Sorted R (l ++ [a']).
Proof.
  intros H Ha. induction l as [|x l IH]; simpl in *; [by repeat constructor|].
  inversion H as [|? ? Hs Hh]; subst. constructor; [auto|].
  destruct l; simpl in *; inversion Hh; subst; constructor; auto.
Qed.

(** * Membership in the projections of a list of pairs *)

Lemma elem_of_fst {A B} (x : A) (y : B) l : (x, y) ∈ l -> x ∈ l.*1.
Proof. intros H. by apply (list_elem_of_fmap_2 fst) in H. Qed.

Lemma elem_of_snd {A B} (x : A) (y : B) l : (x, y) ∈ l -> y ∈ l.*2.
Proof. intros H. by apply (list_elem_of_fmap_2 snd) in H. Qed.

#[export] Hint Resolve elem_of_fst elem_of_snd : core.

Lemma NoDup_fst_eq {A B} (x : A) (y z : B) l : NoDup l.*1 -> (x, y) ∈ l -> (x, z) ∈ l -> y = z.
Proof.
  induction l as [|[a b] l IH]; csimpl; [by intros _ ?%elem_of_nil|].
  intros [Ha Hl]%NoDup_cons. rewrite !elem_of_cons. intros [?|?] [?|?]; simplify_eq; eauto;
    exfalso; eauto.
Qed.

Lemma NoDup_snd_eq {A B} (x z : A) (y : B) l : NoDup l.*2 -> (x, y) ∈ l -> (z, y) ∈ l -> x = z.
Proof.
  induction l as [|[a b] l IH]; csimpl; [by intros _ ?%elem_of_nil|].
  intros [Ha Hl]%NoDup_cons. rewrite !elem_of_cons. intros [?|?] [?|?]; simplify_eq; eauto;
    exfalso; eauto.
Qed.

(** Elements that a duplicate-free projection does not tell apart are equal. *)
Lemma NoDup_fmap_eq {A B} (f : A -> B) l x y : NoDup (f <$> l) -> x ∈ l -> y ∈ l -> f x = f y -> x = y.
Proof.
  induction l as [|z l IH]; csimpl; [by intros _ ?%elem_of_nil|].
  intros [Hz Hl]%NoDup_cons. rewrite !elem_of_cons. intros [->|Hx] [->|Hy] Hf; auto;
    exfalso; apply Hz; [rewrite Hf|rewrite <- Hf]; by apply list_elem_of_fmap_2.
Qed.

(** Naming the second component of a computation whose first component is known. *)
Lemma pair_of_fst {A B} (r : A * B) a : r.1 = a -> r = (a, r.2).
Proof. destruct r. by intros <-. Qed.

(** Decides a closed proposition by evaluating its decision procedure. *)
Ltac by_evaluation := apply (bool_decide_unpack _); vm_compute; exact I.
