(* ===== verification/Py.v ===== *)
(** The fragment of Python the development is written in.

    Strings as lists of Unicode code points, dynamic (JSON-like) values with Python's [==]
    and truth value, insertion-ordered dictionaries, exceptions with their class hierarchy,
    and two monads: [outcome] for pure code that may raise and [PyM] for code that also
    threads a mutable state (the state reached before a raise is kept). *)
From Stdlib Require Import SpecFloat.
From S2P Require Import Prelude.

(** * Strings *)

(** A [str] is its sequence of code points. *)
Abbreviation str := (list N).

(** [u "text"] is the Python literal with that (ASCII) text. *)
Definition u (s : string) : str := Ascii.N_of_ascii <$> String.list_ascii_of_string s.
Arguments u : simpl never.

(** [a == b] on strings. *)
Definition str_eqb (a b : str) : bool := bool_decide (a = b).

(** * Dynamic values *)

Inductive pyval : Type :=
  | VNone
  | VBool (b : bool)
  | VInt (z : Z)
  | VFloat (f : spec_float)
  | VStr (s : str)
  | VList (l : list pyval)
  | VTuple (l : list pyval)
  | VDict (d : list (str * pyval)).

(** Dictionaries with string keys, in insertion order and without duplicate keys. *)
Abbreviation pydict := (list (str * pyval)).

Section Dict.
Context {A : Type}.

(** [d.get(k)]. *)
Fixpoint dget (k : str) (d : list (str * A)) : option A :=
  match d with
  | [] => None
  | (k', v) :: d' => if str_eqb k' k then Some v else dget k d'
  end.

(** [d[k] = v]: an existing key keeps its position. *)
Fixpoint dset (k : str) (v : A) (d : list (str * A)) : list (str * A) :=
  match d with
  | [] => [(k, v)]
  | (k', w) :: d' => if str_eqb k' k then (k', v) :: d' else (k', w) :: dset k v d'
  end.

(** [del d[k]] of a key that is there. *)
Definition ddel (k : str) (d : list (str * A)) : list (str * A) :=
  filter (fun kv => negb (str_eqb kv.1 k)) d.

(** [d.setdefault(k, v)]. *)
Definition dsetdefault (k : str) (v : A) (d : list (str * A)) : list (str * A) :=
  match dget k d with Some _ => d | None => dset k v d end.

(** [k in d]. *)
Definition dmem (k : str) (d : list (str * A)) : bool :=
  match dget k d with Some _ => true | None => false end.
End Dict.

(** [d.get(k)] where a missing key gives [None]. *)
Definition dget_none (k : str) (d : pydict) : pyval := default VNone (dget k d).

(** The integer value of a number that is an [int] or a [bool]. *)
Definition as_int (v : pyval) : option Z :=
  match v with VInt z => Some z | VBool b => Some (Z.b2z b) | _ => None end.

(** Exact comparison of a binary64 value with an integer. *)
Definition float_is_int (f : spec_float) (z : Z) : bool :=
  match f with
  | S754_zero _ => z =? 0
  | S754_finite s m e =>
      let v := if s then - Zpos m else Zpos m in
      if 0 <=? e then v * 2 ^ e =? z else v =? z * 2 ^ (- e)
  | _ => false
  end.

(** [a == b]. *)
Fixpoint py_eqb (a b : pyval) {struct a} : bool :=
  match a, b with
  | VNone, VNone => true
  | VStr s, VStr t => str_eqb s t
  | VList l, VList l' | VTuple l, VTuple l' =>
      (fix go (l l' : list pyval) : bool :=
         match l, l' with
         | [], [] => true
         | x :: r, y :: r' => py_eqb x y && go r r'
         | _, _ => false
         end) l l'
  | VDict d, VDict d' =>
      (length d =? length d')%nat &&
      (fix go (d : list (str * pyval)) : bool :=
         match d with
         | [] => true
         | (k, v) :: r => match dget k d' with Some w => py_eqb v w | None => false end && go r
         end) d
  | VFloat f, VFloat g => SFeqb f g
  | VFloat f, (VInt _ | VBool _) => match as_int b with Some z => float_is_int f z | None => false end
  | (VInt _ | VBool _), VFloat g => match as_int a with Some z => float_is_int g z | None => false end
  | (VInt _ | VBool _), (VInt _ | VBool _) => bool_decide (as_int a = as_int b)
  | _, _ => false
  end.

(** What [hash(v)] accepts. *)
Fixpoint hashable (v : pyval) : bool :=
  match v with
  | VList _ | VDict _ => false
  | VTuple l => forallb hashable l
  | _ => true
  end.

(** [v in l]. *)
Definition py_in (v : pyval) (l : list pyval) : bool := existsb (py_eqb v) l.

(** The distinct elements of a sequence, in the order of their first occurrences. *)
Definition distinct (l : list pyval) : list pyval :=
  foldl (fun acc v => if py_in v acc then acc else acc ++ [v]) [] l.

(** [a == b] of two sets. *)
Definition set_eqb (a b : list pyval) : bool :=
  forallb (fun v => py_in v b) a && forallb (fun v => py_in v a) b.

(** [type(v).__name__]. *)
Definition type_name (v : pyval) : str :=
  u match v with
    | VNone => "NoneType" | VBool _ => "bool" | VInt _ => "int" | VFloat _ => "float"
    | VStr _ => "str" | VList _ => "list" | VTuple _ => "tuple" | VDict _ => "dict"
    end.

(** [bool(v)]. *)
Definition py_truthy (v : pyval) : bool :=
  match v with
  | VNone => false
  | VBool b => b
  | VInt z => negb (z =? 0)
  | VFloat (S754_zero _) => false
  | VFloat _ => true
  | VStr s => negb (bool_decide (s = []))
  | VList l | VTuple l => match l with [] => false | _ => true end
  | VDict d => match d with [] => false | _ => true end
  end.

(** * Exceptions *)

(** The classes the modelled code raises or tests for; [CUser name base] is any other class. *)
Inductive exn_class :=
  | CBaseException | CKeyboardInterrupt | CRetryCancelled
  | CException | CValueError | CTypeError | CKeyError | CRuntimeError | CUnicodeError
  | COSError | CFileNotFoundError | CTimeoutError | CConnectionError | CGaiError
  | CURLError | CHTTPError | CContentTooShortError | CSSLError | CSSLCertVerificationError
  | CHttpxError | CHttpxTimeout | CHttpxNetworkError | CHttpxProxyError | CHttpxRemoteProtocolError
  | CSubprocessError | CControllerRunError | CControllerCommandTimeoutError
  | CUser (name : str) (base : exn_class).

#[export] Instance exn_class_eq_dec : EqDecision exn_class.
Proof. solve_decision. Defined.

(** The direct bases of a class. *)
Definition exn_bases (c : exn_class) : list exn_class :=
  match c with
  | CBaseException => []
  | CKeyboardInterrupt | CRetryCancelled | CException => [CBaseException]
  | CValueError | CTypeError | CKeyError | CRuntimeError | COSError | CHttpxError
  | CSubprocessError => [CException]
  | CUnicodeError => [CValueError]
  | CFileNotFoundError | CTimeoutError | CConnectionError | CGaiError | CURLError | CSSLError => [COSError]
  | CHTTPError | CContentTooShortError => [CURLError]
  | CSSLCertVerificationError => [CSSLError; CValueError]
  | CHttpxTimeout | CHttpxNetworkError | CHttpxProxyError | CHttpxRemoteProtocolError => [CHttpxError]
  | CControllerRunError => [CRuntimeError]
  | CControllerCommandTimeoutError => [CControllerRunError]
  | CUser _ b => [b]
  end.

Fixpoint exn_depth (c : exn_class) : nat :=
  match c with CUser _ b => S (exn_depth b) | _ => 5%nat end.

Fixpoint subclass_fuel (n : nat) (c d : exn_class) : bool :=
  bool_decide (c = d) ||
  match n with
  | O => false
  | S n => existsb (fun b => subclass_fuel n b d) (exn_bases c)
  end.

(** [issubclass(c, d)]: no chain of bases is longer than [exn_depth]. *)
Definition subclass (c d : exn_class) : bool := subclass_fuel (exn_depth c) c d.

(** A message keeps its f-string fragments; [FRepr v] stands for [{v!r}]. *)
Inductive frag := FStr (s : str) | FInt (z : Z) | FRepr (v : pyval).
Abbreviation pymsg := (list frag).
Definition msg (s : string) : pymsg := [FStr (u s)].

(** An exception object: class, message, [errno], HTTP [code], [reason], [__cause__],
    [__context__]. *)
Inductive exn := MkExn {
  exn_cls : exn_class;
  exn_msg : pymsg;
  exn_errno : option Z;
  exn_code : option Z;
  exn_reason : option exn;
  exn_cause : option exn;
  exn_context : option exn }.

(** [C(message)]. *)
Definition exc (c : exn_class) (m : pymsg) : exn := MkExn c m None None None None None.
(** [raise C(message) from e], inside a handler of [e]. *)
Definition exc_from (c : exn_class) (m : pymsg) (e : exn) : exn :=
  MkExn c m None None None (Some e) (Some e).
Definition isinstance (e : exn) (c : exn_class) : bool := subclass (exn_cls e) c.

(** * Code that may raise *)

Inductive outcome (A : Type) := Ok (a : A) | Raise (e : exn).
Arguments Ok {A} a.
Arguments Raise {A} e.

#[export] Instance outcome_ret : MRet outcome := fun _ a => Ok a.
#[export] Instance outcome_bind : MBind outcome := fun _ _ f m =>
  match m with Ok a => f a | Raise e => Raise e end.

(** [set(l)]. *)
Definition py_set (l : list pyval) : outcome (list pyval) :=
  match List.find (fun v => negb (hashable v)) l with
  | Some v => Raise (exc CTypeError [FStr (u "unhashable type: '" ++ type_name v ++ u "'")])
  | None => Ok (distinct l)
  end.

(** [if c: raise e]. *)
Definition raise_if (c : bool) (e : exn) : outcome unit := if c then Raise e else Ok tt.

(** * Code that may raise and changes a state *)

Definition PyM (S A : Type) : Type := S -> outcome A * S.

Section PyM.
Context {S : Type}.

Definition ret {A} (a : A) : PyM S A := fun s => (Ok a, s).
Definition pbind {A B} (m : PyM S A) (f : A -> PyM S B) : PyM S B := fun s =>
  match m s with
  | (Ok a, s') => f a s'
  | (Raise e, s') => (Raise e, s')
  end.

Definition throw {A} (e : exn) : PyM S A := fun s => (Raise e, s).
Definition lift {A} (o : outcome A) : PyM S A := fun s => (o, s).
Definition gets {A} (f : S -> A) : PyM S A := fun s => (Ok (f s), s).
Definition modify (f : S -> S) : PyM S unit := fun s => (Ok tt, f s).

(** [try: m / except: h], where [h e = None] lets [e] through. *)
Definition try_except {A} (m : PyM S A) (h : exn -> option (PyM S A)) : PyM S A := fun s =>
  match m s with
  | (Ok a, s') => (Ok a, s')
  | (Raise e, s') => match h e with Some k => k s' | None => (Raise e, s') end
  end.

(** [try: m / finally: f], where [f] does not raise. *)
Definition try_finally {A} (m : PyM S A) (f : S -> S) : PyM S A := fun s =>
  let '(r, s') := m s in (r, f s').

(** [try: m / except BaseException: h; raise]. *)
Definition on_error {A} (m : PyM S A) (h : PyM S unit) : PyM S A := fun s =>
  match m s with
  | (Raise e, s') => match h s' with
                     | (Ok _, s2) => (Raise e, s2)
                     | (Raise e', s2) => (Raise e', s2)
                     end
  | r => r
  end.

(** [try: m / finally: f], where [f] may raise. *)
Definition finally {A} (m : PyM S A) (f : PyM S unit) : PyM S A := fun s =>
  let '(r, s1) := m s in
  match f s1 with
  | (Ok _, s2) => (r, s2)
  | (Raise e, s2) => (Raise e, s2)
  end.

(** [for x in l: f(x)]. *)
Fixpoint for_each {A} (f : A -> PyM S unit) (l : list A) : PyM S unit :=
  match l with
  | [] => ret tt
  | x :: r => pbind (f x) (fun _ => for_each f r)
  end.
End PyM.

Notation "x <- m ;; k" := (pbind m (fun x => k))
  (at level 100, m at next level, right associativity) : py_scope.
Notation "' p <- m ;; k" := (pbind m (fun p => k))
  (at level 20, p pattern, m at level 100, k at level 200) : py_scope.
Notation "m ;; k" := (pbind m (fun _ => k)) (at level 100, right associativity) : py_scope.
#[global] Open Scope py_scope.

(** * Lemmas *)

Lemma str_eqb_spec a b : reflect (a = b) (str_eqb a b).
Proof. unfold str_eqb. apply bool_decide_reflect. Qed.

Lemma str_eqb_refl a : str_eqb a a = true.
Proof. by destruct (str_eqb_spec a a). Qed.

Lemma str_eqb_neq a b : a ≠ b -> str_eqb a b = false.
Proof. by destruct (str_eqb_spec a b). Qed.

Section DictLemmas.
Context {A : Type}.
Implicit Types (d : list (str * A)) (k : str).

Lemma dget_dset_eq k v d : dget k (dset k v d) = Some v.
Proof.
  induction d as [|[k' w] d IH]; simpl; [by rewrite str_eqb_refl|].
  destruct (str_eqb k' k) eqn:E; simpl; by rewrite E.
Qed.

Lemma dget_dset_ne k k' v d : k ≠ k' -> dget k' (dset k v d) = dget k' d.
Proof.
  intros Hne. induction d as [|[k0 w] d IH]; simpl; [by rewrite str_eqb_neq|].
  destruct (str_eqb_spec k0 k) as [->|]; simpl; [by rewrite !str_eqb_neq|].
  by rewrite IH.
Qed.

Lemma dget_elem_of k v d : dget k d = Some v -> (k, v) ∈ d.
Proof.
  induction d as [|[k' w] d IH]; simpl; [done|].
  destruct (str_eqb_spec k' k) as [->|]; intros; simplify_eq; [left|right; auto].
Qed.

Lemma dget_None k d : dget k d = None <-> k ∉ d.*1.
Proof.
  induction d as [|[k' w] d IH]; simpl; [split; [set_solver|done]|].
  destruct (str_eqb_spec k' k) as [->|Hne]; [split; [done|set_solver]|].
  rewrite IH. set_solver.
Qed.

Lemma dget_NoDup k v d : NoDup d.*1 -> (k, v) ∈ d -> dget k d = Some v.
Proof.
  induction d as [|[k' w] d IH]; simpl; intros Hnd Hin; [by apply elem_of_nil in Hin|].
  apply NoDup_cons in Hnd as [Hk Hnd]. apply elem_of_cons in Hin as [?|Hin].
  - simplify_eq. by rewrite str_eqb_refl.
  - rewrite str_eqb_neq; [by apply IH|]. intros ->. apply Hk.
    apply list_elem_of_fmap. by exists (k, v).
Qed.

Lemma dset_keys k v d : (dset k v d).*1 = if dmem k d then d.*1 else d.*1 ++ [k].
Proof.
  unfold dmem. induction d as [|[k' w] d IH]; simpl; [done|].
  destruct (str_eqb k' k) eqn:E; csimpl; [done|].
  rewrite IH. by destruct (dget k d).
Qed.

Lemma dget_ddel_eq k d : dget k (ddel k d) = None.
Proof.
  unfold ddel. induction d as [|[k' w] d IH]; [done|]. rewrite filter_cons. simpl.
  destruct (str_eqb_spec k' k); simpl; [done|]. by rewrite str_eqb_neq.
Qed.

Lemma dget_ddel_ne k k' d : k ≠ k' -> dget k' (ddel k d) = dget k' d.
Proof.
  intros Hne. unfold ddel. induction d as [|[k0 w] d IH]; [done|]. rewrite filter_cons. simpl.
  destruct (str_eqb_spec k0 k) as [->|]; simpl; [by rewrite str_eqb_neq|]. by rewrite IH.
Qed.

Lemma dget_dsetdefault k v d : dget k (dsetdefault k v d) = Some (default v (dget k d)).
Proof. unfold dsetdefault. destruct (dget k d) eqn:E; [done|]. apply dget_dset_eq. Qed.

Lemma dset_NoDup k v d : NoDup d.*1 -> NoDup (dset k v d).*1.
Proof.
  intros H. rewrite dset_keys. unfold dmem. destruct (dget k d) eqn:E; [done|].
  apply NoDup_app. split_and!; [done| |apply NoDup_singleton].
  intros x Hx ->%list_elem_of_singleton. by apply dget_None in E.
Qed.

Lemma dget_fmap {B} (f : A -> B) k d : dget k ((fun kv => (kv.1, f kv.2)) <$> d) = f <$> dget k d.
Proof. induction d as [|[k' v] d IH]; simpl; [done|]. by destruct (str_eqb k' k). Qed.

Lemma dget_dsetdefault_ne k k' v d : k ≠ k' -> dget k' (dsetdefault k v d) = dget k' d.
Proof. intros. unfold dsetdefault. destruct (dget k d); [done|]. by apply dget_dset_ne. Qed.
End DictLemmas.

#[export] Hint Rewrite @dget_dset_eq str_eqb_refl : py.

(** Bind and match equations used to run the monads forwards and backwards. *)
Lemma outcome_bind_Ok {A B} (m : outcome A) (f : A -> outcome B) b :
  (m ≫= f) = Ok b -> exists a, m = Ok a /\ f a = Ok b.
Proof. destruct m as [a|]; simpl; [by exists a | done]. Qed.

Lemma mret_Ok {A} (a b : A) : mret (M := outcome) a = Ok b -> a = b.
Proof. unfold mret, outcome_ret. congruence. Qed.

Lemma pym_bind_Ok {S A B} (m : PyM S A) (f : A -> PyM S B) s b s' :
  pbind m f s = (Ok b, s') -> exists a s1, m s = (Ok a, s1) /\ f a s1 = (Ok b, s').
Proof.
  unfold pbind. destruct (m s) as [[a|e] s1] eqn:E; [|done].
  intros H. by exists a, s1.
Qed.

Lemma raise_if_Ok c e x : raise_if c e = Ok x <-> c = false.
Proof. destruct x, c; simpl; split; done. Qed.

(** [mapM] over [outcome]. *)
Lemma outcome_mapM_Forall2 {A B} (f : A -> outcome B) l k :
  mapM f l = Ok k -> Forall2 (fun x y => f x = Ok y) l k.
Proof.
  revert k. induction l as [|x l IH]; simpl; intros k Hk.
  - unfold mret, outcome_ret in Hk. by simplify_eq.
  - apply outcome_bind_Ok in Hk as (y & Hy & Hk). apply outcome_bind_Ok in Hk as (r & Hr & Hk).
    unfold mret, outcome_ret in Hk. simplify_eq. constructor; auto.
Qed.

Lemma mapM_Forall2 {A B} (f : A -> outcome B) l k : mapM f l = Ok k <-> Forall2 (fun x y => f x = Ok y) l k.
Proof.
  split; [apply outcome_mapM_Forall2|]. induction 1 as [|x y l k Hx _ IH]; simpl; [done|]. rewrite Hx. simpl. by rewrite IH.
Qed.

(** [type(e).__name__]. *)
Definition class_name (c : exn_class) : str :=
  match c with
  | CBaseException => u "BaseException" | CKeyboardInterrupt => u "KeyboardInterrupt"
  | CRetryCancelled => u "_RetryCancelled" | CException => u "Exception"
  | CValueError => u "ValueError" | CTypeError => u "TypeError" | CKeyError => u "KeyError"
  | CRuntimeError => u "RuntimeError" | CUnicodeError => u "UnicodeError"
  | COSError => u "OSError" | CFileNotFoundError => u "FileNotFoundError"
  | CTimeoutError => u "TimeoutError" | CConnectionError => u "ConnectionError"
  | CGaiError => u "gaierror" | CURLError => u "URLError" | CHTTPError => u "HTTPError"
  | CContentTooShortError => u "ContentTooShortError" | CSSLError => u "SSLError"
  | CSSLCertVerificationError => u "SSLCertVerificationError"
  | CHttpxError => u "TransportError" | CHttpxTimeout => u "TimeoutException"
  | CHttpxNetworkError => u "NetworkError" | CHttpxProxyError => u "ProxyError"
  | CHttpxRemoteProtocolError => u "RemoteProtocolError"
  | CSubprocessError => u "SubprocessError" | CControllerRunError => u "ControllerRunError"
  | CControllerCommandTimeoutError => u "ControllerCommandTimeoutError"
  | CUser n _ => n
  end.

(** What is taken from the interpreter and [hashlib] as given: the text of a value that is not a
    string, and the hexadecimal SHA-256 digest of some bytes. *)
Class Runtime := {
  str_of_nonstr : pyval -> str;
  sha256_hexdigest : list N -> str }.

(** [str(v)]. *)
Definition py_str `{!Runtime} (v : pyval) : str :=
  match v with VStr s => s | _ => str_of_nonstr v end.

(** [str(v or "")]. *)
Definition str_or_empty `{!Runtime} (v : pyval) : str := if py_truthy v then py_str v else [].

(** [d.update(kvs)]. *)
Definition dupdate {A} (d kvs : list (str * A)) : list (str * A) :=
  foldl (fun d kv => dset kv.1 kv.2 d) d kvs.

(** [for x in l: acc = f(acc, x)] where [f] may raise. *)
Fixpoint fold_outcome {A B} (f : A -> B -> outcome A) (acc : A) (l : list B) : outcome A :=
  match l with
  | [] => mret acc
  | x :: r => acc ← f acc x; fold_outcome f acc r
  end.

Lemma fold_outcome_app {A B} (f : A -> B -> outcome A) acc l k :
  fold_outcome f acc (l ++ k) = (acc ← fold_outcome f acc l; fold_outcome f acc k).
Proof. revert acc. induction l as [|x l IH]; intros acc; simpl; [done|].
  destruct (f acc x) as [y|]; simpl; [apply IH|done].
Qed.

Lemma fold_outcome_ext {A B} (f g : A -> B -> outcome A) acc l :
  (forall acc x, x ∈ l -> f acc x = g acc x) -> fold_outcome f acc l = fold_outcome g acc l.
Proof.
  revert acc. induction l as [|x l IH]; intros acc H; simpl; [done|].
  rewrite H by left. destruct (g acc x); simpl; [|done]. apply IH. intros. apply H. by right.
Qed.

Section UpdateLemmas.
Context {A : Type}.
Implicit Types (d kvs : list (str * A)).

Lemma dget_dupdate_other k d kvs : k ∉ kvs.*1 -> dget k (dupdate d kvs) = dget k d.
Proof.
  unfold dupdate. revert d. induction kvs as [|[k' v] kvs IH]; intros d Hk; [done|].
  csimpl in Hk. simpl. apply not_elem_of_cons in Hk as [Hne Hk].
  rewrite IH by done. apply dget_dset_ne. congruence.
Qed.

Lemma dget_dupdate k v d kvs : NoDup kvs.*1 -> (k, v) ∈ kvs -> dget k (dupdate d kvs) = Some v.
Proof.
  unfold dupdate. revert d. induction kvs as [|[k' w] kvs IH]; intros d Hnd Hin;
    [by apply elem_of_nil in Hin|]. csimpl in Hnd. apply NoDup_cons in Hnd as [Hk Hnd].
  apply elem_of_cons in Hin as [?|Hin]; [|by apply IH]. simplify_eq. simpl.
  etrans; [by apply dget_dupdate_other|]. by rewrite dget_dset_eq.
Qed.
End UpdateLemmas.

(** Runs the equations of a monadic computation that returned. *)
Ltac outcome_inv H :=
  repeat match type of H with
  | mbind _ _ = Ok _ =>
      let a := fresh "r" in let E := fresh "E" in
      apply outcome_bind_Ok in H as (a & E & H)
  end.

(** Inverts a [raise_if] that passed. *)
Ltac passed H := rewrite raise_if_Ok in H; try rewrite negb_false_iff in H.

(** A check run on every element passes when it passes on each. *)
Lemma fold_outcome_checks {B} (f : B -> outcome unit) l :
  fold_outcome (fun _ x => f x) tt l = Ok tt <-> Forall (fun x => f x = Ok tt) l.
Proof.
  induction l as [|x l IH]; simpl; [by split; [constructor|]|].
  rewrite Forall_cons, <- IH. destruct (f x) as [[]|e]; simpl; naive_solver.
Qed.

(** An invariant of a loop that may raise. *)
Lemma fold_outcome_invariant {A B} (P : A -> Prop) (f : A -> B -> outcome A) l acc r :
  fold_outcome f acc l = Ok r -> P acc ->
  (forall a x a', x ∈ l -> P a -> f a x = Ok a' -> P a') -> P r.
Proof.
  revert acc. induction l as [|x l IH]; intros acc H HP Hstep; simpl in H.
  - apply mret_Ok in H. by subst.
  - apply outcome_bind_Ok in H as (a & Ha & H). eapply IH; [exact H| |].
    + eapply Hstep; [by left|done|done].
    + intros. eapply Hstep; [by right|done|done].
Qed.
