(* ===== verification/PyStr.v ===== *)
(** Python string operations on lists of code points: decimal rendering, joining, splitting,
    stripping, prefixes, replacement, UTF-8, and the code-point order used by [sorted]. *)
From stdpp Require Import pretty sorting.
From S2P Require Import Prelude Py.

(** [str(z)]. *)
Definition str_of_Z (z : Z) : str := u (pretty z).

(** [len(s)]. *)
Definition len {A} (s : list A) : Z := Z.of_nat (length s).

(** [s.startswith(p)] and [s.removeprefix(p)]. *)
Fixpoint strip_prefix (p s : str) : option str :=
  match p, s with
  | [], _ => Some s
  | c :: p, d :: s => if (c =? d)%N then strip_prefix p s else None
  | _, [] => None
  end.
Definition startswith (p s : str) : bool := bool_decide (is_Some (strip_prefix p s)).
Definition removeprefix (p s : str) : str := default s (strip_prefix p s).
Definition endswith (p s : str) : bool := startswith (reverse p) (reverse s).
Definition removesuffix (p s : str) : str := reverse (removeprefix (reverse p) (reverse s)).

(** [str.isspace] of one character. *)
Definition is_space (c : N) : bool :=
  (((9 <=? c) && (c <=? 13)) || ((28 <=? c) && (c <=? 32)) || (c =? 133) || (c =? 160) ||
   (c =? 5760) || ((8192 <=? c) && (c <=? 8202)) || (c =? 8232) || (c =? 8233) ||
   (c =? 8239) || (c =? 8287) || (c =? 12288))%N.

Fixpoint lstrip (s : str) : str :=
  match s with
  | c :: r => if is_space c then lstrip r else s
  | [] => []
  end.
Definition rstrip (s : str) : str := reverse (lstrip (reverse s)).
(** [s.strip()]. *)
Definition strip (s : str) : str := rstrip (lstrip s).

(** [s.split(sep)] for a one-character separator. *)
Fixpoint split_on (sep : N) (s : str) : list str :=
  match s with
  | [] => [[]]
  | c :: r =>
      if (c =? sep)%N then [] :: split_on sep r
      else match split_on sep r with
           | w :: ws => (c :: w) :: ws
           | [] => [[c]]
           end
  end.

(** [s.partition(sep)] for a one-character separator: [None] when it does not occur. *)
Fixpoint partition_on (sep : N) (s : str) : option (str * str) :=
  match s with
  | [] => None
  | c :: r =>
      if (c =? sep)%N then Some ([], r)
      else match partition_on sep r with
           | Some (a, b) => Some (c :: a, b)
           | None => None
           end
  end.

(** [s.replace(a, b)] for single characters. *)
Definition replace_char (a b : N) (s : str) : str := (fun c => if (c =? a)%N then b else c) <$> s.

(** [s.split()]: the maximal runs of non-space characters. *)
Fixpoint split_words_from (cur : str) (s : str) : list str :=
  match s with
  | [] => match cur with [] => [] | _ => [reverse cur] end
  | c :: r =>
      if is_space c
      then match cur with [] => split_words_from [] r | _ => reverse cur :: split_words_from [] r end
      else split_words_from (c :: cur) r
  end.
Definition split_words (s : str) : list str := split_words_from [] s.

(** [sep.join(parts)]. *)
Fixpoint join (sep : str) (parts : list str) : str :=
  match parts with
  | [] => []
  | [p] => p
  | p :: r => p ++ sep ++ join sep r
  end.

(** [s.encode("utf-8")]: surrogates cannot be encoded. *)
Definition utf8_char (c : N) : outcome (list N) :=
  if (c <? 128)%N then Ok [c]
  else if (c <? 2048)%N then Ok [192 + N.shiftr c 6; 128 + N.land c 63]%N
  else if ((55296 <=? c) && (c <=? 57343))%N then Raise (exc CUnicodeError (msg "surrogates not allowed"))
  else if (c <? 65536)%N
  then Ok [224 + N.shiftr c 12; 128 + N.land (N.shiftr c 6) 63; 128 + N.land c 63]%N
  else Ok [240 + N.shiftr c 18; 128 + N.land (N.shiftr c 12) 63;
           128 + N.land (N.shiftr c 6) 63; 128 + N.land c 63]%N.
Definition utf8_encode (s : str) : outcome (list N) :=
  bytes ← mapM utf8_char s; mret (concat bytes).

(** [bytes.decode("utf-8")]: shortest forms only, no surrogates. *)
Definition continuation (b : N) : option N :=
  if ((128 <=? b) && (b <=? 191))%N then Some (b - 128)%N else None.
Fixpoint utf8_decode (b : list N) : option str :=
  match b with
  | [] => Some []
  | x :: r =>
      if (x <? 128)%N then cons x <$> utf8_decode r
      else match r with
      | y :: r =>
          y' ← continuation y;
          if ((194 <=? x) && (x <=? 223))%N then cons ((x - 192) * 64 + y')%N <$> utf8_decode r
          else match r with
          | z :: r =>
              z' ← continuation z;
              if ((224 <=? x) && (x <=? 239))%N
              then
                let c := ((x - 224) * 4096 + y' * 64 + z')%N in
                if (c <? 2048)%N || ((55296 <=? c) && (c <=? 57343))%N then None
                else cons c <$> utf8_decode r
              else match r with
              | w :: r =>
                  w' ← continuation w;
                  let c := ((x - 240) * 262144 + y' * 4096 + z' * 64 + w')%N in
                  if ((240 <=? x) && (x <=? 244))%N && ((65536 <=? c) && (c <=? 1114111))%N
                  then cons c <$> utf8_decode r else None
              | [] => None
              end
          | [] => None
          end
      | [] => None
      end
  end.

Definition ascii (s : str) : Prop := Forall (fun c => (c < 128)%N) s.

(** * Code-point order *)

(** [a <= b] on strings. *)
Fixpoint str_leb (a b : str) : bool :=
  match a, b with
  | [], _ => true
  | _ :: _, [] => false
  | c :: a, d :: b => (c <? d)%N || ((c =? d)%N && str_leb a b)
  end.
Definition str_le (a b : str) : Prop := str_leb a b = true.

#[export] Instance str_le_dec : RelDecision str_le.
Proof. intros a b. unfold str_le. apply _. Defined.

Lemma str_le_refl a : str_le a a.
Proof. unfold str_le. induction a as [|c a IH]; simpl; [done|]. by rewrite N.ltb_irrefl, N.eqb_refl. Qed.

#[export] Instance str_le_total : Total str_le.
Proof.
  intros a. induction a as [|c a IH]; intros [|d b]; unfold str_le in *; simpl; auto.
  destruct (N.lt_total c d) as [H|[->|H]].
  - left. by rewrite (proj2 (N.ltb_lt _ _) H).
  - rewrite N.ltb_irrefl, N.eqb_refl. simpl. apply IH.
  - right. by rewrite (proj2 (N.ltb_lt _ _) H).
Qed.

Lemma str_leb_cons c a d b :
  str_leb (c :: a) (d :: b) = true <-> (c < d)%N \/ c = d /\ str_leb a b = true.
Proof. simpl. rewrite orb_true_iff, andb_true_iff, N.ltb_lt, N.eqb_eq. done. Qed.

#[export] Instance str_le_trans : Transitive str_le.
Proof.
  intros a. induction a as [|c a IH]; intros [|d b] [|e f]; unfold str_le in *; try done.
  rewrite !str_leb_cons. intros [?|[-> ?]] [?|[-> ?]]; [left; lia|auto|auto|right; eauto].
Qed.

#[export] Instance str_le_antisym : AntiSymm (=) str_le.
Proof.
  intros a. induction a as [|c a IH]; intros [|d b]; unfold str_le in *; try done.
  rewrite !str_leb_cons. intros [?|[-> ?]] [?|[? ?]]; try lia; f_equal; auto.
Qed.

(** [sorted(l)]. *)
Definition sorted_strs (l : list str) : list str := merge_sort str_le l.

Lemma sorted_strs_perm l : sorted_strs l ≡ₚ l.
Proof. apply merge_sort_Permutation. Qed.

Lemma sorted_strs_sorted l : StronglySorted str_le (sorted_strs l).
Proof. apply StronglySorted_merge_sort; apply _. Qed.

Lemma elem_of_sorted_strs x l : x ∈ sorted_strs l <-> x ∈ l.
Proof. by rewrite sorted_strs_perm. Qed.

(** * Affixes *)

Lemma strip_prefix_app p s : strip_prefix p (p ++ s) = Some s.
Proof. induction p as [|c p IH]; simpl; [done|]. by rewrite N.eqb_refl. Qed.

Lemma strip_prefix_Some p s r : strip_prefix p s = Some r <-> s = p ++ r.
Proof.
  split; [|intros ->; apply strip_prefix_app]. revert s.
  induction p as [|c p IH]; intros [|d s] H; simplify_eq/=; [done..|].
  destruct (c =? d)%N eqn:E; [|done]. apply N.eqb_eq in E as ->. f_equal. auto.
Qed.

Lemma startswith_app p s : startswith p (p ++ s) = true.
Proof. unfold startswith. by rewrite strip_prefix_app. Qed.

Lemma endswith_app p s : endswith p (s ++ p) = true.
Proof. unfold endswith. rewrite reverse_app. apply startswith_app. Qed.

(** * ASCII text survives its encoding *)

Lemma utf8_encode_ascii s : ascii s -> utf8_encode s = Ok s.
Proof.
  intros H. unfold utf8_encode. assert (E : mapM utf8_char s = Ok ((fun c => [c]) <$> s)).
  { induction H as [|c s Hc _ IH]; [done|].
    assert (Hu : utf8_char c = Ok [c]) by (unfold utf8_char; by rewrite (proj2 (N.ltb_lt _ _) Hc)).
    simpl. rewrite Hu. simpl. by rewrite IH. }
  rewrite E. simpl. unfold mret, outcome_ret. f_equal. clear.
  induction s as [|c s IH]; [done|]. csimpl. by rewrite IH.
Qed.

Lemma utf8_decode_ascii s : ascii s -> utf8_decode s = Some s.
Proof. induction 1 as [|c s Hc _ IH]; [done|]. simpl. rewrite (proj2 (N.ltb_lt _ _) Hc). by rewrite IH. Qed.
