(* ===== verification/Triples.v ===== *)
(** Triples with an exceptional postcondition: a computation that keeps an assertion when it returns
    and ends in a weaker one when it raises. *)
From S2P Require Import Prelude Py.

Section Triples.
Context {S : Type} (P E : S -> Prop).

Definition triple {A} (c : PyM S A) : Prop :=
  forall s o s', P s -> c s = (o, s') -> match o with Ok _ => P s' | Raise _ => E s' end.

Hypothesis weaker : forall s, P s -> E s.

Lemma triple_pure {A} (c : PyM S A) : (forall s, (c s).2 = s) -> triple c.
Proof. intros H s o s' Hs Hc. specialize (H s). rewrite Hc in H. simpl in H. subst. destruct o; auto. Qed.

Lemma triple_bind {A B} (c : PyM S A) (f : A -> PyM S B) : triple c -> (forall a, triple (f a)) -> triple (pbind c f).
Proof.
  intros Hc Hf s o s' Hs. unfold pbind. destruct (c s) as [[a|e] s1] eqn:Ec; intros H.
  - eapply Hf; [|exact H]. exact (Hc _ _ _ Hs Ec).
  - simplify_eq. exact (Hc _ _ _ Hs Ec).
Qed.

Lemma triple_for_each {A} (f : A -> PyM S unit) l : (forall x, triple (f x)) -> triple (for_each f l).
Proof. intros Hf. induction l as [|x l IH]; [by apply triple_pure|]. by apply triple_bind. Qed.

Lemma triple_modify (f : S -> S) : (forall s, P s -> P (f s)) -> triple (modify f).
Proof. intros Hf s o s' Hs. intros [= <- <-]. auto. Qed.
End Triples.
