(* ===== verification/Scheduler.v ===== *)
(** The Wikimedia request scheduler ([utils/request_scheduler.py]).

    The state of [AdaptiveRequestScheduler] is a record; every critical section of the class
    (the code between a lock's acquisition and its release) is one function on that record
    that takes the clock readings the section makes, in their order.  [SchedulerThreads.v]
    interleaves these sections. *)
From Stdlib Require Import QArith Qround Lqa.
From S2P Require Import Prelude Py.

(** * Settings *)

Definition ROLLING_WINDOW_S : Q := 60.
Definition SYSTEMIC_ACTIVE_HOST_WINDOW_S : Q := 60.
Definition SYSTEMIC_MINIMUM_HOSTS : Z := 5.
Definition SYSTEMIC_HOST_FRACTION : Q := 1 # 10.

Record RateLimits := {
  max_in_flight : Z;
  max_requests_per_minute : Q;
  minimum_requests_per_minute : Q;
  successes_per_increase : Z;
  host_throttle_window_s : Q;
  host_throttle_threshold : Z }.

Record SystemicConfig := {
  proportional_mode : bool;
  active_host_window_s : Q;
  minimum_systemic_hosts : Z;
  systemic_host_fraction : Q }.

(** [HostHealthPolicy]: the caller's settings, [None] where the argument is [None]. *)
Record HostHealthPolicy := {
  hh_host_throttle_window_s : Q;
  hh_host_throttle_threshold : Z;
  hh_active_host_window_s : option Q;
  hh_minimum_systemic_hosts : option Z;
  hh_systemic_host_fraction : option Q }.

(** [HostHealthPolicy()]. *)
Definition default_host_health : HostHealthPolicy := {|
  hh_host_throttle_window_s := 10; hh_host_throttle_threshold := 3;
  hh_active_host_window_s := None; hh_minimum_systemic_hosts := None;
  hh_systemic_host_fraction := None |}.

Definition require_positive (value : Q) (message : string) : outcome unit :=
  raise_if (fleb value 0) (exc CValueError (msg message)).

Definition require_at_least (value lower : Q) (message : string) : outcome unit :=
  raise_if (fltb value lower) (exc CValueError (msg message)).

Definition require_between (value lower upper : Q) (message : string) : outcome unit :=
  raise_if (negb (fleb lower value && fleb value upper)) (exc CValueError (msg message)).

Definition require_fraction (value : Q) (message : string) : outcome unit :=
  raise_if (negb (fltb 0 value && fleb value 1)) (exc CValueError (msg message)).

Definition with_default {A} (value : option A) (dflt : A) : A := default dflt value.

Definition has_proportional_settings (w : option Q) (h : option Z) (f : option Q) : bool :=
  bool_decide (is_Some w) || bool_decide (is_Some h) || bool_decide (is_Some f).

Definition validate_scheduler_values (max_in_flight : Z) (requests_per_minute : Q)
    (max_requests_per_minute : option Q) (minimum_requests_per_minute : Q)
    (successes_per_increase : Z) (host_throttle_window_s : Q) (host_throttle_threshold : Z)
    : outcome Q :=
  _ ← require_between (inject_Z max_in_flight) 1 16 "max_in_flight must be between 1 and 16";
  _ ← require_positive requests_per_minute "requests_per_minute must be positive";
  let maximum := default requests_per_minute max_requests_per_minute in
  _ ← raise_if (fltb maximum requests_per_minute)
        (exc CValueError (msg "max_requests_per_minute must not be below the initial rate"));
  let minimum_message :=
    "minimum_requests_per_minute must be positive and no greater than the initial rate"%string in
  _ ← require_positive minimum_requests_per_minute minimum_message;
  _ ← raise_if (fltb requests_per_minute minimum_requests_per_minute)
        (exc CValueError (msg minimum_message));
  _ ← require_positive (inject_Z successes_per_increase) "successes_per_increase must be positive";
  _ ← require_positive host_throttle_window_s "host_throttle_window_s must be positive";
  _ ← require_at_least (inject_Z host_throttle_threshold) 1
        "host_throttle_threshold must be at least 1";
  mret maximum.

Definition resolve_systemic_config (active_host_window_s : option Q)
    (minimum_systemic_hosts : option Z) (systemic_host_fraction : option Q)
    : outcome SystemicConfig :=
  let proportional :=
    has_proportional_settings active_host_window_s minimum_systemic_hosts
      systemic_host_fraction in
  let active_window := with_default active_host_window_s SYSTEMIC_ACTIVE_HOST_WINDOW_S in
  let minimum_hosts := with_default minimum_systemic_hosts SYSTEMIC_MINIMUM_HOSTS in
  let host_fraction := with_default systemic_host_fraction SYSTEMIC_HOST_FRACTION in
  _ ← require_positive active_window "active_host_window_s must be positive";
  _ ← require_at_least (inject_Z minimum_hosts) 1 "minimum_systemic_hosts must be at least 1";
  _ ← require_fraction host_fraction
        "systemic_host_fraction must be between 0 (exclusive) and 1";
  mret {| proportional_mode := proportional; active_host_window_s := active_window;
          minimum_systemic_hosts := minimum_hosts; systemic_host_fraction := host_fraction |}.

(** * State *)

(** [_HostState]; its lock is the atomicity of the functions below. *)
Record HostState := {
  hs_cooldown_until : Q;
  hs_next_request_at : Q;
  recent_throttles : list Q }.

Definition new_host_state : HostState :=
  {| hs_cooldown_until := 0; hs_next_request_at := 0; recent_throttles := [] |}.

(** [_GlobalRateState]; [last_systemic_reduction_at = None] is [float("-inf")]. *)
Record GlobalRateState := {
  current_requests_per_minute : Q;
  successful_requests : Z;
  next_request_at : Q;
  cooldown_until : Q;
  in_flight : Z;
  last_systemic_reduction_at : option Q }.

Record ThrottleHistory := {
  systemic_host_events : gmap str Q;
  global_throttle_times : list Q;
  active_host_timestamps : gmap str Q }.

Record Scheduler := {
  limits : RateLimits;
  systemic : SystemicConfig;
  rate : GlobalRateState;
  history : ThrottleHistory;
  host_states : gmap str HostState;
  request_started_at : list Q }.

Definition with_rate (r : GlobalRateState) (s : Scheduler) : Scheduler :=
  {| limits := limits s; systemic := systemic s; rate := r; history := history s;
     host_states := host_states s; request_started_at := request_started_at s |}.
Definition with_history (h : ThrottleHistory) (s : Scheduler) : Scheduler :=
  {| limits := limits s; systemic := systemic s; rate := rate s; history := h;
     host_states := host_states s; request_started_at := request_started_at s |}.
Definition with_host_states (m : gmap str HostState) (s : Scheduler) : Scheduler :=
  {| limits := limits s; systemic := systemic s; rate := rate s; history := history s;
     host_states := m; request_started_at := request_started_at s |}.
Definition with_request_started_at (l : list Q) (s : Scheduler) : Scheduler :=
  {| limits := limits s; systemic := systemic s; rate := rate s; history := history s;
     host_states := host_states s; request_started_at := l |}.

(** [AdaptiveRequestScheduler.__init__] (the clock, the sleep and the locks are not state). *)
Definition init (max_in_flight : Z) (requests_per_minute : Q)
    (max_requests_per_minute : option Q) (minimum_requests_per_minute : Q)
    (successes_per_increase : Z) (host_health : option HostHealthPolicy) : outcome Scheduler :=
  let health := default default_host_health host_health in
  maximum ← validate_scheduler_values max_in_flight requests_per_minute max_requests_per_minute
    minimum_requests_per_minute successes_per_increase
    (hh_host_throttle_window_s health) (hh_host_throttle_threshold health);
  systemic ← resolve_systemic_config (hh_active_host_window_s health)
    (hh_minimum_systemic_hosts health) (hh_systemic_host_fraction health);
  mret {|
    limits := {| max_in_flight := max_in_flight; max_requests_per_minute := maximum;
                 minimum_requests_per_minute := minimum_requests_per_minute;
                 successes_per_increase := successes_per_increase;
                 host_throttle_window_s := hh_host_throttle_window_s health;
                 host_throttle_threshold := hh_host_throttle_threshold health |};
    systemic := systemic;
    rate := {| current_requests_per_minute := requests_per_minute; successful_requests := 0;
               next_request_at := 0; cooldown_until := 0; in_flight := 0;
               last_systemic_reduction_at := None |};
    history := {| systemic_host_events := ∅; global_throttle_times := [];
                  active_host_timestamps := ∅ |};
    host_states := ∅;
    request_started_at := [] |}.

(** The process-wide scheduler of [default_scheduler()]. *)
Definition DEFAULT_SCHEDULER : outcome Scheduler :=
  init 3 180 None 60 100 (Some {|
    hh_host_throttle_window_s := 10; hh_host_throttle_threshold := 3;
    hh_active_host_window_s := Some SYSTEMIC_ACTIVE_HOST_WINDOW_S;
    hh_minimum_systemic_hosts := Some SYSTEMIC_MINIMUM_HOSTS;
    hh_systemic_host_fraction := Some SYSTEMIC_HOST_FRACTION |}).

(** * Rolling windows *)

(** [while deq and deq[0] < cutoff: deq.popleft()]. *)
Fixpoint pop_before (cutoff : Q) (deq : list Q) : list Q :=
  match deq with
  | [] => []
  | t :: r => if fltb t cutoff then pop_before cutoff r else deq
  end.

Definition prune_recent (deq : list Q) (now : Q) : list Q :=
  pop_before (now - ROLLING_WINDOW_S) deq.

Definition record_recent (deq : list Q) (now : Q) : list Q :=
  prune_recent (deq ++ [now]) now.

(** [{h: t for h, t in m.items() if t > cutoff}]. *)
Definition newer_than (cutoff : Q) (m : gmap str Q) : gmap str Q :=
  filter (fun kt => fltb cutoff kt.2 = true) m.

(** * Global rate *)

Definition set_cooldown (t : Q) (r : GlobalRateState) : GlobalRateState :=
  {| current_requests_per_minute := current_requests_per_minute r;
     successful_requests := successful_requests r; next_request_at := next_request_at r;
     cooldown_until := t; in_flight := in_flight r;
     last_systemic_reduction_at := last_systemic_reduction_at r |}.
Definition set_rate (q : Q) (n : Z) (r : GlobalRateState) : GlobalRateState :=
  {| current_requests_per_minute := q; successful_requests := n;
     next_request_at := next_request_at r; cooldown_until := cooldown_until r;
     in_flight := in_flight r; last_systemic_reduction_at := last_systemic_reduction_at r |}.
Definition set_next_request_at (t : Q) (r : GlobalRateState) : GlobalRateState :=
  {| current_requests_per_minute := current_requests_per_minute r;
     successful_requests := successful_requests r; next_request_at := t;
     cooldown_until := cooldown_until r; in_flight := in_flight r;
     last_systemic_reduction_at := last_systemic_reduction_at r |}.
Definition set_in_flight (n : Z) (r : GlobalRateState) : GlobalRateState :=
  {| current_requests_per_minute := current_requests_per_minute r;
     successful_requests := successful_requests r; next_request_at := next_request_at r;
     cooldown_until := cooldown_until r; in_flight := n;
     last_systemic_reduction_at := last_systemic_reduction_at r |}.
Definition set_last_systemic (t : Q) (r : GlobalRateState) : GlobalRateState :=
  {| current_requests_per_minute := current_requests_per_minute r;
     successful_requests := successful_requests r; next_request_at := next_request_at r;
     cooldown_until := cooldown_until r; in_flight := in_flight r;
     last_systemic_reduction_at := Some t |}.

Definition defer (clock delay_s : Q) (s : Scheduler) : Scheduler :=
  with_rate (set_cooldown (fmax (cooldown_until (rate s)) (clock + fmax 0 delay_s)) (rate s)) s.

Definition report_success (s : Scheduler) : Scheduler :=
  let r := rate s in
  if fleb (max_requests_per_minute (limits s)) (current_requests_per_minute r)
  then with_rate (set_rate (current_requests_per_minute r) 0 r) s
  else
    let n := successful_requests r + 1 in
    if n <? successes_per_increase (limits s)
    then with_rate (set_rate (current_requests_per_minute r) n r) s
    else with_rate
           (set_rate (fmin (max_requests_per_minute (limits s))
                           (current_requests_per_minute r * (5 # 4))) 0 r) s.

(** [_apply_global_throttle_locked]. *)
Definition apply_global_throttle_locked (clock delay_s : Q) (s : Scheduler) : Scheduler :=
  let r := set_cooldown (fmax (cooldown_until (rate s)) (clock + fmax 0 delay_s)) (rate s) in
  with_rate
    (set_rate (fmax (minimum_requests_per_minute (limits s))
                    (current_requests_per_minute r / 2)) 0 r) s.

Definition report_throttled (clock delay_s : Q) (s : Scheduler) : Scheduler :=
  apply_global_throttle_locked clock delay_s s.

(** [_apply_global_throttle]: [clock0] is read only when the event is counted. *)
Definition apply_global_throttle (clock0 clock delay_s : Q) (count_event : bool)
    (s : Scheduler) : Scheduler :=
  let h := history s in
  let s := if count_event
           then with_history {| systemic_host_events := systemic_host_events h;
                  global_throttle_times := record_recent (global_throttle_times h) clock0;
                  active_host_timestamps := active_host_timestamps h |} s
           else s in
  apply_global_throttle_locked clock delay_s s.

(** * Systemic throttling *)

Definition with_active (m : gmap str Q) (h : ThrottleHistory) : ThrottleHistory :=
  {| systemic_host_events := systemic_host_events h;
     global_throttle_times := global_throttle_times h; active_host_timestamps := m |}.

(** [_active_host_count]: prunes the activity map and returns its size. *)
Definition active_host_count (now : Q) (s : Scheduler) : Z * Scheduler :=
  let m := newer_than (now - active_host_window_s (systemic s))
             (active_host_timestamps (history s)) in
  (Z.of_nat (size m), with_history (with_active m (history s)) s).

(** [_systemic_threshold]. *)
Definition systemic_threshold (now : Q) (s : Scheduler) : Z * Scheduler :=
  if negb (proportional_mode (systemic s)) then (host_throttle_threshold (limits s), s)
  else
    let '(active, s') := active_host_count now s in
    if active =? 0 then (host_throttle_threshold (limits s), s')
    else (Z.min active
            (Z.max (minimum_systemic_hosts (systemic s))
               (Qceiling (inject_Z active * systemic_host_fraction (systemic s)))), s').

(** [now - last > window], where [last] may be [-inf]. *)
Definition window_elapsed (now : Q) (last : option Q) (window : Q) : bool :=
  match last with None => true | Some t => fltb window (now - t) end.

(** [_record_systemic_host_event]: one critical section; [clock] is the reading that
    [_active_host_count] makes inside it. *)
Definition record_systemic_host_event (host : str) (now clock : Q) (s : Scheduler)
    : bool * Scheduler :=
  let h := history s in
  let events := <[host := now]>
    (newer_than (now - host_throttle_window_s (limits s)) (systemic_host_events h)) in
  let s1 := with_history
    {| systemic_host_events := events;
       global_throttle_times := record_recent (global_throttle_times h) now;
       active_host_timestamps := active_host_timestamps h |} s in
  let '(threshold, s2) := systemic_threshold clock s1 in
  if (threshold <=? Z.of_nat (size events)) &&
     window_elapsed now (last_systemic_reduction_at (rate s2)) (host_throttle_window_s (limits s2))
  then (true, with_rate (set_last_systemic now (rate s2)) s2)
  else (false, s2).

(** * Per-host state *)

(** [_host_state]: the host's record, created on first use. *)
Definition host_state (host : str) (s : Scheduler) : HostState * Scheduler :=
  match host_states s !! host with
  | Some st => (st, s)
  | None => (new_host_state, with_host_states (<[host := new_host_state]> (host_states s)) s)
  end.

Definition update_host (host : str) (f : HostState -> HostState) (s : Scheduler) : Scheduler :=
  let '(st, s') := host_state host s in
  with_host_states (<[host := f st]> (host_states s')) s'.

(** The per-host section of [report_host_throttled]. *)
Definition throttle_host (host : str) (now delay : Q) (s : Scheduler) : Scheduler :=
  update_host host (fun st =>
    {| hs_cooldown_until := fmax (hs_cooldown_until st) (now + delay);
       hs_next_request_at := hs_next_request_at st;
       recent_throttles := record_recent (recent_throttles st) now |}) s.

(** [report_host_throttled] run without interference: [now], [clock1] and [clock2] are its
    three clock readings. *)
Definition report_host_throttled (host : str) (delay_s now clock1 clock2 : Q)
    (s : Scheduler) : Scheduler :=
  let s1 := throttle_host host now (fmax 0 delay_s) s in
  let '(escalate, s2) := record_systemic_host_event host now clock1 s1 in
  if escalate then apply_global_throttle clock2 clock2 delay_s false s2 else s2.

(** The first section of [pace_host]: the host is active. *)
Definition mark_active (host : str) (now : Q) (s : Scheduler) : Scheduler :=
  with_history (with_active (<[host := now]> (active_host_timestamps (history s))) (history s)) s.

(** The reservation section of [pace_host]'s loop: the time at which the host is ready. *)
Definition pace_reserve (host : str) (now min_interval_s : Q) (s : Scheduler) : Q * Scheduler :=
  let '(st, s') := host_state host s in
  let ready_at := fmax (fmax now (hs_cooldown_until st)) (hs_next_request_at st) in
  (ready_at,
   with_host_states (<[host :=
     {| hs_cooldown_until := hs_cooldown_until st;
        hs_next_request_at := ready_at + fmax 0 min_interval_s;
        recent_throttles := recent_throttles st |}]> (host_states s')) s').

(** The re-check after the sleep: whether the cooldown moved past the wake time. *)
Definition pace_recheck (host : str) (clock : Q) (s : Scheduler) : bool :=
  fltb clock (hs_cooldown_until (host_state host s).1).

(** * Running an operation *)

(** The slot reservation of [run]. *)
Definition run_reserve (now : Q) (s : Scheduler) : Q * Scheduler :=
  let r := rate s in
  let ready_at := fmax (fmax now (next_request_at r)) (cooldown_until r) in
  let interval := (60 / current_requests_per_minute r)%Q in
  (ready_at, with_rate (set_next_request_at (ready_at + interval) r) s).

(** The section of [run] that records the start. *)
Definition run_start (now : Q) (s : Scheduler) : Scheduler :=
  with_rate (set_in_flight (in_flight (rate s) + 1) (rate s))
    (with_request_started_at (record_recent (request_started_at s) now) s).

(** The [finally] of [run]. *)
Definition run_finish (s : Scheduler) : Scheduler :=
  with_rate (set_in_flight (in_flight (rate s) - 1) (rate s)) s.

(** * Snapshot *)

Record RequestSchedulerSnapshot := {
  sn_requests_last_minute : Z;
  sn_current_requests_per_minute : Q;
  sn_maximum_requests_per_minute : Q;
  sn_utilization_percent : Q;
  sn_in_flight : Z;
  sn_max_in_flight : Z;
  sn_throttle_events : Z;
  sn_throttled_hosts_last_minute : Z;
  sn_cooling_down_hosts : Z;
  sn_cooldown_remaining_s : Q }.

(** [_global_snapshot_metrics]: the count of recent requests and of recent throttles, the
    remaining cooldown, the utilisation, and the pruned state. *)
Definition global_snapshot_metrics (now : Q) (s : Scheduler) : (Z * Z * Q * Q) * Scheduler :=
  let started := pop_before (now - ROLLING_WINDOW_S) (request_started_at s) in
  let recent := Z.of_nat (length started) in
  let times := prune_recent (global_throttle_times (history s)) now in
  let s1 := with_request_started_at started s in
  let s2 := with_history {| systemic_host_events := systemic_host_events (history s);
                            global_throttle_times := times;
                            active_host_timestamps := active_host_timestamps (history s) |} s1 in
  ((recent, Z.of_nat (length times), fmax 0 (cooldown_until (rate s) - now),
    inject_Z recent / max_requests_per_minute (limits s) * 100)%Q, s2).

Definition prune_host (now : Q) (st : HostState) : HostState :=
  {| hs_cooldown_until := hs_cooldown_until st; hs_next_request_at := hs_next_request_at st;
     recent_throttles := prune_recent (recent_throttles st) now |}.

(** [_host_snapshot_metrics]: throttled and cooling hosts. *)
Definition host_snapshot_metrics (now : Q) (s : Scheduler) : (Z * Z) * Scheduler :=
  let m := prune_host now <$> host_states s in
  ((Z.of_nat (size (filter (fun kst => recent_throttles kst.2 ≠ []) m)),
    Z.of_nat (size (filter (fun kst => fltb now (hs_cooldown_until kst.2) = true) m))),
   with_host_states m s).

Definition snapshot (now : Q) (s : Scheduler) : RequestSchedulerSnapshot * Scheduler :=
  let '((recent, throttle_events, global_cooldown, utilization), s1) :=
    global_snapshot_metrics now s in
  let '((throttled_hosts, cooling_down), s2) := host_snapshot_metrics now s1 in
  ({| sn_requests_last_minute := recent;
      sn_current_requests_per_minute := current_requests_per_minute (rate s2);
      sn_maximum_requests_per_minute := max_requests_per_minute (limits s2);
      sn_utilization_percent := utilization;
      sn_in_flight := in_flight (rate s2);
      sn_max_in_flight := max_in_flight (limits s2);
      sn_throttle_events := throttle_events;
      sn_throttled_hosts_last_minute := throttled_hosts;
      sn_cooling_down_hosts := cooling_down;
      sn_cooldown_remaining_s := global_cooldown |}, s2).
