(* ===== verification/SchedulerThreads.v ===== *)
(** The scheduler under concurrency: threads that interleave the critical sections of
    [AdaptiveRequestScheduler], the global semaphore and the clock, as a labelled step
    relation; and the scheduler's guarantees on every reachable state. *)
From Stdlib Require Import QArith Qround Lqa.
From S2P Require Import Prelude Py Scheduler.

(** * Threads *)

(** Where a thread is inside [pace_host], [run] or [report_host_throttled].  A constructor is
    named after the last section the thread has executed; its arguments are the local variables
    the rest of the method needs. *)
Inductive phase :=
  | Idle
  (* pace_host *)
  | Pacing (host : str) (min_interval : Q)
  | PaceReady (host : str) (min_interval ready_at : Q)
  | PaceSleeping (host : str) (min_interval wake_at : Q)
  (* run *)
  | Permitted
  | Reserved (ready_at : Q)
  | RunSleeping (ready_at wake_at : Q)
  | Starting (ready_at : Q)
  | Running
  | Finished
  (* report_host_throttled *)
  | ThrottleRead (host : str) (delay_s now : Q)
  | ThrottleHost (host : str) (delay_s now : Q)
  | ThrottleGlobal (delay_s : Q).

(** What an observer sees of a step. *)
Inductive label :=
  | LTau
  | LPaceReserve (host : str) (min_interval ready_at : Q)
  | LPaceReturn (host : str) (ready_at clock : Q)
  | LReserve (ready_at : Q)
  | LStart (ready_at clock : Q)
  | LEscalate (now : Q).

(** One step of one thread at clock time [t]: shared state, free permits, phase. *)
Inductive tstep (t : Q) :
  Scheduler * Z * phase -> label -> Scheduler * Z * phase -> Prop :=
  | ts_pace s n host mi :
      tstep t (s, n, Idle) LTau (mark_active host t s, n, Pacing host mi)
  | ts_pace_reserve s n host mi :
      tstep t (s, n, Pacing host mi) (LPaceReserve host mi (pace_reserve host t mi s).1)
        ((pace_reserve host t mi s).2, n, PaceReady host mi (pace_reserve host t mi s).1)
  | ts_pace_return s n host mi ready_at :
      (ready_at - t <= 0)%Q ->
      tstep t (s, n, PaceReady host mi ready_at) (LPaceReturn host ready_at t) (s, n, Idle)
  | ts_pace_sleep s n host mi ready_at :
      (0 < ready_at - t)%Q ->
      tstep t (s, n, PaceReady host mi ready_at) LTau
        (s, n, PaceSleeping host mi (t + (ready_at - t)))
  | ts_pace_again s n host mi wake_at :
      (wake_at <= t)%Q -> pace_recheck host t s = true ->
      tstep t (s, n, PaceSleeping host mi wake_at) LTau (s, n, Pacing host mi)
  | ts_pace_wake s n host mi wake_at :
      (wake_at <= t)%Q -> pace_recheck host t s = false ->
      tstep t (s, n, PaceSleeping host mi wake_at) (LPaceReturn host wake_at t) (s, n, Idle)
  | ts_acquire s n :
      0 < n -> tstep t (s, n, Idle) LTau (s, n - 1, Permitted)
  | ts_reserve s n :
      tstep t (s, n, Permitted) (LReserve (run_reserve t s).1)
        ((run_reserve t s).2, n, Reserved (run_reserve t s).1)
  | ts_nowait s n ready_at :
      (ready_at - t <= 0)%Q ->
      tstep t (s, n, Reserved ready_at) LTau (s, n, Starting ready_at)
  | ts_sleep s n ready_at :
      (0 < ready_at - t)%Q ->
      tstep t (s, n, Reserved ready_at) LTau (s, n, RunSleeping ready_at (t + (ready_at - t)))
  | ts_wake s n ready_at wake_at :
      (wake_at <= t)%Q ->
      tstep t (s, n, RunSleeping ready_at wake_at) LTau (s, n, Starting ready_at)
  | ts_start s n ready_at :
      tstep t (s, n, Starting ready_at) (LStart ready_at t) (run_start t s, n, Running)
  | ts_finish s n :
      tstep t (s, n, Running) LTau (run_finish s, n, Finished)
  | ts_release s n :
      tstep t (s, n, Finished) LTau (s, n + 1, Idle)
  | ts_success s n :
      tstep t (s, n, Idle) LTau (report_success s, n, Idle)
  | ts_defer s n delay_s :
      tstep t (s, n, Idle) LTau (defer t delay_s s, n, Idle)
  | ts_throttled s n delay_s :
      tstep t (s, n, Idle) LTau (report_throttled t delay_s s, n, Idle)
  | ts_throttle_read s n host delay_s :
      tstep t (s, n, Idle) LTau (s, n, ThrottleRead host delay_s t)
  | ts_throttle_host s n host delay_s now :
      tstep t (s, n, ThrottleRead host delay_s now) LTau
        (throttle_host host now (fmax 0 delay_s) s, n, ThrottleHost host delay_s now)
  | ts_throttle_event s n host delay_s now s' :
      record_systemic_host_event host now t s = (false, s') ->
      tstep t (s, n, ThrottleHost host delay_s now) LTau (s', n, Idle)
  | ts_throttle_escalate s n host delay_s now s' :
      record_systemic_host_event host now t s = (true, s') ->
      tstep t (s, n, ThrottleHost host delay_s now) (LEscalate now) (s', n, ThrottleGlobal delay_s)
  | ts_throttle_global s n delay_s :
      tstep t (s, n, ThrottleGlobal delay_s) LTau
        (apply_global_throttle t t delay_s false s, n, Idle).

(** The process: shared state, free permits of the [BoundedSemaphore], the monotonic clock and
    the threads. *)
Record System := mkSystem {
  sched : Scheduler;
  free : Z;
  clock : Q;
  threads : list phase }.

Inductive step : System -> label -> System -> Prop :=
  | step_tick y t :
      (clock y <= t)%Q -> step y LTau (mkSystem (sched y) (free y) t (threads y))
  | step_thread y i ph l s' n' ph' :
      threads y !! i = Some ph ->
      tstep (clock y) (sched y, free y, ph) l (s', n', ph') ->
      step y l (mkSystem s' n' (clock y) (<[i := ph']> (threads y))).

(** Runs, with the labels in the order of the steps. *)
Inductive steps : System -> list label -> System -> Prop :=
  | steps_refl y : steps y [] y
  | steps_step y ls y' l y'' : steps y ls y' -> step y' l y'' -> steps y (ls ++ [l]) y''.

(** [k] threads around a scheduler that [init] accepted, at clock time [t]. *)
Definition initial (s : Scheduler) (k : nat) (t : Q) : System :=
  mkSystem s (max_in_flight (limits s)) t (replicate k Idle).

(** [s] comes from [__init__]. *)
Definition constructed (s : Scheduler) : Prop :=
  exists m rpm mx mn succ h, init m rpm mx mn succ h = Ok s.

(** * Which critical section touches what *)

Definition holds_permit (ph : phase) : Z :=
  match ph with
  | Permitted | Reserved _ | RunSleeping _ _ | Starting _ | Running | Finished => 1
  | _ => 0
  end.
Definition is_running (ph : phase) : Z := match ph with Running => 1 | _ => 0 end.

Ltac scheduler_cases :=
  repeat match goal with
  | |- context [match ?x with _ => _ end] => destruct x eqn:?; simpl
  | H : context [match ?x with _ => _ end] |- _ => destruct x eqn:?; simplify_eq/=
  end.

(** The settings never change after construction. *)
Lemma host_state_settings host s :
  limits (host_state host s).2 = limits s /\ rate (host_state host s).2 = rate s /\
  history (host_state host s).2 = history s.
Proof. unfold host_state. by scheduler_cases. Qed.

Lemma record_event_frame host now c s b s' :
  record_systemic_host_event host now c s = (b, s') ->
  limits s' = limits s /\ host_states s' = host_states s /\
  (if b then window_elapsed now (last_systemic_reduction_at (rate s))
               (host_throttle_window_s (limits s)) = true /\
             rate s' = set_last_systemic now (rate s)
   else rate s' = rate s).
Proof.
  unfold record_systemic_host_event, systemic_threshold, active_host_count.
  intros H. scheduler_cases; repeat split; try done;
  match goal with E : andb _ _ = true |- _ => by apply andb_true_iff in E as [_ ?] end.
Qed.

(** Runs the case analysis of a step; [tac] closes the cases that need an argument. *)
Ltac tstep_cases H :=
  inversion H; subst; simpl in *;
  try (match goal with R : record_systemic_host_event _ _ _ _ = _ |- _ =>
         destruct (record_event_frame _ _ _ _ _ _ R) as (? & ? & ?) end);
  unfold throttle_host, update_host, pace_reserve in *;
  try (match goal with |- context [host_state ?h ?s0] =>
         destruct (host_state_settings h s0) as (? & ? & ?); destruct (host_state h s0) end);
  simpl in *; destruct_and?.

Lemma tstep_limits t s n ph l s' n' ph' :
  tstep t (s, n, ph) l (s', n', ph') -> limits s' = limits s.
Proof. intros H. tstep_cases H; try done. unfold report_success. by scheduler_cases. Qed.

(** Permits and the in-flight counter move with the thread's phase. *)
Lemma tstep_counts t s n ph l s' n' ph' :
  tstep t (s, n, ph) l (s', n', ph') ->
  n' + holds_permit ph' = n + holds_permit ph /\
  in_flight (rate s') - is_running ph' = in_flight (rate s) - is_running ph /\
  (0 <= n -> 0 <= n').
Proof.
  intros H. tstep_cases H; unfold report_success; scheduler_cases;
    repeat match goal with E : rate _ = _ |- _ => rewrite E end; simpl; lia.
Qed.

(** * Rates *)

Definition rate_bounded (s : Scheduler) : Prop :=
  (0 < minimum_requests_per_minute (limits s) /\
   minimum_requests_per_minute (limits s) <= current_requests_per_minute (rate s) /\
   current_requests_per_minute (rate s) <= max_requests_per_minute (limits s))%Q.

Lemma report_success_bounded s : rate_bounded s -> rate_bounded (report_success s).
Proof.
  unfold rate_bounded, report_success. intros (? & ? & ?).
  destruct (fleb_spec (max_requests_per_minute (limits s)) (current_requests_per_minute (rate s)));
    simpl; [done|].
  destruct (_ <? _); simpl; [done|]. qorder.
Qed.

Lemma global_throttle_bounded c d s :
  rate_bounded s -> rate_bounded (apply_global_throttle_locked c d s).
Proof. unfold rate_bounded. simpl. intros (? & ? & ?). clear -H H0 H1. qorder. Qed.

Lemma tstep_bounded t s n ph l s' n' ph' :
  tstep t (s, n, ph) l (s', n', ph') -> rate_bounded s -> rate_bounded s'.
Proof.
  intros H HB.
  assert (Hsame : limits s' = limits s -> 
    current_requests_per_minute (rate s') = current_requests_per_minute (rate s) ->
    rate_bounded s') by (unfold rate_bounded; intros -> ->; done).
  tstep_cases H; try done;
    try (by apply Hsame; [congruence|]; repeat match goal with E : rate _ = _ |- _ => rewrite E end);
    eauto using report_success_bounded, global_throttle_bounded.
Qed.

(** * Invariants of the reachable states *)

(** An invariant of the scheduler and one thread that holds of the initial system and that
    every thread step preserves holds in every reachable state. *)
Lemma steps_invariant (P : System -> Prop) y ls y' :
  P y ->
  (forall y t, (clock y <= t)%Q -> P y -> P (mkSystem (sched y) (free y) t (threads y))) ->
  (forall y i ph l s' n' ph', P y -> threads y !! i = Some ph ->
     tstep (clock y) (sched y, free y, ph) l (s', n', ph') ->
     P (mkSystem s' n' (clock y) (<[i := ph']> (threads y)))) ->
  steps y ls y' -> P y'.
Proof.
  intros Hy Htick Hthr Hs. induction Hs as [|y ls y' l y'' _ IH Hstep]; [done|].
  specialize (IH Hy). inversion Hstep; subst; eauto.
Qed.

(** The same with a property of the labels seen so far. *)
Lemma steps_trace_invariant (P : list label -> System -> Prop) y ls y' :
  P [] y ->
  (forall ls y t, (clock y <= t)%Q -> P ls y ->
     P (ls ++ [LTau]) (mkSystem (sched y) (free y) t (threads y))) ->
  (forall ls y i ph l s' n' ph', P ls y -> threads y !! i = Some ph ->
     tstep (clock y) (sched y, free y, ph) l (s', n', ph') ->
     P (ls ++ [l]) (mkSystem s' n' (clock y) (<[i := ph']> (threads y)))) ->
  steps y ls y' -> P ls y'.
Proof.
  intros Hy Htick Hthr Hs. induction Hs as [|y ls y' l y'' _ IH Hstep]; [done|].
  specialize (IH Hy). inversion Hstep; subst; eauto.
Qed.

Lemma require_between_Ok v a b m x : require_between v a b m = Ok x -> (a <= v <= b)%Q.
Proof.
  unfold require_between. rewrite raise_if_Ok, negb_false_iff, andb_true_iff.
  intros [H1 H2]. revert H1 H2. destruct (fleb_spec a v), (fleb_spec v b); done.
Qed.

Lemma require_positive_Ok v m x : require_positive v m = Ok x -> (0 < v)%Q.
Proof.
  unfold require_positive. rewrite raise_if_Ok. destruct (fleb_spec v 0); [done|intros _; lra].
Qed.

Lemma raise_if_fltb_Ok a b e x : raise_if (fltb a b) e = Ok x -> (b <= a)%Q.
Proof. rewrite raise_if_Ok. destruct (fltb_spec a b); [done|intros _; lra]. Qed.

Lemma validate_Ok m rpm mx mn su w th maximum :
  validate_scheduler_values m rpm mx mn su w th = Ok maximum ->
  1 <= m <= 16 /\ (0 < mn)%Q /\ (mn <= rpm)%Q /\ (rpm <= maximum)%Q /\ (0 < w)%Q /\
  1 <= su /\ 1 <= th.
Proof.
  unfold validate_scheduler_values, require_at_least. intros H. outcome_inv H.
  repeat match goal with
  | E : require_between _ _ _ _ = _ |- _ => apply require_between_Ok in E
  | E : require_positive _ _ = _ |- _ => apply require_positive_Ok in E
  | E : raise_if (fltb _ _) _ = _ |- _ => apply raise_if_fltb_Ok in E
  end.
  unfold mret, outcome_ret in H. simplify_eq.
  unfold Qle, Qlt in *; simpl in *. rewrite !Z.mul_1_r in *.
  repeat split; try done; lia.
Qed.

Lemma constructed_facts s :
  constructed s ->
  1 <= max_in_flight (limits s) <= 16 /\ rate_bounded s /\ in_flight (rate s) = 0 /\
  last_systemic_reduction_at (rate s) = None /\ host_states s = ∅ /\
  request_started_at s = [] /\ (0 < host_throttle_window_s (limits s))%Q /\
  1 <= host_throttle_threshold (limits s).
Proof.
  intros (m & rpm & mx & mn & su & h & H). unfold init in H. outcome_inv H.
  apply validate_Ok in E as (? & ? & ? & ? & ? & ? & ?).
  unfold mret, outcome_ret in H. simplify_eq. unfold rate_bounded; simpl.
  repeat split; done || lia.
Qed.

Lemma zsum_replicate {A} (f : A -> Z) k x : zsum f (replicate k x) = Z.of_nat k * f x.
Proof. induction k as [|k IH]; [done|]. simpl. unfold zsum in *. simpl. rewrite IH. lia. Qed.

Lemma running_le_holding l : zsum is_running l <= zsum holds_permit l.
Proof. apply zsum_le. by intros []. Qed.

(** C8: in every reachable state of a constructed scheduler with any number of threads, the
    in-flight counter counts exactly the threads inside [operation()], the semaphore's free
    permits and the permits held add up to [max_in_flight], and so never more than
    [max_in_flight] operations run. *)
Theorem run_concurrency_bounded s k t ls y :
  constructed s -> steps (initial s k t) ls y ->
  in_flight (rate (sched y)) = zsum is_running (threads y) /\
  free y + zsum holds_permit (threads y) = max_in_flight (limits s) /\
  0 <= in_flight (rate (sched y)) <= max_in_flight (limits s).
Proof.
  intros Hc Hs. apply constructed_facts in Hc as (Hm & _ & Hz & _).
  assert (in_flight (rate (sched y)) = zsum is_running (threads y) /\
          free y + zsum holds_permit (threads y) = max_in_flight (limits s) /\ 0 <= free y)
    as (H1 & H2 & H3).
  { revert Hs. apply (steps_invariant (fun y => in_flight (rate (sched y)) = zsum is_running (threads y) /\
      free y + zsum holds_permit (threads y) = max_in_flight (limits s) /\ 0 <= free y)); simpl.
    - rewrite !zsum_replicate. simpl. lia.
    - done.
    - intros y0 i ph l s' n' ph' (H1 & H2 & H3) Hi Ht.
      apply tstep_counts in Ht as (? & ? & ?). rewrite !(zsum_insert _ _ _ _ _ Hi). lia. }
  pose proof (running_le_holding (threads y)).
  assert (0 <= zsum is_running (threads y)) by (apply zsum_nonneg; by intros []).
  lia.
Qed.

(** The limits of a reachable state are the constructed ones, and its rate is bounded. *)
Lemma reachable_bounded s k t ls y :
  constructed s -> steps (initial s k t) ls y ->
  limits (sched y) = limits s /\ rate_bounded (sched y).
Proof.
  intros Hc. apply constructed_facts in Hc as (_ & Hr & _).
  apply (steps_invariant (fun y => limits (sched y) = limits s /\ rate_bounded (sched y))); simpl.
  - done.
  - done.
  - intros y0 i ph l s' n' ph' [H1 H2] Hi Ht.
    split; [etrans; [by eapply tstep_limits|done]|by eapply tstep_bounded].
Qed.

(** Whatever mix of successes, deferrals, global and per-host throttles the threads report,
    the request rate stays between the configured minimum and maximum. *)
Theorem rate_always_within_limits s k t ls y :
  constructed s -> steps (initial s k t) ls y ->
  (minimum_requests_per_minute (limits s) <= current_requests_per_minute (rate (sched y)) <=
   max_requests_per_minute (limits s))%Q.
Proof.
  intros Hc Hs. destruct (reachable_bounded _ _ _ _ _ Hc Hs) as (HL & _ & ? & ?).
  rewrite <- HL. done.
Qed.

(** * Systemic reductions *)

(** The times of the escalations of a run. *)
Definition escalations (ls : list label) : list Q :=
  omap (fun l => match l with LEscalate t => Some t | _ => None end) ls.

Definition escalated_before (ls : list label) (s : Scheduler) : Prop :=
  forall t, t ∈ escalations ls ->
    exists last, last_systemic_reduction_at (rate s) = Some last /\ (t <= last)%Q.

(** Only an escalation moves the suppression timestamp, and it moves it past the window. *)
Lemma tstep_last_systemic t s n ph l s' n' ph' :
  tstep t (s, n, ph) l (s', n', ph') ->
  match l with
  | LEscalate now =>
      last_systemic_reduction_at (rate s') = Some now /\
      window_elapsed now (last_systemic_reduction_at (rate s)) (host_throttle_window_s (limits s)) = true
  | _ => last_systemic_reduction_at (rate s') = last_systemic_reduction_at (rate s)
  end.
Proof.
  intros H. tstep_cases H; unfold report_success; scheduler_cases; try done; by simplify_eq/=;
    repeat match goal with E : rate _ = _ |- _ => rewrite E end.
Qed.

(** The global rate reductions that host throttles trigger are more than one throttle window
    apart, for every interleaving of the reporting threads and whatever clock values they read:
    [now] is read before the lock is taken, so the times need not be the clock's current one. *)
Theorem systemic_reductions_spaced s k t ls y :
  constructed s -> steps (initial s k t) ls y ->
  StronglySorted (fun t1 t2 => (t1 + host_throttle_window_s (limits s) < t2)%Q) (escalations ls).
Proof.
  intros Hc Hs. pose proof (constructed_facts _ Hc) as (_ & _ & _ & Hl & _ & _ & Hw & _).
  enough (limits (sched y) = limits s /\ escalated_before ls (sched y) /\
          StronglySorted (fun t1 t2 => (t1 + host_throttle_window_s (limits s) < t2)%Q)
            (escalations ls)) by tauto.
  revert Hs. apply (steps_trace_invariant (fun ls y =>
    limits (sched y) = limits s /\ escalated_before ls (sched y) /\
    StronglySorted (fun t1 t2 => (t1 + host_throttle_window_s (limits s) < t2)%Q)
      (escalations ls))); simpl.
  - split_and!; [done|by intros ? ?%elem_of_nil|constructor].
  - intros ls0 y0 t0 _ (H1 & H2 & H3). unfold escalated_before, escalations in *.
    rewrite omap_app, app_nil_r. done.
  - intros ls0 y0 i ph l s' n' ph' (H1 & H2 & H3) Hi Ht.
    pose proof (tstep_limits _ _ _ _ _ _ _ _ Ht) as HL.
    apply tstep_last_systemic in Ht. split; [congruence|].
    unfold escalated_before, escalations in *. rewrite omap_app. simpl.
    destruct l; rewrite ?app_nil_r, ?Ht; try done.
    destruct Ht as [Ht Hel]. rewrite Ht. unfold window_elapsed in Hel.
    assert (Hbefore : forall q, q ∈ omap (fun l => match l with LEscalate t => Some t | _ => None end) ls0 ->
              (q + host_throttle_window_s (limits s) < now)%Q).
    { intros q Hq. destruct (H2 q Hq) as (last & HE & Hle). rewrite HE, H1 in Hel.
      destruct (fltb_spec (host_throttle_window_s (limits s)) (now - last)); [lra|done]. }
    split.
    + intros q Hq. exists now. split; [done|].
      apply elem_of_app in Hq as [Hq|Hq]; [specialize (Hbefore q Hq); lra|].
      apply list_elem_of_singleton in Hq as ->. lra.
    + apply StronglySorted_snoc; [done|]. apply Forall_forall. exact Hbefore.
Qed.

(** * Slots of the global budget *)

Definition reservations (ls : list label) : list Q :=
  omap (fun l => match l with LReserve r => Some r | _ => None end) ls.

Lemma interval_at_rate lo hi : (0 < lo)%Q -> (lo <= hi)%Q -> (60 / hi <= 60 / lo)%Q.
Proof.
  intros H1 H2. apply Qle_shift_div_l; [done|].
  assert (Hhi : (0 < hi)%Q) by lra.
  assert (E : (60 / hi * lo == 60 * lo / hi)%Q) by (field; lra). rewrite E.
  apply Qle_shift_div_r; [done|]. lra.
Qed.

(** Only [run]'s reservation moves the global slot cursor: to its slot plus an interval. *)
Lemma tstep_next_request t s n ph l s' n' ph' :
  tstep t (s, n, ph) l (s', n', ph') -> rate_bounded s ->
  match l with
  | LReserve r => (next_request_at (rate s) <= r)%Q /\
      (r + 60 / max_requests_per_minute (limits s) <= next_request_at (rate s'))%Q
  | _ => next_request_at (rate s') = next_request_at (rate s)
  end.
Proof.
  intros H HB. tstep_cases H; unfold report_success; scheduler_cases; try done;
    repeat match goal with E : rate _ = _ |- _ => rewrite E end; try done.
  destruct HB as (? & ? & ?).
  assert (Hi : (60 / max_requests_per_minute (limits s) <=
          60 / current_requests_per_minute (rate s))%Q) by (apply interval_at_rate; lra).
  split; [qorder|]. revert Hi.
  generalize (60 / max_requests_per_minute (limits s))%Q (60 / current_requests_per_minute (rate s))%Q.
  intros. lra.
Qed.

(** The slots that [run] hands out, in the order of the reservations and across all threads,
    are at least [60 / max_requests_per_minute] seconds apart: the request ceiling. *)
Theorem reserved_slots_respect_ceiling s k t ls y :
  constructed s -> steps (initial s k t) ls y ->
  StronglySorted (fun r1 r2 => (r1 + 60 / max_requests_per_minute (limits s) <= r2)%Q)
    (reservations ls).
Proof.
  intros Hc Hs. pose proof (constructed_facts _ Hc) as (_ & Hr & _).
  set (gap := (60 / max_requests_per_minute (limits s))%Q).
  assert (Hgap : (0 <= gap)%Q).
  { destruct Hr as (? & ? & ?). apply Qle_shift_div_l; lra. }
  pose (P := fun ls y => limits (sched y) = limits s /\ rate_bounded (sched y) /\
    (forall r, r ∈ reservations ls -> (r + gap <= next_request_at (rate (sched y)))%Q) /\
    StronglySorted (fun r1 r2 => (r1 + gap <= r2)%Q) (reservations ls)).
  enough (P ls y) by (unfold P in *; tauto).
  revert Hs. apply (steps_trace_invariant P); unfold P, reservations; simpl.
  - split_and!; try done; [by intros ? ?%elem_of_nil|constructor].
  - intros ls0 y0 t0 _ HP. rewrite omap_app, app_nil_r. done.
  - intros ls0 y0 i ph l s' n' ph' (H1 & HB & H2 & H3) Hi Ht.
    split; [etrans; [by eapply tstep_limits|done]|].
    split; [by eapply tstep_bounded|].
    apply tstep_next_request in Ht; [|done]. rewrite omap_app. simpl.
    destruct l; rewrite ?app_nil_r, ?Ht; try done.
    destruct Ht as [Hge Hnext]. rewrite H1 in Hnext. fold gap in Hnext. split.
    + intros r Hr'. apply elem_of_app in Hr' as [Hr'|Hr'].
      * specialize (H2 r Hr'). lra.
      * apply list_elem_of_singleton in Hr' as ->. lra.
    + apply StronglySorted_snoc; [done|]. apply Forall_forall. intros r Hr'.
      specialize (H2 r Hr'). simpl. lra.
Qed.

(** * Sleeping *)

(** The local variables of the waiting threads, at clock time [t]. *)
Definition phase_ok (t : Q) (ph : phase) : Prop :=
  match ph with
  | RunSleeping ready_at wake_at => (ready_at <= wake_at)%Q
  | Starting ready_at => (ready_at <= t)%Q
  | _ => True
  end.

Lemma phases_ok s k t ls y :
  steps (initial s k t) ls y -> Forall (phase_ok (clock y)) (threads y).
Proof.
  apply (steps_invariant (fun y => Forall (phase_ok (clock y)) (threads y))); simpl.
  - apply Forall_replicate. done.
  - intros y0 t0 Hle HF. eapply Forall_impl; [exact HF|]. intros []; simpl; try done. lra.
  - intros y0 i ph l s' n' ph' HF Hi Ht. apply Forall_insert; [done|].
    pose proof (Forall_lookup_1 _ _ _ _ HF Hi) as Hph.
    inversion Ht; subst; simpl in *; try done; lra.
Qed.

(** An operation starts at or after the slot it reserved, even though the wait is computed
    and slept outside the lock. *)
Theorem run_starts_after_its_slot s k t ls y r c y' :
  steps (initial s k t) ls y -> step y (LStart r c) y' -> (r <= c)%Q /\ c = clock y'.
Proof.
  intros Hs%phases_ok Hstep. inversion Hstep as [|y0 i ph l s' n' ph' Hi Ht]; subst.
  inversion Ht; subst. simpl. split; [|done].
  pose proof (Forall_lookup_1 _ _ _ _ Hs Hi) as Hph. simpl in Hph. congruence.
Qed.

(** * Per-host pacing *)

(** The record [_host_state] would return for a host. *)
Definition host_of (host : str) (s : Scheduler) : HostState := (host_state host s).1.

Lemma host_of_lookup host s : host_of host s = default new_host_state (host_states s !! host).
Proof. unfold host_of, host_state. by destruct (host_states s !! host). Qed.

Lemma host_of_update host host' f s :
  host_of host' (update_host host f s) =
  if decide (host = host') then f (host_of host s) else host_of host' s.
Proof.
  rewrite !host_of_lookup. unfold update_host, host_state.
  destruct (host_states s !! host) eqn:E; simpl; rewrite lookup_insert;
    case_decide; simplify_eq; rewrite ?E; try done; by rewrite lookup_insert_ne.
Qed.

#[local] Arguments pace_reserve : simpl never.
#[local] Arguments host_of : simpl never.

Lemma pace_reserve_host host now mi s host' :
  let ready := (pace_reserve host now mi s).1 in
  host_of host' (pace_reserve host now mi s).2 =
  if decide (host = host')
  then {| hs_cooldown_until := hs_cooldown_until (host_of host s);
          hs_next_request_at := ready + fmax 0 mi;
          recent_throttles := recent_throttles (host_of host s) |}
  else host_of host' s.
Proof.
  rewrite !host_of_lookup. unfold pace_reserve, host_state.
  destruct (host_states s !! host) eqn:E; simpl; rewrite lookup_insert;
    case_decide; simplify_eq; rewrite ?E; try done; by rewrite lookup_insert_ne.
Qed.

Lemma pace_reserve_ready host now mi s :
  let ready := (pace_reserve host now mi s).1 in
  (now <= ready /\ hs_cooldown_until (host_of host s) <= ready /\
   hs_next_request_at (host_of host s) <= ready)%Q.
Proof.
  unfold pace_reserve, host_of. destruct (host_state host s) as [st s']. simpl. qorder.
Qed.

(** Only [pace_host]'s reservation moves a host's slot cursor. *)
Lemma tstep_host_next host t s n ph l s' n' ph' :
  tstep t (s, n, ph) l (s', n', ph') ->
  match l with
  | LPaceReserve h mi r =>
      if decide (h = host)
      then (hs_next_request_at (host_of host s) <= r)%Q /\
           hs_next_request_at (host_of host s') = (r + fmax 0 mi)%Q
      else hs_next_request_at (host_of host s') = hs_next_request_at (host_of host s)
  | _ => hs_next_request_at (host_of host s') = hs_next_request_at (host_of host s)
  end.
Proof.
  intros H. inversion H; subst; simpl; try done;
    try (match goal with R : record_systemic_host_event _ _ _ _ = _ |- _ =>
           destruct (record_event_frame _ _ _ _ _ _ R) as (? & E & ?) end;
         by rewrite !host_of_lookup, E);
    try (by rewrite !host_of_lookup).
  - rewrite pace_reserve_host. case_decide; subst; [|done]. simpl.
    split; [apply pace_reserve_ready|done].
  - unfold report_success. scheduler_cases; by rewrite !host_of_lookup.
  - unfold throttle_host. rewrite host_of_update. case_decide; by subst.
Qed.

Definition host_reservations (host : str) (ls : list label) : list (Q * Q) :=
  omap (fun l => match l with
                 | LPaceReserve h mi r => if decide (h = host) then Some (r, mi) else None
                 | _ => None end) ls.

(** Requests to one host are paced: each reservation of the host lies at least the earlier
    reservation's [min_interval_s] after it, for any interleaving and any mix of intervals. *)
Theorem host_slots_spaced s k t ls y host :
  steps (initial s k t) ls y ->
  StronglySorted (fun a b => (a.1 + fmax 0 a.2 <= b.1)%Q) (host_reservations host ls).
Proof.
  intros Hs.
  pose (P := fun ls y =>
    (forall a, a ∈ host_reservations host ls ->
       (a.1 + fmax 0 a.2 <= hs_next_request_at (host_of host (sched y)))%Q) /\
    StronglySorted (fun a b : Q * Q => (a.1 + fmax 0 a.2 <= b.1)%Q) (host_reservations host ls)).
  enough (P ls y) by (unfold P in *; tauto).
  revert Hs. apply (steps_trace_invariant P); unfold P, host_reservations; simpl.
  - split; [by intros ? ?%elem_of_nil|constructor].
  - intros ls0 y0 t0 _ HP. rewrite omap_app, app_nil_r. done.
  - intros ls0 y0 i ph l s' n' ph' (H1 & H2) Hi Ht.
    apply (tstep_host_next host) in Ht. rewrite omap_app. simpl.
    destruct l; rewrite ?app_nil_r, ?Ht; try done.
    case_decide; rewrite ?app_nil_r, ?Ht; try done.
    destruct Ht as [Hge ->].
    assert (0 <= fmax 0 min_interval)%Q by apply fmax_l.
    split.
    + intros a Ha. apply elem_of_app in Ha as [Ha|Ha].
      * specialize (H1 a Ha). lra.
      * apply list_elem_of_singleton in Ha as ->. simpl. lra.
    + apply StronglySorted_snoc; [done|]. apply Forall_forall. intros a Ha.
      specialize (H1 a Ha). simpl. lra.
Qed.

(** The waiting threads of [pace_host]: a sleeping thread wakes no earlier than its slot. *)
Lemma tstep_pace_wait t s n ph l s' n' ph' :
  tstep t (s, n, ph) l (s', n', ph') ->
  match l with
  | LPaceReserve host mi r =>
      (hs_cooldown_until (host_of host s) <= r)%Q /\ ph' = PaceReady host mi r
  | LPaceReturn host r c =>
      c = t /\ (r <= t)%Q /\
      match ph with
      | PaceSleeping _ _ _ => (hs_cooldown_until (host_of host s) <= t)%Q
      | _ => ph = PaceReady host (match ph with PaceReady _ mi _ => mi | _ => 0 end) r
      end
  | _ => True
  end.
Proof.
  intros H. inversion H; subst; simpl; try done.
  - split; [apply pace_reserve_ready|done].
  - split_and!; [done|lra|done].
  - split_and!; [done|done|]. unfold pace_recheck, host_of in *.
    match goal with E : fltb ?a ?b = false |- _ => destruct (fltb_spec a b); [done|lra] end.
Qed.

(** [pace_host] waits out a host's cooldown.  A reservation is never earlier than the host's
    cooldown at that moment; the call returns no earlier than its reservation; and a call that
    slept returns only when the cooldown it re-reads, which a concurrent 429 may have extended
    during the sleep, has passed as well. *)
Theorem pace_host_waits_out_cooldown y l y' :
  step y l y' ->
  match l with
  | LPaceReserve host mi r => (hs_cooldown_until (host_of host (sched y)) <= r)%Q
  | LPaceReturn host r c =>
      c = clock y' /\ (r <= clock y')%Q /\
      exists i ph, threads y !! i = Some ph /\ threads y' !! i = Some Idle /\
        ((exists mi, ph = PaceReady host mi r) \/
         (exists mi, ph = PaceSleeping host mi r) /\
         (hs_cooldown_until (host_of host (sched y')) <= clock y')%Q)
  | _ => True
  end.
Proof.
  intros Hstep. inversion Hstep as [|y0 i ph l0 s' n' ph' Hi Ht]; subst; [done|].
  pose proof (tstep_pace_wait _ _ _ _ _ _ _ _ Ht) as Hw.
  destruct l; try done; [by destruct Hw|].
  destruct Hw as (-> & Hle & Hph). simpl. split_and!; [done..|].
  exists i, ph. split; [done|].
  assert (Hlt : (i < length (threads y))%nat) by (by eapply lookup_lt_Some).
  inversion Ht; subst; simpl in *; rewrite list_lookup_insert_eq by done; (split; [done|]); eauto.
Qed.

(** * Host isolation *)

(** A throttle of one host cools that host down for its whole [Retry-After] and leaves the
    state of every other host alone; the global rate and cooldown change only if the event was
    judged systemic, which needs the threshold's number of distinct hosts inside the window. *)
Theorem host_throttle_isolated host delay now c1 c2 s s' :
  s' = report_host_throttled host delay now c1 c2 s ->
  (now + fmax 0 delay <= hs_cooldown_until (host_of host s'))%Q /\
  (forall host', host' ≠ host -> host_of host' s' = host_of host' s) /\
  (rate s' = rate s \/
   (systemic_threshold c1 (throttle_host host now (fmax 0 delay) s)).1 <=
     Z.of_nat (size (<[host := now]>
       (newer_than (now - host_throttle_window_s (limits s)) (systemic_host_events (history s)))))).
Proof.
  intros ->. unfold report_host_throttled.
  set (s1 := throttle_host host now (fmax 0 delay) s).
  assert (Hf : limits s1 = limits s /\ rate s1 = rate s /\ history s1 = history s).
  { unfold s1, throttle_host, update_host. pose proof (host_state_settings host s) as Hh.
    destruct (host_state host s). exact Hh. }
  destruct Hf as (Hl & Hr & Hh).
  assert (Hs1 : forall h, host_of h s1 = if decide (host = h) then
      {| hs_cooldown_until := fmax (hs_cooldown_until (host_of host s)) (now + fmax 0 delay);
         hs_next_request_at := hs_next_request_at (host_of host s);
         recent_throttles := record_recent (recent_throttles (host_of host s)) now |}
      else host_of h s) by (intros; apply host_of_update).
  destruct (record_systemic_host_event host now c1 s1) as [esc s2] eqn:E.
  pose proof (record_event_frame _ _ _ _ _ _ E) as (_ & HH & Hrate).
  assert (Hs2 : forall h, host_of h (if esc then apply_global_throttle c2 c2 delay false s2 else s2)
                          = host_of h s1)
    by (intros h; rewrite !host_of_lookup, <- HH; by destruct esc).
  split_and!.
  - rewrite Hs2, Hs1, decide_True by done. apply fmax_r.
  - intros h Hne. by rewrite Hs2, Hs1, decide_False by done.
  - destruct esc; [right|left; by rewrite Hrate].
    revert E. unfold record_systemic_host_event. rewrite Hl, Hh.
    set (ev := <[host:=now]> _). intros E.
    match type of E with context [systemic_threshold c1 ?x] => set (sx := x) in E end.
    assert (Hthr : (systemic_threshold c1 sx).1 = (systemic_threshold c1 s1).1).
    { unfold systemic_threshold, active_host_count, sx; simpl. rewrite Hh. simpl. 
      repeat case_match; done. }
    rewrite <- Hthr. destruct (systemic_threshold c1 sx) as [thr s3]. simpl.
    destruct (thr <=? Z.of_nat (size ev)) eqn:Ele; [by apply Z.leb_le in Ele|done].
Qed.

(** * Systemic threshold *)

(** The systemic threshold.  In proportional mode with at least one active host it lies
    between 1 and the number of active hosts, and a population no larger than
    [minimum_systemic_hosts] needs all its hosts; in legacy mode, and with no active host, it is
    the configured [host_throttle_threshold]. *)
Theorem systemic_threshold_bounds c s :
  1 <= minimum_systemic_hosts (systemic s) -> (0 < systemic_host_fraction (systemic s) <= 1)%Q ->
  let active := (active_host_count c s).1 in
  let threshold := (systemic_threshold c s).1 in
  if proportional_mode (systemic s) && (0 <? active)
  then 1 <= threshold <= active /\
       (active <= minimum_systemic_hosts (systemic s) -> threshold = active) /\
       (minimum_systemic_hosts (systemic s) <= active ->
          minimum_systemic_hosts (systemic s) <= threshold) /\
       (inject_Z active * systemic_host_fraction (systemic s) <= inject_Z threshold)%Q
  else threshold = host_throttle_threshold (limits s).
Proof.
  intros Hm Hf. unfold systemic_threshold.
  destruct (proportional_mode (systemic s)) eqn:Ep; simpl; [|done].
  set (n := size _).
  destruct (Z.ltb_spec 0 (Z.of_nat n)) as [Hn|Hn]; simpl.
  - rewrite (proj2 (Z.eqb_neq _ 0)) by lia. simpl.
    set (frac := systemic_host_fraction (systemic s)) in *.
    assert (Hc : Qceiling (inject_Z (Z.of_nat n) * frac) <= Z.of_nat n).
    { rewrite <- (Qceiling_Z (Z.of_nat n)) at 2. apply Qceiling_resp_le.
      assert (0 <= inject_Z (Z.of_nat n))%Q by (unfold Qle; simpl; lia). nra. }
    assert (Hfrac : (inject_Z (Z.of_nat n) * frac <=
                     inject_Z (Qceiling (inject_Z (Z.of_nat n) * frac)))%Q) by apply Qle_ceiling.
    split_and!; try lia.
    eapply Qle_trans; [exact Hfrac|]. rewrite <- Zle_Qle. lia.
  - assert (Hz : Z.of_nat n = 0) by lia. by rewrite Hz.
Qed.

(** * Telemetry *)

(** The start times of a run, oldest first. *)
Definition starts (ls : list label) : list Q :=
  omap (fun l => match l with LStart _ c => Some c | _ => None end) ls.

Lemma pop_before_app c c' l k :
  (c <= c')%Q -> pop_before c' (pop_before c l ++ k) = pop_before c' (l ++ k).
Proof.
  intros Hc. induction l as [|x l IH]; simpl; [done|].
  destruct (fltb_spec x c); simpl; [|done].
  rewrite IH. destruct (fltb_spec x c'); [done|lra].
Qed.

Lemma pop_before_twice c c' l :
  (c <= c')%Q -> pop_before c' (pop_before c l) = pop_before c' l.
Proof. intros Hc. by rewrite <- (app_nil_r (pop_before c l)), pop_before_app, app_nil_r. Qed.

(** On an ascending window, popping from the left is filtering. *)
Lemma pop_before_sorted c l :
  StronglySorted Qle l -> pop_before c l = filter (fun x => fleb c x = true) l.
Proof.
  induction 1 as [|x l Hl IH Hx]; [done|]. simpl.
  destruct (fltb_spec x c) as [Hlt|Hge].
  - rewrite IH, filter_cons_False; [done|]. destruct (fleb_spec c x); [lra|done].
  - rewrite filter_cons_True by (destruct (fleb_spec c x); [done|lra]). f_equal.
    clear IH Hl. induction Hx as [|z l Hz _ IH]; [done|].
    rewrite filter_cons_True by (destruct (fleb_spec c z); [done|lra]). by f_equal.
Qed.

Lemma tstep_started t s n ph l s' n' ph' :
  tstep t (s, n, ph) l (s', n', ph') ->
  request_started_at s' =
  match l with
  | LStart _ c => record_recent (request_started_at s) c
  | _ => request_started_at s
  end /\ match l with LStart _ c => c = t | _ => True end.
Proof.
  intros H. inversion H; subst; simpl; try done;
    try (match goal with R : record_systemic_host_event _ _ _ _ = _ |- _ => revert R end;
         unfold record_systemic_host_event, systemic_threshold, active_host_count;
         intros R; scheduler_cases; done);
    try (unfold report_success; by scheduler_cases);
    unfold throttle_host, update_host, pace_reserve, host_state; by scheduler_cases.
Qed.

Lemma reachable_started s k t ls y :
  constructed s -> steps (initial s k t) ls y ->
  StronglySorted Qle (starts ls) /\ Forall (fun x => (x <= clock y)%Q) (starts ls) /\
  exists c, (c <= clock y - ROLLING_WINDOW_S)%Q /\
    request_started_at (sched y) = pop_before c (starts ls).
Proof.
  intros Hc Hs. apply constructed_facts in Hc as (_ & _ & _ & _ & _ & Hst & _).
  revert Hs. apply (steps_trace_invariant (fun ls y =>
    StronglySorted Qle (starts ls) /\ Forall (fun x => (x <= clock y)%Q) (starts ls) /\
    exists c, (c <= clock y - ROLLING_WINDOW_S)%Q /\
      request_started_at (sched y) = pop_before c (starts ls))); unfold starts; simpl.
  - split_and!; [constructor|constructor|]. exists (t - ROLLING_WINDOW_S)%Q. split; [lra|done].
  - intros ls0 y0 t0 Hle (H1 & H2 & c & H3 & H4). rewrite omap_app, app_nil_r.
    split_and!; [done| |exists c; split; [lra|done]].
    eapply Forall_impl; [exact H2|]. simpl. intros. lra.
  - intros ls0 y0 i ph l s' n' ph' (H1 & H2 & c & H3 & H4) Hi Ht.
    apply tstep_started in Ht as [Ht Hclk]. rewrite omap_app. simpl.
    destruct l; rewrite ?app_nil_r; try (split_and!; [done..|]; exists c; split; [done|congruence]).
    subst. simpl. split_and!.
    + apply StronglySorted_snoc; done.
    + apply Forall_app. split; [done|]. constructor; [lra|constructor].
    + exists (clock y0 - ROLLING_WINDOW_S)%Q. split; [lra|].
      rewrite Ht, H4. unfold record_recent, prune_recent. by apply pop_before_app.
Qed.

(** The snapshot's [requests_last_minute] is the number of operations started in the last
    [ROLLING_WINDOW_S] seconds of the run, although expired timestamps are dropped lazily, at
    the next start or snapshot; the reported rate is the current one and within the ceiling. *)
Theorem snapshot_counts_recent_requests s k t ls y now :
  constructed s -> steps (initial s k t) ls y -> (clock y <= now)%Q ->
  let sn := (snapshot now (sched y)).1 in
  sn_requests_last_minute sn =
    Z.of_nat (length (filter (fun c => fleb (now - ROLLING_WINDOW_S) c = true) (starts ls))) /\
  sn_current_requests_per_minute sn = current_requests_per_minute (rate (sched y)) /\
  (sn_current_requests_per_minute sn <= sn_maximum_requests_per_minute sn)%Q.
Proof.
  intros Hc Hs Hle.
  destruct (reachable_started _ _ _ _ _ Hc Hs) as (Hsort & _ & c & Hcut & Hst).
  destruct (reachable_bounded _ _ _ _ _ Hc Hs) as (_ & _ & _ & Hmax).
  simpl. rewrite Hst, pop_before_twice, pop_before_sorted; [done|done|].
  unfold ROLLING_WINDOW_S in *. lra.
Qed.
