(* ===== verification/SchedulerExamples.v ===== *)
(** Concrete runs of the request scheduler: the theorems of [SchedulerThreads] applied to the
    process-wide default scheduler and to a scheduler with a legacy threshold. *)
From Stdlib Require Import QArith Qround Lqa.
From S2P Require Import Prelude Py PyStr Scheduler SchedulerThreads.

(** * A run of the default scheduler *)

Definition example_scheduler : Scheduler := Eval vm_compute in
  match DEFAULT_SCHEDULER as r return (match r with Ok _ => Scheduler | Raise _ => unit end) with
  | Ok s => s
  | Raise _ => tt
  end.

Lemma example_constructed : constructed example_scheduler.
Proof. eexists _, _, _, _, _, _. transitivity DEFAULT_SCHEDULER; [reflexivity|]. vm_compute. reflexivity. Qed.

(** Extending a run by a step of thread [i] and by a tick of the clock, the new state being
    evaluated. *)
Lemma run_thread i y0 ls y ph l s' n' ph' ls' y' :
  steps y0 ls y -> threads y !! i = Some ph -> tstep (clock y) (sched y, free y, ph) l (s', n', ph') ->
  ls ++ [l] = ls' -> mkSystem s' n' (clock y) (<[i := ph']> (threads y)) = y' ->
  steps y0 ls' y'.
Proof. intros Hs Hi Ht <- <-. eapply steps_step; [done|]. by eapply step_thread. Qed.

Lemma run_tick t y0 ls y ls' :
  steps y0 ls y -> (clock y <= t)%Q -> ls ++ [LTau] = ls' ->
  steps y0 ls' (mkSystem (sched y) (free y) t (threads y)).
Proof. intros Hs Ht <-. eapply steps_step; [done|]. by apply step_tick. Qed.

(** [thread_step H i tac]: thread [i] takes the step [tac] applies. *)
Ltac thread_step H i tac :=
  eapply (run_thread i) in H; [|reflexivity|tac|vm_compute; reflexivity|vm_compute; reflexivity];
  cbn [sched free clock threads] in H.

Definition host_a : str := u "a.org".

(** Thread 0 paces a host twice and runs an operation; thread 1 reserves the next slot. *)
Lemma example_run_start :
  exists ls y, steps (initial example_scheduler 2 10) ls y /\
    length (reservations ls) = 1%nat /\ length (host_reservations host_a ls) = 2%nat /\
    threads y = [Starting 10; Idle] /\ (clock y == 10)%Q.
Proof.
  pose proof (steps_refl (initial example_scheduler 2 10)) as H.
  thread_step H 0%nat ltac:(apply (ts_pace _ _ _ host_a 0)).
  thread_step H 0%nat ltac:(apply ts_pace_reserve).
  thread_step H 0%nat ltac:(apply ts_pace_return; vm_compute; discriminate).
  thread_step H 0%nat ltac:(apply (ts_pace _ _ _ host_a 0)).
  thread_step H 0%nat ltac:(apply ts_pace_reserve).
  thread_step H 0%nat ltac:(apply ts_pace_return; vm_compute; discriminate).
  thread_step H 0%nat ltac:(apply ts_acquire; vm_compute; reflexivity).
  thread_step H 0%nat ltac:(apply ts_reserve).
  thread_step H 0%nat ltac:(apply ts_nowait; vm_compute; discriminate).
  eexists _, _. split; [exact H|]. by vm_compute.
Qed.

Lemma example_run :
  exists ls y, steps (initial example_scheduler 2 10) ls y /\
    length (reservations ls) = 2%nat /\ length (starts ls) = 1%nat /\ (clock y <= 20)%Q.
Proof.
  pose proof (steps_refl (initial example_scheduler 2 10)) as H.
  thread_step H 0%nat ltac:(apply ts_acquire; vm_compute; reflexivity).
  thread_step H 0%nat ltac:(apply ts_reserve).
  thread_step H 0%nat ltac:(apply ts_nowait; vm_compute; discriminate).
  thread_step H 0%nat ltac:(apply ts_start).
  thread_step H 1%nat ltac:(apply ts_acquire; vm_compute; reflexivity).
  thread_step H 1%nat ltac:(apply ts_reserve).
  eapply (run_tick 11) in H; [|vm_compute; discriminate|vm_compute; reflexivity].
  eexists _, _. split; [exact H|]. by vm_compute.
Qed.

Lemma run_concurrency_bounded_witness :
  exists ls y, steps (initial example_scheduler 2 10) ls y /\ length (starts ls) = 1%nat /\
    in_flight (rate (sched y)) = zsum is_running (threads y).
Proof.
  destruct example_run as (ls & y & Hs & _ & Hstart & _). exists ls, y. split; [exact Hs|].
  split; [exact Hstart|]. exact (proj1 (run_concurrency_bounded _ _ _ _ _ example_constructed Hs)).
Defined.

Lemma rate_always_within_limits_witness :
  exists ls y, steps (initial example_scheduler 2 10) ls y /\
    (minimum_requests_per_minute (limits example_scheduler)
       <= current_requests_per_minute (rate (sched y)))%Q.
Proof.
  destruct example_run as (ls & y & Hs & _). exists ls, y. split; [exact Hs|].
  pose proof (rate_always_within_limits _ _ _ _ _ example_constructed Hs) as H. tauto.
Defined.

Lemma reserved_slots_respect_ceiling_witness :
  exists ls y, steps (initial example_scheduler 2 10) ls y /\ length (reservations ls) = 2%nat /\
    StronglySorted (fun r1 r2 => (r1 + 60 / max_requests_per_minute (limits example_scheduler) <= r2)%Q)
      (reservations ls).
Proof.
  destruct example_run as (ls & y & Hs & Hr & _). exists ls, y. split; [exact Hs|]. split; [exact Hr|].
  exact (reserved_slots_respect_ceiling _ _ _ _ _ example_constructed Hs).
Defined.

Lemma run_starts_after_its_slot_witness :
  exists ls y y', steps (initial example_scheduler 2 10) ls y /\ step y (LStart 10 (clock y)) y' /\
    (10 <= clock y)%Q.
Proof.
  destruct example_run_start as (ls & y & Hs & _ & _ & Ht & _).
  assert (Hstep : step y (LStart 10 (clock y)) (mkSystem (run_start (clock y) (sched y)) (free y)
                    (clock y) (<[0%nat := Running]> (threads y)))).
  { apply (step_thread _ 0 (Starting 10)); [by rewrite Ht|apply ts_start]. }
  exists ls, y. eexists. split; [exact Hs|]. split; [exact Hstep|].
  exact (proj1 (run_starts_after_its_slot _ _ _ _ _ _ _ _ Hs Hstep)).
Defined.

Lemma host_slots_spaced_witness :
  exists ls y, steps (initial example_scheduler 2 10) ls y /\
    length (host_reservations host_a ls) = 2%nat /\
    StronglySorted (fun a b => (a.1 + fmax 0 a.2 <= b.1)%Q) (host_reservations host_a ls).
Proof.
  destruct example_run_start as (ls & y & Hs & _ & Hh & _). exists ls, y. split; [exact Hs|].
  split; [exact Hh|]. exact (host_slots_spaced _ _ _ _ _ host_a Hs).
Defined.

Lemma snapshot_counts_recent_requests_witness :
  exists ls y, steps (initial example_scheduler 2 10) ls y /\ length (starts ls) = 1%nat /\
    sn_requests_last_minute (snapshot 20 (sched y)).1 =
      Z.of_nat (length (filter (fun c => fleb (20 - ROLLING_WINDOW_S) c = true) (starts ls))).
Proof.
  destruct example_run as (ls & y & Hs & _ & Hst & Hc). exists ls, y. split; [exact Hs|].
  split; [exact Hst|].
  exact (proj1 (snapshot_counts_recent_requests _ _ _ _ _ _ example_constructed Hs Hc)).
Defined.

(** A host throttled until 15 keeps a paced request waiting. *)
Definition cooling_system : System :=
  mkSystem (report_host_throttled host_a 5 10 10 10 example_scheduler) 3 12 [Pacing host_a 0].

Lemma pace_host_waits_out_cooldown_witness :
  exists r y', step cooling_system (LPaceReserve host_a 0 r) y' /\ (15 <= r)%Q.
Proof.
  assert (Hstep : exists r y', step cooling_system (LPaceReserve host_a 0 r) y').
  { eexists _, _. apply (step_thread _ 0 (Pacing host_a 0)); [reflexivity|apply ts_pace_reserve]. }
  destruct Hstep as (r & y' & Hstep). exists r, y'. split; [exact Hstep|].
  pose proof (pace_host_waits_out_cooldown _ _ _ Hstep) as H. simpl in H.
  eapply Qle_trans; [|exact H]. vm_compute. discriminate.
Defined.

Lemma host_throttle_isolated_witness :
  let s' := report_host_throttled host_a 5 10 10 10 example_scheduler in
  (10 + fmax 0 5 <= hs_cooldown_until (host_of host_a s'))%Q /\
  host_of (u "b.org") s' = host_of (u "b.org") example_scheduler.
Proof.
  intros s'. destruct (host_throttle_isolated host_a 5 10 10 10 example_scheduler s' eq_refl)
    as (H1 & H2 & _). split; [exact H1|]. apply H2. by_evaluation.
Defined.

Definition two_hosts : Scheduler :=
  mark_active (u "b.org") 10 (mark_active host_a 10 example_scheduler).

Lemma systemic_threshold_bounds_witness :
  (active_host_count 12 two_hosts).1 = 2 /\ (systemic_threshold 12 two_hosts).1 = 2.
Proof.
  assert (Ha : (active_host_count 12 two_hosts).1 = 2) by (vm_compute; reflexivity).
  pose proof (systemic_threshold_bounds 12 two_hosts) as H. cbv zeta in H. rewrite Ha in H.
  change (proportional_mode (systemic two_hosts)) with true in H. change (true && (0 <? 2)) with true in H. cbv iota in H.
  split; [exact Ha|].
  destruct H as (_ & H & _); [vm_compute; discriminate|split; vm_compute; [reflexivity|discriminate]|].
  apply H. vm_compute. discriminate.
Defined.

(** * A run with two systemic reductions *)

Definition legacy_scheduler : Scheduler := Eval vm_compute in
  match init 2 100 None 10 5 (Some (Build_HostHealthPolicy 10 1 None None None)) as r
    return (match r with Ok _ => Scheduler | Raise _ => unit end) with
  | Ok s => s
  | Raise _ => tt
  end.

Lemma legacy_constructed : constructed legacy_scheduler.
Proof.
  exists 2, 100%Q, None, 10%Q, 5, (Some (Build_HostHealthPolicy 10 1 None None None)).
  vm_compute. reflexivity.
Qed.

Lemma systemic_reductions_spaced_witness :
  exists ls y, steps (initial legacy_scheduler 1 10) ls y /\ length (escalations ls) = 2%nat /\
    StronglySorted (fun t1 t2 => (t1 + host_throttle_window_s (limits legacy_scheduler) < t2)%Q)
      (escalations ls).
Proof.
  pose proof (steps_refl (initial legacy_scheduler 1 10)) as H.
  thread_step H 0%nat ltac:(apply (ts_throttle_read _ _ _ host_a 1)).
  thread_step H 0%nat ltac:(apply ts_throttle_host).
  thread_step H 0%nat ltac:(eapply ts_throttle_escalate; vm_compute; reflexivity).
  thread_step H 0%nat ltac:(apply ts_throttle_global).
  eapply (run_tick 30) in H; [|vm_compute; discriminate|vm_compute; reflexivity].
  thread_step H 0%nat ltac:(apply (ts_throttle_read _ _ _ host_a 1)).
  thread_step H 0%nat ltac:(apply ts_throttle_host).
  thread_step H 0%nat ltac:(eapply ts_throttle_escalate; vm_compute; reflexivity).
  eexists _, _. split; [exact H|]. split; [by vm_compute|].
  exact (systemic_reductions_spaced _ _ _ _ _ legacy_constructed H).
Defined.
