(* ===== verification/PyText.v ===== *)
(** Building blocks of the regular expressions, formats and command lines of the code: character
    classes, runs of characters, Unicode decimal digits, zero padding and [shlex.quote]. *)
From S2P Require Import Prelude Py PyStr.

(** * Character classes *)

Definition between (a b c : N) : bool := ((a <=? c) && (c <=? b))%N.
Definition ascii_lower_letter (c : N) : bool := between 97 122 c.
Definition ascii_upper_letter (c : N) : bool := between 65 90 c.
Definition ascii_letter (c : N) : bool := ascii_lower_letter c || ascii_upper_letter c.
Definition ascii_digit (c : N) : bool := between 48 57 c.
Definition one_of (chars : string) (c : N) : bool := existsb (N.eqb c) (u chars).

(** The zero of every block of ten decimal digits of Unicode 15 (general category Nd). *)
Definition decimal_zeros : list N :=
  [48; 1632; 1776; 1984; 2406; 2534; 2662; 2790; 2918; 3046; 3174; 3302; 3430; 3558; 3664; 3792;
   3872; 4160; 4240; 6112; 6160; 6470; 6608; 6784; 6800; 6992; 7088; 7232; 7248; 42528; 43216;
   43264; 43472; 43504; 43600; 44016; 65296; 66720; 68912; 69734; 69872; 69942; 70096; 70384;
   70736; 70864; 71248; 71360; 71472; 71904; 72016; 72784; 73040; 73120; 73552; 92768; 92864;
   93008; 120782; 120792; 120802; 120812; 120822; 123200; 123632; 124144; 125264; 130032]%N.

(** The value of a character that [\d] matches. *)
Definition digit_value (c : N) : option Z :=
  match find (fun z => between z (z + 9) c) decimal_zeros with
  | Some z => Some (Z.of_N (c - z))
  | None => None
  end.
Definition is_decimal (c : N) : bool := bool_decide (is_Some (digit_value c)).

(** [int(s)] of a string of decimal digits. *)
Definition int_of_digits (s : str) : Z :=
  foldl (fun n c => n * 10 + default 0 (digit_value c)) 0 s.

(** * Runs of characters *)

(** The longest prefix in a class, and the rest. *)
Fixpoint span (f : N -> bool) (s : str) : str * str :=
  match s with
  | c :: r => if f c then let '(a, b) := span f r in (c :: a, b) else ([], s)
  | [] => ([], [])
  end.

(** [C+] as a full match. *)
Definition nonempty_run (f : N -> bool) (s : str) : bool := negb (bool_decide (s = [])) && forallb f s.

(** [str.lower] of ASCII letters. *)
Definition ascii_lower (s : str) : str := (fun c => if ascii_upper_letter c then c + 32 else c)%N <$> s.

(** * Formatting *)

(** [f"{z:0wd}"]. *)
Definition zero_pad (w : nat) (z : Z) : str :=
  let digits := str_of_Z (Z.abs z) in
  let sign := if z <? 0 then u "-" else [] in
  sign ++ replicate (w - length sign - length digits) 48%N ++ digits.

(** [shlex.quote]. *)
Definition shell_safe (c : N) : bool := ascii_letter c || ascii_digit c || one_of "_@%+=:,./-" c.
Definition quote_char (c : N) : str :=
  if (c =? 39)%N then [39; 34; 39; 34; 39]%N else [c].
Definition shlex_quote (s : str) : str :=
  if bool_decide (s = []) then u "''"
  else if forallb shell_safe s then s
  else u "'" ++ concat (quote_char <$> s) ++ u "'".

(** * Lemmas *)

Lemma span_app f s : let '(a, b) := span f s in s = a ++ b.
Proof.
  induction s as [|c s IH]; simpl; [done|]. destruct (f c); [|done].
  destruct (span f s). simpl. congruence.
Qed.

Lemma span_forall f s : forallb f (span f s).1 = true.
Proof.
  induction s as [|c s IH]; simpl; [done|]. destruct (f c) eqn:E; [|done].
  destruct (span f s). simpl in *. by rewrite E.
Qed.

Lemma digit_value_bound c d : digit_value c = Some d -> 0 <= d <= 9.
Proof.
  unfold digit_value. destruct (find _ _) as [z|] eqn:E; [|done]. intros [= <-].
  apply find_some in E as [_ E]. unfold between in E. apply andb_true_iff in E as [H1 H2].
  apply N.leb_le in H1, H2. lia.
Qed.

(** A run followed by a character outside its class is found again. *)
Lemma span_run f a c b : forallb f a = true -> f c = false -> span f (a ++ c :: b) = (a, c :: b).
Proof.
  intros Ha Hc. induction a as [|x a IH]; simpl in *; [by rewrite Hc|].
  apply andb_true_iff in Ha as [-> Ha]. by rewrite IH.
Qed.

(** * [int(x)] *)

(** Decimal digits with single underscores between them. *)
Fixpoint int_digits (acc : Z) (seen : bool) (s : str) : option Z :=
  match s with
  | [] => if seen then Some acc else None
  | c :: r =>
      match digit_value c with
      | Some d => int_digits (acc * 10 + d) true r
      | None => if (c =? 95)%N && seen then int_digits acc false r else None
      end
  end.

Definition int_of_str (s : str) : option Z :=
  match strip s with
  | 43%N :: r => int_digits 0 false r
  | 45%N :: r => Z.opp <$> int_digits 0 false r
  | r => int_digits 0 false r
  end.

(** A finite float rounded towards zero. *)
Definition truncate (f : SpecFloat.spec_float) : option Z :=
  match f with
  | SpecFloat.S754_zero _ => Some 0
  | SpecFloat.S754_finite s m e =>
      let v := if 0 <=? e then Zpos m * 2 ^ e else Z.quot (Zpos m) (2 ^ (- e)) in
      Some (if s then - v else v)
  | _ => None
  end.

Definition py_int (v : pyval) : outcome Z :=
  match v with
  | VInt z => Ok z
  | VBool b => Ok (Z.b2z b)
  | VFloat f => match truncate f with
                | Some z => Ok z
                | None => Raise (exc CValueError (msg "cannot convert float to integer"))
                end
  | VStr s => match int_of_str s with
              | Some z => Ok z
              | None => Raise (exc CValueError (msg "invalid literal for int() with base 10"))
              end
  | _ => Raise (exc CTypeError (msg "int() argument must be a string or a real number"))
  end.

(** [d[key]]. *)
Definition getitem_of (key : string) (d : pydict) : outcome pyval :=
  match dget (u key) d with Some v => mret v | None => Raise (exc CKeyError [FRepr (VStr (u key))]) end.
