(* ===== verification/Decimal.v ===== *)
(** Decimal renderings of integers are read back: [str(n)], zero-padded formats, [int(...)] and the
    digits of a file name. *)
From stdpp Require Import pretty.
From S2P Require Import Prelude Py PyStr PyText.

(** * Decimal texts are read back *)

(** A text of ASCII digits with value [z]. *)
Definition digits_of (z : Z) (s : str) : Prop := Forall (fun c => ascii_digit c = true) s /\ int_of_digits s = z.

Lemma ascii_digit_cases c :
  ascii_digit c = true -> c ∈ [48; 49; 50; 51; 52; 53; 54; 55; 56; 57]%N.
Proof.
  unfold ascii_digit, between. intros [H1 H2]%andb_true_iff. apply N.leb_le in H1, H2.
  rewrite !elem_of_cons. lia.
Qed.

Lemma ascii_digit_all (P : N -> Prop) `{forall c, Decision (P c)} c :
  Forall P [48; 49; 50; 51; 52; 53; 54; 55; 56; 57]%N -> ascii_digit c = true -> P c.
Proof. rewrite Forall_forall. intros HP Hc%ascii_digit_cases. by apply HP. Qed.

Lemma digit_value_ascii c : ascii_digit c = true -> digit_value c = Some (Z.of_N c - 48).
Proof. apply (ascii_digit_all (fun c => digit_value c = Some (Z.of_N c - 48))). by_evaluation. Qed.

Lemma int_of_digits_app a b : int_of_digits (a ++ b) = foldl (fun n c => n * 10 + default 0 (digit_value c)) (int_of_digits a) b.
Proof. unfold int_of_digits. by rewrite foldl_app. Qed.

Lemma pretty_digit (d : N) : (d < 10)%N -> Ascii.N_of_ascii (pretty_N_char d) = (48 + d)%N.
Proof.
  intros Hd. assert (d = 0 \/ d = 1 \/ d = 2 \/ d = 3 \/ d = 4 \/ d = 5 \/ d = 6 \/ d = 7 \/ d = 8 \/ d = 9)%N
    as Hc by lia. by repeat destruct Hc as [->|Hc]; subst.
Qed.

Lemma pretty_N_digits x s :
  exists ds, u (pretty_N_go x s) = ds ++ u s /\ digits_of (Z.of_N x) ds /\ (ds = [] -> x = 0%N).
Proof.
  revert s. induction (N.lt_wf_0 x) as [x _ IH]. intros s. destruct (decide (x = 0%N)) as [->|Hx].
  - exists []. rewrite pretty_N_go_0. split_and!; [done|by repeat constructor|done].
  - rewrite pretty_N_go_step by lia. destruct (IH (x `div` 10)%N) with (s := String (pretty_N_char (x `mod` 10)) s)
      as (ds & Hs & [HF Hv] & _); [by apply N.div_lt; lia|].
    assert (Hd : (x `mod` 10 < 10)%N) by (apply N.mod_lt; lia).
    exists (ds ++ [48 + x `mod` 10]%N). split_and!.
    + rewrite Hs, <- app_assoc. f_equal. unfold u. simpl. by rewrite pretty_digit.
    + assert (Ha : ascii_digit (48 + x `mod` 10)%N = true).
      { revert Hd. generalize (x `mod` 10)%N. intros d Hd. unfold ascii_digit, between.
        apply andb_true_iff. rewrite !N.leb_le. lia. }
      split; [apply Forall_app; by repeat constructor|].
      rewrite int_of_digits_app, Hv. simpl. rewrite digit_value_ascii by done. simpl.
      pose proof (N.div_mod x 10 ltac:(lia)) as Hdm. revert Hdm.
      generalize (x `div` 10)%N (x `mod` 10)%N. intros a b ->. lia.
    + by destruct ds.
Qed.

Lemma str_of_Z_digits n : 0 <= n -> digits_of n (str_of_Z n) /\ str_of_Z n ≠ [].
Proof.
  intros Hn. unfold str_of_Z. destruct n as [|p|p]; [by split; [repeat constructor|]| |lia].
  destruct (pretty_N_digits (Npos p) EmptyString) as (ds & Hs & Hd & Hne).
  assert (E : u (pretty (Zpos p)) = ds) by (etrans; [exact Hs|]; apply app_nil_r).
  rewrite E. split; [done|]. intros ->. by specialize (Hne eq_refl).
Qed.

Lemma int_digits_value acc seen s :
  Forall (fun c => ascii_digit c = true) s -> (seen || negb (bool_decide (s = []))) = true ->
  int_digits acc seen s = Some (foldl (fun n c => n * 10 + default 0 (digit_value c)) acc s).
Proof.
  intros HF. revert acc seen. induction HF as [|c s Hc HF IH]; intros acc seen Hs; simpl.
  - by destruct seen.
  - rewrite digit_value_ascii by done. simpl. apply IH. done.
Qed.

Lemma lstrip_id s : Forall (fun c => is_space c = false) s -> lstrip s = s.
Proof. destruct 1 as [|c s Hc _]; simpl; [done|]. by rewrite Hc. Qed.

Lemma ascii_digit_nonspace c : ascii_digit c = true -> is_space c = false.
Proof. apply (ascii_digit_all (fun c => is_space c = false)). by_evaluation. Qed.

Lemma strip_id s : Forall (fun c => is_space c = false) s -> strip s = s.
Proof.
  intros H. unfold strip, rstrip. rewrite (lstrip_id s H). rewrite lstrip_id, reverse_involutive; [done|].
  apply Forall_forall. intros x Hx. rewrite elem_of_reverse in Hx. rewrite Forall_forall in H. auto.
Qed.

(** A trailing newline goes. *)
Lemma strip_newline s : s ≠ [] -> Forall (fun c => is_space c = false) s -> strip (s ++ [10%N]) = s.
Proof.
  intros Hne H. unfold strip, rstrip. assert (E : lstrip (s ++ [10%N]) = s ++ [10%N]).
  { destruct H as [|c s Hc _]; [done|]. simpl. by rewrite Hc. }
  rewrite E, reverse_app. simpl. change (lstrip (reverse [10%N] ++ reverse s)) with (lstrip (reverse s)).
  rewrite lstrip_id; [apply reverse_involutive|].
  apply Forall_forall. intros x Hx. rewrite elem_of_reverse in Hx. rewrite Forall_forall in H. auto.
Qed.

(** [int(str(n))], also with white space around. *)
Lemma int_of_str_digits n s :
  digits_of n s -> s ≠ [] -> int_of_str s = Some n.
Proof.
  intros [HF <-] Hne. unfold int_of_str. rewrite strip_id.
  2: { eapply Forall_impl; [exact HF|]. apply ascii_digit_nonspace. }
  assert (E : int_digits 0 false s = Some (int_of_digits s)).
  { rewrite int_digits_value; [done|done|]. by rewrite bool_decide_eq_false_2. }
  destruct s as [|c s]; [done|]. inversion HF as [|? ? Hc _]; subst.
  destruct (decide (c = 43%N)) as [->|H1]; [done|]. destruct (decide (c = 45%N)) as [->|H2]; [done|].
  rewrite <- E. destruct c as [|p]; [done|]. do 6 (destruct p as [p|p|]; try done).
Qed.

Lemma digits_ascii n s : digits_of n s -> ascii s.
Proof.
  intros [HF _]. eapply Forall_impl; [exact HF|]. unfold ascii_digit, between. intros c [_ H]%andb_true_iff.
  apply N.leb_le in H. lia.
Qed.

Lemma digits_decimal n s : digits_of n s -> forallb is_decimal s = true.
Proof.
  intros [HF _]. apply forallb_forall. intros c Hc. rewrite Forall_forall in HF.
  unfold is_decimal. rewrite digit_value_ascii by (apply HF, list_elem_of_In; done). done.
Qed.

(** Leading zeros do not change the value. *)
Lemma zero_pad_digits w n : 0 <= n -> digits_of n (zero_pad w n) /\ zero_pad w n ≠ [].
Proof.
  intros Hn. unfold zero_pad. rewrite (proj2 (Z.ltb_ge _ _) Hn), Z.abs_eq by done. simpl.
  destruct (str_of_Z_digits n Hn) as [[HF Hv] Hne]. split; [|by destruct (replicate _ _)].
  split; [apply Forall_app; split; [|done]; apply Forall_forall; by intros c [-> _]%elem_of_replicate|].
  rewrite int_of_digits_app. etrans; [|exact Hv]. unfold int_of_digits at 2. f_equal.
  induction (w - 0 - _)%nat as [|k IH]; [done|]. simpl replicate.
  change (48%N :: replicate k 48%N) with ([48%N] ++ replicate k 48%N). rewrite int_of_digits_app.
  unfold int_of_digits in IH. exact IH.
Qed.

Lemma zero_pad_not_dot w n r rest : 0 <= n -> zero_pad w n ++ r ≠ u "." ++ rest.
Proof.
  intros Hn H. destruct (zero_pad_digits w n Hn) as [[HF _] Hne]. destruct (zero_pad w n) as [|c ds]; [done|].
  inversion HF as [|? ? Hc _]; subst. change (u "." ++ rest) with (46%N :: rest) in H. by injection H as -> _.
Qed.

Lemma zero_pad_inj w m n : zero_pad w m = zero_pad w n -> 0 <= m -> 0 <= n -> m = n.
Proof.
  intros H Hm Hn. destruct (zero_pad_digits w m Hm) as [[_ Em] _]. destruct (zero_pad_digits w n Hn) as [[_ En] _].
  rewrite H in Em. congruence.
Qed.

(** * Order of texts of the same width *)

Lemma int_of_digits_snoc s c : ascii_digit c = true -> int_of_digits (s ++ [c]) = int_of_digits s * 10 + (Z.of_N c - 48).
Proof. intros Hc. rewrite int_of_digits_app. simpl. by rewrite digit_value_ascii. Qed.

Lemma ascii_digit_bounds c : ascii_digit c = true -> 0 <= Z.of_N c - 48 <= 9.
Proof. unfold ascii_digit, between. intros [H1 H2]%andb_true_iff. apply N.leb_le in H1, H2. lia. Qed.

Lemma int_of_digits_bound s : Forall (fun c => ascii_digit c = true) s -> 0 <= int_of_digits s < 10 ^ len s.
Proof.
  induction s as [|c s IH] using rev_ind; [done|]. intros [Hs Hc]%Forall_app. inversion Hc as [|? ? Hd _]; subst.
  rewrite int_of_digits_snoc by done. unfold len in *. rewrite length_app, Nat2Z.inj_add. change (Z.of_nat (length [c])) with 1.
  rewrite Z.pow_add_r by lia. pose proof (ascii_digit_bounds c Hd). specialize (IH Hs). lia.
Qed.

Lemma int_of_digits_cons c s :
  ascii_digit c = true -> Forall (fun c => ascii_digit c = true) s -> int_of_digits (c :: s) = (Z.of_N c - 48) * 10 ^ len s + int_of_digits s.
Proof.
  intros Hc. induction s as [|d s IH] using rev_ind.
  - intros _. change [c] with ([] ++ [c]). rewrite int_of_digits_snoc by done. unfold len. simpl. change (int_of_digits []) with 0. lia.
  - intros [Hs Hd]%Forall_app. inversion Hd as [|? ? Hd' _]; subst. rewrite app_comm_cons, !int_of_digits_snoc by done. rewrite IH by done.
    unfold len. rewrite length_app, Nat2Z.inj_add. change (Z.of_nat (length [d])) with 1. rewrite Z.pow_add_r by lia. lia.
Qed.

(** Texts of the same width are ordered like their values. *)
Lemma digits_leb m n s t x y :
  digits_of m s -> digits_of n t -> length s = length t -> m < n -> str_leb (s ++ x) (t ++ y) = true.
Proof.
  revert m n t. induction s as [|c s IH]; intros m n [|d t] [Hs <-] [Ht <-]; try done. intros [= Hl] Hlt.
  inversion Hs as [|? ? Hc Hs']; inversion Ht as [|? ? Hd Ht']; subst. simpl app. apply str_leb_cons.
  rewrite !int_of_digits_cons in Hlt by done. unfold len in Hlt. rewrite Hl in Hlt.
  pose proof (int_of_digits_bound s Hs') as Bs. pose proof (int_of_digits_bound t Ht') as Bt. unfold len in Bs, Bt. rewrite Hl in Bs.
  pose proof (ascii_digit_bounds c Hc). pose proof (ascii_digit_bounds d Hd).
  destruct (Z.lt_trichotomy (Z.of_N c) (Z.of_N d)) as [Hcd|[Hcd|Hcd]]; [left; lia| |exfalso; nia].
  apply N2Z.inj in Hcd as ->. right. split; [done|]. apply (IH (int_of_digits s) (int_of_digits t)); [done..|lia].
Qed.

Lemma pretty_N_length k x s : (x < 10 ^ N.of_nat k)%N -> (length (u (pretty_N_go x s)) <= k + length (u s))%nat.
Proof.
  revert x s. induction k as [|k IH]; intros x s Hx.
  - assert (x = 0)%N as -> by (simpl in Hx; lia). by rewrite pretty_N_go_0.
  - destruct (decide (x = 0%N)) as [->|Hne]; [rewrite pretty_N_go_0; lia|]. rewrite pretty_N_go_step by lia.
    assert (Hd : (x `div` 10 < 10 ^ N.of_nat k)%N).
    { apply N.Div0.div_lt_upper_bound. rewrite Nat2N.inj_succ, N.pow_succ_r' in Hx. exact Hx. }
    specialize (IH (x `div` 10)%N (String (pretty_N_char (x `mod` 10)) s) Hd).
    assert (Hu : length (u (String (pretty_N_char (x `mod` 10)) s)) = S (length (u s))) by done. lia.
Qed.

Lemma length_zero_pad w n : (0 < w)%nat -> 0 <= n < 10 ^ Z.of_nat w -> length (zero_pad w n) = w.
Proof.
  intros Hw [H0 Hn]. unfold zero_pad. rewrite (proj2 (Z.ltb_ge _ _) H0), Z.abs_eq by done. simpl. rewrite length_app, length_replicate.
  assert (Hl : (length (str_of_Z n) <= w)%nat); [|lia]. unfold str_of_Z. destruct n as [|p|p]; [simpl; lia| |lia].
  pose proof (pretty_N_length w (Npos p) EmptyString) as H. rewrite Nat.add_0_r in H. apply H.
  apply N2Z.inj_lt. rewrite N2Z.inj_pow, nat_N_Z. exact Hn.
Qed.

Lemma zero_pad_leb w m n x y :
  (0 < w)%nat -> 0 <= m -> m < n -> n < 10 ^ Z.of_nat w -> str_leb (zero_pad w m ++ x) (zero_pad w n ++ y) = true.
Proof.
  intros Hw H0 Hlt Hn. destruct (zero_pad_digits w m H0) as [Hm _]. destruct (zero_pad_digits w n ltac:(lia)) as [Hn' _].
  eapply digits_leb; [exact Hm|exact Hn'| |done]. rewrite !length_zero_pad by lia. done.
Qed.
