(* ===== verification/Fs.v ===== *)
(** A file system with fault injection.

    A path is the list of its components from the root; the tree maps paths to nodes.  Each
    primitive that can fail for a reason of the environment first consumes one entry of the
    fault script: [Some e] makes it raise [e] without effect. *)
From stdpp Require Import sorting.
From S2P Require Import Prelude Py PyStr.

Abbreviation path := (list str).

(** The content of a file: raw bytes, or the JSON text of a value the program serialized. *)
Inductive content := CBytes (b : list N) | CJson (v : pyval).

Inductive node := File (c : content) | Dir.

(** [p.name], [p.parent] and [p / name]. *)
Definition path_name (p : path) : str := default [] (last p).
Definition path_parent (p : path) : path := removelast p.
Definition child (p : path) (name : str) : path := p ++ [name].

(** [p.as_posix()] of an absolute path. *)
Definition as_posix (p : path) : str := u "/" ++ join (u "/") p.

(** [str(p)] of a path. *)
Definition path_str : path -> str := as_posix.

(** [child.relative_to(parent)]: the remaining components. *)
Fixpoint relative_to (p parent : path) : option path :=
  match parent, p with
  | [], _ => Some p
  | c :: parent, d :: p => if str_eqb c d then relative_to p parent else None
  | _ :: _, [] => None
  end.

Record FsState := mkFs {
  tree : gmap path node;
  faults : list (option exn) }.

Definition with_tree (f : gmap path node -> gmap path node) (s : FsState) : FsState :=
  mkFs (f (tree s)) (faults s).

Definition os_error : exn := exc COSError [].
Definition not_found : exn := exc CFileNotFoundError [].

(** * Queries, which do not fail *)

Definition is_file (p : path) (t : gmap path node) : bool :=
  match t !! p with Some (File _) => true | _ => false end.
Definition is_dir (p : path) (t : gmap path node) : bool :=
  match t !! p with Some Dir => true | _ => bool_decide (p = []) end.
Definition path_exists (p : path) (t : gmap path node) : bool :=
  match t !! p with Some _ => true | None => bool_decide (p = []) end.

(** * Primitives *)

(** Runs [f] unless the script injects a fault. *)
Definition primitive {A} (f : gmap path node -> outcome A * gmap path node) : PyM FsState A :=
  fun s =>
    match faults s with
    | Some e :: r => (Raise e, mkFs (tree s) r)
    | fs => let '(o, t) := f (tree s) in (o, mkFs t (tail fs))
    end.

(** [os.replace(src, dst)] of a file. *)
Definition replace_tree (src dst : path) (t : gmap path node) : outcome unit * gmap path node :=
  match t !! src with
  | None => (Raise not_found, t)
  | Some Dir => (Raise os_error, t)
  | Some (File c) =>
      if negb (is_dir (path_parent dst) t) then (Raise not_found, t)
      else match t !! dst with
           | Some Dir => (Raise os_error, t)
           | _ => (Ok tt, <[dst := File c]> (delete src t))
           end
  end.
Definition os_replace (src dst : path) : PyM FsState unit := primitive (replace_tree src dst).

(** [p.unlink(missing_ok=True)]. *)
Definition unlink_tree (p : path) (t : gmap path node) : outcome unit * gmap path node :=
  match t !! p with
  | Some Dir => (Raise os_error, t)
  | _ => (Ok tt, delete p t)
  end.
Definition unlink (p : path) : PyM FsState unit := primitive (unlink_tree p).

(** The proper prefixes of a path and the path itself, shortest first, without the root. *)
Fixpoint prefixes_from (acc p : path) : list path :=
  match p with
  | [] => []
  | c :: p => (acc ++ [c]) :: prefixes_from (acc ++ [c]) p
  end.
Definition prefixes (p : path) : list path := prefixes_from [] p.

(** [p.mkdir(parents=True, exist_ok=True)]. *)
Fixpoint mkdirs (ps : list path) (t : gmap path node) : outcome unit * gmap path node :=
  match ps with
  | [] => (Ok tt, t)
  | p :: ps =>
      match t !! p with
      | Some (File _) => (Raise os_error, t)
      | Some Dir => mkdirs ps t
      | None => mkdirs ps (<[p := Dir]> t)
      end
  end.
Definition mkdir (p : path) : PyM FsState unit := primitive (mkdirs (prefixes p)).

(** Creating or overwriting a file whose directory exists. *)
Definition write_tree (p : path) (c : content) (t : gmap path node)
    : outcome unit * gmap path node :=
  if negb (is_dir (path_parent p) t) then (Raise not_found, t)
  else match t !! p with
       | Some Dir => (Raise os_error, t)
       | _ => (Ok tt, <[p := File c]> t)
       end.
Definition write_file (p : path) (c : content) : PyM FsState unit := primitive (write_tree p c).

(** [tempfile.mkstemp]: creates an empty file under a name chosen from the current tree. *)
Definition create_temporary (name : gmap path node -> path) : PyM FsState path :=
  primitive (fun t =>
    match write_tree (name t) (CBytes []) t with
    | (Ok _, t') => (Ok (name t), t')
    | (Raise e, t') => (Raise e, t')
    end).

(** [shutil.copyfile(src, dst)]. *)
Definition copy_tree (src dst : path) (t : gmap path node) : outcome unit * gmap path node :=
  match t !! src with
  | Some (File c) => write_tree dst c t
  | Some Dir => (Raise os_error, t)
  | None => (Raise not_found, t)
  end.
Definition copy_file (src dst : path) : PyM FsState unit := primitive (copy_tree src dst).

(** A file, or a directory that has become empty, is removed. *)
Definition empty_dir (p : path) (t : gmap path node) : bool :=
  forallb (fun kv => match relative_to kv.1 p with Some (_ :: _) => false | _ => true end) (map_to_list t).
Definition remove_tree (p : path) (t : gmap path node) : outcome unit * gmap path node :=
  match t !! p with
  | None => (Raise not_found, t)
  | Some (File _) => (Ok tt, delete p t)
  | Some Dir => if empty_dir p t then (Ok tt, delete p t) else (Raise os_error, t)
  end.
Definition remove_node (p : path) : PyM FsState unit := primitive (remove_tree p).

(** What [shutil.rmtree(p)] removes: the node and everything below it, the deepest first. *)
Definition deeper (p q : path) : Prop := (length q <= length p)%nat.
#[export] Instance deeper_dec : RelDecision deeper.
Proof. intros p q. unfold deeper. apply _. Defined.
#[export] Instance deeper_trans : Transitive deeper.
Proof. intros a b c. unfold deeper. lia. Qed.
#[export] Instance deeper_total : Total deeper.
Proof. intros a b. unfold deeper. lia. Qed.
Definition nodes_below (p : path) (t : gmap path node) : list path :=
  merge_sort deeper (filter (fun q => is_Some (relative_to q p)) (map_to_list t).*1).

(** [shutil.rmtree(p, ignore_errors=True)]: every removal is a system call of its own; one that
    fails with an [OSError] is passed over, and leaves its file and the directories above it. *)
Definition rmtree (p : path) : PyM FsState unit := fun s =>
  for_each (fun q => try_except (remove_node q) (fun e => if isinstance e COSError then Some (ret tt) else None))
    (nodes_below p (tree s)) s.

(** [tempfile.TemporaryDirectory.cleanup]: the first failure is raised. *)
Definition cleanup_directory (p : path) : PyM FsState unit := fun s =>
  for_each remove_node (nodes_below p (tree s)) s.

(** [shutil.copytree(src, dst)] into a path that does not exist. *)
Definition copytree_tree (src dst : path) (t : gmap path node) : outcome unit * gmap path node :=
  if negb (is_dir src t) then (Raise not_found, t)
  else if path_exists dst t then (Raise os_error, t)
  else
    let copied : list (path * node) := omap (M := list) (fun kv : path * node =>
      match relative_to kv.1 src with Some rel => Some (dst ++ rel, kv.2) | None => None end)
      (map_to_list t) in
    match mkdirs (prefixes dst) t with
    | (Ok _, t') => (Ok tt, (list_to_map copied : gmap path node) ∪ t')
    | r => r
    end.
Definition copytree (src dst : path) : PyM FsState unit := primitive (copytree_tree src dst).

(** [tempfile.mkdtemp] under a name that is not in use. *)
Definition mkdtemp_tree (p : path) (t : gmap path node) : outcome path * gmap path node :=
  if negb (is_dir (path_parent p) t) then (Raise not_found, t)
  else if path_exists p t then (Raise os_error, t)
  else (Ok p, <[p := Dir]> t).
Definition mkdtemp (name : gmap path node -> path) : PyM FsState path :=
  primitive (fun t => mkdtemp_tree (name t) t).

(** Files that arrive below a directory. *)
Definition receive (root : path) (files : list (path * node)) : PyM FsState unit :=
  primitive (fun t => (Ok tt, (list_to_map ((fun pn => (root ++ pn.1, pn.2)) <$> files) : gmap path node) ∪ t)).

(** [p.glob("*.suffix")] sorted: the children of a directory whose name ends with a suffix. *)
Definition glob (p : path) (suffix : str) (t : gmap path node) : list path :=
  child p <$> sorted_strs (omap (fun kv =>
    match relative_to kv.1 p with
    | Some [name] => if endswith suffix name then Some name else None
    | _ => None
    end) (map_to_list t)).

(** A computation that reads the tree. *)
Definition reads {A} (f : gmap path node -> outcome A) : PyM FsState A := fun s => (f (tree s), s).

(** * Path lemmas *)

Lemma relative_to_spec p parent r : relative_to p parent = Some r <-> p = parent ++ r.
Proof.
  revert p. induction parent as [|c parent IH]; intros [|d p]; simpl; try (split; congruence).
  destruct (str_eqb_spec c d) as [->|Hne]; [rewrite IH|]; split; congruence.
Qed.

Lemma relative_to_app parent r : relative_to (parent ++ r) parent = Some r.
Proof. by apply relative_to_spec. Qed.

Lemma path_parent_child p name : path_parent (child p name) = p.
Proof. unfold path_parent, child. apply removelast_last. Qed.

Lemma path_name_child p name : path_name (child p name) = name.
Proof. unfold path_name, child. by rewrite last_snoc. Qed.

Lemma path_eta p : p ≠ [] -> p = child (path_parent p) (path_name p).
Proof.
  intros Hp. destruct p as [|x p] using rev_ind; [done|].
  change (p ++ [x]) with (child p x). by rewrite path_parent_child, path_name_child.
Qed.

(** A directory creation never touches an existing node and adds directories only. *)
Lemma mkdirs_lookup ps t o t' q :
  mkdirs ps t = (o, t') -> t' !! q = t !! q \/ t !! q = None /\ t' !! q = Some Dir /\ q ∈ ps.
Proof.
  revert t. induction ps as [|p ps IH]; intros t H; simpl in H; [simplify_eq; by left|].
  destruct (t !! p) as [[c|]|] eqn:E; [simplify_eq; by left|..];
    apply IH in H; [set_solver|].
  destruct (decide (p = q)) as [->|Hne].
  - rewrite lookup_insert_eq in H. right. destruct H as [->|[? _]]; [|done]. set_solver.
  - rewrite lookup_insert_ne in H by done. set_solver.
Qed.

Lemma mkdirs_all_dirs ps t :
  Forall (fun p => t !! p = Some Dir) ps -> mkdirs ps t = (Ok tt, t).
Proof. induction 1 as [|p ps Hp _ IH]; simpl; [done|]. by rewrite Hp. Qed.

Lemma prefixes_from_last acc p : p ≠ [] -> acc ++ p ∈ prefixes_from acc p.
Proof.
  revert acc. induction p as [|c p IH]; intros acc Hp; [done|]. simpl.
  destruct p as [|d p]; [by left|]. right.
  rewrite (cons_middle c acc (d :: p)), app_assoc. by apply IH.
Qed.

Lemma prefixes_is_dir p t :
  Forall (fun q => t !! q = Some Dir) (prefixes p) -> is_dir p t = true.
Proof.
  intros HF. unfold is_dir. destruct (decide (p = [])) as [->|Hne].
  - by destruct (t !! []) as [[]|].
  - rewrite Forall_forall in HF. by rewrite (HF p (prefixes_from_last [] p Hne)).
Qed.

(** * Running primitives *)

(** No fault is left in the script. *)
Definition calm (s : FsState) : Prop := Forall (fun f => f = None) (faults s).

Lemma primitive_calm {A} (f : gmap path node -> outcome A * gmap path node) s :
  calm s -> exists s', primitive f s = ((f (tree s)).1, s') /\ tree s' = (f (tree s)).2 /\ calm s'.
Proof.
  unfold calm, primitive. intros Hc. destruct (faults s) as [|o r] eqn:E.
  - destruct (f (tree s)) as [a t]. eexists. split_and!; [done|done|by constructor].
  - inversion Hc; subst. destruct (f (tree s)) as [a t]. eexists. by split_and!.
Qed.

(** How many system calls the script makes fail. *)
Fixpoint failing (l : list (option exn)) : nat :=
  match l with [] => 0 | Some _ :: l => S (failing l) | None :: l => failing l end.
Definition failures (s : FsState) : nat := failing (faults s).

Lemma failures_calm s : failures s = 0%nat -> calm s.
Proof.
  unfold failures, calm. induction (faults s) as [|[e|] l IH]; [constructor|done|]. simpl. intros H. constructor; auto.
Qed.

(** A primitive that raises although its action would not has used up one of them. *)
Lemma primitive_failures {A} (f : gmap path node -> outcome A * gmap path node) s o s' :
  primitive f s = (o, s') -> (failures s' <= failures s)%nat /\
  (failures s' < failures s \/ f (tree s) = (o, tree s'))%nat.
Proof.
  unfold primitive, failures. destruct (faults s) as [|[e|] r].
  - destruct (f (tree s)) as [a t] eqn:E. intros [= <- <-]. auto.
  - intros [= <- <-]. simpl. lia.
  - destruct (f (tree s)) as [a t] eqn:E. intros [= <- <-]. simpl. auto.
Qed.

(** A primitive either is hit by a fault and changes nothing or acts on the tree. *)
Lemma primitive_cases {A} (f : gmap path node -> outcome A * gmap path node) s o s' :
  primitive f s = (o, s') ->
  (exists e, o = Raise e /\ tree s' = tree s) \/ f (tree s) = (o, tree s').
Proof.
  unfold primitive. destruct (faults s) as [|[e|] r]; intros H;
    try (destruct (f (tree s)) as [a t] eqn:E; simplify_eq; by right).
  simplify_eq. left. eauto.
Qed.

Lemma write_tree_cases p c t o t' :
  write_tree p c t = (o, t') ->
  (exists e, o = Raise e /\ t' = t) \/
  (o = Ok tt /\ is_dir (path_parent p) t = true /\ t !! p ≠ Some Dir /\ t' = <[p := File c]> t).
Proof.
  unfold write_tree. destruct (is_dir (path_parent p) t) eqn:E; simpl;
    [|intros; simplify_eq; eauto]. destruct (t !! p) as [[]|]; intros; simplify_eq; eauto; right; done.
Qed.

(** Unlinking several paths, none of which is a directory. *)
Lemma unlinks_calm l s :
  calm s -> Forall (fun p => tree s !! p ≠ Some Dir) l ->
  exists s', for_each unlink l s = (Ok tt, s') /\ calm s' /\
    forall q, tree s' !! q = if decide (q ∈ l) then None else tree s !! q.
Proof.
  revert s. induction l as [|p l IH]; intros s Hc HF.
  - exists s. split_and!; [done..|]. intros q. by rewrite decide_False by apply not_elem_of_nil.
  - inversion HF as [|? ? Hp HF']; subst.
    destruct (primitive_calm (unlink_tree p) s Hc) as (s1 & E1 & Ht1 & Hc1).
    assert (Hu : unlink_tree p (tree s) = (Ok tt, delete p (tree s))).
    { unfold unlink_tree. by destruct (tree s !! p) as [[c|]|]. }
    rewrite Hu in *. simpl in *.
    destruct (IH s1 Hc1) as (s' & E' & Hc' & Hq).
    { rewrite Ht1. eapply Forall_impl; [exact HF'|]. intros q Hq.
      destruct (decide (q = p)) as [->|]; [by rewrite lookup_delete_eq|by rewrite lookup_delete_ne]. }
    exists s'. split_and!; [|done|].
    + unfold pbind, unlink. by rewrite E1.
    + intros q. rewrite Hq, Ht1. destruct (decide (q ∈ l)); [rewrite decide_True by (by right); done|].
      destruct (decide (q = p)) as [->|Hne].
      * rewrite decide_True by left. by rewrite lookup_delete_eq.
      * rewrite decide_False by (rewrite elem_of_cons; tauto). by rewrite lookup_delete_ne.
Qed.

(** Unlinking several paths, when every call returned. *)
Lemma unlinks_ok l s s' :
  for_each unlink l s = (Ok tt, s') ->
  forall q, tree s' !! q = if decide (q ∈ l) then None else tree s !! q.
Proof.
  revert s. induction l as [|p l IH]; intros s; cbn [for_each].
  - unfold ret. intros. simplify_eq. by rewrite decide_False by apply not_elem_of_nil.
  - unfold pbind. destruct (unlink p s) as [[[]|e] s1] eqn:E; intros H q; [|done].
    rewrite (IH _ H q). apply primitive_cases in E as [(? & ? & _)|E]; [done|].
    assert (tree s1 = delete p (tree s)) as ->.
    { unfold unlink_tree in E. by destruct (tree s !! p) as [[]|]; simplify_eq. }
    destruct (decide (q ∈ l)); [rewrite decide_True by (by right); done|].
    destruct (decide (q = p)) as [->|Hne].
    + rewrite decide_True by left. by rewrite lookup_delete_eq.
    + rewrite decide_False by (rewrite elem_of_cons; tauto). by rewrite lookup_delete_ne.
Qed.

Lemma create_temporary_cases name s o s' :
  create_temporary name s = (o, s') ->
  (exists e, o = Raise e /\ tree s' = tree s) \/
  (o = Ok (name (tree s)) /\ is_dir (path_parent (name (tree s))) (tree s) = true /\
   tree s' = <[name (tree s) := File (CBytes [])]> (tree s)).
Proof.
  intros [?|H]%primitive_cases; [by left|].
  destruct (write_tree (name (tree s)) _ _) as [o' t'] eqn:E.
  apply write_tree_cases in E as [(e & -> & ->)|(-> & Hd & _ & ->)]; simplify_eq; eauto.
Qed.

Lemma primitive_keeps_calm {A} (f : gmap path node -> outcome A * gmap path node) s o s' :
  primitive f s = (o, s') -> calm s -> calm s'.
Proof. intros H Hc. destruct (primitive_calm f s Hc) as (s2 & E & _ & ?). congruence. Qed.

(** * Removing a tree *)

Lemma elem_of_nodes_below p t q : q ∈ nodes_below p t <-> is_Some (relative_to q p) /\ t !! q ≠ None.
Proof.
  unfold nodes_below. rewrite merge_sort_Permutation, list_elem_of_filter, list_elem_of_fmap. apply and_iff_compat_l. split.
  - intros ([q' n] & -> & H%elem_of_map_to_list). simpl. by rewrite H.
  - intros H. destruct (t !! q) as [n|] eqn:E; [|done]. exists (q, n). split; [done|]. by apply elem_of_map_to_list.
Qed.

Lemma nodes_below_sorted p t : StronglySorted deeper (nodes_below p t).
Proof. apply (StronglySorted_merge_sort deeper). Qed.

Lemma empty_dir_spec p t : empty_dir p t = true <-> forall x r, t !! (p ++ x :: r) = None.
Proof.
  unfold empty_dir. rewrite forallb_forall. split.
  - intros H x r. destruct (t !! (p ++ x :: r)) as [n|] eqn:E; [|done]. apply elem_of_map_to_list, list_elem_of_In, H in E.
    simpl in E. by rewrite relative_to_app in E.
  - intros H [q n] Hin%list_elem_of_In%elem_of_map_to_list. simpl. destruct (relative_to q p) as [[|x r]|] eqn:E; [done| |done].
    apply relative_to_spec in E. subst q. by rewrite H in Hin.
Qed.

Lemma remove_node_subset p s o s' : remove_node p s = (o, s') -> forall q, tree s' !! q = tree s !! q \/ tree s' !! q = None /\ q = p.
Proof.
  intros [(e & _ & ->)|E]%primitive_cases q; [by left|]. unfold remove_tree in E.
  destruct (tree s !! p) as [[c|]|]; [|destruct (empty_dir _ _)|]; injection E as _ <-; try (by left);
    (destruct (decide (q = p)) as [->|Hne]; [right; by rewrite lookup_delete_eq|left; by rewrite lookup_delete_ne]).
Qed.

(** A loop whose body only removes elements of its list. *)
Lemma removals_subset (f : path -> PyM FsState unit) l s o s' :
  (forall p s o s', f p s = (o, s') -> forall q, tree s' !! q = tree s !! q \/ tree s' !! q = None /\ q = p) ->
  for_each f l s = (o, s') -> forall q, tree s' !! q = tree s !! q \/ tree s' !! q = None /\ q ∈ l.
Proof.
  intros Hf. revert s. induction l as [|p l IH]; intros s; cbn [for_each]; [unfold ret; intros [= _ <-] q; by left|].
  unfold pbind. destruct (f p s) as [o1 s1] eqn:E. pose proof (Hf _ _ _ _ E) as H1. destruct o1 as [[]|e].
  - intros H q. destruct (IH _ H q) as [Hq|[Hq Hin]]; [|right; split; [done|by right]]. rewrite Hq.
    destruct (H1 q) as [?|[? ->]]; [by left|right; split; [done|by left]].
  - intros [= _ <-] q. destruct (H1 q) as [?|[? ->]]; [by left|right; split; [done|by left]].
Qed.

(** Whatever fails, only nodes at or below the directory disappear. *)
Lemma rmtree_subset p s o s' : rmtree p s = (o, s') -> forall q, tree s' !! q = tree s !! q \/ tree s' !! q = None /\ is_Some (relative_to q p).
Proof.
  intros E q. eapply removals_subset in E as [?|[? Hq]]; [by left|right; split; [done|by apply elem_of_nodes_below in Hq as [? _]]|].
  intros p' s0 o0 s0'. unfold try_except. destruct (remove_node p' s0) as [o1 s1] eqn:E1. pose proof (remove_node_subset _ _ _ _ E1) as H.
  destruct o1 as [[]|e]; [|destruct (isinstance e COSError)]; unfold ret; intros [= _ <-]; exact H.
Qed.
Lemma cleanup_directory_subset p s o s' :
  cleanup_directory p s = (o, s') -> forall q, tree s' !! q = tree s !! q \/ tree s' !! q = None /\ is_Some (relative_to q p).
Proof.
  intros E q. eapply removals_subset in E as [?|[? Hq]]; [by left|right; split; [done|by apply elem_of_nodes_below in Hq as [? _]]|].
  apply remove_node_subset.
Qed.

(** Without faults everything at and below the directory disappears. *)
Lemma removals_calm l s :
  calm s -> NoDup l -> StronglySorted deeper l -> (forall q, q ∈ l -> tree s !! q ≠ None) ->
  (forall q x r, q ∈ l -> tree s !! (q ++ x :: r) ≠ None -> q ++ x :: r ∈ l) ->
  exists s', for_each remove_node l s = (Ok tt, s') /\ calm s' /\ forall q, q ∈ l -> tree s' !! q = None.
Proof.
  revert s. induction l as [|p l IH]; intros s Hc Hnd Hs Hin Hclosed.
  - exists s. split_and!; [done..|]. by intros q ?%elem_of_nil.
  - apply NoDup_cons in Hnd as [Hnew Hnd]. inversion Hs as [|? ? Hs' Hdeep]; subst. rewrite Forall_forall in Hdeep.
    assert (Hu : remove_tree p (tree s) = (Ok tt, delete p (tree s))).
    { unfold remove_tree. destruct (tree s !! p) as [[c|]|] eqn:E; [done| |by destruct (Hin p ltac:(by left))].
      assert (He : empty_dir p (tree s) = true); [|by rewrite He]. apply empty_dir_spec. intros x r.
      destruct (tree s !! (p ++ x :: r)) eqn:Ex; [|done]. exfalso.
      assert (Hx : p ++ x :: r ∈ p :: l) by (apply Hclosed; [by left|congruence]).
      apply elem_of_cons in Hx as [Hx|Hx%Hdeep].
      - apply (f_equal length) in Hx. rewrite length_app in Hx. simpl in Hx. lia.
      - unfold deeper in Hx. rewrite length_app in Hx. simpl in Hx. lia. }
    destruct (primitive_calm (remove_tree p) s Hc) as (s1 & E1 & Ht1 & Hc1). rewrite Hu in *. simpl in *.
    destruct (IH s1 Hc1 Hnd Hs') as (s' & E' & Hc' & Hq).
    + intros q Hq. rewrite Ht1, lookup_delete_ne by (intros ->; done). apply Hin. by right.
    + intros q x r Hq Hn. rewrite Ht1 in Hn. assert (Hne : p ≠ q ++ x :: r) by (intros Heq; rewrite <- Heq, lookup_delete_eq in Hn; done).
      rewrite lookup_delete_ne in Hn by done. assert (Hx : q ++ x :: r ∈ p :: l) by (apply Hclosed; [by right|done]).
      apply elem_of_cons in Hx as [Hx|Hx]; [by destruct Hne|done].
    + exists s'. split_and!; [|done|].
      * unfold pbind, remove_node. by rewrite E1.
      * intros q [->|Hl]%elem_of_cons; [|by apply Hq].
        destruct (removals_subset remove_node l s1 _ _ remove_node_subset E' p) as [->|[? _]]; [|done]. by rewrite Ht1, lookup_delete_eq.
Qed.

Lemma nodes_below_calm p s : calm s ->
  exists s', for_each remove_node (nodes_below p (tree s)) s = (Ok tt, s') /\ calm s' /\ forall q, q ∈ nodes_below p (tree s) -> tree s' !! q = None.
Proof.
  intros Hc. apply removals_calm; [done| |apply nodes_below_sorted| |].
  - unfold nodes_below. rewrite merge_sort_Permutation. apply NoDup_filter, NoDup_fst_map_to_list.
  - intros q [_ ?]%elem_of_nodes_below. done.
  - intros q x r [[y Hy] _]%elem_of_nodes_below Hn. apply elem_of_nodes_below. split; [|done].
    apply relative_to_spec in Hy. subst q. rewrite <- app_assoc, relative_to_app. eauto.
Qed.

(** A loop that returns does the same when failures would be passed over. *)
Lemma for_each_try {A} (f : A -> PyM FsState unit) h l s s' :
  for_each f l s = (Ok tt, s') -> for_each (fun x => try_except (f x) h) l s = (Ok tt, s').
Proof.
  revert s. induction l as [|x l IH]; intros s; cbn [for_each]; [done|]. unfold pbind, try_except.
  destruct (f x s) as [[[]|e] s1]; [apply IH|done].
Qed.

Lemma nodes_below_gone p s s' :
  (forall q, q ∈ nodes_below p (tree s) -> tree s' !! q = None) -> (forall q, tree s' !! q = tree s !! q \/ tree s' !! q = None) -> forall x, tree s' !! (p ++ x) = None.
Proof.
  intros H Hsub x. destruct (tree s !! (p ++ x)) as [n|] eqn:E; [|by destruct (Hsub (p ++ x)) as [->|]].
  apply H, elem_of_nodes_below. rewrite relative_to_app. split; [eauto|congruence].
Qed.

Lemma rmtree_calm p s : calm s -> exists s', rmtree p s = (Ok tt, s') /\ calm s' /\ forall x, tree s' !! (p ++ x) = None.
Proof.
  intros Hc. destruct (nodes_below_calm p s Hc) as (s' & E & Hc' & Hq). apply (for_each_try _ (fun e => if isinstance e COSError then Some (ret tt) else None)) in E.
  exists s'. split_and!; [exact E|done|]. apply (nodes_below_gone p s); [done|]. intros q. destruct (rmtree_subset p s _ _ E q) as [?|[? _]]; auto.
Qed.
Lemma cleanup_directory_calm p s : calm s -> exists s', cleanup_directory p s = (Ok tt, s') /\ calm s' /\ forall x, tree s' !! (p ++ x) = None.
Proof.
  intros Hc. destruct (nodes_below_calm p s Hc) as (s' & E & Hc' & Hq). exists s'. split_and!; [exact E|done|].
  apply (nodes_below_gone p s); [done|]. intros q. destruct (cleanup_directory_subset p s _ _ E q) as [?|[? _]]; auto.
Qed.

(** * A generator of fresh names, longer than any name in use *)

Definition longest_name (t : gmap path node) : nat :=
  foldr (fun kv n => length (path_name kv.1) `max` n)%nat 0%nat (map_to_list t).

Definition long_middle (t : gmap path node) (p : path) : str := replicate (longest_name t) 120%N.

Lemma longest_name_le t p n : t !! p = Some n -> (length (path_name p) <= longest_name t)%nat.
Proof.
  intros Hp. apply elem_of_map_to_list in Hp. unfold longest_name.
  induction (map_to_list t) as [|kv l IH]; [by apply elem_of_nil in Hp|].
  simpl. apply elem_of_cons in Hp as [<-|Hp]; simpl; [lia|]. specialize (IH Hp). lia.
Qed.

Lemma long_middle_fresh t p dir prefix suffix :
  prefix ≠ [] -> t !! child dir (prefix ++ long_middle t p ++ suffix) = None.
Proof.
  intros Hne. destruct (t !! _) as [n|] eqn:E; [|done]. apply longest_name_le in E.
  rewrite path_name_child, !length_app in E. unfold long_middle in E. rewrite length_replicate in E.
  destruct prefix; [done|]. simpl in E. lia.
Qed.
