(* ===== verification/Keeps.v ===== *)
(** Frame properties: what a computation on the file system leaves as it was. *)
From S2P Require Import Prelude Py PyStr Fs.

(** * Operations that keep a file *)

Definition keeps {A} (q : path) (m : PyM FsState A) : Prop :=
  forall s o s' n, tree s !! q = Some n -> m s = (o, s') -> tree s' !! q = Some n.

Section Keeps.
Context (q : path).

Lemma keeps_pure {A} (m : PyM FsState A) : (forall s, (m s).2 = s) -> keeps q m.
Proof. intros H s o s' n Hq E. specialize (H s). rewrite E in H. simpl in H. by subst. Qed.

Lemma keeps_bind {A B} (m : PyM FsState A) (f : A -> PyM FsState B) :
  keeps q m -> (forall a, keeps q (f a)) -> keeps q (pbind m f).
Proof.
  intros Hm Hf s o s' n Hq E. unfold pbind in E. destruct (m s) as [[a|e] s1] eqn:E1.
  - eapply Hf; [|exact E]. by eapply Hm.
  - simplify_eq. by eapply Hm.
Qed.

Lemma keeps_for_each {A} (f : A -> PyM FsState unit) l : (forall x, keeps q (f x)) -> keeps q (for_each f l).
Proof. intros Hf. induction l as [|x l IH]; [by apply keeps_pure|]. by apply keeps_bind. Qed.

Lemma keeps_primitive {A} (f : gmap path node -> outcome A * gmap path node) :
  (forall t n, t !! q = Some n -> (f t).2 !! q = Some n) -> keeps q (primitive f).
Proof.
  intros Hf s o s' n Hq [(e & _ & ->)|E]%primitive_cases; [done|].
  specialize (Hf _ _ Hq). by rewrite E in Hf.
Qed.

Lemma mkdirs_keeps ps t n : t !! q = Some n -> (mkdirs ps t).2 !! q = Some n.
Proof.
  intros Hq. destruct (mkdirs ps t) as [o t'] eqn:E. simpl.
  destruct (mkdirs_lookup _ _ _ _ q E) as [->|[? _]]; congruence.
Qed.

Lemma keeps_mkdir p : keeps q (mkdir p).
Proof. apply keeps_primitive. intros. by apply mkdirs_keeps. Qed.

Lemma keeps_mkdtemp name : keeps q (mkdtemp name).
Proof.
  apply keeps_primitive. intros t n Hq. unfold mkdtemp_tree, path_exists.
  destruct (is_dir _ t); [|done]. simpl. destruct (t !! name t) eqn:E; [done|].
  case_bool_decide; [done|]. simpl. rewrite lookup_insert_ne; congruence.
Qed.

Lemma keeps_copy_file src dst : dst ≠ q -> keeps q (copy_file src dst).
Proof.
  intros Hne. apply keeps_primitive. intros t n Hq. unfold copy_tree.
  destruct (t !! src) as [[c|]|]; [|done..]. destruct (write_tree dst c t) as [o t'] eqn:E.
  apply write_tree_cases in E as [(e & _ & ->)|(_ & _ & _ & ->)]; [done|].
  simpl. by rewrite lookup_insert_ne.
Qed.

Lemma keeps_copytree src dst : relative_to q dst = None -> keeps q (copytree src dst).
Proof.
  intros Hne. apply keeps_primitive. intros t n Hq. unfold copytree_tree.
  destruct (is_dir src t); [|done]. destruct (path_exists dst t); [done|]. simpl.
  destruct (mkdirs _ t) as [o t'] eqn:E. pose proof (mkdirs_keeps (prefixes dst) t n Hq) as Hk.
  rewrite E in Hk. destruct o; [|done]. simpl in *. rewrite lookup_union_r; [done|].
  apply not_elem_of_list_to_map_1. intros ([p k] & -> & Hin)%list_elem_of_fmap.
  apply list_elem_of_omap in Hin as ([p' k'] & _ & Hin). simpl in Hin.
  destruct (relative_to p' src) as [rel|]; [|done]. simplify_eq. simpl in Hne.
  by rewrite relative_to_app in Hne.
Qed.

Lemma keeps_rmtree p : relative_to q p = None -> keeps q (rmtree p).
Proof.
  intros Hne s o s' n Hq E. destruct (rmtree_subset _ _ _ _ E q) as [->|[_ [x Hx]]]; [done|congruence].
Qed.
Lemma keeps_cleanup_directory p : relative_to q p = None -> keeps q (cleanup_directory p).
Proof.
  intros Hne s o s' n Hq E. destruct (cleanup_directory_subset _ _ _ _ E q) as [->|[_ [x Hx]]]; [done|congruence].
Qed.

(** Everything below a directory that does not contain [q] may change. *)
Context (d : path) (Hd : relative_to q d = None).
Definition below (p : path) : Prop := exists x, p = d ++ x.

Lemma below_self : below d.
Proof. exists []. by rewrite app_nil_r. Qed.
Lemma below_app p x : below p -> below (p ++ x).
Proof. intros [y ->]. exists (y ++ x). by rewrite app_assoc. Qed.

Lemma below_elsewhere p : below p -> relative_to q p = None.
Proof.
  intros [x ->]. destruct (relative_to q (d ++ x)) as [y|] eqn:E; [|done].
  apply relative_to_spec in E. rewrite <- app_assoc in E. subst. by rewrite relative_to_app in Hd.
Qed.

Lemma keeps_copytree_below src p : below p -> keeps q (copytree src p).
Proof. intros. by apply keeps_copytree, below_elsewhere. Qed.

End Keeps.

(** * Directories that were made *)

Lemma mkdirs_dirs ps t t' : mkdirs ps t = (Ok tt, t') -> Forall (fun p => t' !! p = Some Dir) ps.
Proof.
  revert t. induction ps as [|p ps IH]; intros t H; simpl in H; [constructor|].
  destruct (t !! p) as [[c|]|] eqn:E; [done|..]; constructor; eauto.
  - pose proof (mkdirs_keeps p ps t Dir E) as Hk. by rewrite H in Hk.
  - pose proof (mkdirs_keeps p ps (<[p:=Dir]> t) Dir) as Hk. rewrite H in Hk. apply Hk.
    apply lookup_insert_eq.
Qed.

Lemma mkdir_is_dir p s s' : mkdir p s = (Ok tt, s') -> is_dir p (tree s') = true.
Proof.
  intros [(e & ? & _)|E]%primitive_cases; [done|]. by eapply prefixes_is_dir, mkdirs_dirs.
Qed.

Lemma not_below_shallower q d : (length q < length d)%nat -> relative_to q d = None.
Proof.
  intros H. destruct (relative_to q d) as [x|] eqn:E; [|done]. apply relative_to_spec in E. subst.
  rewrite length_app in H. lia.
Qed.

(** * Operations that make no directories but some *)

Definition makes_only {A} (ds : list path) (m : PyM FsState A) : Prop :=
  forall s o s' q, m s = (o, s') -> tree s' !! q = Some Dir -> tree s !! q = Some Dir \/ q ∈ ds.

Section MakesOnly.
Context (ds : list path).

Lemma makes_only_pure {A} (m : PyM FsState A) : (forall s, (m s).2 = s) -> makes_only ds m.
Proof. intros H s o s' q E Hq. specialize (H s). rewrite E in H. simpl in H. subst. by left. Qed.

Lemma makes_only_bind {A B} (m : PyM FsState A) (f : A -> PyM FsState B) : makes_only ds m -> (forall a, makes_only ds (f a)) -> makes_only ds (pbind m f).
Proof.
  intros Hm Hf s o s' q E Hq. unfold pbind in E. destruct (m s) as [[a|e] s1] eqn:E1; [|simplify_eq; by eapply Hm].
  destruct (Hf _ _ _ _ _ E Hq) as [H1|?]; [|by right]. by eapply Hm.
Qed.

Lemma makes_only_primitive {A} (f : gmap path node -> outcome A * gmap path node) :
  (forall t q, (f t).2 !! q = Some Dir -> t !! q = Some Dir \/ q ∈ ds) -> makes_only ds (primitive f).
Proof. intros Hf s o s' q [(e & _ & ->)|E]%primitive_cases Hq; [by left|]. apply Hf. by rewrite E. Qed.

Lemma makes_only_on_error {A} (m : PyM FsState A) h : makes_only ds m -> makes_only ds h -> makes_only ds (on_error m h).
Proof.
  intros Hm Hh s o s' q E Hq. unfold on_error in E. destruct (m s) as [[a|e] s1] eqn:E1; [simplify_eq; by eapply Hm|].
  destruct (h s1) as [o2 s2] eqn:E2. assert (s2 = s') as -> by (destruct o2; congruence). destruct (Hh _ _ _ _ E2 Hq) as [H1|?]; [|by right]. by eapply Hm.
Qed.

Lemma makes_only_mkdir p : prefixes p ⊆ ds -> makes_only ds (mkdir p).
Proof.
  intros Hp. apply makes_only_primitive. intros t q Hq. destruct (mkdirs (prefixes p) t) as [o t'] eqn:E. simpl in Hq.
  destruct (mkdirs_lookup _ _ _ _ q E) as [Hs|(_ & _ & Hin)]; [left; congruence|right; by apply Hp].
Qed.

Lemma makes_only_write p c : makes_only ds (write_file p c).
Proof.
  apply makes_only_primitive. intros t q Hq. destruct (write_tree p c t) as [o t'] eqn:E. simpl in Hq.
  apply write_tree_cases in E as [(e & _ & ->)|(_ & _ & _ & ->)]; [by left|]. destruct (decide (p = q)) as [->|Hne]; [by rewrite lookup_insert_eq in Hq|].
  rewrite lookup_insert_ne in Hq by done. by left.
Qed.

Lemma makes_only_temporary name : makes_only ds (create_temporary name).
Proof.
  apply makes_only_primitive. intros t q Hq. destruct (write_tree (name t) (CBytes []) t) as [o t'] eqn:E.
  assert (Hq' : t' !! q = Some Dir) by (by destruct o). pose proof (makes_only_write (name t) (CBytes []) (mkFs t []) o (mkFs t' []) q) as H.
  apply H; [|done]. unfold write_file, primitive. simpl. by rewrite E.
Qed.

Lemma makes_only_unlink p : makes_only ds (unlink p).
Proof.
  apply makes_only_primitive. intros t q Hq. unfold unlink_tree in Hq. left.
  destruct (t !! p) as [[c|]|]; simpl in Hq; [by apply lookup_delete_Some in Hq as [_ ?]|done|by apply lookup_delete_Some in Hq as [_ ?]].
Qed.

Lemma makes_only_replace src dst : makes_only ds (os_replace src dst).
Proof.
  apply makes_only_primitive. intros t q Hq. unfold replace_tree in Hq. left. destruct (t !! src) as [[c|]|]; [|done..].
  destruct (is_dir _ t); [|done]. simpl in Hq. destruct (decide (dst = q)) as [->|Hne].
  - destruct (t !! q) as [[]|]; [|done|]; simpl in Hq; by rewrite lookup_insert_eq in Hq.
  - destruct (t !! dst) as [[]|]; simpl in Hq; [|done|]; rewrite lookup_insert_ne in Hq by done; by apply lookup_delete_Some in Hq as [_ ?].
Qed.
End MakesOnly.
