(* ===== verification/Calm.v ===== *)
(** Runs without faults: a computation on a file system with an empty fault script returns, with a
    postcondition on its result and the tree it leaves. *)
From S2P Require Import Prelude Py PyStr Fs.

Definition calmly {A} (m : PyM FsState A) (s : FsState) (Q : A -> gmap path node -> Prop) : Prop :=
  exists a s', m s = (Ok a, s') /\ calm s' /\ Q a (tree s').

Lemma calmly_ret {A} (a : A) (s : FsState) (Q : A -> gmap path node -> Prop) : calm s -> Q a (tree s) -> calmly (ret a) s Q.
Proof. intros Hc H. by exists a, s. Qed.

Lemma calmly_bind {A B} (m : PyM FsState A) (f : A -> PyM FsState B) (s : FsState) Q R :
  calmly m s Q -> (forall a s', calm s' -> Q a (tree s') -> calmly (f a) s' R) -> calmly (pbind m f) s R.
Proof.
  intros (a & s1 & E & Hc & H) Hf. destruct (Hf a s1 Hc H) as (b & s2 & E2 & Hc2 & H2).
  exists b, s2. unfold pbind. by rewrite E.
Qed.

Lemma calmly_primitive {A} (f : gmap path node -> outcome A * gmap path node) (a : A) (s : FsState)
    (Q : A -> gmap path node -> Prop) :
  calm s -> (f (tree s)).1 = Ok a -> Q a (f (tree s)).2 -> calmly (primitive f) s Q.
Proof.
  intros Hc E H. destruct (primitive_calm f s Hc) as (s' & E' & Ht & Hc'). exists a, s'.
  rewrite E', E, Ht. by split_and!.
Qed.

Lemma calmly_impl {A} (m : PyM FsState A) (s : FsState) (Q R : A -> gmap path node -> Prop) :
  calmly m s Q -> (forall a t, Q a t -> R a t) -> calmly m s R.
Proof. intros (a & s' & ? & ? & ?) Himp. exists a, s'. eauto. Qed.

(** A loop with an invariant of the elements that were done and the tree. *)
Lemma calmly_for_each {A} (f : A -> PyM FsState unit) (l : list A) (s : FsState) (I : list A -> gmap path node -> Prop) :
  calm s -> I [] (tree s) ->
  (forall done x s', calm s' -> I done (tree s') -> done ++ [x] `prefix_of` l ->
     calmly (f x) s' (fun _ t => I (done ++ [x]) t)) ->
  calmly (for_each f l) s (fun _ t => I l t).
Proof.
  intros Hc H0 Hstep. assert (H : forall rest done s, done ++ rest = l -> calm s -> I done (tree s) ->
    calmly (for_each f rest) s (fun _ t => I l t)); [|by apply (H l [])].
  clear s Hc H0. induction rest as [|x rest IH]; intros done_ s E Hc HI.
  - rewrite app_nil_r in E. subst. by apply calmly_ret.
  - simpl. eapply calmly_bind; [apply (Hstep done_ x s Hc HI); exists rest; by rewrite <- app_assoc|].
    intros [] s' Hc' HI'. apply (IH (done_ ++ [x])); [by rewrite <- app_assoc|done|done].
Qed.

Lemma calmly_mkdir (p : path) (s : FsState) (Q : unit -> gmap path node -> Prop) :
  calm s -> Forall (fun q => tree s !! q = Some Dir) (prefixes p) -> Q tt (tree s) -> calmly (mkdir p) s Q.
Proof. intros Hc Hp H. apply (calmly_primitive _ tt); [done|..]; by rewrite mkdirs_all_dirs. Qed.

Lemma calmly_os_replace (src dst : path) (c : content) (s : FsState) (Q : unit -> gmap path node -> Prop) :
  calm s -> tree s !! src = Some (File c) -> is_dir (path_parent dst) (tree s) = true ->
  tree s !! dst ≠ Some Dir -> Q tt (<[dst := File c]> (delete src (tree s))) -> calmly (os_replace src dst) s Q.
Proof.
  intros Hc Hs Hd Ht H.
  assert (E : replace_tree src dst (tree s) = (Ok tt, <[dst := File c]> (delete src (tree s)))).
  { unfold replace_tree. rewrite Hs, Hd. simpl. by destruct (tree s !! dst) as [[]|]. }
  apply (calmly_primitive _ tt); [done|..]; by rewrite E.
Qed.

(** * Steps that leave the state as it is *)

Lemma calmly_lift_then {A B} (o : outcome A) (a : A) (f : A -> PyM FsState B) (s : FsState) Q :
  o = Ok a -> calmly (f a) s Q -> calmly (pbind (lift o) f) s Q.
Proof. by intros ->. Qed.

Lemma calmly_gets_then {A B} (g : FsState -> A) (a : A) (f : A -> PyM FsState B) (s : FsState) Q :
  g s = a -> calmly (f a) s Q -> calmly (pbind (gets g) f) s Q.
Proof. by intros <-. Qed.

Lemma calmly_reads_then {A B : Type} (g : gmap path node -> outcome A) (a : A) (f : A -> PyM FsState B) (s : FsState) Q :
  g (tree s) = Ok a -> calmly (f a) s Q -> calmly (pbind (reads g) f) s Q.
Proof. unfold reads, pbind, calmly. by intros ->. Qed.

(** Making directories that exist. *)
Lemma calmly_mkdir_then {B} (p : path) (f : unit -> PyM FsState B) (s : FsState) Q :
  calm s -> Forall (fun q => tree s !! q = Some Dir) (prefixes p) ->
  (forall s', calm s' -> tree s' = tree s -> calmly (f tt) s' Q) -> calmly (pbind (mkdir p) f) s Q.
Proof.
  intros Hc Hp Hf. eapply calmly_bind; [by apply (calmly_mkdir p s (fun _ t => t = tree s))|].
  intros [] s' Hc' Ht. by apply Hf.
Qed.
