(* ===== verification/Artifacts.v ===== *)
(** Artifacts on disk: contents and digests, JSON documents, path resolution, the data root's
    layout ([config/paths.py]), safe stems ([domain/stems.py]) and the processed manifests
    ([io/processed_manifest.py], [v2/storage.py]). *)
From S2P Require Import Prelude Py PyStr PyText Fs.

(** What is taken from the JSON encoder and from [pyarrow]: the text of a value, the value of a
    text, and whether a Parquet file has the sentence schema; the last two may raise. *)
Class FileFormats := {
  json_text : pyval -> list N;
  json_parse : list N -> outcome pyval;
  has_sentence_schema : list N -> outcome bool }.

Section Artifacts.
Context {RT : Runtime} {FF : FileFormats}.

(** * Contents *)

Definition content_bytes (c : content) : list N :=
  match c with CBytes b => b | CJson v => json_text v end.

(** [open(path, "rb").read()]. *)
Definition read_bytes (p : path) (t : gmap path node) : outcome (list N) :=
  match t !! p with
  | Some (File c) => Ok (content_bytes c)
  | Some Dir => Raise os_error
  | None => Raise not_found
  end.

(** [path.stat().st_size] of a file. *)
Definition file_size (p : path) (t : gmap path node) : outcome Z :=
  b ← read_bytes p t; mret (len b).

(** [sha256_file]. *)
Definition sha256_file (p : path) (t : gmap path node) : outcome str :=
  b ← read_bytes p t; mret (sha256_hexdigest b).

(** [json_loads(path.read_text(encoding="utf-8"))]. *)
Definition read_json (p : path) (t : gmap path node) : outcome pyval :=
  match t !! p with
  | Some (File (CJson v)) => Ok v
  | Some (File (CBytes b)) => json_parse b
  | Some Dir => Raise os_error
  | None => Raise not_found
  end.

(** [json.JSONDecodeError]. *)
Definition JSONDecodeError : exn_class := CUser (u "JSONDecodeError") CValueError.

(** [read_json(path, on_malformed=...)]: only text that is no JSON document is translated. *)
Definition read_json_strict (on_malformed : exn -> exn) (p : path) (t : gmap path node) : outcome pyval :=
  match read_json p t with
  | Raise e => if isinstance e JSONDecodeError then Raise (on_malformed e) else Raise e
  | r => r
  end.

(** [path.stem]: the name without its last suffix. *)
Definition stem_of_name (name : str) : str :=
  match partition_on 46 (reverse name) with
  | Some (suffix, base) =>
      if bool_decide (suffix = [] \/ base = []) then name else reverse base
  | None => name
  end.

(** A value that is used through its method [get]. *)
Definition AttributeError : exn_class := CUser (u "AttributeError") CException.
Definition as_entry (v : pyval) : outcome pydict :=
  match v with
  | VDict d => mret d
  | _ => Raise (exc AttributeError (msg "object has no attribute 'get'"))
  end.

(** * Paths *)

(** [Path(text)]: empty and [.] components disappear, [..] stays. *)
Definition path_components (s : str) : path :=
  filter (fun c => c ≠ [] /\ c ≠ u ".") (split_on 47 s).

(** [root / text]. *)
Definition path_join (root : path) (s : str) : path :=
  match s with
  | 47%N :: _ => path_components s
  | _ => root ++ path_components s
  end.

(** [path.resolve()] on a file system without symbolic links. *)
Definition resolve (p : path) : path :=
  foldl (fun acc c => if str_eqb c (u "..") then removelast acc else acc ++ [c]) [] p.

(** [root / "a/b"] for a relative path of the source. *)
Definition sub (p : path) (rel : string) : path := p ++ path_components (u rel).

(** [DataRoot]. *)
Definition processed (data_root : path) : path := sub data_root "processed".
Definition processed_polygons (data_root : path) : path := sub (processed data_root) "polygons".
Definition processed_articles (data_root : path) : path := sub (processed data_root) "articles".
Definition processed_links (data_root : path) : path := sub (processed data_root) "polygon_articles".
Definition processed_manifests (data_root : path) : path := sub (processed data_root) "manifests".
Definition processed_v2 (data_root : path) : path := sub data_root "processed_v2".
Definition cache (data_root : path) : path := sub data_root "cache".
Definition v2_cache (data_root : path) : path := sub (cache data_root) "v2".

(** [root.iterdir()], sorted. *)
Definition iterdir (p : path) (t : gmap path node) : list path :=
  child p <$> sorted_strs (omap (fun kv =>
    match relative_to kv.1 p with Some [name] => Some name | _ => None end) (map_to_list t)).

(** * Safe stems *)

Definition is_safe_stem (stem : pyval) : bool :=
  match stem with
  | VStr s => negb (bool_decide (s = [])) && negb (bool_decide (s = u "." \/ s = u "..")) &&
              negb (existsb (N.eqb 47) s) && negb (existsb (N.eqb 92) s)
  | _ => false
  end.

Definition require_safe_stem (stem : str) (label : str) (error : exn_class) : outcome str :=
  if is_safe_stem (VStr stem) then mret stem
  else Raise (exc error [FStr (u "Invalid " ++ label ++ u ": "); FRepr (VStr stem)]).

(** * Processed manifests *)

Definition regions_of (document : pydict) (regions_required : bool) : pyval :=
  if regions_required then dget_none (u "regions") document
  else default (VDict document) (dget (u "regions") document).

Definition regions_refused (entries : pyval) (allow_empty : bool) : bool :=
  match entries with
  | VDict d => negb allow_empty && bool_decide (length d = 0%nat)
  | _ => true
  end.

Definition processed_manifest_entries (raw : pyval) (on_not_object on_regions_invalid : exn)
    (regions_required allow_empty : bool) : outcome pydict :=
  match raw with
  | VDict document =>
      let entries := regions_of document regions_required in
      _ ← raise_if (regions_refused entries allow_empty) on_regions_invalid;
      match entries with VDict d => mret d | _ => Raise on_regions_invalid end
  | _ => Raise on_not_object
  end.

(** [_read_manifest]: an [OSError] passes through. *)
Definition read_manifest (p : path) (t : gmap path node) : outcome pyval :=
  match read_json p t with
  | Raise e => if isinstance e CUnicodeError || isinstance e CValueError
               then Raise (exc_from CValueError (msg "Malformed V2 manifest") e) else Raise e
  | r => r
  end.

(** [_coerce_manifest_entries]: the keys of a JSON object are strings. *)
Definition coerce_manifest_entries (entries : pydict) : list (str * pydict) :=
  omap (fun kv => match kv.2 with VDict d => Some (kv.1, d) | _ => None end) entries.

Definition load_v2_manifest (processed_v2 : path) (t : gmap path node)
    : outcome (list (str * pydict)) :=
  let p := sub processed_v2 "manifests/processed_pbfs.json" in
  if negb (path_exists p t) then mret []
  else
    raw ← read_manifest p t;
    entries ← processed_manifest_entries raw
      (exc CValueError (msg "V2 manifest is not an object"))
      (exc CValueError (msg "V2 manifest regions is not an object")) false true;
    mret (coerce_manifest_entries entries).

(** * The V1 manifest *)

(** [load_manifest] ([io/manifest.py]): an empty file is an empty manifest. *)
Definition malformed_manifest (e : exn) : exn :=
  exc_from CValueError (FStr (u "Malformed processed manifest: ") :: exn_msg e) e.
Definition load_manifest (p : path) (t : gmap path node) : outcome pydict :=
  if negb (path_exists p t) then mret []
  else if match t !! p with
          | Some (File (CBytes b)) =>
              match utf8_decode b with Some text => bool_decide (strip text = []) | None => false end
          | _ => false
          end
  then mret []
  else
    match read_json p t with
    | Ok (VDict entries) => mret entries
    | Ok _ => mret []
    | Raise e =>
        if isinstance e CUnicodeError || isinstance e CValueError
        then Raise (malformed_manifest e) else Raise e
    end.

(** * Lemmas *)

Lemma resolve_no_dotdot p : u ".." ∉ resolve p.
Proof.
  unfold resolve. induction p as [|c p IH] using rev_ind; simpl; [apply not_elem_of_nil|].
  rewrite foldl_app. simpl. destruct (str_eqb_spec c (u "..")) as [->|Hne].
  - destruct (foldl _ _ _) as [|x l _] using rev_ind; [done|]. rewrite removelast_last.
    intros H. apply IH, elem_of_app. by left.
  - rewrite elem_of_app, list_elem_of_singleton. naive_solver.
Qed.

Lemma resolve_id p : u ".." ∉ p -> resolve p = p.
Proof.
  unfold resolve. induction p as [|c p IH] using rev_ind; intros H; [done|].
  rewrite not_elem_of_app, list_elem_of_singleton in H. rewrite foldl_app. simpl.
  rewrite IH by tauto. rewrite str_eqb_neq; [done|]. intros ->. tauto.
Qed.

End Artifacts.

(** Fixed parameters, for examples: every value prints as [value], every digest is the reversed
    text, a JSON text is empty and every Parquet file has the sentence schema. *)
Definition example_runtime : Runtime := {|
  str_of_nonstr _ := u "value"; sha256_hexdigest b := reverse b |}.
Definition example_formats : FileFormats := {|
  json_text _ := []; json_parse _ := Raise (exc CValueError []); has_sentence_schema _ := Ok true |}.
