(* ===== verification/StagedInstall.v ===== *)
(** Multi-file staged installation with rollback ([io/staged_install.py]). *)
From stdpp Require Import sorting.
From S2P Require Import Prelude Py PyStr Fs.

(** [CrossFilesystemInstallError]. *)
Definition CrossFilesystemInstallError : exn_class :=
  CUser (u "CrossFilesystemInstallError") COSError.
Definition EXDEV : Z := 18.

(** The transaction's mutable state: the file system and the two collections the phases share. *)
Record Txn := mkTxn {
  t_fs : FsState;
  t_backups : list (path * path);
  t_installed : list path }.

Definition on_fs {A} (m : PyM FsState A) : PyM Txn A := fun x =>
  let '(o, s) := m (t_fs x) in (o, mkTxn s (t_backups x) (t_installed x)).

Definition add_backup (target backup : path) : PyM Txn unit :=
  modify (fun x => mkTxn (t_fs x) (t_backups x ++ [(target, backup)]) (t_installed x)).
Definition add_installed (final : path) : PyM Txn unit :=
  modify (fun x => mkTxn (t_fs x) (t_backups x) (t_installed x ++ [final])).

Definition posix_le (a b : path) : Prop := str_le (as_posix a) (as_posix b).
#[export] Instance posix_le_dec : RelDecision posix_le.
Proof. intros a b. unfold posix_le. apply _. Defined.
#[export] Instance posix_le_total : Total posix_le.
Proof. intros a b. apply (total str_le). Qed.
#[export] Instance posix_le_trans : Transitive posix_le.
Proof. intros a b c. unfold posix_le. apply transitivity. Qed.

Section Install.
(** [tempfile.mkstemp] chooses the middle part of a name. *)
Variable mkstemp_middle : gmap path node -> path -> str.

Definition backup_name (target : path) (t : gmap path node) : path :=
  child (path_parent target)
    (u "." ++ path_name target ++ u "." ++ mkstemp_middle t target ++ u ".backup").

(** [tempfile.mkstemp(prefix=..., suffix=".backup", dir=path.parent)]: creates an empty file. *)
Definition mkstemp (target : path) : PyM FsState path := create_temporary (backup_name target).

(** [replace_path]. *)
Definition replace_path (source destination : path) : PyM FsState unit :=
  try_except (os_replace source destination)
    (fun e => if isinstance e COSError
              then Some (throw (if bool_decide (exn_errno e = Some EXDEV)
                                then MkExn CrossFilesystemInstallError
                                       (msg "cannot cross filesystems (EXDEV)") (Some EXDEV)
                                       None None (Some e) (Some e)
                                else e))
              else None).

(** [backup_existing]. *)
Definition backup_existing (p : path) : PyM FsState path :=
  backup <- mkstemp p;;
  replace_path p backup;;
  ret backup.

(** The loop body of [restore_files] over the backups. *)
Definition restore_backup (fb : path * path) : PyM FsState unit :=
  existing <- gets (fun s => path_exists fb.2 (tree s));;
  if existing
  then mkdir (path_parent fb.1);; replace_path fb.2 fb.1
  else ret tt.

Definition backup_le (a b : path * path) : Prop := posix_le a.1 b.1.
#[export] Instance backup_le_dec : RelDecision backup_le.
Proof. intros a b. unfold backup_le. apply _. Defined.

(** [restore_files]. *)
Definition restore_files (installed : list path) (backups : list (path * path))
    : PyM FsState unit :=
  for_each unlink installed;;
  for_each restore_backup (merge_sort backup_le backups).

(** The loop body of [backup_targets]. *)
Definition backup_target (target : path) : PyM Txn unit :=
  existing <- gets (fun x => path_exists target (tree (t_fs x)));;
  if existing
  then backup <- on_fs (backup_existing target);; add_backup target backup
  else ret tt.

(** [restore_files(installed, backups)] on the current collections. *)
Definition restore_current : PyM Txn unit := fun x =>
  on_fs (restore_files (t_installed x) (t_backups x)) x.
Definition restore_backups_only : PyM Txn unit := fun x =>
  on_fs (restore_files [] (t_backups x)) x.

(** [backup_targets]. *)
Definition backup_targets (targets : list path) : PyM Txn unit :=
  on_error (for_each backup_target targets) restore_backups_only.

(** The sort key of [install_files]: the manifest last, the rest by posix path. *)
Definition install_leb (manifest_path : option path) (a b : path * path) : bool :=
  let is_m x := bool_decide (manifest_path = Some (fst x)) in
  if is_m a then is_m b && bool_decide (posix_le a.1 b.1)
  else is_m b || bool_decide (posix_le a.1 b.1).
Definition install_le (manifest_path : option path) (a b : path * path) : Prop :=
  install_leb manifest_path a b = true.
#[export] Instance install_le_dec m : RelDecision (install_le m).
Proof. intros a b. unfold install_le. apply _. Defined.

Definition install_order (manifest_path : option path) (staged : list (path * path))
    : list (path * path) :=
  merge_sort (install_le manifest_path) staged.

Definition install_one (fs : path * path) : PyM Txn unit :=
  on_fs (mkdir (path_parent fs.1));;
  on_fs (replace_path fs.2 fs.1);;
  add_installed fs.1.

(** [install_files]. *)
Definition install_files (staged : list (path * path)) (manifest_path : option path)
    : PyM Txn unit :=
  for_each install_one (install_order manifest_path staged).

(** [cleanup_transaction]. *)
Definition cleanup_transaction (staged : list (path * path)) : PyM Txn unit := fun x =>
  on_fs (for_each unlink staged.*2;; for_each unlink (t_backups x).*2) x.

(** [sorted(set(staged) | set(stale), key=as_posix)]. *)
Definition install_targets (staged : list (path * path)) (stale : list path) : list path :=
  merge_sort posix_le (remove_dups (staged.*1 ++ stale)).

(** The body of the [try] of [install_staged_files]. *)
Definition install_forward (staged : list (path * path)) (stale : list path)
    (manifest_path : option path) : PyM Txn unit :=
  backup_targets (install_targets staged stale);;
  install_files staged manifest_path.

Definition install_txn (staged : list (path * path)) (stale : list path)
    (manifest_path : option path) : PyM Txn unit :=
  finally (on_error (install_forward staged stale manifest_path) restore_current)
    (cleanup_transaction staged).

(** [install_staged_files]. *)
Definition install_staged_files (staged : list (path * path)) (stale : list path)
    (manifest_path : option path) : PyM FsState unit := fun s =>
  let '(o, x) := install_txn staged stale manifest_path (mkTxn s [] []) in (o, t_fs x).

(** * Moving one file *)

Lemma replace_path_cases src dst s o s' :
  replace_path src dst s = (o, s') ->
  (exists e, o = Raise e /\ tree s' = tree s) \/
  (exists c, o = Ok tt /\ tree s !! src = Some (File c) /\ is_dir (path_parent dst) (tree s) = true /\
     tree s !! dst ≠ Some Dir /\ tree s' = <[dst := File c]> (delete src (tree s))).
Proof.
  unfold replace_path, try_except, os_replace.
  destruct (primitive (replace_tree src dst) s) as [[[]|e] s1] eqn:E; intros H.
  - simplify_eq. apply primitive_cases in E as [(e & ? & _)|E]; [done|]. right.
    unfold replace_tree in E. repeat case_match; simplify_eq/=; eexists; split_and!; try done;
      try (by apply negb_false_iff); congruence.
  - left. assert (tree s1 = tree s).
    { apply primitive_cases in E as [(e' & ? & ?)|E]; [done|].
      unfold replace_tree in E. repeat case_match; by simplify_eq/=. }
    destruct (isinstance e COSError); unfold throw in H; simplify_eq; eauto.
Qed.

Lemma replace_path_calm src dst c s :
  calm s -> tree s !! src = Some (File c) -> is_dir (path_parent dst) (tree s) = true ->
  tree s !! dst ≠ Some Dir ->
  exists s', replace_path src dst s = (Ok tt, s') /\ calm s' /\
    tree s' = <[dst := File c]> (delete src (tree s)).
Proof.
  intros Hc Hs Hp Hd. unfold replace_path, try_except, os_replace.
  destruct (primitive_calm (replace_tree src dst) s Hc) as (s' & E & Ht & Hc').
  assert (Hr : replace_tree src dst (tree s) = (Ok tt, <[dst := File c]> (delete src (tree s)))).
  { unfold replace_tree. rewrite Hs, Hp. simpl. by destruct (tree s !! dst) as [[]|]. }
  rewrite Hr in *. exists s'. by rewrite E.
Qed.

(** * Backup names *)

Definition backup_like (p : path) : bool := endswith (u ".backup") (path_name p).

Lemma backup_name_like p t : backup_like (backup_name p t) = true.
Proof.
  unfold backup_like, backup_name. rewrite path_name_child, !app_assoc. apply endswith_app.
Qed.

(** * The transaction invariant *)

(** What the transaction relies on: distinct staged files next to no target, targets that are
    not directories and not above one another, names that no backup can have, and existing
    targets whose directories exist. *)
Record well_staged (staged : list (path * path)) (stale : list path) (t0 : gmap path node)
    : Prop := {
  ws_finals : NoDup staged.*1;
  ws_temps : NoDup staged.*2;
  ws_temp_file : forall f tmp, (f, tmp) ∈ staged -> exists c, t0 !! tmp = Some (File c);
  ws_temp_target : forall q, q ∈ staged.*2 -> q ∉ staged.*1 ++ stale;
  ws_target : forall p, p ∈ staged.*1 ++ stale -> p ≠ [] /\ t0 !! p ≠ Some Dir;
  ws_names : forall p, p ∈ (staged.*1 ++ stale) ++ staged.*2 -> backup_like p = false;
  ws_above : forall p q, p ∈ staged.*1 ++ stale -> q ∈ (staged.*1 ++ stale) ++ staged.*2 ->
    q ∉ prefixes (path_parent p);
  ws_parents : forall p, p ∈ staged.*1 ++ stale -> t0 !! p ≠ None ->
    Forall (fun q => t0 !! q = Some Dir) (prefixes (path_parent p)) }.

Section Invariant.
Context (staged : list (path * path)) (stale : list path) (t0 : gmap path node).
Context (mkstemp_fresh : forall t p, t !! backup_name p t = None).
Context (WS : well_staged staged stale t0).
Local Abbreviation targets := (staged.*1 ++ stale).
Local Abbreviation names := ((staged.*1 ++ stale) ++ staged.*2).

(** The tree [t] reached from [t0] with backups [B] and installed files [I].  Only after a
    failure can a backup already be restored, a staged file be lost, or an empty file that
    [mkstemp] created stay behind. *)
Record inv (failed : bool) (t : gmap path node) (B : list (path * path)) (I : list path)
    : Prop := {
  inv_nodup : NoDup B.*1;
  inv_nodup_backups : NoDup B.*2;
  inv_installed : forall f, f ∈ I -> f ∈ staged.*1 /\ exists c, t !! f = Some (File c);
  inv_backup : forall p b, (p, b) ∈ B -> p ∈ targets /\ (b ∉ names /\ b ≠ []) /\ t0 !! b = None /\
    exists c, t0 !! p = Some (File c) /\
      (t !! b = Some (File c) /\ (t !! p = None \/ p ∈ I) \/
       failed = true /\ t !! b = None /\ t !! p = Some (File c) /\ p ∉ I);
  inv_target : forall p, p ∈ targets -> p ∉ B.*1 -> p ∉ I -> t !! p = t0 !! p;
  inv_new_target : forall f, f ∈ I -> f ∉ B.*1 -> t0 !! f = None;
  inv_staged : failed = false -> forall f tmp, (f, tmp) ∈ staged ->
    (f ∈ I -> t !! f = t0 !! tmp /\ t !! tmp = None) /\ (f ∉ I -> t !! tmp = t0 !! tmp);
  inv_temp : forall tmp, tmp ∈ staged.*2 -> t !! tmp ≠ Some Dir;
  inv_kept : forall q n, q ∉ names -> t0 !! q = Some n -> t !! q = Some n;
  inv_new : forall q n, q ∉ names -> q ∉ B.*2 -> t0 !! q = None -> t !! q = Some n ->
    n = Dir \/ failed = true /\ n = File (CBytes []) /\ backup_like q = true }.

Lemma inv_init : inv false t0 [] [].
Proof.
  split; try (by constructor); try (by intros ? ?%elem_of_nil); try (by intros ? ? ?%elem_of_nil);
    try done; try congruence.
  - intros _ f tmp _. split; [by intros ?%elem_of_nil|done].
  - intros tmp Htmp. apply list_elem_of_fmap in Htmp as ([f tmp'] & -> & Hin).
    destruct (ws_temp_file _ _ _ WS _ _ Hin) as [c Hc]. simpl. congruence.
Qed.

Lemma inv_fail t B I b : inv b t B I -> inv true t B I.
Proof.
  intros []. split; try done.
  - intros p bk Hin. destruct (inv_backup0 p bk Hin) as (? & [? ?] & ? & c & ? & [?|[? ?]]); eauto 10.
  - intros q n ? ? ? ?. destruct (inv_new0 q n) as [?|[? ?]]; auto.
Qed.

(** Directories made for a target's parents change nothing the invariant speaks of. *)
Lemma inv_mkdirs t B I p o t' :
  inv false t B I -> p ∈ targets -> mkdirs (prefixes (path_parent p)) t = (o, t') ->
  inv false t' B I.
Proof.
  intros HI Hp Hm.
  assert (Hsame : forall q, q ∈ names \/ t !! q ≠ None -> t' !! q = t !! q).
  { intros q Hq. destruct (mkdirs_lookup _ _ _ _ q Hm) as [|(? & ? & Hin)]; [done|].
    destruct Hq; [|done]. by destruct (ws_above _ _ _ WS p q). }
  assert (Hother : forall q n, t' !! q = Some n -> t !! q = Some n \/ n = Dir).
  { intros q n ?. destruct (mkdirs_lookup _ _ _ _ q Hm) as [?|(? & ? & ?)]; [left|right]; congruence. }
  assert (Hnames : forall q, q ∈ targets \/ q ∈ staged.*2 -> t' !! q = t !! q).
  { intros q Hq. apply Hsame. left. by rewrite elem_of_app. }
  destruct HI. split; try done.
  - intros f Hf. destruct (inv_installed0 f Hf) as (? & c & Hc). rewrite (Hsame f) by (right; congruence). eauto.
  - intros q b Hin. destruct (inv_backup0 q b Hin) as (Hq & [Hb Hbne] & Hb0 & c & Hc & [(E & ?)|[? _]]); [|done].
    split_and!; [done..|]. exists c. split; [done|]. left. rewrite (Hnames q) by auto.
    by rewrite (Hsame b) by (right; congruence).
  - intros q Hq ? ?. rewrite Hnames by auto. auto.
  - intros _ f tmp Hin. destruct (inv_staged0 eq_refl f tmp Hin) as [H1 H2].
    assert (f ∈ targets) by (apply elem_of_app; left; eauto).
    assert (tmp ∈ staged.*2) by eauto.
    rewrite !Hnames by auto. auto.
  - intros tmp Htmp. rewrite Hnames by auto. auto.
  - intros q n Hq Hn. rewrite (Hsame q); [auto|]. right. rewrite (inv_kept0 q n); done.
  - intros q n Hq Hb Hn Hs. destruct (Hother _ _ Hs); eauto.
Qed.

(** * The backup phase *)

(** An empty file left by [mkstemp]. *)
Lemma inv_leak t B b :
  inv false t B [] -> t !! b = None -> backup_like b = true -> b ∉ names -> t0 !! b = None ->
  inv true (<[b := File (CBytes [])]> t) B [].
Proof.
  intros HI Hb Hlike Hbn Hb0.
  assert (Hne : forall q, q ∈ names -> (<[b := File (CBytes [])]> t) !! q = t !! q).
  { intros q ?. rewrite lookup_insert_ne; [done|]. by intros ->. }
  destruct HI. split; try done.
  - by intros f ?%elem_of_nil.
  - intros p b' Hin. destruct (inv_backup0 _ _ Hin) as (Hp & [Hb' ?] & ? & c & ? & [[Hc ?]|[? _]]); [|done].
    split_and!; [done..|]. exists c. split; [done|]. left.
    rewrite (Hne p) by (apply elem_of_app; tauto). rewrite lookup_insert_ne by congruence. done.
  - intros p Hp ? ?. rewrite (Hne p) by (apply elem_of_app; tauto). auto.
  - intros tmp ?. rewrite (Hne tmp) by (apply elem_of_app; tauto). auto.
  - intros q n ? ?. rewrite lookup_insert_ne by congruence. auto.
  - intros q n ? ? ?. destruct (decide (q = b)) as [->|].
    + rewrite lookup_insert_eq. intros. simplify_eq. auto.
    + rewrite lookup_insert_ne by done. intros. destruct (inv_new0 q n) as [|[]]; auto.
Qed.

(** A target moved to its backup. *)
Lemma inv_moved t B target b c t' :
  inv false t B [] -> target ∈ targets -> target ∉ B.*1 -> t0 !! target = Some (File c) ->
  b ∉ names -> b ≠ [] -> t0 !! b = None -> b ∉ B.*2 -> t' = <[b := File c]> (delete target t) ->
  inv false t' (B ++ [(target, b)]) [].
Proof.
  intros HI Ht HtB Hc Hbn Hbne Hb0 HbB ->.
  assert (Hother : forall q, q ≠ b -> q ≠ target -> (<[b := File c]> (delete target t)) !! q = t !! q).
  { intros q ? ?. by rewrite lookup_insert_ne, lookup_delete_ne. }
  assert (Htarget : (<[b := File c]> (delete target t)) !! target = None).
  { rewrite lookup_insert_ne, lookup_delete_eq; [done|]. intros ->. apply Hbn, elem_of_app. by left. }
  assert (Htmp : forall q, q ∈ staged.*2 -> (<[b := File c]> (delete target t)) !! q = t !! q).
  { intros q Hq. apply Hother; intros ->; [apply Hbn, elem_of_app; by right|].
    by apply (ws_temp_target _ _ _ WS target). }
  destruct HI. split; try done.
  - rewrite fmap_app. apply NoDup_app. split_and!; [done| |apply NoDup_singleton].
    intros q ? ->%list_elem_of_singleton. done.
  - rewrite fmap_app. apply NoDup_app. split_and!; [done| |apply NoDup_singleton].
    intros q ? ->%list_elem_of_singleton. done.
  - by intros f ?%elem_of_nil.
  - intros p b' [Hin|Hin%list_elem_of_singleton]%elem_of_app; simplify_eq.
    + destruct (inv_backup0 _ _ Hin) as (Hp & [Hb' ?] & ? & c' & ? & [[? Hcase]|[? _]]); [|done].
      split_and!; [done..|]. exists c'. split; [done|]. left.
      assert (p ≠ target /\ b' ≠ b) as [? ?].
      { split; intros ->; [apply HtB|apply HbB]; eauto. }
      assert (p ≠ b /\ b' ≠ target) as [? ?].
      { split; intros ->; [apply Hbn|apply Hb']; apply elem_of_app; by left. }
      by rewrite !Hother.
    + split_and!; [done..|]. exists c. split; [done|]. left. rewrite lookup_insert_eq. auto.
  - intros p Hp Hin _. rewrite fmap_app in Hin. apply not_elem_of_app in Hin as [? Hin%not_elem_of_cons].
    simpl in Hin. rewrite Hother by (intros ->; first [by apply Hbn, elem_of_app; left|tauto]).
    apply inv_target0; [done..|]. by intros ?%elem_of_nil.
  - by intros f ?%elem_of_nil.
  - intros _ f tmp Hin. split; [by intros ?%elem_of_nil|]. intros ?.
    rewrite Htmp by eauto. by apply inv_staged0 in Hin as [_ ->].
  - intros tmp ?. rewrite Htmp by done. auto.
  - intros q n Hq Hn. rewrite Hother; [auto|congruence|]. intros ->. apply Hq, elem_of_app. by left.
  - intros q n Hq HqB ?. rewrite fmap_app in HqB. apply not_elem_of_app in HqB as [? HqB%not_elem_of_cons].
    simpl in HqB. rewrite Hother; [eauto|tauto|]. intros ->. apply Hq, elem_of_app. by left.
Qed.

(** Moving a target aside. *)
Lemma backup_target_inv target s B o x :
  inv false (tree s) B [] -> target ∈ targets -> target ∉ B.*1 ->
  backup_target target (mkTxn s B []) = (o, x) ->
  t_installed x = [] /\
  ((exists e, o = Raise e /\ t_backups x = B /\ inv true (tree (t_fs x)) B []) \/
   (exists B', o = Ok tt /\ t_backups x = B' /\ inv false (tree (t_fs x)) B' [] /\
      (B' = B /\ t0 !! target = None \/ exists b, B' = B ++ [(target, b)]))).
Proof.
  intros HI Ht HB. unfold backup_target, gets, pbind at 1, path_exists. simpl.
  destruct (ws_target _ _ _ WS target Ht) as [Hne Hdir].
  assert (Horig : tree s !! target = t0 !! target).
  { destruct HI. apply inv_target0; [done..|]. by intros ?%elem_of_nil. }
  destruct (tree s !! target) as [n|] eqn:En.
  2: { rewrite bool_decide_false by done. unfold ret. intros. simplify_eq/=.
       split; [done|]. right. exists B. split_and!; auto. }
  destruct n as [c|]; [|congruence].
  unfold on_fs, backup_existing, pbind. simpl.
  destruct (mkstemp target s) as [o1 s1] eqn:E1.
  apply create_temporary_cases in E1 as [(e & -> & Hs1)|(-> & _ & Hs1)].
  { intros. simplify_eq/=. split; [done|]. left. exists e. split_and!; [done..|].
    rewrite Hs1. by apply inv_fail in HI. }
  set (b0 := backup_name target (tree s)) in *.
  assert (Hfresh : tree s !! b0 = None) by apply mkstemp_fresh.
  assert (Hlike : backup_like b0 = true) by apply backup_name_like.
  assert (Hbn : b0 ∉ names).
  { intros Hin. pose proof (ws_names _ _ _ WS b0 Hin). congruence. }
  assert (Hb00 : t0 !! b0 = None).
  { destruct (t0 !! b0) as [n|] eqn:En0; [|done]. destruct HI. rewrite (inv_kept0 b0 n) in Hfresh; done. }
  assert (HbB : b0 ∉ B.*2).
  { intros Hin. apply list_elem_of_fmap in Hin as ([p b'] & Hb' & Hin). simpl in *. subst b'.
    destruct HI. destruct (inv_backup0 _ _ Hin) as (_ & _ & _ & c' & _ & [[? _]|[? _]]); congruence. }
  assert (Hb0ne : b0 ≠ []) by (unfold b0, backup_name, child; by destruct (path_parent target)).
  clearbody b0.
  assert (Htb : target ≠ b0).
  { intros ->. apply Hbn, elem_of_app. by left. }
  destruct (replace_path target b0 s1) as [o2 s2] eqn:E2.
  destruct (replace_path_cases _ _ _ _ _ E2) as [(e & -> & Hs2)|(c' & -> & Hc' & _ & _ & Hs2)];
    unfold ret, add_backup, modify; intros H; simplify_eq/=; (split; [done|]).
  - left. exists e. split_and!; [done..|]. rewrite Hs2, Hs1.
    by apply inv_leak.
  - right. exists (B ++ [(target, b0)]). split_and!; [done..| |eauto]. rewrite Hs2.
    rewrite Hs1, lookup_insert_ne in Hc' by done. assert (c' = c) as -> by congruence. clear Hc'.
    eapply (inv_moved (tree s) B target b0 c); [done..|]. rewrite Hs1. clear.
    apply map_eq. intros q. destruct (decide (q = b0)) as [->|]; simplify_map_eq; [done|].
    destruct (decide (q = target)) as [->|]; by simplify_map_eq.
Qed.

(** The loop of [backup_targets]. *)
Lemma backup_loop_inv l s B o x :
  inv false (tree s) B [] -> NoDup l -> (forall p, p ∈ l -> p ∈ targets /\ p ∉ B.*1) ->
  for_each backup_target l (mkTxn s B []) = (o, x) ->
  t_installed x = [] /\
  ((exists e, o = Raise e) /\ inv true (tree (t_fs x)) (t_backups x) [] \/
   o = Ok tt /\ inv false (tree (t_fs x)) (t_backups x) [] /\
     (forall p, p ∈ B.*1 \/ p ∈ l /\ t0 !! p ≠ None -> p ∈ (t_backups x).*1)).
Proof.
  revert s B. induction l as [|target l IH]; intros s B HI Hnd Hl.
  - intros H. unfold for_each, ret in H. simplify_eq/=. split; [done|]. right. split_and!; [done..|].
    intros p [?|[?%elem_of_nil _]]; done.
  - apply NoDup_cons in Hnd as [Htl Hnd]. cbn [for_each]. unfold pbind.
    destruct (backup_target target (mkTxn s B [])) as [o1 [s1 B1 I1]] eqn:E1.
    apply backup_target_inv in E1 as [HI1 Hcase]; [|done|apply Hl; by left..]. simpl in HI1. subst I1.
    destruct Hcase as [(e & -> & HBe & Hinv)|(B' & -> & HBe & Hinv & HB')]; simpl in *;  [|subst B'].
    { subst B1. intros. simplify_eq/=. eauto. }
    assert (HB1 : B1.*1 = B.*1 \/ B1.*1 = B.*1 ++ [target]).
    { destruct HB' as [[-> _]|[b ->]]; [auto|]. rewrite fmap_app. auto. }
    intros Hrun. destruct (IH s1 B1 Hinv Hnd) with (2 := Hrun) as [HI1 Hcase].
    { intros p Hp. destruct (Hl p); [by right|]. split; [done|].
      destruct HB1 as [->| ->]; [done|]. rewrite elem_of_app, list_elem_of_singleton. naive_solver. }
    split; [done|]. destruct Hcase as [?|(? & ? & Hall)]; [auto|]. right. split_and!; [done..|].
    intros p Hp. apply Hall. rewrite elem_of_cons in Hp.
    destruct HB' as [[-> ?]|[b ->]]; [naive_solver|].
    rewrite fmap_app, elem_of_app. csimpl. rewrite list_elem_of_singleton. naive_solver.
Qed.

(** * The installation phase *)

(** A staged file moved onto its target. *)
Lemma inv_install t B I f tmp c t' :
  inv false t B I -> (f, tmp) ∈ staged -> f ∉ I -> (t0 !! f ≠ None -> f ∈ B.*1) ->
  t !! tmp = Some (File c) -> t' = <[f := File c]> (delete tmp t) ->
  inv false t' B (I ++ [f]).
Proof.
  intros HI Hin HfI Hnew Hc ->.
  assert (Hf : f ∈ targets) by (apply elem_of_app; left; eauto).
  assert (Htmp : tmp ∈ staged.*2) by eauto.
  assert (Hft : f ≠ tmp) by (intros ->; by apply (ws_temp_target _ _ _ WS tmp)).
  assert (Hother : forall q, q ≠ f -> q ≠ tmp -> (<[f := File c]> (delete tmp t)) !! q = t !! q).
  { intros q ? ?. by rewrite lookup_insert_ne, lookup_delete_ne. }
  assert (Hgone : (<[f := File c]> (delete tmp t)) !! tmp = None).
  { by rewrite lookup_insert_ne, lookup_delete_eq by done. }
  assert (Htarget : forall q, q ∈ targets -> q ≠ tmp).
  { intros q ? ->. by apply (ws_temp_target _ _ _ WS tmp). }
  assert (Hnames : forall q, q ∉ names -> q ≠ f /\ q ≠ tmp).
  { intros q Hq. split; intros ->; apply Hq, elem_of_app; auto. }
  destruct HI. split; try done.
  - intros g [Hg| ->%list_elem_of_singleton]%elem_of_app.
    + destruct (inv_installed0 g Hg) as (Hg' & cg & ?). split; [done|]. exists cg.
      rewrite Hother; [done|by intros ->|]. apply Htarget, elem_of_app. by left.
    + split; [by eauto|]. exists c. apply lookup_insert_eq.
  - intros p b Hpb. destruct (inv_backup0 _ _ Hpb) as (Hp & [Hb ?] & ? & cb & ? & [[? Hcase]|[? _]]); [|done].
    split_and!; [done..|]. exists cb. split; [done|]. left. rewrite Hother by (by apply Hnames).
    split; [done|]. rewrite elem_of_app, list_elem_of_singleton.
    destruct (decide (p = f)) as [->|]; [by auto|]. rewrite Hother; [naive_solver|done|auto].
  - intros p Hp HpB. rewrite elem_of_app, list_elem_of_singleton. intros ?.
    rewrite Hother; [|naive_solver|auto]. apply inv_target0; tauto.
  - intros g [Hg| ->%list_elem_of_singleton]%elem_of_app HgB; [by auto|].
    destruct (t0 !! f) eqn:E; [|done]. exfalso. by apply HgB, Hnew.
  - intros _ g tg Hg. rewrite elem_of_app, list_elem_of_singleton.
    destruct (decide (g = f)) as [->|Hgf].
    + assert (tg = tmp) as -> by (eapply NoDup_fst_eq; [apply WS|done..]).
      split; [|tauto]. intros _. split; [|done]. rewrite lookup_insert_eq.
      destruct (inv_staged0 eq_refl f tmp Hg) as [_ <-]; done.
    + assert (tg ≠ tmp).
      { intros ->. apply Hgf. eapply NoDup_snd_eq; [apply WS|done..]. }
      assert (g ∈ targets) by (apply elem_of_app; left; eauto).
      assert (tg ≠ f).
      { intros ->. apply (ws_temp_target _ _ _ WS f); eauto. }
      rewrite !Hother by auto. destruct (inv_staged0 eq_refl g tg Hg). naive_solver.
  - intros tg Htg. destruct (decide (tg = tmp)) as [->|]; [by rewrite Hgone|].
    rewrite Hother; [auto| |done]. intros ->. by apply (ws_temp_target _ _ _ WS f).
  - intros q n Hq Hn. destruct (Hnames q Hq). rewrite Hother by done. auto.
  - intros q n Hq. destruct (Hnames q Hq). rewrite Hother by done. eauto.
Qed.

Lemma install_one_inv f tmp s B I o x :
  inv false (tree s) B I -> (f, tmp) ∈ staged -> f ∉ I -> (t0 !! f ≠ None -> f ∈ B.*1) ->
  install_one (f, tmp) (mkTxn s B I) = (o, x) ->
  t_backups x = B /\
  ((exists e, o = Raise e) /\ t_installed x = I /\ inv false (tree (t_fs x)) B I \/
   o = Ok tt /\ t_installed x = I ++ [f] /\ inv false (tree (t_fs x)) B (I ++ [f])).
Proof.
  intros HI Hin HfI Hnew. unfold install_one, on_fs, mkdir, pbind at 1. simpl.
  assert (Hf : f ∈ targets) by (apply elem_of_app; left; eauto).
  destruct (primitive _ s) as [o1 s1] eqn:E1.
  assert (HI1 : inv false (tree s1) B I).
  { apply primitive_cases in E1 as [(e & -> & ->)|E1]; [done|]. by eapply inv_mkdirs. }
  destruct o1 as [[]|e]; [|intros; simplify_eq/=; eauto 10].
  unfold pbind. simpl. destruct (replace_path tmp f s1) as [o2 s2] eqn:E2.
  destruct (replace_path_cases _ _ _ _ _ E2) as [(e & -> & Hs2)|(c' & -> & Hc' & _ & _ & Hs2)];
    unfold add_installed, modify; intros H; simplify_eq/=; (split; [done|]).
  - left. rewrite Hs2. eauto.
  - right. split_and!; [done..|]. by eapply inv_install.
Qed.

(** The loop of [install_files]: whatever fails, the files installed are a prefix of the list. *)
Lemma install_loop_inv l s B I o x :
  inv false (tree s) B I -> NoDup l.*1 ->
  (forall f tmp, (f, tmp) ∈ l -> (f, tmp) ∈ staged /\ f ∉ I /\ (t0 !! f ≠ None -> f ∈ B.*1)) ->
  for_each install_one l (mkTxn s B I) = (o, x) ->
  t_backups x = B /\ inv false (tree (t_fs x)) B (t_installed x) /\
  exists moved rest, l = moved ++ rest /\ t_installed x = I ++ moved.*1 /\ (o = Ok tt -> rest = []).
Proof.
  revert s I. induction l as [|[f tmp] l IH]; intros s I HI Hnd Hl.
  - intros H. unfold for_each, ret in H. simplify_eq/=. split_and!; [done..|].
    exists [], []. csimpl. rewrite app_nil_r. by split_and!.
  - csimpl in Hnd. apply NoDup_cons in Hnd as [Hfl Hnd]. cbn [for_each]. unfold pbind.
    destruct (install_one (f, tmp) (mkTxn s B I)) as [o1 [s1 B1 I1]] eqn:E1.
    destruct (Hl f tmp) as (Hin & HfI & Hnew); [by left|].
    apply install_one_inv in E1 as [HB1 Hcase]; [|done..]. simpl in *. subst B1.
    destruct Hcase as [([e ->] & -> & HI1)|(-> & -> & HI1)].
    { intros. simplify_eq/=. split_and!; [done..|]. exists [], ((f, tmp) :: l).
      csimpl. rewrite app_nil_r. by split_and!. }
    intros Hrun. destruct (IH s1 (I ++ [f]) HI1 Hnd) with (2 := Hrun)
      as (? & ? & moved & rest & -> & HI2 & ?).
    { intros g tg Hg. destruct (Hl g tg) as (? & ? & ?); [by right|]. split_and!; [done| |done].
      rewrite elem_of_app, list_elem_of_singleton. intros [?| ->]; [done|]. eauto. }
    split_and!; [done..|]. exists ((f, tmp) :: moved), rest. csimpl.
    rewrite HI2, <- app_assoc. done.
Qed.

(** * The restoration phase *)

(** Putting a backup back where it came from. *)
Lemma inv_restored t B p b c t' :
  inv true t B [] -> (p, b) ∈ B -> t !! b = Some (File c) -> t0 !! p = Some (File c) ->
  t' = <[p := File c]> (delete b t) -> inv true t' B [].
Proof.
  intros HI Hpb Hb Hp ->.
  assert (HpB : p ∈ targets /\ b ∉ names).
  { destruct HI. by destruct (inv_backup0 _ _ Hpb) as (? & [? ?] & _). }
  destruct HpB as [Hpt Hbn].
  assert (Hpne : p ≠ b) by (intros ->; apply Hbn, elem_of_app; by left).
  assert (Hother : forall q, q ≠ p -> q ≠ b -> (<[p := File c]> (delete b t)) !! q = t !! q).
  { intros q ? ?. by rewrite lookup_insert_ne, lookup_delete_ne. }
  assert (Hgone : (<[p := File c]> (delete b t)) !! b = None).
  { by rewrite lookup_insert_ne, lookup_delete_eq by done. }
  assert (Htmp : forall q, q ∈ staged.*2 -> q ≠ p /\ q ≠ b).
  { intros q Hq. split; intros ->; [by apply (ws_temp_target _ _ _ WS p)|].
    apply Hbn, elem_of_app. by right. }
  assert (Htgt : forall q, q ∈ targets -> q ≠ b).
  { intros q ? ->. apply Hbn, elem_of_app. by left. }
  destruct HI. split; try done.
  - by intros f ?%elem_of_nil.
  - intros q b' Hqb. destruct (inv_backup0 _ _ Hqb) as (Hq & [Hb' ?] & ? & c' & Hc' & Hcase).
    split_and!; [done..|]. exists c'. split; [done|].
    destruct (decide (q = p)) as [->|Hqp].
    + assert (b' = b) as -> by (eapply NoDup_fst_eq; [apply inv_nodup0|done..]).
      right. rewrite lookup_insert_eq. split_and!; [done|done|congruence|by intros ?%elem_of_nil].
    + assert (b' ≠ b).
      { intros ->. apply Hqp. eapply NoDup_snd_eq; [apply inv_nodup_backups0|done..]. }
      assert (b' ≠ p) by (intros ->; apply Hb', elem_of_app; by left).
      rewrite (Hother b'), (Hother q) by auto. done.
  - intros q Hq HqB ?. rewrite Hother; [auto| |auto]. intros ->. eauto.
  - intros q Hq. destruct (Htmp q Hq). rewrite Hother by done. auto.
  - intros q n Hq Hn. rewrite Hother; [auto| |].
    + intros ->. apply Hq, elem_of_app. by left.
    + intros ->. destruct (inv_backup0 _ _ Hpb) as (_ & _ & ? & _). congruence.
  - intros q n Hq HqB. rewrite Hother; [eauto| |].
    + intros ->. apply Hq, elem_of_app. by left.
    + intros ->. eauto.
Qed.

Lemma inv_parents failed t B I p :
  inv failed t B I -> p ∈ targets -> t0 !! p ≠ None ->
  Forall (fun q => t !! q = Some Dir) (prefixes (path_parent p)).
Proof.
  intros HI Hp Hne. pose proof (ws_parents _ _ _ WS p Hp Hne) as HF.
  rewrite Forall_forall in *. intros q Hq. destruct HI. apply inv_kept0; [|by apply HF].
  intros Hin. by apply (ws_above _ _ _ WS p q).
Qed.

(** One step of [restore_files], whatever fails. *)
Lemma restore_backup_inv p b s B o s' :
  inv true (tree s) B [] -> (p, b) ∈ B -> restore_backup (p, b) s = (o, s') ->
  inv true (tree s') B [] /\
  (forall q, q ∈ B.*2 -> tree s !! q = None -> tree s' !! q = None) /\
  (calm s -> o = Ok tt /\ calm s' /\ tree s' !! b = None).
Proof.
  intros HI Hpb. unfold restore_backup, gets, pbind at 1, path_exists. simpl.
  assert (Hx := inv_backup _ _ _ _ HI _ _ Hpb).
  destruct Hx as (Hp & [Hbn Hbne] & Hb0 & c & Hc & Hcase).
  destruct Hcase as [[Hb Hcase]|(_ & Hb & _)].
  2: { rewrite Hb, bool_decide_false by done. unfold ret. intros. by simplify_eq. }
  rewrite Hb. unfold pbind, mkdir.
  assert (HF : Forall (fun q => tree s !! q = Some Dir) (prefixes (path_parent p))).
  { eapply inv_parents; [done..|congruence]. }
  destruct (primitive _ s) as [o1 s1] eqn:E1.
  assert (Hs1 : tree s1 = tree s).
  { apply primitive_cases in E1 as [(e & _ & ?)|E1]; [done|].
    rewrite mkdirs_all_dirs in E1 by done. by simplify_eq. }
  assert (Hc1 : calm s -> o1 = Ok tt /\ calm s1).
  { intros Hcalm. destruct (primitive_calm (mkdirs (prefixes (path_parent p))) s Hcalm)
      as (s2 & E2 & _ & ?). rewrite E1, mkdirs_all_dirs in E2 by done. by simplify_eq/=. }
  destruct o1 as [[]|e].
  2: { intros. simplify_eq. rewrite Hs1. split_and!; [done..|]. by intros [? _]%Hc1. }
  destruct (replace_path b p s1) as [o2 s2] eqn:E2. intros. simplify_eq.
  assert (Hpd : tree s1 !! p ≠ Some Dir).
  { rewrite Hs1. destruct Hcase as [->|?%elem_of_nil]; done. }
  assert (Hc2 : calm s -> o = Ok tt /\ calm s' /\ tree s' = <[p := File c]> (delete b (tree s))).
  { intros Hcalm. destruct (Hc1 Hcalm) as [_ ?].
    destruct (replace_path_calm b p c s1) as (s3 & E3 & ? & Ht3); [done|congruence| |done|].
    - rewrite Hs1. by apply prefixes_is_dir.
    - rewrite E3 in E2. simplify_eq. by rewrite Ht3, Hs1. }
  assert (Hbp : b ≠ p) by (intros ->; apply Hbn, elem_of_app; by left).
  destruct (replace_path_cases _ _ _ _ _ E2) as [(e & -> & Hs2)|(c' & -> & Hc' & _ & _ & Hs2)].
  - rewrite Hs2, Hs1. split_and!; [done..|]. by intros [? _]%Hc2.
  - rewrite Hs1 in *. assert (c' = c) as -> by congruence. rewrite Hs2.
    split_and!; [by eapply inv_restored| |].
    + intros q Hq Hqn. rewrite lookup_insert_ne, lookup_delete_None; [auto|].
      intros <-. apply list_elem_of_fmap in Hq as ([q' b'] & ? & Hin). simpl in *. subst b'.
      destruct (inv_backup _ _ _ _ HI _ _ Hin) as (_ & [Hn _] & _). apply Hn, elem_of_app. by left.
    + intros (_ & ? & _)%Hc2. split_and!; [done..|]. by rewrite lookup_insert_ne, lookup_delete_eq.
Qed.

(** The loop of [restore_files]: it keeps the invariant whatever fails, and empties every backup
    when nothing does. *)
Lemma restore_loop_inv l s B o s' :
  inv true (tree s) B [] -> (forall fb, fb ∈ l -> fb ∈ B) ->
  for_each restore_backup l s = (o, s') ->
  inv true (tree s') B [] /\
  (forall q, q ∈ B.*2 -> tree s !! q = None -> tree s' !! q = None) /\
  (calm s -> o = Ok tt /\ calm s' /\ forall b, b ∈ l.*2 -> tree s' !! b = None).
Proof.
  revert s. induction l as [|[p b] l IH]; intros s HI Hl; cbn [for_each].
  - unfold ret. intros. simplify_eq. split_and!; [done..|]. intros ?. split_and!; [done..|].
    by intros b ?%elem_of_nil.
  - unfold pbind. destruct (restore_backup (p, b) s) as [o1 s1] eqn:E1.
    assert (Hpb : (p, b) ∈ B) by (apply Hl; by left).
    apply restore_backup_inv with (B := B) in E1 as (HI1 & Hnone & Hcalm); [|done..].
    destruct o1 as [[]|e].
    2: { intros. simplify_eq. split_and!; [done..|]. by intros [? _]%Hcalm. }
    intros Hrun. destruct (IH s1 HI1) with (2 := Hrun) as (HI2 & Hnone2 & Hcalm2).
    { intros fb ?. apply Hl. by right. }
    split_and!; [done|by auto|]. intros (_ & Hc1 & Hb)%Hcalm. destruct (Hcalm2 Hc1) as (? & ? & Hall).
    split_and!; [done..|]. csimpl. intros b' [->|?]%elem_of_cons; [|by auto]. apply Hnone2; [by eauto|done].
Qed.

(** Removing the installed files after a failure. *)
Lemma inv_uninstall failed t t' B I :
  inv failed t B I -> (forall q, t' !! q = if decide (q ∈ I) then None else t !! q) ->
  inv true t' B [].
Proof.
  intros HI Ht'.
  assert (HIt : forall f, f ∈ I -> f ∈ targets).
  { intros f Hf. apply elem_of_app. left. by apply (inv_installed _ _ _ _ HI). }
  assert (Hother : forall q, q ∉ targets -> t' !! q = t !! q).
  { intros q ?. rewrite Ht', decide_False; [done|]. auto. }
  assert (Hn : forall q, q ∉ names -> q ∉ targets) by (intros q Hq ?; apply Hq, elem_of_app; by left).
  apply inv_fail in HI. destruct HI. split; try done.
  - by intros f ?%elem_of_nil.
  - intros p b Hpb. destruct (inv_backup0 _ _ Hpb) as (Hp & [Hb' ?] & ? & c & ? & Hcase).
    split_and!; [done..|]. exists c. split; [done|]. rewrite (Hother b) by auto.
    rewrite Ht'. destruct Hcase as [[? ?]|(? & ? & ? & ?)].
    + left. case_decide; [auto|]. split; [done|]. left. tauto.
    + right. rewrite decide_False by done. split_and!; [done..|]. by intros ?%elem_of_nil.
  - intros p Hp HpB _. rewrite Ht'. case_decide; [by rewrite inv_new_target0|auto].
  - by intros f ?%elem_of_nil.
  - intros q Hq. rewrite Ht'. case_decide; [done|auto].
  - intros q n Hq ?. rewrite Hother by auto. auto.
  - intros q n Hq ? ?. rewrite Hother by auto. auto.
Qed.

(** * The forward pass *)

Lemma elem_of_install_targets p : p ∈ install_targets staged stale <-> p ∈ targets.
Proof. unfold install_targets. by rewrite merge_sort_Permutation, elem_of_remove_dups. Qed.

Lemma backup_targets_inv s o x :
  tree s = t0 -> backup_targets (install_targets staged stale) (mkTxn s [] []) = (o, x) ->
  t_installed x = [] /\
  ((exists e, o = Raise e) /\ inv true (tree (t_fs x)) (t_backups x) [] \/
   o = Ok tt /\ inv false (tree (t_fs x)) (t_backups x) [] /\
     (forall p, p ∈ targets -> t0 !! p ≠ None -> p ∈ (t_backups x).*1)).
Proof.
  intros Hs. unfold backup_targets, on_error.
  destruct (for_each backup_target _ _) as [o1 [s1 B1 I1]] eqn:E1.
  apply backup_loop_inv in E1 as [HI1 Hcase]; simpl in *.
  - subst I1. destruct Hcase as [[[e ->] Hinv]|(-> & Hinv & Hall)].
    + unfold restore_backups_only, on_fs, restore_files, pbind. simpl. unfold ret.
      destruct (for_each restore_backup _ s1) as [o2 s2] eqn:E2.
      assert (inv true (tree s2) B1 []).
      { apply restore_loop_inv with (B := B1) in E2; [tauto|done|].
        intros fb. by rewrite merge_sort_Permutation. }
      destruct o2; intros; simplify_eq/=; eauto 10.
    + intros. simplify_eq/=. split; [done|]. right. split_and!; [done..|].
      intros p Hp ?. apply Hall. right. by rewrite elem_of_install_targets.
  - rewrite Hs. apply inv_init.
  - unfold install_targets. rewrite merge_sort_Permutation. apply NoDup_remove_dups.
  - intros p Hp. rewrite elem_of_install_targets in Hp. split; [done|]. by intros ?%elem_of_nil.
Qed.

Lemma install_forward_inv manifest s o x :
  tree s = t0 -> install_forward staged stale manifest (mkTxn s [] []) = (o, x) ->
  exists failed, inv failed (tree (t_fs x)) (t_backups x) (t_installed x) /\
    (failed = true -> t_installed x = []) /\
    (exists moved rest, install_order manifest staged = moved ++ rest /\
       t_installed x = moved.*1 /\ (o = Ok tt -> rest = [])) /\
    (o = Ok tt -> failed = false /\
       forall p, p ∈ targets -> t0 !! p ≠ None -> p ∈ (t_backups x).*1).
Proof.
  intros Hs. unfold install_forward, pbind.
  destruct (backup_targets _ _) as [o1 [s1 B1 I1]] eqn:E1.
  apply backup_targets_inv in E1 as [HI1 Hcase]; [|done]. simpl in *. subst I1.
  destruct Hcase as [[[e ->] Hinv]|(-> & Hinv & Hall)].
  { intros. simplify_eq/=. exists true. split_and!; [done..| |done]. by exists [], (install_order manifest staged). }
  unfold install_files. intros Hrun. apply install_loop_inv in Hrun as (HB & Hinv' & Hmoved); [|done|..].
  - exists false. rewrite HB. split_and!; done.
  - unfold install_order. rewrite merge_sort_Permutation. apply WS.
  - intros f tmp. unfold install_order. rewrite merge_sort_Permutation. intros Hin.
    split_and!; [done|by intros ?%elem_of_nil|]. apply Hall, elem_of_app. left. eauto.
Qed.

(** * Cleaning up *)

Lemma cleanup_ok s B I s' :
  cleanup_transaction staged (mkTxn s B I) = (Ok tt, s') ->
  forall q, tree (t_fs s') !! q = if decide (q ∈ staged.*2 ++ B.*2) then None else tree s !! q.
Proof.
  unfold cleanup_transaction, on_fs, pbind. simpl.
  destruct (for_each unlink staged.*2 s) as [[[]|e] s1] eqn:E1; [|done].
  destruct (for_each unlink B.*2 s1) as [o2 s2] eqn:E2. intros. simplify_eq/=.
  rewrite (unlinks_ok _ _ _ E2), (unlinks_ok _ _ _ E1).
  repeat case_decide; rewrite ?elem_of_app in *; tauto.
Qed.

Lemma cleanup_calm s B I :
  calm s -> (forall q, q ∈ staged.*2 ++ B.*2 -> tree s !! q ≠ Some Dir) ->
  exists s', cleanup_transaction staged (mkTxn s B I) = (Ok tt, mkTxn s' B I) /\
    forall q, tree s' !! q = if decide (q ∈ staged.*2 ++ B.*2) then None else tree s !! q.
Proof.
  intros Hc Hn. unfold cleanup_transaction, on_fs, pbind. simpl.
  destruct (unlinks_calm staged.*2 s Hc) as (s1 & E1 & Hc1 & Hs1).
  { apply Forall_forall. intros q ?. apply Hn, elem_of_app. by left. }
  destruct (unlinks_calm B.*2 s1 Hc1) as (s2 & E2 & Hc2 & Hs2).
  { apply Forall_forall. intros q ?. rewrite Hs1. case_decide; [done|]. apply Hn, elem_of_app. by right. }
  exists s2. rewrite E1, E2. split; [done|]. intros q. rewrite Hs2, Hs1.
  repeat case_decide; rewrite ?elem_of_app in *; tauto.
Qed.

(** * Rolling back *)

Lemma restore_current_calm s B I failed :
  calm s -> inv failed (tree s) B I ->
  exists s', restore_current (mkTxn s B I) = (Ok tt, mkTxn s' B I) /\ calm s' /\
    inv true (tree s') B [] /\ forall b, b ∈ B.*2 -> tree s' !! b = None.
Proof.
  intros Hc HI. unfold restore_current, on_fs, restore_files, pbind. simpl.
  destruct (unlinks_calm I s Hc) as (s1 & E1 & Hc1 & Hs1).
  { apply Forall_forall. intros f Hf. destruct (inv_installed _ _ _ _ HI f Hf) as (_ & c & ->). done. }
  rewrite E1. destruct (for_each restore_backup _ s1) as [o2 s2] eqn:E2.
  apply restore_loop_inv with (B := B) in E2 as (HI2 & _ & Hcalm).
  - destruct (Hcalm Hc1) as (-> & Hc2 & Hb). exists s2. split_and!; [done..|].
    intros b Hb'. apply Hb. by rewrite merge_sort_Permutation.
  - by eapply inv_uninstall.
  - intros fb. by rewrite merge_sort_Permutation.
Qed.

(** Once every backup is back, every target is what it was. *)
Lemma inv_restored_target t B p :
  inv true t B [] -> (forall b, b ∈ B.*2 -> t !! b = None) -> p ∈ targets -> t !! p = t0 !! p.
Proof.
  intros HI Hb Hp. destruct (decide (p ∈ B.*1)) as [Hin|].
  - apply list_elem_of_fmap in Hin as ([p' b] & -> & Hin). simpl.
    destruct (inv_backup _ _ _ _ HI _ _ Hin) as (_ & _ & _ & c & -> & [[Hx _]|(_ & _ & ? & _)]); [|done].
    rewrite Hb in Hx; eauto. done.
  - apply (inv_target _ _ _ _ HI); [done..|]. by intros ?%elem_of_nil.
Qed.

End Invariant.

(** C3: Rollback.  If the backup or the installation phase raises, at whatever step and with
    whatever error, and the file system then works, the call raises that error with every
    target's previous content back, nothing that existed lost except the staged temporaries,
    which are removed, and nothing new but directories and possibly an empty backup file. *)
Theorem failed_install_rolls_back staged stale manifest s e x :
  (forall t p, t !! backup_name p t = None) ->
  well_staged staged stale (tree s) ->
  install_forward staged stale manifest (mkTxn s [] []) = (Raise e, x) ->
  calm (t_fs x) ->
  exists s', install_staged_files staged stale manifest s = (Raise e, s') /\
    (forall p, p ∈ staged.*1 ++ stale -> tree s' !! p = tree s !! p) /\
    (forall q n, q ∉ staged.*2 -> tree s !! q = Some n -> tree s' !! q = Some n) /\
    (forall q, q ∈ staged.*2 -> tree s' !! q = None) /\
    (forall q n, tree s !! q = None -> tree s' !! q = Some n ->
       n = Dir \/ n = File (CBytes []) /\ backup_like q = true).
Proof.
  intros Hfresh WS Hrun Hc.
  destruct (install_forward_inv staged stale _ Hfresh WS manifest s _ _ eq_refl Hrun)
    as (failed & HI & _). destruct x as [s1 B I]. simpl in *.
  destruct (restore_current_calm staged stale _ WS s1 B I failed Hc HI) as (s2 & E2 & Hc2 & HI2 & Hb2).
  destruct (cleanup_calm staged s2 B I Hc2) as (s3 & E3 & Hs3).
  { intros q [?|?]%elem_of_app; [by apply (inv_temp _ _ _ _ _ _ _ HI2)|by rewrite Hb2]. }
  exists s3. unfold install_staged_files, install_txn, finally, on_error. rewrite Hrun, E2, E3.
  assert (Hnone : forall q n, tree s !! q = Some n -> q ∉ B.*2).
  { intros q n Hq Hin. apply list_elem_of_fmap in Hin as ([p b] & -> & Hin). simpl in *.
    destruct (inv_backup _ _ _ _ _ _ _ HI2 _ _ Hin) as (_ & _ & ? & _). congruence. }
  assert (Htgt : forall p, p ∈ staged.*1 ++ stale -> tree s3 !! p = tree s !! p).
  { intros p Hp. rewrite Hs3, decide_False.
    - by eapply inv_restored_target.
    - intros [Hin|Hin]%elem_of_app; [by apply (ws_temp_target _ _ _ WS p)|].
      apply list_elem_of_fmap in Hin as ([p' b] & -> & Hin). simpl in *.
      destruct (inv_backup _ _ _ _ _ _ _ HI2 _ _ Hin) as (_ & [Hn _] & _).
      apply Hn, elem_of_app. by left. }
  split_and!; [done|done|..].
  - intros q n Hq Hn. destruct (decide (q ∈ staged.*1 ++ stale)); [by rewrite Htgt|].
    rewrite Hs3, decide_False by (rewrite elem_of_app; naive_solver).
    apply (inv_kept _ _ _ _ _ _ _ HI2); [|done]. rewrite elem_of_app. tauto.
  - intros q Hq. rewrite Hs3, decide_True; [done|]. apply elem_of_app. by left.
  - intros q n Hq Hn. destruct (decide (q ∈ staged.*1 ++ stale)); [rewrite Htgt in Hn by done; congruence|].
    rewrite Hs3 in Hn. case_decide as Hd; [done|]. rewrite elem_of_app in Hd.
    destruct (inv_new _ _ _ _ _ _ _ HI2 q n) as [?|(_ & ?)]; [rewrite elem_of_app| | | |..]; tauto.
Qed.

(** Success.  When the call returns, every staged file is at its final path with the
    content it was staged with, every stale path and every temporary is gone, no other file
    changed, and nothing new exists but the finals and directories: no backup outlives it. *)
Theorem install_commits staged stale manifest s s' :
  (forall t p, t !! backup_name p t = None) ->
  well_staged staged stale (tree s) ->
  install_staged_files staged stale manifest s = (Ok tt, s') ->
  (forall f tmp, (f, tmp) ∈ staged -> tree s' !! f = tree s !! tmp /\ tree s' !! tmp = None) /\
  (forall p, p ∈ stale -> p ∉ staged.*1 -> tree s' !! p = None) /\
  (forall q n, q ∉ staged.*1 ++ stale -> q ∉ staged.*2 -> tree s !! q = Some n ->
     tree s' !! q = Some n) /\
  (forall q n, q ∉ staged.*1 -> tree s !! q = None -> tree s' !! q = Some n -> n = Dir).
Proof.
  intros Hfresh WS. unfold install_staged_files, install_txn, finally, on_error.
  destruct (install_forward _ _ _ _) as [[[]|e] [s1 B I]] eqn:Hrun.
  2: { destruct (restore_current _) as [[[]|?] [s2 B2 I2]];
         by destruct (cleanup_transaction _ _) as [[[]|?] [? ? ?]]. }
  destruct (install_forward_inv staged stale _ Hfresh WS manifest s _ _ eq_refl Hrun)
    as (failed & HI & _ & (moved & rest & Hord & HIm & Hrest) & Hok).
  destruct (Hok eq_refl) as [-> HB]. simpl in *. rewrite Hrest, app_nil_r in Hord by done.
  destruct (cleanup_transaction _ _) as [[[]|e'] s3] eqn:Hclean; intros; simplify_eq.
  assert (Hs3 := cleanup_ok _ _ _ _ _ Hclean).
  assert (HinI : forall p, p ∈ (install_order manifest staged).*1 <-> p ∈ staged.*1).
  { intros p. unfold install_order. by rewrite merge_sort_Permutation. }
  assert (HBn : forall q, q ∈ B.*2 -> q ∉ (staged.*1 ++ stale) ++ staged.*2).
  { intros q Hin. apply list_elem_of_fmap in Hin as ([p b] & -> & Hin). simpl in *.
    by destruct (inv_backup _ _ _ _ _ _ _ HI _ _ Hin) as (_ & [? _] & _). }
  assert (Htgt : forall p, p ∈ staged.*1 ++ stale -> tree (t_fs s3) !! p = tree s1 !! p).
  { intros p Hp. rewrite Hs3, decide_False; [done|]. rewrite elem_of_app.
    intros [?|?%HBn]; [by apply (ws_temp_target _ _ _ WS p)|]. set_solver. }
  split_and!.
  - intros f tmp Hin. destruct (inv_staged _ _ _ _ _ _ _ HI eq_refl f tmp Hin) as [Hf _].
    rewrite HinI in Hf. destruct Hf as [<- Htmp]; [by eauto|].
    split; [apply Htgt, elem_of_app; left; eauto|]. rewrite Hs3. by case_decide.
  - intros p Hp Hps. rewrite Htgt by (apply elem_of_app; by right).
    rewrite <- HinI in Hps. destruct (decide (p ∈ B.*1)) as [Hin|Hin].
    + apply list_elem_of_fmap in Hin as ([p' b] & -> & Hin). simpl in *.
      destruct (inv_backup _ _ _ _ _ _ _ HI _ _ Hin) as (_ & _ & _ & c & _ & [[_ [?|?]]|[? _]]); done.
    + assert (Hpt : p ∈ staged.*1 ++ stale) by (apply elem_of_app; by right).
      rewrite (inv_target _ _ _ _ _ _ _ HI) by done.
      destruct (tree s !! p) eqn:E; [|done]. exfalso. apply Hin, HB; [done|congruence].
  - intros q n Hq Hq2 Hn. rewrite Hs3, decide_False.
    + apply (inv_kept _ _ _ _ _ _ _ HI); [|done]. rewrite elem_of_app. tauto.
    + rewrite elem_of_app. intros [?|Hin]; [done|].
      apply list_elem_of_fmap in Hin as ([p b] & -> & Hin). simpl in *.
      destruct (inv_backup _ _ _ _ _ _ _ HI _ _ Hin) as (_ & _ & ? & _). congruence.
  - intros q n Hq Hn. rewrite Hs3. case_decide as Hd; [done|]. rewrite elem_of_app in Hd. intros Hsome.
    destruct (decide (q ∈ stale)) as [Hst|Hst].
    + exfalso. assert (Hqt : q ∈ staged.*1 ++ stale) by (apply elem_of_app; by right).
      rewrite <- HinI in Hq. destruct (decide (q ∈ B.*1)) as [Hin|Hin].
      * apply list_elem_of_fmap in Hin as ([p b] & -> & Hin). simpl in *.
        destruct (inv_backup _ _ _ _ _ _ _ HI _ _ Hin) as (_ & _ & _ & c & ? & _). congruence.
      * rewrite (inv_target _ _ _ _ _ _ _ HI) in Hsome by done. congruence.
    + destruct (inv_new _ _ _ _ _ _ _ HI q n) as [?|[? _]]; rewrite ?elem_of_app; tauto || done.
Qed.

(** * The order of installation *)

#[local] Instance install_le_total m : Total (install_le m).
Proof.
  intros a b. unfold install_le, install_leb. destruct (total posix_le a.1 b.1);
    repeat case_bool_decide; naive_solver.
Qed.

#[local] Instance install_le_trans m : Transitive (install_le m).
Proof.
  intros a b c. unfold install_le, install_leb. intros Hab Hbc.
  assert (posix_le a.1 b.1 -> posix_le b.1 c.1 -> posix_le a.1 c.1) by apply transitivity.
  repeat case_bool_decide; naive_solver.
Qed.

(** Nothing but the manifest itself comes after the manifest. *)
Lemma install_order_manifest_last manifest staged moved rest :
  NoDup staged.*1 -> install_order (Some manifest) staged = moved ++ rest ->
  manifest ∈ moved.*1 -> rest = [].
Proof.
  intros Hnd Hord Hin. destruct rest as [|[f tmp] rest]; [done|]. exfalso.
  apply list_elem_of_fmap in Hin as ([m mt] & -> & Hin). simpl in *.
  assert (Hle : install_le (Some m) (m, mt) (f, tmp)).
  { assert (Hs : StronglySorted (install_le (Some m)) (moved ++ (f, tmp) :: rest)).
    { rewrite <- Hord. apply StronglySorted_merge_sort; apply _. }
    eapply (StronglySorted_app_1_elem_of _ moved); [done|done|]. by left. }
  assert (f = m) as ->.
  { unfold install_le, install_leb in Hle. simpl in Hle. rewrite bool_decide_true in Hle by done.
    apply andb_true_iff in Hle as [Hle _]. apply bool_decide_eq_true in Hle. congruence. }
  assert (Hnd' : NoDup (moved ++ (m, tmp) :: rest).*1).
  { rewrite <- Hord. unfold install_order. by rewrite merge_sort_Permutation. }
  rewrite fmap_app in Hnd'. apply NoDup_app in Hnd' as (_ & Hdis & _).
  apply (Hdis m); [by eauto|]. csimpl. by left.
Qed.

(** The manifest is last.  At whatever step the forward pass stops (a fault, or a crash at
    that step), once the manifest is in place every staged file is in place with its content. *)
Theorem manifest_names_installed_files staged stale manifest s o x :
  (forall t p, t !! backup_name p t = None) ->
  well_staged staged stale (tree s) ->
  install_forward staged stale (Some manifest) (mkTxn s [] []) = (o, x) ->
  manifest ∈ t_installed x ->
  forall f tmp, (f, tmp) ∈ staged -> tree (t_fs x) !! f = tree s !! tmp.
Proof.
  intros Hfresh WS Hrun Hin f tmp Hft.
  destruct (install_forward_inv staged stale _ Hfresh WS _ s _ _ eq_refl Hrun)
    as (failed & HI & Hfail & (moved & rest & Hord & HIm & _) & _).
  rewrite HIm in Hin, Hfail.
  assert (rest = []) as -> by (eapply install_order_manifest_last; [apply WS|done..]).
  destruct failed; [by rewrite Hfail in Hin; [apply elem_of_nil in Hin|]|].
  destruct (inv_staged _ _ _ _ _ _ _ HI eq_refl f tmp Hft) as [Hf _]. apply Hf.
  rewrite HIm. rewrite app_nil_r in Hord. rewrite <- Hord. unfold install_order.
  rewrite merge_sort_Permutation. eauto.
Qed.

End Install.

Lemma backup_name_fresh t p : t !! backup_name long_middle p t = None.
Proof. unfold backup_name. rewrite !app_assoc, <- (app_assoc (_ ++ _)). by apply long_middle_fresh. Qed.

(** * Example: a directory with a data file, a manifest, a stale file and two staged files *)

Definition d_ (name : string) : path := [u "d"; u name].
Definition example_tree : gmap path node := list_to_map
  [([u "d"], Dir); (d_ "a", File (CBytes [1%N])); (d_ "m", File (CBytes [2%N]));
   (d_ "z", File (CBytes [3%N])); (d_ "a.tmp", File (CBytes [4%N])); (d_ "m.tmp", File (CBytes [5%N]))].
Definition example_staged : list (path * path) := [(d_ "m", d_ "m.tmp"); (d_ "a", d_ "a.tmp")].

Lemma example_well_staged : well_staged example_staged [d_ "z"] example_tree.
Proof.
  split.
  - by_evaluation.
  - by_evaluation.
  - intros f tmp Hin. repeat (apply elem_of_cons in Hin as [?|Hin]; [simplify_eq; eexists; reflexivity|]).
    by apply elem_of_nil in Hin.
  - apply Forall_forall. by_evaluation.
  - intros p Hin. repeat (apply elem_of_cons in Hin as [->|Hin]; [by vm_compute|]). by apply elem_of_nil in Hin.
  - intros p Hin. repeat (apply elem_of_cons in Hin as [->|Hin]; [by vm_compute|]). by apply elem_of_nil in Hin.
  - intros p q Hp. revert q. apply Forall_forall. revert p Hp. apply Forall_forall. by_evaluation.
  - intros p Hp _. revert p Hp. apply Forall_forall.
    repeat constructor.
Qed.

Definition example_error : exn := MkExn COSError [] (Some 5) None None None None.

(** A failure of the third move, after everything had been backed up and one file installed. *)
Definition failing_state : FsState :=
  mkFs example_tree (replicate 9 None ++ [Some example_error]).
Definition working_state : FsState := mkFs example_tree [].

Lemma failed_install_rolls_back_witness :
  exists s', install_staged_files long_middle example_staged [d_ "z"] (Some (d_ "m")) failing_state
             = (Raise example_error, s') /\
    tree s' !! d_ "a" = Some (File (CBytes [1%N])) /\ tree s' !! d_ "z" = Some (File (CBytes [3%N])).
Proof.
  destruct (failed_install_rolls_back long_middle example_staged [d_ "z"] (Some (d_ "m")) failing_state
    example_error _ backup_name_fresh example_well_staged (pair_of_fst _ _ ltac:(vm_compute; reflexivity)))
    as (s' & E & Htgt & _).
  - apply (Forall_forall (fun f => f = None)). vm_compute. by intros ? ?%elem_of_nil.
  - exists s'. split; [exact E|]. split; rewrite Htgt by by_evaluation; vm_compute; reflexivity.
Defined.

Lemma install_commits_witness :
  let s' := (install_staged_files long_middle example_staged [d_ "z"] (Some (d_ "m")) working_state).2 in
  tree s' !! d_ "a" = Some (File (CBytes [4%N])) /\ tree s' !! d_ "z" = None.
Proof.
  intros s'.
  assert (E : install_staged_files long_middle example_staged [d_ "z"] (Some (d_ "m")) working_state
              = (Ok tt, s')) by (apply pair_of_fst; vm_compute; reflexivity).
  clearbody s'.
  destruct (install_commits long_middle example_staged [d_ "z"] (Some (d_ "m")) working_state s'
    backup_name_fresh example_well_staged E) as (H1 & H2 & _).
  split.
  - destruct (H1 (d_ "a") (d_ "a.tmp")) as [-> _]; [by right; left|vm_compute; reflexivity].
  - apply H2; [by left|]. by_evaluation.
Defined.

Lemma manifest_names_installed_files_witness :
  let x := (install_forward long_middle example_staged [d_ "z"] (Some (d_ "m"))
              (mkTxn working_state [] [])).2 in
  tree (t_fs x) !! d_ "a" = Some (File (CBytes [4%N])).
Proof.
  intros x.
  assert (E : install_forward long_middle example_staged [d_ "z"] (Some (d_ "m"))
                (mkTxn working_state [] []) = (Ok tt, x)).
  { exact (pair_of_fst (install_forward long_middle example_staged [d_ "z"] (Some (d_ "m"))
             (mkTxn working_state [] [])) (Ok tt) ltac:(vm_compute; reflexivity)). }
  assert (Hm : d_ "m" ∈ t_installed x) by (unfold x; by_evaluation).
  clearbody x.
  rewrite (manifest_names_installed_files long_middle example_staged [d_ "z"] (d_ "m") working_state
    (Ok tt) x backup_name_fresh example_well_staged E Hm (d_ "a") (d_ "a.tmp")).
  - vm_compute. reflexivity.
  - by right; left.
Defined.

(** * Where the promises of the docstring stop *)

(** A backup whose move fails leaves its empty [mkstemp] file behind: the call raises, the
    target keeps its content, but a hidden [.backup] file outlives the call. *)
Theorem failed_backup_leaks_empty_file :
  let r := install_staged_files long_middle example_staged [d_ "z"] (Some (d_ "m"))
             (mkFs example_tree [None; Some example_error]) in
  let leaked := backup_name long_middle (d_ "a") example_tree in
  r.1 = Raise example_error /\ tree r.2 !! d_ "a" = Some (File (CBytes [1%N])) /\
  example_tree !! leaked = None /\ tree r.2 !! leaked = Some (File (CBytes [])).
Proof. vm_compute. repeat split. Qed.

(** When moving a backup back fails as well, the [finally] clause still unlinks every
    backup: the targets not yet restored are lost, in every file of the tree. *)
Theorem failed_restore_deletes_backups :
  let r := install_staged_files long_middle example_staged [d_ "z"] (Some (d_ "m"))
             (mkFs example_tree (replicate 7 None ++ [Some example_error; None; Some example_error])) in
  r.1 = Raise example_error /\ example_tree !! d_ "a" = Some (File (CBytes [1%N])) /\
  map_Forall (fun _ n => n ≠ File (CBytes [1%N]) /\ n ≠ File (CBytes [2%N])) (tree r.2).
Proof.
  split; [vm_compute; reflexivity|]. split; [vm_compute; reflexivity|].
  apply map_Forall_to_list. vm_compute. repeat constructor; discriminate.
Qed.
