(* ===== verification/Atomic.v ===== *)
(** Atomic publication of one file ([io/atomic.py]): a hidden temporary sibling is filled and
    then renamed over the target. *)
From S2P Require Import Prelude Py PyStr Fs Calm.

Section Atomic.
(** [tempfile.mkstemp] chooses the middle part of a name. *)
Variable temporary_middle : gmap path node -> path -> str.

Definition temporary_name (target : path) (t : gmap path node) : path :=
  child (path_parent target)
    (u "." ++ path_name target ++ u "." ++ temporary_middle t target ++ u ".tmp").

(** [tempfile.mkstemp(prefix=..., suffix=".tmp", dir=path.parent)]: creates an empty file. *)
Definition mkstemp_tmp (target : path) : PyM FsState path :=
  create_temporary (temporary_name target).

(** [with atomic_replacement(path) as temporary: body]. *)
Definition atomic_replacement (target : path) (body : path -> PyM FsState unit)
    : PyM FsState unit :=
  mkdir (path_parent target);;
  temporary <- mkstemp_tmp target;;
  on_error (body temporary;; os_replace temporary target) (unlink temporary).

Definition atomic_write_text (target : path) (text : str) : PyM FsState unit :=
  atomic_replacement target (fun temporary =>
    bytes <- lift (utf8_encode text);; write_file temporary (CBytes bytes)).

Definition atomic_write_json (target : path) (value : pyval) : PyM FsState unit :=
  atomic_replacement target (fun temporary => write_file temporary (CJson value)).

Definition atomic_copy_file (source target : path) : PyM FsState unit :=
  atomic_replacement target (fun temporary => copy_file source temporary).

(** * What a body may do *)

(** A body that changes nothing but the content of its temporary file and, when it returns,
    leaves a content that [want] relates to the tree it started from. *)
Definition fills (body : path -> PyM FsState unit) (want : gmap path node -> content -> Prop)
    (temporary : path) : Prop :=
  forall s o s', body temporary s = (o, s') ->
    (exists c, tree s !! temporary = Some (File c)) ->
    (forall q, q ≠ temporary -> tree s' !! q = tree s !! q) /\
    (exists c, tree s' !! temporary = Some (File c) /\ (o = Ok tt -> want (tree s) c)) /\
    (calm s -> calm s').

Lemma write_fills (c : content) (temporary : path) :
  fills (fun q => write_file q c) (fun _ c' => c' = c) temporary.
Proof.
  intros s o s' H [c0 Hc0]. pose proof (primitive_keeps_calm _ _ _ _ H) as Hcalm.
  apply primitive_cases in H as [(e & -> & ->)|H]; [split_and!; [done|by exists c0|done]|].
  apply write_tree_cases in H as [(e & -> & ->)|(-> & _ & _ & ->)]; [split_and!; [done|by exists c0|done]|].
  split_and!; [intros; by rewrite lookup_insert_ne| |done].
  exists c. split; [apply lookup_insert_eq|done].
Qed.

Lemma copy_fills (source temporary : path) :
  fills (fun q => copy_file source q) (fun t c' => t !! source = Some (File c')) temporary.
Proof.
  intros s o s' H [c0 Hc0]. pose proof (primitive_keeps_calm _ _ _ _ H) as Hcalm.
  apply primitive_cases in H as [(e & -> & ->)|H]; [split_and!; [done|by exists c0|done]|].
  unfold copy_tree in H. destruct (tree s !! source) as [[c|]|] eqn:Es; [|simplify_eq; split_and!; [congruence|exists c0; split; [congruence|done]|done]..].
  apply write_tree_cases in H as [(e & -> & ->)|(-> & _ & _ & ->)]; [split_and!; [done|by exists c0|done]|].
  split_and!; [intros; by rewrite lookup_insert_ne| |done].
  exists c. split; [apply lookup_insert_eq|done].
Qed.

(** * All or nothing *)

Lemma temporary_name_ne target t : temporary_name target t ≠ target.
Proof.
  intros H. apply (f_equal (fun p => length (path_name p))) in H.
  unfold temporary_name in H. rewrite path_name_child, !length_app in H.
  change (length (u ".")) with 1%nat in H. lia.
Qed.

(** Hidden and suffixed [.tmp]. *)
Definition temporary_like (p : path) : bool :=
  startswith (u ".") (path_name p) && endswith (u ".tmp") (path_name p).

(** Such a file in the directory of the target. *)
Definition temporary_sibling (target q : path) : Prop :=
  temporary_like q = true /\ path_parent q = path_parent target.

Lemma temporary_name_like target t : temporary_sibling target (temporary_name target t).
Proof.
  unfold temporary_sibling, temporary_like, temporary_name.
  rewrite path_name_child, path_parent_child, startswith_app, !app_assoc. split; [|done].
  apply endswith_app.
Qed.

(** The outcome of [atomic_replacement] in terms of the tree: the target is untouched or holds
    what the body wrote, nothing else that existed changed, and nothing new remains but
    directories and, if its removal failed as well, the temporary file. *)
Record replaced (target : path) (want : content -> Prop) (s : FsState) (o : outcome unit)
    (s' : FsState) : Prop := {
  replaced_target :
    (exists e, o = Raise e) /\ tree s' !! target = tree s !! target \/
    o = Ok tt /\ exists c, want c /\ tree s' !! target = Some (File c);
  replaced_others : forall q n, q ≠ target -> tree s !! q = Some n -> tree s' !! q = Some n;
  replaced_new : forall q n, q ≠ target -> tree s !! q = None -> tree s' !! q = Some n ->
    n = Dir /\ q ∈ prefixes (path_parent target) \/
    (exists e, o = Raise e) /\ ~ calm s /\ temporary_sibling target q }.

Lemma not_parent (target : path) : target ∉ prefixes (path_parent target).
Proof.
  assert (Hlen : forall p acc q, q ∈ prefixes_from acc p -> (length q <= length acc + length p)%nat).
  { induction p as [|c p IH]; intros acc q; simpl; [by intros ?%elem_of_nil|].
    intros [->|Hq]%elem_of_cons; [rewrite length_app; simpl; lia|].
    apply IH in Hq. rewrite length_app in Hq. simpl in Hq. lia. }
  intros Hin. destruct (decide (target = [])) as [->|Hne]; [by apply elem_of_nil in Hin|].
  apply Hlen in Hin. rewrite (path_eta target) in Hin at 1 by done.
  unfold child in Hin. rewrite length_app in Hin. simpl in Hin. lia.
Qed.

Lemma mkdir_cases target s o s' :
  mkdir (path_parent target) s = (o, s') ->
  tree s' !! target = tree s !! target /\
  (forall q n, tree s !! q = Some n -> tree s' !! q = Some n) /\
  (forall q n, tree s !! q = None -> tree s' !! q = Some n ->
     n = Dir /\ q ∈ prefixes (path_parent target)) /\ (calm s -> calm s').
Proof.
  intros H. pose proof (primitive_keeps_calm _ _ _ _ H) as Hcalm.
  apply primitive_cases in H as [(e & _ & ->)|H].
  { split_and!; [done|auto|congruence|done]. }
  assert (Hl := fun q => mkdirs_lookup _ _ _ _ q H). split_and!.
  - destruct (Hl target) as [|(_ & _ & Hin)]; [done|]. by apply not_parent in Hin.
  - intros q n Hq. destruct (Hl q) as [->|(? & _)]; [done|congruence].
  - intros q n Hq Hn. destruct (Hl q) as [?|(_ & ? & ?)]; [congruence|]. split; [congruence|done].
  - done.
Qed.

Lemma unlink_cases p c s o s' :
  unlink p s = (o, s') -> tree s !! p = Some (File c) ->
  tree s' = delete p (tree s) \/ tree s' = tree s /\ ~ calm s.
Proof.
  intros E Hp. destruct (decide (Forall (fun f => f = None) (faults s))) as [Hcalm|Hn].
  - destruct (primitive_calm (unlink_tree p) s Hcalm) as (s1 & E1 & Ht1 & _).
    unfold unlink in E. rewrite E1 in E. simplify_eq. left. rewrite Ht1. unfold unlink_tree. by rewrite Hp.
  - apply primitive_cases in E as [(e & _ & ?)|E]; [by right|].
    unfold unlink_tree in E. rewrite Hp in E. simplify_eq. by left.
Qed.

(** Until the rename, the tree is the tree [t1] after the directories were made, plus the
    temporary. *)
Record before_rename (target tmp : path) (s : FsState) (t1 t : gmap path node) : Prop := {
  br_tmp : tmp ≠ target;
  br_fresh : tree s !! tmp = None;
  br_file : exists c, t !! tmp = Some (File c);
  br_same : forall q, q ≠ tmp -> t !! q = t1 !! q;
  br_target : t1 !! target = tree s !! target;
  br_kept : forall q n, tree s !! q = Some n -> t1 !! q = Some n;
  br_like : temporary_sibling target tmp;
  br_new : forall q n, tree s !! q = None -> t1 !! q = Some n ->
    n = Dir /\ q ∈ prefixes (path_parent target) }.

(** Removing the temporary after a failure. *)
Lemma replaced_after_failure target tmp want s t1 sx e o s' :
  before_rename target tmp s t1 (tree sx) -> (calm s -> calm sx) ->
  (match unlink tmp sx with
   | (Ok _, s2) => (Raise e, s2)
   | (Raise e', s2) => (Raise e', s2)
   end) = (o, s') ->
  replaced target want s o s'.
Proof.
  intros [Hne Hf [c Hc] Hsame Ht Hk Hlike Hn] Hcx H. destruct (unlink tmp sx) as [o4 s4] eqn:E4.
  assert (exists e', o = Raise e' /\ s' = s4) as (e' & -> & ->) by (destruct o4; simplify_eq; eauto).
  pose proof (unlink_cases _ _ _ _ _ E4 Hc) as Hs4.
  assert (Hother : forall q, q ≠ tmp -> tree s4 !! q = t1 !! q).
  { intros q Hq. destruct Hs4 as [->|[-> _]]; rewrite ?lookup_delete_ne by done; auto. }
  split.
  - left. split; [eauto|]. by rewrite Hother by done.
  - intros q n Hq Hqn. rewrite Hother; [auto|]. intros ->. congruence.
  - intros q n Hq Hqn Hs. destruct (decide (q = tmp)) as [->|].
    + destruct Hs4 as [Hs4|[_ ?]]; [rewrite Hs4, lookup_delete_eq in Hs; done|].
      right. split; [eauto|]. auto.
    + rewrite Hother in Hs by done. left. eauto.
Qed.

(** The rename. *)
Lemma replaced_by_rename target tmp (want : content -> Prop) s t1 sx c s' :
  before_rename target tmp s t1 (tree sx) -> tree sx !! tmp = Some (File c) -> want c ->
  tree s' = <[target := File c]> (delete tmp (tree sx)) ->
  replaced target want s (Ok tt) s'.
Proof.
  intros [Hne Hf _ Hsame Ht Hk _ Hn] Hc Hw Hs'.
  assert (Hother : forall q, q ≠ target -> q ≠ tmp -> tree s' !! q = t1 !! q).
  { intros q ? ?. by rewrite Hs', lookup_insert_ne, lookup_delete_ne, Hsame. }
  split.
  - right. split; [done|]. exists c. by rewrite Hs', lookup_insert_eq.
  - intros q n Hq Hqn. rewrite Hother; [auto|done|]. intros ->. congruence.
  - intros q n Hq Hqn Hs. left. destruct (decide (q = tmp)) as [->|].
    + rewrite Hs', lookup_insert_ne, lookup_delete_eq in Hs; done.
    + rewrite Hother in Hs by done. eauto.
Qed.

Lemma atomic_replacement_cases target body want s o s' :
  (forall t p, t !! temporary_name p t = None) ->
  (forall temporary, fills body want temporary) ->
  atomic_replacement target body s = (o, s') ->
  exists s1, replaced target (want s1) s o s' /\
    (forall q n, tree s !! q = Some n -> s1 !! q = Some n).
Proof.
  intros Hfresh Hbody. unfold atomic_replacement, pbind.
  destruct (mkdir (path_parent target) s) as [o1 s1] eqn:E1.
  apply mkdir_cases in E1 as (Ht1 & Hk1 & Hn1 & Hc1).
  assert (Hraise : forall e sx, tree sx = tree s1 -> replaced target (want (tree s1)) s (Raise e) sx).
  { intros e sx Hx. split; rewrite ?Hx; eauto. }
  destruct o1 as [[]|e]; [|intros; simplify_eq; eauto].
  destruct (mkstemp_tmp target s1) as [o2 s2] eqn:E2.
  pose proof (primitive_keeps_calm _ _ _ _ E2) as Hc2.
  apply create_temporary_cases in E2 as [(e & -> & Hs2)|(-> & _ & Hs2)]; [intros; simplify_eq; eauto|].
  pose proof (temporary_name_ne target (tree s1)) as Htmp.
  pose proof (Hfresh (tree s1) target) as Htmp1.
  pose proof (temporary_name_like target (tree s1)) as Hlike.
  generalize dependent (temporary_name target (tree s1)). intros tmp Hs2 Htmp Htmp1 Hlike.
  unfold on_error. destruct (body tmp s2) as [o3 s3] eqn:E3.
  destruct (Hbody tmp s2 o3 s3 E3) as (Hs3 & (c & Hc & Hw) & Hc3).
  { rewrite Hs2, lookup_insert_eq. eauto. }
  assert (Hbr : forall sx, tree sx = tree s3 -> before_rename target tmp s (tree s1) (tree sx)).
  { intros sx ->. split; eauto.
    - destruct (tree s !! tmp) eqn:E; [|done]. apply Hk1 in E. congruence.
    - intros q ?. by rewrite Hs3, Hs2, lookup_insert_ne. }
  intros H. exists (tree s2). split.
  2: { intros q n Hq%Hk1. rewrite Hs2, lookup_insert_ne; [done|congruence]. }
  destruct o3 as [[]|e]; [|by eapply replaced_after_failure; [apply Hbr| |exact H]; auto].
  destruct (os_replace tmp target s3) as [o4 s4] eqn:E4.
  pose proof (primitive_keeps_calm _ _ _ _ E4) as Hc4.
  assert (Hren : (exists e, o4 = Raise e /\ tree s4 = tree s3) \/
    o4 = Ok tt /\ tree s4 = <[target := File c]> (delete tmp (tree s3))).
  { apply primitive_cases in E4 as [?|E4]; [by left|]. unfold replace_tree in E4. rewrite Hc in E4.
    repeat case_match; simplify_eq; eauto. }
  destruct Hren as [(e & -> & Hs4)|[-> Hs4]].
  - eapply replaced_after_failure; [by apply Hbr| |exact H]. auto.
  - simplify_eq. eapply replaced_by_rename; [by apply Hbr|done|auto|done].
Qed.

Lemma atomic_write_json_replaced target value s o s' :
  (forall t p, t !! temporary_name p t = None) ->
  atomic_write_json target value s = (o, s') ->
  replaced target (fun c => c = CJson value) s o s'.
Proof.
  intros Hfresh H. eapply atomic_replacement_cases in H as (s1 & H & _); [exact H|done|].
  intros temporary. apply write_fills.
Qed.

Lemma atomic_copy_file_replaced source target s o s' c :
  (forall t p, t !! temporary_name p t = None) ->
  tree s !! source = Some (File c) ->
  atomic_copy_file source target s = (o, s') ->
  replaced target (fun c' => c' = c) s o s'.
Proof.
  intros Hfresh Hsrc H. eapply atomic_replacement_cases in H as (s1 & [Ht Ho Hn] & Hk); [|done|].
  2: { intros temporary. apply copy_fills. }
  split; [|done..]. destruct Ht as [?|(-> & c' & Hc' & Hs')]; [by left|].
  right. split; [done|]. exists c'. split; [|done]. apply Hk in Hsrc. congruence.
Qed.

(** Without faults a JSON write returns and changes its target only. *)
Lemma calmly_on_error {A} (m : PyM FsState A) h s Q : calmly m s Q -> calmly (on_error m h) s Q.
Proof. intros (a & s' & E & H). exists a, s'. unfold on_error. by rewrite E. Qed.

Lemma calmly_atomic_replacement target body c s :
  (forall t p, t !! temporary_name p t = None) ->
  calm s -> Forall (fun q => tree s !! q = Some Dir) (prefixes (path_parent target)) ->
  tree s !! target ≠ Some Dir ->
  (forall tmp s1, calm s1 -> tree s !! tmp = None -> is_dir (path_parent tmp) (tree s1) = true ->
     tree s1 = <[tmp := File (CBytes [])]> (tree s) -> calmly (body tmp) s1 (fun _ t => t = <[tmp := File c]> (tree s))) ->
  calmly (atomic_replacement target body) s (fun _ t => t = <[target := File c]> (tree s)).
Proof.
  intros Hfresh Hc Hd Ht Hbody. pose proof (prefixes_is_dir _ _ Hd) as Hdir.
  apply calmly_mkdir_then; [done..|]. intros s1 Hc1 E1. rewrite <- E1 in Hdir, Ht, Hbody |- *. clear s Hc Hd E1.
  destruct (temporary_name_like target (tree s1)) as [_ Hp].
  pose proof (Hfresh (tree s1) target) as Hf. pose proof (temporary_name_ne target (tree s1)) as Hne.
  assert (Hpne : temporary_name target (tree s1) ≠ path_parent target).
  { intros E. apply (f_equal length) in E. unfold temporary_name, child in E. rewrite length_app in E. simpl in E. lia. }
  assert (Hk : forall t c, is_dir (path_parent target) t = true ->
    is_dir (path_parent target) (<[temporary_name target (tree s1) := File c]> t) = true).
  { intros t c'. unfold is_dir. by rewrite lookup_insert_ne. }
  eapply calmly_bind with (Q := fun a t => a = temporary_name target (tree s1) /\
    t = <[temporary_name target (tree s1) := File (CBytes [])]> (tree s1)).
  { unfold mkstemp_tmp, create_temporary. apply (calmly_primitive _ (temporary_name target (tree s1))); [done|..];
      unfold write_tree; rewrite Hp, Hdir, Hf; done. }
  intros _ s2 Hc2 [-> E2]. apply calmly_on_error.
  eapply calmly_bind with (Q := fun _ t => t = <[temporary_name target (tree s1) := File c]> (tree s1)).
  { apply Hbody; [done|done| |done]. rewrite E2, Hp. by apply Hk. }
  intros _ s3 Hc3 E3. eapply (calmly_os_replace _ _ c); [done|..].
  - by rewrite E3, lookup_insert_eq.
  - rewrite E3. by apply Hk.
  - by rewrite E3, lookup_insert_ne.
  - rewrite E3, delete_insert_eq. by rewrite delete_id.
Qed.

Lemma calmly_atomic_write_json target v s :
  (forall t p, t !! temporary_name p t = None) ->
  calm s -> Forall (fun q => tree s !! q = Some Dir) (prefixes (path_parent target)) ->
  tree s !! target ≠ Some Dir ->
  calmly (atomic_write_json target v) s (fun _ t => t = <[target := File (CJson v)]> (tree s)).
Proof.
  intros Hfresh Hc Hd Ht. apply calmly_atomic_replacement; [done..|]. intros tmp s1 Hc1 Htmp Hdir E.
  apply (calmly_primitive _ tt); [done|..]; unfold write_tree; rewrite Hdir, E, lookup_insert_eq; [done|by rewrite insert_insert_eq].
Qed.

Lemma calmly_atomic_copy_file source target c s :
  (forall t p, t !! temporary_name p t = None) ->
  calm s -> Forall (fun q => tree s !! q = Some Dir) (prefixes (path_parent target)) ->
  tree s !! target ≠ Some Dir -> tree s !! source = Some (File c) ->
  calmly (atomic_copy_file source target) s (fun _ t => t = <[target := File c]> (tree s)).
Proof.
  intros Hfresh Hc Hd Ht Hsrc. apply calmly_atomic_replacement; [done..|]. intros tmp s1 Hc1 Htmp Hdir E.
  assert (Hne : tmp ≠ source) by congruence.
  apply (calmly_primitive _ tt); [done|..]; unfold copy_tree, write_tree; rewrite E, lookup_insert_ne, Hsrc by done;
    rewrite <- E, Hdir, E, lookup_insert_eq; [done|by rewrite insert_insert_eq].
Qed.

(** ** Cleaning up *)

(** A body that raises only when one of its system calls fails. *)
Definition raises_on_failure (body : path -> PyM FsState unit) (ok : gmap path node -> Prop) (temporary : path) : Prop :=
  forall s o s', body temporary s = (o, s') -> is_file temporary (tree s) = true -> is_dir (path_parent temporary) (tree s) = true ->
    ok (tree s) -> (failures s' <= failures s)%nat /\ (o = Ok tt \/ failures s' < failures s)%nat.

Lemma write_raises_on_failure c ok temporary : raises_on_failure (fun q => write_file q c) ok temporary.
Proof.
  intros s o s' [Hle [?|E]]%primitive_failures Hf Hd _; [auto|]. split; [done|left]. unfold write_tree in E. rewrite Hd in E. unfold is_file in Hf.
  destruct (tree s !! temporary) as [[]|]; [by injection E|done|done].
Qed.

Lemma copy_raises_on_failure source temporary :
  raises_on_failure (fun q => copy_file source q) (fun t => is_file source t = true) temporary.
Proof.
  intros s o s' [Hle [?|E]]%primitive_failures Hf Hd Hs; [auto|]. split; [done|left]. unfold copy_tree, write_tree in E. rewrite Hd in E. unfold is_file in Hf, Hs.
  destruct (tree s !! source) as [[]|], (tree s !! temporary) as [[]|]; try done. by injection E.
Qed.

(** Nothing is new but the target and its directories. *)
Definition leaves_nothing (target : path) (s s' : FsState) : Prop :=
  forall q n, q ≠ target -> tree s !! q = None -> tree s' !! q = Some n -> n = Dir /\ q ∈ prefixes (path_parent target).

(** Only two failures can leave the temporary: the first ends the write, the second keeps it from
    being removed. *)
Lemma atomic_replacement_cleans target body want ok s o s' :
  (forall t p, t !! temporary_name p t = None) -> (forall temporary, fills body want temporary) ->
  (forall temporary, raises_on_failure body ok temporary) -> (forall t, (forall q n, tree s !! q = Some n -> t !! q = Some n) -> ok t) ->
  tree s !! target ≠ Some Dir -> (failures s <= 1)%nat -> atomic_replacement target body s = (o, s') -> leaves_nothing target s s'.
Proof.
  intros Hfresh Hbody Hraise Hok Hdir Hone. unfold leaves_nothing, atomic_replacement. unfold pbind at 1. destruct (mkdir (path_parent target) s) as [o1 s1] eqn:E1.
  pose proof (mkdir_cases _ _ _ _ E1) as (Ht1 & Hk1 & Hn1 & _). pose proof (proj1 (primitive_failures _ _ _ _ E1)) as Hf1.
  destruct o1 as [[]|e]; [|intros [= <- <-]; eauto]. unfold pbind at 1. destruct (mkstemp_tmp target s1) as [o2 s2] eqn:E2.
  pose proof (proj1 (primitive_failures _ _ _ _ E2)) as Hf2.
  apply create_temporary_cases in E2 as [(e & -> & Hs2)|(-> & Hd2 & Hs2)]; [intros [= <- <-]; rewrite Hs2; eauto|].
  pose proof (temporary_name_ne target (tree s1)) as Hne. pose proof (Hfresh (tree s1) target) as Hf. pose proof (temporary_name_like target (tree s1)) as [_ Hpar].
  assert (Hpne : path_parent (temporary_name target (tree s1)) ≠ temporary_name target (tree s1)).
  { intros E. apply (f_equal length) in E. unfold temporary_name in E. rewrite path_parent_child in E. unfold child in E. rewrite length_app in E. simpl in E. lia. }
  generalize dependent (temporary_name target (tree s1)). intros tmp Hd2 Hs2 Hne Htmp Hpar Hpne.
  assert (Hkeep2 : forall q n, tree s !! q = Some n -> tree s2 !! q = Some n) by (intros q n Hq%Hk1; rewrite Hs2, lookup_insert_ne; [done|congruence]).
  unfold on_error, pbind. destruct (body tmp s2) as [o3 s3] eqn:E3.
  assert (Hfile2 : is_file tmp (tree s2) = true) by (unfold is_file; by rewrite Hs2, lookup_insert_eq).
  assert (Hdir2 : is_dir (path_parent tmp) (tree s2) = true) by (unfold is_dir in *; by rewrite Hs2, lookup_insert_ne).
  destruct (Hbody tmp s2 o3 s3 E3) as (Hs3 & (c & Hc & _) & _); [rewrite Hs2, lookup_insert_eq; eauto|].
  assert (Hother : forall q, q ≠ tmp -> tree s3 !! q = tree s1 !! q) by (intros q Hq; rewrite Hs3, Hs2, lookup_insert_ne by done; done).
  (* the temporary goes when no failure is left *)
  assert (Hclean : forall e sx (o' : outcome unit) s', tree sx = tree s3 -> failures sx = 0%nat ->
    (match unlink tmp sx with (Ok _, sy) => (Raise e, sy) | (Raise e', sy) => (Raise e', sy) end) = (o', s') ->
    forall q n, q ≠ target -> tree s !! q = None -> tree s' !! q = Some n -> n = Dir /\ q ∈ prefixes (path_parent target)).
  { intros e sx o' sy Hx Hcalm%failures_calm Hu q n Hq Hnone Hsome. destruct (primitive_calm (unlink_tree tmp) sx Hcalm) as (sz & Ez & Htz & _).
    unfold unlink in Hu. rewrite Ez in Hu. unfold unlink_tree in Hu, Htz. rewrite Hx, Hc in Hu, Htz. simpl in Hu, Htz. injection Hu as _ <-.
    rewrite Htz in Hsome. apply lookup_delete_Some in Hsome as [Hqt Hsome]. rewrite Hother in Hsome by done. eauto. }
  destruct (Hraise tmp s2 o3 s3 E3 Hfile2 Hdir2 (Hok _ Hkeep2)) as [Hf3 Hlt]. destruct o3 as [[]|e].
  - destruct (os_replace tmp target s3) as [o4 s4] eqn:E4. pose proof (proj2 (primitive_failures _ _ _ _ E4)) as Hf4.
    pose proof (primitive_cases _ _ _ _ E4) as Hcase4. unfold replace_tree in Hf4, Hcase4. rewrite Hc in Hf4, Hcase4.
    assert (Hd3 : is_dir (path_parent target) (tree s3) = true) by (unfold is_dir in *; rewrite Hs3 by congruence; by rewrite <- Hpar).
    assert (Ht3 : tree s3 !! target ≠ Some Dir) by (rewrite Hother by done; by rewrite Ht1).
    rewrite Hd3 in Hf4, Hcase4. simpl in Hf4, Hcase4.
    destruct o4 as [[]|e].
    + intros [= <- <-] q n Hq Hnone Hsome. assert (Et : tree s4 = <[target := File c]> (delete tmp (tree s3))).
      { destruct Hcase4 as [(? & ? & _)|Hcase4]; [done|]. destruct (tree s3 !! target) as [[]|]; [by injection Hcase4|done|by injection Hcase4]. }
      rewrite Et, lookup_insert_ne in Hsome by done. apply lookup_delete_Some in Hsome as [Hqt Hsome]. rewrite Hother in Hsome by done. eauto.
    + assert (Hnat : forall t, match tree s3 !! target with Some Dir => (Raise os_error, tree s3) | _ => (Ok tt, <[target := File c]> (delete tmp (tree s3))) end ≠ (Raise e, t)).
      { intros t. by destruct (tree s3 !! target) as [[]|]. }
      destruct Hf4 as [Hf4|Hf4]; [|by apply Hnat in Hf4]. destruct Hcase4 as [(e' & _ & Hs4)|Hcase4]; [|by apply Hnat in Hcase4].
      apply Hclean; [done|lia].
  - destruct Hlt as [?|Hlt]; [done|]. apply Hclean; [done|lia].
Qed.


End Atomic.

(** * Examples *)

Lemma temporary_name_fresh t p : t !! temporary_name long_middle p t = None.
Proof. unfold temporary_name. rewrite !app_assoc, <- (app_assoc (_ ++ _)). by apply long_middle_fresh. Qed.

Definition ledger_file : path := [u "d"; u "ledger.json"].
Definition other_file : path := [u "d"; u "other"].
Definition disk_full : exn := MkExn COSError [] (Some 28) None None None None.
Definition atomic_example : gmap path node := list_to_map
  [([u "d"], Dir); (ledger_file, File (CJson (VInt 1))); (other_file, File (CBytes [7%N]))].

