(* ===== verification/Paths.v ===== *)
(** Lemmas on paths: resolution without [..], texts of paths that are read back, lengths. *)
From S2P Require Import Prelude Py PyStr Fs Artifacts.

(** * Resolution *)

Lemma resolve_app p x : u ".." ∉ x -> resolve (p ++ x) = resolve p ++ x.
Proof.
  intros H. unfold resolve at 1. rewrite foldl_app. fold (resolve p). generalize (resolve p). clear p.
  induction x as [|c x IH]; intros acc; simpl; [by rewrite app_nil_r|].
  apply not_elem_of_cons in H as [Hc Hx]. rewrite str_eqb_neq by done. rewrite IH by done.
  by rewrite <- app_assoc.
Qed.

(** * Lengths *)

Lemma prefixes_shorter p q : q ∈ prefixes p -> (length q <= length p)%nat.
Proof.
  assert (H : forall p acc, q ∈ prefixes_from acc p -> (length q <= length acc + length p)%nat).
  { induction p0 as [|c p0 IH]; intros acc; simpl; [by intros ?%elem_of_nil|].
    intros [->|Hq%IH]%elem_of_cons; rewrite ?length_app in *; simpl in *; lia. }
  intros Hq%H. done.
Qed.

Lemma length_parent (p : path) : (length p <= length (path_parent p) + 1)%nat.
Proof.
  destruct p as [|c p _] using rev_ind; simpl; [lia|]. unfold path_parent. rewrite removelast_last, length_app.
  simpl. lia.
Qed.

(** * Texts of paths are read back *)

(** A component that a path object can hold. *)
Definition plain (c : str) : Prop := c ≠ [] /\ c ≠ u "." /\ 47%N ∉ c.
Definition clean_path (p : path) : Prop := Forall plain p.

Lemma split_on_app c s : 47%N ∉ c -> split_on 47 (c ++ 47%N :: s) = c :: split_on 47 s.
Proof.
  induction c as [|x c IH]; intros H; [done|]. apply not_elem_of_cons in H as [Hx Hc].
  simpl. rewrite (proj2 (N.eqb_neq x 47)) by done. by rewrite IH.
Qed.

Lemma split_on_none c : 47%N ∉ c -> split_on 47 c = [c].
Proof.
  induction c as [|x c IH]; intros H; [done|]. apply not_elem_of_cons in H as [Hx Hc].
  simpl. rewrite (proj2 (N.eqb_neq x 47)) by done. by rewrite IH.
Qed.

Lemma split_on_join p : clean_path p -> p ≠ [] -> split_on 47 (join (u "/") p) = p.
Proof.
  induction 1 as [|c p (_ & _ & Hc) Hp IH]; intros Hne; [done|].
  destruct p as [|d p]; [by apply split_on_none|].
  change (join (u "/") (c :: d :: p)) with (c ++ 47%N :: join (u "/") (d :: p)).
  rewrite split_on_app by done. f_equal. by apply IH.
Qed.

Lemma path_components_str p : clean_path p -> path_components (path_str p) = p.
Proof.
  intros Hp. unfold path_components, path_str, as_posix.
  change (u "/" ++ join (u "/") p) with ([] ++ 47%N :: join (u "/") p).
  rewrite split_on_app by apply not_elem_of_nil. rewrite filter_cons_False by naive_solver.
  destruct (decide (p = [])) as [->|Hne]; [done|]. rewrite split_on_join by done.
  clear Hne. induction Hp as [|c p (? & ? & _) _ IH]; [done|]. rewrite filter_cons_True by done. by rewrite IH.
Qed.

Lemma path_join_str cwd p : clean_path p -> path_join cwd (path_str p) = p.
Proof.
  intros Hp. change (path_join cwd (path_str p)) with (path_components (path_str p)).
  by apply path_components_str.
Qed.

Lemma path_name_plain l : clean_path l -> l ≠ [] -> plain (path_name l).
Proof.
  intros Hl Hne. rewrite (path_eta l Hne) in Hl. unfold child in Hl. apply Forall_app in Hl as [_ Hl].
  by inversion Hl.
Qed.

(** * Suffixes *)

Lemma last_dot_stem stem : stem ≠ [] -> stem_of_name (stem ++ u ".parquet") = stem.
Proof.
  intros Hs. unfold stem_of_name. rewrite reverse_app.
  assert (Hp : forall a b, 46%N ∉ a -> partition_on 46 (a ++ 46%N :: b) = Some (a, b)).
  { induction a as [|c a IH]; intros b Ha; simpl; [done|].
    rewrite (proj2 (N.eqb_neq c 46)) by set_solver. rewrite IH by set_solver. done. }
  change (reverse (u ".parquet")) with (reverse (u "parquet") ++ [46%N]). rewrite <- app_assoc. change ([46%N] ++ ?x) with (46%N :: x).
  rewrite Hp by by_evaluation.
  rewrite bool_decide_eq_false_2; [by rewrite reverse_involutive|].
  intros [H|H]; [by apply (f_equal length) in H|]. apply (f_equal length) in H. rewrite length_reverse in H. by destruct stem.
Qed.

(** * Listing a directory *)

Lemma elem_of_iterdir p q t : q ∈ iterdir p t <-> exists name, q = child p name /\ t !! q ≠ None.
Proof.
  unfold iterdir. rewrite list_elem_of_fmap. split.
  - intros (name & -> & Hq). rewrite elem_of_sorted_strs in Hq.
    apply list_elem_of_omap in Hq as ([x n] & Hin & Hx). simpl in Hx.
    destruct (relative_to x p) as [[|name' []]|] eqn:E; simplify_eq. apply relative_to_spec in E. subst.
    apply elem_of_map_to_list in Hin. exists name. split; [done|]. unfold child. by rewrite Hin.
  - intros (name & -> & Hn). exists name. split; [done|]. rewrite elem_of_sorted_strs.
    destruct (t !! child p name) as [n|] eqn:E; [|done].
    apply list_elem_of_omap. exists (child p name, n). split; [by apply elem_of_map_to_list|].
    simpl. unfold child. by rewrite relative_to_app.
Qed.

(** * Directories that are there *)

Lemma mkdir_existing p s o s' :
  Forall (fun q => tree s !! q = Some Dir) (prefixes p) -> mkdir p s = (o, s') -> tree s' = tree s.
Proof.
  intros H E. apply primitive_cases in E as [(? & _ & ?)|E]; [done|].
  rewrite mkdirs_all_dirs in E by done. by simplify_eq.
Qed.
