(* ===== verification/LinkTransaction.v ===== *)
(** Ordered, journaled replacement of files ([pipeline/_link_migration/transaction.py]): backups,
    a journal, the replacements in order, and the recovery of an interrupted transaction. *)
From stdpp Require Import sorting.
From S2P Require Import Prelude Py PyStr PyText Fs Artifacts Atomic.

Definition TRANSACTION_VERSION : str := u "link-migration-transaction-v1".

Record TransactionEntry := {
  te_target : path; te_staged : path; te_backup : option path; te_existed : bool;
  te_original_hash : str; te_staged_hash : str }.

(** [path.unlink()]: a missing file is an error. *)
Definition unlink_existing (p : path) : PyM FsState unit :=
  primitive (fun t => match t !! p with
                      | None => (Raise not_found, t)
                      | Some Dir => (Raise os_error, t)
                      | Some (File _) => (Ok tt, delete p t)
                      end).

(** [path.rmdir()]. *)
Definition rmdir_tree (p : path) (t : gmap path node) : outcome unit * gmap path node :=
  match t !! p with
  | None => (Raise not_found, t)
  | Some (File _) => (Raise os_error, t)
  | Some Dir =>
      if bool_decide (iterdir p t = []) then (Ok tt, delete p t) else (Raise os_error, t)
  end.
Definition rmdir (p : path) : PyM FsState unit := primitive (rmdir_tree p).

(** [shutil.move(src, dst)] of a file: a rename, or a copy when the rename fails. *)
Definition shutil_move (src dst : path) : PyM FsState unit :=
  into <- gets (fun s => is_dir dst (tree s));;
  let real_dst := if into : bool then child dst (path_name src) else dst in
  taken <- gets (fun s => into && path_exists real_dst (tree s));;
  if taken : bool
  then throw (exc (CUser (u "Error") COSError)
                [FStr (u "Destination path '" ++ path_str real_dst ++ u "' already exists")])
  else try_except (os_replace src real_dst)
         (fun e => if isinstance e COSError
                   then Some (copy_file src real_dst;; unlink_existing src) else None).

Section Transaction.
Context {RT : Runtime} {FF : FileFormats}.
Variable temporary_middle : gmap path node -> path -> str.
Variable cwd : path.
Abbreviation M := (PyM FsState).

(** * Paths stay inside the data root *)

Definition escapes (name : str) (p : path) : exn :=
  exc CRuntimeError [FStr (u "Link migration journal " ++ name ++ u " path escapes the data root: " ++ path_str p)].

(** [_ensure_recovery_entry_within_root]: the entry that would be changed, without following it. *)
Definition ensure_entry_within_root (p : path) (name : str) (data_root : path) : outcome unit :=
  let entry_path := resolve (resolve (path_parent p) ++ drop (length (path_parent p)) p) in
  raise_if (bool_decide (relative_to entry_path data_root = None)) (escapes name p).

(** [_ensure_recovery_path_within_root(str(p), ...)]; a path object is read back from its text. *)
Definition ensure_within_root (p : path) (name : string) (data_root : path) : outcome unit :=
  let root := resolve data_root in
  _ ← ensure_entry_within_root p (u name) root;
  raise_if (bool_decide (relative_to (resolve p) root = None)) (escapes (u name) p).

(** [_ensure_recovery_journal_directory_has_no_symlinks]; absolute paths are their own
    [absolute()]. *)
Definition ensure_no_symlinks (directory data_root : path) : outcome unit :=
  match relative_to directory data_root, relative_to (resolve directory) (resolve data_root) with
  | Some lexical, Some resolved =>
      raise_if (bool_decide (lexical = []) || negb (bool_decide (lexical = resolved)))
        (exc CRuntimeError [FStr (u "Link migration journal directory cannot contain symlinks: " ++
                                  path_str directory)])
  | _, _ => Raise (exc CRuntimeError [FStr (u "Link migration journal directory escapes the data root: " ++
                                            path_str directory)])
  end.

Definition validate_replacement_targets (replacements : list (path * path)) (data_root : path) : outcome unit :=
  _ ← raise_if (negb (bool_decide (NoDup replacements.*1)))
        (exc CValueError (msg "Link migration transaction contains duplicate targets"));
  fold_outcome (fun _ ts =>
    _ ← ensure_within_root ts.1 "target" data_root;
    ensure_within_root ts.2 "staged" data_root) tt replacements.

(** * Hashes *)

(** [file_content_hash]: empty for anything but a regular file. *)
Definition file_content_hash (p : path) (t : gmap path node) : str :=
  match t !! p with Some (File c) => sha256_hexdigest (content_bytes c) | _ => [] end.
Definition file_matches_hash (p : path) (expected : str) (t : gmap path node) : bool :=
  is_file p t && str_eqb (file_content_hash p t) expected.

(** * Preparing *)

(** The sort key of the replacements: JSON files last, then by path. *)
Definition is_json (p : path) : bool :=
  endswith (u ".json") (path_name p) && (5 <? length (path_name p))%nat.
Definition replacement_leb (a b : path * path) : bool :=
  if bool_decide (is_json a.1 = is_json b.1) then str_leb (path_str a.1) (path_str b.1)
  else is_json b.1.
Definition replacement_le (a b : path * path) : Prop := replacement_leb a b = true.
#[local] Instance replacement_le_dec : RelDecision replacement_le.
Proof. intros a b. unfold replacement_le. apply _. Defined.
Definition ordered_replacements (replacements : list (path * path)) : list (path * path) :=
  merge_sort replacement_le replacements.

Definition backup_path (directory target : path) : path := child directory (path_name target ++ u ".backup").

(** [_prepare_entry]. *)
Definition prepare_entry (directory target staged data_root : path) : M TransactionEntry :=
  lift (ensure_within_root target "target" data_root);;
  lift (ensure_within_root staged "staged" data_root);;
  present <- gets (fun s => is_file staged (tree s));;
  if negb present
  then throw (exc CFileNotFoundError [FStr (u "Staged link migration file is missing: " ++ path_str staged)])
  else
    let backup := backup_path directory target in
    lift (ensure_within_root backup "backup" data_root);;
    existed <- gets (fun s => is_file target (tree s));;
    (if existed : bool then copy_file target backup else ret tt);;
    original <- gets (fun s => if existed : bool then file_content_hash target (tree s) else []);;
    staged_hash <- gets (fun s => file_content_hash staged (tree s));;
    ret {| te_target := target; te_staged := staged; te_backup := if existed : bool then Some backup else None;
           te_existed := existed; te_original_hash := original; te_staged_hash := staged_hash |}.

Fixpoint prepare_entries (directory data_root : path) (ordered : list (path * path))
    : M (list TransactionEntry) :=
  match ordered with
  | [] => ret []
  | (target, staged) :: ordered =>
      e <- prepare_entry directory target staged data_root;;
      es <- prepare_entries directory data_root ordered;;
      ret (e :: es)
  end.

Definition journal_entry (e : TransactionEntry) : pydict :=
  [(u "target", VStr (path_str (te_target e))); (u "staged", VStr (path_str (te_staged e)));
   (u "backup", VStr match te_backup e with Some b => path_str b | None => [] end);
   (u "existed", VBool (te_existed e)); (u "original_hash", VStr (te_original_hash e));
   (u "staged_hash", VStr (te_staged_hash e))].

Definition prepared_journal (stem : str) (entries : list TransactionEntry) : pydict :=
  [(u "contract_version", VStr TRANSACTION_VERSION); (u "stem", VStr stem);
   (u "phase", VStr (u "prepared")); (u "entries", VList (VDict <$> (journal_entry <$> entries)))].

(** [atomic_write_journal_json]. *)
Definition write_journal (p : path) (journal : pydict) : M unit :=
  atomic_write_json temporary_middle p (VDict journal).

Definition journal_file (directory : path) : path := child directory (u "journal.json").

(** * Applying *)

Definition apply_single (e : TransactionEntry) : M unit :=
  done_ <- gets (fun s => file_matches_hash (te_target e) (te_staged_hash e) (tree s));;
  if done_ : bool then ret tt
  else
    available <- gets (fun s => file_matches_hash (te_staged e) (te_staged_hash e) (tree s));;
    if negb available
    then throw (exc CRuntimeError [FStr (u "Link migration staged file is unavailable: " ++ path_str (te_staged e))])
    else
      mkdir (path_parent (te_target e));;
      existing <- gets (fun s => is_file (te_target e) (tree s));;
      (if existing : bool then os_replace (te_staged e) (te_target e)
       else shutil_move (te_staged e) (te_target e));;
      verified <- gets (fun s => str_eqb (file_content_hash (te_target e) (tree s)) (te_staged_hash e));;
      if negb verified
      then throw (exc CRuntimeError [FStr (u "Link migration verification failed: " ++ path_str (te_target e))])
      else ret tt.

(** The file system and [index_ref]. *)
Abbreviation Run := (FsState * nat)%type.
Definition on_fs {A} (m : M A) : PyM Run A := fun s => let '(o, fs) := m s.1 in (o, (fs, s.2)).

(** [_apply_entries] from entry [i] on. *)
Fixpoint apply_entries (i : nat) (entries : list TransactionEntry)
    (crash_hook : option (nat -> path -> M unit)) : PyM Run unit :=
  match entries with
  | [] => ret tt
  | e :: entries =>
      modify (fun s => (s.1, i));;
      on_fs (apply_single e);;
      on_fs match crash_hook with Some hook => hook i (te_target e) | None => ret tt end;;
      same <- gets (fun s => str_eqb (file_content_hash (te_target e) (tree s.1)) (te_staged_hash e));;
      if negb same
      then throw (exc CRuntimeError [FStr (u "Link migration post-hook hash mismatch for " ++ path_str (te_target e))])
      else apply_entries (S i) entries crash_hook
  end.

(** * Rolling back *)

Definition restore_existing_entry (e : TransactionEntry) : M unit :=
  let unavailable := exc CRuntimeError
    [FStr (u "Link migration backup is unavailable: " ++
           match te_backup e with Some b => path_str b | None => u "None" end)] in
  match te_backup e with
  | None => throw unavailable
  | Some backup =>
      present <- gets (fun s => is_file backup (tree s));;
      if negb present then throw unavailable
      else
        os_replace backup (te_target e);;
        same <- gets (fun s => str_eqb (file_content_hash (te_target e) (tree s)) (te_original_hash e));;
        if negb same
        then throw (exc CRuntimeError [FStr (u "Link migration rollback verification failed: " ++ path_str (te_target e))])
        else ret tt
  end.

Definition rollback_entry (e : TransactionEntry) : M unit :=
  if te_existed e then restore_existing_entry e
  else
    created <- gets (fun s => is_file (te_target e) (tree s));;
    if created : bool then unlink_existing (te_target e) else ret tt.
Definition rollback_entries (entries : list TransactionEntry) : M unit := for_each rollback_entry (reverse entries).

(** * Cleaning up *)

(** [_cleanup_entry]; there are no symbolic links. *)
Definition cleanup_entry (data_root : path) (entry : path) : M unit :=
  file <- gets (fun s => is_file entry (tree s));;
  if file : bool then lift (ensure_within_root entry "cleanup entry" data_root);; unlink_existing entry
  else ret tt.

(** [for entry in directory.iterdir()]. *)
Definition list_directory (directory : path) : M (list path) :=
  reads (fun t => if is_dir directory t then mret (iterdir directory t) else Raise not_found).

Definition cleanup (directory data_root : path) : M unit :=
  let root := resolve data_root in
  lift (ensure_within_root directory "journal directory" root);;
  lift (ensure_no_symlinks directory data_root);;
  files <- list_directory directory;;
  for_each (cleanup_entry root) files;;
  try_except (rmdir directory) (fun e => if isinstance e COSError then Some (ret tt) else None).

(** * A new transaction *)

Definition record_transaction_failure (directory : path) (journal : pydict)
    (entries : list TransactionEntry) (index : nat) (data_root : path) : M unit :=
  if (index =? 0)%nat
  then
    rollback_entries entries;;
    write_journal (journal_file directory) (dset (u "phase") (VStr (u "rolled_back")) journal);;
    cleanup directory data_root
  else
    lift (ensure_within_root (journal_file directory) "journal" data_root);;
    write_journal (journal_file directory)
      (dset (u "interrupted_at_index") (VInt (Z.of_nat index)) (dset (u "phase") (VStr (u "interrupted")) journal)).

(** The [try] block of [_commit_new_transaction]. *)
Definition apply_and_commit (directory : path) (journal : pydict) (entries : list TransactionEntry)
    (data_root : path) (crash_hook : option (nat -> path -> M unit)) : PyM Run unit :=
  apply_entries 0 entries crash_hook;;
  on_fs (lift (ensure_within_root (journal_file directory) "journal" data_root);;
         write_journal (journal_file directory) (dset (u "phase") (VStr (u "committed")) journal)).

Definition commit_new_transaction (directory : path) (stem : str) (ordered : list (path * path))
    (data_root : path) (crash_hook : option (nat -> path -> M unit)) : M unit :=
  lift (ensure_no_symlinks directory data_root);;
  lift (ensure_within_root (journal_file directory) "journal" data_root);;
  entries <- prepare_entries directory data_root ordered;;
  let journal := prepared_journal stem entries in
  write_journal (journal_file directory) journal;;
  (fun fs =>
     let '(o, (fs, _)) :=
       on_error (apply_and_commit directory journal entries data_root crash_hook)
         (fun s => on_fs (record_transaction_failure directory journal entries s.2 data_root) s) (fs, 0%nat) in
     (o, fs));;
  cleanup directory data_root.

(** * Recovery *)

(** [_required_recovery_path] and [_validate_recovery_path]. *)
Definition required_recovery_path (entry : pydict) (name : string) (data_root : path) : outcome path :=
  match dget_none (u name) entry with
  | VStr (c :: r) =>
      let p := path_join cwd (c :: r) in
      _ ← ensure_within_root p name data_root; mret p
  | _ => Raise (exc CRuntimeError [FStr (u "Invalid link migration journal " ++ u name ++ u " path")])
  end.
Definition validate_recovery_path (entry : pydict) (name : string) (data_root : path)
    : outcome (option path) :=
  if str_eqb (u name) (u "backup") && negb (py_truthy (dget_none (u name) entry)) then mret None
  else p ← required_recovery_path entry name data_root; mret (Some p).

Definition load_recovery_journal (p : path) (stem : str) (data_root : path) (t : gmap path node)
    : outcome pydict :=
  _ ← ensure_within_root p "journal" (resolve data_root);
  value ← read_json p t;
  raw ← as_entry value;
  _ ← raise_if (negb (py_eqb (dget_none (u "contract_version") raw) (VStr TRANSACTION_VERSION)))
        (exc CRuntimeError [FStr (u "Invalid link migration journal: " ++ path_str p)]);
  _ ← raise_if (negb (py_eqb (dget_none (u "stem") raw) (VStr stem)))
        (exc CRuntimeError [FStr (u "Link migration journal stem mismatch: "); FRepr (dget_none (u "stem") raw);
                            FStr (u " vs "); FRepr (VStr stem)]);
  mret raw.

Definition validate_journal_entry (data_root : path) (v : pyval) : outcome unit :=
  match v with
  | VDict entry =>
      _ ← validate_recovery_path entry "target" data_root;
      _ ← validate_recovery_path entry "staged" data_root;
      _ ← validate_recovery_path entry "backup" data_root;
      mret tt
  | _ => Raise (exc CRuntimeError (msg "Invalid link migration journal entry"))
  end.
(** [_validate_recovery_journal_paths]: the entries. *)
Definition validate_recovery_journal_paths (raw : pydict) (data_root : path) : outcome (list pyval) :=
  match default (VList []) (dget (u "entries") raw) with
  | VList entries => _ ← fold_outcome (fun _ => validate_journal_entry data_root) tt entries; mret entries
  | _ => Raise (exc CRuntimeError (msg "Invalid link migration journal entries"))
  end.

Definition remove_recovery_backup (entry : pydict) (data_root : path) : M unit :=
  backup <- lift (validate_recovery_path entry "backup" data_root);;
  existed <- lift (getitem_of "existed" entry);;
  match backup with
  | Some b =>
      present <- gets (fun s => is_file b (tree s));;
      if py_truthy existed && present
      then lift (ensure_within_root b "backup" data_root);; unlink_existing b
      else ret tt
  | None => ret tt
  end.

Definition move_recovery_staged (staged target data_root : path) : M unit :=
  lift (ensure_within_root staged "staged" data_root);;
  lift (ensure_within_root target "target" data_root);;
  existing <- gets (fun s => is_file target (tree s));;
  if existing : bool then os_replace staged target else shutil_move staged target.

Definition prepare_recovery_target (entry : pydict) (target staged data_root : path) : M unit :=
  lift (ensure_within_root target "target" data_root);;
  lift (ensure_within_root staged "staged" data_root);;
  mkdir (path_parent target);;
  remove_recovery_backup entry data_root;;
  move_recovery_staged staged target data_root.

Definition recover_entry (data_root : path) (v : pyval) : M unit :=
  entry <- lift (as_entry v);;
  target <- lift (required_recovery_path entry "target" data_root);;
  staged <- lift (required_recovery_path entry "staged" data_root);;
  hash_value <- lift (getitem_of "staged_hash" entry);;
  let staged_hash := py_str hash_value in
  done_ <- gets (fun s => file_matches_hash target staged_hash (tree s));;
  if done_ : bool then ret tt
  else
    available <- gets (fun s => file_matches_hash staged staged_hash (tree s));;
    if negb available
    then throw (exc CRuntimeError [FStr (u "Link migration recovery: staged file unavailable: " ++ path_str staged)])
    else
      prepare_recovery_target entry target staged data_root;;
      verified <- gets (fun s => str_eqb (file_content_hash target (tree s)) staged_hash);;
      if negb verified
      then throw (exc CRuntimeError [FStr (u "Link migration recovery verification failed: " ++ path_str target)])
      else ret tt.

Definition recover_directory (directory : path) (stem : str) (data_root : path) : M unit :=
  let root := resolve data_root in
  lift (ensure_within_root directory "journal directory" root);;
  lift (ensure_no_symlinks directory data_root);;
  lift (ensure_within_root (journal_file directory) "journal" root);;
  present <- gets (fun s => is_file (journal_file directory) (tree s));;
  if negb present then ret tt
  else
    raw <- reads (load_recovery_journal (journal_file directory) stem root);;
    entries <- lift (validate_recovery_journal_paths raw root);;
    for_each (recover_entry root) entries;;
    cleanup directory data_root.

(** [commit_ordered_replacements]. *)
Definition commit_ordered_replacements (directory : path) (stem : str) (replacements : list (path * path))
    (data_root : path) (crash_hook : option (nat -> path -> M unit)) : M unit :=
  match replacements with
  | [] => ret tt
  | _ =>
      let root := resolve data_root in
      lift (ensure_within_root directory "journal directory" root);;
      lift (ensure_no_symlinks directory data_root);;
      lift (validate_replacement_targets replacements root);;
      let ordered := ordered_replacements replacements in
      mkdir directory;;
      lift (ensure_within_root (journal_file directory) "journal" root);;
      interrupted <- gets (fun s => path_exists (journal_file directory) (tree s));;
      if interrupted : bool then recover_directory directory stem data_root
      else commit_new_transaction directory stem ordered data_root crash_hook
  end.
End Transaction.
