(* ===== verification/LinkTransactionProofs.v ===== *)
(** What the journaled transaction guarantees: a commit that returns has installed every staged
    file, and an interrupted one is completed by the next call. *)
From S2P Require Import Prelude Py PyStr PyText Fs Keeps Artifacts Paths Atomic LinkTransaction.

Section Proofs.
Context {RT : Runtime} {FF : FileFormats}.

(** * Entries that can still be applied *)

(** A regular file with that hash. *)
Definition holds (t : gmap path node) (p : path) (h : str) : Prop :=
  exists c, t !! p = Some (File c) /\ sha256_hexdigest (content_bytes c) = h.

Lemma file_matches_holds p h t : file_matches_hash p h t = true <-> holds t p h.
Proof.
  unfold file_matches_hash, is_file, file_content_hash, holds.
  destruct (t !! p) as [[c|]|]; simpl; split; try done; try (by intros (? & ? & _)).
  - destruct (str_eqb_spec (sha256_hexdigest (content_bytes c)) h); [eauto|done].
  - intros (c' & [= <-] & ->). apply str_eqb_refl.
Qed.

Lemma hash_holds p h t : holds t p h -> str_eqb (file_content_hash p t) h = true.
Proof. intros (c & Hc & Hh). unfold file_content_hash. rewrite Hc, Hh. apply str_eqb_refl. Qed.

(** Either the target has the staged content already, or the staged file is still there; and the
    target can be written. *)
Record resumable (t : gmap path node) (e : TransactionEntry) : Prop := {
  re_file : holds t (te_target e) (te_staged_hash e) \/ holds t (te_staged e) (te_staged_hash e);
  re_target : t !! te_target e ≠ Some Dir;
  re_parent : Forall (fun q => t !! q = Some Dir) (prefixes (path_parent (te_target e))) }.

(** What one step of an entry does to the tree. *)
Definition moved (e : TransactionEntry) (t t' : gmap path node) : Prop :=
  t' = t \/ exists c, t !! te_staged e = Some (File c) /\ sha256_hexdigest (content_bytes c) = te_staged_hash e /\
    t !! te_target e ≠ Some Dir /\
    (t' = <[te_target e := File c]> (delete (te_staged e) t) \/ t' = <[te_target e := File c]> t).

Lemma moved_dir e t t' q : moved e t t' -> t !! q = Some Dir -> t' !! q = Some Dir.
Proof.
  intros [->|(c & Hs & _ & Ht & Hm)] Hq; [done|].
  assert (q ≠ te_target e) by congruence. assert (q ≠ te_staged e) by congruence.
  by destruct Hm as [->| ->]; rewrite lookup_insert_ne, ?lookup_delete_ne.
Qed.

Lemma moved_other e t t' q : moved e t t' -> q ≠ te_target e -> q ≠ te_staged e -> t' !! q = t !! q.
Proof.
  intros [->|(c & _ & _ & _ & Hm)] H1 H2; [done|].
  by destruct Hm as [->| ->]; rewrite lookup_insert_ne, ?lookup_delete_ne.
Qed.

Lemma moved_target e t t' : moved e t t' -> holds t (te_target e) (te_staged_hash e) -> holds t' (te_target e) (te_staged_hash e).
Proof.
  intros [->|(c & _ & Hh & _ & Hm)] H; [done|]. exists c. split; [|done].
  by destruct Hm as [->| ->]; rewrite lookup_insert_eq.
Qed.

Lemma moved_resumable e t t' : moved e t t' -> resumable t e -> resumable t' e.
Proof.
  intros Hm [Hf Ht Hp]. split.
  - destruct Hm as [->|(c & _ & Hh & _ & Hm)]; [done|]. left. exists c. split; [|done].
    by destruct Hm as [->| ->]; rewrite lookup_insert_eq.
  - destruct Hm as [->|(c & _ & _ & _ & Hm)]; [done|]. by destruct Hm as [->| ->]; rewrite lookup_insert_eq.
  - eapply Forall_impl; [exact Hp|]. intros q. by apply moved_dir with e.
Qed.

(** * Entries do not interfere *)

(** Every target and every staged file is a path of its own. *)
Definition separate (entries : list TransactionEntry) : Prop :=
  NoDup ((te_target <$> entries) ++ (te_staged <$> entries)).

Lemma separate_apart entries e e' :
  separate entries -> e ∈ entries -> e' ∈ entries -> e = e' \/
  te_target e' ≠ te_target e /\ te_target e' ≠ te_staged e /\ te_staged e' ≠ te_target e /\ te_staged e' ≠ te_staged e.
Proof.
  intros (Ht & Hts & Hs)%NoDup_app He He'. assert (Hcross : forall x y, x ∈ entries -> y ∈ entries -> te_target x ≠ te_staged y).
  { intros x y Hx Hy E. apply (Hts (te_target x)); [by apply list_elem_of_fmap_2|].
    rewrite E. by apply list_elem_of_fmap_2. }
  destruct (decide (te_target e' = te_target e)) as [E|Hne].
  { left. symmetry. eapply (NoDup_fmap_eq te_target); eauto. }
  destruct (decide (te_staged e' = te_staged e)) as [E|Hne'].
  { left. symmetry. eapply (NoDup_fmap_eq te_staged); eauto. }
  right. split_and!; auto. intros E. by apply (Hcross e e').
Qed.

Lemma separate_self entries e : separate entries -> e ∈ entries -> te_target e ≠ te_staged e.
Proof.
  intros (_ & Hts & _)%NoDup_app He E. apply (Hts (te_target e)); [by apply list_elem_of_fmap_2|].
  rewrite E. by apply list_elem_of_fmap_2.
Qed.

Lemma moved_all_resumable entries e t t' :
  separate entries -> e ∈ entries -> moved e t t' -> Forall (resumable t) entries -> Forall (resumable t') entries.
Proof.
  intros Hsep He Hm Hall. rewrite Forall_forall in *. intros e' He'. specialize (Hall e' He').
  destruct (separate_apart _ _ _ Hsep He He') as [<-|(H1 & H2 & H3 & H4)]; [by eapply moved_resumable|].
  destruct Hall as [Hf Ht Hp]. split.
  - unfold holds in *. by rewrite (moved_other e t t' (te_target e')), (moved_other e t t' (te_staged e')).
  - by rewrite (moved_other e t t' (te_target e')).
  - eapply Forall_impl; [exact Hp|]. intros q. by apply moved_dir with e.
Qed.

Lemma moved_installed entries e e' t t' :
  separate entries -> e ∈ entries -> e' ∈ entries -> moved e t t' ->
  holds t (te_target e') (te_staged_hash e') -> holds t' (te_target e') (te_staged_hash e').
Proof.
  intros Hsep He He' Hm H. destruct (separate_apart _ _ _ Hsep He He') as [<-|(H1 & H2 & _)]; [by eapply moved_target|].
  unfold holds. by rewrite (moved_other e t t' (te_target e')).
Qed.

(** * Applying *)

(** A step of an entry that has its target in place when it returns. *)
Definition moves (e : TransactionEntry) (t : gmap path node) (o : outcome unit) (t' : gmap path node) : Prop :=
  moved e t t' /\ (o = Ok tt -> holds t' (te_target e) (te_staged_hash e)).

Lemma moves_nothing e t x t' : t' = t -> moves e t (Raise x) t'.
Proof. intros ->. split; [by left|done]. Qed.

Lemma moves_file e t o t' c :
  t !! te_staged e = Some (File c) -> sha256_hexdigest (content_bytes c) = te_staged_hash e ->
  t !! te_target e ≠ Some Dir ->
  t' = <[te_target e := File c]> (delete (te_staged e) t) \/ t' = <[te_target e := File c]> t ->
  moves e t o t'.
Proof.
  intros Hs Hh Hd Hm. split; [right; by exists c|]. intros _. exists c. split; [|done].
  by destruct Hm as [->| ->]; rewrite lookup_insert_eq.
Qed.

Lemma os_replace_moves e s o s' :
  tree s !! te_target e ≠ Some Dir -> holds (tree s) (te_staged e) (te_staged_hash e) ->
  os_replace (te_staged e) (te_target e) s = (o, s') -> moves e (tree s) o (tree s').
Proof.
  intros Hdir (c & Hc & Hh) E. apply primitive_cases in E as [(x & -> & ?)|E]; [by apply moves_nothing|].
  unfold replace_tree in E. rewrite Hc in E. destruct (negb _); [injection E as <- E; by apply moves_nothing|].
  destruct (tree s !! te_target e) as [[]|] eqn:Et; injection E as <- E;
    [..|]; try (by apply moves_nothing); apply (moves_file e _ _ _ c); try congruence; by left.
Qed.

Lemma shutil_move_moves e s o s' :
  te_target e ≠ te_staged e -> te_target e ≠ [] -> tree s !! te_target e ≠ Some Dir ->
  holds (tree s) (te_staged e) (te_staged_hash e) ->
  shutil_move (te_staged e) (te_target e) s = (o, s') -> moves e (tree s) o (tree s').
Proof.
  intros Hne Hroot Hdir Hs E. pose proof Hs as (c & Hc & Hh). unfold shutil_move, pbind, gets in E.
  assert (Hd : is_dir (te_target e) (tree s) = false).
  { unfold is_dir. rewrite bool_decide_false by done. by destruct (tree s !! te_target e) as [[]|]. }
  rewrite Hd in E. simpl in E. unfold try_except in E.
  destruct (os_replace (te_staged e) (te_target e) s) as [[[]|x] s1] eqn:E1.
  { simplify_eq. by eapply os_replace_moves. }
  assert (H1 : tree s1 = tree s).
  { apply primitive_cases in E1 as [(? & _ & ?)|E1]; [done|]. unfold replace_tree in E1. rewrite Hc in E1.
    by repeat case_match; simplify_eq. }
  destruct (isinstance x COSError); [|simplify_eq; by apply moves_nothing].
  destruct (copy_file (te_staged e) (te_target e) s1) as [o2 s2] eqn:E2.
  assert (H2 : (exists y, o2 = Raise y) /\ tree s2 = tree s \/ o2 = Ok tt /\ tree s2 = <[te_target e := File c]> (tree s)).
  { apply primitive_cases in E2 as [(y & -> & ?)|E2]; [left; split; [eauto|congruence]|].
    unfold copy_tree in E2. rewrite H1, Hc in E2.
    apply write_tree_cases in E2 as [(y & -> & ->)|(-> & _ & _ & ?)]; [left; eauto|by right]. }
  destruct H2 as [[[y ->] H2]|[-> H2]]; [simplify_eq; by apply moves_nothing|].
  apply (moves_file e _ _ _ c); [done..|]. apply primitive_cases in E as [(? & _ & E)|E]; [right; congruence|].
  rewrite H2, lookup_insert_ne, Hc in E by done. injection E as _ E. left. rewrite <- E. by apply delete_insert_ne.
Qed.

Lemma apply_single_moves e s o s' :
  te_target e ≠ te_staged e -> te_target e ≠ [] -> resumable (tree s) e ->
  apply_single e s = (o, s') -> moves e (tree s) o (tree s').
Proof.
  intros Hne Hroot [Hf Hdir Hp] E. unfold apply_single, pbind at 1, gets at 1 in E.
  destruct (file_matches_hash (te_target e) (te_staged_hash e) (tree s)) eqn:Et.
  { unfold ret in E. simplify_eq. split; [by left|]. intros _. by apply file_matches_holds. }
  unfold pbind at 1, gets at 1 in E. destruct (file_matches_hash (te_staged e) _ _) eqn:Es; simpl in E.
  2: { unfold throw in E. simplify_eq. by apply moves_nothing. }
  apply file_matches_holds in Es. unfold pbind at 1 in E.
  destruct (mkdir (path_parent (te_target e)) s) as [[[]|x] s1] eqn:E1; pose proof (mkdir_existing _ _ _ _ Hp E1) as H1.
  2: { simplify_eq. by apply moves_nothing. }
  rewrite <- H1 in *. unfold pbind at 1, gets at 1 in E. unfold pbind at 1 in E.
  destruct ((if is_file (te_target e) (tree s1) then os_replace (te_staged e) (te_target e)
             else shutil_move (te_staged e) (te_target e)) s1) as [o2 s2] eqn:E2.
  assert (Hm : moves e (tree s1) o2 (tree s2)).
  { destruct (is_file (te_target e) (tree s1)); [by eapply os_replace_moves|by eapply shutil_move_moves]. }
  destruct o2 as [[]|x]; [|by simplify_eq]. destruct Hm as [Hm Hh]. specialize (Hh eq_refl).
  unfold pbind, gets in E. rewrite (hash_holds _ _ _ Hh) in E. simpl in E. unfold ret in E. by simplify_eq.
Qed.

(** A hook that changes nothing; it may raise, which is how a crash is simulated. *)
Definition quiet (crash_hook : option (nat -> path -> PyM FsState unit)) : Prop :=
  forall hook, crash_hook = Some hook -> forall i p s, (hook i p s).2 = s.

Definition installed (t : gmap path node) (e : TransactionEntry) : Prop := holds t (te_target e) (te_staged_hash e).

(** Wherever applying stops, every entry can still be applied, and nothing but targets and staged
    files changed; when it returns, every target is in place. *)
Lemma apply_entries_resumable entries rest hook i s o s' :
  separate entries -> Forall (fun e => te_target e ≠ []) entries -> quiet hook ->
  Forall (resumable (tree s.1)) entries -> (forall e, e ∈ rest -> e ∈ entries) ->
  apply_entries i rest hook s = (o, s') ->
  Forall (resumable (tree s'.1)) entries /\
  (forall q, q ∉ te_target <$> entries -> q ∉ te_staged <$> entries -> tree s'.1 !! q = tree s.1 !! q) /\
  (forall q, tree s.1 !! q = Some Dir -> tree s'.1 !! q = Some Dir) /\
  (forall e, e ∈ entries -> installed (tree s.1) e -> installed (tree s'.1) e) /\
  (o = Ok tt -> Forall (installed (tree s'.1)) rest).
Proof.
  intros Hsep Hroot Hq. revert i s. induction rest as [|e rest IH]; intros i s Hall Hin E; simpl in E.
  { unfold ret in E. simplify_eq. by split_and!. }
  assert (He : e ∈ entries) by (apply Hin; left).
  unfold pbind at 1, modify at 1 in E. unfold pbind at 1, on_fs at 1 in E. simpl in E.
  destruct (apply_single e s.1) as [o1 s1] eqn:E1.
  assert (Hm : moves e (tree s.1) o1 (tree s1)).
  { rewrite Forall_forall in Hall, Hroot. eapply apply_single_moves; [by eapply separate_self|by apply Hroot|by apply Hall|done]. }
  destruct Hm as [Hm Hi].
  assert (Hall1 : Forall (resumable (tree s1)) entries) by (by eapply moved_all_resumable).
  assert (Hstep : forall s2, tree s2 = tree s1 ->
    (forall q, q ∉ te_target <$> entries -> q ∉ te_staged <$> entries -> tree s2 !! q = tree s.1 !! q) /\
    (forall q, tree s.1 !! q = Some Dir -> tree s2 !! q = Some Dir) /\
    (forall e', e' ∈ entries -> installed (tree s.1) e' -> installed (tree s2) e')).
  { intros s2 ->. split_and!.
    - intros q H1 H2. eapply moved_other; [done|..]; intros ->; [apply H1|apply H2]; by apply list_elem_of_fmap_2.
    - intros q. by apply moved_dir with e.
    - intros e' He' Hi'. exact (moved_installed _ _ _ _ _ Hsep He He' Hm Hi'). }
  destruct o1 as [[]|x]; [|simplify_eq; destruct (Hstep s1 eq_refl) as (?&?&?); by split_and!].
  unfold pbind at 1, on_fs at 1 in E. simpl in E.
  assert (Hhook : exists o2, (match hook with Some hook => hook i (te_target e) | None => ret tt end) s1 = (o2, s1)).
  { destruct hook as [hook|]; [|by exists (Ok tt)]. specialize (Hq hook eq_refl i (te_target e) s1).
    destruct (hook i (te_target e) s1) as [o2 s2]. simpl in Hq. subst. eauto. }
  destruct Hhook as [o2 Ho2]. rewrite Ho2 in E.
  destruct o2 as [[]|x]; [|simplify_eq; destruct (Hstep s1 eq_refl) as (?&?&?); by split_and!].
  unfold pbind, gets in E. simpl in E. rewrite (hash_holds _ _ _ (Hi eq_refl)) in E. simpl in E.
  apply IH in E as (H1 & H2 & H3 & H4 & H5); [|done|intros; apply Hin; by right].
  destruct (Hstep s1 eq_refl) as (G1 & G2 & G3). split_and!; [done| | | |].
  - intros q ? ?. rewrite H2 by done. by apply G1.
  - intros q ?. by apply H3, G2.
  - intros e' ? ?. by apply H4, G3.
  - intros Hok. constructor; [|by apply H5]. apply H4; [done|]. by apply Hi.
Qed.
End Proofs.
