(* ===== verification/LinkRecovery.v ===== *)
(** Recovery of an interrupted transaction: run on a file system without faults, the next call
    completes it. *)
From S2P Require Import Prelude Py PyStr PyText Fs Keeps Calm Artifacts Paths Atomic LinkTransaction LinkTransactionProofs.

(** * Where the files of a transaction are *)

Definition no_dots (p : path) : Prop := u ".." ∉ p.

(** A path inside the data root and outside the journal directory. *)
Record located (root directory p : path) : Prop := {
  lo_clean : clean_path p;
  lo_dots : no_dots p;
  lo_inside : exists y, y ≠ [] /\ p = root ++ y;
  lo_outside : relative_to p directory = None }.

Record layout (root directory : path) (entries : list TransactionEntry) : Prop := {
  la_directory : exists x, x ≠ [] /\ directory = root ++ x;
  la_directory_clean : clean_path directory;
  la_directory_dots : no_dots directory;
  la_targets : Forall (fun e => located root directory (te_target e)) entries;
  la_staged : Forall (fun e => located root directory (te_staged e)) entries;
  la_backups : Forall (fun e => forall b, te_backup e = Some b -> b = backup_path directory (te_target e)) entries;
  la_separate : separate entries }.

Lemma parent_drop (p : path) : path_parent p ++ drop (length (path_parent p)) p = p.
Proof.
  destruct p as [|c p _] using rev_ind; [done|]. unfold path_parent. rewrite removelast_last.
  by rewrite drop_app_length.
Qed.

Lemma no_dots_app p q : no_dots (p ++ q) <-> no_dots p /\ no_dots q.
Proof. unfold no_dots. rewrite not_elem_of_app. done. Qed.

Lemma ensure_within_root_inside root y name :
  no_dots (root ++ y) -> ensure_within_root (root ++ y) name root = Ok tt.
Proof.
  intros Hp. pose proof Hp as [Hr _]%no_dots_app. unfold ensure_within_root, ensure_entry_within_root.
  pose proof Hp as Hparts. rewrite <- (parent_drop (root ++ y)) in Hparts. apply no_dots_app in Hparts as [Hd _].
  rewrite (resolve_id (path_parent _) Hd), parent_drop, (resolve_id root Hr), (resolve_id _ Hp), relative_to_app.
  by rewrite bool_decide_false.
Qed.

Section Recovery.
Context {RT : Runtime} {FF : FileFormats}.
Context (temporary_middle : gmap path node -> path -> str) (cwd root directory : path).

Lemma located_ensure p name : located root directory p -> ensure_within_root p name root = Ok tt.
Proof. intros [_ Hd (y & _ & ->) _]. by apply ensure_within_root_inside. Qed.

Lemma located_ne p : located root directory p -> p ≠ [].
Proof. intros [_ _ (y & Hy & ->) _] [_ ?]%app_nil. done. Qed.

Section Entries.
Context (entries : list TransactionEntry) (Hlay : layout root directory entries).

Lemma directory_dots : no_dots root /\ no_dots directory.
Proof.
  destruct Hlay as [(x & _ & ->) _ Hd _ _ _ _]. split; [|done]. by apply no_dots_app in Hd as [? _].
Qed.

Lemma inside_directory x name : no_dots x -> ensure_within_root (directory ++ x) name root = Ok tt.
Proof.
  intros Hx. destruct directory_dots as [_ Hd]. destruct Hlay as [(y & _ & Hy) _ _ _ _ _ _].
  rewrite Hy, <- app_assoc. apply ensure_within_root_inside. rewrite app_assoc, <- Hy. by apply no_dots_app.
Qed.

Lemma ensure_directory name : ensure_within_root directory name root = Ok tt.
Proof. rewrite <- (app_nil_r directory). by apply inside_directory, not_elem_of_nil. Qed.

Lemma directory_no_symlinks : ensure_no_symlinks directory root = Ok tt.
Proof.
  destruct directory_dots as [Hr Hd]. destruct Hlay as [(x & Hx & E) _ _ _ _ _ _].
  unfold ensure_no_symlinks. rewrite (resolve_id _ Hr), (resolve_id _ Hd), E, relative_to_app.
  by rewrite bool_decide_false, bool_decide_true.
Qed.

Lemma journal_ensure name : ensure_within_root (journal_file directory) name root = Ok tt.
Proof. apply (inside_directory [u "journal.json"]). intros H%list_elem_of_singleton. by vm_compute in H. Qed.

(** * Paths of the journal *)

Lemma required_path_journal (entry : pydict) name p :
  dget (u name) entry = Some (VStr (path_str p)) -> clean_path p -> ensure_within_root p name root = Ok tt ->
  required_recovery_path cwd entry name root = Ok p.
Proof.
  intros Hg Hp Hi. pose proof (path_join_str cwd p Hp) as E. unfold required_recovery_path, dget_none. rewrite Hg.
  change (default VNone (Some (VStr (path_str p)))) with (VStr (path_str p)).
  destruct (path_str p) as [|c r] eqn:Ep; [done|]. cbv zeta. rewrite E. cbn. by rewrite Hi.
Qed.

Context (e : TransactionEntry) (He : e ∈ entries).

Lemma entry_target : located root directory (te_target e).
Proof. destruct Hlay as [_ _ _ H _ _ _]. rewrite Forall_forall in H. by apply H. Qed.
Lemma entry_staged : located root directory (te_staged e).
Proof. destruct Hlay as [_ _ _ _ H _ _]. rewrite Forall_forall in H. by apply H. Qed.
Lemma entry_separate : te_target e ≠ te_staged e.
Proof. eapply separate_self; [apply (la_separate _ _ _ Hlay)|done]. Qed.

Lemma backup_name_plain : plain (path_name (te_target e) ++ u ".backup").
Proof.
  destruct (path_name_plain (te_target e) (lo_clean _ _ _ entry_target) (located_ne _ entry_target)) as (Hne & _ & Hs).
  split_and!.
  - intros [? _]%app_nil. done.
  - intros H. apply (f_equal length) in H. rewrite length_app in H. vm_compute (length (u ".backup")) in H.
    vm_compute (length (u ".")) in H. lia.
  - rewrite not_elem_of_app. split; [done|]. by_evaluation.
Qed.

Lemma entry_backup b : te_backup e = Some b ->
  b = backup_path directory (te_target e) /\ clean_path b /\ forall name, ensure_within_root b name root = Ok tt.
Proof.
  intros Hb. destruct Hlay as [_ Hc _ _ _ H _]. rewrite Forall_forall in H. specialize (H e He b Hb). subst b.
  split_and!; [done| |].
  - unfold backup_path, child, clean_path. apply Forall_app. split; [done|]. constructor; [apply backup_name_plain|done].
  - intros name. apply (inside_directory [_]). intros E%list_elem_of_singleton.
    apply (f_equal length) in E. rewrite length_app in E. vm_compute (length (u ".backup")) in E.
    vm_compute (length (u "..")) in E. lia.
Qed.

Lemma journal_target : required_recovery_path cwd (journal_entry e) "target" root = Ok (te_target e).
Proof.
  apply required_path_journal; [done|apply entry_target|]. apply located_ensure, entry_target.
Qed.
Lemma journal_staged : required_recovery_path cwd (journal_entry e) "staged" root = Ok (te_staged e).
Proof.
  apply required_path_journal; [done|apply entry_staged|]. apply located_ensure, entry_staged.
Qed.
Lemma journal_backup : validate_recovery_path cwd (journal_entry e) "backup" root = Ok (te_backup e).
Proof.
  unfold validate_recovery_path. destruct (te_backup e) as [b|] eqn:Hb.
  - destruct (entry_backup b Hb) as (_ & Hc & Hi).
    rewrite (required_path_journal _ _ b); [|cbn; by rewrite Hb|done|done]. cbn. by rewrite Hb.
  - cbn. by rewrite Hb.
Qed.

Lemma validate_entry : validate_journal_entry cwd root (VDict (journal_entry e)) = Ok tt.
Proof.
  unfold validate_journal_entry. rewrite journal_backup. unfold validate_recovery_path.
  rewrite journal_target, journal_staged. done.
Qed.

(** * Recovering one entry *)

(** The tree with the backup of the entry removed, if it is there and not needed. *)
Definition without_backup (t t' : gmap path node) : Prop :=
  t' = t \/ exists b c, te_backup e = Some b /\ t !! b = Some (File c) /\ t' = delete b t.

Lemma remove_backup_calm s :
  calm s -> calmly (remove_recovery_backup cwd (journal_entry e) root) s (fun _ t' => without_backup (tree s) t').
Proof.
  intros Hc. unfold remove_recovery_backup. eapply calmly_lift_then; [apply journal_backup|].
  eapply calmly_lift_then; [reflexivity|]. destruct (te_backup e) as [b|] eqn:Hb; [|apply calmly_ret; [done|by left]].
  eapply calmly_gets_then; [reflexivity|]. cbn [py_truthy].
  destruct (te_existed e && is_file b (tree s)) eqn:Hf; [|apply calmly_ret; [done|by left]].
  apply andb_true_iff in Hf as [_ Hf]. destruct (entry_backup b Hb) as (_ & _ & Hi).
  eapply calmly_lift_then; [apply Hi|]. unfold is_file in Hf. destruct (tree s !! b) as [[c|]|] eqn:E; [|done..].
  apply (calmly_primitive _ tt); rewrite ?E; [done..|]. right. by exists b, c.
Qed.

Lemma without_backup_other t t' q : without_backup t t' -> relative_to q directory = None -> t' !! q = t !! q.
Proof.
  intros [->|(b & c & Hb & _ & ->)] Hq; [done|]. apply lookup_delete_ne. intros <-.
  destruct (entry_backup b Hb) as (-> & _). unfold backup_path, child in Hq. by rewrite relative_to_app in Hq.
Qed.
Lemma without_backup_dir t t' q : without_backup t t' -> t !! q = Some Dir -> t' !! q = Some Dir.
Proof. intros [->|(b & c & _ & Hbc & ->)] Hq; [done|]. rewrite lookup_delete_ne; [done|congruence]. Qed.

Lemma without_backup_holds t t' p h : without_backup t t' -> relative_to p directory = None -> holds t p h -> holds t' p h.
Proof. intros Hw Hp. unfold holds. by rewrite (without_backup_other _ _ _ Hw Hp). Qed.

Lemma without_backup_resumable t t' e' :
  e' ∈ entries -> without_backup t t' -> resumable t e' -> resumable t' e'.
Proof.
  intros He' Hw [Hf Ht Hp]. destruct Hlay as [_ _ _ Hts Hst _ _]. rewrite Forall_forall in Hts, Hst.
  pose proof (lo_outside _ _ _ (Hts e' He')) as H1. pose proof (lo_outside _ _ _ (Hst e' He')) as H2. split.
  - destruct Hf as [Hf|Hf]; [left|right]; eapply without_backup_holds; eauto.
  - by rewrite (without_backup_other t t').
  - eapply Forall_impl; [exact Hp|]. intros q. by apply without_backup_dir.
Qed.

(** What recovering the entry does to the tree. *)
Definition recovered (t t' : gmap path node) : Prop := exists t1, without_backup t t1 /\ moved e t1 t'.

Lemma move_staged_calm s :
  calm s -> resumable (tree s) e -> holds (tree s) (te_staged e) (te_staged_hash e) ->
  calmly (move_recovery_staged (te_staged e) (te_target e) root) s
    (fun _ t' => moved e (tree s) t' /\ installed t' e).
Proof.
  intros Hc [_ Ht Hp] (c & Hs & Hh). unfold move_recovery_staged.
  eapply calmly_lift_then; [by apply located_ensure, entry_staged|].
  eapply calmly_lift_then; [by apply located_ensure, entry_target|]. eapply calmly_gets_then; [reflexivity|].
  assert (Hmove : calmly (os_replace (te_staged e) (te_target e)) s (fun _ t' => moved e (tree s) t' /\ installed t' e)).
  { apply (calmly_os_replace _ _ c); [done|done|by apply prefixes_is_dir|done|].
    split; [right; exists c; split_and!; [done..|by left]|]. exists c. split; [apply lookup_insert_eq|done]. }
  destruct (is_file (te_target e) (tree s)); [exact Hmove|].
  destruct Hmove as ([] & s4 & E4 & Hc4 & Hq). exists tt, s4. split; [|done].
  unfold shutil_move, pbind, gets. assert (Hd : is_dir (te_target e) (tree s) = false).
  { unfold is_dir. rewrite bool_decide_false by apply (located_ne _ entry_target).
    by destruct (tree s !! te_target e) as [[]|]. }
  rewrite Hd. simpl. unfold try_except. by rewrite E4.
Qed.

Lemma prepare_target_calm s :
  calm s -> resumable (tree s) e -> holds (tree s) (te_staged e) (te_staged_hash e) ->
  calmly (prepare_recovery_target cwd (journal_entry e) (te_target e) (te_staged e) root) s
    (fun _ t' => recovered (tree s) t' /\ installed t' e).
Proof.
  intros Hc Hr Hs. unfold prepare_recovery_target.
  eapply calmly_lift_then; [by apply located_ensure, entry_target|].
  eapply calmly_lift_then; [by apply located_ensure, entry_staged|].
  apply calmly_mkdir_then; [done|by apply Hr|]. intros s1 Hc1 H1.
  eapply calmly_bind; [apply (remove_backup_calm s1 Hc1)|]. intros [] s2 Hc2 H2. simpl in H2. rewrite H1 in H2.
  eapply calmly_impl; [apply (move_staged_calm s2 Hc2); [by eapply without_backup_resumable|]|].
  - eapply without_backup_holds; [exact H2|apply (lo_outside _ _ _ entry_staged)|exact Hs].
  - simpl. intros [] t [Hm Hi]. split; [|done]. by exists (tree s2).
Qed.

Lemma recover_entry_calm s :
  calm s -> resumable (tree s) e ->
  calmly (recover_entry cwd root (VDict (journal_entry e))) s (fun _ t' => recovered (tree s) t' /\ installed t' e).
Proof.
  intros Hc Hr. unfold recover_entry. eapply calmly_lift_then; [reflexivity|].
  eapply calmly_lift_then; [apply journal_target|]. eapply calmly_lift_then; [apply journal_staged|].
  eapply calmly_lift_then; [reflexivity|]. cbn [py_str]. eapply calmly_gets_then; [reflexivity|].
  destruct (file_matches_hash (te_target e) _ _) eqn:Et.
  { apply file_matches_holds in Et. apply calmly_ret; [done|]. split; [|done]. exists (tree s). by split; left. }
  assert (Hs : holds (tree s) (te_staged e) (te_staged_hash e)).
  { destruct (re_file _ _ Hr) as [H|H]; [|done]. apply file_matches_holds in H. congruence. }
  eapply calmly_gets_then; [by apply file_matches_holds|]. cbn [negb].
  eapply calmly_bind; [by apply prepare_target_calm|]. simpl. intros [] s1 Hc1 [Hrec Hi].
  eapply calmly_gets_then; [by apply hash_holds|]. by apply calmly_ret.
Qed.
End Entries.

(** * Recovering all entries *)

Section All.
Context (entries : list TransactionEntry) (Hlay : layout root directory entries).

Lemma recovered_frame e t t' :
  e ∈ entries -> recovered e t t' ->
  (Forall (resumable t) entries -> Forall (resumable t') entries) /\
  (forall e', e' ∈ entries -> installed t e' -> installed t' e') /\
  (forall q, t !! q = Some Dir -> t' !! q = Some Dir) /\
  (forall q, relative_to q directory ≠ None -> t' !! q ≠ None -> t !! q ≠ None).
Proof.
  intros He (t1 & Hw & Hm). pose proof (la_separate _ _ _ Hlay) as Hsep. split_and!.
  - intros Hall. eapply moved_all_resumable; [done|done|exact Hm|]. rewrite Forall_forall in *.
    intros e' He'. eapply (without_backup_resumable entries Hlay e He); eauto.
  - intros e' He' Hi. eapply (moved_installed entries e e'); eauto.
    eapply (without_backup_holds entries Hlay e He); [done| |done].
    apply (lo_outside root directory). by apply (entry_target entries Hlay).
  - intros q Hq. eapply moved_dir; [done|]. by eapply without_backup_dir.
  - intros q Hq Hn.
    assert (q ≠ te_target e /\ q ≠ te_staged e) as [H1 H2].
    { pose proof (lo_outside _ _ _ (entry_target entries Hlay e He)).
      pose proof (lo_outside _ _ _ (entry_staged entries Hlay e He)). split; intros ->; congruence. }
    rewrite (moved_other e t1 t') in Hn by done.
    destruct Hw as [->|(b & c & _ & _ & ->)]; [done|].
    destruct (decide (q = b)) as [->|Hne]; [by rewrite lookup_delete_eq in Hn|by rewrite lookup_delete_ne in Hn].
Qed.

Lemma recover_entries_calm rest s :
  calm s -> (forall e, e ∈ rest -> e ∈ entries) -> Forall (resumable (tree s)) entries ->
  calmly (for_each (recover_entry cwd root) (VDict <$> (journal_entry <$> rest))) s (fun _ t' =>
    Forall (installed t') rest /\
    (forall e', e' ∈ entries -> installed (tree s) e' -> installed t' e') /\
    (forall q, tree s !! q = Some Dir -> t' !! q = Some Dir) /\
    (forall q, relative_to q directory ≠ None -> t' !! q ≠ None -> tree s !! q ≠ None)).
Proof.
  revert s. induction rest as [|e rest IH]; intros s Hc Hin Hall; csimpl; [by apply calmly_ret|].
  assert (He : e ∈ entries) by (apply Hin; left).
  eapply calmly_bind; [apply (recover_entry_calm entries Hlay e He s Hc)|].
  { rewrite Forall_forall in Hall. by apply Hall. }
  simpl. intros [] s1 Hc1 [Hrec Hi]. destruct (recovered_frame e _ _ He Hrec) as (F1 & F2 & F3 & F4).
  eapply calmly_impl; [apply IH; [done|intros; apply Hin; by right|by apply F1]|].
  simpl. intros [] t (G1 & G2 & G3 & G4). split_and!.
  - constructor; [by apply G2|done].
  - intros e' He' Hi'. by apply G2, F2.
  - intros q Hq. by apply G3, F3.
  - intros q Hq Hn. apply F4; [done|]. by apply G4.
Qed.

(** * Cleaning up *)

(** The entries of the journal directory have proper names. *)
Definition proper_names (t : gmap path node) : Prop :=
  forall name, t !! child directory name ≠ None -> name ≠ u "..".

Lemma cleanup_entry_calm name s :
  calm s -> name ≠ u ".." ->
  calmly (cleanup_entry root (child directory name)) s (fun _ t' =>
    t' = tree s /\ (forall c, tree s !! child directory name ≠ Some (File c)) \/
    t' = delete (child directory name) (tree s)).
Proof.
  intros Hc Hname. unfold cleanup_entry. eapply calmly_gets_then; [reflexivity|].
  unfold is_file. destruct (tree s !! child directory name) as [[c|]|] eqn:E; try (apply calmly_ret; [done|by left]).
  eapply calmly_lift_then; [apply (inside_directory entries Hlay)|].
  { intros H%list_elem_of_singleton. by symmetry in H. }
  apply (calmly_primitive _ tt); rewrite ?E; [done..|]. by right.
Qed.

Lemma rmdir_calm (s : FsState) (Q : unit -> gmap path node -> Prop) :
  calm s -> Q tt (tree s) -> Q tt (delete directory (tree s)) ->
  calmly (try_except (rmdir directory) (fun e => if isinstance e COSError then Some (ret tt) else None)) s Q.
Proof.
  intros Hc H1 H2. unfold try_except, rmdir.
  destruct (primitive_calm (rmdir_tree directory) s Hc) as (s1 & E & Ht & Hc1). unfold calmly. rewrite E.
  unfold rmdir_tree in *. destruct (tree s !! directory) as [[c|]|]; [..|];
    try (exists tt, s1; simpl in *; rewrite Ht; by split_and!).
  case_bool_decide; exists tt, s1; simpl in *; rewrite Ht; by split_and!.
Qed.

Lemma transaction_cleanup_calm s :
  calm s -> tree s !! directory = Some Dir -> proper_names (tree s) ->
  calmly (cleanup directory root) s (fun _ t' =>
    (forall name c, t' !! child directory name ≠ Some (File c)) /\
    (forall q, relative_to q directory = None -> t' !! q = tree s !! q)).
Proof.
  intros Hc Hd Hnames. unfold cleanup. destruct (directory_dots entries Hlay) as [Hr _].
  rewrite (resolve_id _ Hr). eapply calmly_lift_then; [apply (ensure_directory entries Hlay)|].
  eapply calmly_lift_then; [apply (directory_no_symlinks entries Hlay)|].
  eapply calmly_reads_then; [unfold is_dir; by rewrite Hd|].
  eapply calmly_bind.
  - apply (calmly_for_each _ _ s (fun done_ t =>
      (forall q c, q ∈ done_ -> t !! q ≠ Some (File c)) /\
      (forall q, t !! q = tree s !! q \/ t !! q = None /\ relative_to q directory ≠ None))); [done| |].
    + split; [by intros q c ?%elem_of_nil|by left].
    + intros done_ q s1 Hc1 [I1 I2] [rest Hpre].
      assert (q ∈ iterdir directory (tree s)) as (name & -> & Hn)%elem_of_iterdir.
      { rewrite Hpre, !elem_of_app. left. right. by left. }
      eapply calmly_impl; [apply (cleanup_entry_calm name s1 Hc1), Hnames, Hn|].
      simpl. intros [] t [[-> Hno]| ->].
      * split; [|done]. intros q c [Hq| ->%list_elem_of_singleton]%elem_of_app; [by apply I1|apply Hno].
      * split.
        -- intros q c Hq. destruct (decide (q = child directory name)) as [->|Hne]; [by rewrite lookup_delete_eq|].
           rewrite lookup_delete_ne by done. apply elem_of_app in Hq as [Hq|Hq%list_elem_of_singleton]; [by apply I1|done].
        -- intros q. destruct (decide (q = child directory name)) as [->|Hne].
           ++ right. rewrite lookup_delete_eq. unfold child. by rewrite relative_to_app.
           ++ rewrite lookup_delete_ne by done. apply I2.
  - simpl. intros [] s1 Hc1 [I1 I2].
    assert (Hfiles : forall name c, tree s1 !! child directory name ≠ Some (File c)).
    { intros name c H. apply (I1 (child directory name) c); [|done]. apply elem_of_iterdir. exists name. split; [done|].
      destruct (I2 (child directory name)) as [E|[E _]]; congruence. }
    assert (Hout : forall q, relative_to q directory = None -> tree s1 !! q = tree s !! q).
    { intros q Hq. destruct (I2 q) as [?|[_ ?]]; [done|congruence]. }
    apply rmdir_calm; [done|by split|]. split.
    + intros name c. destruct (decide (child directory name = directory)) as [->|Hne]; [by rewrite lookup_delete_eq|].
      rewrite lookup_delete_ne by done. apply Hfiles.
    + intros q Hq. rewrite lookup_delete_ne; [by apply Hout|]. intros ->.
      pose proof (relative_to_app q []) as Hself. rewrite app_nil_r in Hself. congruence.
Qed.

(** * A later call *)

(** A journal of this stem that lists these entries, in whatever phase. *)
Definition journal_lists (stem : str) (j : pydict) : Prop :=
  dget (u "contract_version") j = Some (VStr TRANSACTION_VERSION) /\ dget (u "stem") j = Some (VStr stem) /\
  dget (u "entries") j = Some (VList (VDict <$> (journal_entry <$> entries))).

Lemma load_journal_calm stem j t :
  t !! journal_file directory = Some (File (CJson (VDict j))) -> journal_lists stem j ->
  load_recovery_journal (journal_file directory) stem root t = Ok j.
Proof.
  intros Hj (Hv & Hs & _). unfold load_recovery_journal. destruct (directory_dots entries Hlay) as [Hr _].
  rewrite (resolve_id _ Hr), (journal_ensure entries Hlay). unfold read_json. rewrite Hj. simpl.
  unfold dget_none. rewrite Hv, Hs. simpl. by rewrite !str_eqb_refl.
Qed.

Lemma journal_paths_valid stem j :
  journal_lists stem j ->
  validate_recovery_journal_paths cwd j root = Ok (VDict <$> (journal_entry <$> entries)).
Proof.
  intros (_ & _ & He). unfold validate_recovery_journal_paths. rewrite He. simpl.
  assert (H : fold_outcome (fun _ => validate_journal_entry cwd root) tt (VDict <$> (journal_entry <$> entries)) = Ok tt).
  { apply fold_outcome_checks. rewrite !Forall_fmap, Forall_forall. intros e Hin.
    by apply (validate_entry entries Hlay). }
  by rewrite H.
Qed.

Lemma recover_directory_calm stem j s :
  calm s -> tree s !! journal_file directory = Some (File (CJson (VDict j))) -> journal_lists stem j ->
  Forall (resumable (tree s)) entries -> tree s !! directory = Some Dir -> proper_names (tree s) ->
  calmly (recover_directory cwd directory stem root) s (fun _ t' =>
    Forall (installed t') entries /\ forall name c, t' !! child directory name ≠ Some (File c)).
Proof.
  intros Hc Hj Hlist Hall Hd Hnames. unfold recover_directory. destruct (directory_dots entries Hlay) as [Hr _].
  rewrite (resolve_id _ Hr). eapply calmly_lift_then; [apply (ensure_directory entries Hlay)|].
  eapply calmly_lift_then; [apply (directory_no_symlinks entries Hlay)|].
  eapply calmly_lift_then; [apply (journal_ensure entries Hlay)|].
  eapply calmly_gets_then; [unfold is_file; by rewrite Hj|]. cbn [negb].
  eapply calmly_reads_then; [by apply load_journal_calm|].
  eapply calmly_lift_then; [by eapply journal_paths_valid|].
  eapply calmly_bind; [by apply (recover_entries_calm entries)|].
  simpl. intros [] s1 Hc1 (G1 & _ & G3 & G4).
  eapply calmly_impl; [apply transaction_cleanup_calm; [done|by apply G3|]|].
  - intros name Hn. apply Hnames, G4; [|done]. unfold child. by rewrite relative_to_app.
  - simpl. intros [] t [H1 H2]. split; [|done]. rewrite Forall_forall in *. intros e He.
    destruct (G1 e He) as (c & Hcn & Hh). exists c. split; [|done]. rewrite H2; [done|].
    apply (lo_outside root directory). by apply (entry_target entries Hlay).
Qed.
End All.
End Recovery.
