(* ===== verification/LinkRollForward.v ===== *)
(** From the first call to the next: preparing and applying a transaction leaves, wherever it
    stops, what the next call needs to complete it. *)
From S2P Require Import Prelude Py PyStr PyText Fs Keeps Calm Artifacts Atomic Paths LinkTransaction LinkTransactionProofs LinkRecovery.

Section RollForward.
Context {RT : Runtime} {FF : FileFormats}.
Context (temporary_middle : gmap path node -> path -> str) (cwd root directory : path).
Hypothesis temporary_fresh : forall t p, t !! temporary_name temporary_middle p t = None.

(** The replacements, and the tree before the transaction. *)
Record ready (ordered : list (path * path)) (t : gmap path node) : Prop := {
  rd_directory : exists x, x ≠ [] /\ directory = root ++ x;
  rd_clean : clean_path directory;
  rd_dots : no_dots directory;
  rd_located : Forall (fun ts => located root directory ts.1 /\ located root directory ts.2) ordered;
  rd_separate : NoDup (ordered.*1 ++ ordered.*2);
  rd_writable : Forall (fun ts => t !! ts.1 ≠ Some Dir /\
    Forall (fun q => t !! q = Some Dir) (prefixes (path_parent ts.1))) ordered;
  rd_made : Forall (fun q => t !! q = Some Dir) (prefixes directory) }.

(** Nothing outside the journal directory changed, and directories stay. *)
Definition kept (t t' : gmap path node) : Prop :=
  (forall q, relative_to q directory = None -> t' !! q = t !! q) /\
  (forall q, t !! q = Some Dir -> q ≠ journal_file directory -> t' !! q = Some Dir).

Lemma kept_refl t : kept t t. Proof. done. Qed.
Lemma kept_trans t1 t2 t3 : kept t1 t2 -> kept t2 t3 -> kept t1 t3.
Proof.
  intros [H1 H2] [H3 H4]. split; [intros q Hq; by rewrite H3, H1|]. intros q Hq Hj. by apply H4; [apply H2|].
Qed.

Lemma located_outside p : located root directory p -> forall t t', kept t t' -> t' !! p = t !! p.
Proof. intros [_ _ _ Ho] t t' [H _]. by apply H. Qed.

Lemma kept_dirs p t t' : kept t t' ->
  journal_file directory ∉ prefixes p -> Forall (fun q => t !! q = Some Dir) (prefixes p) ->
  Forall (fun q => t' !! q = Some Dir) (prefixes p).
Proof.
  intros [_ Hd] Hj H. rewrite Forall_forall in *. intros q Hq. apply Hd; [by apply H|]. by intros ->.
Qed.

Lemma prefix_app p q : q ∈ prefixes p -> exists x, p = q ++ x.
Proof.
  assert (H : forall p acc, q ∈ prefixes_from acc p -> exists x, acc ++ p = q ++ x).
  { induction p0 as [|c p0 IH]; intros acc; simpl; [by intros ?%elem_of_nil|].
    intros [->|Hq%IH]%elem_of_cons; [exists p0|]; rewrite <- ?app_assoc; [done|].
    destruct Hq as [x Hx]. exists x. by rewrite <- Hx, <- app_assoc. }
  intros Hq. by apply H in Hq.
Qed.

Lemma journal_not_parent p : located root directory p -> journal_file directory ∉ prefixes (path_parent p).
Proof.
  intros Hp [x Hx]%prefix_app. pose proof (lo_outside _ _ _ Hp) as Ho.
  rewrite (path_eta p (located_ne _ _ _ Hp)), Hx in Ho. unfold journal_file, child in Ho.
  by rewrite <- !app_assoc, relative_to_app in Ho.
Qed.

Lemma journal_not_directory : journal_file directory ∉ prefixes directory.
Proof.
  intros H%prefixes_shorter. unfold journal_file, child in H. rewrite length_app in H. simpl in H. lia.
Qed.

Lemma kept_ready ordered t t' : kept t t' -> ready ordered t -> ready ordered t'.
Proof.
  intros Hk [H1 H2 H3 H4 H5 H6 H7]. split; try done.
  - rewrite Forall_forall in *. intros ts Hts. destruct (H4 ts Hts) as [Ha Hb]. destruct (H6 ts Hts) as [Hd Hp]. split.
    + by rewrite (located_outside _ Ha t t').
    + eapply kept_dirs; [exact Hk|by apply journal_not_parent|done].
  - eapply kept_dirs; [exact Hk|apply journal_not_directory|done].
Qed.

(** * Preparing *)

(** An entry as it is prepared for one replacement. *)
Record prepared (t : gmap path node) (ts : path * path) (e : TransactionEntry) : Prop := {
  pr_target : te_target e = ts.1;
  pr_staged : te_staged e = ts.2;
  pr_backup : forall b, te_backup e = Some b -> b = backup_path directory ts.1;
  pr_hash : holds t ts.2 (te_staged_hash e) }.

Lemma kept_copy_backup src name (s : FsState) o s' :
  copy_file src (child directory name) s = (o, s') -> kept (tree s) (tree s').
Proof.
  intros [(e & _ & Ht)|E]%primitive_cases; [rewrite Ht; apply kept_refl|]. unfold copy_tree in E.
  destruct (tree s !! src) as [[c|]|]; [|injection E as _ <-; apply kept_refl..].
  apply write_tree_cases in E as [(e & _ & Ht)|(_ & _ & Hd & Ht)]; rewrite Ht; [apply kept_refl|]. split.
  - intros q Hq. apply lookup_insert_ne. intros <-. unfold child in Hq. by rewrite relative_to_app in Hq.
  - intros q Hq _. rewrite lookup_insert_ne; [done|]. intros <-. congruence.
Qed.

Lemma prepare_entry_Ok target staged s e s' :
  located root directory staged ->
  prepare_entry directory target staged root s = (Ok e, s') ->
  kept (tree s) (tree s') /\ prepared (tree s') (target, staged) e.
Proof.
  intros Hst E. unfold prepare_entry in E.
  apply pym_bind_Ok in E as ([] & s1 & E1 & E). unfold lift in E1. injection E1 as _ <-.
  apply pym_bind_Ok in E as ([] & s1 & E1 & E). unfold lift in E1. injection E1 as _ <-.
  unfold pbind at 1, gets at 1 in E. destruct (is_file staged (tree s)) eqn:Hf; [|done]. cbn [negb] in E.
  apply pym_bind_Ok in E as ([] & s1 & E1 & E). unfold lift in E1. injection E1 as _ <-.
  unfold pbind at 1, gets at 1 in E. unfold pbind at 1 in E.
  destruct ((if is_file target (tree s) then copy_file target (backup_path directory target) else ret tt) s)
    as [[[]|x] s2] eqn:E2; [|done].
  assert (Hk : kept (tree s) (tree s2)).
  { destruct (is_file target (tree s)); [by eapply kept_copy_backup|]. unfold ret in E2. injection E2 as <-. apply kept_refl. }
  unfold pbind, gets, ret in E. simplify_eq. split; [done|]. split; simpl; try done.
  - intros b Hb. by destruct (is_file target (tree s)); simplify_eq.
  - rewrite <- (located_outside _ Hst _ _ Hk) in Hf || idtac. apply file_matches_holds. unfold file_matches_hash.
    rewrite str_eqb_refl. unfold is_file in *. by rewrite (located_outside _ Hst _ _ Hk), Hf.
Qed.

Lemma prepared_kept t t' ts e :
  located root directory ts.2 -> kept t t' -> prepared t ts e -> prepared t' ts e.
Proof.
  intros Hst Hk [H1 H2 H3 H4]. split; try done. unfold holds. by rewrite (located_outside _ Hst _ _ Hk).
Qed.

Lemma prepare_entries_Ok ordered s entries s' :
  Forall (fun ts => located root directory ts.1 /\ located root directory ts.2) ordered ->
  prepare_entries directory root ordered s = (Ok entries, s') ->
  kept (tree s) (tree s') /\ Forall2 (prepared (tree s')) ordered entries.
Proof.
  intros Hloc. revert s entries. induction Hloc as [|[target staged] ordered [Ha Hb] Hloc IH]; intros s entries E; simpl in E.
  - unfold ret in E. simplify_eq. split; [apply kept_refl|constructor].
  - apply pym_bind_Ok in E as (e & s1 & E1 & E). apply pym_bind_Ok in E as (es & s2 & E2 & E).
    unfold ret in E. simplify_eq. apply prepare_entry_Ok in E1 as [Hk1 Hp]; [|done].
    apply IH in E2 as [Hk2 Hall]. split; [by eapply kept_trans|]. constructor; [|done].
    by eapply prepared_kept.
Qed.

Lemma prepared_lists ordered entries t :
  Forall2 (prepared t) ordered entries ->
  te_target <$> entries = ordered.*1 /\ te_staged <$> entries = ordered.*2.
Proof. induction 1 as [|ts e ordered entries [H1 H2 _ _] _ [IH1 IH2]]; csimpl; [done|]. split; congruence. Qed.

Lemma prepared_layout ordered entries t :
  ready ordered t -> Forall2 (prepared t) ordered entries ->
  layout root directory entries /\ Forall (resumable t) entries.
Proof.
  intros [H1 H2 H3 H4 H5 H6 H7] Hp. destruct (prepared_lists _ _ _ Hp) as [Ht Hs].
  assert (Hall : forall e, e ∈ entries -> exists ts, ts ∈ ordered /\ prepared t ts e).
  { intros e [i Hi]%list_elem_of_lookup. destruct (Forall2_lookup_r _ _ _ _ _ Hp Hi) as (ts & Hts & ?).
    exists ts. split; [|done]. by eapply list_elem_of_lookup_2. }
  rewrite Forall_forall in H4, H6. split; [split; try done|].
  - apply Forall_forall. intros e (ts & Hts & [-> _ _ _])%Hall. by apply H4.
  - apply Forall_forall. intros e (ts & Hts & [_ -> _ _])%Hall. by apply H4.
  - apply Forall_forall. intros e (ts & Hts & [-> _ Hb _])%Hall. done.
  - unfold separate. by rewrite Ht, Hs.
  - apply Forall_forall. intros e (ts & Hts & [Et Es _ Hh])%Hall. destruct (H6 ts Hts) as [Hd Hdirs].
    split; rewrite ?Et, ?Es; auto.
Qed.

(** * The journal *)

Lemma kept_write_journal j s o s' :
  Forall (fun q => tree s !! q = Some Dir) (prefixes directory) ->
  write_journal temporary_middle (journal_file directory) j s = (o, s') ->
  kept (tree s) (tree s') /\
  ((exists e, o = Raise e) /\ tree s' !! journal_file directory = tree s !! journal_file directory \/
   o = Ok tt /\ tree s' !! journal_file directory = Some (File (CJson (VDict j)))).
Proof.
  intros Hdirs [Ht Ho Hn]%atomic_write_json_replaced; [|done]. split.
  2: { destruct Ht as [?|(-> & c & -> & Hc)]; [by left|by right]. }
  rewrite Forall_forall in Hdirs. split.
  - intros q Hq. assert (Hqj : q ≠ journal_file directory).
    { intros ->. unfold journal_file, child in Hq. by rewrite relative_to_app in Hq. }
    destruct (tree s !! q) as [n|] eqn:E; [by apply Ho|]. destruct (tree s' !! q) as [n|] eqn:E'; [|done].
    destruct (Hn q n Hqj E E') as [[_ Hin]|(_ & _ & _ & Hpar)].
    + unfold journal_file in Hin. rewrite path_parent_child in Hin. rewrite Hdirs in E; done.
    + unfold journal_file in Hpar. rewrite path_parent_child in Hpar. destruct (decide (q = [])) as [->|Hne].
      * destruct directory as [|c d] eqn:Hdir; [done|]. by apply (f_equal length) in Hpar.
      * rewrite (path_eta q Hne), Hpar in Hq. unfold child in Hq. by rewrite relative_to_app in Hq.
  - intros q Hq Hj. by apply Ho.
Qed.

Lemma prepared_journal_lists stem entries : journal_lists entries stem (prepared_journal stem entries).
Proof. done. Qed.

(** * The next call *)

(** What is on the disk between the two calls: a journal of the entries, and everything an entry
    needs. *)
Record pending (stem : str) (entries : list TransactionEntry) (t : gmap path node) : Prop := {
  pn_journal : exists j, t !! journal_file directory = Some (File (CJson (VDict j))) /\ journal_lists entries stem j;
  pn_resumable : Forall (resumable t) entries;
  pn_made : Forall (fun q => t !! q = Some Dir) (prefixes directory) }.

Lemma directory_is_dir (t : gmap path node) :
  directory ≠ [] -> Forall (fun q => t !! q = Some Dir) (prefixes directory) -> t !! directory = Some Dir.
Proof. intros Hne H. rewrite Forall_forall in H. apply H. by apply (prefixes_from_last []). Qed.

Lemma commit_recovers stem entries replacements s :
  layout root directory entries -> pending stem entries (tree s) -> calm s ->
  proper_names directory (tree s) -> replacements ≠ [] -> validate_replacement_targets replacements root = Ok tt ->
  calmly (commit_ordered_replacements temporary_middle cwd directory stem replacements root None) s
    (fun _ t' => Forall (installed t') entries /\ forall name c, t' !! child directory name ≠ Some (File c)).
Proof.
  intros Hlay [(j & Hj & Hlist) Hall Hmade] Hc Hnames Hne Hval. destruct (directory_dots _ _ _ Hlay) as [Hr _].
  assert (Hdir : directory ≠ []).
  { destruct Hlay as [(x & Hx & ->) _ _ _ _ _ _]. by intros [_ ?]%app_nil. }
  unfold commit_ordered_replacements. destruct replacements as [|r rs]; [done|]. rewrite (resolve_id _ Hr).
  eapply calmly_lift_then; [apply (ensure_directory _ _ _ Hlay)|].
  eapply calmly_lift_then; [apply (directory_no_symlinks _ _ _ Hlay)|].
  eapply calmly_lift_then; [exact Hval|]. apply calmly_mkdir_then; [done..|]. intros s1 Hc1 Ht1.
  eapply calmly_lift_then; [apply (journal_ensure _ _ _ Hlay)|].
  eapply calmly_gets_then; [unfold path_exists; by rewrite Ht1, Hj|].
  apply (recover_directory_calm cwd root directory entries Hlay stem j); rewrite ?Ht1; try done.
  by apply directory_is_dir.
Qed.

Lemma apply_entries_pending stem ordered entries hook s o s' :
  ready ordered (tree s) -> quiet hook -> Forall2 (prepared (tree s)) ordered entries ->
  (exists j, tree s !! journal_file directory = Some (File (CJson (VDict j))) /\ journal_lists entries stem j) ->
  apply_entries 0 entries hook (s, 0%nat) = (o, s') ->
  pending stem entries (tree s'.1) /\ (o = Ok tt -> Forall (installed (tree s'.1)) entries).
Proof.
  intros Hr Hq Hp (j & Hj & Hlist) E. destruct (prepared_layout _ _ _ Hr Hp) as [Hlay Hall].
  pose proof (la_separate _ _ _ Hlay) as Hsep.
  assert (Hout : forall e, e ∈ entries -> te_target e ≠ [] /\ te_target e ≠ journal_file directory /\ te_staged e ≠ journal_file directory).
  { intros e He. pose proof (entry_target _ _ _ Hlay e He) as Ha. pose proof (entry_staged _ _ _ Hlay e He) as Hb.
    split; [by eapply located_ne|]. pose proof (lo_outside _ _ _ Ha). pose proof (lo_outside _ _ _ Hb).
    pose proof (relative_to_app directory [u "journal.json"]). unfold journal_file, child. split; congruence. }
  eapply apply_entries_resumable in E as (H1 & H2 & H3 & H4 & H5); try done.
  - split; [|done]. split; [|done|].
    + exists j. split; [|done]. rewrite H2; [done|..]; intros (e & ? & He)%list_elem_of_fmap; by apply Hout in He as (? & ? & ?).
    + eapply Forall_impl; [apply (rd_made _ _ Hr)|]. intros q. apply H3.
  - apply Forall_forall. intros e He. by apply Hout.
Qed.

(** The handler of an interruption after the first entry keeps all of it. *)
Lemma record_failure_pending stem entries k s o s' :
  layout root directory entries -> pending stem entries (tree s) ->
  record_transaction_failure temporary_middle directory (prepared_journal stem entries) entries (S k) root s = (o, s') ->
  pending stem entries (tree s').
Proof.
  intros Hlay [(j & Hj & Hlist) Hall Hmade] E. unfold record_transaction_failure in E. simpl in E.
  unfold pbind, lift in E. rewrite (journal_ensure _ _ _ Hlay) in E.
  apply kept_write_journal in E as [Hk Hjournal]; [|done]. split.
  - destruct Hjournal as [[_ ->]|[_ ->]]; [by exists j|]. eexists. by split_and!.
  - rewrite Forall_forall in *. intros e He. destruct (Hall e He) as [Hf Ht Hp].
    pose proof (located_outside _ (entry_target _ _ _ Hlay e He) _ _ Hk) as Et.
    pose proof (located_outside _ (entry_staged _ _ _ Hlay e He) _ _ Hk) as Es.
    split; unfold holds in *; rewrite ?Et, ?Es; try done.
    eapply kept_dirs; [exact Hk|by apply journal_not_parent, (entry_target _ _ _ Hlay)|done].
  - eapply kept_dirs; [exact Hk|apply journal_not_directory|done].
Qed.

Lemma prepared_content ordered entries t ts :
  Forall2 (prepared t) ordered entries -> ts ∈ ordered ->
  exists e, e ∈ entries /\ te_target e = ts.1 /\ te_staged_hash e = file_content_hash ts.2 t.
Proof.
  intros Hp [i Hi]%list_elem_of_lookup. destruct (Forall2_lookup_l _ _ _ _ _ Hp Hi) as (e & He & [Ht _ _ Hh]).
  exists e. split_and!; [by eapply list_elem_of_lookup_2|done|]. destruct Hh as (c & Hc & <-).
  unfold file_content_hash. by rewrite Hc.
Qed.

(** C31: An interrupted migration is completed by the next call.  Once the entries are prepared
    and the journal is written, applying them may stop anywhere - a crash, a fault of the file
    system, a hook that raises - and, when the process survives, the failure of an entry after the
    first may be recorded in the journal, successfully or not.  A later call for the same stem on
    a file system without faults, whatever replacements it is given, returns, and every target has
    the content its staged file had when the first call began. *)
Theorem interrupted_migration_rolls_forward ordered stem hook s entries s1 s2 o s3 later replacements :
  ready ordered (tree s) -> quiet hook ->
  prepare_entries directory root ordered s = (Ok entries, s1) ->
  write_journal temporary_middle (journal_file directory) (prepared_journal stem entries) s1 = (Ok tt, s2) ->
  apply_entries 0 entries hook (s2, 0%nat) = (o, s3) ->
  tree later = tree s3.1 \/
    (exists k o' s4, record_transaction_failure temporary_middle directory (prepared_journal stem entries)
       entries (S k) root s3.1 = (o', s4) /\ tree later = tree s4) ->
  calm later -> proper_names directory (tree later) ->
  replacements ≠ [] -> validate_replacement_targets replacements root = Ok tt ->
  exists s', commit_ordered_replacements temporary_middle cwd directory stem replacements root None later = (Ok tt, s') /\
    (forall ts, ts ∈ ordered -> file_content_hash ts.1 (tree s') = file_content_hash ts.2 (tree s)) /\
    is_file (journal_file directory) (tree s') = false.
Proof.
  intros Hr Hq E1 E2 E3 Hlater Hc Hnames Hne Hval.
  apply prepare_entries_Ok in E1 as [Hk1 Hp1]; [|apply Hr].
  apply kept_write_journal in E2 as [Hk2 [[[? ?] _]|[_ Hj]]]; [done| |by eapply rd_made, kept_ready].
  pose proof (kept_ready _ _ _ Hk2 (kept_ready _ _ _ Hk1 Hr)) as Hr2.
  assert (Hp2 : Forall2 (prepared (tree s2)) ordered entries).
  { pose proof (rd_located _ _ Hr) as Hloc. clear -Hp1 Hk2 Hloc. induction Hp1; inversion Hloc as [|? ? [? ?]]; subst;
      constructor; auto. by eapply prepared_kept. }
  destruct (prepared_layout _ _ _ Hr2 Hp2) as [Hlay _].
  apply (apply_entries_pending stem ordered) in E3 as [Hpend _]; [|done..|by eexists; split; [exact Hj|apply prepared_journal_lists]].
  assert (Hpend' : pending stem entries (tree later)).
  { destruct Hlater as [->|(k & o' & s4 & E4 & ->)]; [done|]. by eapply record_failure_pending. }
  destruct (commit_recovers stem entries replacements later Hlay Hpend' Hc Hnames Hne Hval) as ([] & s' & E & _ & Hall & Hno).
  exists s'. split_and!; [done| |].
  - intros ts Hts. destruct (prepared_content _ _ _ _ Hp2 Hts) as (e & He & Ht & Hh).
    rewrite Forall_forall in Hall. destruct (Hall e He) as (c & Hcn & Hhc). rewrite Ht in Hcn.
    unfold file_content_hash at 1. rewrite Hcn, Hhc, Hh. unfold file_content_hash.
    pose proof (rd_located _ _ Hr) as Hloc. rewrite Forall_forall in Hloc.
    rewrite (located_outside _ (proj2 (Hloc ts Hts)) _ _ Hk2), (located_outside _ (proj2 (Hloc ts Hts)) _ _ Hk1). done.
  - unfold is_file. destruct (tree s' !! journal_file directory) as [[c|]|] eqn:Ej; [|done..].
    by apply Hno in Ej.
Qed.

(** * A call that returns *)

Lemma keeps_transaction_cleanup q : relative_to q directory = None -> keeps q (cleanup directory root).
Proof.
  intros Hq. unfold cleanup. apply keeps_bind; [by apply keeps_pure|intros _].
  apply keeps_bind; [by apply keeps_pure|intros _]. intros s o s' n Hn E. unfold pbind at 1, list_directory, reads in E.
  destruct (is_dir directory (tree s)); [|by simplify_eq]. simpl in E. revert E. apply keeps_bind; [| |exact Hn].
  - assert (H : forall l, (forall p, p ∈ l -> p ≠ q) -> keeps q (for_each (cleanup_entry (resolve root)) l)).
    { induction l as [|p l IH]; intros Hl; [by apply keeps_pure|]. apply keeps_bind; [|intros _; apply IH; intros; apply Hl; by right].
      unfold cleanup_entry. apply keeps_bind; [by apply keeps_pure|intros file]. destruct file; [|by apply keeps_pure].
      apply keeps_bind; [by apply keeps_pure|intros _]. apply keeps_primitive. intros t m Hm.
      destruct (t !! p) as [[c|]|]; [|done..]. simpl. rewrite lookup_delete_ne; [done|]. apply Hl. by left. }
    apply H. intros p (name & -> & _)%elem_of_iterdir <-. unfold child in Hq. by rewrite relative_to_app in Hq.
  - intros _ s1 o1 s2 m Hm E. unfold try_except in E.
    assert (Hkeep : forall o3 s3, rmdir directory s1 = (o3, s3) -> tree s3 !! q = Some m).
    { intros o3 s3. eapply keeps_primitive; [|exact Hm]. intros t m' Hm'. unfold rmdir_tree.
      destruct (t !! directory) as [[c|]|] eqn:Ed; [done| |done]. case_bool_decide; [|done]. simpl.
      rewrite lookup_delete_ne; [done|]. intros <-. pose proof (relative_to_app directory []) as Hself.
      rewrite app_nil_r in Hself. congruence. }
    destruct (rmdir directory s1) as [[[]|x] s3]; [simplify_eq; by eapply Hkeep|].
    destruct (isinstance x COSError); unfold ret in E; simplify_eq; by eapply Hkeep.
Qed.

Lemma on_error_Ok {S A} (m : PyM S A) h s a s' : on_error m h s = (Ok a, s') -> m s = (Ok a, s').
Proof. unfold on_error. destruct (m s) as [[x|e] s1]; [done|]. by destruct (h s1) as [[] ?]. Qed.

(** A migration that returns has installed everything.  When a new transaction returns -
    whatever faults it survived - every target has the content its staged file had at the start,
    and no other file outside the journal directory was changed or removed. *)
Theorem commit_installs_everything ordered stem hook s s' :
  ready ordered (tree s) -> quiet hook ->
  commit_new_transaction temporary_middle directory stem ordered root hook s = (Ok tt, s') ->
  (forall ts, ts ∈ ordered -> file_content_hash ts.1 (tree s') = file_content_hash ts.2 (tree s)) /\
  (forall q n, tree s !! q = Some n -> q ∉ ordered.*1 -> q ∉ ordered.*2 -> relative_to q directory = None ->
     tree s' !! q = Some n).
Proof.
  intros Hr Hq E. unfold commit_new_transaction in E.
  apply pym_bind_Ok in E as ([] & s0 & E0 & E). unfold lift in E0. injection E0 as _ <-.
  apply pym_bind_Ok in E as ([] & s0 & E0 & E). unfold lift in E0. injection E0 as _ <-.
  apply pym_bind_Ok in E as (entries & s1 & E1 & E). apply pym_bind_Ok in E as ([] & s2 & E2 & E).
  apply pym_bind_Ok in E as ([] & s4 & E4 & E).
  apply prepare_entries_Ok in E1 as [Hk1 Hp1]; [|apply Hr].
  apply kept_write_journal in E2 as [Hk2 [[[? ?] _]|[_ Hj]]]; [done| |by eapply rd_made, kept_ready].
  pose proof (kept_trans _ _ _ Hk1 Hk2) as Hk.
  pose proof (kept_ready _ _ _ Hk Hr) as Hr2.
  assert (Hp2 : Forall2 (prepared (tree s2)) ordered entries).
  { pose proof (rd_located _ _ Hr) as Hloc. clear -Hp1 Hk2 Hloc. induction Hp1; inversion Hloc as [|? ? [? ?]]; subst;
      constructor; auto. by eapply prepared_kept. }
  destruct (prepared_layout _ _ _ Hr2 Hp2) as [Hlay Hres].
  destruct (on_error _ _ (s2, 0%nat)) as [o [fs i]] eqn:Eon. injection E4 as -> ->.
  apply on_error_Ok in Eon. apply pym_bind_Ok in Eon as ([] & [s3 i3] & E3 & Eon).
  pose proof (la_separate _ _ _ Hlay) as Hsep. destruct (prepared_lists _ _ _ Hp2) as [Hts Hst].
  pose proof E3 as E3'. apply (apply_entries_pending stem ordered) in E3 as [[_ _ Hmade3] Hinst];
    [|done..|by eexists; split; [exact Hj|apply prepared_journal_lists]]. specialize (Hinst eq_refl).
  eapply apply_entries_resumable in E3' as (_ & Hother & _); [|exact Hsep| |exact Hq|exact Hres|done].
  2: { apply Forall_forall. intros e He. eapply located_ne. by apply (entry_target _ _ _ Hlay). }
  simpl in *. unfold on_fs in Eon. simpl in Eon.
  destruct (pbind _ _ s3) as [o5 s5] eqn:E5. injection Eon as -> -> ->.
  apply pym_bind_Ok in E5 as ([] & s6 & E6 & E5). unfold lift in E6. injection E6 as _ <-.
  apply kept_write_journal in E5 as [Hk5 _]; [|done].
  assert (Hkeep : forall q n, relative_to q directory = None -> tree s3 !! q = Some n -> tree s' !! q = Some n).
  { intros q n Hqd Hn. eapply keeps_transaction_cleanup; [done| |exact E]. destruct Hk5 as [Hk5 _]. by rewrite Hk5. }
  pose proof (rd_located _ _ Hr) as Hloc. rewrite Forall_forall in Hloc. rewrite Forall_forall in Hinst. split.
  - intros ts Hin. destruct (prepared_content _ _ _ _ Hp2 Hin) as (e & He & Ht & Hh).
    destruct (Hloc ts Hin) as [Ha Hb]. destruct (Hinst e He) as (c & Hc & Hhc). rewrite Ht in Hc.
    apply (Hkeep _ _ (lo_outside _ _ _ Ha)) in Hc. unfold file_content_hash at 1. rewrite Hc, Hhc, Hh.
    unfold file_content_hash. by rewrite (located_outside _ Hb _ _ Hk).
  - intros q n Hn H1 H2 Hqd. apply Hkeep; [done|]. rewrite Hother by (rewrite ?Hts, ?Hst; done).
    destruct Hk as [Hk _]. by rewrite Hk.
Qed.
End RollForward.

(** * Example

    A concrete data root: a migration that is committed, one that is interrupted and completed,
    and two defects of the rollback. *)

#[local] Existing Instance example_runtime.
#[local] Existing Instance example_formats.

(** * A data root with two staged files *)

Definition link_root : path := [u "p"].
Definition link_journal : path := [u "p"; u "j"; u "monaco"].
Definition in_root (a b : string) : path := [u "p"; u a; u b].
Definition byte_file (n : N) : node := File (CBytes [n]).
Definition link_disk : gmap path node := list_to_map
  [([u "p"], Dir); ([u "p"; u "a"], Dir); ([u "p"; u "m"], Dir); ([u "p"; u "s"], Dir);
   ([u "p"; u "j"], Dir); (link_journal, Dir);
   (in_root "a" "x.parquet", byte_file 1); (in_root "m" "y.json", byte_file 2);
   (in_root "s" "x.parquet", byte_file 3); (in_root "s" "y.json", byte_file 4)].
Definition link_replacements : list (path * path) :=
  [(in_root "a" "x.parquet", in_root "s" "x.parquet"); (in_root "m" "y.json", in_root "s" "y.json")].
Definition link_start : FsState := mkFs link_disk [].

(** A hook that raises after entry [n]. *)
Definition crash_at (n : nat) : nat -> path -> PyM FsState unit := fun i _ =>
  if (i =? n)%nat then throw (exc CRuntimeError (msg "simulated crash")) else ret tt.

Lemma crash_at_quiet n : quiet (Some (crash_at n)).
Proof. intros hook [= <-] i p s. unfold crash_at. by destruct (i =? n)%nat. Qed.

Lemma link_located a b :
  plain (u a) -> plain (u b) -> u ".." ∉ in_root a b -> relative_to (in_root a b) link_journal = None ->
  located link_root link_journal (in_root a b).
Proof.
  intros Ha Hb Hd Ho. split; [|exact Hd| |exact Ho].
  - unfold clean_path, in_root. rewrite !Forall_cons. split_and!; [unfold plain; by_evaluation|exact Ha|exact Hb|done].
  - exists [u a; u b]. split; [discriminate|reflexivity].
Qed.

Lemma link_ready : ready link_root link_journal link_replacements link_disk.
Proof.
  split.
  - exists [u "j"; u "monaco"]. split; [discriminate|reflexivity].
  - unfold clean_path, plain, link_journal. by_evaluation.
  - unfold no_dots, link_journal. by_evaluation.
  - unfold link_replacements. rewrite !Forall_cons. cbn [fst snd].
    split_and!; [apply link_located; unfold plain; by_evaluation..|apply Forall_nil_2].
  - by_evaluation.
  - unfold link_replacements. rewrite !Forall_cons.
    split_and!; [vm_compute; discriminate|repeat constructor|vm_compute; discriminate|repeat constructor|apply Forall_nil_2].
  - repeat constructor.
Qed.

Abbreviation commit_here hook s :=
  (commit_ordered_replacements long_middle [] link_journal (u "monaco") link_replacements link_root hook s).
Abbreviation new_here hook s :=
  (commit_new_transaction long_middle link_journal (u "monaco") link_replacements link_root hook s).

Definition returned {A} (o : outcome A) : bool := match o with Ok _ => true | Raise _ => false end.

Lemma commit_installs_everything_witness :
  let r := new_here None link_start in
  r.1 = Ok tt /\ file_content_hash (in_root "m" "y.json") (tree r.2) = sha256_hexdigest [4%N].
Proof.
  intros r. assert (E : r.1 = Ok tt) by (vm_compute; reflexivity). split; [exact E|].
  apply pair_of_fst in E.
  destruct (commit_installs_everything long_middle link_root link_journal temporary_name_fresh
    link_replacements (u "monaco") None link_start r.2 link_ready) as [H _]; [intros ? [=]|exact E|].
  etrans; [apply (H (in_root "m" "y.json", in_root "s" "y.json")); right; left|vm_compute; reflexivity].
Defined.

(** The hook crashes after the second file; the next call completes the migration. *)
Definition link_prepared := prepare_entries link_journal link_root link_replacements link_start.
Definition link_entries : list TransactionEntry := match link_prepared.1 with Ok l => l | Raise _ => [] end.
Definition link_journaled :=
  write_journal long_middle (journal_file link_journal) (prepared_journal (u "monaco") link_entries) link_prepared.2.
Definition link_crashed := apply_entries 0 link_entries (Some (crash_at 0)) (link_journaled.2, 0%nat).

Lemma interrupted_migration_rolls_forward_witness :
  returned link_crashed.1 = false /\
  exists s', commit_here None link_crashed.2.1 = (Ok tt, s') /\
    file_content_hash (in_root "m" "y.json") (tree s') = sha256_hexdigest [4%N].
Proof.
  split; [vm_compute; reflexivity|].
  destruct (interrupted_migration_rolls_forward long_middle [] link_root link_journal temporary_name_fresh
    link_replacements (u "monaco") (Some (crash_at 0)) link_start link_entries link_prepared.2 link_journaled.2
    link_crashed.1 link_crashed.2 link_crashed.2.1 link_replacements) as (s' & E & H & _).
  - apply link_ready.
  - apply crash_at_quiet.
  - change (link_prepared = (Ok link_entries, link_prepared.2)). unfold link_entries. destruct link_prepared as [[l|e] s] eqn:E; [reflexivity|].
    apply (f_equal (fun r => returned r.1)) in E. vm_compute in E. discriminate E.
  - change (link_journaled = (Ok tt, link_journaled.2)). apply pair_of_fst. vm_compute. reflexivity.
  - change (link_crashed = (link_crashed.1, link_crashed.2)). by destruct link_crashed.
  - by left.
  - unfold calm. by_evaluation.
  - intros name Hn. intros ->. apply Hn. vm_compute. reflexivity.
  - discriminate.
  - vm_compute. reflexivity.
  - exists s'. split; [exact E|].
    etrans; [apply (H (in_root "m" "y.json", in_root "s" "y.json")); right; left|vm_compute; reflexivity].
Defined.

(** * Two defects of the rollback *)

(** A transaction that was rolled back can block its stem for ever.  When the first entry
    fails after its staged file was moved, the targets are restored and the journal says
    [rolled_back]; when the clean-up that follows is interrupted, the journal stays, and recovery
    does not look at its phase: it tries to apply the entry again, whose staged file is gone.
    The next call raises and leaves the journal, the target and the missing staged file as they
    were, which is what the call after it finds. *)
Theorem rolled_back_transaction_blocks_its_stem :
  let r := commit_here (Some (crash_at 0)) (mkFs link_disk (replicate 15 None ++ [Some os_error])) in
  let later := commit_here None (mkFs (tree r.2) []) in
  returned r.1 = false /\
  (exists j, tree r.2 !! journal_file link_journal = Some (File (CJson (VDict j))) /\
     dget (u "phase") j = Some (VStr (u "rolled_back"))) /\
  tree r.2 !! in_root "a" "x.parquet" = Some (byte_file 1) /\
  returned later.1 = false /\
  Forall (fun q => tree later.2 !! q = tree r.2 !! q)
    [journal_file link_journal; in_root "a" "x.parquet"; in_root "s" "x.parquet"].
Proof.
  intros r later. split_and!; [vm_compute; reflexivity| |vm_compute; reflexivity..|].
  - eexists. split; vm_compute; reflexivity.
  - rewrite !Forall_cons. split_and!; [vm_compute; reflexivity..|apply Forall_nil_2].
Qed.

(** Two targets with the same name in different directories. *)
Definition same_name_disk : gmap path node := list_to_map
  [([u "p"], Dir); ([u "p"; u "a"], Dir); ([u "p"; u "b"], Dir); ([u "p"; u "s"], Dir);
   ([u "p"; u "t"], Dir);
   (in_root "a" "x.parquet", byte_file 1); (in_root "b" "x.parquet", byte_file 2);
   (in_root "s" "x.parquet", byte_file 3); (in_root "t" "x.parquet", byte_file 4)].
Definition same_name_replacements : list (path * path) :=
  [(in_root "a" "x.parquet", in_root "s" "x.parquet"); (in_root "b" "x.parquet", in_root "t" "x.parquet")].

(** Targets that share a name share their backup, so a rollback cannot restore them all.  The
    backup of a target is named after the last component of its path only.  When the first of two
    targets called [x.parquet] fails, restoring the second uses up the one backup file; the first
    is not restored but keeps the new content, its old content is nowhere on the disk, and the
    error that is raised is that of the rollback. *)
Theorem shared_backup_blocks_rollback :
  let r := commit_ordered_replacements long_middle [] link_journal (u "monaco") same_name_replacements
             link_root (Some (crash_at 0)) (mkFs same_name_disk []) in
  (exists e, r.1 = Raise e /\ exn_msg e =
     [FStr (u "Link migration backup is unavailable: /p/j/monaco/x.parquet.backup")]) /\
  tree r.2 !! in_root "a" "x.parquet" = Some (byte_file 3) /\
  tree r.2 !! in_root "b" "x.parquet" = Some (byte_file 2) /\
  forallb (fun kv => match kv.2 with File (CBytes [1%N]) => false | _ => true end) (map_to_list (tree r.2)) = true.
Proof.
  intros r. split_and!; [|vm_compute; reflexivity..]. eexists. split; vm_compute; reflexivity.
Qed.
