(* ===== verification/Pending.v ===== *)
(** Durable publication intent ([pipeline/pending_publications.py]): the envelope that holds the
    pending publication stems and the metadata-refresh marker, its readers and its writers. *)
From stdpp Require Import gmap.
From S2P Require Import Prelude Py PyStr Fs Artifacts Atomic.

Definition CONTRACT_VERSION : str := u "pending-publications-v1".
Definition FILENAME : str := u "pending_migration_publications.json".

Definition manifest_path (data_root : path) : path := child (processed_manifests data_root) FILENAME.

(** * Validation *)

Definition validate_stem (stem : str) : outcome str :=
  require_safe_stem stem (u "pending publication stem") CValueError.

Definition validate_marker_stem_shape (stem : str) : outcome str :=
  _ ← raise_if (bool_decide (stem = [])) (exc CValueError (msg "Marker stem must be non-empty"));
  _ ← raise_if (existsb (N.eqb 47) stem || existsb (N.eqb 92) stem)
        (exc CValueError [FStr (u "Marker stem must not contain path separators: "); FRepr (VStr stem)]);
  _ ← raise_if (bool_decide (stem = u "." \/ stem = u ".."))
        (exc CValueError [FStr (u "Marker stem must not be a path component: "); FRepr (VStr stem)]);
  mret stem.

Definition validate_marker_stem (stem : pyval) : outcome str :=
  match stem with
  | VStr s => validate_marker_stem_shape s
  | _ => Raise (exc CValueError [FStr (u "Marker stem must be a string; got " ++ type_name stem)])
  end.

(** [is_sha256_hex]. *)
Definition is_lower_hex (c : N) : bool := ((48 <=? c) && (c <=? 57) || (97 <=? c) && (c <=? 102))%N.
Definition is_sha256_hex (value : pyval) : bool :=
  match value with
  | VStr s => (length s =? 64)%nat && forallb is_lower_hex s
  | _ => false
  end.

Definition validate_marker_hash (value : pyval) : outcome str :=
  match value with
  | VStr s =>
      _ ← raise_if (negb (is_sha256_hex value))
            (exc CValueError [FStr (u "Marker fingerprint hash must be 64 lowercase hex chars; got "); FRepr value]);
      mret s
  | _ => Raise (exc CValueError [FStr (u "Marker fingerprint hash must be a string; got " ++ type_name value)])
  end.

(** [validated_stems.append(stem)] after the checks of one element. *)
Definition validate_pending_stem_at (idx : nat) (stem : pyval) : outcome str :=
  match stem with
  | VStr s => validate_stem s
  | _ => Raise (exc CTypeError [FStr (u "Pending publication stem at index "); FInt (Z.of_nat idx);
                                FStr (u " is not a string: "); FRepr stem])
  end.

Fixpoint validate_pending_stems_from (idx : nat) (stems : list pyval) : outcome (list str) :=
  match stems with
  | [] => mret []
  | stem :: rest =>
      s ← validate_pending_stem_at idx stem;
      ss ← validate_pending_stems_from (S idx) rest;
      mret (s :: ss)
  end.

Definition validate_pending_stem_values (stems : list pyval) : outcome (list str) :=
  validated ← validate_pending_stems_from 0 stems;
  _ ← raise_if (negb (bool_decide (NoDup validated)))
        (exc CValueError (msg "Pending publication manifest contains duplicate stems"));
  mret validated.

Definition pending_stem_values (data : pydict) : outcome (list pyval) :=
  match dget_none (u "stems") data with
  | VNone => Raise (exc CTypeError (msg "Pending publication manifest is missing 'stems' field"))
  | VList stems => mret stems
  | _ => Raise (exc CTypeError (msg "Pending publication manifest 'stems' field must be a list"))
  end.

Definition validated_pending_stems (data : pydict) : outcome (gset str) :=
  stems ← pending_stem_values data;
  validated ← validate_pending_stem_values stems;
  mret (list_to_set validated).

(** * The marker *)

Definition envelope_marker_payload (stems : list str) (fingerprint_hashes : list (str * str)) : pydict :=
  [(u "stems", VList (VStr <$> sorted_strs stems));
   (u "fingerprint_hashes",
    VDict ((fun stem => (stem, VStr (default [] (dget stem fingerprint_hashes)))) <$>
           sorted_strs fingerprint_hashes.*1))].

(** [_validate_marker_types]: the list and the dictionary. *)
Definition validate_marker_types (stems fingerprint_hashes : pyval) : outcome (list pyval * pydict) :=
  match stems with
  | VList l =>
      match fingerprint_hashes with
      | VDict d => mret (l, d)
      | _ => Raise (exc CValueError [FStr (u "Marker fingerprint_hashes must be a dict; got " ++ type_name fingerprint_hashes)])
      end
  | _ => Raise (exc CValueError [FStr (u "Marker stems must be a list; got " ++ type_name stems)])
  end.

Definition key_set (d : pydict) : list pyval := VStr <$> d.*1.

Definition validate_marker_collections (stems fingerprint_hashes : pyval) : outcome (list pyval * pydict) :=
  '(l, d) ← validate_marker_types stems fingerprint_hashes;
  _ ← raise_if (bool_decide (length l = 0%nat)) (exc CValueError (msg "Marker must include at least one stem"));
  unique ← py_set l;
  _ ← raise_if (negb (length l =? length unique)%nat)
        (exc CValueError (msg "Marker stems must not contain duplicates"));
  _ ← raise_if (negb (set_eqb (key_set d) unique))
        (exc CValueError (msg "Marker fingerprint_hashes keys must match the stems list exactly"));
  mret (l, d).

(** One entry of [validated_hashes]; the keys match the stems. *)
Definition validated_hash (d : pydict) (stem : str) : outcome (str * str) :=
  h ← validate_marker_hash (dget_none stem d); mret (stem, h).

Definition validated_marker_inputs (stems fingerprint_hashes : pyval)
    : outcome (list str * list (str * str)) :=
  '(l, d) ← validate_marker_collections stems fingerprint_hashes;
  validated_stems ← mapM validate_marker_stem l;
  validated_hashes ← mapM (validated_hash d) validated_stems;
  mret (validated_stems, validated_hashes).

Definition with_marker_payload (envelope marker_payload : pydict) : pydict :=
  dsetdefault (u "contract_version") (VStr CONTRACT_VERSION)
    (dsetdefault (u "stems") (VList []) (dset (u "metadata_refresh") (VDict marker_payload) envelope)).

Definition validate_metadata_marker_keys (marker : pydict) : outcome unit :=
  raise_if (negb (set_eqb (key_set marker) [VStr (u "stems"); VStr (u "fingerprint_hashes")]))
    (exc CValueError (msg "metadata_refresh field must have exactly 'stems' and 'fingerprint_hashes' keys")).

Definition validate_metadata_marker_stems (raw_stems : pyval) : outcome (list pyval) :=
  match raw_stems with
  | VList stems =>
      unique ← py_set stems;
      _ ← raise_if (negb (length stems =? length unique)%nat)
            (exc CValueError (msg "metadata_refresh.stems must not contain duplicates"));
      _ ← mapM (fun stem => match stem with
                            | VStr s => validate_marker_stem stem
                            | _ => Raise (exc CTypeError (msg "metadata_refresh.stems entries must be strings"))
                            end) stems;
      mret unique
  | _ => Raise (exc CTypeError (msg "metadata_refresh.stems must be a list"))
  end.

Definition validate_metadata_marker_hashes (raw_hashes : pyval) (stems : list pyval) : outcome unit :=
  match raw_hashes with
  | VDict hashes =>
      _ ← raise_if (negb (set_eqb (key_set hashes) stems))
            (exc CValueError (msg "metadata_refresh.fingerprint_hashes keys must match metadata_refresh.stems"));
      _ ← mapM validate_marker_hash hashes.*2;
      mret tt
  | _ => Raise (exc CTypeError (msg "metadata_refresh.fingerprint_hashes must be a dict"))
  end.

Definition validated_metadata_marker (marker : pyval) : outcome pydict :=
  match marker with
  | VDict typed_marker =>
      _ ← validate_metadata_marker_keys typed_marker;
      unique ← validate_metadata_marker_stems (dget_none (u "stems") typed_marker);
      _ ← validate_metadata_marker_hashes (dget_none (u "fingerprint_hashes") typed_marker) unique;
      mret typed_marker
  | _ => Raise (exc CTypeError (msg "metadata_refresh field must be a JSON object"))
  end.

(** * The envelope on disk *)

Section Pending.
Context {RT : Runtime} {FF : FileFormats}.
Variable temporary_middle : gmap path node -> path -> str.
Variable data_root : path.
Abbreviation M := (PyM FsState).

Definition read_envelope (t : gmap path node) : outcome pyval :=
  match read_json (manifest_path data_root) t with
  | Raise e =>
      if isinstance e CUnicodeError || isinstance e JSONDecodeError
      then Raise (exc_from CValueError (FStr (u "Malformed pending publication manifest: ") :: exn_msg e) e)
      else Raise e
  | r => r
  end.

Definition load_envelope (t : gmap path node) : outcome pydict :=
  if negb (path_exists (manifest_path data_root) t) then mret []
  else
    data ← read_envelope t;
    match data with
    | VDict d =>
        let version := dget_none (u "contract_version") d in
        _ ← raise_if (negb (py_eqb version (VStr CONTRACT_VERSION)))
              (exc CValueError [FStr (u "Invalid contract version: expected "); FRepr (VStr CONTRACT_VERSION);
                                FStr (u ", got "); FRepr version]);
        mret d
    | _ => Raise (exc CTypeError (msg "Pending publication manifest must be a JSON object"))
    end.

Definition save_envelope (envelope : pydict) : M unit :=
  mkdir (path_parent (manifest_path data_root));;
  atomic_write_json temporary_middle (manifest_path data_root) (VDict envelope).

Definition load_pending_publications (t : gmap path node) : outcome (gset str) :=
  if negb (path_exists (manifest_path data_root) t) then mret ∅
  else data ← load_envelope t; validated_pending_stems data.

(** The section of [save_pending_publications] under [_ENVELOPE_LOCK]. *)
Definition with_pending_stems (validated : list str) (envelope : pydict) : pydict :=
  dset (u "stems") (VList (VStr <$> sorted_strs validated))
    (dset (u "contract_version") (VStr CONTRACT_VERSION) envelope).
Definition replace_pending_stems (validated : list str) : M unit :=
  envelope <- reads load_envelope;;
  atomic_write_json temporary_middle (manifest_path data_root) (VDict (with_pending_stems validated envelope)).

Definition save_pending_publications (stems : gset str) : M unit :=
  mkdir (path_parent (manifest_path data_root));;
  validated <- lift (mapM validate_stem (elements stems));;
  replace_pending_stems validated.

Definition add_pending_publications (stems : gset str) : M unit :=
  if bool_decide (stems = ∅) then ret tt
  else
    current <- reads load_pending_publications;;
    save_pending_publications (current ∪ stems).

Definition remove_pending_publications (stems : gset str) : M unit :=
  if bool_decide (stems = ∅) then ret tt
  else
    current <- reads load_pending_publications;;
    save_pending_publications (current ∖ stems).

(** The section of [set_metadata_refresh_marker] under the lock. *)
Definition replace_marker (marker_payload : pydict) : M unit :=
  envelope <- reads load_envelope;;
  exists_ <- gets (fun s => path_exists (manifest_path data_root) (tree s));;
  if py_eqb (dget_none (u "metadata_refresh") envelope) (VDict marker_payload) && exists_
  then ret tt
  else save_envelope (with_marker_payload envelope marker_payload).

Definition set_metadata_refresh_marker (stems fingerprint_hashes : pyval) : M unit :=
  validated <- lift (validated_marker_inputs stems fingerprint_hashes);;
  replace_marker (envelope_marker_payload validated.1 validated.2).

Definition load_metadata_refresh_marker (t : gmap path node) : outcome (option pydict) :=
  if negb (path_exists (manifest_path data_root) t) then mret None
  else
    envelope ← load_envelope t;
    match dget (u "metadata_refresh") envelope with
    | None => mret None
    | Some marker => d ← validated_metadata_marker marker; mret (Some d)
    end.

(** The section of [clear_metadata_refresh_marker] under the lock. *)
Definition delete_marker : M unit :=
  envelope <- reads load_envelope;;
  if negb (dmem (u "metadata_refresh") envelope) then ret tt
  else save_envelope (ddel (u "metadata_refresh") envelope).

Definition clear_metadata_refresh_marker : M unit :=
  exists_ <- gets (fun s => path_exists (manifest_path data_root) (tree s));;
  if negb exists_ then ret tt else delete_marker.

End Pending.
