(* ===== verification/PendingProofs.v ===== *)
(** What the publication intent guarantees: each operation refines an operation on the abstract
    intent, under concurrency stem lists and marker never overwrite each other, and the pending
    stems themselves can be lost between two threads. *)
From stdpp Require Import gmap sorting.
From S2P Require Import Prelude Py PyStr Fs Keeps Calm Artifacts Atomic Paths Pending.

(** * The abstract intent *)

(** What the envelope stands for: the pending stems, the digests the marker records for the
    regions it names, and the fields of other writers. *)
Record Intent := { pending : gset str; refresh : option (gmap str str); others : gmap str pyval }.
Definition no_intent : Intent := {| pending := ∅; refresh := None; others := ∅ |}.
Definition with_pending (S : gset str) (i : Intent) : Intent :=
  {| pending := S; refresh := refresh i; others := others i |}.
Definition with_refresh (m : option (gmap str str)) (i : Intent) : Intent :=
  {| pending := pending i; refresh := m; others := others i |}.

Definition safe (stem : str) : Prop := is_safe_stem (VStr stem) = true.
Definition marker_ok (m : gmap str str) : Prop :=
  m ≠ ∅ /\ map_Forall (fun stem h => safe stem /\ is_sha256_hex (VStr h) = true) m.

(** The marker as it is written. *)
Definition marker_stems (m : gmap str str) : list str := sorted_strs (map_to_list m).*1.
Definition hashes_field (m : gmap str str) : pydict :=
  (fun stem => (stem, VStr (default [] (m !! stem)))) <$> marker_stems m.
Definition marker_payload (m : gmap str str) : pydict :=
  [(u "stems", VList (VStr <$> marker_stems m)); (u "fingerprint_hashes", VDict (hashes_field m))].

Definition field_names : list str := [u "contract_version"; u "stems"; u "metadata_refresh"].

(** An envelope and its meaning. *)
Record describes (d : pydict) (i : Intent) : Prop := {
  d_version : dget (u "contract_version") d = Some (VStr CONTRACT_VERSION);
  d_stems : dget (u "stems") d = Some (VList (VStr <$> sorted_strs (elements (pending i))));
  d_marker : dget (u "metadata_refresh") d = (fun m => VDict (marker_payload m)) <$> refresh i;
  d_others : forall k, k ∉ field_names -> dget k d = others i !! k;
  d_safe : set_Forall safe (pending i);
  d_marker_ok : forall m, refresh i = Some m -> marker_ok m }.

(** * Texts that are equal *)

Lemma sorted_strs_unique l k : l ≡ₚ k -> sorted_strs l = sorted_strs k.
Proof.
  intros H. apply (StronglySorted_unique str_le); [apply sorted_strs_sorted..|].
  by rewrite !sorted_strs_perm.
Qed.

Lemma validate_stem_spec s x : validate_stem s = Ok x <-> safe s /\ x = s.
Proof.
  unfold validate_stem, require_safe_stem, safe. destruct (is_safe_stem (VStr s));
    unfold mret, outcome_ret; naive_solver.
Qed.

Lemma validate_marker_stem_shape_spec s x : validate_marker_stem_shape s = Ok x <-> safe s /\ x = s.
Proof.
  assert (H : validate_marker_stem_shape s = Ok s <-> safe s).
  { unfold validate_marker_stem_shape, safe, is_safe_stem.
    destruct (bool_decide (s = [])); [done|]. destruct (bool_decide (s = u "." \/ s = u ".."));
      destruct (existsb (N.eqb 47) s), (existsb (N.eqb 92) s); done. }
  split; [|by intros [? ->]; apply H]. intros Hx. assert (x = s) as ->; [|by rewrite <- H].
  unfold validate_marker_stem_shape in Hx. repeat (apply outcome_bind_Ok in Hx as (? & _ & Hx)).
  by apply mret_Ok in Hx.
Qed.

Lemma validate_marker_hash_spec v x :
  validate_marker_hash v = Ok x <-> v = VStr x /\ is_sha256_hex (VStr x) = true.
Proof.
  destruct v; cbn [validate_marker_hash]; try (split; [done|by intros [? _]]).
  destruct (is_sha256_hex (VStr s)) eqn:E; simpl.
  - split; [intros H%mret_Ok; by subst|by intros [[= ->] _]].
  - split; [done|]. intros [[= ->] H]. simpl in E. congruence.
Qed.

Lemma outcome_bind_intro {A B} (m : outcome A) (f : A -> outcome B) a b :
  m = Ok a -> f a = Ok b -> (m ≫= f) = Ok b.
Proof. by intros ->. Qed.

(** [mapM] of a check that keeps its argument. *)
Lemma mapM_checks {A B} (f : A -> outcome B) (g : A -> B) l :
  (forall x, x ∈ l -> f x = Ok (g x)) -> mapM f l = Ok (g <$> l).
Proof.
  induction l as [|x l IH]; intros H; [done|]. cbn [mapM]. rewrite H by left. simpl.
  rewrite IH; [done|]. intros. apply H. by right.
Qed.

(** * Sets of strings *)

Lemma py_in_strs s l : py_in (VStr s) (VStr <$> l) = bool_decide (s ∈ l).
Proof.
  unfold py_in. induction l as [|x l IH]; [done|].
  change (str_eqb s x || existsb (py_eqb (VStr s)) (VStr <$> l) = bool_decide (s ∈ x :: l)). rewrite IH.
  destruct (str_eqb_spec s x) as [->|Hne]; symmetry.
  - simpl. apply bool_decide_eq_true. by left.
  - simpl. apply bool_decide_ext. rewrite elem_of_cons. naive_solver.
Qed.

Definition dedup_from (acc l : list str) : list str :=
  foldl (fun acc s => if bool_decide (s ∈ acc) then acc else acc ++ [s]) acc l.

Lemma distinct_strs l : distinct (VStr <$> l) = VStr <$> dedup_from [] l.
Proof.
  assert (H : forall acc, foldl (fun acc v => if py_in v acc then acc else acc ++ [v]) (VStr <$> acc) (VStr <$> l) =
    VStr <$> dedup_from acc l); [|exact (H [])].
  unfold dedup_from. induction l as [|x l IH]; intros acc; [done|]. csimpl. rewrite py_in_strs.
  case_bool_decide; [apply IH|]. etrans; [|apply IH]. by rewrite fmap_app.
Qed.

Lemma elem_of_dedup x acc l : x ∈ dedup_from acc l <-> x ∈ acc \/ x ∈ l.
Proof.
  unfold dedup_from. revert acc. induction l as [|y l IH]; intros acc; simpl; [set_solver|].
  rewrite IH. case_bool_decide; set_solver.
Qed.

Lemma length_dedup acc l :
  NoDup acc -> (length (dedup_from acc l) <= length acc + length l)%nat /\
  (length (dedup_from acc l) = (length acc + length l)%nat <-> NoDup (acc ++ l)).
Proof.
  unfold dedup_from. revert acc. induction l as [|y l IH]; intros acc Hacc; simpl.
  { rewrite app_nil_r. split; [lia|]. split; [done|lia]. }
  case_bool_decide as Hy.
  - destruct (IH acc Hacc) as [Hle _]. split; [lia|]. split; [lia|].
    intros (_ & Hd & _)%NoDup_app. specialize (Hd _ Hy). set_solver.
  - destruct (IH (acc ++ [y])) as [Hle Heq].
    { apply NoDup_app. split_and!; [done|set_solver|apply NoDup_singleton]. }
    rewrite length_app in *. simpl in *. split; [lia|].
    rewrite <- app_assoc in Heq. simpl in Heq. rewrite <- Heq. lia.
Qed.

Lemma py_set_strs l : py_set (VStr <$> l) = Ok (VStr <$> dedup_from [] l).
Proof.
  unfold py_set. replace (List.find _ _) with (@None pyval); [by rewrite distinct_strs|].
  induction l as [|x l IH]; [done|]. exact IH.
Qed.

Lemma set_eqb_strs a b : set_eqb (VStr <$> a) (VStr <$> b) = true <-> (forall x, x ∈ a <-> x ∈ b).
Proof.
  unfold set_eqb. rewrite andb_true_iff, !forallb_forall.
  assert (H : forall a b, (forall v, List.In v (VStr <$> a) -> py_in v (VStr <$> b) = true) <->
    (forall x, x ∈ a -> x ∈ b)).
  { intros a' b'. split.
    - intros H x Hx. assert (Hp : py_in (VStr x) (VStr <$> b') = true).
      { apply H, list_elem_of_In, list_elem_of_fmap. eauto. }
      rewrite py_in_strs in Hp. by apply bool_decide_eq_true in Hp.
    - intros H v (x & -> & Hx)%list_elem_of_In%list_elem_of_fmap. rewrite py_in_strs.
      apply bool_decide_eq_true. auto. }
  rewrite !H. split; [intros [? ?]; split; auto|intros Hx; split; intros x; apply Hx].
Qed.

(** * The arguments of a marker *)

Definition marker_of (d : pydict) : gmap str str :=
  omap (fun v => match v with VStr h => Some h | _ => None end) (list_to_map d : gmap str pyval).

Lemma lookup_list_to_map {A} (d : list (str * A)) k : (list_to_map d : gmap str A) !! k = dget k d.
Proof.
  induction d as [|[k' v] d IH]; [done|]. simpl. destruct (str_eqb_spec k' k) as [->|Hne].
  - apply lookup_insert_eq.
  - by rewrite lookup_insert_ne.
Qed.

Lemma lookup_marker_of d k h : marker_of d !! k = Some h <-> dget k d = Some (VStr h).
Proof.
  unfold marker_of. rewrite lookup_omap, lookup_list_to_map.
  destruct (dget k d) as [[]|]; simpl; split; congruence.
Qed.

(** A list of stems and a dictionary of digests that [set_metadata_refresh_marker] accepts. *)
Record marker_args (l : list str) (d : pydict) : Prop := {
  ma_some : l ≠ [];
  ma_nodup : NoDup l;
  ma_keys : forall k, k ∈ d.*1 <-> k ∈ l;
  ma_safe : Forall safe l;
  ma_hash : Forall (fun k => exists h, dget k d = Some (VStr h) /\ is_sha256_hex (VStr h) = true) l }.

Definition marker_entry (d : pydict) (k : str) : str * str := (k, default [] (marker_of d !! k)).

Lemma validate_marker_stems_spec l ss :
  mapM validate_marker_stem l = Ok ss <-> l = VStr <$> ss /\ Forall safe ss.
Proof.
  split.
  - intros H%outcome_mapM_Forall2. induction H as [|v s l ss Hv _ [-> IH]]; [by split|].
    destruct v; try done. apply validate_marker_stem_shape_spec in Hv as [Hs ->].
    split; [done|by constructor].
  - intros [-> Hs]. induction Hs as [|x ss Hx _ IH]; [done|]. cbn [fmap list_fmap mapM].
    cbn [fmap] in IH. rewrite IH. cbn [validate_marker_stem].
    by rewrite (proj2 (validate_marker_stem_shape_spec x x)).
Qed.

Lemma validated_hash_spec d k r :
  validated_hash d k = Ok r <->
  r = marker_entry d k /\ exists h, dget k d = Some (VStr h) /\ is_sha256_hex (VStr h) = true.
Proof.
  unfold validated_hash, marker_entry. split.
  - intros (h & [Hv Hh]%validate_marker_hash_spec & H%mret_Ok)%outcome_bind_Ok. unfold dget_none in Hv.
    destruct (dget k d) as [v|] eqn:E; simpl in Hv; [subst v|done].
    apply lookup_marker_of in E as E'. rewrite E'. subst r. eauto.
  - intros (-> & h & E & Hh). unfold dget_none. rewrite E. apply lookup_marker_of in E. rewrite E.
    apply outcome_bind_intro with h; [|done]. by apply validate_marker_hash_spec.
Qed.

Lemma validated_hashes_spec d l r :
  mapM (validated_hash d) l = Ok r <->
  r = marker_entry d <$> l /\
  Forall (fun k => exists h, dget k d = Some (VStr h) /\ is_sha256_hex (VStr h) = true) l.
Proof.
  split.
  - intros H%outcome_mapM_Forall2. induction H as [|k x l r Hk _ [-> IH]]; [by split|].
    apply validated_hash_spec in Hk as [-> Hk]. split; [done|by constructor].
  - intros [-> H]. apply mapM_checks. intros k Hk. rewrite Forall_forall in H.
    apply validated_hash_spec. eauto.
Qed.

Lemma validate_marker_collections_strs l d :
  validate_marker_collections (VList (VStr <$> l)) (VDict d) = Ok (VStr <$> l, d) <->
  l ≠ [] /\ NoDup l /\ (forall k, k ∈ d.*1 <-> k ∈ l).
Proof.
  unfold validate_marker_collections. simpl. rewrite py_set_strs. simpl. rewrite !length_fmap.
  destruct (length_dedup [] l (NoDup_nil_2)) as [_ Hlen]. simpl in Hlen. rewrite <- Hlen.
  pose proof (set_eqb_strs d.*1 (dedup_from [] l)) as Hset. fold (key_set d) in Hset.
  setoid_rewrite elem_of_dedup in Hset.
  assert (Hset' : set_eqb (key_set d) (VStr <$> dedup_from [] l) = true <-> (forall k, k ∈ d.*1 <-> k ∈ l)).
  { rewrite Hset. assert (Hn : forall k, k ∈ [] \/ k ∈ l <-> k ∈ l).
    { intros k. split; [intros [?%elem_of_nil|?]; done|by right]. }
    by split; intros H k; rewrite (H k), ?Hn. }
  destruct l as [|x l]; [split; [done|by intros [? _]]|]. cbn [bool_decide decide raise_if].
  destruct (Nat.eqb_spec (length (x :: l)) (length (dedup_from [] (x :: l)))) as [E|E]; simpl in E |- *.
  - destruct (set_eqb _ _) eqn:Es; simpl.
    + split; [intros _|done]. split_and!; [done|by rewrite E|by apply Hset'].
    + split; [done|]. intros (_ & _ & Hk). apply Hset' in Hk. congruence.
  - split; [done|]. intros (_ & Hn & _). congruence.
Qed.

Lemma validated_marker_inputs_spec stems hashes r :
  validated_marker_inputs stems hashes = Ok r <->
  exists l d, stems = VList (VStr <$> l) /\ hashes = VDict d /\ marker_args l d /\
    r = (l, marker_entry d <$> l).
Proof.
  unfold validated_marker_inputs. split.
  - intros ([vs d] & Hc & H)%outcome_bind_Ok. apply outcome_bind_Ok in H as (l & Hl & H).
    apply validate_marker_stems_spec in Hl as [-> Hs].
    apply outcome_bind_Ok in H as (hs & [-> Hh]%validated_hashes_spec & H%mret_Ok).
    assert (stems = VList (VStr <$> l) /\ hashes = VDict d) as [-> ->].
    { unfold validate_marker_collections in Hc. apply outcome_bind_Ok in Hc as ([vs' d'] & Ht & Hc).
      assert (vs' = VStr <$> l /\ d' = d) as [-> ->].
      { outcome_inv Hc. apply mret_Ok in Hc. by simplify_eq. }
      unfold validate_marker_types in Ht. repeat case_match; try done. apply mret_Ok in Ht. by simplify_eq. }
    apply validate_marker_collections_strs in Hc as (H1 & H2 & H3). subst r. exists l, d.
    split_and!; [done..| |done]. by split.
  - intros (l & d & -> & -> & [H1 H2 H3 H4 H5] & ->).
    rewrite (proj2 (validate_marker_collections_strs l d)) by done. cbn [mbind outcome_bind].
    rewrite (proj2 (validate_marker_stems_spec (VStr <$> l) l)) by done. simpl.
    by rewrite (proj2 (validated_hashes_spec d l (marker_entry d <$> l))).
Qed.

(** * Payloads *)

Lemma elem_of_marker_stems m k : k ∈ marker_stems m <-> is_Some (m !! k).
Proof.
  unfold marker_stems. rewrite elem_of_sorted_strs, list_elem_of_fmap. split.
  - intros ([k' h] & -> & H%elem_of_map_to_list). by exists h.
  - intros [h H%elem_of_map_to_list]. by exists (k, h).
Qed.

Lemma NoDup_marker_stems m : NoDup (marker_stems m).
Proof. unfold marker_stems. rewrite sorted_strs_perm. apply NoDup_fst_map_to_list. Qed.

Lemma hashes_field_keys m : (hashes_field m).*1 = marker_stems m.
Proof. unfold hashes_field. rewrite <- list_fmap_compose. apply list_fmap_id. Qed.

Lemma dget_hashes_field m k : dget k (hashes_field m) = VStr <$> m !! k.
Proof.
  destruct (m !! k) as [h|] eqn:E; simpl.
  - apply dget_NoDup; [rewrite hashes_field_keys; apply NoDup_marker_stems|].
    apply list_elem_of_fmap. exists k. rewrite E. split; [done|]. apply elem_of_marker_stems. by rewrite E.
  - apply dget_None. rewrite hashes_field_keys, elem_of_marker_stems, E. by intros [? ?].
Qed.

Lemma py_eqb_dict d d' :
  py_eqb (VDict d) (VDict d') = true ->
  length d = length d' /\ forall k v, (k, v) ∈ d -> exists w, dget k d' = Some w /\ py_eqb v w = true.
Proof.
  simpl. intros [Hl H]%andb_true_iff. apply Nat.eqb_eq in Hl. split; [done|]. clear Hl.
  induction d as [|[k0 v0] d IH]; intros k v Hin; [by apply elem_of_nil in Hin|].
  apply andb_true_iff in H as [Hv H]. apply elem_of_cons in Hin as [[= -> ->]|Hin]; [|by apply IH].
  destruct (dget k0 d') as [w|]; [|done]. by exists w.
Qed.

Lemma marker_payload_inj m m' :
  py_eqb (VDict (marker_payload m)) (VDict (marker_payload m')) = true -> m = m'.
Proof.
  intros [_ H]%py_eqb_dict.
  destruct (H (u "fingerprint_hashes") (VDict (hashes_field m))) as (w & Hw & He); [by right; left|].
  assert (w = VDict (hashes_field m')) as -> by (injection Hw; done). clear Hw. apply py_eqb_dict in He as [Hlen He].
  apply map_subseteq_size_eq.
  - apply map_subseteq_spec. intros k h Hk.
    destruct (He k (VStr h)) as (w & Hw & Heq).
    { apply dget_elem_of. by rewrite dget_hashes_field, Hk. }
    rewrite dget_hashes_field in Hw. destruct (m' !! k) as [h'|]; [|done]. simpl in Hw. simplify_eq.
    change (str_eqb h h' = true) in Heq. by destruct (str_eqb_spec h h') as [->|].
  - assert (Hs : forall m, length (hashes_field m) = size m).
    { intros n. unfold hashes_field, marker_stems. rewrite length_fmap, sorted_strs_perm, length_fmap.
      by rewrite length_map_to_list. }
    rewrite <- !Hs. lia.
Qed.

Lemma marker_args_keys l d k : marker_args l d -> k ∈ l <-> is_Some (marker_of d !! k).
Proof.
  intros [_ _ Hk _ Hh]. rewrite Forall_forall in Hh. split.
  - intros (h & E & _)%Hh. exists h. by apply lookup_marker_of.
  - intros [h E%lookup_marker_of]. apply Hk. apply dget_elem_of in E. by apply elem_of_fst in E.
Qed.

Lemma marker_args_ok l d : marker_args l d -> marker_ok (marker_of d).
Proof.
  intros Ha. pose proof (marker_args_keys l d) as Hk. destruct Ha as [H1 H2 H3 H4 H5] eqn:EH; clear EH.
  rewrite Forall_forall in H4, H5. split.
  - destruct l as [|x l]; [done|]. intros E. destruct (Hk x) as [Hx _]; [by split; rewrite ?Forall_forall|].
    rewrite E, lookup_empty in Hx. destruct Hx as [? ?]; [by left|done].
  - intros k h E. assert (Hl : k ∈ l) by (apply Hk; [by split; rewrite ?Forall_forall|by exists h]).
    split; [by apply H4|]. destruct (H5 k Hl) as (h' & E' & Hh). apply lookup_marker_of in E. congruence.
Qed.

Lemma payload_of_args l d :
  marker_args l d -> envelope_marker_payload l (marker_entry d <$> l) = marker_payload (marker_of d).
Proof.
  intros Ha. assert (Hs : sorted_strs l = marker_stems (marker_of d)).
  { apply sorted_strs_unique, NoDup_Permutation; [apply Ha|apply NoDup_fst_map_to_list|].
    intros k. rewrite (marker_args_keys l d k Ha), <- elem_of_marker_stems. apply elem_of_sorted_strs. }
  assert (Hk : (marker_entry d <$> l).*1 = l).
  { rewrite <- list_fmap_compose. apply list_fmap_id. }
  unfold envelope_marker_payload, marker_payload, hashes_field. rewrite Hk, Hs.
  do 4 f_equal. apply list_fmap_ext. intros i k Hik. do 2 f_equal.
  rewrite (dget_NoDup k (default [] (marker_of d !! k))); [done|by rewrite Hk; apply Ha|].
  apply list_elem_of_fmap. exists k. split; [done|].
  apply elem_of_sorted_strs. rewrite Hs. by apply list_elem_of_lookup_2 in Hik.
Qed.

(** * What the readers return *)

Lemma validated_stems_spec S d :
  dget (u "stems") d = Some (VList (VStr <$> sorted_strs (elements S))) -> set_Forall safe S ->
  validated_pending_stems d = Ok S.
Proof.
  intros Hd HS. unfold validated_pending_stems, pending_stem_values, dget_none. rewrite Hd.
  cbn [mbind outcome_bind mret outcome_ret default from_option id].
  assert (Hl : Forall safe (sorted_strs (elements S))).
  { rewrite sorted_strs_perm. apply Forall_forall. intros x Hx%elem_of_elements. by apply HS. }
  assert (Hv : forall idx, validate_pending_stems_from idx (VStr <$> sorted_strs (elements S)) = Ok (sorted_strs (elements S))).
  { clear Hd. induction Hl as [|x l Hx _ IH]; intros idx; [done|]. csimpl. cbn [validate_pending_stems_from validate_pending_stem_at].
    rewrite (proj2 (validate_stem_spec x x)) by done. cbn [mbind outcome_bind]. by rewrite IH. }
  unfold validate_pending_stem_values. rewrite Hv. cbn [mbind outcome_bind].
  rewrite bool_decide_eq_true_2 by (rewrite sorted_strs_perm; apply NoDup_elements). simpl.
  f_equal. apply set_eq. intros x. rewrite elem_of_list_to_set, elem_of_sorted_strs. apply elem_of_elements.
Qed.

Lemma validated_marker_spec m : marker_ok m -> validated_metadata_marker (VDict (marker_payload m)) = Ok (marker_payload m).
Proof.
  intros [_ Hm]. unfold validated_metadata_marker.
  assert (Hk : validate_metadata_marker_keys (marker_payload m) = Ok tt) by reflexivity.
  rewrite Hk. cbn [mbind outcome_bind].
  change (dget_none (u "stems") _) with (VList (VStr <$> marker_stems m)).
  change (dget_none (u "fingerprint_hashes") _) with (VDict (hashes_field m)).
  assert (Hsafe : forall k, k ∈ marker_stems m -> safe k).
  { intros k [h Hh]%elem_of_marker_stems. by apply Hm in Hh as [? _]. }
  assert (Hs : validate_metadata_marker_stems (VList (VStr <$> marker_stems m)) =
    Ok (VStr <$> dedup_from [] (marker_stems m))).
  { unfold validate_metadata_marker_stems. rewrite py_set_strs. cbn [mbind outcome_bind]. rewrite !length_fmap.
    destruct (length_dedup [] (marker_stems m) (NoDup_nil_2)) as [_ [_ Hlen]].
    rewrite Hlen by apply NoDup_marker_stems. simpl. rewrite Nat.eqb_refl. simpl.
    rewrite (mapM_checks _ (fun v => match v with VStr s => s | _ => [] end)); [done|].
    intros v (k & -> & Hk')%list_elem_of_fmap. apply validate_marker_stem_shape_spec. split; [by apply Hsafe|done]. }
  rewrite Hs. cbn [mbind outcome_bind]. unfold validate_metadata_marker_hashes, key_set. rewrite hashes_field_keys.
  rewrite (proj2 (set_eqb_strs _ _)).
  2:{ intros x. rewrite elem_of_dedup. split; [by right|by intros [?%elem_of_nil|?]]. }
  cbn [raise_if negb mbind outcome_bind].
  rewrite (mapM_checks _ (fun v => match v with VStr s => s | _ => [] end)); [done|].
  intros v (kv & -> & (k & -> & Hk')%list_elem_of_fmap)%list_elem_of_fmap. simpl.
  apply elem_of_marker_stems in Hk' as [h Hh]. rewrite Hh. simpl.
  apply (validate_marker_hash_spec (VStr h)). split; [done|]. by apply Hm in Hh as [_ ?].
Qed.

(** * Envelopes *)

Section Intent.
Context {RT : Runtime} {FF : FileFormats}.
Variable temporary_middle : gmap path node -> path -> str.
Variable data_root : path.
Hypothesis temporary_is_fresh : forall t p, t !! temporary_name temporary_middle p t = None.
Abbreviation manifest := (manifest_path data_root).

(** The envelope on disk stands for an intent; without a file there is none. *)
Definition represents (t : gmap path node) (i : Intent) : Prop :=
  match t !! manifest with
  | None => i = no_intent
  | Some (File (CJson (VDict d))) => describes d i
  | _ => False
  end.

(** What [load_envelope] returns for it. *)
Definition envelope_of (d : pydict) (i : Intent) : Prop := d = [] /\ i = no_intent \/ describes d i.

Lemma manifest_exists t : path_exists manifest t = match t !! manifest with Some _ => true | None => false end.
Proof.
  unfold path_exists. destruct (t !! manifest); [done|]. unfold manifest_path, child.
  apply bool_decide_eq_false. by destruct (processed_manifests data_root).
Qed.

Lemma load_envelope_represents t i :
  represents t i -> exists d, load_envelope data_root t = Ok d /\ envelope_of d i /\
    (t !! manifest = None /\ d = [] \/ t !! manifest = Some (File (CJson (VDict d)))).
Proof.
  unfold represents, load_envelope, read_envelope, read_json. rewrite manifest_exists.
  destruct (t !! manifest) as [[[b|[| | | | | | |d]]|]|]; try done.
  - intros H. exists d. split_and!; [|by right|by right]. destruct H as [Hv _ _ _ _ _].
    unfold dget_none. cbn [negb mbind outcome_bind]. by rewrite Hv.
  - intros ->. exists []. split_and!; [done|by left|by left].
Qed.

Lemma load_pending_represents t i : represents t i -> load_pending_publications data_root t = Ok (pending i).
Proof.
  intros H. destruct (load_envelope_represents t i H) as (d & Hl & Hd & Ht).
  unfold load_pending_publications. rewrite manifest_exists.
  destruct Ht as [[Ht ->]|Ht]; unfold represents in H; rewrite Ht in H |- *; [by subst|].
  simpl. rewrite Hl. simpl. apply validated_stems_spec; apply H.
Qed.

Lemma load_marker_represents t i :
  represents t i -> load_metadata_refresh_marker data_root t = Ok (marker_payload <$> refresh i).
Proof.
  intros H. destruct (load_envelope_represents t i H) as (d & Hl & Hd & Ht).
  unfold load_metadata_refresh_marker. rewrite manifest_exists.
  destruct Ht as [[Ht ->]|Ht]; unfold represents in H; rewrite Ht in H |- *; [by subst|].
  simpl. rewrite Hl. simpl. rewrite (d_marker d i H). destruct (refresh i) as [m|] eqn:E; [|done].
  cbn [fmap option_fmap option_map]. rewrite validated_marker_spec; [done|]. by apply (d_marker_ok d i H).
Qed.

(** ** Updates *)

Lemma with_stems_describes d i l :
  envelope_of d i -> NoDup l -> Forall safe l ->
  describes (with_pending_stems l d) (with_pending (list_to_set l) i).
Proof.
  intros Hd Hl Hs. unfold with_pending_stems. split.
  - rewrite dget_dset_ne by done. apply dget_dset_eq.
  - rewrite dget_dset_eq. do 3 f_equal. apply sorted_strs_unique. simpl.
    symmetry. by apply elements_list_to_set.
  - rewrite !dget_dset_ne by done. destruct Hd as [[-> ->]|Hd]; [done|apply Hd].
  - intros k Hk. unfold field_names in Hk. rewrite !dget_dset_ne by set_solver.
    destruct Hd as [[-> ->]|Hd]; [done|by apply Hd].
  - intros x Hx. simpl in Hx. rewrite elem_of_list_to_set in Hx. rewrite Forall_forall in Hs. by apply Hs.
  - intros m Hm. simpl in Hm. destruct Hd as [[-> ->]|Hd]; [done|by apply Hd].
Qed.

Lemma with_marker_describes d i m :
  envelope_of d i -> marker_ok m ->
  describes (with_marker_payload d (marker_payload m)) (with_refresh (Some m) i).
Proof.
  intros Hd Hm. unfold with_marker_payload. split.
  - rewrite dget_dsetdefault, dget_dsetdefault_ne, dget_dset_ne by done.
    destruct Hd as [[-> ->]|Hd]; [done|]. by rewrite (d_version d i Hd).
  - rewrite dget_dsetdefault_ne, dget_dsetdefault, dget_dset_ne by done.
    destruct Hd as [[-> ->]|Hd]; [done|]. by rewrite (d_stems d i Hd).
  - rewrite !dget_dsetdefault_ne by done. apply dget_dset_eq.
  - intros k Hk. unfold field_names in Hk. rewrite !dget_dsetdefault_ne, dget_dset_ne by set_solver.
    destruct Hd as [[-> ->]|Hd]; [done|by apply Hd].
  - destruct Hd as [[-> ->]|Hd]; [by intros x ?%elem_of_empty|by apply Hd].
  - intros m' Hm'. simpl in Hm'. congruence.
Qed.

Lemma without_marker_describes d i :
  describes d i -> describes (ddel (u "metadata_refresh") d) (with_refresh None i).
Proof.
  intros Hd. split.
  - rewrite dget_ddel_ne by done. apply Hd.
  - rewrite dget_ddel_ne by done. apply Hd.
  - apply dget_ddel_eq.
  - intros k Hk. unfold field_names in Hk. rewrite dget_ddel_ne by set_solver. by apply Hd.
  - apply Hd.
  - done.
Qed.

(** ** Writers *)

(** A writer that, from the envelope of [i], ends with that of [i'] when it returns and with that
    of [i] when it raises. *)
Definition turns {A} (m : PyM FsState A) (i i' : Intent) : Prop :=
  forall s o s', represents (tree s) i -> m s = (o, s') ->
    represents (tree s') (match o with Ok _ => i' | Raise _ => i end).

(** A computation that leaves the envelope alone. *)
Definition spares {A} (m : PyM FsState A) : Prop :=
  forall s o s', m s = (o, s') -> tree s' !! manifest = tree s !! manifest.

Lemma represents_same t t' i : t' !! manifest = t !! manifest -> represents t i -> represents t' i.
Proof. unfold represents. by intros ->. Qed.

Lemma turns_after_spares {A B} (m : PyM FsState A) (f : A -> PyM FsState B) i i' :
  spares m -> (forall a s s', m s = (Ok a, s') -> turns (f a) i i') -> turns (pbind m f) i i'.
Proof.
  intros Hm Hf s o s' Hi. unfold pbind. destruct (m s) as [[a|e] s1] eqn:E; intros H.
  - eapply Hf; [done| |exact H]. by eapply represents_same; [eapply Hm|].
  - simplify_eq. by eapply represents_same; [eapply Hm|].
Qed.

Lemma turns_load {B} (f : pydict -> PyM FsState B) i i' :
  (forall d s o s', envelope_of d i -> represents (tree s) i ->
     (tree s !! manifest = None /\ d = [] \/ tree s !! manifest = Some (File (CJson (VDict d)))) ->
     f d s = (o, s') -> represents (tree s') (match o with Ok _ => i' | Raise _ => i end)) ->
  turns (pbind (reads (load_envelope data_root)) f) i i'.
Proof.
  intros Hf s o s' Hi. destruct (load_envelope_represents _ _ Hi) as (d & Hl & Hd & Ht).
  unfold pbind, reads. rewrite Hl. by apply Hf.
Qed.

Lemma turns_nothing {A} (a : A) i : turns (ret a) i i.
Proof. intros s o s' Hi H. unfold ret in H. by simplify_eq. Qed.

Lemma spares_mkdir : spares (mkdir (path_parent manifest)).
Proof. intros s o s' H. by apply mkdir_cases in H as (? & _). Qed.

Lemma spares_lift {A} (o : outcome A) : spares (lift o).
Proof. intros s o' s' H. unfold lift in H. by simplify_eq. Qed.

Lemma spares_gets {A} (f : FsState -> A) : spares (gets f).
Proof. intros s o' s' H. unfold gets in H. by simplify_eq. Qed.

Lemma turns_write d' i i' :
  describes d' i' -> turns (atomic_write_json temporary_middle manifest (VDict d')) i i'.
Proof.
  intros Hd s o s' Hi H. apply atomic_write_json_replaced in H as [Ht _ _]; [|done].
  destruct Ht as [[[e ->] Ht]|[-> (c & -> & Ht)]].
  - by eapply represents_same.
  - unfold represents. by rewrite Ht.
Qed.

Lemma turns_save_envelope d' i i' :
  describes d' i' -> turns (save_envelope temporary_middle data_root d') i i'.
Proof.
  intros Hd. apply turns_after_spares; [apply spares_mkdir|]. intros _ s s' _. by apply turns_write.
Qed.

Lemma turns_replace_stems l i :
  NoDup l -> Forall safe l ->
  turns (replace_pending_stems temporary_middle data_root l) i (with_pending (list_to_set l) i).
Proof.
  intros Hl Hs. apply turns_load. intros d s o s' Hd Hi _ H.
  by eapply turns_write; [apply with_stems_describes| |].
Qed.

Lemma turns_save S i : turns (save_pending_publications temporary_middle data_root S) i (with_pending S i).
Proof.
  apply turns_after_spares; [apply spares_mkdir|]. intros _ s s' _.
  apply turns_after_spares; [apply spares_lift|]. intros l s2 s3 Hl. injection Hl as Hl _.
  apply outcome_mapM_Forall2 in Hl.
  assert (l = elements S /\ Forall safe l) as [-> Hs].
  { induction Hl as [|x y xs ys Hx _ [-> IH]]; [by split|]. apply validate_stem_spec in Hx as [Hx ->].
    split; [done|by constructor]. }
  rewrite <- (list_to_set_elements_L S) at 2. apply turns_replace_stems; [apply NoDup_elements|done].
Qed.

Lemma turns_replace_marker m i :
  marker_ok m -> turns (replace_marker temporary_middle data_root (marker_payload m)) i (with_refresh (Some m) i).
Proof.
  intros Hm. apply turns_load. intros d s o s' Hd Hi Ht H. unfold pbind, gets in H.
  rewrite manifest_exists in H. destruct (_ && _) eqn:E in H.
  - apply andb_true_iff in E as [E _]. unfold ret in H. simplify_eq.
    replace (with_refresh (Some m) i) with i; [done|].
    destruct Hd as [[-> ->]|Hd]; [done|]. unfold dget_none in E. rewrite (d_marker d i Hd) in E.
    destruct i as [S [m'|] X]; [|done]. apply marker_payload_inj in E as ->. done.
  - eapply turns_save_envelope; [by apply with_marker_describes|done|exact H].
Qed.

Lemma turns_delete_marker i : turns (delete_marker temporary_middle data_root) i (with_refresh None i).
Proof.
  apply turns_load. intros d s o s' Hd Hi Ht H. unfold dmem in H.
  assert (Hn : dget (u "metadata_refresh") d = (fun m => VDict (marker_payload m)) <$> refresh i).
  { destruct Hd as [[-> ->]|Hd]; [done|apply Hd]. }
  rewrite Hn in H. destruct (refresh i) as [m|] eqn:E; simpl in H.
  - destruct Hd as [[-> ->]|Hd]; [done|].
    eapply turns_save_envelope; [by apply without_marker_describes|exact Hi|exact H].
  - unfold ret in H. simplify_eq. destruct i as [S M X]. simpl in *. by subst M.
Qed.

Lemma turns_set_marker stems hashes i :
  turns (set_metadata_refresh_marker temporary_middle data_root stems hashes) i
    (match hashes with VDict d => with_refresh (Some (marker_of d)) i | _ => i end).
Proof.
  apply turns_after_spares; [apply spares_lift|]. intros r s s' H. injection H as H _.
  apply validated_marker_inputs_spec in H as (l & d & -> & -> & Ha & ->). simpl.
  rewrite payload_of_args by done. apply turns_replace_marker. by eapply marker_args_ok.
Qed.

(** * Refinement *)

Inductive request :=
  | SavePending (stems : gset str)
  | AddPending (stems : gset str)
  | RemovePending (stems : gset str)
  | SetMarker (stems fingerprint_hashes : pyval)
  | ClearMarker.

Definition run_request (r : request) : PyM FsState unit :=
  match r with
  | SavePending ss => save_pending_publications temporary_middle data_root ss
  | AddPending ss => add_pending_publications temporary_middle data_root ss
  | RemovePending ss => remove_pending_publications temporary_middle data_root ss
  | SetMarker stems hashes => set_metadata_refresh_marker temporary_middle data_root stems hashes
  | ClearMarker => clear_metadata_refresh_marker temporary_middle data_root
  end.

(** What each operation means for the intent. *)
Definition intent_after (r : request) (i : Intent) : Intent :=
  match r with
  | SavePending ss => with_pending ss i
  | AddPending ss => with_pending (pending i ∪ ss) i
  | RemovePending ss => with_pending (pending i ∖ ss) i
  | SetMarker _ (VDict d) => with_refresh (Some (marker_of d)) i
  | SetMarker _ _ => i
  | ClearMarker => with_refresh None i
  end.

(** The requests that are not refused. *)
Definition request_valid (r : request) : Prop :=
  match r with
  | SavePending ss | AddPending ss => set_Forall safe ss
  | SetMarker stems hashes => exists l d, stems = VList (VStr <$> l) /\ hashes = VDict d /\ marker_args l d
  | RemovePending _ | ClearMarker => True
  end.

Lemma with_pending_id i : with_pending (pending i) i = i.
Proof. by destruct i. Qed.

Lemma turns_update (f : gset str -> gset str) i :
  turns (pbind (reads (load_pending_publications data_root)) (fun current =>
    save_pending_publications temporary_middle data_root (f current))) i (with_pending (f (pending i)) i).
Proof.
  intros s o s' Hi. unfold pbind, reads. rewrite (load_pending_represents _ _ Hi).
  by apply turns_save.
Qed.

Lemma turns_request r i : turns (run_request r) i (intent_after r i).
Proof.
  destruct r as [S|S|S|stems hashes|]; simpl.
  - apply turns_save.
  - unfold add_pending_publications. case_bool_decide as E; [|apply (turns_update (fun c => c ∪ S))].
    subst S. rewrite union_empty_r_L, with_pending_id. apply turns_nothing.
  - unfold remove_pending_publications. case_bool_decide as E; [|apply (turns_update (fun c => c ∖ S))].
    subst S. rewrite difference_empty_L, with_pending_id. apply turns_nothing.
  - pose proof (turns_set_marker stems hashes i) as H. by destruct hashes.
  - intros s o s' Hi H. unfold clear_metadata_refresh_marker, pbind, gets in H. rewrite manifest_exists in H.
    destruct (tree s !! manifest) as [n|] eqn:E; simpl in H; [by eapply turns_delete_marker|].
    unfold ret in H. simplify_eq. by unfold represents in Hi |- *; rewrite E in *; subst i.
Qed.

(** ** Without faults *)

(** The directory of the envelope exists. *)
Definition manifest_ready (t : gmap path node) : Prop :=
  Forall (fun q => t !! q = Some Dir) (prefixes (processed_manifests data_root)).

(** A state in which a write succeeds. *)
Definition writable (s : FsState) (i : Intent) : Prop :=
  calm s /\ manifest_ready (tree s) /\ represents (tree s) i.

Definition returns (m : PyM FsState unit) (s : FsState) : Prop :=
  exists s', m s = (Ok tt, s') /\ calm s' /\ manifest_ready (tree s').

Lemma manifest_not_parent : manifest ∉ prefixes (processed_manifests data_root).
Proof. rewrite <- (path_parent_child (processed_manifests data_root) FILENAME). apply not_parent. Qed.

Lemma write_returns s i v : writable s i -> returns (atomic_write_json temporary_middle manifest v) s.
Proof.
  intros (Hc & Hd & Hi). destruct (calmly_atomic_write_json temporary_middle manifest v s) as ([] & s' & E & Hc' & Ht);
    [done|done|..].
  - unfold manifest_path. by rewrite path_parent_child.
  - unfold represents in Hi. intros E. by rewrite E in Hi.
  - exists s'. split_and!; [done..|]. rewrite Ht. unfold manifest_ready in *.
    rewrite Forall_forall in Hd |- *. intros q Hq. rewrite lookup_insert_ne; [by apply Hd|].
    intros <-. by apply manifest_not_parent in Hq.
Qed.

Lemma mkdir_returns s i (f : unit -> PyM FsState unit) :
  writable s i -> (forall s', writable s' i -> returns (f tt) s') ->
  returns (pbind (mkdir (path_parent manifest)) f) s.
Proof.
  intros (Hc & Hd & Hi) Hf.
  destruct (primitive_calm (mkdirs (prefixes (path_parent manifest))) s Hc) as (s1 & E1 & Ht & Hc1).
  unfold manifest_path in E1, Ht. rewrite path_parent_child in E1, Ht. rewrite (mkdirs_all_dirs _ _ Hd) in E1, Ht.
  simpl in Ht. unfold returns, pbind, mkdir. unfold manifest_path. rewrite path_parent_child, E1.
  apply Hf. by split_and!; [|rewrite Ht..].
Qed.

Lemma save_envelope_returns s i v : writable s i -> returns (save_envelope temporary_middle data_root v) s.
Proof. intros H. eapply mkdir_returns; [exact H|]. intros. by eapply write_returns. Qed.

Lemma save_returns s i S :
  writable s i -> set_Forall safe S -> returns (save_pending_publications temporary_middle data_root S) s.
Proof.
  intros H HS. eapply mkdir_returns; [exact H|]. intros s' Hs'. unfold returns, pbind, lift.
  assert (Hv : mapM validate_stem (elements S) = Ok (id <$> elements S)).
  { apply mapM_checks. intros x Hx%elem_of_elements. apply validate_stem_spec. by split; [apply HS|]. }
  rewrite Hv, list_fmap_id. unfold replace_pending_stems, pbind, reads.
  destruct (load_envelope_represents (tree s') i) as (d & -> & _ & _); [apply Hs'|].
  by eapply write_returns.
Qed.

Lemma replace_marker_returns s i m :
  writable s i -> returns (replace_marker temporary_middle data_root m) s.
Proof.
  intros H. unfold returns, replace_marker, pbind, reads, gets.
  destruct (load_envelope_represents (tree s) i) as (d & -> & _ & _); [apply H|].
  destruct (_ && _); [exists s; split_and!; [done|apply H..]|]. by eapply save_envelope_returns.
Qed.

Lemma delete_marker_returns s i :
  writable s i -> returns (delete_marker temporary_middle data_root) s.
Proof.
  intros H. unfold returns, delete_marker, pbind, reads.
  destruct (load_envelope_represents (tree s) i) as (d & -> & _ & _); [apply H|].
  destruct (negb _); [exists s; split_and!; [done|apply H..]|]. by eapply save_envelope_returns.
Qed.

Lemma represents_safe t i : represents t i -> set_Forall safe (pending i).
Proof.
  unfold represents. destruct (t !! manifest) as [[[b|[]]|]|]; try done; [apply d_safe|].
  intros ->. by intros x ?%elem_of_empty.
Qed.

Lemma request_returns r s i : writable s i -> request_valid r -> returns (run_request r) s.
Proof.
  intros H Hr. pose proof (proj2 (proj2 H)) as Hi. pose proof (represents_safe _ _ Hi) as Hsafe.
  assert (Hid : returns (ret tt) s) by (exists s; split_and!; [done|apply H..]).
  destruct r as [S|S|S|stems hashes|]; simpl in *.
  - by eapply save_returns.
  - unfold add_pending_publications. case_bool_decide; [done|]. unfold returns, pbind, reads.
    rewrite (load_pending_represents _ _ Hi). eapply save_returns; [done|]. by apply set_Forall_union.
  - unfold remove_pending_publications. case_bool_decide; [done|]. unfold returns, pbind, reads.
    rewrite (load_pending_represents _ _ Hi). eapply save_returns; [done|].
    intros x [Hx _]%elem_of_difference. by apply Hsafe.
  - destruct Hr as (l & d & -> & -> & Ha). unfold returns, set_metadata_refresh_marker, pbind, lift.
    rewrite (proj2 (validated_marker_inputs_spec _ _ (l, marker_entry d <$> l))) by (exists l, d; by split_and!).
    by eapply replace_marker_returns.
  - unfold clear_metadata_refresh_marker, returns, pbind, gets.
    destruct (negb _); [done|]. by eapply delete_marker_returns.
Qed.

(** C13: Refinement.  Every operation on the envelope implements an operation on the abstract
    intent - a set of pending stems and the digests of the regions whose metadata is owed.  From a
    file that stands for an intent, and for every sequence of faults, the file afterwards stands for
    the new intent if the operation returned and for the old one if it raised, the fields of other
    writers are untouched, and the two readers return exactly the intent's stems and marker.  In a
    directory that exists and without faults a valid request does return. *)
Theorem publication_intent_refined r s i :
  represents (tree s) i ->
  let '(o, s') := run_request r s in
  let i' := match o with Ok _ => intent_after r i | Raise _ => i end in
  represents (tree s') i' /\
  load_pending_publications data_root (tree s') = Ok (pending i') /\
  load_metadata_refresh_marker data_root (tree s') = Ok (marker_payload <$> refresh i') /\
  (request_valid r -> calm s -> manifest_ready (tree s) -> o = Ok tt).
Proof.
  intros Hi. destruct (run_request r s) as [o s'] eqn:E. pose proof (turns_request r i s o s' Hi E) as Hi'.
  split_and!; [done|by apply load_pending_represents|by apply load_marker_represents|].
  intros Hr Hc Hd. destruct (request_returns r s i) as (s2 & E2 & _); [by split_and!|done|].
  rewrite E in E2. by simplify_eq.
Qed.

End Intent.
