(* ===== verification/PendingThreads.v ===== *)
(** The publication intent under concurrency: the main thread and the upload worker interleave the
    sections of the operations of [pipeline/pending_publications.py] that [_ENVELOPE_LOCK]
    protects, and the reads they make outside of it. *)
From stdpp Require Import gmap.
From S2P Require Import Prelude Py PyStr Fs Calm Artifacts Atomic Pending PendingProofs.

(** Where a thread is: outside the module, between the unlocked read of the pending stems and the
    locked write of [target], or between the unlocked existence test and the locked section of
    [clear_metadata_refresh_marker]. *)
Inductive phase := Idle | Saving (target : gset str) | Clearing.

Record System := mkSys { sys_fs : FsState; sys_threads : list phase }.

(** What a locked section has made durable. *)
Inductive event := ESaved (stems : gset str) | EMarked (m : option (gmap str str)).

Definition marker_event (hashes : pyval) : list event :=
  match hashes with VDict d => [EMarked (Some (marker_of d))] | _ => [] end.
Definition when_ok (o : outcome unit) (e : list event) : list event :=
  match o with Ok _ => e | Raise _ => [] end.

Section Threads.
Context {RT : Runtime} {FF : FileFormats}.
Variable temporary_middle : gmap path node -> path -> str.
Variable data_root : path.
Abbreviation manifest := (manifest_path data_root).

(** A read sees one version of the file, since it is only ever replaced by a rename.  The part of
    [save_pending_publications] before the lock only makes the directory, so it belongs to the
    step that takes the lock.  [p_environment] is everything the rest of the program does. *)
Inductive pstep : System -> list event -> System -> Prop :=
  | p_add fs ths i stems current :
      ths !! i = Some Idle -> stems ≠ ∅ -> load_pending_publications data_root (tree fs) = Ok current ->
      pstep (mkSys fs ths) [] (mkSys fs (<[i := Saving (current ∪ stems)]> ths))
  | p_remove fs ths i stems current :
      ths !! i = Some Idle -> stems ≠ ∅ -> load_pending_publications data_root (tree fs) = Ok current ->
      pstep (mkSys fs ths) [] (mkSys fs (<[i := Saving (current ∖ stems)]> ths))
  | p_save fs ths i stems :
      ths !! i = Some Idle -> pstep (mkSys fs ths) [] (mkSys fs (<[i := Saving stems]> ths))
  | p_saved fs ths i stems o fs' :
      ths !! i = Some (Saving stems) ->
      save_pending_publications temporary_middle data_root stems fs = (o, fs') ->
      pstep (mkSys fs ths) (when_ok o [ESaved stems]) (mkSys fs' (<[i := Idle]> ths))
  | p_mark fs ths i stems hashes o fs' :
      ths !! i = Some Idle ->
      set_metadata_refresh_marker temporary_middle data_root stems hashes fs = (o, fs') ->
      pstep (mkSys fs ths) (when_ok o (marker_event hashes)) (mkSys fs' ths)
  | p_clear fs ths i :
      ths !! i = Some Idle -> path_exists manifest (tree fs) = true ->
      pstep (mkSys fs ths) [] (mkSys fs (<[i := Clearing]> ths))
  | p_cleared fs ths i o fs' :
      ths !! i = Some Clearing -> delete_marker temporary_middle data_root fs = (o, fs') ->
      pstep (mkSys fs ths) (when_ok o [EMarked None]) (mkSys fs' (<[i := Idle]> ths))
  | p_environment fs ths fs' :
      tree fs' !! manifest = tree fs !! manifest -> pstep (mkSys fs ths) [] (mkSys fs' ths).

(** Runs, with the events in their order. *)
Inductive pruns (y0 : System) : list event -> System -> Prop :=
  | pruns_none : pruns y0 [] y0
  | pruns_step es y1 e y2 : pruns y0 es y1 -> pstep y1 e y2 -> pruns y0 (es ++ e) y2.

(** * What the file stands for *)

Definition commit (i : Intent) (e : event) : Intent :=
  match e with ESaved stems => with_pending stems i | EMarked m => with_refresh m i end.

(** The last stems saved and the last marker set or cleared. *)
Definition last_saved (es : list event) (initial : gset str) : gset str :=
  default initial (last (omap (fun e => match e with ESaved stems => Some stems | _ => None end) es)).
Definition last_marked (es : list event) (initial : option (gmap str str)) : option (gmap str str) :=
  default initial (last (omap (fun e => match e with EMarked m => Some m | _ => None end) es)).

Lemma last_saved_snoc es e S :
  last_saved (es ++ [e]) S = match e with ESaved stems => stems | _ => last_saved es S end.
Proof.
  unfold last_saved. rewrite omap_app. destruct e; simpl; [by rewrite last_snoc|by rewrite app_nil_r].
Qed.

Lemma last_marked_snoc es e m :
  last_marked (es ++ [e]) m = match e with EMarked m' => m' | _ => last_marked es m end.
Proof.
  unfold last_marked. rewrite omap_app. destruct e; simpl; [by rewrite app_nil_r|by rewrite last_snoc].
Qed.

Lemma commits es i :
  pending (foldl commit i es) = last_saved es (pending i) /\
  refresh (foldl commit i es) = last_marked es (refresh i).
Proof.
  induction es as [|e es [IH1 IH2]] using rev_ind; [done|].
  rewrite foldl_app, last_saved_snoc, last_marked_snoc. by destruct e.
Qed.

Hypothesis temporary_is_fresh : forall t p, t !! temporary_name temporary_middle p t = None.

Lemma pstep_commits y e y' i :
  pstep y e y' -> represents data_root (tree (sys_fs y)) i ->
  represents data_root (tree (sys_fs y')) (foldl commit i e).
Proof.
  intros H Hi. destruct H; simpl in *; try done.
  - pose proof (turns_save _ data_root temporary_is_fresh _ _ _ _ _ Hi H0). by destruct o.
  - pose proof (turns_set_marker _ data_root temporary_is_fresh _ _ _ _ _ _ Hi H0) as Ht.
    by destruct o, hashes.
  - pose proof (turns_delete_marker _ data_root temporary_is_fresh _ _ _ _ Hi H0). by destruct o.
  - by eapply represents_same.
Qed.

Lemma pruns_commits y es y' i :
  pruns y es y' -> represents data_root (tree (sys_fs y)) i ->
  represents data_root (tree (sys_fs y')) (foldl commit i es).
Proof.
  intros H Hi. induction H as [|es y1 e y2 _ IH Hs]; [done|]. rewrite foldl_app.
  by eapply pstep_commits.
Qed.

(** The lock keeps the two fields apart.  For any number of threads and any interleaving of
    their reads and locked sections, with any faults: the pending stems on disk are those of the
    last save that returned, whatever was done to the marker, and the marker is the last one that
    was set or cleared, whatever was done to the stems - no writer drops the field it does not
    touch. *)
Theorem fields_never_overwrite_each_other y es y' i :
  represents data_root (tree (sys_fs y)) i -> pruns y es y' ->
  load_pending_publications data_root (tree (sys_fs y')) = Ok (last_saved es (pending i)) /\
  load_metadata_refresh_marker data_root (tree (sys_fs y')) =
    Ok (marker_payload <$> last_marked es (refresh i)).
Proof.
  intros Hi H. pose proof (pruns_commits _ _ _ _ H Hi) as Hr. destruct (commits es i) as [<- <-].
  split; [by apply load_pending_represents|by apply load_marker_represents].
Qed.

(** C14: The stems themselves are read outside the lock, so an update can be lost.  In every
    state without faults in which the envelope can be written, a thread that adds stems and one
    that removes others can interleave so that both calls return and none of the added stems is
    pending afterwards. *)
Theorem concurrent_addition_is_lost fs i added removed :
  calm fs -> manifest_ready data_root (tree fs) -> represents data_root (tree fs) i ->
  added ≠ ∅ -> removed ≠ ∅ -> set_Forall safe added ->
  exists es y,
    pruns (mkSys fs [Idle; Idle]) es y /\ sys_threads y = [Idle; Idle] /\
    es = [ESaved (pending i ∪ added); ESaved (pending i ∖ removed)] /\
    load_pending_publications data_root (tree (sys_fs y)) = Ok (pending i ∖ removed).
Proof.
  intros Hc Hd Hi Ha Hr Hs. pose proof (load_pending_represents data_root _ _ Hi) as Hl.
  destruct (save_returns temporary_middle data_root temporary_is_fresh fs i (pending i ∪ added)) as (fs1 & E1 & Hc1 & Hd1).
  { by split_and!. } { apply set_Forall_union; [by eapply represents_safe|done]. }
  pose proof (turns_save _ data_root temporary_is_fresh _ _ _ _ _ Hi E1) as Hi1. simpl in Hi1.
  destruct (save_returns temporary_middle data_root temporary_is_fresh fs1 (with_pending (pending i ∪ added) i) (pending i ∖ removed))
    as (fs2 & E2 & Hc2 & Hd2).
  { by split_and!. }
  { intros x [Hx _]%elem_of_difference. by apply (represents_safe _ _ _ Hi). }
  pose proof (turns_save _ data_root temporary_is_fresh _ _ _ _ _ Hi1 E2) as Hi2. simpl in Hi2.
  exists [ESaved (pending i ∪ added); ESaved (pending i ∖ removed)], (mkSys fs2 [Idle; Idle]). split_and!; [|done|done|].
  - eapply (pruns_step _ [ESaved (pending i ∪ added)] _ [ESaved (pending i ∖ removed)]);
      [|by apply (p_saved fs1 [Idle; Saving (pending i ∖ removed)] 1 _ (Ok tt))].
    eapply (pruns_step _ [] _ [ESaved (pending i ∪ added)]);
      [|by apply (p_saved fs [Saving (pending i ∪ added); Saving (pending i ∖ removed)] 0 _ (Ok tt))].
    eapply (pruns_step _ [] _ []); [|by apply (p_remove fs [Saving (pending i ∪ added); Idle] 1)].
    eapply (pruns_step _ [] _ []); [apply pruns_none|by apply (p_add fs [Idle; Idle] 0)].
  - by apply (load_pending_represents data_root _ _ Hi2).
Qed.

End Threads.

(** * Examples

    A concrete publication intent: one pending region, one marker, and the two threads that lose an
    update. *)

#[local] Existing Instance example_runtime.
#[local] Existing Instance example_formats.

Definition pending_root : path := [u "data"].
Definition pending_dirs : list (path * node) :=
  (fun p => (p, Dir)) <$> prefixes (processed_manifests pending_root).

(** A region is pending, and its metadata is not owed. *)
Definition one_pending : Intent := {| pending := {[u "malta"]}; refresh := None; others := ∅ |}.
Definition one_pending_envelope : pydict :=
  [(u "contract_version", VStr CONTRACT_VERSION); (u "stems", VList [VStr (u "malta")])].
Definition pending_tree : gmap path node :=
  list_to_map ((manifest_path pending_root, File (CJson (VDict one_pending_envelope))) :: pending_dirs).
Definition pending_fs : FsState := mkFs pending_tree [].

Lemma pending_represented : represents pending_root pending_tree one_pending.
Proof.
  split; [vm_compute; reflexivity..| | |done].
  - intros k Hk. unfold field_names in Hk. simpl. rewrite lookup_empty.
    rewrite !str_eqb_neq; [done|set_solver..].
  - change (set_Forall (C := gset str) safe {[u "malta"]}). apply (set_Forall_singleton (C := gset str) safe). vm_compute. reflexivity.
Qed.

Lemma pending_dirs_ready : manifest_ready pending_root pending_tree.
Proof. unfold manifest_ready. vm_compute prefixes. by repeat constructor. Qed.

Definition some_hash : str := repeat 97%N 64.
Definition mark_malta : request :=
  SetMarker (VList [VStr (u "malta")]) (VDict [(u "malta", VStr some_hash)]).

Lemma mark_malta_valid : request_valid mark_malta.
Proof.
  exists [u "malta"], [(u "malta", VStr some_hash)]. split_and!; [done..|]. split.
  - done.
  - apply NoDup_singleton.
  - done.
  - constructor; [vm_compute; reflexivity|constructor].
  - constructor; [|constructor]. exists some_hash. split; vm_compute; reflexivity.
Qed.

(** Marking a region keeps the pending stems. *)
Lemma publication_intent_refined_witness :
  let r := run_request long_middle pending_root mark_malta pending_fs in
  r.1 = Ok tt /\
  load_pending_publications pending_root (tree r.2) = Ok {[u "malta"]} /\
  load_metadata_refresh_marker pending_root (tree r.2) =
    Ok (Some (marker_payload (marker_of [(u "malta", VStr some_hash)]))).
Proof.
  pose proof (publication_intent_refined long_middle pending_root temporary_name_fresh mark_malta pending_fs
    one_pending pending_represented) as H.
  destruct (run_request long_middle pending_root mark_malta pending_fs) as [o s'].
  destruct H as (_ & H1 & H2 & H3).
  specialize (H3 mark_malta_valid (Forall_nil_2 _) pending_dirs_ready). subst o. split_and!; [done|exact H1|exact H2].
Defined.

(** A thread is about to save a second region when another one sets the marker: both are there. *)
Lemma fields_never_overwrite_each_other_witness :
  let m := Some (marker_of [(u "malta", VStr some_hash)]) in
  exists y, pruns long_middle pending_root (mkSys pending_fs [Idle; Idle]) [EMarked m; ESaved {[u "samoa"]}] y /\
    load_pending_publications pending_root (tree (sys_fs y)) = Ok {[u "samoa"]} /\
    load_metadata_refresh_marker pending_root (tree (sys_fs y)) = Ok (marker_payload <$> m).
Proof.
  intros m. pose (r1 := run_request long_middle pending_root mark_malta pending_fs).
  pose (r2 := save_pending_publications long_middle pending_root {[u "samoa"]} r1.2).
  assert (E1 : r1.1 = Ok tt) by (vm_compute; reflexivity).
  assert (E2 : r2.1 = Ok tt) by (vm_compute; reflexivity).
  assert (H : pruns long_middle pending_root (mkSys pending_fs [Idle; Idle]) [EMarked m; ESaved {[u "samoa"]}]
    (mkSys r2.2 [Idle; Idle])).
  { eapply (pruns_step _ _ _ [EMarked m] _ [ESaved {[u "samoa"]}]);
      [|apply (p_saved _ _ r1.2 [Saving {[u "samoa"]}; Idle] 0 _ (Ok tt)); [done|by apply pair_of_fst]].
    eapply (pruns_step _ _ _ [] _ [EMarked m]);
      [|apply (p_mark _ _ pending_fs [Saving {[u "samoa"]}; Idle] 1 (VList [VStr (u "malta")])
          (VDict [(u "malta", VStr some_hash)]) (Ok tt)); [done|by apply pair_of_fst]].
    eapply (pruns_step _ _ _ [] _ []); [apply pruns_none|by apply (p_save _ _ pending_fs [Idle; Idle] 0)]. }
  exists (mkSys r2.2 [Idle; Idle]). split; [exact H|].
  exact (fields_never_overwrite_each_other long_middle pending_root temporary_name_fresh
    (mkSys pending_fs [Idle; Idle]) _ _ one_pending pending_represented H).
Defined.

(** The worker retires [malta] while the main thread adds [samoa]: nothing is pending in the end. *)
Lemma concurrent_addition_is_lost_witness :
  exists es y,
    pruns long_middle pending_root (mkSys pending_fs [Idle; Idle]) es y /\
    sys_threads y = [Idle; Idle] /\
    es = [ESaved ({[u "malta"]} ∪ {[u "samoa"]}); ESaved ({[u "malta"]} ∖ {[u "malta"]})] /\
    load_pending_publications pending_root (tree (sys_fs y)) = Ok ({[u "malta"]} ∖ {[u "malta"]}).
Proof.
  apply (concurrent_addition_is_lost long_middle pending_root temporary_name_fresh pending_fs one_pending
    {[u "samoa"]} {[u "malta"]}).
  - apply Forall_nil_2.
  - exact pending_dirs_ready.
  - exact pending_represented.
  - by apply non_empty_singleton_L.
  - by apply non_empty_singleton_L.
  - apply (set_Forall_singleton (C := gset str) safe). vm_compute. reflexivity.
Defined.
