(* ===== verification/Reconciliation.v ===== *)
(** Reconciliation of the local regions with the files of the remote dataset
    ([hf/reconciliation.py]), over the canonical remote layout ([hf/repo_layout.py]) and the
    inventory of remote files ([hf/remote_inventory.py]). *)
From stdpp Require Import gmap sorting.
From S2P Require Import Prelude Py PyStr Fs Artifacts.

(** * The remote layout *)

Definition REMOTE_WIKIPEDIA_DOCUMENTS_DIR : str := u "wikipedia/documents".
Definition LEGACY_REMOTE_ARTICLES_DIR : str := u "articles".
Definition REMOTE_MANIFEST_FILE : str := u "manifests/processed_pbfs.json".
Definition REMOTE_AUGMENTATION_MANIFEST_FILE : str := u "manifests/augmentation_manifest.json".
Definition REMOTE_POLYGON_STATS_FILE : str := u "stats.json".
Definition REMOTE_COVERAGE_MAP_FILE : str := u "assets/coverage_map.png".
Definition REMOTE_DATASET_HERO_FILE : str := u "assets/dataset_hero.png".
Definition REMOTE_GEOGRAPHIC_TEXT_DENSITY_FILE : str := u "assets/geographic_text_density.png".

(** The directories of a region's tables. *)
Definition region_dirs : list str :=
  u <$> ["polygons"; "polygon_articles"; "wikipedia/documents"; "wikipedia/sections";
         "wikivoyage/documents"; "wikivoyage/sections"; "wikidata/facts"]%string.

(** Local relative paths and remote paths of a region; the code spells both alike. *)
Definition parquet_in (dir stem : str) : str := dir ++ u "/" ++ stem ++ u ".parquet".
Definition canonical_region_paths (stem : str) : list (str * str) :=
  (fun dir => (parquet_in dir stem, parquet_in dir stem)) <$> region_dirs.

(** ["/".join(path.split("/")[:-1])]. *)
Definition corpus_id (local_rel : str) : str := join (u "/") (removelast (split_on 47 local_rel)).

(** * Plans *)

Definition ReconciliationValidationError : exn_class := CUser (u "ReconciliationValidationError") CValueError.

Record ReconciliationPlan := {
  present : list (str * str); missing : list (str * str); unexpected : list str;
  repository_refresh : list str; stems_to_publish : gset str; stems_to_augment : gset str }.

Record StemReconciliation := {
  sr_present : list (str * str); sr_missing : list (str * str); sr_publish : bool; sr_augment : bool }.
Definition no_reconciliation : StemReconciliation :=
  {| sr_present := []; sr_missing := []; sr_publish := false; sr_augment := false |}.

Record CoreState := {
  manifest_exists_ : bool; files_exist : bool; any_exists : bool; polygons_exists : bool; links_exists : bool }.

(** [str(b)]. *)
Definition str_of_bool (b : bool) : str := if b then u "True" else u "False".

Definition validate_core_state (stem : str) (c : CoreState) : outcome unit :=
  raise_if (any_exists c && negb (manifest_exists_ c && files_exist c))
    (exc ReconciliationValidationError
      [FStr (u "Inconsistent core state for " ++ stem ++ u ": manifest_exists=" ++ str_of_bool (manifest_exists_ c) ++
             u ", polygons=" ++ str_of_bool (polygons_exists c) ++ u ", links=" ++ str_of_bool (links_exists c))]).

Definition expected_region_paths (stem : str) (augmented : bool) : list (str * str) :=
  filter (fun kv => corpus_id kv.1 ∈ [u "polygons"; u "polygon_articles"] \/ augmented = true)
    (canonical_region_paths stem).

Definition collect_region_presence (stem : str) (inventory : gset str) (expected_paths : list (str * str))
    : list (str * str) * list (str * str) :=
  foldl (fun acc kv =>
    if bool_decide (kv.2 ∈ inventory)
    then (acc.1 ++ [(stem, corpus_id kv.1)], acc.2)
    else (acc.1, acc.2 ++ [(stem, corpus_id kv.1)])) ([], []) expected_paths.

(** [sorted] of pairs of strings. *)
Definition pair_leb (a b : str * str) : bool :=
  if str_eqb a.1 b.1 then str_leb a.2 b.2 else str_leb a.1 b.1.
Definition pair_le (a b : str * str) : Prop := pair_leb a b = true.
#[export] Instance pair_le_dec : RelDecision pair_le.
Proof. intros a b. unfold pair_le. apply _. Defined.

Definition is_unexpected_region_file (remote_file : str) (prefixes : list str) (local_stems : gset str) : bool :=
  if negb (endswith (u ".parquet") remote_file) then false
  else if negb (existsb (fun p => startswith p remote_file) prefixes) then false
  else bool_decide (stem_of_name (path_name (path_components remote_file)) ∉ local_stems).

Definition missing_repository_files (inventory : gset str) : list str :=
  filter (fun p => p ∉ inventory)
    [REMOTE_MANIFEST_FILE; REMOTE_AUGMENTATION_MANIFEST_FILE; u "README.md"; REMOTE_COVERAGE_MAP_FILE;
     REMOTE_DATASET_HERO_FILE; REMOTE_GEOGRAPHIC_TEXT_DENSITY_FILE; REMOTE_POLYGON_STATS_FILE].

Section Reconciliation.
Context {RT : Runtime} {FF : FileFormats}.
Variable data_root : path.
Variable inventory : gset str.
(** [augmentation_is_current], which reads Parquet tables and digests. *)
Variable augmentation_is_current : str -> gmap path node -> outcome bool.

Definition region_file (dir : string) (stem : str) : path := child (sub (processed data_root) dir) (stem ++ u ".parquet").

Definition core_state (stem : str) (manifest_entries : pydict) (t : gmap path node) : CoreState :=
  let polygons := is_file (region_file "polygons" stem) t in
  let links := is_file (region_file "polygon_articles" stem) t in
  let manifest := dmem (stem ++ u ".osm.pbf") manifest_entries in
  {| manifest_exists_ := manifest; files_exist := polygons && links;
     any_exists := manifest || polygons || links; polygons_exists := polygons; links_exists := links |}.

Definition load_augmentation_manifest (p : path) (t : gmap path node) : outcome pyval :=
  if negb (is_file p t) then mret (VDict [])
  else read_json_strict (fun e =>
         exc_from ReconciliationValidationError (FStr (u "Malformed augmentation manifest JSON: ") :: exn_msg e) e) p t.

Definition resolve_augmentation_status (stem : str) (augmentation_manifest : pyval)
    (augmentation_current : list (str * bool)) (t : gmap path node) : outcome bool :=
  let in_aug_manifest := match augmentation_manifest with VDict d => dmem stem d | _ => false end in
  _ ← raise_if (in_aug_manifest && negb (is_file (region_file "wikipedia/documents" stem) t))
        (exc ReconciliationValidationError
          [FStr (u "Inconsistent augmentation for " ++ stem ++
                 u ": manifest claims completed but missing required canonical documents file")]);
  match dget stem augmentation_current with
  | Some b => mret b
  | None => augmentation_is_current stem t
  end.

Definition plan_stem (stem : str) (manifest_entries : pydict) (augmentation_manifest : pyval)
    (augmentation_current : list (str * bool)) (t : gmap path node) : outcome StemReconciliation :=
  let core := core_state stem manifest_entries t in
  _ ← validate_core_state stem core;
  augmented ← resolve_augmentation_status stem augmentation_manifest augmentation_current t;
  if negb (files_exist core) then mret no_reconciliation
  else
    let '(p, m) := collect_region_presence stem inventory (expected_region_paths stem augmented) in
    mret {| sr_present := p; sr_missing := m;
            sr_publish := negb (bool_decide (length m = 0%nat)) && augmented; sr_augment := negb augmented |}.

Definition unexpected_remote_files (t : gmap path node) : list str :=
  let prefixes := sorted_strs (elements (list_to_set
    ((fun kv => removesuffix (u "dummy.parquet") kv.2) <$> canonical_region_paths (u "dummy")) : gset str)) in
  let local_stems := list_to_set ((fun p => stem_of_name (path_name p)) <$>
    glob (processed_polygons data_root) (u ".parquet") t) in
  filter (fun f => is_unexpected_region_file f prefixes local_stems = true) (sorted_strs (elements inventory)).

(** The loop over the sorted stems. *)
Fixpoint plan_stems (stems : list str) (manifest_entries : pydict) (augmentation_manifest : pyval)
    (augmentation_current : list (str * bool)) (t : gmap path node) : outcome (list (str * StemReconciliation)) :=
  match stems with
  | [] => mret []
  | stem :: rest =>
      r ← plan_stem stem manifest_entries augmentation_manifest augmentation_current t;
      rs ← plan_stems rest manifest_entries augmentation_manifest augmentation_current t;
      mret ((stem, r) :: rs)
  end.

Definition plan (stems : gset str) (augmentation_current : list (str * bool)) (t : gmap path node)
    : outcome ReconciliationPlan :=
  manifest_entries ← load_manifest (child (processed_manifests data_root) (u "processed_pbfs.json")) t;
  augmentation_manifest ← load_augmentation_manifest
    (sub (processed data_root) "augmentation/manifests/augmentation_manifest.json") t;
  results ← plan_stems (sorted_strs (elements stems)) manifest_entries augmentation_manifest augmentation_current t;
  mret {|
    present := merge_sort pair_le (results ≫= fun r => sr_present r.2);
    missing := merge_sort pair_le (results ≫= fun r => sr_missing r.2);
    unexpected := sorted_strs (unexpected_remote_files t);
    repository_refresh := sorted_strs (missing_repository_files inventory);
    stems_to_publish := list_to_set (filter (fun r => sr_publish r.2 = true) results).*1;
    stems_to_augment := list_to_set (filter (fun r => sr_augment r.2 = true) results).*1 |}.

End Reconciliation.
