(* ===== verification/ReconciliationProofs.v ===== *)
(** What reconciliation guarantees: the plan lists exactly the expected files that are missing from
    the remote, and publishes or augments exactly the regions that need it. *)
From stdpp Require Import gmap sorting.
From S2P Require Import Prelude Py PyStr Fs Artifacts Paths Reconciliation.

Lemma split_on_slash a b : split_on 47 (a ++ 47%N :: b) = split_on 47 a ++ split_on 47 b.
Proof.
  induction a as [|c a IH]; [done|]. simpl. rewrite IH. destruct (c =? 47)%N; [done|].
  assert (Hne : split_on 47 a ≠ []) by (destruct a as [|d a]; simpl; [done|]; destruct (d =? 47)%N; [done|]; by case_match).
  by destruct (split_on 47 a).
Qed.

Lemma corpus_id_parquet dir stem :
  dir ∈ region_dirs -> 47%N ∉ stem -> corpus_id (parquet_in dir stem) = dir.
Proof.
  intros Hd Hs. unfold corpus_id, parquet_in.
  change (u "/" ++ stem ++ u ".parquet") with (47%N :: stem ++ u ".parquet"). rewrite split_on_slash.
  assert (Hp : bool_decide (47%N ∉ u ".parquet") = true) by (vm_compute; reflexivity).
  rewrite bool_decide_eq_true in Hp.
  rewrite (split_on_none (stem ++ _)) by (rewrite not_elem_of_app; done). rewrite removelast_last.
  revert dir Hd. apply Forall_forall. unfold region_dirs. by repeat constructor.
Qed.

Lemma collect_region_presence_spec stem inventory paths :
  collect_region_presence stem inventory paths =
    ((fun kv => (stem, corpus_id kv.1)) <$> filter (fun kv => kv.2 ∈ inventory) paths,
     (fun kv => (stem, corpus_id kv.1)) <$> filter (fun kv => kv.2 ∉ inventory) paths).
Proof.
  unfold collect_region_presence.
  assert (H : forall acc, foldl (fun acc kv =>
    if bool_decide (kv.2 ∈ inventory)
    then (acc.1 ++ [(stem, corpus_id kv.1)], acc.2)
    else (acc.1, acc.2 ++ [(stem, corpus_id kv.1)])) acc paths =
    (acc.1 ++ ((fun kv => (stem, corpus_id kv.1)) <$> filter (fun kv => kv.2 ∈ inventory) paths),
     acc.2 ++ ((fun kv => (stem, corpus_id kv.1)) <$> filter (fun kv => kv.2 ∉ inventory) paths))).
  { induction paths as [|[k v] paths IH]; intros [a b]; simpl; [by rewrite !app_nil_r|].
    rewrite IH, !filter_cons. case_bool_decide as Hv; simpl.
    - rewrite decide_True, decide_False by tauto. simpl. by rewrite <- app_assoc.
    - rewrite decide_False, decide_True by tauto. simpl. by rewrite <- app_assoc. }
  apply H.
Qed.

Section Reconciliation.
Context {RT : Runtime} {FF : FileFormats}.
Variable data_root : path.
Variable inventory : gset str.
Variable augmentation_is_current : str -> gmap path node -> outcome bool.

(** Both core tables of a region are there. *)
Definition core_complete (t : gmap path node) (stem : str) : Prop :=
  is_file (region_file data_root "polygons" stem) t = true /\
  is_file (region_file data_root "polygon_articles" stem) t = true.

(** Whether the augmentation of a region is current: what the caller has found, and what is found now
    for a region the caller does not mention. *)
Definition augmentation_status (current : list (str * bool)) (t : gmap path node) (stem : str) : outcome bool :=
  match dget stem current with Some b => Ok b | None => augmentation_is_current stem t end.

(** The tables that a region should have on the remote. *)
Definition expected_dir (augmented : bool) (dir : str) : Prop :=
  dir ∈ region_dirs /\ (dir ∈ [u "polygons"; u "polygon_articles"] \/ augmented = true).

(** What the plan knows of one region. *)
Record region_spec (t : gmap path node) (entries : pydict) (stem : str) (augmented : bool)
    (r : StemReconciliation) : Prop := {
  core_tables_together :
    is_file (region_file data_root "polygons" stem) t = is_file (region_file data_root "polygon_articles" stem) t;
  rs_recorded : core_complete t stem <-> dmem (stem ++ u ".osm.pbf") entries = true;
  rs_present : forall s dir, (s, dir) ∈ sr_present r <->
    s = stem /\ core_complete t stem /\ expected_dir augmented dir /\ parquet_in dir stem ∈ inventory;
  rs_missing : forall s dir, (s, dir) ∈ sr_missing r <->
    s = stem /\ core_complete t stem /\ expected_dir augmented dir /\ parquet_in dir stem ∉ inventory;
  rs_publish : sr_publish r = true <-> augmented = true /\ sr_missing r ≠ [];
  rs_augment : sr_augment r = true <-> augmented = false /\ core_complete t stem }.

Lemma elem_of_expected_paths stem augmented kv :
  kv ∈ expected_region_paths stem augmented <->
  exists dir, dir ∈ region_dirs /\ kv = (parquet_in dir stem, parquet_in dir stem) /\
    (corpus_id kv.1 ∈ [u "polygons"; u "polygon_articles"] \/ augmented = true).
Proof.
  unfold expected_region_paths, canonical_region_paths. rewrite list_elem_of_filter, list_elem_of_fmap. naive_solver.
Qed.

Lemma elem_of_presence stem augmented (P : str * str -> Prop) `{!forall x, Decision (P x)} s dir :
  47%N ∉ stem ->
  (s, dir) ∈ (fun kv => (stem, corpus_id kv.1)) <$> filter P (expected_region_paths stem augmented)
  <-> s = stem /\ expected_dir augmented dir /\ P (parquet_in dir stem, parquet_in dir stem).
Proof.
  intros Hs. rewrite list_elem_of_fmap. setoid_rewrite list_elem_of_filter. setoid_rewrite elem_of_expected_paths. split.
  - intros (kv & [= -> ->] & HP & dir' & Hd & -> & Ha). cbn [fst snd] in *.
    rewrite (corpus_id_parquet dir' stem) in * by done. by split_and!.
  - intros (-> & [Hd Ha] & HP). exists (parquet_in dir stem, parquet_in dir stem). cbn [fst snd].
    rewrite corpus_id_parquet by done. split_and!; [done..|]. exists dir.
    by split_and!.
Qed.

Lemma plan_stem_spec stem entries manifest current t r :
  47%N ∉ stem ->
  plan_stem data_root inventory augmentation_is_current stem entries manifest current t = Ok r ->
  exists augmented,
    resolve_augmentation_status data_root augmentation_is_current stem manifest current t = Ok augmented /\
    region_spec t entries stem augmented r.
Proof.
  intros Hs H. unfold plan_stem in H. apply outcome_bind_Ok in H as ([] & Hv & H).
  apply outcome_bind_Ok in H as (augmented & Ha & H). exists augmented. split; [done|].
  unfold validate_core_state in Hv. rewrite raise_if_Ok in Hv. unfold core_state in *. simpl in *.
  destruct (is_file (region_file data_root "polygons" stem) t) eqn:Ep;
    destruct (is_file (region_file data_root "polygon_articles" stem) t) eqn:El;
    destruct (dmem (stem ++ u ".osm.pbf") entries) eqn:Em; simpl in *; try done.
  - rewrite collect_region_presence_spec in H. apply mret_Ok in H. subst r.
    assert (Hc : core_complete t stem) by done. split; cbn [sr_present sr_missing sr_publish sr_augment].
    + congruence.
    + by rewrite Em.
    + intros s dir. etrans; [by apply (elem_of_presence stem augmented (fun kv => kv.2 ∈ inventory))|]. simpl. tauto.
    + intros s dir. etrans; [by apply (elem_of_presence stem augmented (fun kv => kv.2 ∉ inventory))|]. simpl. tauto.
    + rewrite andb_true_iff, negb_true_iff, bool_decide_eq_false, length_zero_iff_nil. tauto.
    + rewrite negb_true_iff. tauto.
  - apply mret_Ok in H. subst r. assert (Hc : ~ core_complete t stem) by (unfold core_complete; rewrite Ep; by intros [??]).
    split.
    + congruence.
    + by rewrite Em.
    + intros s dir. split; [by intros ?%elem_of_nil|tauto].
    + intros s dir. split; [by intros ?%elem_of_nil|tauto].
    + split; [done|by intros [_ ?]].
    + split; [done|tauto].
Qed.

Lemma plan_stems_spec stems entries manifest current t rs :
  plan_stems data_root inventory augmentation_is_current stems entries manifest current t = Ok rs ->
  rs.*1 = stems /\ Forall (fun r => plan_stem data_root inventory augmentation_is_current r.1 entries manifest current t = Ok r.2) rs.
Proof.
  revert rs. induction stems as [|stem stems IH]; intros rs H; simpl in H.
  - apply mret_Ok in H. by subst rs.
  - apply outcome_bind_Ok in H as (r & Hr & H). apply outcome_bind_Ok in H as (rs' & Hrs & H).
    apply mret_Ok in H. subst rs. destruct (IH _ Hrs) as [<- IH']. split; [done|]. by constructor.
Qed.

Lemma elem_of_results {B} (f : StemReconciliation -> list B) (rs : list (str * StemReconciliation)) x :
  x ∈ (rs ≫= fun r => f r.2) <-> exists stem r, (stem, r) ∈ rs /\ x ∈ f r.
Proof.
  rewrite list_elem_of_bind. split; [intros ([stem r] & Hx & Hr); eauto|intros (stem & r & Hr & Hx)].
  by exists (stem, r).
Qed.

(** The results of the loop over the stems. *)
Record results_spec (t : gmap path node) (stems : gset str) (current : list (str * bool))
    (augmented : str -> bool) (rs : list (str * StemReconciliation)) : Prop := {
  rs_stems : forall stem, stem ∈ stems <-> exists r, (stem, r) ∈ rs;
  rs_region : forall stem r, (stem, r) ∈ rs -> exists entries, region_spec t entries stem (augmented stem) r;
  rs_augmented : forall stem, stem ∈ stems -> augmentation_status current t stem = Ok (augmented stem);
  rs_claimed : forall stem manifest, stem ∈ stems ->
    load_augmentation_manifest (sub (processed data_root) "augmentation/manifests/augmentation_manifest.json") t = Ok (VDict manifest) ->
    dmem stem manifest = true -> is_file (region_file data_root "wikipedia/documents" stem) t = true }.

Lemma plan_results_spec stems current t p :
  (forall stem, stem ∈ stems -> 47%N ∉ stem) ->
  plan data_root inventory augmentation_is_current stems current t = Ok p ->
  exists augmented rs, results_spec t stems current augmented rs /\
    missing p ≡ₚ (rs ≫= fun r => sr_missing r.2) /\ present p ≡ₚ (rs ≫= fun r => sr_present r.2) /\
    stems_to_publish p = list_to_set (filter (fun r => sr_publish r.2 = true) rs).*1 /\
    stems_to_augment p = list_to_set (filter (fun r => sr_augment r.2 = true) rs).*1.
Proof.
  intros Hsafe H. unfold plan in H. apply outcome_bind_Ok in H as (entries & _ & H).
  apply outcome_bind_Ok in H as (manifest & Hmanifest & H). apply outcome_bind_Ok in H as (rs & Hrs & H).
  apply mret_Ok in H. subst p. cbn [missing present stems_to_publish stems_to_augment].
  apply plan_stems_spec in Hrs as [Hstems Hrs]. rewrite Forall_forall in Hrs.
  assert (Hin : forall stem, stem ∈ stems <-> exists r, (stem, r) ∈ rs).
  { intros stem. rewrite <- elem_of_elements, <- elem_of_sorted_strs, <- Hstems, list_elem_of_fmap. split.
    - intros ([s r] & -> & Hr). by exists r.
    - intros [r Hr]. by exists (stem, r). }
  assert (Hspec : forall stem r, (stem, r) ∈ rs -> exists b,
    resolve_augmentation_status data_root augmentation_is_current stem manifest current t = Ok b /\
    region_spec t entries stem b r).
  { intros stem r Hr. specialize (Hrs _ Hr). apply plan_stem_spec in Hrs as (b & Hb & Hr'); [by exists b|].
    apply Hsafe, Hin. by exists r. }
  exists (fun stem => match resolve_augmentation_status data_root augmentation_is_current stem manifest current t with
                      | Ok b => b | Raise _ => false end), rs.
  split_and!; [|apply merge_sort_Permutation..|done|done]. split; [done|..].
  - intros stem r (b & Hb & Hr)%Hspec. rewrite Hb. by exists entries.
  - intros stem [r (x & Hx & _)%Hspec]%Hin. rewrite Hx. unfold resolve_augmentation_status in Hx.
    apply outcome_bind_Ok in Hx as (? & _ & Hx). exact Hx.
  - intros stem d [r (x & Hx & _)%Hspec]%Hin Hd Hm. rewrite Hd in Hmanifest. injection Hmanifest as <-.
    unfold resolve_augmentation_status in Hx. rewrite Hm in Hx. apply outcome_bind_Ok in Hx as (? & Hx & _). passed Hx.
    by apply negb_false_iff in Hx.
Qed.

(** C17: Reconciliation is exact.  A plan that is returned lists as missing exactly the tables a
    region should have on the remote - the two core tables, and the five text tables once its
    augmentation is current - that the inventory does not contain, for the regions whose core is
    complete; a region is published exactly when it is augmented and misses a table, and augmented
    exactly when its core is complete and its augmentation is not current, so never both; and no plan
    is returned for a region that has only one of its two core tables, or that the augmentation
    manifest lists although its canonical documents are not there. *)
Theorem reconciliation_plan_spec stems current t p :
  (forall stem, stem ∈ stems -> 47%N ∉ stem) ->
  plan data_root inventory augmentation_is_current stems current t = Ok p ->
  exists augmented : str -> bool,
    (forall stem, stem ∈ stems -> augmentation_status current t stem = Ok (augmented stem)) /\
    (forall stem dir, (stem, dir) ∈ missing p <->
       stem ∈ stems /\ core_complete t stem /\ expected_dir (augmented stem) dir /\ parquet_in dir stem ∉ inventory) /\
    (forall stem dir, (stem, dir) ∈ present p <->
       stem ∈ stems /\ core_complete t stem /\ expected_dir (augmented stem) dir /\ parquet_in dir stem ∈ inventory) /\
    (forall stem, stem ∈ stems_to_publish p <-> augmented stem = true /\ exists dir, (stem, dir) ∈ missing p) /\
    (forall stem, stem ∈ stems_to_augment p <-> stem ∈ stems /\ augmented stem = false /\ core_complete t stem) /\
    (forall stem, stem ∈ stems ->
       is_file (region_file data_root "polygons" stem) t = is_file (region_file data_root "polygon_articles" stem) t) /\
    (forall stem manifest, stem ∈ stems ->
       load_augmentation_manifest (sub (processed data_root) "augmentation/manifests/augmentation_manifest.json") t = Ok (VDict manifest) ->
       dmem stem manifest = true -> is_file (region_file data_root "wikipedia/documents" stem) t = true).
Proof.
  intros Hsafe H. destruct (plan_results_spec _ _ _ _ Hsafe H) as (augmented & rs & [Hin Hspec Haug Hclaim] & Hm & Hp & -> & ->).
  exists augmented.
  split_and!; [done|..|exact Hclaim]; intros stem; setoid_rewrite Hm || setoid_rewrite Hp || idtac.
  - intros dir. rewrite (elem_of_results sr_missing), Hin. split.
    + intros (s & r & Hr & Hx). destruct (Hspec _ _ Hr) as [en Hs]. apply (rs_missing _ _ _ _ _ Hs) in Hx as (-> & ?). eauto.
    + intros ([r Hr] & Hx). exists stem, r. destruct (Hspec _ _ Hr) as [en Hs]. split; [done|]. by apply (rs_missing _ _ _ _ _ Hs).
  - intros dir. rewrite (elem_of_results sr_present), Hin. split.
    + intros (s & r & Hr & Hx). destruct (Hspec _ _ Hr) as [en Hs]. apply (rs_present _ _ _ _ _ Hs) in Hx as (-> & ?). eauto.
    + intros ([r Hr] & Hx). exists stem, r. destruct (Hspec _ _ Hr) as [en Hs]. split; [done|]. by apply (rs_present _ _ _ _ _ Hs).
  - rewrite elem_of_list_to_set, list_elem_of_fmap. split.
    + intros ([s r] & -> & [Hpub Hr]%list_elem_of_filter). simpl in *. destruct (Hspec _ _ Hr) as [en Hs].
      apply (rs_publish _ _ _ _ _ Hs) in Hpub as [Ha Hne]. split; [done|]. destruct (sr_missing r) as [|[s' dir] l] eqn:El; [done|].
      assert (Hx : (s', dir) ∈ sr_missing r) by (rewrite El; by left). pose proof Hx as Hx'.
      apply (rs_missing _ _ _ _ _ Hs) in Hx' as (-> & _). exists dir. apply (elem_of_results sr_missing). by exists s, r.
    + intros (Ha & dir & (s & r & Hr & Hx)%(elem_of_results sr_missing)). destruct (Hspec _ _ Hr) as [en Hs].
      pose proof Hx as Hx'. apply (rs_missing _ _ _ _ _ Hs) in Hx' as (<- & _). exists (stem, r). split; [done|].
      apply list_elem_of_filter. split; [|done]. apply (rs_publish _ _ _ _ _ Hs). split; [done|]. intros E.
      rewrite E in Hx. by apply elem_of_nil in Hx.
  - rewrite elem_of_list_to_set, list_elem_of_fmap, Hin. split.
    + intros ([s r] & -> & [Hau Hr]%list_elem_of_filter). simpl in *. destruct (Hspec _ _ Hr) as [en Hs].
      apply (rs_augment _ _ _ _ _ Hs) in Hau as [? ?]. split_and!; [by exists r|done..].
    + intros ([r Hr] & Ha & Hc). exists (stem, r). destruct (Hspec _ _ Hr) as [en Hs]. split; [done|].
      apply list_elem_of_filter. split; [|done]. by apply (rs_augment _ _ _ _ _ Hs).
  - intros [r Hr]%Hin. destruct (Hspec _ _ Hr) as [en Hs]. apply (core_tables_together _ _ _ _ _ Hs).
Qed.

End Reconciliation.

(** * An example *)

#[local] Existing Instance example_runtime.
#[local] Existing Instance example_formats.

Definition reconciled_root : path := [u "data"].
Definition reconciled_tree : gmap path node := list_to_map
  [(region_file reconciled_root "polygons" (u "malta"), File (CBytes []));
   (region_file reconciled_root "polygon_articles" (u "malta"), File (CBytes []));
   (child (processed_manifests reconciled_root) (u "processed_pbfs.json"),
    File (CJson (VDict [(u "malta.osm.pbf", VDict [])])))].
Definition reconciled_inventory : gset str := {[u "polygons/malta.parquet"]}.
Definition reconciled : outcome ReconciliationPlan :=
  plan reconciled_root reconciled_inventory (fun _ _ => Ok true) {[u "malta"]} [] reconciled_tree.

(** The articles of an augmented region are missing from the remote, so it is published. *)
Lemma reconciliation_plan_spec_witness :
  match reconciled with
  | Ok p => (u "malta", u "polygon_articles") ∈ missing p /\ u "malta" ∈ stems_to_publish p
  | Raise _ => False
  end.
Proof.
  destruct reconciled as [p|e] eqn:E; [|by vm_compute in E].
  destruct (reconciliation_plan_spec reconciled_root reconciled_inventory (fun _ _ => Ok true) {[u "malta"]}
    [] reconciled_tree p) as (augmented & Ha & Hm & _ & Hp & _).
  - intros stem Hs. apply elem_of_singleton in Hs. subst stem. by_evaluation.
  - exact E.
  - assert (Hmalta : augmented (u "malta") = true) by (specialize (Ha (u "malta") (proj2 (elem_of_singleton _ _) eq_refl)); injection Ha as <-; reflexivity).
    assert (Hmiss : (u "malta", u "polygon_articles") ∈ missing p).
    { apply Hm. split_and!; [by apply elem_of_singleton|split; vm_compute; reflexivity| |].
      - split; [|by right]. by_evaluation.
      - unfold reconciled_inventory. rewrite elem_of_singleton. vm_compute. discriminate. }
    split; [exact Hmiss|]. apply Hp. split; [exact Hmalta|]. by exists (u "polygon_articles").
Defined.
