(* ===== verification/SyncPlan.v ===== *)
(** Which regions a synchronization works on, and in which order: the planner
    ([pipeline/sync_planner.py]) and the pure parts of [pipeline/sync_planning.py] and
    [pipeline/sync_reconciliation.py]. *)
From stdpp Require Import gmap sorting.
From S2P Require Import Prelude Py PyStr Fs Artifacts.

(** * The planner *)

Inductive SyncAction := RECOVERY | AUGMENT | PROCESS | PUBLISH | COMPLETE.

#[export] Instance sync_action_eq_dec : EqDecision SyncAction.
Proof. solve_decision. Defined.

Record RegionSyncState := { state_stem : str; state_pbf : path; state_action : SyncAction }.

Definition action_for_existing_stem (stem : str) (augmentation_stems pending_stems recovery_stems : gset str)
    : SyncAction :=
  if bool_decide (stem ∉ augmentation_stems) then AUGMENT
  else if bool_decide (stem ∈ recovery_stems) then RECOVERY
  else if bool_decide (stem ∈ pending_stems) then PUBLISH
  else COMPLETE.

Definition action_for_stem (stem : str) (core_stems augmentation_stems : gset str) (force : bool)
    (pending_stems recovery_stems : gset str) : SyncAction :=
  if force || bool_decide (stem ∉ core_stems) then PROCESS
  else action_for_existing_stem stem augmentation_stems pending_stems recovery_stems.

Definition sync_priority (action : SyncAction) : Z :=
  match action with
  | RECOVERY => 0 | AUGMENT => 1 | PUBLISH => 2 | PROCESS => 3 | COMPLETE => 4
  end.

(** [pbf.name.removesuffix(".osm.pbf")]. *)
Definition pbf_stem (pbf : path) : str := removesuffix (u ".osm.pbf") (path_name pbf).

(** The order of the keys [(_sync_priority(state.action), state.stem)]. *)
Definition plan_leb (a b : RegionSyncState) : bool :=
  (sync_priority (state_action a) <? sync_priority (state_action b)) ||
  (sync_priority (state_action a) =? sync_priority (state_action b)) &&
  str_leb (state_stem a) (state_stem b).
Definition plan_le (a b : RegionSyncState) : Prop := plan_leb a b = true.
#[export] Instance plan_le_dec : RelDecision plan_le.
Proof. intros a b. unfold plan_le. apply _. Defined.

Definition plan_sync_states (pbfs : list path) (core_stems augmentation_stems : gset str) (force : bool)
    (pending_stems recovery_stems : option (gset str)) : list RegionSyncState :=
  let pending := default ∅ pending_stems in
  let recovery := default ∅ recovery_stems in
  merge_sort plan_le
    ((fun pbf => {| state_stem := pbf_stem pbf; state_pbf := pbf;
                    state_action := action_for_stem (pbf_stem pbf) core_stems augmentation_stems force pending recovery |})
     <$> pbfs).

(** * Planning of a synchronization *)

Record StemInventory := {
  input_stems : gset str; core_stems : gset str; current_augmentation : gset str }.

Definition recovery_audit_stems (inventory : StemInventory) (force : bool) : list str :=
  if force then []
  else sorted_strs (elements (input_stems inventory ∩ core_stems inventory ∩ current_augmentation inventory)).

(** A region of the recovery audit: its stem and why it is blocked. *)
Definition ensure_recovery_audit_unblocked (regions : list (str * option str)) : outcome unit :=
  let blocked := omap (fun r : str * option str =>
    match r.2 with Some ((_ :: _) as reason) => Some (r.1 ++ u ": " ++ reason) | _ => None end) regions in
  raise_if (bool_decide (length blocked ≠ 0%nat))
    (exc CRuntimeError [FStr (u "Wikidata integrity audit blocked this region; its files were not changed: " ++
                              join (u "; ") blocked)]).

Definition active_pbfs (pbfs : list path) (retired_children : gset str) : list path :=
  filter (fun pbf => pbf_stem pbf ∉ retired_children) pbfs.

(** A stem of a plan of link migrations: its stem and classification. *)
Definition non_canonical (stems : list (str * str)) : list str :=
  omap (fun s => if str_eqb s.2 (u "canonical") then None else Some s.1) stems.

Definition plan_sync_states_with_recovery (pbfs : list path) (inventory : StemInventory) (force : bool)
    (pending_stems recovery_stems : gset str) (link_plan : list (str * str)) : list RegionSyncState :=
  let recovery := recovery_stems ∪ list_to_set (recovery_audit_stems inventory force) ∪
                  list_to_set (non_canonical link_plan) in
  plan_sync_states pbfs (core_stems inventory) (current_augmentation inventory) force
    (Some pending_stems) (Some recovery).

(** [{stem for stem, is_current in current.items() if is_current}]. *)
Definition current_stems (current : list (str * bool)) : gset str :=
  list_to_set (omap (fun kv => if kv.2 : bool then Some kv.1 else None) current).

(** * Remote reconciliation *)

Definition core_repair_required (action : SyncAction) (stem : str) (missing : gset (str * str)) : bool :=
  match action with
  | PROCESS => true
  | PUBLISH | AUGMENT =>
      bool_decide ((stem, u "polygons") ∈ missing) || bool_decide ((stem, u "polygon_articles") ∈ missing)
  | _ => false
  end.

(** [_core_will_be_repaired]: [None] when nothing is reconciled. *)
Definition core_will_be_repaired (states : list RegionSyncState) (missing : option (list (str * str)))
    (push_enabled : bool) : bool :=
  if negb push_enabled then false
  else match missing with
       | None => false
       | Some missing =>
           existsb (fun s => core_repair_required (state_action s) (state_stem s) (list_to_set missing)) states
       end.

Definition reconciliation_summary_message (repaired_regions : Z) (core_repaired metadata_repaired : bool) : pymsg :=
  if core_repaired || metadata_repaired
  then if negb (repaired_regions =? 0)
       then [FStr (u "Remote reconciliation complete: "); FInt repaired_regions;
             FStr (u " regions repaired; README and maps refreshed")]
       else msg "Remote reconciliation complete: README and maps refreshed"
  else if negb (repaired_regions =? 0)
       then [FStr (u "Remote reconciliation complete: "); FInt repaired_regions; FStr (u " regions repaired")]
       else msg "Remote reconciliation complete: converged".
