(* ===== verification/SyncRunner.v ===== *)
(** Execution of a synchronization plan ([pipeline/sync_runner.py]): the recovery, augmentation,
    publication and processing phases, with one extraction running ahead of the processing. *)
From stdpp Require Import gmap sorting.
From S2P Require Import Prelude Py PyStr Fs Artifacts Pending SyncPlan.

(** What the executor's thread is told and what the phases wait for. *)
Inductive extraction_event := Submitted (pbf : path) | Awaited (pbf : path).

(** The injected collaborators over a world [W]: results of an augmentation ([A]), of a core
    ([C]), of an extraction ([E]) and publication operations ([Op]) are theirs.  An extraction runs
    on the executor's thread and depends on its PBF only. *)
Record UploadHooks (W A C Op : Type) := {
  build_upload_files : option (RegionSyncState -> A -> option C -> PyM W (list Op));
  commit_message : option (RegionSyncState -> PyM W str);
  submit_upload : option (list Op -> str -> PyM W unit);
  close_uploads : option (PyM W (list str)) }.
Arguments build_upload_files {W A C Op}.
Arguments commit_message {W A C Op}.
Arguments submit_upload {W A C Op}.
Arguments close_uploads {W A C Op}.

Record Collaborators (W A C E Op : Type) := {
  extract_pbf : path -> outcome E;
  process_extracted_pbf : E -> PyM W C;
  augment_region : RegionSyncState -> PyM W A;
  uploads : UploadHooks W A C Op;
  on_complete : option (RegionSyncState -> A -> PyM W unit);
  load_existing_augmentation : option (RegionSyncState -> PyM W A);
  recover_region : option (RegionSyncState -> PyM W (option A)) }.
Arguments extract_pbf {W A C E Op}.
Arguments process_extracted_pbf {W A C E Op}.
Arguments augment_region {W A C E Op}.
Arguments uploads {W A C E Op}.
Arguments on_complete {W A C E Op}.
Arguments load_existing_augmentation {W A C E Op}.
Arguments recover_region {W A C E Op}.

(** The state of a run: the world, [core_results] and the extractions so far. *)
Record SyncRun (W C : Type) := mkRun {
  world : W; core_results : list (str * C); extractions : list extraction_event }.
Arguments mkRun {W C}.
Arguments world {W C}.
Arguments core_results {W C}.
Arguments extractions {W C}.

Definition states_of (action : SyncAction) (states : list RegionSyncState) : list RegionSyncState :=
  filter (fun s => state_action s = action) states.

(** The four buckets, in the order of the code's result. *)
Definition partition_states (states : list RegionSyncState)
    : list RegionSyncState * list RegionSyncState * list RegionSyncState * list RegionSyncState :=
  (states_of PROCESS states, states_of AUGMENT states, states_of PUBLISH states, states_of RECOVERY states).

Section SyncRunner.
Context {W A C E Op : Type}.
Variable cs : Collaborators W A C E Op.
Abbreviation M := (PyM (SyncRun W C)).

Definition on_world {B} (m : PyM W B) : M B := fun s =>
  let '(o, w) := m (world s) in (o, mkRun w (core_results s) (extractions s)).
Definition emit (e : extraction_event) : M unit :=
  modify (fun s => mkRun (world s) (core_results s) (extractions s ++ [e])).
Definition core_result (stem : str) : M (option C) := gets (fun s => dget stem (core_results s)).
Definition set_core_result (stem : str) (c : C) : M unit :=
  modify (fun s => mkRun (world s) (dset stem c (core_results s)) (extractions s)).

Definition maybe_submit (state : RegionSyncState) (augmentation : A) (core : option C) : PyM W unit :=
  match submit_upload (uploads cs), build_upload_files (uploads cs) with
  | Some submit, Some build =>
      ops <- build state augmentation core;;
      match ops with
      | [] => ret tt
      | _ =>
          message <- match commit_message (uploads cs) with
                     | Some f => f state
                     | None => ret (u "Sync complete region " ++ state_stem state)
                     end;;
          submit ops message
      end
  | _, _ => ret tt
  end.

Definition complete_state (state : RegionSyncState) (result : A) (core : option C) : PyM W unit :=
  match on_complete cs with Some f => f state result | None => ret tt end;;
  maybe_submit state result core.

Definition missing_collaborator (name action : string) : exn :=
  exc CRuntimeError [FStr (u "run_sync requires " ++ u name ++ u " collaborator for " ++ u action ++ u " states")].

Definition run_recovery_phase (states : list RegionSyncState) : M unit :=
  match states with
  | [] => ret tt
  | _ =>
      match recover_region cs with
      | None => throw (missing_collaborator "recover_region" "RECOVERY")
      | Some recover =>
          for_each (fun state =>
            result <- on_world (recover state);;
            match result with
            | None => ret tt
            | Some result => core <- core_result (state_stem state);; on_world (complete_state state result core)
            end) states
      end
  end.

Definition run_augment_phase (states : list RegionSyncState) : M unit :=
  for_each (fun state =>
    result <- on_world (augment_region cs state);;
    core <- core_result (state_stem state);;
    on_world (complete_state state result core)) states.

Definition run_publish_phase (states : list RegionSyncState) : M unit :=
  match states with
  | [] => ret tt
  | _ =>
      match load_existing_augmentation cs with
      | None => throw (missing_collaborator "load_existing_augmentation" "PUBLISH")
      | Some load =>
          for_each (fun state =>
            result <- on_world (load state);;
            core <- core_result (state_stem state);;
            on_world (complete_state state result core)) states
      end
  end.

(** A future is the PBF whose extraction was submitted. *)
Definition submit_extraction (pbf : path) : M (option path) := emit (Submitted pbf);; ret (Some pbf).

Definition start_extraction_prefetch (states : list RegionSyncState) : M (option path) :=
  match states with
  | [] => ret None
  | state :: _ => submit_extraction (state_pbf state)
  end.

Fixpoint run_process_phase (extraction_future : option path) (states : list RegionSyncState) : M unit :=
  match states with
  | [] => ret tt
  | state :: rest =>
      match extraction_future with
      | None => throw (exc CRuntimeError [FStr (u "Missing prefetched extraction for PROCESS state " ++ state_stem state)])
      | Some pbf =>
          emit (Awaited pbf);;
          extracted <- lift (extract_pbf cs pbf);;
          next <- match rest with
                  | following :: _ => submit_extraction (state_pbf following)
                  | [] => ret None
                  end;;
          result <- on_world (process_extracted_pbf cs extracted);;
          set_core_result (state_stem state) result;;
          augmentation <- on_world (augment_region cs state);;
          on_world (complete_state state augmentation (Some result));;
          run_process_phase next rest
      end
  end.

Definition run_phases (states : list RegionSyncState) : M unit :=
  let '(process_states, augment_states, publish_states, recovery_states) := partition_states states in
  run_recovery_phase recovery_states;;
  extraction_future <- start_extraction_prefetch process_states;;
  run_augment_phase augment_states;;
  run_publish_phase publish_states;;
  run_process_phase extraction_future process_states.

(** [try: ... finally: uploads.close_uploads()], with the return code. *)
Definition closing (r : outcome unit) (s : SyncRun W C) : outcome Z * SyncRun W C :=
  let '(c, s') := on_world (match close_uploads (uploads cs) with Some close => close | None => ret [] end) s in
  match r, c with
  | Ok _, Ok failures => (Ok (if bool_decide (length failures = 0%nat) then 0 else 1), s')
  | Raise e, Ok _ => (Raise e, s')
  | _, Raise e => (Raise e, s')
  end.

Definition run_sync (states : list RegionSyncState) : M Z := fun s =>
  let '(r, s') := run_phases states (mkRun (world s) [] (extractions s)) in closing r s'.

(** * The reference: one region after the other, without futures and results kept aside *)

Definition perform (state : RegionSyncState) : PyM W unit :=
  match state_action state with
  | RECOVERY =>
      match recover_region cs with
      | None => throw (missing_collaborator "recover_region" "RECOVERY")
      | Some recover =>
          result <- recover state;;
          match result with None => ret tt | Some result => complete_state state result None end
      end
  | AUGMENT => result <- augment_region cs state;; complete_state state result None
  | PUBLISH =>
      match load_existing_augmentation cs with
      | None => throw (missing_collaborator "load_existing_augmentation" "PUBLISH")
      | Some load => result <- load state;; complete_state state result None
      end
  | PROCESS =>
      extracted <- lift (extract_pbf cs (state_pbf state));;
      core <- process_extracted_pbf cs extracted;;
      augmentation <- augment_region cs state;;
      complete_state state augmentation (Some core)
  | COMPLETE => ret tt
  end.

Definition perform_all (states : list RegionSyncState) : PyM W Z := fun w =>
  let '(r, w1) := for_each perform states w in
  let '(c, w2) := match close_uploads (uploads cs) with Some close => close w1 | None => (Ok [], w1) end in
  match r, c with
  | Ok _, Ok failures => (Ok (if bool_decide (length failures = 0%nat) then 0 else 1), w2)
  | Raise e, Ok _ => (Raise e, w2)
  | _, Raise e => (Raise e, w2)
  end.

End SyncRunner.
