(* ===== verification/SyncRunnerProofs.v ===== *)
(** What a synchronization guarantees: the plan is a sorted classification of the inputs, the
    runner executes it in exactly its order, and one extraction at most runs ahead. *)
From stdpp Require Import gmap sorting.
From S2P Require Import Prelude Py PyStr Fs Artifacts Pending SyncPlan SyncRunner.

(** * The plan *)

#[export] Instance plan_le_total : Total plan_le.
Proof.
  intros a b. unfold plan_le, plan_leb. destruct (str_le_total (state_stem a) (state_stem b)) as [H|H];
    unfold str_le in H; rewrite H; lia.
Qed.

#[export] Instance plan_le_trans : Transitive plan_le.
Proof.
  intros a b c. unfold plan_le, plan_leb. rewrite !orb_true_iff, !andb_true_iff.
  pose proof (str_le_trans (state_stem a) (state_stem b) (state_stem c)) as H. unfold str_le in H.
  intros [H1|[H1 H1']] [H2|[H2 H2']]; try (left; lia). right. split; [lia|auto].
Qed.

Lemma plan_le_priority a b : plan_le a b -> sync_priority (state_action a) <= sync_priority (state_action b).
Proof. unfold plan_le, plan_leb. rewrite orb_true_iff, andb_true_iff. lia. Qed.

(** The plan in the order of its buckets. *)
Definition in_phase_order (l : list RegionSyncState) : list RegionSyncState :=
  states_of RECOVERY l ++ states_of AUGMENT l ++ states_of PUBLISH l ++ states_of PROCESS l.

Lemma states_of_none a l :
  Forall (fun s => state_action s ≠ a) l -> states_of a l = [].
Proof.
  unfold states_of. induction 1 as [|s l Hs _ IH]; [done|]. by rewrite filter_cons_False.
Qed.

Lemma states_of_later x a l :
  Forall (plan_le x) l -> sync_priority a < sync_priority (state_action x) -> states_of a l = [].
Proof.
  intros H Ha. apply states_of_none. eapply Forall_impl; [exact H|]. intros s Hs%plan_le_priority Hx.
  rewrite Hx in Hs. lia.
Qed.

Lemma sorted_in_phase_order l :
  StronglySorted plan_le l -> l = in_phase_order l ++ states_of COMPLETE l.
Proof.
  induction 1 as [|x l _ IH Hx]; [done|]. unfold in_phase_order in *.
  assert (Hcons : forall a, states_of a (x :: l) = if decide (state_action x = a) then x :: states_of a l else states_of a l).
  { intros a. unfold states_of. by rewrite filter_cons. }
  assert (Hnone := fun a => states_of_later x a l Hx).
  rewrite !Hcons. rewrite IH at 1. clear IH Hcons Hx.
  destruct (state_action x) eqn:E; simpl decide; cbn [sync_priority] in Hnone;
    repeat rewrite decide_True by done; repeat rewrite decide_False by done;
    rewrite ?(Hnone RECOVERY), ?(Hnone AUGMENT), ?(Hnone PUBLISH), ?(Hnone PROCESS) by (simpl; lia); done.
Qed.

(** The plan.  Every input region occurs exactly once, sorted by priority and then by stem;
    and a region is processed exactly when that is forced or its core is missing, otherwise
    augmented when its augmentation is missing, otherwise recovered, published or left alone in
    this order of preference. *)
Theorem plan_sync_states_spec pbfs core augmentation force pending recovery :
  let plan := plan_sync_states pbfs core augmentation force pending recovery in
  (state_pbf <$> plan) ≡ₚ pbfs /\
  StronglySorted plan_le plan /\
  plan = in_phase_order plan ++ states_of COMPLETE plan /\
  Forall (fun s =>
    let stem := state_stem s in
    stem = pbf_stem (state_pbf s) /\
    (state_action s = PROCESS <-> force = true \/ stem ∉ core) /\
    (state_action s = AUGMENT <-> force = false /\ stem ∈ core ∖ augmentation) /\
    (state_action s = RECOVERY <-> force = false /\ stem ∈ core ∩ augmentation ∩ default ∅ recovery) /\
    (state_action s = PUBLISH <->
       force = false /\ stem ∈ core ∩ augmentation ∩ default ∅ pending ∖ default ∅ recovery) /\
    (state_action s = COMPLETE <->
       force = false /\ stem ∈ core ∩ augmentation ∖ default ∅ pending ∖ default ∅ recovery)) plan.
Proof.
  intros plan. assert (Hs : StronglySorted plan_le plan) by (apply StronglySorted_merge_sort; apply _).
  split_and!; [|done|by apply sorted_in_phase_order|].
  - unfold plan, plan_sync_states. rewrite merge_sort_Permutation, <- list_fmap_compose. by rewrite list_fmap_id.
  - unfold plan, plan_sync_states. rewrite merge_sort_Permutation. apply Forall_fmap, Forall_true.
    intros pbf. cbn [state_stem state_pbf state_action compose]. split; [done|].
    unfold action_for_stem, action_for_existing_stem. generalize (pbf_stem pbf). intros stem.
    destruct force; cbn [orb]; [split_and!; (split; [try done; by left|try done; by intros [? _]])|].
    repeat case_bool_decide; rewrite ?elem_of_difference, ?elem_of_intersection, ?elem_of_difference; naive_solver.
Qed.

(** * Execution *)

Section Runner.
Context {W A C E Op : Type}.
Variable cs : Collaborators W A C E Op.
Abbreviation M := (PyM (SyncRun W C)).

(** A computation of the runner that does to the world what [n] does and, before any core is
    processed, keeps no results. *)
Definition mirrors {B} (m : M B) (n : PyM W B) : Prop :=
  forall s, core_results s = [] ->
    (m s).1 = (n (world s)).1 /\ world (m s).2 = (n (world s)).2 /\
    core_results (m s).2 = [] /\ extractions (m s).2 = extractions s.

Lemma mirrors_on_world {B} (n : PyM W B) : mirrors (on_world n) n.
Proof. intros s Hs. unfold on_world. by destruct (n (world s)). Qed.

Lemma mirrors_ret {B} (b : B) : mirrors (ret b) (ret b).
Proof. intros s Hs. by split_and!. Qed.

Lemma mirrors_throw {B} e : mirrors (B := B) (throw e) (throw e).
Proof. intros s Hs. by split_and!. Qed.

Lemma mirrors_bind {B D} (m : M B) (n : PyM W B) (f : B -> M D) (g : B -> PyM W D) :
  mirrors m n -> (forall b, mirrors (f b) (g b)) -> mirrors (pbind m f) (pbind n g).
Proof.
  intros Hm Hf s Hs. destruct (Hm s Hs) as (H1 & H2 & H3 & H4). unfold pbind.
  destruct (m s) as [o s1], (n (world s)) as [o' w1]. simpl in *. subst o' w1.
  destruct o as [b|e]; [|by split_and!]. destruct (Hf b s1 H3) as (? & ? & ? & ?). split_and!; congruence.
Qed.

Lemma mirrors_core {B} stem (f : option C -> M B) n : mirrors (f None) n -> mirrors (pbind (core_result stem) f) n.
Proof. intros Hf s Hs. unfold pbind, core_result, gets. rewrite Hs. by apply Hf. Qed.

Lemma mirrors_for_each {B} (f : B -> M unit) g l :
  (forall x, x ∈ l -> mirrors (f x) (g x)) -> mirrors (for_each f l) (for_each g l).
Proof.
  induction l as [|x l IH]; intros H; [apply mirrors_ret|]. simpl. apply mirrors_bind; [apply H; by left|].
  intros _. apply IH. intros. apply H. by right.
Qed.

Lemma states_of_action a l s : s ∈ states_of a l -> state_action s = a.
Proof. unfold states_of. by intros [? _]%list_elem_of_filter. Qed.

Lemma mirrors_recovery l : mirrors (run_recovery_phase cs (states_of RECOVERY l)) (for_each (perform cs) (states_of RECOVERY l)).
Proof.
  pose proof (states_of_action RECOVERY l) as Ha. destruct (states_of RECOVERY l) as [|x r]; [apply mirrors_ret|].
  unfold run_recovery_phase. destruct (recover_region cs) as [recover|] eqn:Ec.
  - apply mirrors_for_each. intros s Hs. unfold perform. rewrite (Ha s Hs), Ec.
    apply mirrors_bind; [apply mirrors_on_world|]. intros [a|]; [|apply mirrors_ret].
    apply mirrors_core, mirrors_on_world.
  - intros s Hs. assert (Hp : perform cs x (world s) = throw (missing_collaborator "recover_region" "RECOVERY") (world s)).
    { unfold perform. by rewrite (Ha x), Ec by (by left). }
    cbn [for_each]. unfold pbind. rewrite Hp. by split_and!.
Qed.

Lemma mirrors_augment l : mirrors (run_augment_phase cs (states_of AUGMENT l)) (for_each (perform cs) (states_of AUGMENT l)).
Proof.
  apply mirrors_for_each. intros s Hs. unfold perform. rewrite (states_of_action _ _ _ Hs).
  apply mirrors_bind; [apply mirrors_on_world|]. intros a. apply mirrors_core, mirrors_on_world.
Qed.

Lemma mirrors_publish l : mirrors (run_publish_phase cs (states_of PUBLISH l)) (for_each (perform cs) (states_of PUBLISH l)).
Proof.
  pose proof (states_of_action PUBLISH l) as Ha. destruct (states_of PUBLISH l) as [|x r]; [apply mirrors_ret|].
  unfold run_publish_phase. destruct (load_existing_augmentation cs) as [load|] eqn:Ec.
  - apply mirrors_for_each. intros s Hs. unfold perform. rewrite (Ha s Hs), Ec.
    apply mirrors_bind; [apply mirrors_on_world|]. intros a. apply mirrors_core, mirrors_on_world.
  - intros s Hs. assert (Hp : perform cs x (world s) = throw (missing_collaborator "load_existing_augmentation" "PUBLISH") (world s)).
    { unfold perform. by rewrite (Ha x), Ec by (by left). }
    cbn [for_each]. unfold pbind. rewrite Hp. by split_and!.
Qed.

(** What the executor is told when nothing fails. *)
Definition schedule (l : list RegionSyncState) : list extraction_event :=
  concat ((fun s => [Submitted (state_pbf s); Awaited (state_pbf s)]) <$> l).

(** The events after the first submission. *)
Definition awaiting (l : list RegionSyncState) : list extraction_event := tail (schedule l).

(** The processing phase, whose extraction is already submitted. *)
Lemma process_phase x l s :
  Forall (fun s => state_action s = PROCESS) (x :: l) ->
  let r := run_process_phase cs (Some (state_pbf x)) (x :: l) s in
  let n := for_each (perform cs) (x :: l) (world s) in
  r.1 = n.1 /\ world r.2 = n.2 /\
  exists k, extractions r.2 = extractions s ++ take k (awaiting (x :: l)) /\
    (forall y, r.1 = Ok y -> take k (awaiting (x :: l)) = awaiting (x :: l)).
Proof.
  revert x s. induction l as [|y l IH]; intros x s Hall r n; inversion_clear Hall as [|? ? Hx Hl].
  - subst r n. simpl. unfold perform. rewrite Hx. unfold emit, modify, lift, pbind, set_core_result, on_world, ret. simpl.
    destruct (extract_pbf cs (state_pbf x)) as [e|e]; simpl; [|split_and!; [done..|]; by exists 1%nat].
    destruct (process_extracted_pbf cs e (world s)) as [[c|e'] w]; simpl; [|split_and!; [done..|]; by exists 1%nat].
    destruct (augment_region cs x w) as [[a|e'] w1]; simpl; [|split_and!; [done..|]; by exists 1%nat].
    destruct (complete_state cs x a (Some c) w1) as [[[]|e'] w2]; simpl; split_and!; try done; by exists 1%nat.
  - assert (Hcons : awaiting (x :: y :: l) = Awaited (state_pbf x) :: Submitted (state_pbf y) :: awaiting (y :: l)) by done.
    rewrite Hcons. subst r n. cbn [run_process_phase].
    assert (Hn : for_each (perform cs) (x :: y :: l) = pbind (perform cs x) (fun _ => for_each (perform cs) (y :: l))) by done.
    rewrite Hn. clear Hn. unfold perform at 1 3. rewrite Hx.
    unfold submit_extraction, emit, set_core_result, modify, lift, pbind, on_world, ret. cbn [world core_results extractions].
    destruct (extract_pbf cs (state_pbf x)) as [e|e]; cbn [fst snd world extractions];
      [|split_and!; [done..|]; exists 1%nat; by split].
    assert (Htwo : (extractions s ++ [Awaited (state_pbf x)]) ++ [Submitted (state_pbf y)] =
      extractions s ++ take 2 (Awaited (state_pbf x) :: Submitted (state_pbf y) :: awaiting (y :: l))).
    { by rewrite <- app_assoc. }
    destruct (process_extracted_pbf cs e (world s)) as [[c|e'] w]; cbn [fst snd world extractions core_results];
      [|split_and!; [done..|]; exists 2%nat; by split].
    destruct (augment_region cs x w) as [[a|e'] w1]; cbn [fst snd world extractions core_results];
      [|split_and!; [done..|]; exists 2%nat; by split].
    destruct (complete_state cs x a (Some c) w1) as [[[]|e'] w2]; cbn [fst snd world extractions core_results];
      [|split_and!; [done..|]; exists 2%nat; by split].
    destruct (IH y (mkRun w2 (dset (state_stem x) c (core_results s))
      ((extractions s ++ [Awaited (state_pbf x)]) ++ [Submitted (state_pbf y)])) Hl) as (H1 & H2 & k & H3 & H4).
    split_and!; [done..|]. exists (S (S k)). split.
    + etrans; [exact H3|]. cbn [take extractions]. by rewrite <- !app_assoc.
    + intros z Hz. cbn [take]. do 2 f_equal. by eapply H4.
Qed.

Lemma for_each_app {S B} (f : B -> PyM S unit) l k s :
  for_each f (l ++ k) s = pbind (for_each f l) (fun _ => for_each f k) s.
Proof.
  revert s. induction l as [|x l IH]; intros s; [done|]. simpl. unfold pbind.
  destruct (f x s) as [[[]|e] s1]; [|done]. rewrite IH. done.
Qed.

Lemma perform_complete l w : for_each (perform cs) (states_of COMPLETE l) w = (Ok tt, w).
Proof.
  pose proof (states_of_action COMPLETE l) as Ha. induction (states_of COMPLETE l) as [|x r IH]; [done|].
  cbn [for_each]. unfold pbind. assert (Hp : perform cs x w = (Ok tt, w)).
  { unfold perform. by rewrite (Ha x) by (by left). }
  rewrite Hp. apply IH. intros s Hs. apply Ha. by right.
Qed.

Lemma pbind_eq {S B D} (m : PyM S B) (f : B -> PyM S D) s :
  pbind m f s = match m s with (Ok a, s') => f a s' | (Raise e, s') => (Raise e, s') end.
Proof. done. Qed.

(** Runs a phase and its reference side by side. *)
Ltac phase Hm :=
  let o := fresh "o" in let s1 := fresh "s" in let w1 := fresh "w" in let o' := fresh "o" in
  match type of Hm with
  | (?a).1 = (?b).1 /\ _ => destruct a as [o s1], b as [o' w1]
  end;
  cbn [fst snd] in Hm; destruct Hm as (<- & <- & ? & ?); destruct o as [[]|?].

Lemma run_phases_reference states s :
  core_results s = [] -> extractions s = [] ->
  let r := run_phases cs states s in
  let n := for_each (perform cs) (in_phase_order states) (world s) in
  r.1 = n.1 /\ world r.2 = n.2 /\
  exists k, extractions r.2 = take k (schedule (states_of PROCESS states)) /\
    (forall y, r.1 = Ok y -> extractions r.2 = schedule (states_of PROCESS states)).
Proof.
  intros Hs He. unfold run_phases, partition_states, in_phase_order. cbv zeta.
  rewrite for_each_app, !pbind_eq. pose proof (mirrors_recovery states s Hs) as Hm. phase Hm.
  2:{ split_and!; [done..|]. exists 0%nat. split; [transitivity (@nil extraction_event); [cbn [snd]; congruence|done]|done]. }
  rewrite pbind_eq.
  assert (Hp : exists k, (start_extraction_prefetch (states_of PROCESS states) s0).2 =
    mkRun (world s0) [] (take k (schedule (states_of PROCESS states))) /\
    (start_extraction_prefetch (states_of PROCESS states) s0).1 = Ok (state_pbf <$> head (states_of PROCESS states)) /\
    k = 1%nat).
  { exists 1%nat. destruct s0 as [w c e]. simpl in *. subst c. destruct (states_of PROCESS states); simpl; by rewrite H0, He. }
  destruct Hp as (k & Hp2 & Hp1 & ->). destruct (start_extraction_prefetch _ s0) as [o2 s2]. simpl in Hp1, Hp2. subst o2 s2.
  rewrite for_each_app, !pbind_eq.
  set (s2 := mkRun _ _ _). change (world s0) with (world s2).
  pose proof (mirrors_augment states s2 eq_refl) as Hm. phase Hm.
  2:{ split_and!; [done..|]. exists 1%nat. by split. }
  rewrite for_each_app, !pbind_eq. pose proof (mirrors_publish states s1 H1) as Hm. phase Hm.
  2:{ split_and!; [done..|]. exists 1%nat. split; [transitivity (extractions s2); [cbn [snd]; congruence|done]|done]. }
  assert (Hx : extractions s3 = take 1 (schedule (states_of PROCESS states))) by (transitivity (extractions s2); [congruence|done]).
  pose proof (states_of_action PROCESS states) as Ha. destruct (states_of PROCESS states) as [|x l] eqn:El.
  - simpl. split_and!; [done..|]. by exists 0%nat.
  - change (state_pbf <$> head (x :: l)) with (Some (state_pbf x)).
    destruct (process_phase x l s3) as (Hr1 & Hr2 & k & Hr3 & Hr4); [by apply Forall_forall|].
    split_and!; [done..|]. exists (S k). rewrite Hr3, Hx. split; [done|]. intros y Hy. by rewrite (Hr4 y Hy).
Qed.

(** C15: The runner executes the plan in its order.  Splitting the states into buckets, running the
    next extraction ahead and keeping core results aside changes nothing: for every behaviour of the
    collaborators - results, errors, effects on the world - [run_sync] on a plan of
    [plan_sync_states] has the outcome and the effects of performing one region after the other in
    the order of the plan, up to the first error, and then closing the uploads.  A region is
    completed (prepared for publication and submitted) only after its work succeeded, and only a
    region processed in this run is published with its core. *)
Theorem sync_executes_plan_in_order pbfs core augmentation force pending recovery w :
  let plan := plan_sync_states pbfs core augmentation force pending recovery in
  let r := run_sync cs plan (mkRun w [] []) in
  let n := perform_all cs plan w in
  r.1 = n.1 /\ world r.2 = n.2.
Proof.
  intros plan r n. subst r n. unfold run_sync, perform_all.
  destruct (run_phases_reference plan (mkRun w [] []) eq_refl eq_refl) as (H1 & H2 & _). cbn [world extractions] in *.
  assert (Hp : for_each (perform cs) plan w = for_each (perform cs) (in_phase_order plan) w).
  { rewrite (sorted_in_phase_order plan) at 1 by (apply StronglySorted_merge_sort; apply _).
    rewrite for_each_app, pbind_eq. destruct (for_each _ _ _) as [[[]|e] w']; [apply perform_complete|done]. }
  rewrite Hp. destruct (run_phases cs plan _) as [o s1], (for_each _ _ _) as [o' w1].
  simpl in H1, H2. subst o' w1. unfold closing, on_world.
  destruct (close_uploads (uploads cs)) as [close|]; [|by destruct o].
  destruct (close (world s1)) as [[f|e] w2]; by destruct o.
Qed.

(** One extraction runs ahead, never two.  Whatever the collaborators do, the executor is told
    a prefix of: submit the first PBF, await it, submit the second, await it, and so on through the
    regions to process; all of it when the phases return; and nothing at all when the recovery
    phase, which must come first, raises. *)
Theorem one_extraction_ahead states w :
  let s := mkRun w [] [] in
  (exists k, extractions (run_sync cs states s).2 = take k (schedule (states_of PROCESS states))) /\
  (forall c, (run_sync cs states s).1 = Ok c -> extractions (run_sync cs states s).2 = schedule (states_of PROCESS states)) /\
  (forall e s', run_recovery_phase cs (states_of RECOVERY states) s = (Raise e, s') ->
     extractions (run_sync cs states s).2 = []).
Proof.
  intros s. assert (Hs : core_results s = []) by done. assert (He : extractions s = []) by done.
  destruct (run_phases_reference states s Hs He) as (_ & _ & k & H3 & H4).
  assert (Hc : forall r s1, extractions (closing cs r s1).2 = extractions s1 /\
    (forall c, (closing cs r s1).1 = Ok c -> exists y, r = Ok y)).
  { intros r s1. unfold closing, on_world. destruct (close_uploads (uploads cs)) as [close|]; simpl;
      [destruct (close (world s1)) as [[f|e] w2]|]; destruct r as [y|e']; simpl; split; try done; by exists y. }
  assert (Hrs : run_sync cs states s = let '(r, s') := run_phases cs states s in closing cs r s').
  { done. }
  rewrite Hrs. destruct (run_phases cs states s) as [r s1] eqn:Er. destruct (Hc r s1) as [-> Hok]. simpl in H3, H4.
  split_and!; [by exists k|intros c (y & ->)%Hok; by eapply H4|].
  intros e s' Hrec. unfold run_phases, partition_states in Er. rewrite pbind_eq, Hrec in Er. simplify_eq.
  destruct (mirrors_recovery states s Hs) as (_ & _ & _ & H). rewrite Hrec in H. simpl in H. congruence.
Qed.

End Runner.

(** * An example *)

(** Collaborators over a list of names: each does its work and records it. *)
Definition note (name : string) (state : RegionSyncState) : PyM (list str) unit :=
  modify (fun w => w ++ [u name ++ state_stem state]).
Definition recording : Collaborators (list str) unit unit path str := {|
  extract_pbf p := Ok p;
  process_extracted_pbf p := modify (fun w => w ++ [u "process " ++ pbf_stem p]);
  augment_region := note "augment ";
  uploads := {|
    build_upload_files := Some (fun state _ _ => ret [state_stem state]);
    commit_message := None;
    submit_upload := Some (fun ops message => modify (fun w => w ++ [message]));
    close_uploads := Some (ret []) |};
  on_complete := None;
  load_existing_augmentation := Some (note "load ");
  recover_region := Some (fun state => note "recover " state;; ret None) |}.

Definition two_regions : list RegionSyncState :=
  plan_sync_states [[u "samoa.osm.pbf"]; [u "malta.osm.pbf"]] ∅ ∅ false None None.

Lemma one_extraction_ahead_witness :
  let r := run_sync recording two_regions (mkRun [] [] []) in
  r.1 = Ok 0 /\
  extractions r.2 = [Submitted [u "malta.osm.pbf"]; Awaited [u "malta.osm.pbf"];
                     Submitted [u "samoa.osm.pbf"]; Awaited [u "samoa.osm.pbf"]].
Proof.
  intros r. destruct (one_extraction_ahead recording two_regions []) as (_ & H & _).
  assert (E : r.1 = Ok 0) by (vm_compute; reflexivity). split; [exact E|].
  unfold r. rewrite (H 0 E). vm_compute. reflexivity.
Defined.
