(* ===== verification/Protocol.v ===== *)
(** The contracts shared by the Grid5000 sentence job and the local controller
    ([grid5000/sentence_protocol.py]): batch planning, run identifiers, artifact digests,
    manifest extension and checkpoint import. *)
From stdpp Require Import sorting.
From S2P Require Import Prelude Py PyStr PyText Fs Artifacts Paths Atomic.

Definition GRID5000_SENTENCE_CONTRACT_VERSION : str := u "grid5000-sentence-v1".
Definition HF_CREDENTIAL_ENV_VARS : list str := [u "HF_TOKEN"; u "HUGGING_FACE_HUB_TOKEN"].

Definition scrub_hf_credentials (environment : list (str * str)) : list (str * str) :=
  filter (fun kv => kv.1 ∉ HF_CREDENTIAL_ENV_VARS) environment.

Definition hf_credential_unset_prefix : str :=
  u "env " ++ join (u " ") ((fun name => u "-u " ++ shlex_quote name) <$> HF_CREDENTIAL_ENV_VARS).

Definition value_error (m : string) : exn := exc CValueError (msg m).

(** * Names *)

(** [_RUN_ID_PATTERN]: [[a-z0-9_-]+]. *)
Definition run_id_char (c : N) : bool := ascii_lower_letter c || ascii_digit c || one_of "_-" c.
Definition is_safe_run_id (value : pyval) : bool :=
  match value with VStr s => nonempty_run run_id_char s | _ => false end.

(** [_CHECKPOINT_BATCH_PATTERN]: [batch-(\d{8})\.parquet]; the captured digits. *)
Definition checkpoint_batch_match (name : str) : option str :=
  r ← strip_prefix (u "batch-") name;
  let '(digits, rest) := (take 8 r, drop 8 r) in
  if (length digits =? 8)%nat && forallb is_decimal digits && str_eqb rest (u ".parquet")
  then Some digits else None.

(** [_CHECKPOINT_TEMPORARY_PATTERN]: [\.batch-\d{8}\.parquet\.[A-Za-z0-9_-]+\.tmp]. *)
Definition temporary_char (c : N) : bool := ascii_letter c || ascii_digit c || one_of "_-" c.
Definition is_checkpoint_temporary (name : str) : bool :=
  match strip_prefix (u ".batch-") name with
  | Some r =>
      (length (take 8 r) =? 8)%nat && forallb is_decimal (take 8 r) &&
      match strip_prefix (u ".parquet.") (drop 8 r) with
      | Some r2 =>
          let '(middle, suffix) := span temporary_char r2 in
          negb (bool_decide (middle = [])) && str_eqb suffix (u ".tmp")
      | None => false
      end
  | None => false
  end.

Definition MANIFEST_INVARIANT_KEYS : list str :=
  [u "contract_version"; u "segmenter"; u "model_id"; u "model_revision"; u "segmenter_version";
   u "supported_languages"; u "unsupported_language_policy"].

(** * Data *)

Record SentenceBatch := { sb_index : Z; sb_stems : list str; sb_input_bytes : Z }.
Record FileDigest := { relative_path : str; fd_size : Z; fd_sha256 : str }.

Section Protocol.
Context {RT : Runtime} {FF : FileFormats}.

(** * Batch planning *)

Definition validate_limits (max_stems max_input_bytes : Z) : outcome unit :=
  _ ← raise_if (max_stems <? 1) (value_error "max_stems must be positive");
  raise_if (max_input_bytes <? 1) (value_error "max_input_bytes must be positive").

(** [_region_identity]. *)
Definition region_identity (region : pyval) : outcome (str * str) :=
  match region with
  | VDict d =>
      match dget_none (u "stem") d, dget_none (u "project") d with
      | VStr stem, VStr project => mret (stem, project)
      | _, _ => Raise (value_error "Sentence manifest region needs string stem and project")
      end
  | _ => Raise (value_error "Sentence manifest region must be an object")
  end.

Definition completed_regions (sentence_manifest : option pydict) : outcome (list (str * str)) :=
  match sentence_manifest with
  | None => mret []
  | Some m =>
      match default (VList []) (dget (u "regions") m) with
      | VList raw_regions => mapM region_identity raw_regions
      | _ => Raise (value_error "Sentence manifest regions must be a list")
      end
  end.

Definition validate_stem (stem : str) : outcome str :=
  require_safe_stem stem (u "sentence stem") CValueError.

(** [root / project / "sections" / f"{stem}.parquet"]. *)
Definition section_source (processed_v2 : path) (project : string) (stem : str) : path :=
  sub processed_v2 project ++ [u "sections"; stem ++ u ".parquet"].

Definition sentence_source_paths (processed_v2 : path) (stem : str) (t : gmap path node)
    : outcome (list path) :=
  _ ← validate_stem stem;
  let wikipedia := section_source processed_v2 "wikipedia" stem in
  if negb (is_file wikipedia t)
  then Raise (exc CFileNotFoundError (msg "V2 Wikipedia section source is missing"))
  else
    let wikivoyage := section_source processed_v2 "wikivoyage" stem in
    mret (if is_file wikivoyage t then [wikipedia; wikivoyage] else [wikipedia]).

Definition required_projects (source_paths : list path) : list str :=
  if (length source_paths =? 2)%nat then [u "wikipedia"; u "wikivoyage"] else [u "wikipedia"].

Definition is_complete (stem : str) (projects : list str) (completed : list (str * str)) : bool :=
  forallb (fun project => bool_decide ((stem, project) ∈ completed)) projects.

(** One iteration of [_pending_stems]. *)
Definition pending_stem (processed_v2 : path) (completed : list (str * str)) (t : gmap path node)
    (pending : list (str * Z)) (stem : str) : outcome (list (str * Z)) :=
  source_paths ← sentence_source_paths processed_v2 stem t;
  if is_complete stem (required_projects source_paths) completed then mret pending
  else
    sizes ← mapM (fun p => file_size p t) source_paths;
    mret (pending ++ [(stem, foldr Z.add 0 sizes)]).

Definition pending_stems (processed_v2 : path) (finalized_stems : list (str * pydict))
    (completed : list (str * str)) (t : gmap path node) : outcome (list (str * Z)) :=
  fold_outcome (pending_stem processed_v2 completed t) [] (sorted_strs finalized_stems.*1).

Definition should_flush (current_stems : list str) (current_bytes next_bytes max_stems
    max_input_bytes : Z) : bool :=
  negb (bool_decide (current_stems = [])) &&
  ((max_stems <=? len current_stems) || (max_input_bytes <? current_bytes + next_bytes)).

Definition make_batch (batches : list SentenceBatch) (stems : list str) (input_bytes : Z)
    : SentenceBatch :=
  {| sb_index := len batches; sb_stems := stems; sb_input_bytes := input_bytes |}.

(** The three local variables of [_pack_batches]'s loop. *)
Record Packing := {
  pk_batches : list SentenceBatch; pk_stems : list str; pk_bytes : Z }.

Definition flush (p : Packing) : Packing :=
  {| pk_batches := pk_batches p ++ [make_batch (pk_batches p) (pk_stems p) (pk_bytes p)];
     pk_stems := []; pk_bytes := 0 |}.

Definition pack_stem (max_stems max_input_bytes : Z) (p : Packing) (sb : str * Z) : Packing :=
  let '(stem, input_bytes) := sb in
  let p := if should_flush (pk_stems p) (pk_bytes p) input_bytes max_stems max_input_bytes
           then flush p else p in
  {| pk_batches := pk_batches p; pk_stems := pk_stems p ++ [stem];
     pk_bytes := pk_bytes p + input_bytes |}.

Definition pack_batches (pending : list (str * Z)) (max_stems max_input_bytes : Z)
    : list SentenceBatch :=
  let p := foldl (pack_stem max_stems max_input_bytes)
             {| pk_batches := []; pk_stems := []; pk_bytes := 0 |} pending in
  pk_batches (if bool_decide (pk_stems p = []) then p else flush p).

Definition plan_sentence_batches (processed_v2 : path) (sentence_manifest : option pydict)
    (max_stems max_input_bytes : Z) (t : gmap path node) : outcome (list SentenceBatch) :=
  _ ← validate_limits max_stems max_input_bytes;
  finalized_stems ← load_v2_manifest processed_v2 t;
  if bool_decide (length finalized_stems = 0%nat) then mret []
  else
    completed ← completed_regions sentence_manifest;
    pending ← pending_stems processed_v2 finalized_stems completed t;
    mret (pack_batches pending max_stems max_input_bytes).

(** * Digests *)

Definition validate_cleanup_target (run_root target : path) : bool :=
  match relative_to (resolve target) (resolve run_root) with
  | Some _ => negb (bool_decide (resolve target = resolve run_root))
  | None => false
  end.

Definition relative_file_path (p root : path) (t : gmap path node) : outcome str :=
  if negb (is_file p t) then Raise not_found
  else match relative_to (resolve p) root with
       | Some relative => mret (join (u "/") relative)
       | None => Raise (value_error "Artifact is outside root")
       end.

(** One iteration of [sha256_manifest]: the records and the paths seen. *)
Definition digest_path (root : path) (t : gmap path node) (records : list FileDigest) (p : path)
    : outcome (list FileDigest) :=
  relative ← relative_file_path p root t;
  if bool_decide (relative ∈ relative_path <$> records)
  then Raise (exc CValueError [FStr (u "Duplicate artifact path: " ++ relative)])
  else
    size ← file_size p t;
    digest ← sha256_file p t;
    mret (records ++ [{| relative_path := relative; fd_size := size; fd_sha256 := digest |}]).

Definition digest_le (a b : FileDigest) : Prop := str_le (relative_path a) (relative_path b).
#[global] Instance digest_le_dec : RelDecision digest_le.
Proof. intros a b. unfold digest_le. apply _. Defined.

Definition sha256_manifest (paths : list path) (root : path) (t : gmap path node)
    : outcome (list FileDigest) :=
  records ← fold_outcome (digest_path (resolve root) t) [] paths;
  mret (merge_sort digest_le records).

(** * Manifest extension *)

Abbreviation regions := (list ((str * str) * pydict)).

Definition manifest_region_identity (raw_region : pyval) (label : string)
    : outcome ((str * str) * pydict) :=
  match raw_region with
  | VDict region =>
      match dget_none (u "stem") region, dget_none (u "project") region with
      | VStr stem, VStr project => mret ((stem, project), region)
      | _, _ => Raise (exc CValueError
                  [FStr (u label ++ u " sentence manifest region needs string stem and project")])
      end
  | _ => Raise (exc CValueError [FStr (u label ++ u " sentence manifest region must be an object")])
  end.

(** One iteration of [_manifest_regions]. *)
Definition add_region (label : string) (acc : regions) (raw_region : pyval) : outcome regions :=
  ir ← manifest_region_identity raw_region label;
  if bool_decide (ir.1 ∈ acc.*1)
  then Raise (exc CValueError [FStr (u label ++ u " sentence manifest has duplicate region")])
  else mret (acc ++ [ir]).

Definition manifest_regions (payload : pydict) (label : string) : outcome regions :=
  match dget_none (u "regions") payload with
  | VList raw_regions => fold_outcome (add_region label) [] raw_regions
  | _ => Raise (exc CValueError [FStr (u label ++ u " sentence manifest regions must be a list")])
  end.

Definition validate_invariant_key (local_payload incoming_payload : pydict) (key : str)
    : outcome unit :=
  match dget key local_payload, dget key incoming_payload with
  | Some a, Some b => raise_if (negb (py_eqb a b)) (exc CValueError [FStr (u "Sentence manifest " ++ key ++ u " changed")])
  | _, _ => Raise (exc CValueError [FStr (u "Sentence manifest " ++ key ++ u " changed")])
  end.

Definition validate_manifest_invariants (local_payload incoming_payload : pydict) : outcome unit :=
  fold_outcome (fun _ key => validate_invariant_key local_payload incoming_payload key) tt
    MANIFEST_INVARIANT_KEYS.

Definition region_at (identity : str * str) (rs : regions) : option pydict :=
  snd <$> find (fun ir => bool_decide (ir.1 = identity)) rs.

Definition validate_existing_region (incoming : regions) (ir : (str * str) * pydict) : outcome unit :=
  match region_at ir.1 incoming with
  | None => Raise (exc CValueError (msg "Incoming sentence manifest removed region"))
  | Some d => raise_if (negb (py_eqb (VDict d) (VDict ir.2)))
                (exc CValueError (msg "Incoming sentence manifest changed region"))
  end.

Definition validate_existing_regions (local incoming : regions) : outcome unit :=
  fold_outcome (fun _ ir => validate_existing_region incoming ir) tt local.

Definition validate_selected_stems (incoming : regions) (selected_stems : list str) : outcome unit :=
  if bool_decide (selected_stems = [])
  then Raise (value_error "At least one selected sentence stem is required")
  else
    let incoming_stems := (fst ∘ fst) <$> incoming in
    raise_if (existsb (fun stem => negb (bool_decide (stem ∈ incoming_stems))) selected_stems)
      (value_error "Incoming sentence manifest is missing selected stems").

Definition validate_manifest_extension (local_payload incoming_payload : pydict)
    (selected_stems : list str) : outcome unit :=
  local ← manifest_regions local_payload "Local";
  incoming ← manifest_regions incoming_payload "Incoming";
  _ ← validate_manifest_invariants local_payload incoming_payload;
  _ ← validate_existing_regions local incoming;
  validate_selected_stems incoming selected_stems.

(** * Sentence outputs *)

(** [OSError] and [pa.ArrowException] while opening a Parquet file. *)
Definition ArrowException : exn_class := CUser (u "ArrowException") CException.
Definition schema_error (m : string) : exn := value_error m.

(** The [try] block of the two schema validators. *)
Definition validate_schema (what : string) (p : path) (t : gmap path node) : outcome unit :=
  match (b ← read_bytes p t; has_sentence_schema b) with
  | Ok matches => raise_if (negb matches) (exc CValueError [FStr (u what ++ u " has an unexpected schema")])
  | Raise e => if isinstance e COSError || isinstance e ArrowException
               then Raise (exc_from CValueError [FStr (u what ++ u " has an invalid schema")] e)
               else Raise e
  end.

Definition validate_sentence_output (p : path) (expected_sha256 : str) (t : gmap path node)
    : outcome unit :=
  _ ← raise_if (negb (is_file p t)) (value_error "Sentence output is missing");
  _ ← validate_schema "Sentence output" p t;
  digest ← sha256_file p t;
  raise_if (negb (str_eqb digest expected_sha256))
    (value_error "Sentence output SHA-256 does not match receipt").

(** * Checkpoint import *)

(** [_validate_checkpoint_path]; there are no symbolic links in the model's file system. *)
Definition validate_checkpoint_path (root candidate : path) : outcome unit :=
  match relative_to (resolve candidate) (resolve root) with
  | Some _ => mret tt
  | None => Raise (value_error "Checkpoint artifact is outside root")
  end.

(** One iteration of [_checkpoint_candidates]. *)
Definition checkpoint_candidate (root : path) (t : gmap path node) (candidates : list path)
    (candidate : path) : outcome (list path) :=
  _ ← validate_checkpoint_path root candidate;
  if is_checkpoint_temporary (path_name candidate)
  then
    _ ← raise_if (negb (is_file candidate t))
          (value_error "Checkpoint temporary artifact must be a file");
    mret candidates
  else mret (candidates ++ [candidate]).

Definition checkpoint_candidates (root : path) (t : gmap path node) : outcome (list path) :=
  fold_outcome (checkpoint_candidate root t) [] (iterdir root t).

Inductive checkpoint_kind := KMetadata | KBatch.
#[global] Instance checkpoint_kind_dec : EqDecision checkpoint_kind.
Proof. solve_decision. Defined.

Definition classify_checkpoint_path (root : path) (t : gmap path node) (candidate : path)
    : outcome (checkpoint_kind * path) :=
  _ ← validate_checkpoint_path root candidate;
  if str_eqb (path_name candidate) (u "metadata.json")
  then
    _ ← raise_if (negb (is_file candidate t)) (value_error "Checkpoint metadata must be a file");
    mret (KMetadata, candidate)
  else
    _ ← raise_if (negb (is_file candidate t) ||
                  negb (bool_decide (is_Some (checkpoint_batch_match (path_name candidate)))))
          (exc CValueError [FStr (u "Unexpected checkpoint artifact: " ++ path_name candidate)]);
    mret (KBatch, candidate).

Definition checkpoint_metadata_path (classified : list (checkpoint_kind * path)) : outcome path :=
  match find (fun kp => bool_decide (kp.1 = KMetadata)) classified with
  | Some kp => mret kp.2
  | None => Raise (value_error "Checkpoint metadata.json is missing")
  end.

Definition checkpoint_batch_paths (classified : list (checkpoint_kind * path)) : list path :=
  (filter (fun kp => kp.1 = KBatch) classified).*2.

Definition checkpoint_paths (root : path) (t : gmap path node) : outcome (path * list path) :=
  _ ← raise_if (negb (is_dir root t)) (value_error "Checkpoint root is missing");
  candidates ← checkpoint_candidates root t;
  classified ← mapM (classify_checkpoint_path root t) candidates;
  metadata ← checkpoint_metadata_path classified;
  mret (metadata, checkpoint_batch_paths classified).

Definition read_checkpoint_metadata (p : path) (t : gmap path node) : outcome pydict :=
  match read_json p t with
  | Ok (VDict payload) => mret payload
  | Ok _ => Raise (value_error "Invalid checkpoint metadata")
  | Raise e => if existsb (isinstance e) [COSError; CTypeError; CUnicodeError; CValueError]
               then Raise (exc_from CValueError (msg "Invalid checkpoint metadata") e)
               else Raise e
  end.

Definition validate_checkpoint_identity (metadata expected_identity : pydict) : outcome unit :=
  let mismatch := value_error "Checkpoint identity does not match expected source/model" in
  match dget_none (u "identity") metadata with
  | VDict identity => raise_if (negb (py_eqb (VDict identity) (VDict expected_identity))) mismatch
  | _ => Raise mismatch
  end.

Definition checkpoint_batch_index (p : path) : outcome Z :=
  match checkpoint_batch_match (path_name p) with
  | Some digits => mret (int_of_digits digits)
  | None => Raise (exc CValueError [FStr (u "Invalid checkpoint batch name: " ++ path_name p)])
  end.

Definition validate_checkpoint_batches (batch_paths : list path) (t : gmap path node)
    : outcome (list Z) :=
  unsorted ← mapM checkpoint_batch_index batch_paths;
  let indexes := merge_sort Z.le unsorted in
  _ ← raise_if (negb (bool_decide (indexes = seqZ 0 (len indexes))))
        (value_error "Checkpoint batches are not contiguous");
  _ ← mapM (fun p => validate_schema "Checkpoint batch" p t) batch_paths;
  mret indexes.

Definition validate_existing_checkpoint (local_root : path) (expected_identity : pydict)
    (t : gmap path node) : outcome unit :=
  let metadata_path := child local_root (u "metadata.json") in
  if negb (path_exists metadata_path t) then mret tt
  else
    metadata ← read_checkpoint_metadata metadata_path t;
    validate_checkpoint_identity metadata expected_identity.

(** The validation part of [import_checkpoint_tree]: metadata, batch files and their indexes. *)
Definition validate_checkpoint_tree (incoming_root local_root : path) (expected_identity : pydict)
    (t : gmap path node) : outcome (pydict * list path * list Z) :=
  paths ← checkpoint_paths incoming_root t;
  metadata ← read_checkpoint_metadata paths.1 t;
  _ ← validate_checkpoint_identity metadata expected_identity;
  indexes ← validate_checkpoint_batches paths.2 t;
  _ ← validate_existing_checkpoint local_root expected_identity t;
  mret (metadata, paths.2, indexes).

Section Import.
Variable temporary_middle : gmap path node -> path -> str.

Definition install_checkpoint_tree (local_root : path) (batch_paths : list path)
    (metadata : pydict) : PyM FsState unit :=
  mkdir local_root;;
  for_each (fun source => atomic_copy_file temporary_middle source (child local_root (path_name source)))
    batch_paths;;
  atomic_write_json temporary_middle (child local_root (u "metadata.json")) (VDict metadata).

Definition import_checkpoint_tree (incoming_root local_root : path) (expected_identity : pydict)
    : PyM FsState (list Z) :=
  r <- reads (validate_checkpoint_tree incoming_root local_root expected_identity);;
  let '(metadata, batch_paths, indexes) := r in
  install_checkpoint_tree local_root batch_paths metadata;;
  ret indexes.
End Import.

(** * Batch planning: lossless, bounded, greedy *)

(** A batch within its limits: an over-sized stem is a batch of its own. *)
Definition batch_bounded (max_stems max_input_bytes : Z) (b : SentenceBatch) : Prop :=
  sb_stems b ≠ [] /\ len (sb_stems b) <= max_stems /\
  (sb_input_bytes b <= max_input_bytes \/ len (sb_stems b) = 1).

(** The sizes of the pending stems, split the way the batches are. *)
Definition batch_of (chunk : list (str * Z)) (index : Z) : SentenceBatch :=
  {| sb_index := index; sb_stems := chunk.*1; sb_input_bytes := foldr Z.add 0 chunk.*2 |}.

(** Two chunks that the planner had to separate. *)
Definition separated (max_stems max_input_bytes : Z) (a b : list (str * Z)) : Prop :=
  max_stems <= len a \/
  max_input_bytes < foldr Z.add 0 a.*2 + default 0 (snd <$> head b).

Lemma sum_snoc l x : foldr Z.add 0 (l ++ [x]) = foldr Z.add 0 l + x.
Proof. induction l as [|y l IH]; simpl; lia. Qed.

Definition numbered (chunks : list (list (str * Z))) : list SentenceBatch :=
  imap (fun i c => batch_of c (Z.of_nat i)) chunks.

Lemma numbered_snoc chunks c :
  numbered (chunks ++ [c]) = numbered chunks ++ [batch_of c (len chunks)].
Proof. unfold numbered. rewrite imap_app. simpl. by rewrite Nat.add_0_r. Qed.

Lemma len_numbered chunks : len (numbered chunks) = len chunks.
Proof. unfold len, numbered. by rewrite length_imap. Qed.

(** The loop's state once a stem was read: [chunks] are the flushed groups, [cur] the current. *)
Record packed (max_stems max_input_bytes : Z) (p : Packing) (chunks : list (list (str * Z)))
    (cur : list (str * Z)) : Prop := {
  packed_batches : pk_batches p = numbered chunks;
  packed_stems : pk_stems p = cur.*1;
  packed_bytes : pk_bytes p = foldr Z.add 0 cur.*2;
  packed_bounded : Forall (fun c => batch_bounded max_stems max_input_bytes (batch_of c 0)) (chunks ++ [cur]);
  packed_greedy : Sorted (separated max_stems max_input_bytes) (chunks ++ [cur]) }.

Lemma packed_first max_stems max_input_bytes stem bytes :
  1 <= max_stems ->
  packed max_stems max_input_bytes
    (pack_stem max_stems max_input_bytes {| pk_batches := []; pk_stems := []; pk_bytes := 0 |} (stem, bytes))
    [] [(stem, bytes)].
Proof.
  intros Hm. split; simpl; [done|done|lia| |by repeat constructor].
  constructor; [|constructor]. unfold batch_bounded, len. simpl. split_and!; [done|lia|by right].
Qed.

Lemma packed_next max_stems max_input_bytes p chunks cur stem bytes :
  1 <= max_stems -> packed max_stems max_input_bytes p chunks cur ->
  exists chunks' cur', packed max_stems max_input_bytes
    (pack_stem max_stems max_input_bytes p (stem, bytes)) chunks' cur' /\
    concat chunks' ++ cur' = concat chunks ++ cur ++ [(stem, bytes)].
Proof.
  intros Hm [Hb Hs Hby Hbd Hg].
  apply Forall_app in Hbd as [Hbd Hcur]. inversion Hcur as [|? ? (Hne & Hlen & Hbytes) _]; subst.
  simpl in Hne, Hlen, Hbytes.
  assert (Hnil : bool_decide (pk_stems p = []) = false) by (rewrite Hs; by apply bool_decide_false).
  unfold pack_stem, should_flush. rewrite Hnil. simpl. rewrite Hs, Hby.
  destruct (_ || _) eqn:Ef.
  - exists (chunks ++ [cur]), [(stem, bytes)]. split.
    2: { rewrite concat_app. simpl. by rewrite app_nil_r, <- app_assoc. }
    split; simpl; [|done|lia|..].
    + unfold make_batch. rewrite Hb, len_numbered, numbered_snoc, Hs, Hby. done.
    + apply Forall_app. split; [by apply Forall_app|].
      constructor; [|constructor]. unfold batch_bounded, len. simpl. split_and!; [done|lia|by right].
    + rewrite <- app_assoc. simpl. apply Sorted_adjacent_snoc; [done|]. unfold separated. simpl.
      apply orb_true_iff in Ef as [E%Z.leb_le|E%Z.ltb_lt]; [left|right; lia].
      unfold len in *. by rewrite length_fmap in E.
  - apply orb_false_iff in Ef as [E1%Z.leb_gt E2%Z.ltb_ge].
    exists chunks, (cur ++ [(stem, bytes)]). split; [|done]. split; simpl; [done|..].
    + by rewrite Hs, fmap_app.
    + rewrite Hby, fmap_app. simpl. by rewrite sum_snoc.
    + apply Forall_app. split; [done|]. constructor; [|constructor]. split_and!; simpl.
      * rewrite fmap_app. by destruct cur.*1.
      * rewrite fmap_app. unfold len in *. rewrite length_app. simpl. lia.
      * left. rewrite fmap_app. simpl. by rewrite sum_snoc.
    + eapply Sorted_replace_last; [done|]. intros x [?|Hx]; [by left|right].
      destruct cur; [done|exact Hx].
Qed.

Lemma pack_loop max_stems max_input_bytes pending :
  1 <= max_stems -> pending ≠ [] ->
  exists chunks cur, packed max_stems max_input_bytes
    (foldl (pack_stem max_stems max_input_bytes) {| pk_batches := []; pk_stems := []; pk_bytes := 0 |} pending)
    chunks cur /\ concat chunks ++ cur = pending.
Proof.
  intros Hm. induction pending as [|[stem bytes] pending IH] using rev_ind; [done|]. intros _.
  rewrite foldl_app. destruct pending as [|x pending].
  - exists [], [(stem, bytes)]. split; [by apply packed_first|done].
  - destruct IH as (chunks & cur & Hp & Hc); [done|].
    destruct (packed_next _ _ _ _ _ stem bytes Hm Hp) as (chunks' & cur' & Hp' & Hc').
    exists chunks', cur'. split; [exact Hp'|]. by rewrite Hc', app_assoc, Hc.
Qed.

(** Batch planning.  The pending stems are cut, in order and without loss, into consecutive
    groups; batch [i] is group [i] with index [i] and the sum of its sizes; every batch has at
    least one and at most [max_stems] stems and at most [max_input_bytes] bytes, unless a single
    stem exceeds that alone; and no batch could have taken the next stem. *)
Theorem pack_batches_spec max_stems max_input_bytes pending :
  1 <= max_stems ->
  exists chunks, concat chunks = pending /\
    pack_batches pending max_stems max_input_bytes = numbered chunks /\
    Forall (fun c => batch_bounded max_stems max_input_bytes (batch_of c 0)) chunks /\
    Sorted (separated max_stems max_input_bytes) chunks.
Proof.
  intros Hm. unfold pack_batches. destruct pending as [|x pending].
  { exists []. simpl. by repeat constructor. }
  destruct (pack_loop max_stems max_input_bytes (x :: pending)) as (chunks & cur & [Hb Hs Hby Hbd Hg] & Hc);
    [done..|].
  remember (foldl _ _ (x :: pending)) as p eqn:Ep. clear Ep.
  exists (chunks ++ [cur]). split; [rewrite concat_app; simpl; by rewrite app_nil_r|].
  split; [|done]. rewrite bool_decide_false.
  - simpl. rewrite numbered_snoc, Hb, Hs, Hby. unfold make_batch. by rewrite len_numbered.
  - rewrite Hs. apply Forall_app in Hbd as [_ Hcur]. inversion Hcur as [|? ? [? _] _]; subst. done.
Qed.

(** * Manifest extension *)

Lemma add_region_spec label acc raw acc' :
  add_region label acc raw = Ok acc' -> NoDup acc.*1 ->
  NoDup acc'.*1 /\ exists ir, acc' = acc ++ [ir] /\ raw = VDict ir.2 /\
    dget_none (u "stem") ir.2 = VStr ir.1.1 /\ dget_none (u "project") ir.2 = VStr ir.1.2.
Proof.
  unfold add_region. intros H Hnd. outcome_inv H. destruct r as [[stem project] region].
  case_bool_decide as Hin; [done|]. apply mret_Ok in H as <-. split.
  - rewrite fmap_app. apply NoDup_app. split_and!; [done| |apply NoDup_singleton].
    intros x Hx ->%list_elem_of_singleton. done.
  - exists (stem, project, region). split; [done|].
    unfold manifest_region_identity in E. destruct raw; try done.
    destruct (dget_none (u "stem") d) eqn:E1; try done.
    destruct (dget_none (u "project") d) eqn:E2; try done.
    apply mret_Ok in E. by simplify_eq.
Qed.

(** The regions of a manifest: its list of objects, keyed by stem and project without duplicates. *)
Lemma manifest_regions_spec payload label rs :
  manifest_regions payload label = Ok rs ->
  NoDup rs.*1 /\ dget_none (u "regions") payload = VList (VDict <$> rs.*2) /\
  Forall (fun ir => dget_none (u "stem") ir.2 = VStr ir.1.1 /\
                    dget_none (u "project") ir.2 = VStr ir.1.2) rs.
Proof.
  unfold manifest_regions. destruct (dget_none _ payload) as [| | | | |raws| |] eqn:Er; try done.
  assert (Hgen : forall acc, fold_outcome (add_region label) acc raws = Ok rs -> NoDup acc.*1 ->
    NoDup rs.*1 /\ exists new, rs = acc ++ new /\ raws = VDict <$> new.*2 /\
      Forall (fun ir => dget_none (u "stem") ir.2 = VStr ir.1.1 /\
                        dget_none (u "project") ir.2 = VStr ir.1.2) new).
  { clear Er. induction raws as [|raw raws IH]; intros acc H Hnd; simpl in H.
    - apply mret_Ok in H as <-. split; [done|]. exists []. rewrite app_nil_r. by repeat constructor.
    - apply outcome_bind_Ok in H as (acc' & Ha & H).
      apply add_region_spec in Ha as (Hnd' & ir & -> & -> & ? & ?); [|done].
      apply IH in H as (? & new & -> & -> & ?); [|done]. split; [done|].
      exists (ir :: new). rewrite <- app_assoc. repeat constructor; done. }
  intros H. apply Hgen in H as (? & new & -> & -> & ?); [done|constructor].
Qed.

Lemma region_at_spec identity rs d :
  NoDup rs.*1 -> region_at identity rs = Some d <-> (identity, d) ∈ rs.
Proof.
  unfold region_at. induction rs as [|[id d'] rs IH]; csimpl; intros Hnd.
  { split; [done|by intros ?%elem_of_nil]. }
  apply NoDup_cons in Hnd as [Hid Hnd]. rewrite elem_of_cons. case_bool_decide as E.
  - subst id. simpl. split; [intros [= ->]; by left|]. intros [[= ->]|Hin]; [done|]. exfalso. eauto.
  - rewrite IH by done. split; [by right|]. intros [[= -> ->]|?]; done.
Qed.

(** What the caller of [validate_manifest_extension] relies on. *)
Record extends (local incoming : regions) (local_payload incoming_payload : pydict)
    (selected_stems : list str) : Prop := {
  ext_invariants : forall key, key ∈ MANIFEST_INVARIANT_KEYS -> exists a b,
    dget key local_payload = Some a /\ dget key incoming_payload = Some b /\ py_eqb a b = true;
  ext_regions : forall identity d, (identity, d) ∈ local ->
    exists d', (identity, d') ∈ incoming /\ py_eqb (VDict d') (VDict d) = true;
  ext_selected : selected_stems ≠ [] /\
    forall stem, stem ∈ selected_stems -> exists project d, ((stem, project), d) ∈ incoming }.

Lemma validate_invariants_spec lp ip :
  validate_manifest_invariants lp ip = Ok tt <->
  forall key, key ∈ MANIFEST_INVARIANT_KEYS -> exists a b,
    dget key lp = Some a /\ dget key ip = Some b /\ py_eqb a b = true.
Proof.
  unfold validate_manifest_invariants. rewrite fold_outcome_checks, Forall_forall.
  apply forall_proper. intros key. unfold validate_invariant_key.
  destruct (dget key lp) as [a|], (dget key ip) as [b|]; try naive_solver.
  rewrite raise_if_Ok, negb_false_iff. naive_solver.
Qed.

Lemma validate_existing_spec local incoming :
  NoDup incoming.*1 ->
  validate_existing_regions local incoming = Ok tt <->
  forall identity d, (identity, d) ∈ local ->
    exists d', (identity, d') ∈ incoming /\ py_eqb (VDict d') (VDict d) = true.
Proof.
  intros Hnd. unfold validate_existing_regions. rewrite fold_outcome_checks, Forall_forall.
  unfold validate_existing_region. split.
  - intros H identity d Hin. specialize (H _ Hin). cbn [fst snd] in H.
    destruct (region_at identity incoming) as [d'|] eqn:E; [|done].
    passed H. apply region_at_spec in E; [|done]. eauto.
  - intros H [identity d] Hin. destruct (H _ _ Hin) as (d' & Hd & Heq).
    apply region_at_spec in Hd; [|done]. cbn [fst snd]. by rewrite Hd, Heq.
Qed.

Lemma validate_selected_spec incoming selected :
  validate_selected_stems incoming selected = Ok tt <->
  selected ≠ [] /\ forall stem, stem ∈ selected -> exists project d, ((stem, project), d) ∈ incoming.
Proof.
  unfold validate_selected_stems. case_bool_decide as E; [naive_solver|].
  rewrite raise_if_Ok. rewrite <- not_true_iff_false, existsb_exists.
  assert (Hin : forall stem, stem ∈ (fst ∘ fst) <$> incoming <->
                exists project d, ((stem, project), d) ∈ incoming).
  { intros stem. rewrite list_elem_of_fmap. split.
    - intros ([[s p] d] & -> & ?). eauto.
    - intros (p & d & ?). by exists (stem, p, d). }
  split.
  - intros H. split; [done|]. intros stem Hs. apply Hin.
    destruct (decide (stem ∈ (fst ∘ fst) <$> incoming)); [done|]. exfalso. apply H.
    exists stem. split; [by apply list_elem_of_In|]. by rewrite bool_decide_false.
  - intros [_ H] (stem & Hs%list_elem_of_In & Hn). apply H, Hin in Hs. by rewrite bool_decide_true in Hn.
Qed.

(** Manifest extension.  [validate_manifest_extension] accepts exactly when both payloads
    list well-formed regions without duplicates, the invariant fields are present and equal,
    every local region is still there with an equal record, and every selected stem (at least
    one) has a region: an accepted manifest only appends. *)
Theorem validate_manifest_extension_spec local_payload incoming_payload selected_stems :
  validate_manifest_extension local_payload incoming_payload selected_stems = Ok tt <->
  exists local incoming,
    manifest_regions local_payload "Local" = Ok local /\
    manifest_regions incoming_payload "Incoming" = Ok incoming /\
    NoDup incoming.*1 /\ dget_none (u "regions") incoming_payload = VList (VDict <$> incoming.*2) /\
    extends local incoming local_payload incoming_payload selected_stems.
Proof.
  unfold validate_manifest_extension. split.
  - intros H. outcome_inv H. destruct r1, r2. rename r into local, r0 into incoming.
    destruct (manifest_regions_spec _ _ _ E0) as (Hnd & Hraw & _).
    exists local, incoming. split_and!; [done..|].
    by split; [apply validate_invariants_spec|apply validate_existing_spec|apply validate_selected_spec].
  - intros (local & incoming & -> & -> & Hnd & _ & [H1 H2 H3]). simpl.
    apply validate_invariants_spec in H1. apply validate_existing_spec in H2; [|done].
    apply validate_selected_spec in H3. by rewrite H1; simpl; rewrite H2; simpl.
Qed.

(** * Checkpoint import *)

Lemma checkpoint_candidates_spec root t candidates :
  checkpoint_candidates root t = Ok candidates ->
  Forall (fun q => q ∈ iterdir root t) candidates.
Proof.
  unfold checkpoint_candidates. intros H.
  eapply (fold_outcome_invariant (Forall (fun q => q ∈ iterdir root t))); [exact H|constructor|].
  intros acc q acc' Hq Hacc Hstep. unfold checkpoint_candidate in Hstep. outcome_inv Hstep.
  destruct (is_checkpoint_temporary _).
  - outcome_inv Hstep. apply mret_Ok in Hstep. by subst.
  - apply mret_Ok in Hstep as <-. apply Forall_app. by repeat constructor.
Qed.

Lemma classify_spec root t q kp :
  classify_checkpoint_path root t q = Ok kp ->
  kp.2 = q /\ is_file q t = true /\
  (kp.1 = KBatch -> is_Some (checkpoint_batch_match (path_name q))).
Proof.
  unfold classify_checkpoint_path. intros H. outcome_inv H.
  destruct (str_eqb _ _); outcome_inv H; apply mret_Ok in H as <-; simpl.
  - passed E0. done.
  - rewrite raise_if_Ok, orb_false_iff, !negb_false_iff, bool_decide_eq_true in E0. tauto.
Qed.

(** Every batch file of a validated checkpoint is a file of its directory with a batch name. *)
Lemma checkpoint_paths_spec root t metadata batches :
  checkpoint_paths root t = Ok (metadata, batches) ->
  Forall (fun q => exists name, q = child root name /\ is_file q t = true /\
                     is_Some (checkpoint_batch_match name)) batches.
Proof.
  unfold checkpoint_paths. intros H. outcome_inv H. apply mret_Ok in H. simplify_eq.
  apply checkpoint_candidates_spec in E0. apply outcome_mapM_Forall2 in E1.
  unfold checkpoint_batch_paths. apply Forall_forall. intros q Hq.
  apply list_elem_of_fmap in Hq as ([k q'] & -> & Hq). apply list_elem_of_filter in Hq as [Hk Hq].
  simpl in *. subst k. apply list_elem_of_lookup in Hq as [i Hi].
  destruct (Forall2_lookup_r _ _ _ _ _ E1 Hi) as (q0 & Hq0 & Hc).
  apply classify_spec in Hc as (<- & ? & Hm). simpl in *.
  pose proof (Forall_lookup_1 _ _ _ _ E0 Hq0) as (name & -> & _)%elem_of_iterdir.
  exists name. rewrite path_name_child in Hm. auto.
Qed.

Lemma merge_sort_le_length l : length (merge_sort Z.le l) = length l.
Proof. by rewrite merge_sort_Permutation. Qed.

Lemma validate_batches_spec batches t indexes :
  validate_checkpoint_batches batches t = Ok indexes -> indexes = seqZ 0 (len batches).
Proof.
  unfold validate_checkpoint_batches. intros H. outcome_inv H. apply mret_Ok in H as <-.
  passed E0. rewrite bool_decide_eq_true in E0. apply outcome_mapM_Forall2, Forall2_length in E.
  rewrite E0. f_equal. unfold len. by rewrite merge_sort_le_length, E.
Qed.

Section ImportCorrect.
Context (temporary_middle : gmap path node -> path -> str).
Context (fresh : forall t p, t !! temporary_name temporary_middle p t = None).

(** One publication leaves every other path alone, but for directories and hidden files. *)
Lemma replaced_untouched target want s o s' q :
  replaced target want s o s' -> q ≠ target -> temporary_like q = false ->
  q ∉ prefixes (path_parent target) -> tree s' !! q = tree s !! q.
Proof.
  intros [_ Ho Hn] Hq Hl Hp. destruct (tree s !! q) as [n|] eqn:E; [auto|].
  destruct (tree s' !! q) as [n|] eqn:E'; [|done].
  destruct (Hn _ _ Hq E E') as [[_ ?]|(_ & _ & ? & _)]; congruence.
Qed.

(** Copying batch files from one directory to another. *)
Lemma copies_spec incoming local l s o s' :
  incoming ≠ local ->
  Forall (fun q => exists name, q = child incoming name /\ is_file q (tree s) = true) l ->
  for_each (fun source => atomic_copy_file temporary_middle source (child local (path_name source))) l s
    = (o, s') ->
  (forall q n, q ∉ (child local ∘ path_name) <$> l -> tree s !! q = Some n -> tree s' !! q = Some n) /\
  (forall q, q ∉ (child local ∘ path_name) <$> l -> temporary_like q = false -> q ∉ prefixes local ->
     tree s' !! q = tree s !! q) /\
  (o = Ok tt -> forall q, q ∈ l -> tree s' !! child local (path_name q) = tree s !! q).
Proof.
  intros Hne. revert s. induction l as [|q l IH]; intros s HF; cbn [for_each].
  { unfold ret. intros. simplify_eq. split_and!; [auto..|]. by intros _ q ?%elem_of_nil. }
  inversion HF as [|? ? (name & -> & Hfile) HF']; subst. unfold pbind.
  destruct (atomic_copy_file _ _ _ s) as [o1 s1] eqn:E1.
  unfold is_file in Hfile. destruct (tree s !! child incoming name) as [[c|]|] eqn:Hc; try done.
  eapply atomic_copy_file_replaced in E1 as Hrep; [|done|done].
  pose proof Hrep as [Ht Ho _]. rewrite !path_name_child in *.
  assert (Hdisj : forall a b, child incoming a ≠ child local b).
  { intros a b E. apply Hne. apply (f_equal path_parent) in E. by rewrite !path_parent_child in E. }
  assert (Hun : forall q, q ≠ child local name -> temporary_like q = false -> q ∉ prefixes local ->
                  tree s1 !! q = tree s !! q).
  { intros q ? ? ?. eapply replaced_untouched; [exact Hrep|done..|]. by rewrite path_parent_child. }
  csimpl. rewrite path_name_child.
  destruct o1 as [[]|e].
  2: { intros. simplify_eq. split_and!; [| |done].
       - intros q n [? ?]%not_elem_of_cons. by apply Ho.
       - intros q [? ?]%not_elem_of_cons. by apply Hun. }
  destruct Ht as [[[e ?] _]|(_ & c' & -> & Hc')]; [done|]. intros Hrun.
  assert (HF1 : Forall (fun q => exists name, q = child incoming name /\ tree s1 !! q = tree s !! q /\
                                  is_file q (tree s1) = true) l).
  { eapply Forall_impl; [exact HF'|]. intros q (name' & -> & Hf). exists name'. split; [done|].
    unfold is_file in *. destruct (tree s !! child incoming name') as [n|] eqn:E; [|done].
    pose proof (Ho _ n (Hdisj name' name) E) as E'. by rewrite E'. }
  destruct (IH s1) with (2 := Hrun) as (Hk & Hu & Hcopied).
  { eapply Forall_impl; [exact HF1|]. naive_solver. }
  split_and!.
  - intros q n [? ?]%not_elem_of_cons ?. auto.
  - intros q [? ?]%not_elem_of_cons ? ?. rewrite Hu by done. auto.
  - intros Hok q Hq. rewrite Forall_forall in HF1.
    assert (Hl : forall q, q ∈ l -> tree s' !! child local (path_name q) = tree s !! q).
    { intros q' Hq'. rewrite (Hcopied Hok q' Hq'). by destruct (HF1 q' Hq') as (_ & _ & -> & _). }
    apply elem_of_cons in Hq as [->|Hq]; [|by auto]. rewrite path_name_child, Hc.
    destruct (decide (child local name ∈ (child local ∘ path_name) <$> l)) as [Hin|Hin]; [|by apply Hk].
    apply list_elem_of_fmap in Hin as (q & Heq & Hq). simpl in Heq. rewrite Heq, (Hl q Hq).
    destruct (HF1 q Hq) as (name' & -> & _). rewrite path_name_child in Heq.
    apply (f_equal path_name) in Heq. rewrite !path_name_child in Heq. by subst.
Qed.

Lemma metadata_is_no_batch local incoming batches t :
  Forall (fun q => exists name, q = child incoming name /\ is_file q t = true /\
            is_Some (checkpoint_batch_match name)) batches ->
  child local (u "metadata.json") ∉ (child local ∘ path_name) <$> batches.
Proof.
  intros HF Hin. apply list_elem_of_fmap in Hin as (q & Heq & Hq). rewrite Forall_forall in HF.
  destruct (HF q Hq) as (name & -> & _ & Hm). simpl in Heq.
  apply (f_equal path_name) in Heq. rewrite !path_name_child in Heq. subst name.
  by apply is_Some_None in Hm.
Qed.

Lemma child_not_prefix p name : child p name ∉ prefixes p.
Proof. rewrite <- (path_parent_child p name) at 2. apply not_parent. Qed.

(** Checkpoint import.  A returned import validated the whole incoming tree first: its batch
    indexes are exactly [0 .. n-1] and its identity is the expected one; every batch file was
    copied with its content and the metadata was written.  A failed one leaves the local
    metadata, the file that makes a checkpoint resumable, as it was. *)
Theorem import_checkpoint_tree_spec incoming_root local_root expected s o s' :
  incoming_root ≠ local_root ->
  import_checkpoint_tree temporary_middle incoming_root local_root expected s = (o, s') ->
  let metadata_path := child local_root (u "metadata.json") in
  match o with
  | Ok indexes => exists metadata batches identity,
      validate_checkpoint_tree incoming_root local_root expected (tree s)
        = Ok (metadata, batches, indexes) /\
      indexes = seqZ 0 (len batches) /\
      dget_none (u "identity") metadata = VDict identity /\
      py_eqb (VDict identity) (VDict expected) = true /\
      (forall q, q ∈ batches -> tree s' !! child local_root (path_name q) = tree s !! q) /\
      tree s' !! metadata_path = Some (File (CJson (VDict metadata)))
  | Raise _ => tree s' !! metadata_path = tree s !! metadata_path
  end.
Proof.
  intros Hne. unfold import_checkpoint_tree, pbind, reads.
  destruct (validate_checkpoint_tree _ _ _ (tree s)) as [[[metadata batches] indexes]|e] eqn:Hv;
    [|intros; by simplify_eq].
  pose proof Hv as Hv'. unfold validate_checkpoint_tree in Hv'. outcome_inv Hv'.
  apply mret_Ok in Hv'. simplify_eq. destruct r as [meta_path batches]. simpl in *.
  apply checkpoint_paths_spec in E. apply validate_batches_spec in E2 as ->.
  unfold install_checkpoint_tree, pbind.
  destruct (mkdir local_root s) as [o1 s1] eqn:E4.
  set (mp := child local_root (u "metadata.json")).
  assert (Hlike : temporary_like mp = false) by (unfold temporary_like, mp; by rewrite path_name_child).
  assert (Hpre : mp ∉ prefixes local_root) by apply child_not_prefix.
  assert (Hnb := metadata_is_no_batch local_root incoming_root batches _ E).
  rewrite <- (path_parent_child local_root (u "metadata.json")) in E4.
  apply mkdir_cases in E4 as (Hmp & Hk1 & _ & _).
  destruct o1 as [[]|e]; [|intros; by simplify_eq].
  assert (HF1 : Forall (fun q => exists name, q = child incoming_root name /\ is_file q (tree s1) = true) batches).
  { eapply Forall_impl; [exact E|]. intros q (name & -> & Hf & _). exists name. split; [done|].
    unfold is_file in *. destruct (tree s !! child incoming_root name) as [n|] eqn:En; [|done]. by rewrite (Hk1 _ _ En). }
  destruct (for_each _ batches s1) as [o2 s2] eqn:E5.
  apply (copies_spec incoming_root local_root) in E5 as (Hk2 & Hu2 & Hc2); [|done|done].
  assert (Hmp2 : tree s2 !! mp = tree s !! mp) by (rewrite Hu2 by done; done).
  destruct o2 as [[]|e]; [|intros; by simplify_eq].
  destruct (atomic_write_json _ _ _ s2) as [o3 s3] eqn:E6.
  apply atomic_write_json_replaced in E6 as [Ht Ho _]; [|done].
  unfold ret. destruct Ht as [[[e ->] Ht]|(-> & c & -> & Ht)]; intros; simplify_eq; [congruence|].
  assert (Hid : exists identity, dget_none (u "identity") metadata = VDict identity /\
                  py_eqb (VDict identity) (VDict expected) = true).
  { unfold validate_checkpoint_identity in E1. destruct (dget_none (u "identity") metadata); try done.
    passed E1. eauto. }
  destruct Hid as (identity & Hid & Heq). exists metadata, batches, identity.
  split_and!; [done..| |exact Ht].
  intros q Hq. rewrite Forall_forall in E, HF1. destruct (E q Hq) as (name & -> & Hf & _).
  unfold is_file in Hf. destruct (tree s !! child incoming_root name) as [n|] eqn:En; [|done].
  apply Ho; [intros Heq'; apply Hnb, list_elem_of_fmap; by exists (child incoming_root name)|].
  rewrite (Hc2 eq_refl _ Hq). by apply Hk1.
Qed.
End ImportCorrect.
End Protocol.

(** * Interrupted copies *)

Lemma checkpoint_batch_match_spec name digits :
  checkpoint_batch_match name = Some digits ->
  name = u "batch-" ++ digits ++ u ".parquet" /\ length digits = 8%nat /\ forallb is_decimal digits = true.
Proof.
  unfold checkpoint_batch_match. destruct (strip_prefix _ name) as [r|] eqn:E; simpl; [|done].
  apply strip_prefix_Some in E as ->. destruct (_ && _) eqn:Ec; [|done]. intros [= <-].
  apply andb_true_iff in Ec as [[?%Nat.eqb_eq ?]%andb_true_iff Er].
  destruct (str_eqb_spec (drop 8 r) (u ".parquet")) as [<-|]; [|done].
  by rewrite take_drop.
Qed.

(** A copy of a batch file that was interrupted never blocks a later import: the temporary
    name [atomic_copy_file] uses for a checkpoint batch, with a middle part in [mkstemp]'s
    alphabet, is one the import skips, and it is never mistaken for a batch. *)
Theorem interrupted_copy_is_skipped name middle :
  is_Some (checkpoint_batch_match name) -> nonempty_run temporary_char middle = true ->
  let temporary := u "." ++ name ++ u "." ++ middle ++ u ".tmp" in
  is_checkpoint_temporary temporary = true /\ checkpoint_batch_match temporary = None.
Proof.
  intros [digits (-> & Hlen & Hdec)%checkpoint_batch_match_spec] Hm temporary.
  unfold nonempty_run in Hm. apply andb_true_iff in Hm as [Hne Hall].
  assert (Ht : temporary = u ".batch-" ++ digits ++ u ".parquet." ++ middle ++ 46%N :: u "tmp").
  { unfold temporary. rewrite <- !app_assoc. reflexivity. }
  split; [|reflexivity]. unfold is_checkpoint_temporary. rewrite Ht, strip_prefix_app.
  rewrite (take_app_length' digits), (drop_app_length' digits) by done.
  rewrite Hlen, Hdec, strip_prefix_app, span_run by done. by rewrite Hne.
Qed.

(** * Examples *)

Lemma pack_batches_spec_witness :
  exists chunks, concat chunks = [(u "a", 5); (u "b", 6); (u "c", 1)] /\
    pack_batches [(u "a", 5); (u "b", 6); (u "c", 1)] 2 10 = numbered chunks /\ length chunks = 2%nat.
Proof.
  destruct (pack_batches_spec 2 10 [(u "a", 5); (u "b", 6); (u "c", 1)]) as (chunks & Hc & Hp & _); [lia|].
  exists chunks. split; [exact Hc|]. split; [exact Hp|].
  apply (f_equal length) in Hp. unfold numbered in Hp. rewrite length_imap in Hp. by vm_compute in Hp.
Defined.

Lemma interrupted_copy_is_skipped_witness :
  is_checkpoint_temporary (u ".batch-00000001.parquet.x_y7.tmp") = true.
Proof.
  apply (interrupted_copy_is_skipped (u "batch-00000001.parquet") (u "x_y7"));
    [eexists; vm_compute; reflexivity|vm_compute; reflexivity].
Defined.

#[local] Existing Instance example_runtime.
#[local] Existing Instance example_formats.

Definition checkpoint_identity : pydict := [(u "stem", VStr (u "monaco"))].
Definition checkpoint_metadata : pydict := [(u "identity", VDict checkpoint_identity)].
Definition in_ (name : string) : path := [u "in"; u name].
Definition out_ : path := [u "out"].
Definition checkpoint_example : gmap path node := list_to_map
  [([u "in"], Dir); (in_ "metadata.json", File (CJson (VDict checkpoint_metadata)));
   (in_ "batch-00000000.parquet", File (CBytes [1%N]));
   (in_ "batch-00000001.parquet", File (CBytes [2%N]));
   (in_ ".batch-00000002.parquet.ab.tmp", File (CBytes [3%N]))].

Lemma import_checkpoint_tree_spec_witness :
  let r := import_checkpoint_tree long_middle [u "in"] out_ checkpoint_identity
             (mkFs checkpoint_example []) in
  r.1 = Ok [0; 1] /\
  tree r.2 !! child out_ (u "metadata.json") = Some (File (CJson (VDict checkpoint_metadata))).
Proof.
  intros r. assert (E : r.1 = Ok [0; 1]) by (vm_compute; reflexivity). split; [exact E|].
  apply pair_of_fst in E. unfold r in *. clear r.
  apply import_checkpoint_tree_spec in E; [|exact temporary_name_fresh|by_evaluation].
  destruct E as (metadata & batches & identity & Hv & _ & _ & _ & _ & Hm).
  vm_compute in Hv. injection Hv as <- _. exact Hm.
Defined.
