(* ===== verification/Transport.v ===== *)
(** The SSH/rsync transport of the Grid5000 controller ([grid5000/sentence_transport.py]): the
    command lines it runs, its refusals, and the remote shell's reading of a quoted command. *)
From Stdlib Require Import QArith.
From S2P Require Import Prelude Py PyStr PyText Fs.

(** [subprocess.CompletedProcess[str]]. *)
Record CompletedProcess := { returncode : Z; stdout : option str; stderr : option str }.

Definition TimeoutExpired : exn_class := CUser (u "TimeoutExpired") CSubprocessError.
Definition run_error (m : string) : exn := exc CControllerRunError (msg m).

Definition REMOTE_NAMESPACE : str := u "$HOME/osm-polygon-wikidata-only-grid5000".
Definition FRONTEND_COMMAND_TIMEOUT_S : Q := 300.
Definition TRANSFER_TIMEOUT_S : Q := 3600.
Definition SSH_NON_INTERACTIVE_OPTIONS : list str :=
  [u "-o"; u "BatchMode=yes"; u "-o"; u "ConnectTimeout=15"; u "-o"; u "ServerAliveInterval=30"].

(** [subprocess.run(args, check=False, capture_output=True, text=True, timeout=...)]. *)
Class Subprocess (W : Type) := { subprocess_run : list str -> Q -> PyM W CompletedProcess }.

(** [(text or "").strip()]. *)
Definition stripped (text : option str) : str := strip (default [] text).

Definition validate_remote_home (remote_home : str) : outcome str :=
  if negb (startswith (u "/") remote_home) || existsb is_space remote_home
  then Raise (run_error "Grid5000 remote home is invalid") else mret remote_home.

Definition validated_remote_home (result : CompletedProcess) : outcome str :=
  if negb (returncode result =? 0)
  then Raise (run_error "Could not resolve the Grid5000 remote home")
  else validate_remote_home (stripped (stdout result)).

Section Transport.
Context {W : Type} `{!Subprocess W}.
(** [self.site] and [self._executable_resolver]. *)
Variable site : str.
Variable executable_resolver : str -> outcome str.

(** The transport's mutable state, [self._remote_home], next to the world's. *)
Abbreviation M := (PyM (W * option str)).

Definition in_world {A} (m : PyM W A) : M A := fun s =>
  let '(o, w) := m s.1 in (o, (w, s.2)).

(** [_run]. *)
Definition run (command : list str) (timeout_s : Q) : M CompletedProcess :=
  try_except (in_world (subprocess_run command timeout_s))
    (fun e => if isinstance e TimeoutExpired
              then Some (throw (exc_from CControllerCommandTimeoutError (msg "Grid5000 command timed out") e))
              else None).

(** The argument list of [run_frontend]: [oarsub] travels as one quoted shell word list. *)
Definition frontend_args (args : list str) : list str :=
  match args with
  | first :: _ => if str_eqb first (u "oarsub") then [join (u " ") (shlex_quote <$> args)] else args
  | [] => []
  end.

Definition run_frontend (args : list str) : M CompletedProcess :=
  ssh <- lift (executable_resolver (u "ssh"));;
  run (ssh :: SSH_NON_INTERACTIVE_OPTIONS ++ site :: frontend_args args) FRONTEND_COMMAND_TIMEOUT_S.

Definition resolve_remote_home : M str := fun s =>
  match s.2 with
  | Some home => (Ok home, s)
  | None =>
      (result <- run_frontend [u "printf"; u "%s"; u "$HOME"];;
       remote_home <- lift (validated_remote_home result);;
       modify (fun s => (s.1, Some remote_home));;
       ret remote_home) s
  end.

Definition resolve_remote_path (remote_path : str) : M str :=
  if negb (startswith (u "$HOME/") remote_path)
  then throw (run_error "Refusing a Grid5000 path outside the remote home")
  else
    remote_home <- resolve_remote_home;;
    ret (remote_home ++ drop 5 remote_path).

Definition rsync_remote_shell : outcome str :=
  ssh ← executable_resolver (u "ssh");
  mret (join (u " ") (shlex_quote <$> ssh :: SSH_NON_INTERACTIVE_OPTIONS)).

(** [rsync -a -e <shell> <source>/ <target>/]. *)
Definition rsync (source target : str) : M CompletedProcess :=
  rsync <- lift (executable_resolver (u "rsync"));;
  shell <- lift rsync_remote_shell;;
  run [rsync; u "-a"; u "-e"; shell; source; target] TRANSFER_TIMEOUT_S.

Definition check_transfer (result : CompletedProcess) (message : string) : M unit :=
  if returncode result =? 0 then ret tt
  else throw (exc CControllerRunError [FStr (u message); FStr (stripped (stderr result))]).

Definition upload_tree (local_root : path) (remote_root : str) : M unit :=
  resolved_root <- resolve_remote_path remote_root;;
  result <- rsync (path_str local_root ++ u "/") (site ++ u ":" ++ resolved_root ++ u "/");;
  check_transfer result "Grid5000 upload failed: ".

(** [download_tree] after the local directory has been made. *)
Definition download_tree (remote_root : str) (local_root : path) : M unit :=
  resolved_root <- resolve_remote_path remote_root;;
  result <- rsync (site ++ u ":" ++ resolved_root ++ u "/") (path_str local_root ++ u "/");;
  check_transfer result "Grid5000 download failed: ".

Definition remove_tree (remote_root : str) : M unit :=
  if negb (startswith (REMOTE_NAMESPACE ++ u "/") remote_root)
  then throw (run_error "Refusing to remove an outside Grid5000 namespace")
  else
    resolved <- resolve_remote_path remote_root;;
    result <- run_frontend [u "rm"; u "-rf"; resolved];;
    if returncode result =? 0 then ret tt else throw (run_error "Grid5000 cleanup failed").
End Transport.

(** * The remote shell's word splitting

    A reading of a command line by a POSIX shell, defined only where every character is literal:
    unquoted characters of [shell_safe], anything but a quote between single quotes, and
    anything that is not special between double quotes. *)

Inductive quoting := Unquoted | SingleQuoted | DoubleQuoted.

(** [word] is the word read so far, [None] between words. *)
Fixpoint sh_words_from (q : quoting) (word : option str) (s : str) : option (list str) :=
  match q, s with
  | Unquoted, [] => Some (match word with Some w => [w] | None => [] end)
  | (SingleQuoted | DoubleQuoted), [] => None
  | Unquoted, c :: r =>
      if (c =? 32)%N
      then match word with
           | Some w => cons w <$> sh_words_from Unquoted None r
           | None => sh_words_from Unquoted None r
           end
      else if (c =? 39)%N then sh_words_from SingleQuoted (Some (default [] word)) r
      else if (c =? 34)%N then sh_words_from DoubleQuoted (Some (default [] word)) r
      else if shell_safe c then sh_words_from Unquoted (Some (default [] word ++ [c])) r
      else None
  | SingleQuoted, c :: r =>
      if (c =? 39)%N then sh_words_from Unquoted word r
      else sh_words_from SingleQuoted (Some (default [] word ++ [c])) r
  | DoubleQuoted, c :: r =>
      if (c =? 34)%N then sh_words_from Unquoted word r
      else if one_of "$`\!" c then None
      else sh_words_from DoubleQuoted (Some (default [] word ++ [c])) r
  end.
Definition sh_words (s : str) : option (list str) := sh_words_from Unquoted None s.

Lemma shell_safe_char c : shell_safe c = true -> (c =? 32)%N = false /\ (c =? 39)%N = false /\ (c =? 34)%N = false.
Proof.
  intros H. repeat split; apply N.eqb_neq; intros ->; by vm_compute in H.
Qed.

Lemma sh_words_safe s r word :
  forallb shell_safe s = true -> s ≠ [] ->
  sh_words_from Unquoted word (s ++ r) = sh_words_from Unquoted (Some (default [] word ++ s)) r.
Proof.
  revert word. induction s as [|c s IH]; intros word H Hne; [done|].
  simpl in H. apply andb_true_iff in H as [Hc Hs]. simpl.
  destruct (shell_safe_char c Hc) as (-> & -> & ->). rewrite Hc.
  destruct s as [|d s]; [done|]. rewrite IH by done. simpl. by rewrite <- app_assoc.
Qed.

Lemma sh_words_quoted s r w :
  sh_words_from SingleQuoted (Some w) (concat (quote_char <$> s) ++ 39%N :: r) =
  sh_words_from Unquoted (Some (w ++ s)) r.
Proof.
  revert w. induction s as [|c s IH]; intros w; [by rewrite app_nil_r|].
  csimpl. unfold quote_char at 1. destruct (c =? 39)%N eqn:E.
  - apply N.eqb_eq in E as ->. simpl. rewrite IH. by rewrite <- app_assoc.
  - simpl. rewrite E, IH. by rewrite <- app_assoc.
Qed.

Lemma sh_words_quote s r :
  sh_words_from Unquoted None (shlex_quote s ++ r) = sh_words_from Unquoted (Some s) r.
Proof.
  unfold shlex_quote. case_bool_decide as E; [by subst|].
  destruct (forallb shell_safe s) eqn:Es; [by rewrite sh_words_safe|].
  rewrite <- !app_assoc. exact (sh_words_quoted s r []).
Qed.

Lemma sh_words_join args : forall a,
  sh_words_from Unquoted None (join (u " ") (shlex_quote <$> a :: args)) = Some (a :: args).
Proof.
  induction args as [|b args IH]; intros a.
  - rewrite <- (app_nil_r (join _ _)). apply (sh_words_quote a []).
  - rewrite !fmap_cons. change (join ?sep (?x :: ?y :: ?r)) with (x ++ sep ++ join sep (y :: r)).
    rewrite sh_words_quote, <- fmap_cons. change (u " " ++ ?x) with (32%N :: x).
    cbn [sh_words_from]. rewrite N.eqb_refl. by rewrite (IH b).
Qed.

(** Quoting.  A POSIX shell splits the single argument that [run_frontend] sends for an
    [oarsub] command into exactly the command's arguments, whatever characters they contain. *)
Theorem oarsub_arguments_survive_the_shell args command :
  frontend_args (u "oarsub" :: args) = [command] -> sh_words command = Some (u "oarsub" :: args).
Proof.
  unfold frontend_args. rewrite str_eqb_refl. injection 1 as <-. apply sh_words_join.
Qed.

Lemma oarsub_arguments_survive_the_shell_witness :
  sh_words (join (u " ") (shlex_quote <$> [u "oarsub"; u "-p"; u "gpu_model='A40'"; u "cd $X && y"; []]))
  = Some [u "oarsub"; u "-p"; u "gpu_model='A40'"; u "cd $X && y"; []].
Proof. apply oarsub_arguments_survive_the_shell. reflexivity. Defined.
