(* ===== verification/ControllerPolicy.v ===== *)
(** Ledger, receipt and command policy of the Grid5000 controller
    ([grid5000/sentence_controller_policy.py]). *)
From Stdlib Require Import QArith.
From S2P Require Import Prelude Py PyStr PyText Fs Artifacts Protocol Transport.

Definition SEGMENTER_VERSION : str := u "2.2.1".
Definition GRID5000_UV_VERSION : str := u "0.11.16".
Definition EXOTIC_GRID5000_GPU_MODELS : list str :=
  [u "A100-PCIE-40GB"; u "A100-SXM4-40GB"; u "H100 NVL"].
Definition ACTIVE_STATES : list str := [u "submitted"; u "running"].
Definition OAR_STATES : list str :=
  [u "waiting"; u "hold"; u "tolaunch"; u "toerror"; u "toackreservation"; u "launching";
   u "running"; u "suspended"; u "resuming"; u "finishing"; u "terminated"; u "error"].
Definition TERMINAL_STATES : list str := [u "terminated"; u "error"].
Definition SUCCESS_STATES : list str := [u "terminated"].
Definition RETRYABLE_ARTIFACT_FAILURES : list str := [u "missing_receipt"; u "invalid_receipt"].

Definition IndexError : exn_class := CUser (u "IndexError") CException.

(** [ControllerLimits] with its defaults. *)
Record ControllerLimits := {
  max_stems : Z; max_input_bytes : Z; batch_size : Z; inference_batch_size : Z; walltime : str }.
Definition default_limits : ControllerLimits :=
  {| max_stems := 4; max_input_bytes := 256 * 1024 * 1024; batch_size := 256;
     inference_batch_size := 16; walltime := u "0:30" |}.
Definition limits_payload (l : ControllerLimits) : pydict :=
  [(u "max_stems", VInt (max_stems l)); (u "max_input_bytes", VInt (max_input_bytes l));
   (u "batch_size", VInt (batch_size l)); (u "inference_batch_size", VInt (inference_batch_size l));
   (u "walltime", VStr (walltime l))].

(** [v in {"a", "b"}] for a value and strings. *)
Definition str_in (v : pyval) (l : list str) : bool :=
  match v with VStr s => bool_decide (s ∈ l) | _ => false end.
(** [v in (None, "")]. *)
Definition none_or_empty (v : pyval) : bool :=
  match v with VNone => true | VStr [] => true | _ => false end.
Definition is_str (v : pyval) : bool := match v with VStr _ => true | _ => false end.
Definition is_list (v : pyval) : bool := match v with VList _ => true | _ => false end.

Section Policy.
Context {RT : Runtime} {FF : FileFormats}.

Definition baseline_hashes (data_root : path) (t : gmap path node) : outcome (str * str) :=
  let readme := sub (processed_v2 data_root) "README.md" in
  let map_path := sub (processed_v2 data_root) "assets/v2_added_wikipedia_tag_documents.png" in
  if negb (is_file readme t) || negb (is_file map_path t)
  then Raise (run_error "Protected V2 README or comparison map is missing")
  else
    a ← sha256_file readme t;
    b ← sha256_file map_path t;
    mret (a, b).

Definition read_json_mapping (p : path) (t : gmap path node) : outcome pydict :=
  match read_json p t with
  | Ok (VDict raw) => mret raw
  | Ok _ => Raise (run_error "JSON artifact is not an object")
  | Raise e => if existsb (isinstance e) [COSError; CTypeError; CUnicodeError; CValueError]
               then Raise (exc_from CControllerRunError (msg "Invalid JSON artifact") e)
               else Raise e
  end.

Definition load_json_mapping (p : path) (t : gmap path node) : outcome (option pydict) :=
  if negb (is_file p t) then mret None else d ← read_json_mapping p t; mret (Some d).

Definition validate_ledger_baselines (ledger : pydict) : outcome unit :=
  _ ← raise_if (negb (is_str (dget_none (u "baseline_readme_sha256") ledger)))
        (run_error "Sentence ledger has no README baseline hash");
  _ ← raise_if (negb (is_str (dget_none (u "baseline_map_sha256") ledger)))
        (run_error "Sentence ledger has no comparison-map baseline hash");
  raise_if (negb (is_list (dget_none (u "batches") ledger)))
    (run_error "Sentence ledger batches must be a list").

Definition remote_batch_succeeded (state : str) (exit_code : option Z) (receipt : pydict) : bool :=
  bool_decide (state ∈ SUCCESS_STATES) &&
  match exit_code with None => true | Some c => c =? 0 end &&
  py_eqb (dget_none (u "status") receipt) (VStr (u "succeeded")).

(** * Receipts *)

Definition receipt_artifact (raw_artifact : pyval) : outcome FileDigest :=
  match raw_artifact with
  | VDict a =>
      match dget_none (u "relative_path") a, as_int (dget_none (u "size") a),
            dget_none (u "sha256") a with
      | VStr relative, Some size, VStr digest =>
          mret {| relative_path := relative; fd_size := size; fd_sha256 := digest |}
      | _, _, _ => Raise (run_error "Grid5000 receipt artifact has invalid fields")
      end
  | _ => Raise (run_error "Grid5000 receipt artifact must be an object")
  end.

(** One iteration of [receipt_artifacts]. *)
Definition add_artifact (artifacts : list (str * FileDigest)) (raw : pyval)
    : outcome (list (str * FileDigest)) :=
  artifact ← receipt_artifact raw;
  if dmem (relative_path artifact) artifacts
  then Raise (exc CControllerRunError
                [FStr (u "Grid5000 receipt has duplicate artifact: " ++ relative_path artifact)])
  else mret (dset (relative_path artifact) artifact artifacts).

Definition receipt_artifacts (receipt : pydict) : outcome (list (str * FileDigest)) :=
  match dget_none (u "artifacts") receipt with
  | VList raw => fold_outcome add_artifact [] raw
  | _ => Raise (run_error "Grid5000 receipt artifacts must be a list")
  end.

(** [normalized_receipt_value]: the stems become a tuple of strings. *)
Definition normalized_receipt_value (key : str) (actual : pyval) : pyval :=
  match actual with
  | VList l => if str_eqb key (u "stems") then VTuple ((VStr ∘ py_str) <$> l) else actual
  | _ => actual
  end.

Definition receipt_digest (artifacts : list (str * FileDigest)) (relative : str)
    : outcome FileDigest :=
  match dget relative artifacts with
  | Some d => mret d
  | None => Raise (exc CControllerRunError [FStr (u "Grid5000 receipt is missing artifact: " ++ relative)])
  end.

Definition verified_incoming_artifact (root : path) (artifacts : list (str * FileDigest))
    (relative : str) (t : gmap path node) : outcome path :=
  digest ← receipt_digest artifacts relative;
  let p := resolve (path_join root relative) in
  match relative_to p (resolve root) with
  | None => Raise (exc CControllerRunError [FStr (u "Grid5000 artifact escapes result root: " ++ relative)])
  | Some _ =>
      _ ← raise_if (negb (is_file p t))
            (exc CControllerRunError [FStr (u "Grid5000 artifact is missing from result: " ++ relative)]);
      size ← file_size p t;
      actual ← sha256_file p t;
      _ ← raise_if (negb (size =? fd_size digest) || negb (str_eqb actual (fd_sha256 digest)))
            (exc CControllerRunError [FStr (u "Grid5000 artifact hash mismatch: " ++ relative)]);
      mret p
  end.

(** * Staging *)

Definition copy_required (source target : path) : PyM FsState unit :=
  existing <- gets (fun s => is_file source (tree s));;
  if existing then mkdir (path_parent target);; copy_file source target
  else throw (run_error "Required staging file is missing").

(** * Batches *)

Definition batch_stems (batch : pydict) : outcome (list str) :=
  match dget_none (u "stems") batch with
  | VList raw =>
      if forallb is_str raw then mret (py_str <$> raw)
      else Raise (run_error "Sentence ledger batch stems are invalid")
  | _ => Raise (run_error "Sentence ledger batch stems are invalid")
  end.

Definition source_commit_job_is_safe (batch : pydict) (state : pyval) : bool :=
  if str_in state [u "planned"] then none_or_empty (dget_none (u "oar_job_id") batch)
  else if str_in state [u "failed"]
  then none_or_empty (dget_none (u "oar_job_id") batch) ||
       str_in (dget_none (u "error") batch) RETRYABLE_ARTIFACT_FAILURES
  else true.

Definition source_commit_batch_is_safe (batch : pyval) : bool :=
  match batch with
  | VDict b =>
      let state := dget_none (u "state") b in
      str_in state [u "planned"; u "failed"] && source_commit_job_is_safe b state &&
      none_or_empty (dget_none (u "hf_commit") b)
  | _ => false
  end.

Definition is_source_commit_migration_safe (ledger : pydict) : bool :=
  match dget_none (u "batches") ledger with
  | VList (b :: bs) => forallb source_commit_batch_is_safe (b :: bs)
  | _ => false
  end.

Definition source_projects (processed_v2 : path) (stem : str) (t : gmap path node)
    : outcome (list str) :=
  paths ← sentence_source_paths processed_v2 stem t;
  mret ((fun p : path => if bool_decide (u "wikivoyage" ∈ p) then u "wikivoyage" else u "wikipedia")
          <$> (paths : list path)).

Definition publication_message (batch : pydict) : outcome str :=
  stems ← batch_stems batch;
  match stems, last stems with
  | [stem], _ => mret (u "Add Grid5000 sentence split " ++ stem)
  | first :: _, Some final =>
      mret (u "Add Grid5000 sentence splits " ++ first ++ u " through " ++ final ++ u " (" ++
            str_of_Z (len stems) ++ u " regions)")
  | _, _ => Raise (exc IndexError (msg "list index out of range"))
  end.

(** * Job identifiers and states *)

(** Matches the letters of a lower-case ASCII word up to case, where [i] also matches the two
    Turkish letters that case-insensitive matching of Unicode text identifies with it. *)
Definition same_letter (l c : N) : bool :=
  (c =? l)%N || (c =? l - 32)%N || ((l =? 105)%N && ((c =? 304)%N || (c =? 305)%N)).
Fixpoint strip_letters (word s : str) : option str :=
  match word, s with
  | [], _ => Some s
  | l :: word, c :: s => if same_letter l c then strip_letters word s else None
  | _ :: _, [] => None
  end.

(** [(?:job\s+id|job_id)] at the head of a text: the rest. *)
Definition job_keyword (s : str) : option str :=
  rest ← strip_letters (u "job") s;
  let '(spaces, after) := span is_space rest in
  match spaces with
  | [] => after ← strip_prefix (u "_") rest; strip_letters (u "id") after
  | _ => strip_letters (u "id") after
  end.

(** [_JOB_ID_PATTERN] at the head of a text: group 1. *)
Definition job_id_here (s : str) : option str :=
  rest ← job_keyword s;
  match (span is_space rest).2 with
  | c :: after =>
      if one_of ":=" c then
        let '(digits, _) := span is_decimal (span is_space after).2 in
        if bool_decide (digits = []) then None else Some digits
      else None
  | [] => None
  end.

(** [_JOB_ID_PATTERN.search]: the leftmost match. *)
Fixpoint job_id_search (s : str) : option str :=
  match job_id_here s with
  | Some d => Some d
  | None => match s with _ :: r => job_id_search r | [] => None end
  end.

Definition parse_job_id (output : str) : outcome str :=
  match job_id_search output with
  | Some d => mret d
  | None => Raise (run_error "oarsub did not return a job ID")
  end.

(** [_JOB_STATUS_PATTERN.fullmatch]: [(\d+):[ \t]*([A-Za-z]+)]. *)
Definition job_status_match (s : str) : option (str * str) :=
  let '(digits, rest) := span is_decimal s in
  match rest with
  | 58%N :: after =>
      let state := (span (fun c => (c =? 32)%N || (c =? 9)%N) after).2 in
      if negb (bool_decide (digits = [])) && nonempty_run ascii_letter state
      then Some (digits, state) else None
  | _ => None
  end.

Definition infer_job_state (text : str) : str :=
  let state := ascii_lower (strip text) in
  if bool_decide (state ∈ OAR_STATES) then state else u "unknown".

Definition parse_job_status (result : CompletedProcess) (job_id : str) : str * option Z :=
  if negb (returncode result =? 0) then (u "unknown", None)
  else match job_status_match (stripped (stdout result)) with
       | Some (job, state) =>
           if str_eqb job job_id then (infer_job_state state, None) else (u "unknown", None)
       | None => (u "unknown", None)
       end.

Definition remote_job_root (remote_run_root : str) (index attempt : Z) : str :=
  remote_run_root ++ u "/jobs/batch-" ++ zero_pad 8 index ++ u "-attempt-" ++ zero_pad 2 attempt.

(** * Lemmas *)

(** A reported state is one of OAR's, and only the recorded job's line can end a batch. *)
Lemma parse_job_status_cases result job_id :
  parse_job_status result job_id = (u "unknown", None) \/
  exists state, job_status_match (stripped (stdout result)) = Some (job_id, state) /\
    returncode result = 0 /\ parse_job_status result job_id = (ascii_lower (strip state), None) /\
    ascii_lower (strip state) ∈ OAR_STATES.
Proof.
  unfold parse_job_status. destruct (returncode result =? 0) eqn:Er; simpl; [|by left].
  destruct (job_status_match _) as [[job state]|] eqn:Em; [|by left].
  destruct (str_eqb_spec job job_id) as [->|]; [|by left].
  unfold infer_job_state. case_bool_decide; [|by left].
  right. exists state. split_and!; [done|lia|done|done].
Qed.

(** An artifact that passed verification lies under the result root, with the digest and the
    size the receipt states. *)
Lemma verified_incoming_artifact_ok root artifacts relative t p :
  verified_incoming_artifact root artifacts relative t = Ok p ->
  exists digest rest c, dget relative artifacts = Some digest /\ p = resolve root ++ rest /\
    t !! p = Some (File c) /\ len (content_bytes c) = fd_size digest /\
    sha256_hexdigest (content_bytes c) = fd_sha256 digest.
Proof.
  unfold verified_incoming_artifact, receipt_digest, file_size, sha256_file, read_bytes. intros H.
  outcome_inv H. destruct (dget relative artifacts) as [d|] eqn:Ed; [|done]. apply mret_Ok in E as <-.
  destruct (relative_to _ _) as [rest|] eqn:Er; [|done]. apply relative_to_spec in Er.
  outcome_inv H. apply mret_Ok in H as <-. passed E.
  unfold is_file in E. destruct (t !! _) as [[c|]|] eqn:Et; try done. simpl in *.
  apply mret_Ok in E0 as <-. apply mret_Ok in E1 as <-.
  rewrite raise_if_Ok, orb_false_iff, !negb_false_iff in E2. destruct E2 as [E2 E3].
  exists d, rest, c. split_and!; [done|done|congruence|lia|].
  by destruct (str_eqb_spec (sha256_hexdigest (content_bytes c)) (fd_sha256 d)).
Qed.
End Policy.
