(* ===== verification/Controller.v ===== *)
(** The Grid5000 sentence controller: its durable ledger, the submission, reconciliation and
    retrieval of batches, the import of results, publication and the run itself
    ([grid5000/sentence_controller.py] and its [_ledger], [_batches], [_import] and [_lifecycle]
    mixins).  The transport, the publisher and the clock are an interface, [Site]. *)
From Stdlib Require Import QArith.
From S2P Require Import Prelude Py PyStr PyText Fs Artifacts Atomic Protocol Transport ControllerPolicy.

(** [Grid5000Transport], [HubPublisher], the clock and [sleep].  Uploading, publishing and
    verifying read the local tree; a download returns the files it wrote, relative to its
    target. *)
Class Site (W : Type) := {
  site_frontend : list str -> PyM W CompletedProcess;
  site_upload : gmap path node -> path -> str -> PyM W unit;
  site_download : str -> PyM W (list (path * node));
  site_remove : str -> PyM W unit;
  hub_publish : gmap path node -> path -> list str -> str -> PyM W str;
  hub_verify : gmap path node -> path -> list str -> PyM W unit;
  site_timestamp : PyM W str;
  site_new_run_id : PyM W str;
  site_sleep : Q -> PyM W unit }.

(** What the controller does to the outside, recorded with the ledger on disk at that moment;
    [EVerified] records that the verification returned. *)
Inductive event :=
  | EFrontend (args : list str)
  | EUpload (remote : str)
  | EDownload (remote : str)
  | ERemove (remote : str)
  | EPublish (stems : list str)
  | EVerify (stems : list str)
  | EVerified (stems : list str).

(** The attributes fixed by [__init__]. *)
Record Config := {
  data_root : path; site : str; queue : str; gpu_model : str; repo_id : str; repo_root : path;
  source_commit : str; limits : ControllerLimits; poll_interval_s : Q }.

(** The attributes that change, the file system, the outside world and the record of events.
    Batches live in the ledger: the current one is an index into its list. *)
Record Controller (W : Type) := mkController {
  c_fs : FsState;
  c_world : W;
  c_run_id : option str;
  c_ledger : option pydict;
  c_current : option nat;
  c_events : list (event * option node) }.
Arguments mkController {W} _ _ _ _ _ _.
Arguments c_fs {W} _.
Arguments c_world {W} _.
Arguments c_run_id {W} _.
Arguments c_ledger {W} _.
Arguments c_current {W} _.
Arguments c_events {W} _.

(** * Construction *)

(** [_QUEUE_PATTERN] and [_GPU_MODEL_PATTERN]. *)
Definition alphanumeric (c : N) : bool := ascii_letter c || ascii_digit c.
Definition queue_match (s : str) : bool :=
  match s with
  | c :: r => alphanumeric c && forallb (fun c => alphanumeric c || one_of "_-" c) r
  | [] => false
  end.
Definition gpu_model_match (s : str) : bool :=
  match s with
  | c :: r => alphanumeric c && forallb (fun c => alphanumeric c || one_of " ._-" c) r
  | [] => false
  end.

Definition init (data_root : path) (site queue gpu_model repo_id : str) (repo_root : path)
    (source_commit : str) (limits : ControllerLimits) (poll_interval_s : Q) : outcome Config :=
  _ ← raise_if (negb (queue_match queue)) (exc CControllerRunError [FStr (u "Unsafe Grid5000 queue: "); FRepr (VStr queue)]);
  _ ← raise_if (negb (gpu_model_match gpu_model))
        (exc CControllerRunError [FStr (u "Unsafe Grid5000 GPU model: "); FRepr (VStr gpu_model)]);
  mret {| data_root := data_root; site := site; queue := queue; gpu_model := gpu_model;
          repo_id := repo_id; repo_root := repo_root; source_commit := source_commit;
          limits := limits; poll_interval_s := poll_interval_s |}.

Definition SENTENCE_MANIFEST_RELATIVE_PATH : string := "manifests/sentence_splitting.json".
Definition SAT_MODEL_ID : str := u "segment-any-text/sat-3l-sm".
Definition DEFAULT_SAT_MODEL_REVISION : str := u "137da05".

(** [d[key]]. *)
Definition getitem (key : str) (d : pydict) : outcome pyval :=
  match dget key d with
  | Some v => Ok v
  | None => Raise (exc CKeyError [FRepr (VStr key)])
  end.

(** The exception class of a poll loop that the fuel cut: the controller is still waiting. *)
Definition StillPolling : exn_class := CUser (u "StillPolling") CBaseException.

Section Controller.
Context {RT : Runtime} {FF : FileFormats} {W : Type} `{!Site W}.
Variable cfg : Config.
(** [tempfile] chooses the middle part of a file's name and the name of a directory. *)
Variable temporary_middle : gmap path node -> path -> str.
Variable temporary_directory : gmap path node -> path -> str -> path.
Abbreviation M := (PyM (Controller W)).

Definition ledger_path : path := sub (cache (data_root cfg)) "grid5000_sentence_run.json".

(** * The controller's monad *)

Definition with_fs (fs : FsState) (s : Controller W) : Controller W :=
  mkController fs (c_world s) (c_run_id s) (c_ledger s) (c_current s) (c_events s).
Definition with_world (w : W) (s : Controller W) : Controller W :=
  mkController (c_fs s) w (c_run_id s) (c_ledger s) (c_current s) (c_events s).
Definition with_run_id (r : str) (s : Controller W) : Controller W :=
  mkController (c_fs s) (c_world s) (Some r) (c_ledger s) (c_current s) (c_events s).
Definition with_ledger (l : pydict) (s : Controller W) : Controller W :=
  mkController (c_fs s) (c_world s) (c_run_id s) (Some l) (c_current s) (c_events s).
Definition with_current (i : nat) (s : Controller W) : Controller W :=
  mkController (c_fs s) (c_world s) (c_run_id s) (c_ledger s) (Some i) (c_events s).

Definition log (e : event) : M unit := modify (fun s =>
  mkController (c_fs s) (c_world s) (c_run_id s) (c_ledger s) (c_current s)
    (c_events s ++ [(e, tree (c_fs s) !! ledger_path)])).

Definition on_fs {A} (m : PyM FsState A) : M A := fun s =>
  let '(o, fs) := m (c_fs s) in (o, with_fs fs s).
Definition on_world {A} (m : gmap path node -> PyM W A) : M A := fun s =>
  let '(o, w) := m (tree (c_fs s)) (c_world s) in (o, with_world w s).
Definition read_tree {A} (f : gmap path node -> outcome A) : M A := on_fs (reads f).

Definition timestamp : M str := on_world (fun _ => site_timestamp).

(** * The ledger and its batches *)

Definition get_ledger (message : string) : M pydict := fun s =>
  match c_ledger s with Some l => (Ok l, s) | None => (Raise (run_error message), s) end.

Definition set_ledger_field (key : str) (v : pyval) : M unit :=
  l <- get_ledger "Run ledger is not loaded";;
  modify (with_ledger (dset key v l)).

Definition batches_of (l : pydict) : list pyval :=
  match dget_none (u "batches") l with VList bs => bs | _ => [] end.

Definition get_batch (i : nat) : M pydict :=
  l <- get_ledger "Run ledger is not loaded";;
  match batches_of l !! i with
  | Some (VDict b) => ret b
  | _ => throw (exc CTypeError (msg "batch is not a mapping"))
  end.

(** [batch[key] = v]: the batch is shared with the ledger. *)
Definition set_batch (i : nat) (key : str) (v : pyval) : M unit :=
  l <- get_ledger "Run ledger is not loaded";;
  b <- get_batch i;;
  modify (with_ledger (dset (u "batches") (VList (<[i := VDict (dset key v b)]> (batches_of l))) l)).

(** [_write_ledger] without a new ledger. *)
Definition write_ledger : M unit :=
  l <- get_ledger "Cannot write an uninitialized sentence ledger";;
  now <- timestamp;;
  modify (with_ledger (dset (u "updated_at") (VStr now) l));;
  on_fs (atomic_write_json temporary_middle ledger_path
           (VDict (dset (u "updated_at") (VStr now) l))).

(** [_write_ledger(ledger)]. *)
Definition write_new_ledger (l : pydict) : M unit := modify (with_ledger l);; write_ledger.

Definition remote_run_root : M str := fun s =>
  match c_run_id s with
  | Some r => (Ok (REMOTE_NAMESPACE ++ u "/" ++ r), s)
  | None => (Raise (run_error "Controller run has not been initialized"), s)
  end.

Definition immutable_ledger_fields : pydict :=
  [(u "contract_version", VStr GRID5000_SENTENCE_CONTRACT_VERSION);
   (u "repo_id", VStr (repo_id cfg)); (u "source_commit", VStr (source_commit cfg));
   (u "model_id", VStr SAT_MODEL_ID); (u "model_revision", VStr DEFAULT_SAT_MODEL_REVISION);
   (u "segmenter_version", VStr SEGMENTER_VERSION); (u "site", VStr (site cfg));
   (u "queue", VStr (queue cfg)); (u "gpu_model", VStr (gpu_model cfg));
   (u "limits", VDict (limits_payload (limits cfg)))].

Definition validate_immutable_field (ledger : pydict) (kv : str * pyval) : outcome unit :=
  raise_if (negb (py_eqb (dget_none kv.1 ledger) kv.2))
    (exc CControllerRunError [FStr (u "Sentence ledger immutable field changed: " ++ kv.1)]).

Definition validate_immutable_ledger (ledger : pydict) : outcome unit :=
  _ ← fold_outcome (fun _ kv => validate_immutable_field ledger kv) tt immutable_ledger_fields;
  validate_ledger_baselines ledger.

Definition migration_record (stored now : str) : pyval :=
  VDict [(u "from", VStr stored); (u "to", VStr (source_commit cfg)); (u "at", VStr now);
         (u "reason", VStr (u "resumable_unpublished_run"))].

(** [_refresh_resumable_source_commit]: returns the ledger it may have changed. *)
Definition refresh_resumable_source_commit (ledger : pydict) : M pydict :=
  match dget_none (u "source_commit") ledger with
  | VStr stored =>
      if str_eqb stored (source_commit cfg) || negb (is_source_commit_migration_safe ledger)
      then ret ledger
      else match default (VList []) (dget (u "source_commit_updates") ledger) with
           | VList updates =>
               now <- timestamp;;
               let ledger :=
                 dset (u "source_commit_updates") (VList (updates ++ [migration_record stored now]))
                   (dset (u "source_commit") (VStr (source_commit cfg)) ledger) in
               write_new_ledger ledger;;
               get_ledger "Run ledger is not loaded"
           | _ => throw (run_error "Sentence ledger source_commit_updates must be a list")
           end
  | _ => ret ledger
  end.

(** [_load_existing_ledger]. *)
Definition load_existing_ledger : M pydict :=
  ledger <- read_tree (read_json_mapping ledger_path);;
  match dget_none (u "run_id") ledger with
  | VStr stored =>
      requested <- gets c_run_id;;
      if match requested with Some r => negb (str_eqb r stored) | None => false end
      then throw (run_error "Requested run_id does not match the existing ledger")
      else
        modify (with_run_id stored);;
        ledger <- refresh_resumable_source_commit ledger;;
        lift (validate_immutable_ledger ledger);;
        ret ledger
  | _ => throw (run_error "Sentence ledger has no valid run_id")
  end.

Definition new_batch_record (b : SentenceBatch) : pyval :=
  VDict [(u "index", VInt (sb_index b)); (u "stems", VList (VStr <$> sb_stems b));
         (u "input_bytes", VInt (sb_input_bytes b)); (u "state", VStr (u "planned"));
         (u "attempt", VInt 0); (u "oar_job_id", VNone); (u "remote_job_root", VNone);
         (u "hf_commit", VNone); (u "error", VNone)].

Definition sentence_manifest_path : path :=
  sub (processed_v2 (data_root cfg)) SENTENCE_MANIFEST_RELATIVE_PATH.

(** The part of [_new_ledger] that reads the local tree. *)
Definition plan_and_baselines (t : gmap path node) : outcome (list SentenceBatch * (str * str)) :=
  sentence_manifest ← load_json_mapping sentence_manifest_path t;
  batches ← plan_sentence_batches (processed_v2 (data_root cfg)) sentence_manifest
              (max_stems (limits cfg)) (max_input_bytes (limits cfg)) t;
  hashes ← baseline_hashes (data_root cfg) t;
  mret (batches, hashes).

Definition new_ledger (run_id : str) : M pydict :=
  plan <- read_tree plan_and_baselines;;
  created <- timestamp;;
  updated <- timestamp;;
  ret [(u "contract_version", VStr GRID5000_SENTENCE_CONTRACT_VERSION);
       (u "run_id", VStr run_id); (u "repo_id", VStr (repo_id cfg));
       (u "source_commit", VStr (source_commit cfg)); (u "model_id", VStr SAT_MODEL_ID);
       (u "model_revision", VStr DEFAULT_SAT_MODEL_REVISION);
       (u "segmenter_version", VStr SEGMENTER_VERSION); (u "site", VStr (site cfg));
       (u "queue", VStr (queue cfg)); (u "gpu_model", VStr (gpu_model cfg));
       (u "baseline_readme_sha256", VStr plan.2.1); (u "baseline_map_sha256", VStr plan.2.2);
       (u "limits", VDict (limits_payload (limits cfg))); (u "created_at", VStr created);
       (u "updated_at", VStr updated); (u "cleanup_state", VStr (u "pending"));
       (u "batches", VList (new_batch_record <$> plan.1))].

Definition create_ledger : M pydict :=
  requested <- gets c_run_id;;
  run_id <- match requested with Some r => ret r | None => on_world (fun _ => site_new_run_id) end;;
  modify (with_run_id run_id);;
  if negb (is_safe_run_id (VStr run_id))
  then throw (exc CControllerRunError [FStr (u "Unsafe Grid5000 run_id: "); FRepr (VStr run_id)])
  else
    ledger <- new_ledger run_id;;
    write_new_ledger ledger;;
    get_ledger "Run ledger is not loaded".

(** [initialize]. *)
Definition initialize : M pydict :=
  cached <- gets c_ledger;;
  match cached with
  | Some l => ret l
  | None =>
      existing <- gets (fun s => is_file ledger_path (tree (c_fs s)));;
      ledger <- (if existing : bool then load_existing_ledger else create_ledger);;
      modify (with_ledger ledger);;
      ret ledger
  end.

(** * Commands on the frontend *)

(** [_run_frontend]. *)
Definition run_frontend (args : list str) (allow_failure : bool) : M CompletedProcess :=
  log (EFrontend args);;
  result <- on_world (fun _ => site_frontend args);;
  if negb (returncode result =? 0) && negb allow_failure
  then
    let detail := stripped (stderr result) in
    throw (exc CControllerRunError
      [FStr (u "Grid5000 frontend command failed: " ++ default [] (head args) ++ u ": " ++
             (if bool_decide (detail = []) then u "frontend command failed" else detail))])
  else ret result.

Definition policy_check : M unit := run_frontend [u "usagepolicycheck"; u "-t"] false;; ret tt.

Definition remove_remote (remote : str) : M unit :=
  log (ERemove remote);; on_world (fun _ => site_remove remote).

(** [with tempfile.TemporaryDirectory(prefix=prefix, dir=self.data_root.cache) as d: body]. *)
Definition with_temporary_directory {A} (prefix : str) (body : path -> M A) : M A :=
  d <- on_fs (mkdtemp (fun t => temporary_directory t (cache (data_root cfg)) prefix));;
  finally (body d) (on_fs (cleanup_directory d)).

(** * Cleaning up a remote job *)

Definition cleanup_remote_job (i : nat) : M unit :=
  b <- get_batch i;;
  root <- remote_run_root;;
  match dget_none (u "remote_job_root") b with
  | VStr remote =>
      if negb (startswith (root ++ u "/jobs/") remote)
      then throw (run_error "Refusing cleanup outside the current Grid5000 run namespace")
      else if py_truthy (dget_none (u "remote_cleaned") b) then ret tt
      else
        remove_remote remote;;
        set_batch i (u "remote_cleaned") (VBool true);;
        write_ledger
  | _ => throw (run_error "Refusing cleanup outside the current Grid5000 run namespace")
  end.

(** * Publication *)

Definition assert_baseline : M unit :=
  hashes <- read_tree (baseline_hashes (data_root cfg));;
  l <- get_ledger "Run ledger is not loaded";;
  readme <- lift (getitem (u "baseline_readme_sha256") l);;
  if negb (py_eqb (VStr hashes.1) readme) then throw (exc CValueError (msg "README baseline hash changed"))
  else
    map_hash <- lift (getitem (u "baseline_map_sha256") l);;
    if negb (py_eqb (VStr hashes.2) map_hash)
    then throw (exc CValueError (msg "comparison-map baseline hash changed")) else ret tt.

(** [except Exception as error: handler]. *)
Definition except_exception {A} (m : M A) (handler : exn -> M A) : M A :=
  try_except m (fun e => if isinstance e CException then Some (handler e) else None).

(** Publishing and verifying one batch: the [try] block of [_publish_batch]. *)
Definition publish_and_verify (i : nat) (message : str) : M str :=
  b <- get_batch i;;
  stems <- lift (batch_stems b);;
  log (EPublish stems);;
  commit <- on_world (fun t => hub_publish t (processed_v2 (data_root cfg)) stems message);;
  b <- get_batch i;;
  stems <- lift (batch_stems b);;
  log (EVerify stems);;
  on_world (fun t => hub_verify t (processed_v2 (data_root cfg)) stems);;
  log (EVerified stems);;
  ret commit.

Definition publish_batch (i : nat) : M unit :=
  except_exception assert_baseline (fun e =>
    set_batch i (u "error") (VStr (class_name (exn_cls e)));;
    write_ledger;;
    throw (exc_from CControllerRunError (msg "Protected publication baseline changed") e));;
  b <- get_batch i;;
  message <- lift (publication_message b);;
  commit <- except_exception (publish_and_verify i message) (fun e =>
    set_batch i (u "state") (VStr (u "ready_to_publish"));;
    set_batch i (u "error") (VStr (u "publisher_failure"));;
    write_ledger;;
    throw e);;
  set_batch i (u "state") (VStr (u "published"));;
  set_batch i (u "hf_commit") (VStr commit);;
  now <- timestamp;;
  set_batch i (u "published_at") (VStr now);;
  set_batch i (u "error") VNone;;
  write_ledger;;
  cleanup_remote_job i.

(** * Importing results *)

Definition sentence_checkpoints (v2_cache : path) (stem project : str) : path :=
  sub v2_cache "sentence-checkpoints" ++ [stem; project].

Definition checkpoint_identity (stem project fingerprint : str) : pydict :=
  [(u "contract_version", VStr (u "v2-sentence-checkpoints-v1")); (u "stem", VStr stem);
   (u "project", VStr project); (u "input_fingerprint", VStr fingerprint);
   (u "model_id", VStr SAT_MODEL_ID); (u "model_revision", VStr DEFAULT_SAT_MODEL_REVISION);
   (u "batch_size", VInt (batch_size (limits cfg)))].

(** The fingerprint of the source of a project. *)
Definition source_fingerprint (stem project : str) (t : gmap path node) : outcome str :=
  source ← sentence_source_paths (processed_v2 (data_root cfg)) stem t;
  match find (fun p : path => bool_decide (project ∈ p)) source with
  | Some p => sha256_file p t
  | None => Raise (exc (CUser (u "StopIteration") CException) [])
  end.

Definition import_checkpoint (received_data : path) (stem project : str) : PyM FsState unit :=
  let incoming := sentence_checkpoints (v2_cache received_data) stem project in
  existing <- gets (fun s => is_dir incoming (tree s));;
  if negb existing then ret tt
  else
    fingerprint <- reads (source_fingerprint stem project);;
    import_checkpoint_tree temporary_middle incoming
      (sentence_checkpoints (v2_cache (data_root cfg)) stem project)
      (checkpoint_identity stem project fingerprint);;
    ret tt.

Definition import_checkpoints (b : pydict) (received_data : path) : PyM FsState unit :=
  stems <- lift (batch_stems b);;
  for_each (fun stem =>
    projects <- reads (source_projects (processed_v2 (data_root cfg)) stem);;
    for_each (import_checkpoint received_data stem) projects) stems.

(** The files of one stem that [_import_success] copies. *)
Definition output_of (received_data : path) (artifacts : list (str * FileDigest)) (stem : str)
    (t : gmap path node) (files : list (path * path)) (project : str) : outcome (list (path * path)) :=
  let file := u "sentences/" ++ stem ++ u ".parquet" in
  let relative := u "processed_v2/" ++ project ++ u "/" ++ file in
  incoming ← verified_incoming_artifact received_data artifacts relative t;
  digest ← receipt_digest artifacts relative;
  _ ← validate_sentence_output incoming (fd_sha256 digest) t;
  mret (files ++ [(incoming, path_join (processed_v2 (data_root cfg)) (project ++ u "/" ++ file))]).

Definition outputs_of (received_data : path) (artifacts : list (str * FileDigest))
    (t : gmap path node) (files : list (path * path)) (stem : str) : outcome (list (path * path)) :=
  projects ← source_projects (processed_v2 (data_root cfg)) stem t;
  fold_outcome (output_of received_data artifacts stem t) files projects.

(** The verification part of [_import_success]: the files to copy. *)
Definition verified_files (b : pydict) (received_data : path) (receipt : pydict)
    (t : gmap path node) : outcome (list (path * path)) :=
  artifacts ← receipt_artifacts receipt;
  manifest_path ← verified_incoming_artifact received_data artifacts
    (u "processed_v2/" ++ u SENTENCE_MANIFEST_RELATIVE_PATH) t;
  incoming_payload ← read_json_mapping manifest_path t;
  local ← load_json_mapping sentence_manifest_path t;
  stems ← batch_stems b;
  _ ← validate_manifest_extension (default (dset (u "regions") (VList []) incoming_payload) local)
        incoming_payload stems;
  fold_outcome (outputs_of received_data artifacts t) [(manifest_path, sentence_manifest_path)] stems.

Definition import_success (b : pydict) (received_data : path) (receipt : pydict) : PyM FsState unit :=
  files <- reads (verified_files b received_data receipt);;
  for_each (fun st => atomic_copy_file temporary_middle st.1 st.2) files;;
  import_checkpoints b received_data.

(** The expected receipt fields, in order. *)
Definition expected_receipt (b : pydict) : outcome pydict :=
  job_id ← getitem (u "oar_job_id") b;
  stems ← batch_stems b;
  mret [(u "job_id", VStr (py_str job_id)); (u "source_commit", VStr (source_commit cfg));
        (u "model_id", VStr SAT_MODEL_ID); (u "model_revision", VStr DEFAULT_SAT_MODEL_REVISION);
        (u "stems", VTuple (VStr <$> stems))].

Definition validate_receipt (b receipt : pydict) : outcome unit :=
  expected ← expected_receipt b;
  fold_outcome (fun _ kv =>
    raise_if (negb (py_eqb (normalized_receipt_value kv.1 (dget_none kv.1 receipt)) kv.2))
      (exc CControllerRunError [FStr (u "Grid5000 receipt mismatch: " ++ kv.1)])) tt expected.

(** [_read_valid_receipt]. *)
Definition read_valid_receipt (i : nat) (received received_data : path) : M pydict :=
  let receipt_path := child received (u "receipt.json") in
  try_except
    (receipt <- read_tree (read_json_mapping receipt_path);;
     b <- get_batch i;;
     lift (validate_receipt b receipt);;
     ret receipt)
    (fun e =>
       if isinstance e CControllerRunError then Some (
         b <- get_batch i;;
         on_fs (import_checkpoints b received_data);;
         set_batch i (u "state") (VStr (u "failed"));;
         present <- gets (fun s => is_file receipt_path (tree (c_fs s)));;
         set_batch i (u "error") (VStr (if present : bool then u "invalid_receipt" else u "missing_receipt"));;
         write_ledger;;
         cleanup_remote_job i;;
         throw (exc_from CControllerRunError (msg "Grid5000 batch produced an invalid receipt; retryable") e))
       else None).

Definition mark_batch_failed (i : nat) (received_data : path) (receipt : pydict) : M unit :=
  b <- get_batch i;;
  on_fs (import_checkpoints b received_data);;
  set_batch i (u "state") (VStr (u "failed"));;
  let error_type := dget_none (u "error_type") receipt in
  set_batch i (u "error")
    (VStr (if py_truthy error_type then py_str error_type else u "remote_job_failed"));;
  write_ledger.

(** * Staging and submission *)

Definition repo (rel : string) : path := sub (repo_root cfg) rel.

(** [_stage_checkpoint_trees]. *)
Definition stage_checkpoint_trees (staged_data : path) (stem : str) : PyM FsState unit :=
  projects <- reads (source_projects (processed_v2 (data_root cfg)) stem);;
  for_each (fun project =>
    let source := sentence_checkpoints (v2_cache (data_root cfg)) stem project in
    existing <- gets (fun s => is_dir source (tree s));;
    if existing : bool
    then copytree source (sub staged_data "cache/v2/sentence-checkpoints" ++ [stem; project])
    else ret tt) projects.

Definition stage_source (data_v2 source : path) : PyM FsState unit :=
  match relative_to source (processed_v2 (data_root cfg)) with
  | Some relative => copy_required source (data_v2 ++ relative)
  | None => throw (exc CValueError (msg "source is not in the processed directory"))
  end.

Definition stage_stem (data data_v2 : path) (stem : str) : PyM FsState unit :=
  sources <- reads (sentence_source_paths (processed_v2 (data_root cfg)) stem);;
  for_each (stage_source data_v2) sources;;
  stage_checkpoint_trees data stem.

Definition stage_batch (staging : path) (b : pydict) : PyM FsState unit :=
  let code := sub staging "code" in
  let data := sub staging "result/data" in
  let data_v2 := sub data "processed_v2" in
  mkdir code;;
  for_each (fun name => copy_required (repo name) (sub code name))
    ["pyproject.toml"; "uv.lock"; "README.md"; "LICENSE"; "assets/dataset_hero.png";
     "assets/dataset_hero_v2.png"];;
  copytree (repo "src") (sub code "src");;
  mkdir (sub code "scripts");;
  copy_required (repo "scripts/grid5000_sentence_job.py") (sub code "scripts/grid5000_sentence_job.py");;
  mkdir data_v2;;
  copy_required (sub (processed_v2 (data_root cfg)) "manifests/processed_pbfs.json")
    (sub data_v2 "manifests/processed_pbfs.json");;
  present <- gets (fun s => is_file sentence_manifest_path (tree s));;
  (if present : bool
   then copy_required sentence_manifest_path (sub data_v2 SENTENCE_MANIFEST_RELATIVE_PATH)
   else ret tt);;
  stems <- lift (batch_stems b);;
  for_each (stage_stem data data_v2) stems.

(** A part of a shell command in double quotes. *)
Definition dq (s : str) : str := [34%N] ++ s ++ [34%N].

(** [_remote_job_command]. *)
Definition remote_job_command (root : str) (b : pydict) : outcome str :=
  remote ← getitem (u "remote_job_root") b;
  names ← batch_stems b;
  let remote_job_root := py_str remote in
  let remote_data := remote_job_root ++ u "/result/data" in
  let receipt := remote_job_root ++ u "/result/receipt.json" in
  let model_cache := root ++ u "/model-cache" in
  let uv_cache := root ++ u "/uv-cache" in
  let uv_bootstrap := root ++ u "/uv-bootstrap" in
  let uv_bin := uv_bootstrap ++ u "/bin/uv" in
  let uv_python := uv_bootstrap ++ u "/bin/python" in
  let venv_lib := remote_job_root ++ u "/code/.venv/lib" in
  let stems := join (u " ") (shlex_quote <$> names) in
  let scrub := hf_credential_unset_prefix in
  mret (
    u "cd " ++ dq (remote_job_root ++ u "/code") ++ u " && " ++
    u "if [ ! -x " ++ dq uv_bin ++ u " ]; then " ++
    scrub ++ u " python3 -m venv " ++ dq uv_bootstrap ++ u " && " ++
    scrub ++ u " " ++ dq uv_python ++ u " -m pip install " ++
    u "--disable-pip-version-check --no-input " ++ dq (u "uv==" ++ GRID5000_UV_VERSION) ++ u "; " ++
    u "fi && " ++
    scrub ++ u " UV_CACHE_DIR=" ++ dq uv_cache ++ u " " ++
    dq uv_bin ++ u " sync --frozen --extra sentence-splitting-gpu --no-dev && " ++
    u "nvidia_libs=" ++ dq (u "$(find " ++ dq venv_lib ++ u " -path " ++
      dq (u "*/site-packages/nvidia/*/lib") ++ u " " ++ u "-type d -print | paste -sd: -)") ++ u " && " ++
    u "if [ -z " ++ dq (u "$nvidia_libs") ++ u " ]; then echo " ++
    dq (u "CUDA libraries were not installed") ++ u " >&2; exit 1; fi && " ++
    scrub ++ u " UV_CACHE_DIR=" ++ dq uv_cache ++ u " " ++
    u "LD_LIBRARY_PATH=" ++ dq (u "$nvidia_libs${LD_LIBRARY_PATH:+:$LD_LIBRARY_PATH}") ++ u " " ++
    dq uv_bin ++ u " run --no-sync python scripts/grid5000_sentence_job.py " ++
    u "--data-root " ++ dq remote_data ++ u " --model-cache " ++ dq model_cache ++ u " " ++
    u "--source-commit " ++ shlex_quote (source_commit cfg) ++ u " " ++
    u "--job-id " ++ dq (u "$OAR_JOB_ID") ++ u " " ++
    u "--batch-size " ++ str_of_Z (batch_size (limits cfg)) ++ u " " ++
    u "--inference-batch-size " ++ str_of_Z (inference_batch_size (limits cfg)) ++ u " " ++
    u "--receipt " ++ dq receipt ++ u " --stems " ++ stems).

Definition ensure_remote_namespace : M unit :=
  root <- remote_run_root;;
  run_frontend [u "mkdir"; u "-p"; root ++ u "/model-cache"; root ++ u "/uv-cache"; root ++ u "/jobs"]
    false;;
  ret tt.

(** The arguments of [oarsub]. *)
Definition submit_command (command : str) : list str :=
  [u "oarsub"; u "-q"; queue cfg] ++
  (if bool_decide (gpu_model cfg ∈ EXOTIC_GRID5000_GPU_MODELS) then [u "-t"; u "exotic"] else []) ++
  [u "-p"; u "gpu_model='" ++ gpu_model cfg ++ u "'"; u "-l";
   u "host=1/gpu=1,walltime=" ++ walltime (limits cfg); command].

(** The record of a submission, on disk before anything is sent: the head of [_submit_batch]. *)
Definition record_submission (i : nat) : M unit :=
  b <- get_batch i;;
  attempt <- lift (py_int (default (VInt 0) (dget (u "attempt") b)));;
  set_batch i (u "attempt") (VInt (attempt + 1));;
  set_batch i (u "state") (VStr (u "submitted"));;
  set_batch i (u "oar_job_id") VNone;;
  root <- remote_run_root;;
  index <- lift (v ← getitem (u "index") b; py_int v);;
  set_batch i (u "remote_job_root") (VStr (remote_job_root root index (attempt + 1)));;
  set_batch i (u "remote_cleaned") (VBool false);;
  set_batch i (u "error") VNone;;
  write_ledger.

(** Staging and uploading inside the temporary directory. *)
Definition stage_and_upload (i : nat) (staging : path) : M unit :=
  b <- get_batch i;;
  on_fs (stage_batch staging b);;
  remote <- lift (getitem (u "remote_job_root") b);;
  log (EUpload (py_str remote));;
  on_world (fun t => site_upload t staging (py_str remote)).

(** The [try] block of [_submit_batch]. *)
Definition send_submission (i : nat) : M unit :=
  ensure_remote_namespace;;
  b <- get_batch i;;
  index <- lift (getitem (u "index") b);;
  with_temporary_directory (u "grid5000-batch-" ++ py_str index ++ u "-") (stage_and_upload i);;
  policy_check;;
  root <- remote_run_root;;
  b <- get_batch i;;
  command <- lift (remote_job_command root b);;
  submitted <- run_frontend (submit_command command) false;;
  job_id <- lift (parse_job_id (default [] (stdout submitted)));;
  set_batch i (u "oar_job_id") (VStr job_id);;
  set_batch i (u "state") (VStr (u "running"));;
  write_ledger;;
  policy_check.

Definition record_submission_failure (i : nat) (e : exn) : M unit :=
  if isinstance e CControllerCommandTimeoutError then ret tt
  else
    set_batch i (u "state") (VStr (u "failed"));;
    set_batch i (u "error") (VStr (class_name (exn_cls e)));;
    write_ledger.

Definition submit_batch (i : nat) : M unit :=
  record_submission i;;
  except_exception (send_submission i) (fun e =>
    record_submission_failure i e;;
    throw (exc_from CControllerRunError (msg "Grid5000 batch submission failed") e)).

(** * Reconciliation *)

Definition query_job_status (job_id : str) : M (str * option Z) :=
  try_except
    (result <- run_frontend [u "oarstat"; u "-s"; u "-j"; job_id] true;;
     ret (parse_job_status result job_id))
    (fun e => if existsb (isinstance e) [COSError; CSubprocessError; CControllerCommandTimeoutError]
              then Some (ret (u "unknown", None)) else None).

(** [_retrieve_batch]: the body of the [with] tells whether the batch is ready to publish. *)
Definition receive_results (i : nat) (state : str) (exit_code : option Z) (received : path)
    : M bool :=
  b <- get_batch i;;
  remote <- lift (getitem (u "remote_job_root") b);;
  log (EDownload (py_str remote ++ u "/result"));;
  files <- on_world (fun _ => site_download (py_str remote ++ u "/result"));;
  on_fs (receive received files);;
  let received_data := child received (u "data") in
  receipt <- read_valid_receipt i received received_data;;
  if remote_batch_succeeded state exit_code receipt
  then
    b <- get_batch i;;
    on_fs (import_success b received_data receipt);;
    set_batch i (u "state") (VStr (u "ready_to_publish"));;
    write_ledger;;
    ret true
  else
    mark_batch_failed i received_data receipt;;
    ret false.

Definition retrieve_batch (i : nat) (state : str) (exit_code : option Z) : M unit :=
  b <- get_batch i;;
  index <- lift (getitem (u "index") b);;
  ready <- with_temporary_directory (u "grid5000-receive-" ++ py_str index ++ u "-")
             (receive_results i state exit_code);;
  if ready : bool then ret tt
  else
    cleanup_remote_job i;;
    throw (run_error "Grid5000 batch failed and is retryable").

(** The polling loop of [_reconcile_batch]; [fuel] bounds the number of polls. *)
Fixpoint poll (fuel : nat) (i : nat) (job_id : str) : M unit :=
  match fuel with
  | O => throw (exc StillPolling [])
  | S fuel =>
      status <- query_job_status job_id;;
      if bool_decide (status.1 ∈ TERMINAL_STATES)
      then retrieve_batch i status.1 status.2
      else
        on_world (fun _ => site_sleep (poll_interval_s cfg));;
        poll fuel i job_id
  end.

Definition reconcile_batch (fuel : nat) (i : nat) : M unit :=
  b <- get_batch i;;
  match dget_none (u "oar_job_id") b with
  | VStr (c :: r) => poll fuel i (c :: r)
  | _ =>
      lift (getitem (u "index") b);;
      lift (getitem (u "state") b);;
      throw (run_error "Batch has no recorded OAR job ID; refusing duplicate submission")
  end.

(** * The run *)

Definition publish_if_ready (i : nat) : M unit :=
  b <- get_batch i;;
  state <- lift (getitem (u "state") b);;
  if py_eqb state (VStr (u "ready_to_publish")) then publish_batch i else ret tt.

Definition process_batch (fuel : nat) (i : nat) : M unit :=
  b <- get_batch i;;
  raw <- lift (getitem (u "state") b);;
  let state := py_str raw in
  if str_eqb state (u "published") then ret tt
  else if str_eqb state (u "ready_to_publish") then publish_batch i
  else if bool_decide (state ∈ ACTIVE_STATES) then reconcile_batch fuel i;; publish_if_ready i
  else if bool_decide (state ∈ [u "planned"; u "failed"])
  then submit_batch i;; reconcile_batch fuel i;; publish_if_ready i
  else lift (getitem (u "index") b);; throw (run_error "Batch is in an unsupported state").

Definition finalize_run : M unit :=
  l <- get_ledger "Run ledger is not loaded";;
  if py_eqb (dget_none (u "cleanup_state") l) (VStr (u "complete")) then ret tt
  else
    policy_check;;
    set_ledger_field (u "cleanup_state") (VStr (u "pending"));;
    write_ledger;;
    root <- remote_run_root;;
    remove_remote root;;
    set_ledger_field (u "cleanup_state") (VStr (u "complete"));;
    write_ledger.

(** [_handle_interrupt]; [suppress(Exception)] around the cancellation. *)
Definition handle_interrupt : M unit :=
  current <- gets c_current;;
  match current with
  | None => write_ledger
  | Some i =>
      b <- get_batch i;;
      if negb (str_in (dget_none (u "state") b) ACTIVE_STATES) then write_ledger
      else
        (match dget_none (u "oar_job_id") b with
         | VStr (c :: r) =>
             except_exception (run_frontend [u "oardel"; c :: r] true;; ret tt) (fun _ => ret tt)
         | _ => ret tt
         end);;
        set_batch i (u "state") (VStr (u "cancelled"));;
        set_batch i (u "error") (VStr (u "cancelled_by_interrupt"));;
        write_ledger
  end.

Definition batch_published (v : pyval) : outcome bool :=
  match v with
  | VDict b => state ← getitem (u "state") b; mret (py_eqb state (VStr (u "published")))
  | _ => Raise (exc CTypeError (msg "batch is not a mapping"))
  end.

(** [all(batch["state"] == "published" for batch in batches)]. *)
Fixpoint all_published (bs : list pyval) : outcome bool :=
  match bs with
  | [] => mret true
  | b :: r => p ← batch_published b; if p : bool then all_published r else mret false
  end.

Definition run (fuel : nat) : M pydict :=
  ledger <- initialize;;
  try_except
    (for_each (fun i => modify (with_current i);; process_batch fuel i)
       (seq 0 (length (batches_of ledger)));;
     l <- get_ledger "Run ledger is not loaded";;
     complete <- lift (all_published (batches_of l));;
     if negb complete then throw (run_error "Sentence run is incomplete and remains resumable")
     else
       finalize_run;;
       get_ledger "Run ledger is not loaded")
    (fun e => if isinstance e CKeyboardInterrupt then Some (handle_interrupt;; throw e) else None).
End Controller.
