(* ===== verification/ControllerProofs.v ===== *)
(** What the Grid5000 controller guarantees: what it sends and removes, in which ledger state,
    when a batch counts as published, and what an import installs. *)
From Stdlib Require Import QArith.
From S2P Require Import Prelude Py PyStr PyText Fs Artifacts Atomic Protocol Transport ControllerPolicy Controller.

(** Shows that an update is a [plain_update] (below). *)
Ltac plain := split; [by_evaluation|
  let E := fresh in
  first [ intros E; exfalso; revert E; by_evaluation
        | intros _ E; injection E; by_evaluation ]].

Create HintDb safe.
Create HintDb quiet.

Section Proofs.
Context {RT : Runtime} {FF : FileFormats} {W : Type} `{!Site W}.
Context (cfg : Config).
Context (temporary_middle : gmap path node -> path -> str).
Context (temporary_directory : gmap path node -> path -> str -> path).
Abbreviation M := (PyM (Controller W)).
Abbreviation entry := (event * option node)%type.
Implicit Types s : Controller W.

(** * Events of a computation *)

(** From [s] to [s'] events satisfying [P] were added. *)
Definition grows (P : entry -> Prop) (s s' : Controller W) : Prop :=
  exists new, c_events s' = c_events s ++ new /\ Forall P new.

Lemma grows_refl P s s' : c_events s' = c_events s -> grows P s s'.
Proof. intros H. exists []. by rewrite app_nil_r. Qed.
Lemma grows_trans P s s1 s2 : grows P s s1 -> grows P s1 s2 -> grows P s s2.
Proof.
  intros (n1 & Hn1 & H1) (n2 & Hn2 & H2). exists (n1 ++ n2). rewrite Hn2, Hn1, app_assoc.
  split; [done|]. by apply Forall_app.
Qed.
Lemma grows_mono (P P' : entry -> Prop) s s' : (forall e, P e -> P' e) -> grows P s s' -> grows P' s s'.
Proof. intros HP (n & Hn & H). exists n. split; [done|]. by eapply Forall_impl. Qed.

(** From a state in [I], [m] ends in a state in [I] and every event it adds satisfies [P]. *)
Definition safe {A} (I : Controller W -> Prop) (P : entry -> Prop) (m : M A) : Prop :=
  forall s o s', I s -> m s = (o, s') -> I s' /\ grows P s s'.

Section Safe.
Context (I : Controller W -> Prop) (P : entry -> Prop).

Lemma safe_keep {A} (m : M A) :
  (forall s o s', I s -> m s = (o, s') -> I s' /\ c_events s' = c_events s) -> safe I P m.
Proof.
  intros H s o s' HI E. destruct (H _ _ _ HI E) as [? ?]. split; [done|]. by apply grows_refl.
Qed.

Lemma safe_ret {A} (a : A) : safe I P (ret a).
Proof. apply safe_keep. unfold ret. intros. by simplify_eq. Qed.
Lemma safe_throw {A} e : safe I P (throw (A := A) e).
Proof. apply safe_keep. unfold throw. intros. by simplify_eq. Qed.
Lemma safe_lift {A} (o : outcome A) : safe I P (lift o).
Proof. apply safe_keep. unfold lift. intros. by simplify_eq. Qed.
Lemma safe_gets {A} (f : Controller W -> A) : safe I P (gets f).
Proof. apply safe_keep. unfold gets. intros. by simplify_eq. Qed.

(** A computation whose first part establishes [Q] for the rest. *)
Lemma safe_bind_post {A B} (Q : A -> Controller W -> Prop) (m : M A) (f : A -> M B) :
  safe I P m -> (forall s a s', I s -> m s = (Ok a, s') -> Q a s') ->
  (forall a s o s', I s -> Q a s -> f a s = (o, s') -> I s' /\ grows P s s') ->
  safe I P (pbind m f).
Proof.
  intros Hm HQ Hf s o s' HI E. unfold pbind in E. destruct (m s) as [[a|e] s1] eqn:E1.
  - destruct (Hm _ _ _ HI E1) as [HI1 G1]. destruct (Hf a _ _ _ HI1 (HQ _ _ _ HI E1) E) as [HI2 G2].
    split; [done|]. by eapply grows_trans.
  - simplify_eq. eauto.
Qed.

Lemma safe_bind {A B} (m : M A) (f : A -> M B) :
  safe I P m -> (forall a, safe I P (f a)) -> safe I P (pbind m f).
Proof. intros Hm Hf. apply (safe_bind_post (fun _ _ => True)); [done|done|]. intros. by eapply Hf. Qed.

Lemma safe_try {A} (m : M A) h :
  safe I P m -> (forall e k, h e = Some k -> safe I P k) -> safe I P (try_except m h).
Proof.
  intros Hm Hh s o s' HI E. unfold try_except in E. destruct (m s) as [[a|e] s1] eqn:E1;
    [simplify_eq; eauto|].
  destruct (Hm _ _ _ HI E1) as [HI1 G1]. destruct (h e) as [k|] eqn:Ek; [|simplify_eq; eauto].
  destruct (Hh e k Ek _ _ _ HI1 E) as [HI2 G2]. split; [done|]. by eapply grows_trans.
Qed.

Lemma safe_except {A} (m : M A) h :
  safe I P m -> (forall e, safe I P (h e)) -> safe I P (except_exception m h).
Proof.
  intros Hm Hh. apply safe_try; [done|]. intros e k. destruct (isinstance e _); [|done].
  intros [= <-]. apply Hh.
Qed.

Lemma safe_finally {A} (m : M A) f : safe I P m -> safe I P f -> safe I P (finally m f).
Proof.
  intros Hm Hf s o s' HI E. unfold finally in E. destruct (m s) as [r s1] eqn:E1.
  destruct (f s1) as [r2 s2] eqn:E2. destruct (Hm _ _ _ HI E1) as [HI1 G1].
  destruct (Hf _ _ _ HI1 E2) as [HI2 G2].
  assert (s' = s2) as -> by (destruct r2; by simplify_eq). split; [done|]. by eapply grows_trans.
Qed.

Lemma safe_mono {A} (P' : entry -> Prop) (m : M A) :
  (forall e, P e -> P' e) -> safe I P m -> safe I P' m.
Proof.
  intros HP Hm s o s' HI E. destruct (Hm _ _ _ HI E) as [? G]. split; [done|]. by eapply grows_mono.
Qed.

Lemma safe_for_each {A} (f : A -> M unit) l : (forall x, safe I P (f x)) -> safe I P (for_each f l).
Proof. intros Hf. induction l as [|x l IH]; [apply safe_ret|]. apply safe_bind; auto. Qed.
End Safe.

(** What no operation of the outside world or of the log can break. *)
Record stable (r : option str) (I : Controller W -> Prop) : Prop := {
  stable_run_id : forall s, I s -> c_run_id s = r;
  stable_world : forall s w, I s -> I (with_world w s);
  stable_current : forall s i, I s -> I (with_current i s);
  stable_log : forall s e, I s -> I (log cfg e s).2 }.

Section Stable.
Context (r : option str) (I : Controller W -> Prop) (P : entry -> Prop) (HI : stable r I).

Lemma safe_on_fs {A} (m : PyM FsState A) :
  (forall s o fs, I s -> m (c_fs s) = (o, fs) -> I (with_fs fs s)) -> safe I P (on_fs m).
Proof.
  intros Hm. apply safe_keep. unfold on_fs. intros s o s' H E. destruct (m (c_fs s)) eqn:Em.
  simplify_eq. split; [by eapply Hm|done].
Qed.
Lemma safe_on_world {A} (m : gmap path node -> PyM W A) : safe I P (on_world m).
Proof.
  apply safe_keep. unfold on_world. intros s o s' H E. destruct (m _ _). simplify_eq.
  split; [by eapply stable_world|done].
Qed.
Lemma safe_with_current i : safe I P (modify (with_current i)).
Proof.
  apply safe_keep. unfold modify. intros. simplify_eq. split; [by eapply stable_current|done].
Qed.
Lemma safe_log e : (forall disk, P (e, disk)) -> safe I P (log cfg e).
Proof.
  intros HP s o s' H E. pose proof (stable_log _ _ HI s e H) as H'. rewrite E in H'. split; [done|].
  unfold log, modify in E. simplify_eq. eexists. split; [done|]. by repeat constructor.
Qed.
Lemma safe_get_ledger m : safe I P (get_ledger m).
Proof. apply safe_keep. unfold get_ledger. intros. by case_match; simplify_eq. Qed.

Lemma safe_remote_run_root : safe I P remote_run_root.
Proof. apply safe_keep. unfold remote_run_root. intros. by case_match; simplify_eq. Qed.

(** The remote root that a computation in [I] sees. *)
Lemma safe_bind_root {A} (f : str -> M A) :
  (forall rid, r = Some rid -> safe I P (f (REMOTE_NAMESPACE ++ u "/" ++ rid))) ->
  safe I P (pbind remote_run_root f).
Proof.
  intros Hf s o s' H E. pose proof (stable_run_id _ _ HI s H) as Hr. unfold pbind, remote_run_root in E.
  destruct (c_run_id s) as [rid|]; [by eapply Hf|].
  simplify_eq. split; [done|]. by apply grows_refl.
Qed.
End Stable.

(** Computations that add no event. *)
Lemma quiet_on_world {A} (P : entry -> Prop) (m : gmap path node -> PyM W A) : safe (fun _ => True) P (on_world m).
Proof. apply safe_keep. unfold on_world. intros. destruct (m _ _). by simplify_eq. Qed.
Lemma quiet_on_fs {A} (P : entry -> Prop) (m : PyM FsState A) : safe (fun _ => True) P (on_fs m).
Proof. apply safe_keep. unfold on_fs. intros. destruct (m _). by simplify_eq. Qed.
Lemma quiet_modify P f :
  (forall s, c_events (f s) = c_events s) -> safe (fun _ => True) P (modify f : M unit).
Proof. intros Hf. apply safe_keep. unfold modify. intros. by simplify_eq. Qed.

(** Takes a computation apart along its structure; what it cannot close is left. *)
Ltac safe_step :=
  lazymatch goal with
  | |- safe _ _ (pbind remote_run_root _) => eapply safe_bind_root; [eassumption|intros]
  | |- safe _ _ (pbind _ _) => apply safe_bind; intros
  | |- safe _ _ (ret _) => apply safe_ret
  | |- safe _ _ (throw _) => apply safe_throw
  | |- safe _ _ (lift _) => apply safe_lift
  | |- safe _ _ (gets _) => apply safe_gets
  | |- safe _ _ (except_exception _ _) => apply safe_except; intros
  | |- safe _ _ (finally _ _) => apply safe_finally
  | |- safe _ _ (for_each _ _) => apply safe_for_each; intros
  | |- safe _ _ (try_except _ _) => apply safe_try; [|intros ? ? ?; repeat case_match; simplify_eq]
  | |- safe _ _ (on_world _) => first [eapply safe_on_world; eassumption | by apply quiet_on_world]
  | |- safe _ _ timestamp => first [eapply safe_on_world; eassumption | by apply quiet_on_world]
  | |- safe _ _ (modify (with_current _)) => eapply safe_with_current; eassumption
  | |- safe _ _ (get_ledger _) => apply safe_get_ledger
  | |- safe _ _ (log _ _) => eapply safe_log; [eassumption|intros; try done]
  | |- safe _ _ (let '(_, _) := ?x in _) => destruct x eqn:?
  | |- safe _ _ (match ?x with _ => _ end) => destruct x eqn:?
  end.
Ltac safe_all := repeat safe_step; eauto 3 with safe.

(** * Events of the operations *)

Definition run_root (rid : str) : str := REMOTE_NAMESPACE ++ u "/" ++ rid.
Definition job_dir (r : option str) (x : str) : Prop :=
  exists rid, r = Some rid /\ startswith (run_root rid ++ u "/jobs/") x = true.
Definition command (name : string) (args : list str) : Prop := head args = Some (u name).

#[export] Instance command_dec name args : Decision (command name args).
Proof. unfold command. apply _. Defined.

Definition checking (e : event) : Prop :=
  match e with EFrontend args => command "usagepolicycheck" args | _ => False end.
Definition submitting (e : event) : Prop :=
  match e with
  | EFrontend args => command "usagepolicycheck" args \/ command "mkdir" args \/ command "oarsub" args
  | EUpload _ => True
  | _ => False
  end.
Definition collecting (r : option str) (e : event) : Prop :=
  match e with
  | EFrontend args => command "oarstat" args
  | EDownload _ => True
  | ERemove x => job_dir r x
  | _ => False
  end.
Definition publishing (r : option str) (e : event) : Prop :=
  match e with
  | EPublish _ | EVerify _ | EVerified _ => True
  | ERemove x => job_dir r x
  | _ => False
  end.

(** An update of a batch that neither renames its stems nor declares it published. *)
Definition plain_update (key : str) (v : pyval) : Prop :=
  key ≠ u "stems" /\ (key = u "state" -> v ≠ VStr (u "published")).

Section Operations.
Context (r : option str) (I : Controller W -> Prop) (HI : stable r I)
  (HFs : forall s fs, I s -> I (with_fs fs s))
  (HSet : forall P i key v, plain_update key v -> safe I P (set_batch i key v))
  (HField : forall P key v, key ≠ u "batches" -> safe I P (set_ledger_field key v))
  (HWrite : forall P, safe I P (write_ledger cfg temporary_middle))
  (V : nat -> Controller W -> Prop)
  (HVerify : forall i message s commit s', I s ->
     publish_and_verify cfg i message s = (Ok commit, s') -> V i s')
  (HPublish : forall P i s o s', I s -> V i s ->
     set_batch i (u "state") (VStr (u "published")) s = (o, s') ->
     I s' /\ grows P s s').

Lemma safe_fs {A} (P : entry -> Prop) (m : PyM FsState A) : safe I P (on_fs m).
Proof. apply safe_on_fs. intros. by apply HFs. Qed.
Lemma safe_read_tree {A} (P : entry -> Prop) (f : gmap path node -> outcome A) : safe I P (read_tree f).
Proof. apply safe_fs. Qed.
Lemma safe_get_batch P i : safe I P (get_batch i).
Proof. unfold get_batch. safe_all. Qed.
Hint Resolve safe_fs safe_read_tree safe_get_batch HWrite : safe.
Hint Extern 1 (safe _ _ (set_batch _ _ _)) => apply HSet; plain : safe.
Hint Extern 1 (safe _ _ (set_ledger_field _ _)) => apply HField; by_evaluation : safe.

Lemma safe_run_frontend (P : entry -> Prop) args b :
  (forall disk, P (EFrontend args, disk)) -> safe I P (run_frontend cfg args b).
Proof. intros. unfold run_frontend. safe_all; auto. Qed.

Lemma safe_policy_check : safe I (fun e => checking e.1) (policy_check cfg).
Proof. unfold policy_check. safe_all. apply safe_run_frontend. done. Qed.

Lemma safe_temporary_directory {A} (P : entry -> Prop) prefix (body : path -> M A) :
  (forall d, safe I P (body d)) -> safe I P (with_temporary_directory cfg temporary_directory prefix body).
Proof. intros. unfold with_temporary_directory. safe_all; auto. Qed.

Lemma safe_cleanup (P : entry -> Prop) i :
  (forall x disk, job_dir r x -> P (ERemove x, disk)) ->
  safe I P (cleanup_remote_job cfg temporary_middle i).
Proof.
  intros HP. unfold cleanup_remote_job, remove_remote. safe_all.
  apply HP. exists rid. by rewrite negb_false_iff in *.
Qed.
Hint Resolve safe_temporary_directory : safe.

Lemma safe_read_valid_receipt i received received_data :
  safe I (fun e => collecting r e.1) (read_valid_receipt cfg temporary_middle i received received_data).
Proof. unfold read_valid_receipt. safe_all. by apply safe_cleanup. Qed.

Lemma safe_mark_batch_failed P i received_data receipt :
  safe I P (mark_batch_failed cfg temporary_middle i received_data receipt).
Proof. unfold mark_batch_failed. safe_all. Qed.

Lemma safe_record_submission P i : safe I P (record_submission cfg temporary_middle i).
Proof. unfold record_submission. safe_all. Qed.

Lemma safe_record_submission_failure P i e : safe I P (record_submission_failure cfg temporary_middle i e).
Proof. unfold record_submission_failure. safe_all. Qed.

Lemma safe_send_submission i :
  safe I (fun e => submitting e.1) (send_submission cfg temporary_middle temporary_directory i).
Proof.
  assert (Hpol : safe I (fun e => submitting e.1) (policy_check cfg)).
  { eapply safe_mono; [|apply safe_policy_check]. intros [[] ?]; simpl; auto. }
  assert (Hstage : forall d, safe I (fun e => submitting e.1) (stage_and_upload cfg i d)).
  { intros d. unfold stage_and_upload. safe_all. }
  unfold send_submission, ensure_remote_namespace.
  safe_all; apply safe_run_frontend; intros; simpl; unfold command; auto.
Qed.

Lemma safe_submit_batch i :
  safe I (fun e => submitting e.1) (submit_batch cfg temporary_middle temporary_directory i).
Proof.
  unfold submit_batch. safe_all; auto using safe_record_submission, safe_send_submission,
    safe_record_submission_failure.
Qed.

Lemma safe_receive_results i state exit_code received :
  safe I (fun e => collecting r e.1) (receive_results cfg temporary_middle i state exit_code received).
Proof.
  unfold receive_results. safe_all; auto using safe_read_valid_receipt, safe_mark_batch_failed.
Qed.

Lemma safe_retrieve_batch i state exit_code :
  safe I (fun e => collecting r e.1) (retrieve_batch cfg temporary_middle temporary_directory i state exit_code).
Proof.
  unfold retrieve_batch. safe_all; [|by apply safe_cleanup].
  apply safe_temporary_directory, safe_receive_results.
Qed.

Lemma safe_poll fuel i job_id :
  safe I (fun e => collecting r e.1) (poll cfg temporary_middle temporary_directory fuel i job_id).
Proof.
  induction fuel as [|fuel IH]; [apply safe_throw|]. cbn [poll]. unfold query_job_status.
  safe_all; auto using safe_retrieve_batch. by apply safe_run_frontend.
Qed.

Lemma safe_reconcile_batch fuel i :
  safe I (fun e => collecting r e.1) (reconcile_batch cfg temporary_middle temporary_directory fuel i).
Proof. unfold reconcile_batch. safe_all; apply safe_poll. Qed.

Lemma safe_finalize_run :
  safe I (fun e => checking e.1 \/ exists rid, r = Some rid /\ e.1 = ERemove (run_root rid))
    (finalize_run cfg temporary_middle).
Proof.
  unfold finalize_run, remove_remote. safe_all.
  - eapply safe_mono; [|apply safe_policy_check]. auto.
  - right. exists rid. done.
Qed.

Lemma safe_handle_interrupt :
  safe I (fun e => exists args, e.1 = EFrontend args /\ command "oardel" args)
    (handle_interrupt cfg temporary_middle).
Proof.
  unfold handle_interrupt. safe_all. apply safe_run_frontend. intros. eexists. done.
Qed.

Lemma safe_publish_and_verify i message :
  safe I (fun e => publishing r e.1) (publish_and_verify cfg i message).
Proof. unfold publish_and_verify. safe_all. Qed.

(** A batch is declared published once it is verified. *)
Lemma safe_publish_batch i :
  safe I (fun e => publishing r e.1) (publish_batch cfg temporary_middle i).
Proof.
  unfold publish_batch. apply safe_bind; [unfold assert_baseline; safe_all|intros _].
  apply safe_bind; [by auto with safe|intros b].
  apply safe_bind; [apply safe_lift|intros message].
  apply (safe_bind_post I _ (fun _ => V i)).
  - apply safe_except; [apply safe_publish_and_verify|intros e; safe_all].
  - intros s a s' Hs E. unfold except_exception, try_except in E.
    destruct (publish_and_verify cfg i message s) as [[c|e] s1] eqn:E1; [simplify_eq; eauto|].
    destruct (isinstance e CException); [|done]. exfalso. unfold pbind in E. by repeat case_match.
  - intros commit s o s' Hs HV E. unfold pbind at 1 in E.
    destruct (set_batch i (u "state") (VStr (u "published")) s) as [[a|e] s1] eqn:E1.
    + destruct (HPublish (fun e => publishing r e.1) _ _ _ _ Hs HV E1) as [Hs1 G1].
      lazymatch type of E with ?m s1 = _ =>
        assert (Hrest : safe I (fun e => publishing r e.1) m) by (safe_all; by apply safe_cleanup) end.
      destruct (Hrest _ _ _ Hs1 E) as [? ?]. split; [done|]. by eapply grows_trans.
    + simplify_eq. eauto.
Qed.

(** * Events of the run *)

Definition running (r : option str) (e : event) : Prop :=
  checking e \/ submitting e \/ collecting r e \/ publishing r e \/
  (exists rid, r = Some rid /\ e = ERemove (run_root rid)) \/
  (exists args, e = EFrontend args /\ command "oardel" args).

Lemma safe_process_batch fuel i :
  safe I (fun e => submitting e.1 \/ collecting r e.1 \/ publishing r e.1)
    (process_batch cfg temporary_middle temporary_directory fuel i).
Proof.
  assert (Hp : safe I (fun e => submitting e.1 \/ collecting r e.1 \/ publishing r e.1)
    (publish_batch cfg temporary_middle i)).
  { eapply safe_mono; [|apply safe_publish_batch]. auto. }
  assert (Hr : safe I (fun e => submitting e.1 \/ collecting r e.1 \/ publishing r e.1)
    (reconcile_batch cfg temporary_middle temporary_directory fuel i)).
  { eapply safe_mono; [|apply safe_reconcile_batch]. auto. }
  assert (Hs : safe I (fun e => submitting e.1 \/ collecting r e.1 \/ publishing r e.1)
    (submit_batch cfg temporary_middle temporary_directory i)).
  { eapply safe_mono; [|apply safe_submit_batch]. auto. }
  unfold process_batch, publish_if_ready. safe_all.
Qed.

End Operations.

(** * Updates of the ledger *)

Lemma batches_of_set bs l : batches_of (dset (u "batches") (VList bs) l) = bs.
Proof. unfold batches_of, dget_none. by rewrite dget_dset_eq. Qed.
Lemma batches_of_other key v l : key ≠ u "batches" -> batches_of (dset key v l) = batches_of l.
Proof. intros H. unfold batches_of, dget_none. by rewrite dget_dset_ne. Qed.

Lemma get_batch_Ok i s b s' :
  get_batch i s = (Ok b, s') ->
  s' = s /\ exists l, c_ledger s = Some l /\ batches_of l !! i = Some (VDict b).
Proof.
  unfold get_batch, get_ledger, pbind. destruct (c_ledger s) as [l|]; [|done].
  destruct (batches_of l !! i) as [[]|] eqn:E; try done. unfold ret. intros. simplify_eq. eauto.
Qed.

Lemma set_batch_cases i key v s o s' :
  set_batch i key v s = (o, s') ->
  s' = s /\ (exists e, o = Raise e) \/
  exists l b, o = Ok tt /\ c_ledger s = Some l /\ batches_of l !! i = Some (VDict b) /\
    s' = with_ledger (dset (u "batches") (VList (<[i := VDict (dset key v b)]> (batches_of l))) l) s.
Proof.
  unfold set_batch, get_ledger, pbind. destruct (c_ledger s) as [l|] eqn:El; [|intros; simplify_eq; eauto].
  destruct (get_batch i s) as [[b|e] s1] eqn:Eb.
  - apply get_batch_Ok in Eb as (-> & l' & Hl & Hb). simplify_eq. unfold modify. intros. simplify_eq.
    right. eauto 10.
  - intros. simplify_eq. left. split; [|eauto]. unfold get_batch, get_ledger, pbind in Eb. rewrite El in Eb.
    unfold ret, throw in Eb. by repeat case_match; simplify_eq.
Qed.

Lemma write_ledger_ledger s o s' :
  write_ledger cfg temporary_middle s = (o, s') ->
  c_events s' = c_events s /\ c_run_id s' = c_run_id s /\
  (c_ledger s' = c_ledger s \/
   exists l now, c_ledger s = Some l /\ c_ledger s' = Some (dset (u "updated_at") (VStr now) l)).
Proof.
  unfold write_ledger, get_ledger, timestamp, on_world, on_fs, modify, pbind.
  destruct (c_ledger s) as [l|] eqn:El; [|intros; simplify_eq; auto].
  destruct (site_timestamp _) as [[now|e] w]; [|intros; simplify_eq; auto].
  destruct (atomic_write_json _ _ _ _) as [o1 fs]. intros. simplify_eq. simpl. eauto 10.
Qed.

(** * Published batches are verified *)

Definition published (b : pydict) : Prop := dget_none (u "state") b = VStr (u "published").
Definition verified (s : Controller W) (b : pydict) : Prop :=
  exists stems disk, batch_stems b = Ok stems /\ (EVerified stems, disk) ∈ c_events s.

(** Every published batch was published in [old] already or is verified. *)
Definition backed (old : pydict) (s : Controller W) : Prop :=
  forall l i b, c_ledger s = Some l -> batches_of l !! i = Some (VDict b) -> published b ->
    (exists b0, batches_of old !! i = Some (VDict b0) /\ published b0) \/ verified s b.

Definition verified_now (i : nat) (s : Controller W) : Prop :=
  forall l b, c_ledger s = Some l -> batches_of l !! i = Some (VDict b) -> verified s b.

Section Backed.
Context (r : option str) (old : pydict).
Definition backed_run (s : Controller W) : Prop := c_run_id s = r /\ backed old s.

Lemma batch_stems_dset key v b : key ≠ u "stems" -> batch_stems (dset key v b) = batch_stems b.
Proof. intros H. unfold batch_stems, dget_none. by rewrite dget_dset_ne. Qed.

Lemma backed_more s s' :
  backed old s -> (exists new, c_events s' = c_events s ++ new) ->
  (forall l', c_ledger s' = Some l' -> exists l, c_ledger s = Some l /\ batches_of l' = batches_of l) ->
  backed old s'.
Proof.
  intros H [new He] Hl l' i b Hl' Hb Hp. destruct (Hl l' Hl') as (l & Hs & E). rewrite E in Hb.
  destruct (H l i b Hs Hb Hp) as [?|(stems & disk & ? & Hin)]; [by left|]. right.
  exists stems, disk. split; [done|]. rewrite He, elem_of_app. by left.
Qed.

Lemma stable_backed : stable r backed_run.
Proof.
  split; [by intros s []|..]; intros s x [? H]; (split; [done|]); eapply backed_more; eauto;
    simpl; eauto; exists []; by rewrite app_nil_r.
Qed.
Lemma backed_update i key v s l b :
  backed_run s -> key ≠ u "stems" ->
  c_ledger s = Some l -> batches_of l !! i = Some (VDict b) ->
  (published (dset key v b) -> published b \/ verified s b) ->
  backed_run (with_ledger (dset (u "batches") (VList (<[i := VDict (dset key v b)]> (batches_of l))) l) s).
Proof.
  intros [Hr H] Hk Hl Hb Hnew. split; [done|]. intros l' j b' Hl' Hb' Hp. simpl in Hl'. simplify_eq.
  rewrite batches_of_set in Hb'. destruct (decide (i = j)) as [<-|Hne].
  - rewrite list_lookup_insert_eq in Hb' by (by eapply lookup_lt_Some). simplify_eq.
    assert (Hv : verified s b -> verified s (dset key v b)).
    { intros (stems & disk & ? & ?). exists stems, disk. by rewrite batch_stems_dset. }
    destruct (Hnew Hp) as [Hb0|]; [|auto].
    destruct (H _ _ _ Hl Hb Hb0) as [?|?]; auto.
  - rewrite list_lookup_insert_ne in Hb' by done. by eapply H.
Qed.

Lemma backed_set P i key v : plain_update key v -> safe backed_run P (set_batch i key v).
Proof.
  intros [Hk Hv]. apply safe_keep. intros s o s' HI E.
  apply set_batch_cases in E as [[-> _]|(l & b & _ & Hl & Hb & ->)]; [done|]. split; [|done].
  apply backed_update; auto. unfold published, dget_none. intros Hp.
  destruct (decide (key = u "state")) as [->|Hne].
  - rewrite dget_dset_eq in Hp. by destruct (Hv eq_refl).
  - rewrite dget_dset_ne in Hp by done. by left.
Qed.

Lemma backed_field P key v : key ≠ u "batches" -> safe backed_run P (set_ledger_field key v).
Proof.
  intros Hk. apply safe_keep. unfold set_ledger_field, get_ledger, pbind, modify. intros s o s' [Hr HI] E.
  destruct (c_ledger s) as [l|] eqn:El; simplify_eq; [|done]. split; [|done]. split; [done|].
  eapply backed_more; [exact HI| |].
  - exists []. by rewrite app_nil_r.
  - simpl. intros l' [= <-]. exists l. by rewrite batches_of_other.
Qed.

Lemma backed_write P : safe backed_run P (write_ledger cfg temporary_middle).
Proof.
  apply safe_keep. intros s o s' [Hr HI] (He & Hrun & Hl)%write_ledger_ledger. split; [|done].
  split; [congruence|]. eapply backed_more; [exact HI| |].
  - exists []. by rewrite app_nil_r.
  - intros l' Hl'. destruct Hl as [Hl|(l & now & Hs & Hs')]; [rewrite Hl in Hl'; eauto|].
    exists l. rewrite Hs' in Hl'. simplify_eq. split; [done|]. apply batches_of_other. by_evaluation.
Qed.

Lemma on_world_ledger {A} (m : gmap path node -> PyM W A) s o s' :
  on_world m s = (o, s') -> c_ledger s' = c_ledger s /\ c_events s' = c_events s.
Proof. unfold on_world. destruct (m _ _). intros. by simplify_eq. Qed.

Lemma publish_and_verify_Ok i message s commit s' :
  publish_and_verify cfg i message s = (Ok commit, s') -> verified_now i s'.
Proof.
  intros H. unfold publish_and_verify in H.
  apply pym_bind_Ok in H as (b & s1 & (-> & l & Hl & Hb)%get_batch_Ok & H).
  apply pym_bind_Ok in H as (stems & s2 & [= Hst <-] & H).
  apply pym_bind_Ok in H as ([] & s3 & [= <-] & H).
  apply pym_bind_Ok in H as (c & s4 & [Hl4 _]%on_world_ledger & H).
  apply pym_bind_Ok in H as (b' & s5 & (-> & l' & Hl' & Hb')%get_batch_Ok & H).
  apply pym_bind_Ok in H as (stems' & s6 & [= Hst' <-] & H).
  apply pym_bind_Ok in H as ([] & s7 & [= <-] & H).
  apply pym_bind_Ok in H as ([] & s8 & [Hl8 _]%on_world_ledger & H).
  apply pym_bind_Ok in H as ([] & s9 & [= <-] & H). unfold ret in H. simplify_eq.
  intros l0 b0 Hl0 Hb0. simpl in Hl0. rewrite Hl8 in Hl0. simpl in Hl0. simplify_eq.
  exists stems'. eexists. split; [done|]. simpl. rewrite elem_of_app. right. by left.
Qed.

Lemma backed_publish P i s o s' :
  backed_run s -> verified_now i s ->
  set_batch i (u "state") (VStr (u "published")) s = (o, s') -> backed_run s' /\ grows P s s'.
Proof.
  intros HI HV E. apply set_batch_cases in E as [[-> _]|(l & b & _ & Hl & Hb & ->)];
    (split; [|by apply grows_refl]); [done|].
  apply backed_update; eauto; by_evaluation.
Qed.

Lemma backed_process_batch fuel i :
  safe backed_run (fun e => submitting e.1 \/ collecting r e.1 \/ publishing r e.1)
    (process_batch cfg temporary_middle temporary_directory fuel i).
Proof.
  apply (safe_process_batch r backed_run stable_backed) with (V := verified_now).
  - intros s fs [Hr HI]. split; [done|]. eapply backed_more; [exact HI| |]; simpl; [|eauto].
    exists []. by rewrite app_nil_r.
  - apply backed_set.
  - apply backed_write.
  - intros i' message s commit s' _. apply publish_and_verify_Ok.
  - apply backed_publish.
Qed.
End Backed.

(** * A run that returns *)

Lemma py_eqb_str v t : py_eqb v (VStr t) = true -> v = VStr t.
Proof. destruct v; simpl; try done. by destruct (str_eqb_spec s t) as [->|]. Qed.

Lemma batch_published_Ok v :
  batch_published v = Ok true -> exists b, v = VDict b /\ published b.
Proof.
  unfold batch_published, getitem, published, dget_none. destruct v; try done. intros H. eexists. split; [done|].
  destruct (dget (u "state") d) as [v|]; simpl in *; [|done].
  apply mret_Ok in H. by apply py_eqb_str.
Qed.

Lemma all_published_Ok bs :
  all_published bs = Ok true -> Forall (fun v => exists b, v = VDict b /\ published b) bs.
Proof.
  induction bs as [|v bs IH]; cbn [all_published]; intros H; [constructor|].
  apply outcome_bind_Ok in H as ([] & Hv & H); [|done].
  constructor; [by apply batch_published_Ok|by apply IH].
Qed.

Lemma get_ledger_Ok m s l s' : get_ledger m s = (Ok l, s') -> s' = s /\ c_ledger s = Some l.
Proof. unfold get_ledger. intros. case_match; by simplify_eq. Qed.

Lemma set_ledger_field_Ok key v s s' :
  set_ledger_field key v s = (Ok tt, s') ->
  exists l, c_ledger s = Some l /\ s' = with_ledger (dset key v l) s.
Proof.
  intros H. apply pym_bind_Ok in H as (l & s1 & [-> Hl]%get_ledger_Ok & H). unfold modify in H.
  simplify_eq. eauto.
Qed.

(** A computation that leaves the batches of the ledger as they were. *)
Definition keeps_batches s s' : Prop :=
  forall l', c_ledger s' = Some l' -> exists l, c_ledger s = Some l /\ batches_of l' = batches_of l.

Lemma keeps_batches_trans s s1 s2 : keeps_batches s s1 -> keeps_batches s1 s2 -> keeps_batches s s2.
Proof.
  intros H H' l2 Hl. destruct (H' _ Hl) as (l1 & Hl1 & E). destruct (H _ Hl1) as (l & ? & ?).
  exists l. split; [done|congruence].
Qed.

Lemma same_ledger_keeps s s' : c_ledger s' = c_ledger s -> keeps_batches s s'.
Proof. intros H l' Hl. exists l'. by rewrite <- H. Qed.

Lemma write_ledger_keeps s o s' : write_ledger cfg temporary_middle s = (o, s') -> keeps_batches s s'.
Proof.
  intros (_ & _ & H)%write_ledger_ledger l' Hl'. destruct H as [H|(l & now & Hs & Hs')].
  - rewrite H in Hl'. eauto.
  - exists l. rewrite Hs' in Hl'. simplify_eq. split; [done|]. apply batches_of_other. by_evaluation.
Qed.

Lemma set_field_keeps key v s s' :
  key ≠ u "batches" -> set_ledger_field key v s = (Ok tt, s') -> keeps_batches s s'.
Proof.
  intros Hk (l & Hl & ->)%set_ledger_field_Ok l' [= <-]. exists l. by rewrite batches_of_other.
Qed.

Lemma run_frontend_ledger args b s o s' : run_frontend cfg args b s = (o, s') -> c_ledger s' = c_ledger s.
Proof.
  unfold run_frontend, log, modify, on_world, pbind. destruct (site_frontend args _) as [[res|] w];
    [|intros; by simplify_eq]. unfold ret, throw. case_match; intros; by simplify_eq.
Qed.

Lemma policy_check_ledger s o s' : policy_check cfg s = (o, s') -> c_ledger s' = c_ledger s.
Proof.
  unfold policy_check, pbind, ret. destruct (run_frontend _ _ _ s) as [[]] eqn:E; intros; simplify_eq;
    by eapply run_frontend_ledger.
Qed.

(** [finalize_run] completes the clean-up and touches no batch. *)
Lemma finalize_run_Ok s s' :
  finalize_run cfg temporary_middle s = (Ok tt, s') ->
  keeps_batches s s' /\
  forall l, c_ledger s' = Some l -> dget_none (u "cleanup_state") l = VStr (u "complete").
Proof.
  intros H. unfold finalize_run in H.
  apply pym_bind_Ok in H as (l & s1 & [-> Hl]%get_ledger_Ok & H).
  destruct (py_eqb _ _) eqn:Ec.
  { unfold ret in H. simplify_eq. split; [by apply same_ledger_keeps|]. intros l' Hl'. simplify_eq.
    by apply py_eqb_str. }
  apply pym_bind_Ok in H as ([] & s1 & H1%policy_check_ledger%same_ledger_keeps & H).
  apply pym_bind_Ok in H as ([] & s2 & H2%set_field_keeps & H); [|by_evaluation].
  apply pym_bind_Ok in H as ([] & s3 & H3%write_ledger_keeps & H).
  apply pym_bind_Ok in H as (root & s4 & H4 & H).
  assert (s4 = s3) as -> by (unfold remote_run_root in H4; by case_match; simplify_eq).
  apply pym_bind_Ok in H as ([] & s5 & H5 & H).
  assert (H5' : c_ledger s5 = c_ledger s3).
  { apply pym_bind_Ok in H5 as ([] & s5' & [= <-] & [H5 _]%on_world_ledger). by rewrite H5. }
  apply same_ledger_keeps in H5'.
  apply pym_bind_Ok in H as ([] & s6 & H6 & H7).
  pose proof H6 as H6'. apply set_field_keeps in H6'; [|by_evaluation].
  pose proof (write_ledger_keeps _ _ _ H7) as H7'.
  split; [do 5 (eapply keeps_batches_trans; [eassumption|]); assumption|].
  apply set_ledger_field_Ok in H6 as (l6 & _ & ->). apply write_ledger_ledger in H7 as (_ & _ & H7).
  intros l' Hl'. destruct H7 as [H7|(l7 & now & Hs & Hs')].
  - rewrite H7 in Hl'. simpl in Hl'. simplify_eq. unfold dget_none. by rewrite dget_dset_eq.
  - simpl in Hs. rewrite Hs' in Hl'. simplify_eq. unfold dget_none.
    rewrite dget_dset_ne by by_evaluation. by rewrite dget_dset_eq.
Qed.
Lemma initialize_ledger s l s' :
  initialize cfg temporary_middle s = (Ok l, s') -> c_ledger s' = Some l.
Proof.
  intros H. unfold initialize in H. apply pym_bind_Ok in H as (cached & s1 & [= <- <-] & H).
  destruct (c_ledger s) as [l'|] eqn:El; [unfold ret in H; by simplify_eq|].
  apply pym_bind_Ok in H as (ex & s2 & _ & H). apply pym_bind_Ok in H as (l1 & s3 & _ & H).
  apply pym_bind_Ok in H as ([] & s4 & [= <-] & H). unfold ret in H. by simplify_eq.
Qed.

(** * The run identifier does not change *)

Section RunId.
Context (r : option str).
Definition same_run (s : Controller W) : Prop := c_run_id s = r.

Lemma stable_same_run : stable r same_run.
Proof. by split. Qed.

Lemma same_run_set P i key v : plain_update key v -> safe same_run P (set_batch i key v).
Proof.
  intros _. apply safe_keep. intros s o s' H E.
  by apply set_batch_cases in E as [[-> _]|(l & b & _ & _ & _ & ->)].
Qed.

Lemma same_run_field P key v : key ≠ u "batches" -> safe same_run P (set_ledger_field key v).
Proof.
  intros _. apply safe_keep. unfold set_ledger_field, get_ledger, pbind, modify. intros s o s' H E.
  by destruct (c_ledger s); simplify_eq.
Qed.

Lemma same_run_write P : safe same_run P (write_ledger cfg temporary_middle).
Proof.
  apply safe_keep. unfold same_run. intros s o s' H (? & ? & _)%write_ledger_ledger.
  split; congruence.
Qed.

Lemma same_run_publish P i s o s' :
  same_run s -> True -> set_batch i (u "state") (VStr (u "published")) s = (o, s') ->
  same_run s' /\ grows P s s'.
Proof.
  intros H _ E. apply set_batch_cases in E as [[-> _]|(l & b & _ & _ & _ & ->)];
    (split; [done|by apply grows_refl]).
Qed.

Lemma same_run_finalize :
  safe same_run (fun e => running r e.1) (finalize_run cfg temporary_middle).
Proof.
  eapply safe_mono; [|apply (safe_finalize_run r same_run stable_same_run)].
  - unfold running. tauto.
  - apply same_run_field.
  - apply same_run_write.
Qed.

Lemma same_run_process_batch fuel i :
  safe same_run (fun e => running r e.1)
    (process_batch cfg temporary_middle temporary_directory fuel i).
Proof.
  eapply safe_mono; [|apply (safe_process_batch r same_run stable_same_run) with (V := fun _ _ => True)].
  - unfold running. tauto.
  - done.
  - apply same_run_set.
  - apply same_run_write.
  - done.
  - apply same_run_publish.
Qed.

Lemma same_run_interrupt :
  safe same_run (fun e => running r e.1) (handle_interrupt cfg temporary_middle).
Proof.
  eapply safe_mono; [|apply (safe_handle_interrupt r same_run stable_same_run)].
  - unfold running. tauto.
  - apply same_run_set.
  - apply same_run_write.
Qed.
End RunId.

Lemma finalize_grows s o s' :
  finalize_run cfg temporary_middle s = (o, s') -> exists new, c_events s' = c_events s ++ new.
Proof.
  intros H. destruct (same_run_finalize (c_run_id s) s o s') as [_ (new & Hn & _)]; [done..|]. eauto.
Qed.

(** C2: A run that returns has published everything, and never on trust.  When [run] returns, the
    clean-up is recorded as complete and every batch of the ledger is published; and each of them
    was already published in the ledger [initialize] delivered or the controller received a
    successful verification of exactly that batch's stems from the publication target. *)
Theorem run_returns_verified_batches fuel s l s' :
  run cfg temporary_middle temporary_directory fuel s = (Ok l, s') ->
  exists l0 s0,
    initialize cfg temporary_middle s = (Ok l0, s0) /\
    dget_none (u "cleanup_state") l = VStr (u "complete") /\
    forall i v, batches_of l !! i = Some v ->
      exists b, v = VDict b /\ published b /\
        ((exists b0, batches_of l0 !! i = Some (VDict b0) /\ published b0) \/ verified s' b).
Proof.
  intros H. unfold run in H. apply pym_bind_Ok in H as (l0 & s0 & Hinit & H).
  exists l0, s0. split; [done|]. pose proof (initialize_ledger _ _ _ Hinit) as Hl0.
  unfold try_except in H. lazymatch type of H with context [match ?m with _ => _ end] =>
    destruct m as [[l1|e] s1] eqn:E end.
  2: { destruct (isinstance e _); [|done]. exfalso. unfold pbind in H. by repeat case_match. }
  simplify_eq. apply pym_bind_Ok in E as ([] & s2 & E2 & E).
  assert (HI : backed_run (c_run_id s0) l0 s0).
  { split; [done|]. intros l' i b Hl' Hb Hp. left. simplify_eq. eauto. }
  lazymatch type of E2 with ?m _ = _ => assert (Hs : safe (backed_run (c_run_id s0) l0) (fun _ => True) m) end.
  { apply safe_for_each. intros i. apply safe_bind; [eapply safe_with_current, stable_backed|].
    intros _. eapply safe_mono; [|apply backed_process_batch]. done. }
  destruct (Hs _ _ _ HI E2) as [[_ HB] _].
  apply pym_bind_Ok in E as (l2 & s3 & [-> Hl2]%get_ledger_Ok & E).
  apply pym_bind_Ok in E as (complete & s4 & [= Hall <-] & E).
  destruct complete; [|done]. apply all_published_Ok in Hall. rewrite Forall_lookup in Hall.
  apply pym_bind_Ok in E as ([] & s5 & E5 & [-> Hl5]%get_ledger_Ok).
  pose proof (finalize_grows _ _ _ E5) as Hgr. apply finalize_run_Ok in E5 as [Hkeep Hclean].
  split; [auto|]. intros i v Hv. destruct (Hkeep _ Hl5) as (l' & Hl' & Eb). simplify_eq. rewrite Eb in Hv.
  destruct (Hall _ _ Hv) as (b & -> & Hb). exists b. split_and!; [done..|].
  destruct (HB _ _ _ Hl2 Hv Hb) as [?|(stems & disk & ? & Hin)]; [by left|]. right.
  exists stems, disk. split; [done|]. destruct Hgr as [new ->]. rewrite elem_of_app. by left.
Qed.
(** * The footprint of a run *)

Hint Resolve quiet_on_world quiet_on_fs : quiet.
Hint Extern 1 (safe _ _ (modify _)) => by apply quiet_modify : quiet.

Lemma quiet_write_ledger P : safe (fun _ => True) P (write_ledger cfg temporary_middle).
Proof. unfold write_ledger. safe_all; eauto with quiet. Qed.

Lemma quiet_initialize P : safe (fun _ => True) P (initialize cfg temporary_middle).
Proof.
  unfold initialize, load_existing_ledger, create_ledger, refresh_resumable_source_commit, new_ledger,
    write_new_ledger, read_tree.
  safe_all; eauto using quiet_write_ledger with quiet.
Qed.

(** Footprint of a run.  Whatever the outcome of [run], all that the controller did to the
    outside is: the frontend commands [usagepolicycheck], [mkdir], [oarsub], [oarstat] and
    [oardel]; uploads, downloads, publications and verifications; and removals of the run's own
    remote root or of directories under its [jobs/]. *)
Theorem run_footprint fuel s o s' :
  run cfg temporary_middle temporary_directory fuel s = (o, s') ->
  exists new, c_events s' = c_events s ++ new /\ Forall (fun e => running (c_run_id s') e.1) new.
Proof.
  intros H. unfold run, pbind at 1 in H.
  destruct (initialize cfg temporary_middle s) as [[l|e] s1] eqn:E1.
  - destruct (quiet_initialize (fun _ => False) _ _ _ I E1) as [_ (n1 & Hn1 & HF1)].
    lazymatch type of H with ?m _ = _ =>
      assert (Hs : safe (same_run (c_run_id s1)) (fun e => running (c_run_id s1) e.1) m) end.
    { apply safe_try; [|intros e k; destruct (isinstance e _); [intros [= <-]|done]].
      - safe_all.
        + eapply safe_with_current, stable_same_run.
        + apply same_run_process_batch.
        + apply same_run_finalize.
      - safe_all. apply same_run_interrupt. }
    destruct (Hs s1 o s' eq_refl H) as [Hr (n2 & Hn2 & HF2)]. rewrite Hr.
    exists (n1 ++ n2). rewrite Hn2, Hn1, app_assoc. split; [done|]. apply Forall_app. split; [|done].
    by eapply Forall_impl.
  - simplify_eq. destruct (quiet_initialize (fun _ => False) _ _ _ I E1) as [_ (n1 & Hn1 & HF1)].
    exists n1. split; [done|]. by eapply Forall_impl.
Qed.
End Proofs.
