(* ===== verification/ControllerSubmission.v ===== *)
(** A batch is submitted at most once per attempt: the ledger on disk records the submission
    before the job is sent, and a controller restarted from that ledger sends nothing. *)
From Stdlib Require Import QArith.
From S2P Require Import Prelude Py PyStr PyText Fs Keeps Artifacts Atomic Protocol Transport ControllerPolicy Controller ControllerProofs.

Lemma below_sub d p rel : below d p -> below d (sub p rel).
Proof. apply below_app. Qed.

Lemma keeps_copy_required q d src p :
  relative_to q d = None -> below d p -> keeps q (copy_required src p).
Proof.
  intros Hd Hp. unfold copy_required. apply keeps_bind; [by apply keeps_pure|intros [|]; [|by apply keeps_pure]].
  apply keeps_bind; [apply keeps_mkdir|intros]. apply keeps_copy_file. intros ->.
  destruct Hp as [x ->]. by rewrite relative_to_app in Hd.
Qed.

Section Submission.
Context {RT : Runtime} {FF : FileFormats} {W : Type} `{!Site W}.
Context (cfg : Config).
Context (temporary_middle : gmap path node -> path -> str).
Context (temporary_directory : gmap path node -> path -> str -> path).
Abbreviation M := (PyM (Controller W)).
Abbreviation entry := (event * option node)%type.
Implicit Types s : Controller W.

(** [tempfile] creates a file under an unused name and a directory in the one it is given. *)
Hypothesis temporary_fresh : forall t p, t !! temporary_name temporary_middle p t = None.
Hypothesis temporary_inside : forall t dir prefix,
  exists name, temporary_directory t dir prefix = child dir name.

(** * Staging keeps the ledger *)

Ltac keeps_step :=
  lazymatch goal with
  | |- keeps _ (pbind _ _) => apply keeps_bind; intros
  | |- keeps _ (for_each _ _) => apply keeps_for_each; intros
  | |- keeps _ (mkdir _) => apply keeps_mkdir
  | |- keeps _ (copytree _ _) => eapply keeps_copytree_below; [eassumption|]
  | |- keeps _ (copy_required _ _) => eapply keeps_copy_required; [eassumption|]
  | |- keeps _ (match ?x with _ => _ end) => destruct x
  | |- keeps _ _ => by apply keeps_pure
  end.

Lemma keeps_stage_batch q staging b :
  relative_to q staging = None -> keeps q (stage_batch cfg staging b).
Proof.
  intros H. unfold stage_batch. repeat keeps_step; auto using below_self, below_sub.
  unfold stage_stem, stage_source, stage_checkpoint_trees. repeat keeps_step;
    auto using below_self, below_sub, below_app.
Qed.
(** * Until the job is sent, the ledger on disk is the recorded one *)

Definition is_oarsub (e : event) : bool :=
  match e with EFrontend args => bool_decide (command "oarsub" args) | _ => false end.
Definition silent (e : entry) : Prop := is_oarsub e.1 = false.

Section Recorded.
Context (r : option str) (n : node).

Definition recorded s : Prop := c_run_id s = r /\ tree (c_fs s) !! ledger_path cfg = Some n.

Lemma stable_recorded : stable cfg r recorded.
Proof. split; unfold recorded; naive_solver. Qed.
Hint Resolve stable_recorded : core.

Lemma recorded_on_fs {A} (P : entry -> Prop) (m : PyM FsState A) :
  keeps (ledger_path cfg) m -> safe recorded P (on_fs m).
Proof.
  intros Hm. apply safe_on_fs. intros s o fs [Hr Hl] E. split; [done|]. by eapply Hm.
Qed.

Lemma silent_policy_check : safe recorded silent (policy_check cfg).
Proof.
  eapply safe_mono; [|by eapply safe_policy_check, stable_recorded]. intros [[] ?]; unfold silent; simpl; try done.
  intros H. rewrite bool_decide_eq_false. unfold command in *. rewrite H. intros [=].
Qed.

Lemma silent_ensure_remote_namespace : safe recorded silent (ensure_remote_namespace cfg).
Proof.
  unfold ensure_remote_namespace. eapply safe_bind_root; [apply stable_recorded|]. intros rid _.
  apply safe_bind; [|intros; apply safe_ret]. eapply safe_run_frontend; [apply stable_recorded|].
  intros. apply bool_decide_eq_false. unfold command. by_evaluation.
Qed.

Lemma silent_stage_and_upload i staging :
  relative_to (ledger_path cfg) staging = None -> safe recorded silent (stage_and_upload cfg i staging).
Proof.
  intros H. unfold stage_and_upload.
  apply safe_bind; [apply safe_get_batch|intros b].
  apply safe_bind; [by apply recorded_on_fs, keeps_stage_batch|intros _].
  apply safe_bind; [apply safe_lift|intros remote].
  apply safe_bind; [by eapply safe_log; [apply stable_recorded|]|intros _].
  eapply safe_on_world, stable_recorded.
Qed.

Lemma silent_staging i prefix :
  safe recorded silent (with_temporary_directory cfg temporary_directory prefix (stage_and_upload cfg i)).
Proof.
  unfold with_temporary_directory.
  apply (safe_bind_post _ _ (fun d _ => relative_to (ledger_path cfg) d = None)).
  - apply recorded_on_fs, keeps_mkdtemp.
  - intros s d s' [_ Hl] E. unfold on_fs, mkdtemp in E. destruct (primitive _ _) as [o fs] eqn:E1.
    simplify_eq. apply primitive_cases in E1 as [(e & ? & _)|E1]; [done|].
    destruct (temporary_inside (tree (c_fs s)) (cache (data_root cfg)) prefix) as [name Hname].
    unfold mkdtemp_tree in E1. rewrite Hname in E1. rewrite path_parent_child in E1.
    destruct (is_dir _ _); [|done]. simpl in E1. destruct (path_exists _ _) eqn:Ex; [done|]. simplify_eq.
    destruct (relative_to _ _) as [x|] eqn:Er; [|done]. exfalso. apply relative_to_spec in Er.
    unfold ledger_path, sub, child in Er. rewrite <- app_assoc in Er. simplify_eq.
    assert (Hx : length (path_components (u "grid5000_sentence_run.json")) = 1%nat) by (vm_compute; done).
    rewrite Er in Hx. destruct x; [|done]. simpl in Er. unfold path_exists in Ex.
    unfold ledger_path, sub in Hl. rewrite Er in Hl. unfold child in Ex. by rewrite Hl in Ex.
  - intros d s o s' Hs Hd E. revert s o s' Hs E. change (safe recorded silent
      (finally (stage_and_upload cfg i d) (on_fs (cleanup_directory d)))).
    apply safe_finally; [by apply silent_stage_and_upload|]. by apply recorded_on_fs, keeps_cleanup_directory.
Qed.
End Recorded.

(** * The job is sent once, from the recorded state *)

(** Batch [i] is recorded as submitted and its job identifier is not known. *)
Definition awaiting (l : pydict) (i : nat) : Prop :=
  exists b, batches_of l !! i = Some (VDict b) /\ dget_none (u "state") b = VStr (u "submitted") /\
    dget_none (u "oar_job_id") b = VNone.
Definition awaiting_on_disk (i : nat) (e : entry) : Prop :=
  exists l, e.2 = Some (File (CJson (VDict l))) /\ awaiting l i.

Definition submissions (es : list entry) : list entry := filter (fun e => is_oarsub e.1 = true) es.

(** At most one job was sent from [s] to [s'], with batch [i] awaiting its identifier on disk. *)
Definition sent_once (i : nat) s s' : Prop :=
  exists new, c_events s' = c_events s ++ new /\ (length (submissions new) <= 1)%nat /\
    Forall (awaiting_on_disk i) (submissions new).

Lemma silent_submissions new : Forall silent new -> submissions new = [].
Proof.
  induction 1 as [|e new He _ IH]; [done|]. unfold submissions. rewrite filter_cons_False; [done|].
  unfold silent in He. congruence.
Qed.

Lemma submissions_app n1 n2 : submissions (n1 ++ n2) = submissions n1 ++ submissions n2.
Proof. apply filter_app. Qed.

Lemma sent_once_after i s s1 s' : grows silent s s1 -> sent_once i s1 s' -> sent_once i s s'.
Proof.
  intros (n1 & Hn1 & H1) (n2 & Hn2 & Hlen & HF). exists (n1 ++ n2).
  rewrite Hn2, Hn1, app_assoc, submissions_app, (silent_submissions n1 H1). done.
Qed.

Lemma sent_once_before i s s1 s' : sent_once i s s1 -> grows silent s1 s' -> sent_once i s s'.
Proof.
  intros (n1 & Hn1 & Hlen & HF) (n2 & Hn2 & H2). exists (n1 ++ n2).
  rewrite Hn2, Hn1, app_assoc, submissions_app, (silent_submissions n2 H2), app_nil_r. done.
Qed.

Lemma sent_none i s s' : grows silent s s' -> sent_once i s s'.
Proof.
  intros (n1 & Hn1 & H1). exists n1. rewrite (silent_submissions n1 H1). split_and!; [done|simpl; lia|constructor].
Qed.

(** A silent first part. *)
Lemma sent_once_bind {A B} (I : Controller W -> Prop) (m : M A) (f : A -> M B) i s o s' :
  safe I silent m -> I s ->
  (forall a s1, m s = (Ok a, s1) -> I s1 -> forall o s', f a s1 = (o, s') -> sent_once i s1 s') ->
  pbind m f s = (o, s') -> sent_once i s s'.
Proof.
  intros Hm HI Hf E. unfold pbind in E. destruct (m s) as [[a|e] s1] eqn:E1;
    destruct (Hm _ _ _ HI E1) as [HI1 G1].
  - eapply sent_once_after; [exact G1|]. by eapply Hf.
  - simplify_eq. by apply sent_none.
Qed.
(** * Recording the submission *)

Definition batch_is (i : nat) (b : pydict) s : Prop :=
  exists l, c_ledger s = Some l /\ batches_of l !! i = Some (VDict b).

Lemma set_batch_Ok i key v s s' :
  set_batch i key v s = (Ok tt, s') -> exists b, batch_is i b s /\ batch_is i (dset key v b) s'.
Proof.
  intros [[_ (e & ?)]|(l & b & _ & Hl & Hb & ->)]%set_batch_cases; [done|].
  exists b. split; [by exists l|]. eexists. split; [done|]. rewrite batches_of_set.
  apply list_lookup_insert_eq. by eapply lookup_lt_Some.
Qed.

Lemma batch_is_eq i b b' s : batch_is i b s -> batch_is i b' s -> b = b'.
Proof. intros (l & ? & ?) (l' & ? & ?). by simplify_eq. Qed.

(** A field of batch [i]. *)
Definition field_is (i : nat) (key : str) (v : pyval) s : Prop :=
  exists b, batch_is i b s /\ dget key b = Some v.

Lemma set_batch_sets i key v s s' : set_batch i key v s = (Ok tt, s') -> field_is i key v s'.
Proof. intros (b & _ & H)%set_batch_Ok. exists (dset key v b). split; [done|]. apply dget_dset_eq. Qed.

Lemma set_batch_keeps i key v key' v' s s' :
  key ≠ key' -> set_batch i key v s = (Ok tt, s') -> field_is i key' v' s -> field_is i key' v' s'.
Proof.
  intros Hne (b & Hb & H)%set_batch_Ok (b' & Hb' & Hv). rewrite (batch_is_eq _ _ _ _ Hb' Hb) in Hv.
  exists (dset key v b). split; [done|]. by rewrite dget_dset_ne.
Qed.

Lemma write_ledger_disk s s' :
  write_ledger cfg temporary_middle s = (Ok tt, s') ->
  exists l now, c_ledger s = Some l /\
    tree (c_fs s') !! ledger_path cfg = Some (File (CJson (VDict (dset (u "updated_at") (VStr now) l)))).
Proof.
  intros H. apply pym_bind_Ok in H as (l & s1 & [-> Hl]%get_ledger_Ok & H).
  apply pym_bind_Ok in H as (now & s2 & _ & H). apply pym_bind_Ok in H as ([] & s3 & [= <-] & H).
  exists l, now. split; [done|]. unfold on_fs in H. destruct (atomic_write_json _ _ _ _) as [o fs] eqn:E.
  simplify_eq. apply atomic_write_json_replaced in E as [[[[e ?] _]|(_ & c & -> & Hc)] _ _]; done.
Qed.

Lemma record_submission_Ok i s s' :
  record_submission cfg temporary_middle i s = (Ok tt, s') ->
  exists l, tree (c_fs s') !! ledger_path cfg = Some (File (CJson (VDict l))) /\ awaiting l i.
Proof.
  intros H. unfold record_submission in H.
  apply pym_bind_Ok in H as (b & s1 & _ & H). apply pym_bind_Ok in H as (attempt & s2 & _ & H).
  apply pym_bind_Ok in H as ([] & s3 & _ & H).
  apply pym_bind_Ok in H as ([] & s4 & H4%set_batch_sets & H).
  apply pym_bind_Ok in H as ([] & s5 & H5 & H). pose proof (set_batch_sets _ _ _ _ _ H5) as Hj.
  apply set_batch_keeps with (1 := ltac:(by_evaluation) : u "oar_job_id" ≠ u "state") (3 := H4) in H5.
  apply pym_bind_Ok in H as (root & s6 & H6 & H).
  assert (s6 = s5) as -> by (unfold remote_run_root in H6; by case_match; simplify_eq).
  apply pym_bind_Ok in H as (index & s7 & [= _ <-] & H).
  apply pym_bind_Ok in H as ([] & s8 & H8 & H).
  apply pym_bind_Ok in H as ([] & s9 & H9 & H).
  apply pym_bind_Ok in H as ([] & s10 & H10 & H).
  assert (Hkeep : forall key v, field_is i key v s5 -> key = u "state" \/ key = u "oar_job_id" ->
    field_is i key v s10).
  { intros key v Hf [->| ->]; repeat (eapply set_batch_keeps; [|eassumption|]; [by_evaluation|]); done. }
  destruct (Hkeep _ _ H5) as (b1 & Hb1 & Hs1); [by left|].
  destruct (Hkeep _ _ Hj) as (b2 & Hb2 & Hs2); [by right|].
  rewrite (batch_is_eq _ _ _ _ Hb2 Hb1) in Hs2.
  apply write_ledger_disk in H as (l & now & Hl & Hd). eexists. split; [done|].
  destruct Hb1 as (l' & Hl' & Hb1). simplify_eq. exists b1. unfold dget_none. rewrite Hs1, Hs2.
  rewrite batches_of_other by by_evaluation. done.
Qed.
(** * Sending it *)

Section Send.
Context (r : option str).
Notation quiet m := (safe (W := W) (same_run r) silent m).

Lemma head_silent args disk name :
  command name args -> u name ≠ u "oarsub" -> silent (EFrontend args, disk).
Proof.
  intros H Hne. apply bool_decide_eq_false. unfold command in *. rewrite H. congruence.
Qed.

Lemma quiet_policy_check : quiet (policy_check cfg).
Proof.
  eapply safe_mono; [|by eapply safe_policy_check, stable_same_run].
  intros [[] ?]; try done. intros H. eapply head_silent; [exact H|by_evaluation].
Qed.

Lemma quiet_publish i : quiet (publish_batch cfg temporary_middle i).
Proof.
  eapply safe_mono; [|apply (safe_publish_batch cfg temporary_middle r (same_run r)) with (V := fun _ _ => True)];
    [by intros [[] ?]|apply stable_same_run|done|apply same_run_set|apply same_run_write|done|
     apply same_run_publish].
Qed.

Lemma quiet_reconcile fuel i : quiet (reconcile_batch cfg temporary_middle temporary_directory fuel i).
Proof.
  eapply safe_mono; [|apply (safe_reconcile_batch cfg temporary_middle temporary_directory r (same_run r))];
    [|apply stable_same_run|done|apply same_run_set|apply same_run_write].
  intros [[] ?]; try done. intros H. eapply head_silent; [exact H|by_evaluation].
Qed.

Lemma quiet_publish_if_ready i : quiet (publish_if_ready cfg temporary_middle i).
Proof.
  unfold publish_if_ready. apply safe_bind; [apply safe_get_batch|intros b].
  apply safe_bind; [apply safe_lift|intros state]. case_match; [apply quiet_publish|apply safe_ret].
Qed.

Lemma quiet_plain_set i key v : plain_update key v -> quiet (set_batch i key v).
Proof. apply same_run_set. Qed.

Lemma pbind_log {A B} e (k : unit -> M A) (f : A -> M B) s :
  pbind (pbind (log cfg e) k) f s = pbind (k tt) f (log cfg e s).2.
Proof. done. Qed.

(** [oarsub] and what follows it. *)
Lemma send_job i cmd l s o s' (rest : CompletedProcess -> M unit) :
  same_run r s -> tree (c_fs s) !! ledger_path cfg = Some (File (CJson (VDict l))) -> awaiting l i ->
  (forall result, quiet (rest result)) ->
  pbind (run_frontend cfg (submit_command cfg cmd) false) rest s = (o, s') -> sent_once i s s'.
Proof.
  intros Hr Hl Ha Hrest E. unfold run_frontend in E. rewrite pbind_log in E.
  lazymatch type of E with ?m _ = _ => assert (Hs : quiet m) end.
  { apply safe_bind; [|exact Hrest]. apply safe_bind; [eapply (safe_on_world cfg), stable_same_run|intros result].
    case_match; [apply safe_throw|apply safe_ret]. }
  apply Hs in E as [_ G]; [|exact Hr]. eapply sent_once_before; [|exact G].
  exists [(EFrontend (submit_command cfg cmd), Some (File (CJson (VDict l))))].
  rewrite <- Hl. split; [done|].
  assert (Hsub : submissions [(EFrontend (submit_command cfg cmd), tree (c_fs s) !! ledger_path cfg)] =
    [(EFrontend (submit_command cfg cmd), tree (c_fs s) !! ledger_path cfg)]).
  { unfold submissions. rewrite filter_cons_True; done. }
  rewrite Hsub. split; [simpl; lia|]. constructor; [|constructor]. by exists l.
Qed.

Lemma send_submission_once i l s o s' :
  same_run r s -> tree (c_fs s) !! ledger_path cfg = Some (File (CJson (VDict l))) -> awaiting l i ->
  send_submission cfg temporary_middle temporary_directory i s = (o, s') -> sent_once i s s'.
Proof.
  intros Hr Hl Ha. unfold send_submission.
  pose (I := recorded r (File (CJson (VDict l)))). assert (HI : I s) by done.
  apply (sent_once_bind I); [apply silent_ensure_remote_namespace|done|]. clear HI. intros _ s1 _ HI o1 s1'.
  apply (sent_once_bind I); [apply safe_get_batch|done|]. clear HI. intros b s2 _ HI o2 s2'.
  apply (sent_once_bind I); [apply safe_lift|done|]. clear HI. intros index s3 _ HI o3 s3'.
  apply (sent_once_bind I); [apply silent_staging|done|]. clear HI. intros _ s4 _ HI o4 s4'.
  apply (sent_once_bind I); [apply silent_policy_check|done|]. clear HI. intros _ s5 _ HI o5 s5'.
  apply (sent_once_bind I); [apply safe_remote_run_root|done|]. clear HI. intros root s6 _ HI o6 s6'.
  apply (sent_once_bind I); [apply safe_get_batch|done|]. clear HI. intros b' s7 _ HI o7 s7'.
  apply (sent_once_bind I); [apply safe_lift|done|]. clear HI. intros cmd s8 _ [Hr8 Hl8] o8 s8'.
  intros E. eapply send_job; [exact Hr8|exact Hl8|done| |exact E].
  intros result. apply safe_bind; [apply safe_lift|intros job].
  apply safe_bind; [apply quiet_plain_set; plain|intros _].
  apply safe_bind; [apply quiet_plain_set; plain|intros _].
  apply safe_bind; [apply same_run_write|intros _]. apply quiet_policy_check.
Qed.
Lemma submit_batch_once i s o s' :
  same_run r s -> submit_batch cfg temporary_middle temporary_directory i s = (o, s') -> sent_once i s s'.
Proof.
  intros Hr E. unfold submit_batch in E. unfold pbind at 1 in E.
  assert (Hrec : quiet (record_submission cfg temporary_middle i)).
  { apply (safe_record_submission cfg temporary_middle r (same_run r)); auto using same_run_set, same_run_write.
    apply stable_same_run. }
  destruct (record_submission cfg temporary_middle i s) as [[[]|e] s1] eqn:E1;
    destruct (Hrec _ _ _ Hr E1) as [Hr1 G1]; [|simplify_eq; by apply sent_none].
  eapply sent_once_after; [exact G1|]. apply record_submission_Ok in E1 as (l & Hl & Ha).
  unfold except_exception, try_except in E.
  destruct (send_submission _ _ _ i s1) as [[[]|e] s2] eqn:E2;
    pose proof (send_submission_once _ _ _ _ _ Hr1 Hl Ha E2) as Hs; [by simplify_eq|].
  destruct (isinstance e CException); [|by simplify_eq]. eapply sent_once_before; [exact Hs|].
  cbv beta iota in E. lazymatch type of E with ?m _ = _ => assert (Hf : quiet m) end.
  { apply safe_bind; [|intros; apply safe_throw].
    apply (safe_record_submission_failure cfg temporary_middle (same_run r));
      auto using same_run_set, same_run_write. }
  assert (Hr2 : same_run r s2); [|by apply Hf in E as [_ ?]].
  destruct (safe_send_submission cfg temporary_middle temporary_directory r (same_run r)
    (stable_same_run cfg r) ltac:(done) ltac:(apply same_run_set) ltac:(apply same_run_write)
    _ _ _ _ Hr1 E2) as [? _]. done.
Qed.

Lemma process_batch_once fuel i s o s' :
  same_run r s -> process_batch cfg temporary_middle temporary_directory fuel i s = (o, s') ->
  sent_once i s s' /\
  (~ grows silent s s' -> exists b, batch_is i b s /\
     exists v, dget (u "state") b = Some v /\ py_str v ∈ [u "planned"; u "failed"]).
Proof.
  intros Hr E. unfold process_batch, pbind at 1 in E.
  destruct (get_batch i s) as [[b|e] s1] eqn:Eb.
  2: { simplify_eq. assert (G : grows silent s s') by (eapply safe_get_batch; [exact Hr|exact Eb]).
       split; [by apply sent_none|done]. }
  apply get_batch_Ok in Eb as (-> & l & Hl & Hb). unfold pbind at 1, lift, getitem in E.
  destruct (dget (u "state") b) as [v|] eqn:Ev.
  2: { simplify_eq. split; [by apply sent_none, grows_refl|]. intros []. by apply grows_refl. }
  assert (Hquiet : forall m, quiet m -> m s = (o, s') -> sent_once i s s' /\
    (~ grows silent s s' -> exists b, batch_is i b s /\
     exists v, dget (u "state") b = Some v /\ py_str v ∈ [u "planned"; u "failed"])).
  { intros m Hm Em. apply Hm in Em as [_ G]; [|exact Hr]. split; [by apply sent_none|done]. }
  assert (Hthen : quiet (reconcile_batch cfg temporary_middle temporary_directory fuel i;;
    publish_if_ready cfg temporary_middle i)).
  { apply safe_bind; [apply quiet_reconcile|intros; apply quiet_publish_if_ready]. }
  destruct (str_eqb _ _); [eapply Hquiet; [apply safe_ret|exact E]|].
  destruct (str_eqb _ _); [eapply Hquiet; [apply quiet_publish|exact E]|].
  destruct (bool_decide _); [by eapply Hquiet|].
  case_bool_decide as Hst; cycle 1.
  { eapply Hquiet; [|exact E]. apply safe_bind; [apply safe_lift|intros; apply safe_throw]. }
  split; [|intros _; exists b; split; [by exists l|by exists v]].
  unfold pbind at 1 in E. destruct (submit_batch _ _ _ i s) as [[[]|e] s1] eqn:E1;
    pose proof (submit_batch_once _ _ _ _ Hr E1) as Hs; [|by simplify_eq].
  eapply sent_once_before; [exact Hs|].
  assert (Hr1 : same_run r s1); [|by apply Hthen in E as [_ ?]].
  destruct (safe_submit_batch cfg temporary_middle temporary_directory r (same_run r)
    (stable_same_run cfg r) ltac:(done) ltac:(apply same_run_set) ltac:(apply same_run_write)
    _ _ _ _ Hr E1) as [? _]. done.
Qed.
End Send.

(** A batch that awaits its identifier is never touched again. *)
Lemma process_awaiting fuel i l s :
  c_ledger s = Some l -> awaiting l i ->
  exists e, process_batch cfg temporary_middle temporary_directory fuel i s = (Raise e, s).
Proof.
  intros Hl (b & Hb & Hs & Hj).
  assert (Hget : get_batch i s = (Ok b, s)).
  { unfold get_batch, get_ledger, pbind. by rewrite Hl, Hb. }
  assert (Hgs : getitem (u "state") b = Ok (VStr (u "submitted"))).
  { unfold getitem, dget_none in *. destruct (dget (u "state") b); simpl in *; [congruence|done]. }
  unfold process_batch, pbind at 1. rewrite Hget. unfold pbind at 1, lift. rewrite Hgs.
  change (py_str (VStr (u "submitted"))) with (u "submitted").
  unfold pbind at 1.
  assert (Hrec : exists e, reconcile_batch cfg temporary_middle temporary_directory fuel i s = (Raise e, s)).
  { unfold reconcile_batch, pbind at 1. rewrite Hget, Hj. unfold pbind, lift. rewrite Hgs.
    destruct (getitem (u "index") b); unfold throw; eauto. }
  destruct Hrec as [e Hrec]. exists e.
  rewrite !str_eqb_neq by by_evaluation. rewrite bool_decide_eq_true_2 by by_evaluation. by rewrite Hrec.
Qed.

Lemma grows_submissions s s' new :
  c_events s' = c_events s ++ new -> grows silent s s' -> submissions new = [].
Proof. intros Hn (n2 & Hn2 & HF). rewrite Hn in Hn2. simplify_eq. by apply silent_submissions. Qed.

(** C1: A job is never submitted twice for one attempt.  Processing a batch runs [oarsub] at most
    once, and only for a batch that was planned or failed; and at the moment it runs, the ledger on
    disk already records the batch as submitted without a job identifier, so that a controller
    restarted from that ledger - after a crash at any later point - refuses the batch and does
    nothing at all to the outside or to the disk. *)
Theorem job_sent_at_most_once fuel i s o s' :
  process_batch cfg temporary_middle temporary_directory fuel i s = (o, s') ->
  exists new, c_events s' = c_events s ++ new /\ (length (submissions new) <= 1)%nat /\
    (submissions new ≠ [] -> exists b v, batch_is i b s /\ dget (u "state") b = Some v /\
       py_str v ∈ [u "planned"; u "failed"]) /\
    forall e, e ∈ submissions new -> exists l,
      e.2 = Some (File (CJson (VDict l))) /\ awaiting l i /\
      forall fuel2 s2, c_ledger s2 = Some l ->
        exists x, process_batch cfg temporary_middle temporary_directory fuel2 i s2 = (Raise x, s2).
Proof.
  intros E. destruct (process_batch_once (c_run_id s) fuel i s o s' eq_refl E) as [(new & Hn & Hlen & HF) Hst].
  exists new. split_and!; [done|done| |].
  - intros Hne. destruct Hst as (b & Hb & v & Hv & Hin); [|by exists b, v].
    intros G. by apply Hne, (grows_submissions s s').
  - intros e He. rewrite Forall_forall in HF. destruct (HF e He) as (l & Hl & Ha).
    exists l. split_and!; [done|done|]. intros. by eapply process_awaiting.
Qed.
End Submission.

(** * Interrupts *)

Section Interrupt.
Context {RT : Runtime} {FF : FileFormats} {W : Type} `{!Site W}.
Context (cfg : Config).
Context (temporary_middle : gmap path node -> path -> str).
Context (temporary_directory : gmap path node -> path -> str -> path).
Implicit Types s : Controller W.

Lemma process_cancelled fuel i s :
  field_is i (u "state") (VStr (u "cancelled")) s ->
  exists e, process_batch cfg temporary_middle temporary_directory fuel i s = (Raise e, s).
Proof.
  intros (b & (l & Hl & Hb) & Hs).
  assert (Hget : get_batch i s = (Ok b, s)) by (unfold get_batch, get_ledger, pbind; by rewrite Hl, Hb).
  unfold process_batch, pbind at 1. rewrite Hget. unfold pbind at 1, lift, getitem. rewrite Hs.
  change (py_str (VStr (u "cancelled"))) with (u "cancelled").
  rewrite !str_eqb_neq by by_evaluation. rewrite !bool_decide_eq_false_2 by by_evaluation.
  unfold pbind. destruct (dget (u "index") b); unfold throw; eauto.
Qed.

Lemma write_ledger_keeps_field i key v s s' :
  write_ledger cfg temporary_middle s = (Ok tt, s') -> field_is i key v s -> field_is i key v s'.
Proof.
  intros (_ & _ & H)%write_ledger_ledger (b & (l & Hl & Hb) & Hv). exists b. split; [|done].
  destruct H as [H|(l' & now & Hl' & H)]; [exists l; by rewrite H|]. simplify_eq.
  eexists. split; [done|]. by rewrite batches_of_other by by_evaluation.
Qed.

(** An interrupted batch is never resumed.  When the interrupt handler returns for an active
    current batch, the batch is recorded as cancelled, and from then on processing it - in this
    controller or in one that starts from the ledger it wrote - raises without doing anything. *)
Theorem interrupted_batch_is_stuck fuel i s s' b :
  c_current s = Some i -> batch_is i b s -> str_in (dget_none (u "state") b) ACTIVE_STATES = true ->
  handle_interrupt cfg temporary_middle s = (Ok tt, s') ->
  field_is i (u "state") (VStr (u "cancelled")) s' /\
  exists e, process_batch cfg temporary_middle temporary_directory fuel i s' = (Raise e, s').
Proof.
  intros Hc (l & Hl & Hb) Hact H. unfold handle_interrupt in H.
  apply pym_bind_Ok in H as (current & s1 & [= <- <-] & H). rewrite Hc in H.
  apply pym_bind_Ok in H as (b' & s1 & (-> & l' & Hl' & Hb')%get_batch_Ok & H). simplify_eq.
  rewrite Hact in H. simpl negb in H. cbv iota in H.
  apply pym_bind_Ok in H as ([] & s2 & _ & H).
  apply pym_bind_Ok in H as ([] & s3 & H3%set_batch_sets & H).
  apply pym_bind_Ok in H as ([] & s4 & H4 & H).
  assert (Hf : field_is i (u "state") (VStr (u "cancelled")) s').
  { eapply write_ledger_keeps_field; [done|]. eapply set_batch_keeps; [|done..]. by_evaluation. }
  split; [done|]. by apply process_cancelled.
Qed.
End Interrupt.
