(* ===== verification/ControllerResults.v ===== *)
(** Results of a batch: nothing is installed before everything is verified, and a publication that
    fails is retried without another job. *)
From Stdlib Require Import QArith.
From S2P Require Import Prelude Py PyStr PyText Fs Artifacts Atomic Protocol Transport ControllerPolicy Controller ControllerProofs ControllerSubmission.

Section Results.
Context {RT : Runtime} {FF : FileFormats} {W : Type} `{!Site W}.
Context (cfg : Config).
Context (temporary_middle : gmap path node -> path -> str).
Context (temporary_directory : gmap path node -> path -> str -> path).
Implicit Types s : Controller W.

(** * Verification before installation *)

(** The received file that a receipt entry names lies in the result tree [root] and has the size
    and the digest the receipt states. *)
Definition accepted (root : path) (artifacts : list (str * FileDigest)) (relative : str)
    (t : gmap path node) : Prop :=
  exists digest rest c, dget relative artifacts = Some digest /\
    resolve (path_join root relative) = resolve root ++ rest /\
    t !! (resolve root ++ rest) = Some (File c) /\
    len (content_bytes c) = fd_size digest /\ sha256_hexdigest (content_bytes c) = fd_sha256 digest.

Definition sentences_file (project stem : str) : str :=
  u "processed_v2/" ++ project ++ u "/" ++ u "sentences/" ++ stem ++ u ".parquet".

Lemma verified_accepted root artifacts relative t p :
  verified_incoming_artifact root artifacts relative t = Ok p ->
  p = resolve (path_join root relative) /\ accepted root artifacts relative t.
Proof.
  intros H. assert (Hp : p = resolve (path_join root relative)).
  { unfold verified_incoming_artifact in H. outcome_inv H. case_match; [|done].
    outcome_inv H. by apply mret_Ok in H. }
  apply verified_incoming_artifact_ok in H as (digest & rest & c & ? & Hr & ? & ? & ?).
  split; [done|]. exists digest, rest, c. rewrite <- Hr. by subst.
Qed.

Lemma output_of_accepted root artifacts stem t files project r :
  output_of cfg root artifacts stem t files project = Ok r ->
  accepted root artifacts (sentences_file project stem) t.
Proof. unfold output_of. intros H. outcome_inv H. by eapply verified_accepted. Qed.

(** Every step of a loop that returned has returned. *)
Lemma fold_outcome_all {A B} (f : A -> B -> outcome A) l acc r :
  fold_outcome f acc l = Ok r -> forall x, x ∈ l -> exists a a', f a x = Ok a'.
Proof.
  revert acc. induction l as [|y l IH]; intros acc H x Hx; [by apply elem_of_nil in Hx|].
  simpl in H. apply outcome_bind_Ok in H as (a & Ha & H).
  apply elem_of_cons in Hx as [->|Hx]; eauto.
Qed.

(** C5: Nothing is installed before everything is verified.  Either importing the results of a
    batch raises and has changed nothing, or the receipt declares the incoming manifest and the
    sentence file of every stem and project of the batch, each received file lies inside the
    result tree with the declared size and SHA-256, and the incoming manifest extends the local
    one for exactly these stems. *)
Theorem import_verifies_before_installing b received receipt (s s' : FsState) o :
  import_success cfg temporary_middle b received receipt s = (o, s') ->
  ((exists e, o = Raise e) /\ s' = s) \/
  exists artifacts stems incoming,
    receipt_artifacts receipt = Ok artifacts /\ batch_stems b = Ok stems /\
    accepted received artifacts (u "processed_v2/" ++ u SENTENCE_MANIFEST_RELATIVE_PATH) (tree s) /\
    read_json_mapping (resolve (path_join received
      (u "processed_v2/" ++ u SENTENCE_MANIFEST_RELATIVE_PATH))) (tree s) = Ok incoming /\
    (exists local, load_json_mapping (sentence_manifest_path cfg) (tree s) = Ok local /\
       validate_manifest_extension (default (dset (u "regions") (VList []) incoming) local)
         incoming stems = Ok tt) /\
    forall stem, stem ∈ stems -> exists projects,
      source_projects (processed_v2 (data_root cfg)) stem (tree s) = Ok projects /\
      forall project, project ∈ projects -> accepted received artifacts (sentences_file project stem) (tree s).
Proof.
  intros H. unfold import_success in H. unfold pbind at 1, reads in H.
  destruct (verified_files cfg b received receipt (tree s)) as [files|e] eqn:E; [|left; simplify_eq; eauto].
  right. clear H. unfold verified_files in E.
  apply outcome_bind_Ok in E as (artifacts & Ha & E). apply outcome_bind_Ok in E as (mp & Hm & E).
  apply outcome_bind_Ok in E as (incoming & Hi & E). apply outcome_bind_Ok in E as (local & Hl & E).
  apply outcome_bind_Ok in E as (stems & Hs & E). apply outcome_bind_Ok in E as ([] & Hv & E).
  apply verified_accepted in Hm as [-> Hm].
  exists artifacts, stems, incoming. split_and!; [done..|by exists local|].
  intros stem Hstem. destruct (fold_outcome_all _ _ _ _ E stem Hstem) as (acc & acc' & Ho).
  unfold outputs_of in Ho. apply outcome_bind_Ok in Ho as (projects & Hp & Ho).
  exists projects. split; [done|]. intros project Hproject.
  destruct (fold_outcome_all _ _ _ _ Ho project Hproject) as (a & a' & Hout).
  by eapply output_of_accepted.
Qed.

(** * A failed publication *)

Section Field.
Context (r : option str) (i : nat) (v : pyval).
Definition in_state (s : Controller W) : Prop := c_run_id s = r /\ field_is i (u "state") v s.
Notation keeping m := (safe (W := W) in_state (fun _ => True) m).

Lemma in_state_same s s' :
  c_ledger s' = c_ledger s -> c_run_id s' = c_run_id s -> in_state s -> in_state s'.
Proof.
  intros H Hr [Hr0 (b & (l & Hl & Hb) & Hv)]. split; [congruence|]. exists b. split; [|done].
  exists l. by rewrite H.
Qed.

Lemma stable_in_state : stable cfg r in_state.
Proof. split; [by intros s []|..]; intros s x; by apply in_state_same. Qed.

Lemma in_state_set key w : key ≠ u "state" \/ w = v -> keeping (set_batch i key w).
Proof.
  intros Hk. apply safe_keep. intros s o s' [Hr HI] E. pose proof E as E0.
  apply set_batch_cases in E as [[-> _]|(l & b & -> & _ & _ & ->)]; [done|].
  split; [|done]. split; [done|]. destruct (decide (key = u "state")) as [->|Hne].
  - destruct Hk as [| ->]; [done|]. by eapply set_batch_sets.
  - by eapply set_batch_keeps.
Qed.

Lemma in_state_write : keeping (write_ledger cfg temporary_middle).
Proof.
  apply safe_keep. intros s o s' [Hr (b & (l & Hl & Hb) & Hv)] (He & Hr' & H)%write_ledger_ledger.
  split; [|done]. split; [congruence|]. exists b. split; [|done].
  destruct H as [H|(l' & now & Hl' & H)]; [exists l; by rewrite H|]. simplify_eq.
  eexists. split; [done|]. by rewrite batches_of_other by by_evaluation.
Qed.

Lemma in_state_fs {A} (m : PyM FsState A) : keeping (on_fs m).
Proof. apply safe_on_fs. intros. by eapply in_state_same. Qed.

Lemma in_state_publish_and_verify message : keeping (publish_and_verify cfg i message).
Proof.
  eapply safe_mono; [|apply (safe_publish_and_verify cfg r in_state stable_in_state)]. done.
Qed.

Lemma in_state_assert_baseline : keeping (assert_baseline cfg).
Proof.
  unfold assert_baseline, read_tree. apply safe_bind; [apply in_state_fs|intros hashes].
  apply safe_bind; [apply safe_get_ledger|intros l]. apply safe_bind; [apply safe_lift|intros readme].
  case_match; [apply safe_throw|]. apply safe_bind; [apply safe_lift|intros m].
  case_match; [apply safe_throw|apply safe_ret].
Qed.

Lemma in_state_cleanup : keeping (cleanup_remote_job cfg temporary_middle i).
Proof.
  unfold cleanup_remote_job, remove_remote. apply safe_bind; [apply safe_get_batch|intros b].
  apply safe_bind; [apply safe_remote_run_root|intros root]. case_match; try apply safe_throw.
  case_match; [apply safe_throw|]. case_match; [apply safe_ret|].
  apply safe_bind; [apply safe_bind; [by eapply safe_log; [apply stable_in_state|]|intros _; eapply (safe_on_world cfg), stable_in_state]|intros _].
  apply safe_bind; [apply in_state_set; left; by_evaluation|intros _]. apply in_state_write.
Qed.
End Field.

Lemma safe_in_state {A} r i v (m : PyM (Controller W) A) s o s' :
  safe (in_state r i v) (fun _ => True) m -> in_state r i v s -> m s = (o, s') -> in_state r i v s'.
Proof. intros Hm HI E. by destruct (Hm _ _ _ HI E). Qed.

Lemma publish_batch_state r i s o s' :
  in_state r i (VStr (u "ready_to_publish")) s ->
  publish_batch cfg temporary_middle i s = (o, s') ->
  in_state r i (VStr (u "published")) s' \/
  (exists e, o = Raise e) /\ in_state r i (VStr (u "ready_to_publish")) s'.
Proof.
  intros HI E. pose (I := in_state r i (VStr (u "ready_to_publish"))).
  assert (Hfail : forall e s1, I s1 -> forall o s2, (Raise e : outcome unit, s1) = (o, s2) ->
    in_state r i (VStr (u "published")) s2 \/
    (exists e, o = Raise e) /\ in_state r i (VStr (u "ready_to_publish")) s2).
  { intros e s1 H1 o2 s2 [= <- <-]. right. eauto. }
  unfold publish_batch in E. unfold pbind at 1 in E.
  lazymatch type of E with context [match ?m s with _ => _ end] =>
    assert (Hm : safe I (fun _ => True) m); [|destruct (m s) as [[[]|e] s1] eqn:E1] end.
  { apply safe_except; [apply in_state_assert_baseline|intros e].
    apply safe_bind; [apply in_state_set; left; by_evaluation|intros _].
    apply safe_bind; [apply in_state_write|intros _]. apply safe_throw. }
  all: pose proof (safe_in_state _ _ _ _ _ _ _ Hm HI E1) as H1.
  2: by eapply Hfail.
  unfold pbind at 1 in E. destruct (get_batch i s1) as [[b|e] s2] eqn:E2;
    pose proof (safe_in_state _ _ _ _ _ _ _ (safe_get_batch _ _ _) H1 E2) as H2.
  2: by eapply Hfail.
  unfold pbind at 1, lift in E. destruct (publication_message b) as [message|e]; [|by eapply Hfail].
  unfold pbind at 1 in E.
  lazymatch type of E with context [match ?m s2 with _ => _ end] =>
    assert (Hp : safe I (fun _ => True) m); [|destruct (m s2) as [[commit|e] s3] eqn:E3] end.
  { apply safe_except; [apply in_state_publish_and_verify|intros e].
    apply safe_bind; [apply in_state_set; by right|intros _].
    apply safe_bind; [apply in_state_set; left; by_evaluation|intros _].
    apply safe_bind; [apply in_state_write|intros _]. apply safe_throw. }
  all: pose proof (safe_in_state _ _ _ _ _ _ _ Hp H2 E3) as H3.
  2: by eapply Hfail.
  unfold pbind at 1 in E.
  destruct (set_batch i (u "state") (VStr (u "published")) s3) as [[[]|e] s4] eqn:E4.
  2: { apply set_batch_cases in E4 as [[-> _]|(? & ? & ? & _)]; [by eapply Hfail|done]. }
  left. assert (H4 : in_state r i (VStr (u "published")) s4).
  { pose proof E4 as E5. apply set_batch_sets in E5.
    apply set_batch_cases in E4 as [[_ [? ?]]|(l & b' & _ & _ & _ & ->)]; [done|].
    split; [apply H3|done]. }
  eapply safe_in_state; [|exact H4|exact E].
  do 4 (apply safe_bind; [first [apply in_state_set; left; by_evaluation | apply in_state_write
    | eapply (safe_on_world cfg), stable_in_state]|intros]).
  apply safe_bind; [first [apply in_state_set; left; by_evaluation | apply in_state_write]|intros].
  apply in_state_cleanup.
Qed.

Lemma process_ready fuel i s :
  field_is i (u "state") (VStr (u "ready_to_publish")) s ->
  process_batch cfg temporary_middle temporary_directory fuel i s = publish_batch cfg temporary_middle i s.
Proof.
  intros (b & (l & Hl & Hb) & Hs).
  assert (Hget : get_batch i s = (Ok b, s)) by (unfold get_batch, get_ledger, pbind; by rewrite Hl, Hb).
  unfold process_batch, pbind at 1. rewrite Hget. unfold pbind at 1, lift, getitem. rewrite Hs.
  change (py_str (VStr (u "ready_to_publish"))) with (u "ready_to_publish").
  rewrite str_eqb_neq by by_evaluation. by rewrite str_eqb_refl.
Qed.

(** A failed publication costs no GPU job.  Publishing a batch that is ready either declares
    it published or raises and leaves it ready - whether the baseline changed, the upload or the
    verification failed, or the ledger could not be written - and the next processing of such a
    batch is the local publication again, nothing else. *)
Theorem failed_publication_is_retried_locally i s o s' :
  field_is i (u "state") (VStr (u "ready_to_publish")) s ->
  publish_batch cfg temporary_middle i s = (o, s') ->
  field_is i (u "state") (VStr (u "published")) s' \/
  (exists e, o = Raise e) /\ field_is i (u "state") (VStr (u "ready_to_publish")) s' /\
  forall fuel, process_batch cfg temporary_middle temporary_directory fuel i s' =
    publish_batch cfg temporary_middle i s'.
Proof.
  intros Hs E. destruct (publish_batch_state (c_run_id s) i s o s') as [[_ ?]|[? [_ ?]]]; [done|done|by left|].
  right. split_and!; [done..|]. intros. by apply process_ready.
Qed.
End Results.
