(* ===== verification/ControllerExamples.v ===== *)
(** A concrete site, data root and run: a batch that succeeds end to end, and one that shows how a
    submission that succeeded can be forgotten. *)
From Stdlib Require Import QArith.
From S2P Require Import Prelude Py PyStr PyText Fs Artifacts Atomic Protocol Transport ControllerPolicy Controller ControllerProofs ControllerSubmission ControllerResults.

#[local] Existing Instance example_runtime.
#[local] Existing Instance example_formats.

(** * A scripted site *)

(** The replies of the frontend, the trees downloads bring and the verdicts of the publication
    target; a script that is used up succeeds with nothing. *)
Record Script := {
  replies : list CompletedProcess;
  arrivals : list (list (path * node));
  verdicts : list (option exn) }.

Definition done_process : CompletedProcess := {| returncode := 0; stdout := Some []; stderr := None |}.
Definition prints (text : string) : CompletedProcess :=
  {| returncode := 0; stdout := Some (u text); stderr := None |}.
Definition exits (code : Z) : CompletedProcess :=
  {| returncode := code; stdout := None; stderr := None |}.

#[local] Instance scripted_site : Site Script := {|
  site_frontend _ w := (Ok (default done_process (head (replies w))),
    {| replies := tail (replies w); arrivals := arrivals w; verdicts := verdicts w |});
  site_upload _ _ _ w := (Ok tt, w);
  site_download _ w := (Ok (default [] (head (arrivals w))),
    {| replies := replies w; arrivals := tail (arrivals w); verdicts := verdicts w |});
  site_remove _ w := (Ok tt, w);
  hub_publish _ _ _ _ w := (Ok (u "commit"), w);
  hub_verify _ _ _ w := (match default None (head (verdicts w)) with Some e => Raise e | None => Ok tt end,
    {| replies := replies w; arrivals := arrivals w; verdicts := tail (verdicts w) |});
  site_timestamp w := (Ok (u "now"), w);
  site_new_run_id w := (Ok (u "run-1"), w);
  site_sleep _ w := (Ok tt, w) |}.

Definition temporary_dir (t : gmap path node) (dir : path) (prefix : str) : path :=
  child dir (prefix ++ long_middle t dir).

Lemma temporary_dir_inside t dir prefix : exists name, temporary_dir t dir prefix = child dir name.
Proof. by eexists. Qed.

(** * A data root with one finished stem *)

Definition root_dir : path := [u "d"].
Definition config : Config := {|
  data_root := root_dir; site := u "nancy"; queue := u "production"; gpu_model := u "L40S";
  repo_id := u "org/data"; repo_root := [u "repo"]; source_commit := u "c0ffee";
  limits := default_limits; poll_interval_s := 10 |}.

Definition text (s : string) : node := File (CBytes (u s)).
Definition json (d : pydict) : node := File (CJson (VDict d)).
Definition at_ (p : path) (rel : string) : path := sub p rel.

Definition local_files : gmap path node := list_to_map
  ([([u "d"], Dir); (at_ root_dir "cache", Dir); (at_ root_dir "processed_v2", Dir);
    ([u "repo"], Dir); (at_ [u "repo"] "src", Dir);
    (at_ root_dir "processed_v2/README.md", text "readme");
    (at_ root_dir "processed_v2/assets/v2_added_wikipedia_tag_documents.png", text "map");
    (at_ root_dir "processed_v2/manifests/processed_pbfs.json",
       json [(u "regions", VDict [(u "x", VDict [])])]);
    (at_ root_dir "processed_v2/wikipedia/sections/x.parquet", text "sections")] ++
   ((fun name => (at_ [u "repo"] name, text "code")) <$>
     ["pyproject.toml"; "uv.lock"; "README.md"; "LICENSE"; "assets/dataset_hero.png";
      "assets/dataset_hero_v2.png"; "src/a.py"; "scripts/grid5000_sentence_job.py"])).

Definition result_manifest : pydict :=
  ((fun key => (key, VStr (u "v"))) <$> MANIFEST_INVARIANT_KEYS) ++
  [(u "regions", VList [VDict [(u "stem", VStr (u "x")); (u "project", VStr (u "wikipedia"))]])].
Definition artifact (relative : string) (size : Z) (digest : str) : pyval :=
  VDict [(u "relative_path", VStr (u relative)); (u "size", VInt size); (u "sha256", VStr digest)].
Definition receipt (status : string) : pydict :=
  [(u "job_id", VStr (u "7")); (u "source_commit", VStr (u "c0ffee"));
   (u "model_id", VStr SAT_MODEL_ID); (u "model_revision", VStr DEFAULT_SAT_MODEL_REVISION);
   (u "stems", VList [VStr (u "x")]); (u "status", VStr (u status));
   (u "artifacts", VList
     [artifact "processed_v2/manifests/sentence_splitting.json" 0 [];
      artifact "processed_v2/wikipedia/sentences/x.parquet" 3 (reverse (u "out"))])].
Definition result_files (status : string) : list (path * node) :=
  [(at_ [] "receipt.json", json (receipt status)); (at_ [] "data", Dir);
   (at_ [] "data/processed_v2/manifests/sentence_splitting.json", json result_manifest);
   (at_ [] "data/processed_v2/wikipedia/sentences/x.parquet", text "out")].

Definition good_script : Script := {|
  replies := [done_process; done_process; prints "OAR_JOB_ID=7"; done_process;
              prints "7: Running"; prints "7: Terminated"];
  arrivals := [result_files "succeeded"]; verdicts := [] |}.

Definition fresh (w : Script) : Controller Script := mkController (mkFs local_files []) w None None None [].

Abbreviation example_run w := (run config long_middle temporary_dir 5 (fresh w)).
Abbreviation example_process s := (process_batch config long_middle temporary_dir 5 0 s).
Definition initialized (w : Script) : Controller Script := (initialize config long_middle (fresh w)).2.
(** A field of a batch, computed. *)
Definition field_of (i : nat) (key : string) (s : Controller Script) : option pyval :=
  match c_ledger s with
  | Some l => match batches_of l !! i with Some (VDict b) => dget (u key) b | _ => None end
  | None => None
  end.

Lemma field_of_is i key v s : field_of i key s = Some v -> field_is i (u key) v s.
Proof.
  unfold field_of. destruct (c_ledger s) as [l|] eqn:El; [|done].
  destruct (batches_of l !! i) as [[]|] eqn:Eb; try done. intros. eexists. split; [by exists l|done].
Qed.

Definition returned {A} (o : outcome A) : bool := match o with Ok _ => true | Raise _ => false end.
Lemma returned_pair {A S} (r : outcome A * S) : returned r.1 = true -> exists a, r = (Ok a, r.2).
Proof. destruct r as [[a|e] s]; [by exists a|done]. Qed.

(** * The theorems on this run *)

Lemma good_run_returns : returned (example_run good_script).1 = true.
Proof. vm_compute. reflexivity. Qed.

Lemma run_returns_verified_batches_witness :
  exists l, example_run good_script = (Ok l, (example_run good_script).2) /\
    dget_none (u "cleanup_state") l = VStr (u "complete").
Proof.
  destruct (returned_pair _ good_run_returns) as [l E]. exists l. split; [exact E|].
  destruct (run_returns_verified_batches _ _ _ _ _ _ _ E) as (l0 & s0 & _ & Hc & _). exact Hc.
Defined.

Lemma run_footprint_witness :
  let s' := (example_run good_script).2 in
  length (c_events s') = 14%nat /\
  exists new, c_events s' = [] ++ new /\ Forall (fun e => running (c_run_id s') e.1) new.
Proof.
  split; [vm_compute; reflexivity|].
  exact (run_footprint config long_middle temporary_dir 5 (fresh good_script) _ _
    (surjective_pairing (example_run good_script))).
Defined.

Lemma job_sent_at_most_once_witness :
  let s' := (example_process (initialized good_script)).2 in
  length (submissions (c_events s')) = 1%nat /\
  exists new, c_events s' = c_events (initialized good_script) ++ new /\
    (length (submissions new) <= 1)%nat.
Proof.
  split; [vm_compute; reflexivity|].
  destruct (job_sent_at_most_once config long_middle temporary_dir temporary_name_fresh
    temporary_dir_inside 5 0 (initialized good_script) _ _
    (surjective_pairing (example_process (initialized good_script)))) as (new & Hn & Hlen & _).
  exists new. split; [exact Hn|exact Hlen].
Defined.

Definition submitted : Controller Script :=
  (submit_batch config long_middle temporary_dir 0 (with_current 0 (initialized good_script))).2.
Abbreviation interrupted := (handle_interrupt config long_middle submitted).

Lemma interrupt_returns : returned interrupted.1 = true.
Proof. vm_compute. reflexivity. Qed.
Lemma submitted_current : c_current submitted = Some 0%nat.
Proof. vm_compute. reflexivity. Qed.
Lemma submitted_state : field_of 0 "state" submitted = Some (VStr (u "running")).
Proof. vm_compute. reflexivity. Qed.

Lemma interrupted_batch_is_stuck_witness :
  exists e, example_process interrupted.2 = (Raise e, interrupted.2).
Proof.
  destruct (returned_pair _ interrupt_returns) as [[] E].
  destruct (field_of_is _ _ _ _ submitted_state) as (b & Hb & Hs).
  refine (proj2 (interrupted_batch_is_stuck config long_middle temporary_dir 5 0 submitted _ b
    submitted_current Hb _ E)).
  unfold dget_none. rewrite Hs. vm_compute. reflexivity.
Defined.

Definition unverified_script : Script :=
  {| replies := replies good_script; arrivals := arrivals good_script; verdicts := [Some os_error] |}.
Definition unverified : Controller Script := (example_run unverified_script).2.

Lemma unverified_state : field_of 0 "state" unverified = Some (VStr (u "ready_to_publish")).
Proof. vm_compute. reflexivity. Qed.

Lemma failed_publication_is_retried_locally_witness :
  let r := publish_batch config long_middle 0 unverified in
  field_is 0 (u "state") (VStr (u "published")) r.2 \/
  (exists e, r.1 = Raise e) /\ field_is 0 (u "state") (VStr (u "ready_to_publish")) r.2 /\
  forall fuel, process_batch config long_middle temporary_dir fuel 0 r.2 =
    publish_batch config long_middle 0 r.2.
Proof.
  exact (failed_publication_is_retried_locally config long_middle temporary_dir 0 _ _ _
    (field_of_is _ _ _ _ unverified_state)
    (surjective_pairing (publish_batch config long_middle 0 unverified))).
Defined.

(** The result tree as a download leaves it. *)
Definition received_dir : path := at_ root_dir "cache/in".
Definition received_files (status : string) : gmap path node :=
  list_to_map ((fun pn : path * node => (received_dir ++ pn.1, pn.2)) <$> result_files status) ∪ local_files.
Definition example_batch : pydict := [(u "stems", VList [VStr (u "x")])].
Abbreviation example_import := (import_success config long_middle example_batch
  (child received_dir (u "data")) (receipt "succeeded") (mkFs (received_files "succeeded") [])).

Lemma import_returns : returned example_import.1 = true.
Proof. vm_compute. reflexivity. Qed.

Lemma import_verifies_before_installing_witness :
  exists artifacts stems, receipt_artifacts (receipt "succeeded") = Ok artifacts /\
    batch_stems example_batch = Ok stems.
Proof.
  destruct (returned_pair _ import_returns) as [a E].
  destruct (import_verifies_before_installing _ _ _ _ _ _ _ _ E)
    as [[[e He] _]|(artifacts & st & inc & Ha & Hst & _)]; [discriminate He|].
  exists artifacts, st. split; assumption.
Defined.

(** * A forgotten submission *)

(** [oarsub] queues job 7; the policy check that follows it fails. *)
Definition over_quota_script : Script := {|
  replies := [done_process; done_process; prints "OAR_JOB_ID=7"; exits 1]; arrivals := []; verdicts := [] |}.
(** The controller is restarted on the same disk, with a fresh script. *)
Definition restarted : Controller Script :=
  mkController (c_fs (example_run over_quota_script).2) good_script None None None [].

Definition deletes (e : event) : bool :=
  match e with EFrontend args => bool_decide (command "oardel" args) | _ => false end.

(** A queued job can be forgotten and its batch computed twice.  If the policy check after a
    successful [oarsub] fails, the batch is recorded as failed although its job is queued; the run
    does not delete job 7, and a restarted controller submits the batch a second time and finishes
    without ever deleting the first job. *)
Theorem policy_failure_forgets_queued_job :
  let s := (example_run over_quota_script).2 in
  let r := run config long_middle temporary_dir 5 restarted in
  field_of 0 "state" s = Some (VStr (u "failed")) /\
  field_of 0 "oar_job_id" s = Some (VStr (u "7")) /\
  length (submissions (c_events s)) = 1%nat /\ length (submissions (c_events r.2)) = 1%nat /\
  existsb (fun e => deletes e.1) (c_events s ++ c_events r.2) = false /\
  returned r.1 = true.
Proof. split_and!; vm_compute; reflexivity. Qed.
