(* ===== verification/Retry.v ===== *)
(** Retry with backoff ([utils/retry.py]): the classification of failures and the retry loop.

    The callable, the jitter, the cancellation event and its timed wait belong to the caller's
    world [W]; the class [RetryEnv] collects the last three. *)
From Stdlib Require Import QArith Lqa Qpower.
From S2P Require Import Prelude Py.

(** * Which failures are worth retrying *)

Definition TRANSIENT_HTTP_STATUS_CODES : list Z :=
  [408; 425; 429; 500; 502; 503; 504; 520; 521; 522; 523; 524].

(** [ECONNABORTED, ECONNREFUSED, ECONNRESET, EHOSTUNREACH, ENETDOWN, ENETRESET, ENETUNREACH,
    ETIMEDOUT] with their Linux numbers. *)
Definition TRANSIENT_ERRNOS : list Z := [103; 111; 104; 113; 100; 102; 101; 110].

Definition MAX_CAUSE_DEPTH : nat := 8.

(** [current.__cause__ or current.__context__]. *)
Definition next_cause (e : exn) : option exn :=
  match exn_cause e with Some c => Some c | None => exn_context e end.

Fixpoint cause_chain_from (n : nat) (current : option exn) : list exn :=
  match n, current with
  | S n, Some e => e :: cause_chain_from n (next_cause e)
  | _, _ => []
  end.

(** [_cause_chain]. *)
Definition cause_chain (e : exn) : list exn := cause_chain_from MAX_CAUSE_DEPTH (Some e).

(** [_has_certificate_error]. *)
Definition has_certificate_error (e : exn) : bool :=
  existsb (fun c => isinstance c CSSLCertVerificationError) (cause_chain e).

Definition is_transient_http_error (e : exn) : bool :=
  match exn_code e with
  | Some c => bool_decide (c ∈ TRANSIENT_HTTP_STATUS_CODES)
  | None => false
  end.

Definition is_transient_exception (e : exn) : bool :=
  existsb (isinstance e)
    [CGaiError; CTimeoutError; CConnectionError; CHttpxTimeout; CHttpxNetworkError;
     CHttpxProxyError; CHttpxRemoteProtocolError] ||
  (isinstance e COSError &&
   match exn_errno e with Some n => bool_decide (n ∈ TRANSIENT_ERRNOS) | None => false end).

(** [is_transient_network_error]; the recursion is [_is_transient_url_error]'s, on the [reason]
    of a [URLError] when that is an exception. *)
Fixpoint is_transient_network_error (e : exn) : bool :=
  if has_certificate_error e then false
  else if isinstance e CHTTPError then is_transient_http_error e
  else if isinstance e CContentTooShortError then true
  else if isinstance e CURLError
  then match e with
       | MkExn _ _ _ _ (Some reason) _ _ => is_transient_network_error reason
       | _ => false
       end
  else is_transient_exception e.

Definition is_transient_failure (e : exn) (status_code : option Z) : bool :=
  match status_code with
  | Some c => bool_decide (c ∈ TRANSIENT_HTTP_STATUS_CODES)
  | None => existsb is_transient_network_error (cause_chain e)
  end.

(** [_retry_error_kind]. *)
Definition retry_error_kind (e : exn) : pymsg :=
  if isinstance e CHTTPError
  then [FStr (u "HTTP "); FInt (default 0 (exn_code e))]
  else
    match isinstance e CURLError, exn_reason e with
    | true, Some reason => [FStr (class_name (exn_cls reason))]
    | _, _ => [FStr (class_name (exn_cls e))]
    end.

(** The warning that [transient_retry_log_callback]'s callback emits for an attempt, if any. *)
Definition on_retry_warning (context : str) (attempt : Z) (e : exn) (delay : Q)
    : option (str * pymsg * Z * Q) :=
  if negb (attempt =? 1) && negb (attempt mod 30 =? 0) then None
  else Some (context, retry_error_kind e, attempt, delay).

(** * The retry loop *)

(** The world around the loop: the process-wide cancellation event and the jitter. *)
Class RetryEnv (W : Type) := {
  cancellation_is_set : W -> bool;
  (** [_RETRY_CANCELLATION.wait(delay)]. *)
  cancellation_wait : Q -> PyM W bool;
  (** [random.uniform(a, b)]. *)
  uniform : Q -> Q -> PyM W Q }.

Section Loop.
Context {W T : Type} `{!RetryEnv W}.
Variable func : PyM W T.
Variables (attempts : option Z) (base_delay max_delay : Q).
Variable retry_on : list exn_class.
Variable should_retry : option (exn -> bool).
Variable on_retry : option (Z -> exn -> Q -> PyM W unit).

Definition validate_retry_arguments : outcome unit :=
  match attempts with
  | Some n => raise_if (n <? 1) (exc CValueError (msg "attempts must be >= 1"))
  | None => Ok tt
  end.

Definition raise_if_cancelled : PyM W unit := fun w =>
  if cancellation_is_set w then (Raise (exc CRetryCancelled []), w) else (Ok tt, w).

Definition wait_for_retry (delay : Q) : PyM W unit :=
  cancelled <- cancellation_wait delay;;
  if cancelled then throw (exc CRetryCancelled []) else ret tt.

Definition should_reraise (e : exn) : bool :=
  match should_retry with Some p => negb (p e) | None => false end.

Definition is_final_attempt (attempt : Z) : bool :=
  match attempts with Some n => attempt =? n | None => false end.

(** [_run_attempt]: [inl v] for success, [inr e] for a failure to retry. *)
Definition run_attempt : PyM W (T + exn) :=
  try_except (v <- func;; ret (inl v))
    (fun e => if existsb (isinstance e) retry_on
              then Some (if should_reraise e then throw e else ret (inr e))
              else None).

Definition schedule_retry (attempt : Z) (e : exn) (backoff_delay : Q) : PyM W Q :=
  if is_final_attempt attempt then ret backoff_delay
  else
    jitter <- uniform 0 base_delay;;
    let delay := (backoff_delay + jitter)%Q in
    match on_retry with Some f => f attempt e delay | None => ret tt end;;
    wait_for_retry delay;;
    ret (fmin (backoff_delay * 2) max_delay).

Definition next_retry_delay (attempt : Z) (e : exn) (backoff_delay : Q) : PyM W (option Q) :=
  if is_final_attempt attempt then ret None
  else d <- schedule_retry attempt e backoff_delay;; ret (Some d).

(** How the [for] loop ends: [return], [break], or the iterator running out. *)
Inductive loop_exit := LReturn (v : T) | LBreak (last : option exn) | LExhausted (last : option exn).

Fixpoint retry_loop (numbers : list Z) (backoff_delay : Q) (last_exc : option exn)
    : PyM W loop_exit :=
  match numbers with
  | [] => ret (LExhausted last_exc)
  | attempt :: numbers =>
      raise_if_cancelled;;
      result <- run_attempt;;
      match result with
      | inl v => ret (LReturn v)
      | inr e =>
          next <- next_retry_delay attempt e backoff_delay;;
          match next with
          | None => ret (LBreak (Some e))
          | Some d => retry_loop numbers d (Some e)
          end
      end
  end.

(** The end of [_run_retry_loop]. *)
Definition loop_end (last_exc : option exn) : PyM W T :=
  match last_exc with
  | None => throw (exc CRuntimeError (msg "Retry loop finished without an attempt"))
  | Some e => throw e
  end.

(** [_run_retry_loop] over the attempt numbers [numbers]: [None] when an unbounded run needs
    more than these. *)
Definition after_loop (x : loop_exit) : PyM W (option T) :=
  match x with
  | LReturn v => ret (Some v)
  | LBreak last => v <- loop_end last;; ret (Some v)
  | LExhausted last =>
      match attempts with
      | Some _ => v <- loop_end last;; ret (Some v)
      | None => ret None
      end
  end.

Definition run_retry_loop (numbers : list Z) : PyM W (option T) :=
  x <- retry_loop numbers (fmin base_delay max_delay) None;;
  after_loop x.

(** [with_retries]: [fuel] bounds the attempts of an unbounded run only. *)
Definition with_retries (fuel : nat) : PyM W (option T) :=
  lift validate_retry_arguments;;
  run_retry_loop (match attempts with
                  | Some n => seqZ 1 n
                  | None => seqZ 1 (Z.of_nat fuel)
                  end).
End Loop.

(** * Failure classification *)

Lemma cause_chain_from_length n e : (length (cause_chain_from n e) <= n)%nat.
Proof.
  revert e. induction n as [|n IH]; intros [e|]; simpl; try lia.
  specialize (IH (next_cause e)). lia.
Qed.

Lemma cause_chain_from_certificate n (e : option exn) m :
  (n <= m)%nat ->
  existsb (fun c => isinstance c CSSLCertVerificationError) (cause_chain_from n e) = true ->
  existsb (fun c => isinstance c CSSLCertVerificationError) (cause_chain_from m e) = true.
Proof.
  revert e m. induction n as [|n IH]; intros [e|] [|m] Hle; simpl; try done; [lia|].
  rewrite !orb_true_iff. intros [H|H]; [by left|right]. apply IH; [lia|done].
Qed.

(** A status code settles the question on its own; without one, an error whose own class is a
    certificate failure is never transient, however it was wrapped by a [URLError]. *)
Lemma certificate_error_not_transient e :
  isinstance e CSSLCertVerificationError = true -> is_transient_network_error e = false.
Proof.
  intros H. destruct e as [c m er co re ca cx].
  assert (Hc : has_certificate_error (MkExn c m er co re ca cx) = true).
  { unfold has_certificate_error, cause_chain, MAX_CAUSE_DEPTH. cbn [cause_chain_from existsb].
    by rewrite H. }
  cbn [is_transient_network_error]. by rewrite Hc.
Qed.

(** The chain seen from an element of the chain is the rest of the chain. *)
Lemma cause_chain_from_suffix n e l1 x l2 :
  cause_chain_from n e = l1 ++ x :: l2 ->
  cause_chain_from (n - length l1) (Some x) = x :: l2.
Proof.
  revert n e. induction l1 as [|y l1 IH]; intros [|n] [e|] H; simplify_eq/=; try done.
  by eapply IH.
Qed.

(** A TLS certificate failure at the root of a cause chain makes the whole failure
    permanent: no exception raised from it, of whatever class and at whatever distance inside
    the inspected chain, is retried (unless a response supplies a status code). *)
Theorem certificate_failure_is_permanent e pre c :
  cause_chain e = pre ++ [c] -> isinstance c CSSLCertVerificationError = true ->
  is_transient_failure e None = false.
Proof.
  intros Hchain Hc. unfold is_transient_failure. apply not_true_iff_false.
  rewrite existsb_exists. intros (x & Hin & Hx). rewrite Hchain in Hin.
  apply list_elem_of_In, list_elem_of_split in Hin as (l1 & l2 & Hl).
  assert (Hcert : has_certificate_error x = true).
  { unfold has_certificate_error, cause_chain.
    apply (cause_chain_from_certificate (MAX_CAUSE_DEPTH - length l1)); [lia|].
    assert (Hs := cause_chain_from_suffix MAX_CAUSE_DEPTH (Some e) l1 x l2).
    rewrite Hs by (unfold cause_chain in Hchain; congruence).
    apply existsb_exists. exists c. split; [|done].
    apply list_elem_of_In.
    destruct l2 as [|y l2 _] using rev_ind.
    - apply app_inj_tail in Hl as [_ ->]. left.
    - rewrite app_comm_cons, app_assoc in Hl. apply app_inj_tail in Hl as [_ ->].
      right. apply elem_of_app. right. left. }
  destruct x; cbn [is_transient_network_error] in Hx. by rewrite Hcert in Hx.
Qed.

(** * The loop in a scripted world *)

(** A world that answers the loop from a script, an arbitrary one: the outcomes of the successive
    calls, the fractions the jitter draws, and whether each wait is cut short by a cancellation;
    it logs the calls and the waits. *)
Inductive retry_event := ECall | EWait (delay : Q).

Record Script (T : Type) := mkScript {
  sc_outcomes : list (outcome T);
  sc_fractions : list Q;
  sc_waits : list bool;
  sc_cancelled : bool;
  sc_log : list retry_event }.
Arguments mkScript {T} _ _ _ _ _.
Arguments sc_outcomes {T} _.
Arguments sc_fractions {T} _.
Arguments sc_waits {T} _.
Arguments sc_cancelled {T} _.
Arguments sc_log {T} _.

#[export] Instance script_env T : RetryEnv (Script T) := {
  cancellation_is_set := sc_cancelled;
  cancellation_wait delay := fun w =>
    let cut := default false (head (sc_waits w)) in
    (Ok cut, mkScript (sc_outcomes w) (sc_fractions w) (tail (sc_waits w))
               (sc_cancelled w || cut) (sc_log w ++ [EWait delay]));
  uniform a b := fun w =>
    (Ok (a + (b - a) * default 0 (head (sc_fractions w)))%Q,
     mkScript (sc_outcomes w) (tail (sc_fractions w)) (sc_waits w) (sc_cancelled w) (sc_log w)) }.

(** The callable of a script; past the script's end it fails with an error that is not retried. *)
Definition scripted {T} : PyM (Script T) T := fun w =>
  match sc_outcomes w with
  | r :: rs => (r, mkScript rs (sc_fractions w) (sc_waits w) (sc_cancelled w) (sc_log w ++ [ECall]))
  | [] => (Raise (exc CKeyboardInterrupt []), w)
  end.

Section Reference.
Context {T : Type}.
Variables (base_delay max_delay : Q) (retry_on : list exn_class)
  (should_retry : option (exn -> bool)).

(** Whether an outcome ends the loop before the attempts are used up. *)
Definition decisive (r : outcome T) : bool :=
  match r with
  | Ok _ => true
  | Raise e => negb (existsb (isinstance e) retry_on) || should_reraise should_retry e
  end.

(** The undisturbed wait before attempt [k + 2] of an undisturbed run: doubled and capped. *)
Fixpoint backoff (k : nat) : Q :=
  match k with
  | O => fmin base_delay max_delay
  | S k => fmin (backoff k * 2) max_delay
  end.

(** The reference: among at most [n] outcomes, the first decisive one or else the last, and
    the log of the calls and jittered waits up to it; [k] counts the waits so far. *)
Fixpoint reference (n k : nat) (rs : list (outcome T)) (fs : list Q)
    : option (outcome T) * list retry_event :=
  match n, rs with
  | S n, r :: rs =>
      if decisive r then (Some r, [ECall])
      else match n with
           | O => (Some r, [ECall])
           | S _ =>
               let '(x, log) := reference n (S k) rs (tail fs) in
               (x, ECall :: EWait (backoff k + (0 + (base_delay - 0) * default 0 (head fs)))%Q :: log)
           end
  | _, _ => (None, [])
  end.
End Reference.

Lemma run_attempt_scripted {T} retry_on should_retry r rs fs ws log :
  run_attempt (T := T) scripted retry_on should_retry (mkScript (r :: rs) fs ws false log) =
  (if decisive retry_on should_retry r
   then match r with Ok v => Ok (inl v) | Raise e => Raise e end
   else match r with Ok v => Ok (inl v) | Raise e => Ok (inr e) end,
   mkScript rs fs ws false (log ++ [ECall])).
Proof.
  unfold run_attempt, try_except, scripted, pbind, ret. simpl.
  destruct r as [v|e]; simpl; [done|].
  destruct (existsb (isinstance e) retry_on); simpl; [|done].
  by destruct (should_reraise should_retry e).
Qed.

Section Correctness.
Context {T : Type}.
Variables (base_delay max_delay : Q) (retry_on : list exn_class)
  (should_retry : option (exn -> bool)).
Abbreviation reference := (reference base_delay max_delay retry_on should_retry).
Abbreviation backoff := (backoff base_delay max_delay).
Abbreviation decisive := (decisive retry_on should_retry).

(** The result of a run that ended with outcome [x]. *)
Definition outcome_of (x : option (outcome T)) : outcome (option T) :=
  match x with Some (Ok v) => Ok (Some v) | Some (Raise e) => Raise e | None => Ok None end.

Definition loop (attempts : option Z) (numbers : list Z) (d : Q) (last : option exn)
    : PyM (Script T) (option T) :=
  x <- retry_loop scripted attempts base_delay max_delay retry_on should_retry None numbers d last;;
  after_loop attempts x.

(** One iteration of the loop in a scripted world without cancellation. *)
Lemma loop_step attempts a numbers d last r rs fs log :
  loop attempts (a :: numbers) d last (mkScript (r :: rs) fs [] false log) =
  if decisive r || is_final_attempt attempts a
  then (outcome_of (Some r), mkScript rs fs [] false (log ++ [ECall]))
  else loop attempts numbers (fmin (d * 2) max_delay) (match r with Raise e => Some e | Ok _ => last end)
         (mkScript rs (tail fs) [] false
            (log ++ [ECall; EWait (d + (0 + (base_delay - 0) * default 0 (head fs)))%Q])).
Proof.
  unfold loop at 1. cbn [retry_loop].
  unfold pbind at 1 2. unfold raise_if_cancelled. cbn [cancellation_is_set script_env sc_cancelled].
  unfold pbind at 1. rewrite run_attempt_scripted.
  destruct r as [v|e]; [done|]. destruct (decisive (Raise e)) eqn:Hd; [done|].
  unfold next_retry_delay, schedule_retry.
  destruct (is_final_attempt attempts a) eqn:Hf; [done|].
  unfold loop, pbind, wait_for_retry, pbind, ret. cbn.
  by rewrite <- app_assoc.
Qed.

Lemma reference_cons n k (r : outcome T) rs fs :
  reference (S n) k (r :: rs) fs =
  if decisive r then (Some r, [ECall])
  else match n with
       | O => (Some r, [ECall])
       | S _ =>
           let '(x, log) := reference n (S k) rs (tail fs) in
           (x, ECall :: EWait (backoff k + (0 + (base_delay - 0) * default 0 (head fs)))%Q :: log)
       end.
Proof. reflexivity. Qed.

(** The loop agrees with the reference from any point of a bounded run on. *)
Lemma bounded_loop_reference m : forall k rs fs log last,
  (m < length rs)%nat ->
  let w' := loop (Some (Z.of_nat (k + S m))) (seqZ (Z.of_nat k + 1) (Z.of_nat (S m)))
              (backoff k) last (mkScript rs fs [] false log) in
  w'.1 = outcome_of (reference (S m) k rs fs).1 /\
  sc_log w'.2 = log ++ (reference (S m) k rs fs).2.
Proof.
  induction m as [|m IH]; intros k rs fs log last Hlen;
    (destruct rs as [|r rs]; [simpl in Hlen; lia|]);
    rewrite (seqZ_cons _ (Z.of_nat (S _))) by lia; rewrite reference_cons;
    cbv zeta; rewrite loop_step; unfold is_final_attempt.
  - rewrite (proj2 (Z.eqb_eq _ _)), orb_true_r by lia. by destruct (decisive r).
  - rewrite (proj2 (Z.eqb_neq _ _)), orb_false_r by lia. destruct (decisive r); [done|].
    simpl in Hlen.
    edestruct (IH (S k) rs (tail fs)) as [IH1 IH2]; [lia|].
    replace (k + S (S m))%nat with (S k + S m)%nat by lia.
    replace (Z.succ (Z.of_nat k + 1)) with (Z.of_nat (S k) + 1) by lia.
    replace (Z.pred (Z.of_nat (S (S m)))) with (Z.of_nat (S m)) by lia.
    destruct (reference (S m) (S k) rs (tail fs)) as [x l].
    split; [exact IH1|]. cbn [snd] in *. etrans; [exact IH2|]. by rewrite <- app_assoc.
Qed.

(** An unbounded run agrees with the reference as soon as its script has a decisive outcome. *)
Lemma unbounded_loop_reference m : forall k rs fs log last,
  existsb decisive (take m rs) = true ->
  let w' := loop None (seqZ (Z.of_nat k + 1) (Z.of_nat m)) (backoff k) last
              (mkScript rs fs [] false log) in
  w'.1 = outcome_of (reference m k rs fs).1 /\
  sc_log w'.2 = log ++ (reference m k rs fs).2.
Proof.
  induction m as [|m IH]; intros k rs fs log last Hd; [done|].
  destruct rs as [|r rs]; [done|]. cbn [take existsb] in Hd.
  rewrite (seqZ_cons _ (Z.of_nat (S _))) by lia. rewrite reference_cons.
  cbv zeta. rewrite loop_step. cbn [is_final_attempt]. rewrite orb_false_r.
  destruct (decisive r); [done|]. simpl in Hd.
  edestruct (IH (S k) rs (tail fs)) as [IH1 IH2]; [done|].
  destruct m as [|m]; [done|].
  replace (Z.succ (Z.of_nat k + 1)) with (Z.of_nat (S k) + 1) by lia.
  replace (Z.pred (Z.of_nat (S (S m)))) with (Z.of_nat (S m)) by lia.
  destruct (reference (S m) (S k) rs (tail fs)) as [x l].
  split; [exact IH1|]. cbn [snd] in *. etrans; [exact IH2|]. by rewrite <- app_assoc.
Qed.
End Correctness.

(** C7: [with_retries] against its reference, for every sequence of outcomes of the callable
    and every jitter.  A bounded call ends with the first decisive outcome (a success, an
    exception outside [retry_on] or one [should_retry] declines) among its [n] attempts, or with
    the [n]-th failure itself; it calls the function once per attempt and waits between attempts
    only, [backoff] plus jitter.  An unbounded call ends likewise as soon as the script holds a
    decisive outcome. *)
Theorem with_retries_reference {T} (n : nat) base_delay max_delay retry_on should_retry
    (rs : list (outcome T)) fs :
  (0 < n <= length rs)%nat ->
  let run attempts := with_retries scripted attempts base_delay max_delay retry_on should_retry
                        None n (mkScript rs fs [] false []) in
  let ref := reference base_delay max_delay retry_on should_retry n 0 rs fs in
  (run (Some (Z.of_nat n))).1 = outcome_of ref.1 /\
  sc_log (run (Some (Z.of_nat n))).2 = ref.2 /\
  (existsb (decisive retry_on should_retry) (take n rs) = true ->
   (run None).1 = outcome_of ref.1 /\ sc_log (run None).2 = ref.2).
Proof.
  intros Hn run ref. destruct n as [|n]; [lia|].
  pose proof (bounded_loop_reference base_delay max_delay retry_on should_retry n 0 rs fs [] None
                ltac:(lia)) as [H1 H2].
  pose proof (unbounded_loop_reference base_delay max_delay retry_on should_retry (S n) 0 rs fs [] None)
    as H3.
  assert (E : forall w : Script T, with_retries scripted (Some (Z.of_nat (S n))) base_delay max_delay retry_on
      should_retry None (S n) w = loop base_delay max_delay retry_on should_retry
      (Some (Z.of_nat (0 + S n))) (seqZ (Z.of_nat 0 + 1) (Z.of_nat (S n)))
      (backoff base_delay max_delay 0) None w).
  { intros w. unfold with_retries, validate_retry_arguments, pbind at 1, lift.
    by rewrite (proj2 (Z.ltb_ge _ _)) by lia. }
  unfold run. rewrite E. split_and!; [exact H1|exact H2|exact H3].
Qed.

(** The documented schedule.  The wait after the [k+1]-th failure is
    [min(base_delay * 2 ** k, max_delay)] plus jitter, although the code only doubles and caps
    the previous delay; it never exceeds [max_delay] and never decreases. *)
Theorem backoff_schedule base_delay max_delay k :
  (0 <= base_delay)%Q -> (0 <= max_delay)%Q ->
  (backoff base_delay max_delay k == fmin (base_delay * 2 ^ Z.of_nat k) max_delay)%Q /\
  (backoff base_delay max_delay k <= backoff base_delay max_delay (S k) <= max_delay)%Q.
Proof.
  intros Hb Hm.
  assert (Hpow : forall j, (1 <= 2 ^ Z.of_nat j)%Q).
  { intros j. induction j as [|j IH]; [unfold Qle; simpl; lia|].
    rewrite Nat2Z.inj_succ, <- Z.add_1_r, Qpower_plus by discriminate. simpl. lra. }
  assert (Heq : forall j, (backoff base_delay max_delay j ==
                           fmin (base_delay * 2 ^ Z.of_nat j) max_delay)%Q).
  { intros j. induction j as [|j IH]; cbn [backoff].
    - assert (E : (base_delay * 2 ^ Z.of_nat 0 == base_delay)%Q) by (simpl; lra).
      revert E. generalize (base_delay * 2 ^ Z.of_nat 0)%Q. intros. qorder.
    - assert (E : (base_delay * 2 ^ Z.of_nat (S j) == base_delay * 2 ^ Z.of_nat j * 2)%Q).
      { rewrite Nat2Z.inj_succ, <- Z.add_1_r, Qpower_plus by discriminate. simpl. lra. }
      specialize (Hpow j).
      assert (0 <= base_delay * 2 ^ Z.of_nat j)%Q by nra. revert IH E H.
      generalize (base_delay * 2 ^ Z.of_nat j)%Q (base_delay * 2 ^ Z.of_nat (S j))%Q
        (backoff base_delay max_delay j). intros. qorder. }
  assert (Hpos : (0 <= backoff base_delay max_delay k)%Q).
  { rewrite Heq. specialize (Hpow k). assert (0 <= base_delay * 2 ^ Z.of_nat k)%Q by nra.
    revert H. generalize (base_delay * 2 ^ Z.of_nat k)%Q. intros. qorder. }
  assert (Hle : (backoff base_delay max_delay k <= max_delay)%Q).
  { rewrite Heq. generalize (base_delay * 2 ^ Z.of_nat k)%Q. intros. qorder. }
  split; [apply Heq|]. cbn [backoff].
  revert Hpos Hle. generalize (backoff base_delay max_delay k). intros. qorder.
Qed.

(** * Examples *)

Definition example_certificate : exn := exc CSSLCertVerificationError (msg "certificate has expired").

Lemma certificate_failure_is_permanent_witness :
  is_transient_failure (exc_from CConnectionError [] example_certificate) None = false.
Proof.
  apply (certificate_failure_is_permanent _ [exc_from CConnectionError [] example_certificate]
           example_certificate); vm_compute; reflexivity.
Defined.

(** A call that times out once and then succeeds. *)
Definition example_outcomes : list (outcome Z) := [Raise (exc CTimeoutError []); Ok 5].

Lemma with_retries_reference_witness :
  let w := with_retries scripted (Some 2) 1 10 [COSError] None None 2
             (mkScript example_outcomes [1 # 2]%Q [] false []) in
  w.1 = Ok (Some 5) /\ length (sc_log w.2) = 3%nat.
Proof.
  intros w.
  destruct (with_retries_reference 2 1 10 [COSError] None example_outcomes [1 # 2]%Q) as (H1 & H2 & _).
  - simpl. lia.
  - unfold w. change 2 with (Z.of_nat 2). rewrite H1, H2. split; vm_compute; reflexivity.
Defined.

Lemma backoff_schedule_witness : (backoff 2 60 3 == 16)%Q /\ (backoff 2 60 3 <= backoff 2 60 4 <= 60)%Q.
Proof.
  destruct (backoff_schedule 2 60 3) as [H1 H2]; [discriminate..|]. split; [|exact H2].
  rewrite H1. vm_compute. reflexivity.
Defined.
