(* ===== verification/Sentences.v ===== *)
(** Sentence-row construction and SaT language routing ([v2/sentence_logic.py]), with the text
    measures of [enrichment/text_cleaning.py] and the identifiers of [domain/ids.py] and
    [augmentation/models.py] it uses. *)
From stdpp Require Import sorting.
From S2P Require Import Prelude Py PyStr.

Section Sentences.
Context {RT : Runtime}.

(** * Identifiers and measures *)

(** [domain/ids.py: content_hash]. *)
Definition content_hash (text : str) : outcome str :=
  bytes ← utf8_encode text; mret (sha256_hexdigest bytes).

(** [augmentation/models.py: stable_id], its parts already passed through [str]. *)
Definition stable_id (parts : list str) : outcome str :=
  bytes ← utf8_encode (join [31%N] parts); mret (sha256_hexdigest bytes).

(** [domain/ids.py: polygon_id] and [article_id]. *)
Definition polygon_id (source_pbf_stem osm_type : str) (osm_id : Z) : str :=
  source_pbf_stem ++ u ":" ++ osm_type ++ u ":" ++ str_of_Z osm_id.
Definition article_id (wikidata language : str) (page_id revision_id : Z) : str :=
  wikidata ++ u ":" ++ language ++ u ":" ++ str_of_Z page_id ++ u ":" ++ str_of_Z revision_id.

Definition count_words (text : str) : Z :=
  match text with [] => 0 | _ => len (split_words text) end.
Definition estimate_tokens (text : str) : Z :=
  match text with [] => 0 | _ => Z.max 1 (len text / 4) end.

(** * Rows *)

Definition SECTION_CONTEXT_COLUMNS : list str :=
  [u "section_id"; u "document_id"; u "article_id"; u "wikidata"; u "project"; u "language";
   u "site"; u "page_id"; u "revision_id"; u "section_index"; u "heading"; u "anchor"; u "level";
   u "parent_section_id"; u "section_path"; u "license"; u "attribution"].

(** [SegmentationStamp]. *)
Record SegmentationStamp := {
  segmenter : str;
  segmenter_version : str;
  st_model_id : str;
  segmentation_status : str }.

(** [_language] and [_text]. *)
Definition language_of (section : pydict) : str := str_or_empty (dget_none (u "language") section).
Definition text_of (section : pydict) : str :=
  match dget_none (u "text") section with VStr s => s | v => str_or_empty v end.

(** [_sentence_row]. *)
Definition sentence_row (section : pydict) (sentence_index start_char end_char : Z) (text : str)
    (stamp : SegmentationStamp) : outcome pydict :=
  let source_text := text_of section in
  let recorded := dget_none (u "content_hash") section in
  source_content_hash ←
    (if py_truthy recorded then mret (py_str recorded) else content_hash source_text);
  let row := (fun column => (column, dget_none column section)) <$> SECTION_CONTEXT_COLUMNS in
  sentence_id ← stable_id
    [u "v2-sentence"; str_or_empty (dget_none (u "section_id") section); source_content_hash;
     str_of_Z start_char; str_of_Z end_char];
  text_hash ← content_hash text;
  mret (dupdate row
    [(u "sentence_id", VStr sentence_id);
     (u "sentence_index", VInt sentence_index);
     (u "start_char", VInt start_char);
     (u "end_char", VInt end_char);
     (u "text", VStr text);
     (u "text_length_chars", VInt (len text));
     (u "text_length_words", VInt (count_words text));
     (u "text_length_tokens_estimate", VInt (estimate_tokens text));
     (u "content_hash", VStr text_hash);
     (u "source_content_hash", VStr source_content_hash);
     (u "segmenter", VStr (segmenter stamp));
     (u "segmenter_version", VStr (segmenter_version stamp));
     (u "model_id", VStr (st_model_id stamp));
     (u "segmentation_status", VStr (segmentation_status stamp))]).

(** [_unsplit_row]. *)
Definition unsplit_row (section : pydict) : outcome pydict :=
  let text := text_of section in
  sentence_row section 0 0 (len text) text
    {| segmenter := u "unsplit"; segmenter_version := u ""; st_model_id := u "";
       segmentation_status := u "unsupported_language" |}.

Definition SAT_MODEL_NAME : str := u "sat-3l-sm".

(** [_normalize_pieces]. *)
Definition normalize_pieces (pieces : list pyval) : list str := py_str <$> pieces.

(** [_validate_reconstruction] and [_validate_piece]. *)
Definition validate_reconstruction (section : pydict) (source : str) (pieces : list str)
    : outcome unit :=
  raise_if (negb (str_eqb (concat pieces) source))
    (exc CValueError
       [FStr (u "Sentence segmentation for section "); FRepr (dget_none (u "section_id") section);
        FStr (u " does not reconstruct the source text")]).
Definition validate_piece (piece : str) : outcome unit :=
  raise_if (bool_decide (piece = []))
    (exc CValueError (msg "Sentence segmenter returned an empty sentence")).

(** The loop of [_split_rows]: the row of each piece from index [i] and offset on. *)
Fixpoint split_rows_from (section : pydict) (model version : str) (i offset : Z)
    (pieces : list str) : outcome (list pydict) :=
  match pieces with
  | [] => mret []
  | piece :: pieces =>
      _ ← validate_piece piece;
      let end_ := offset + len piece in
      row ← sentence_row section i offset end_ piece
        {| segmenter := SAT_MODEL_NAME; segmenter_version := version; st_model_id := model;
           segmentation_status := u "split" |};
      rows ← split_rows_from section model version (i + 1) end_ pieces;
      mret (row :: rows)
  end.

Definition split_rows (section : pydict) (pieces : list pyval) (model version : str)
    : outcome (list pydict) :=
  let source := text_of section in
  let normalized := normalize_pieces pieces in
  _ ← validate_reconstruction section source normalized;
  split_rows_from section model version 0 0 normalized.

(** * Routing *)

(** [SentenceSegmenter]: the adapter, and whether it mixes languages in one batch. *)
Record SentenceSegmenter := {
  model_id : str;
  version : str;
  supports_mixed_languages : bool;
  split : list str -> str -> outcome (list (list pyval)) }.

(** The four collections [_classify_sections] returns. *)
Record Classified := {
  rows_by_position : gmap nat (list pydict);
  supported_positions : gmap str (list nat);
  unsupported_languages : gset str;
  unsupported_count : Z }.

Definition no_sections : Classified :=
  {| rows_by_position := ∅; supported_positions := ∅; unsupported_languages := ∅;
     unsupported_count := 0 |}.

(** [SAT_SUPPORTED_LANGUAGES], read from the packaged [v2/sat-capabilities.json]. *)
Variable SAT_SUPPORTED_LANGUAGES : list str.

Definition is_sat_supported_language (language : str) : bool :=
  bool_decide (language ∈ SAT_SUPPORTED_LANGUAGES).

(** One iteration of [_classify_sections]. *)
Definition classify_section (acc : Classified) (position : nat) (section : pydict)
    : outcome Classified :=
  let language := language_of section in
  if is_sat_supported_language language
  then mret {|
    rows_by_position := <[position := []]> (rows_by_position acc);
    supported_positions :=
      <[language := default [] (supported_positions acc !! language) ++ [position]]>
        (supported_positions acc);
    unsupported_languages := unsupported_languages acc;
    unsupported_count := unsupported_count acc |}
  else
    row ← unsplit_row section;
    mret {|
      rows_by_position := <[position := [row]]> (rows_by_position acc);
      supported_positions := supported_positions acc;
      unsupported_languages := {[language]} ∪ unsupported_languages acc;
      unsupported_count := unsupported_count acc + 1 |}.

Fixpoint classify_from (position : nat) (sections : list pydict) (acc : Classified)
    : outcome Classified :=
  match sections with
  | [] => mret acc
  | section :: r =>
      acc ← classify_section acc position section;
      classify_from (S position) r acc
  end.

(** [_classify_sections]. *)
Definition classify_sections (sections : list pydict) : outcome Classified :=
  classify_from 0 sections no_sections.

(** [sections[position]]; every position used is an index of [sections]. *)
Definition section_at (sections : list pydict) (position : nat) : pydict :=
  default [] (sections !! position).

(** The loop of [_populate_batch] over the positions and their pieces. *)
Fixpoint store_batch (sections : list pydict) (seg : SentenceSegmenter) (positions : list nat)
    (batches : list (list pyval)) (rows : gmap nat (list pydict))
    : outcome (gmap nat (list pydict)) :=
  match positions, batches with
  | position :: positions, pieces :: batches =>
      rs ← split_rows (section_at sections position) pieces (model_id seg) (version seg);
      store_batch sections seg positions batches (<[position := rs]> rows)
  | _, _ => mret rows
  end.

(** [_populate_batch]. *)
Definition populate_batch (sections : list pydict) (seg : SentenceSegmenter) (language : str)
    (rows : gmap nat (list pydict)) (positions : list nat) : outcome (gmap nat (list pydict)) :=
  let texts := (fun p => text_of (section_at sections p)) <$> positions in
  batches ← split seg texts language;
  _ ← raise_if (negb (length batches =? length positions)%nat)
        (exc CValueError
           [FStr (u "Sentence segmenter returned "); FInt (len batches);
            FStr (u " result(s) for "); FInt (len positions); FStr (u " input section(s)")]);
  store_batch sections seg positions batches rows.

(** The slices [l[start : start + size]] for [start in range(0, len(l), size)]; [fuel] at least
    [len(l)]. *)
Fixpoint slices {A} (fuel size : nat) (l : list A) : list (list A) :=
  match fuel, l with
  | S fuel, _ :: _ => take size l :: slices fuel size (drop size l)
  | _, _ => []
  end.

(** [_populate_positions] (and [_populate_language_rows], which only forwards to it). *)
Definition populate_positions (sections : list pydict) (seg : SentenceSegmenter)
    (batch_size : nat) (language : str) (rows : gmap nat (list pydict)) (positions : list nat)
    : outcome (gmap nat (list pydict)) :=
  let nonempty := filter (fun p => text_of (section_at sections p) ≠ []) positions in
  fold_outcome (populate_batch sections seg language) rows
    (slices (length nonempty) batch_size nonempty).

(** [_populate_supported_rows]. *)
Definition populate_supported_rows (sections : list pydict) (seg : SentenceSegmenter)
    (batch_size : nat) (acc : Classified) : outcome (gmap nat (list pydict)) :=
  let supported := supported_positions acc in
  if supports_mixed_languages seg
  then populate_positions sections seg batch_size (u "mixed") (rows_by_position acc)
         (merge_sort le (concat (map_to_list supported).*2))
  else fold_outcome
         (fun rows language =>
            populate_positions sections seg batch_size language rows
              (default [] (supported !! language)))
         (rows_by_position acc)
         (sorted_strs (map_to_list supported).*1).

(** [_rows_in_input_order]. *)
Definition rows_in_input_order (rows : gmap nat (list pydict)) (section_count : nat)
    : list pydict :=
  concat ((fun p => default [] (rows !! p)) <$> seq 0 section_count).

(** [SentenceSplitSummary]. *)
Record SentenceSplitSummary := {
  su_sections : Z;
  su_split_sections : Z;
  su_unsplit_sections : Z;
  su_sentence_rows : Z;
  su_supported_languages : list str;
  su_unsupported_languages : list str }.

(** [split_sections]. *)
Definition split_sections (sections : list pydict) (seg : SentenceSegmenter) (batch_size : Z)
    : outcome (list pydict * SentenceSplitSummary) :=
  _ ← raise_if (batch_size <? 1) (exc CValueError (msg "batch_size must be positive"));
  acc ← classify_sections sections;
  rows_map ← populate_supported_rows sections seg (Z.to_nat batch_size) acc;
  let rows := rows_in_input_order rows_map (length sections) in
  mret (rows,
    {| su_sections := len sections;
       su_split_sections := zsum (fun kv => len kv.2) (map_to_list (supported_positions acc));
       su_unsplit_sections := unsupported_count acc;
       su_sentence_rows := len rows;
       su_supported_languages := sorted_strs (map_to_list (supported_positions acc)).*1;
       su_unsupported_languages := sorted_strs (elements (unsupported_languages acc)) |}).

(** * One section's rows *)

(** [rows] carry the consecutive pieces of [text] from piece number [i] and offset [offset] on. *)
Inductive tiles : Z -> Z -> list pydict -> str -> Prop :=
  | tiles_nil i offset : tiles i offset [] []
  | tiles_cons i offset row rows piece rest :
      dget (u "sentence_index") row = Some (VInt i) ->
      dget (u "start_char") row = Some (VInt offset) ->
      dget (u "end_char") row = Some (VInt (offset + len piece)) ->
      dget (u "text") row = Some (VStr piece) ->
      tiles (i + 1) (offset + len piece) rows rest ->
      tiles i offset (row :: rows) (piece ++ rest).

Lemma sentence_row_fields section i a b text stamp row :
  sentence_row section i a b text stamp = Ok row ->
  dget (u "sentence_index") row = Some (VInt i) /\
  dget (u "start_char") row = Some (VInt a) /\
  dget (u "end_char") row = Some (VInt b) /\
  dget (u "text") row = Some (VStr text) /\
  dget (u "segmentation_status") row = Some (VStr (segmentation_status stamp)).
Proof.
  unfold sentence_row. intros H. outcome_inv H. apply mret_Ok in H as <-.
  split_and!; (apply dget_dupdate; [apply (bool_decide_unpack _); by vm_compute|]);
    rewrite !elem_of_cons; tauto.
Qed.

(** Every context column of the section is copied to the row. *)
Lemma sentence_row_context section i a b text stamp row column :
  sentence_row section i a b text stamp = Ok row -> column ∈ SECTION_CONTEXT_COLUMNS ->
  dget column row = Some (dget_none column section).
Proof.
  unfold sentence_row. intros H Hc. outcome_inv H. apply mret_Ok in H as <-.
  rewrite dget_dupdate_other.
  - apply dget_NoDup.
    + rewrite <- list_fmap_compose. rewrite list_fmap_id. apply (bool_decide_unpack _). by vm_compute.
    + apply list_elem_of_fmap. by exists column.
  - revert column Hc. apply Forall_forall. apply (bool_decide_unpack _). by vm_compute.
Qed.

Definition row_status (row : pydict) : pyval := dget_none (u "segmentation_status") row.

Lemma split_rows_from_tiles section model version pieces : forall i offset rows,
  split_rows_from section model version i offset pieces = Ok rows ->
  tiles i offset rows (concat pieces) /\
  Forall (fun row => row_status row = VStr (u "split") /\
                     dget (u "text") row ≠ Some (VStr [])) rows.
Proof.
  induction pieces as [|piece pieces IH]; intros i offset rows H; simpl in H.
  - apply mret_Ok in H; subst. split; constructor.
  - outcome_inv H. apply mret_Ok in H; subst.
    apply sentence_row_fields in E0 as (? & ? & ? & Ht & Hs). apply IH in E1 as [IH1 IH2].
    unfold validate_piece in E. rewrite raise_if_Ok, bool_decide_eq_false in E.
    split; [by constructor|]. constructor; [|done]. split.
    + unfold row_status, dget_none. by rewrite Hs.
    + rewrite Ht. congruence.
Qed.

Lemma split_rows_tiles section pieces model version rows :
  split_rows section pieces model version = Ok rows ->
  tiles 0 0 rows (text_of section) /\
  Forall (fun row => row_status row = VStr (u "split") /\
                     dget (u "text") row ≠ Some (VStr [])) rows.
Proof.
  unfold split_rows. intros H. outcome_inv H. unfold validate_reconstruction in E.
  rewrite raise_if_Ok, negb_false_iff in E. destruct (str_eqb_spec (concat (normalize_pieces pieces)) (text_of section)) as [<-|]; [|done].
  by apply split_rows_from_tiles in H.
Qed.

(** What the output holds for one input section. *)
Definition section_rows_ok (section : pydict) (rows : list pydict) : Prop :=
  tiles 0 0 rows (text_of section) /\
  if is_sat_supported_language (language_of section)
  then Forall (fun row => row_status row = VStr (u "split") /\
                          dget (u "text") row ≠ Some (VStr [])) rows
  else exists row, rows = [row] /\ row_status row = VStr (u "unsupported_language").

Lemma unsplit_row_ok section row :
  is_sat_supported_language (language_of section) = false ->
  unsplit_row section = Ok row -> section_rows_ok section [row].
Proof.
  intros Hl H. unfold unsplit_row in H. apply sentence_row_fields in H as (? & ? & ? & ? & Hs).
  split.
  - rewrite <- (app_nil_r (text_of section)). by repeat constructor.
  - rewrite Hl. exists row. split; [done|]. unfold row_status, dget_none. by rewrite Hs.
Qed.

(** * Classification *)

(** What the collections hold once the first [n] sections are classified. *)
Definition classified (sections : list pydict) (n : nat) (acc : Classified) : Prop :=
  (forall p section, sections !! p = Some section -> (p < n)%nat ->
     if is_sat_supported_language (language_of section)
     then rows_by_position acc !! p = Some [] /\
          p ∈ default [] (supported_positions acc !! language_of section)
     else exists row, unsplit_row section = Ok row /\ rows_by_position acc !! p = Some [row]) /\
  (forall language ps p, supported_positions acc !! language = Some ps -> p ∈ ps ->
     exists section, sections !! p = Some section /\ language_of section = language /\
       is_sat_supported_language language = true) /\
  zsum (fun kv => len kv.2) (map_to_list (supported_positions acc)) + unsupported_count acc
    = Z.of_nat n.

Lemma zsum_perm {A} (f : A -> Z) l k : l ≡ₚ k -> zsum f l = zsum f k.
Proof. unfold zsum. induction 1; simpl; lia. Qed.

Lemma zsum_positions_insert (m : gmap str (list nat)) k p :
  zsum (fun kv => len kv.2) (map_to_list (<[k := default [] (m !! k) ++ [p]]> m)) =
  zsum (fun kv => len kv.2) (map_to_list m) + 1.
Proof.
  destruct (m !! k) as [ps|] eqn:E; simpl.
  - rewrite <- insert_delete_eq, (zsum_perm _ _ _ (map_to_list_insert _ _ _ (lookup_delete_eq _ _))).
    rewrite <- (zsum_perm _ _ _ (map_to_list_delete _ _ _ E)). unfold zsum, len. simpl.
    rewrite length_app. simpl. lia.
  - rewrite (zsum_perm _ _ _ (map_to_list_insert _ _ _ E)). unfold zsum, len. simpl. lia.
Qed.

Lemma classify_section_ok sections n acc section acc' :
  sections !! n = Some section -> classified sections n acc ->
  classify_section acc n section = Ok acc' -> classified sections (S n) acc'.
Proof.
  intros Hn (H1 & H2 & H3). unfold classify_section.
  destruct (is_sat_supported_language (language_of section)) eqn:Hl; intros H; outcome_inv H;
    apply mret_Ok in H; subst; unfold classified; simpl.
  - split_and!; [| |rewrite zsum_positions_insert; lia].
    + intros p section' Hp Hlt. destruct (decide (p = n)) as [->|Hne].
      * simplify_eq. rewrite Hl, !lookup_insert_eq. simpl. split; [done|].
        apply elem_of_app. right. by left.
      * specialize (H1 p section' Hp ltac:(lia)). rewrite (lookup_insert_ne (rows_by_position acc)) by done.
        destruct (is_sat_supported_language (language_of section')); [|done].
        destruct H1 as [? Hin]. split; [done|].
        destruct (decide (language_of section = language_of section')) as [Heq|Hne'];
          [|by rewrite lookup_insert_ne].
        rewrite Heq, lookup_insert_eq. apply elem_of_app. by left.
    + intros language ps p Hlk Hin.
      destruct (decide (language_of section = language)) as [<-|Hne'];
        [|rewrite lookup_insert_ne in Hlk by done; eauto].
      rewrite lookup_insert_eq in Hlk. simplify_eq. apply elem_of_app in Hin as [Hin|Hin].
      * destruct (supported_positions acc !! language_of section) eqn:E'; [eauto|by apply elem_of_nil in Hin].
      * apply list_elem_of_singleton in Hin as ->. eauto.
  - split_and!; [|done|lia].
    intros p section' Hp Hlt. destruct (decide (p = n)) as [->|Hne].
    + simplify_eq. rewrite Hl, lookup_insert_eq. eauto.
    + specialize (H1 p section' Hp ltac:(lia)). by rewrite lookup_insert_ne.
Qed.

Lemma classify_sections_ok sections acc :
  classify_sections sections = Ok acc -> classified sections (length sections) acc.
Proof.
  unfold classify_sections.
  enough (forall r n acc0, sections = take n sections ++ r -> n = length (take n sections) ->
    classified sections n acc0 -> classify_from n r acc0 = Ok acc ->
    classified sections (length sections) acc) as Hgen.
  { apply Hgen; [done|done|]. split_and!; simpl; [lia| |done].
    intros ??? Hlk. by rewrite lookup_empty in Hlk. }
  induction r as [|section r IH]; intros n acc0 Hs Hlen Hinv H; simpl in H.
  - apply mret_Ok in H; subst. rewrite app_nil_r in Hs.
    apply (f_equal length) in Hs. by replace (length sections) with n by congruence.
  - outcome_inv H. assert (Hn : sections !! n = Some section).
    { rewrite Hs, lookup_app_r by lia. by rewrite <- Hlen, Nat.sub_diag. }
    eapply (IH (S n)); [|..|done].
    + by rewrite (take_S_r _ _ _ Hn), <- app_assoc.
    + rewrite (take_S_r _ _ _ Hn), length_app, <- Hlen. simpl. lia.
    + by eapply classify_section_ok.
Qed.

(** * Population *)

(** [rows'] is [rows] where exactly the positions [ps] hold split rows of their sections. *)
Definition updates (sections : list pydict) (seg : SentenceSegmenter)
    (rows rows' : gmap nat (list pydict)) (ps : list nat) : Prop :=
  forall p, if decide (p ∈ ps)
            then exists pieces rs, rows' !! p = Some rs /\
                   split_rows (section_at sections p) pieces (model_id seg) (version seg) = Ok rs
            else rows' !! p = rows !! p.

Lemma updates_trans sections seg rows rows1 rows2 ps1 ps2 :
  updates sections seg rows rows1 ps1 -> updates sections seg rows1 rows2 ps2 ->
  updates sections seg rows rows2 (ps1 ++ ps2).
Proof.
  intros H1 H2 p. specialize (H1 p). specialize (H2 p).
  destruct (decide (p ∈ ps2)); [rewrite decide_True by (apply elem_of_app; by right); done|].
  destruct (decide (p ∈ ps1)).
  - rewrite decide_True by (apply elem_of_app; by left). by rewrite H2.
  - rewrite decide_False by (rewrite elem_of_app; tauto). congruence.
Qed.

Lemma store_batch_updates sections seg positions : forall batches rows rows',
  length batches = length positions ->
  store_batch sections seg positions batches rows = Ok rows' ->
  updates sections seg rows rows' positions.
Proof.
  induction positions as [|p positions IH]; intros [|pieces batches] rows rows' Hlen H; try done.
  - apply mret_Ok in H; subst. intros p. by rewrite decide_False by apply not_elem_of_nil.
  - simpl in H. outcome_inv H. apply IH in H; [|by simplify_eq/=].
    change (p :: positions) with ([p] ++ positions). eapply updates_trans; [|exact H].
    intros q. destruct (decide (q ∈ [p])) as [Hin|Hin].
    + apply list_elem_of_singleton in Hin as ->. rewrite lookup_insert_eq. eauto.
    + rewrite lookup_insert_ne; [done|]. intros ->. apply Hin. by left.
Qed.

Lemma populate_batch_updates sections seg language rows positions rows' :
  populate_batch sections seg language rows positions = Ok rows' ->
  updates sections seg rows rows' positions.
Proof.
  unfold populate_batch. intros H. outcome_inv H.
  rewrite raise_if_Ok, negb_false_iff, Nat.eqb_eq in E0. by eapply store_batch_updates.
Qed.

Lemma fold_updates {A} sections seg (f : gmap nat (list pydict) -> A -> outcome _)
    (g : A -> list nat) l : forall rows rows',
  (forall rows x rows', f rows x = Ok rows' -> updates sections seg rows rows' (g x)) ->
  fold_outcome f rows l = Ok rows' -> updates sections seg rows rows' (concat (g <$> l)).
Proof.
  induction l as [|x l IH]; intros rows rows' Hf H; simpl in H.
  - apply mret_Ok in H; subst. intros p. by rewrite decide_False by apply not_elem_of_nil.
  - outcome_inv H. csimpl. eapply updates_trans; eauto.
Qed.

Lemma concat_slices {A} size fuel (l : list A) :
  (0 < size)%nat -> (length l <= fuel)%nat -> concat (slices fuel size l) = l.
Proof.
  intros Hs. revert l. induction fuel as [|fuel IH]; intros [|x l] Hlen; simpl in *; try done; [lia|].
  destruct size as [|size]; [lia|]. simpl. rewrite IH, take_drop; [done|].
  rewrite length_drop. lia.
Qed.

Definition nonempty_positions (sections : list pydict) (positions : list nat) : list nat :=
  filter (fun p => text_of (section_at sections p) ≠ []) positions.

Lemma populate_positions_updates sections seg b language rows positions rows' :
  (0 < b)%nat ->
  populate_positions sections seg b language rows positions = Ok rows' ->
  updates sections seg rows rows' (nonempty_positions sections positions).
Proof.
  intros Hb H. unfold populate_positions in H.
  rewrite <- (concat_slices b (length (nonempty_positions sections positions))
               (nonempty_positions sections positions)) by (done || lia).
  rewrite <- (list_fmap_id (slices _ _ _)).
  eapply fold_updates; [|exact H]. intros. by eapply populate_batch_updates.
Qed.

(** The positions that end up with split rows: the supported ones with text. *)
Lemma populate_supported_updates sections seg b acc rows' :
  (0 < b)%nat ->
  populate_supported_rows sections seg b acc = Ok rows' ->
  exists ps, updates sections seg (rows_by_position acc) rows' ps /\
    forall p, p ∈ ps <->
      text_of (section_at sections p) ≠ [] /\
      exists language l, supported_positions acc !! language = Some l /\ p ∈ l.
Proof.
  intros Hb. unfold populate_supported_rows. destruct (supports_mixed_languages seg).
  - intros H%populate_positions_updates; [|done]. eexists; split; [exact H|].
    intros p. unfold nonempty_positions. rewrite list_elem_of_filter.
    rewrite merge_sort_Permutation, list_elem_of_In, in_concat. apply and_iff_compat_l. split.
    + intros (l & Hl%list_elem_of_In & Hp%list_elem_of_In).
      apply list_elem_of_fmap in Hl as ([language l'] & -> & Hl). apply elem_of_map_to_list in Hl. eauto.
    + intros (language & l & Hl%elem_of_map_to_list & Hp). exists l.
      rewrite <- !list_elem_of_In. split; [|done]. apply list_elem_of_fmap. by exists (language, l).
  - intros H. eapply (fold_updates sections seg _
      (fun language => nonempty_positions sections (default [] (supported_positions acc !! language)))) in H;
      [|intros; by eapply populate_positions_updates].
    eexists; split; [exact H|]. intros p. rewrite list_elem_of_In, in_concat. split.
    + intros (l & Hl%list_elem_of_In & Hp%list_elem_of_In).
      apply list_elem_of_fmap in Hl as (language & -> & Hl).
      unfold nonempty_positions in Hp. apply list_elem_of_filter in Hp as [Ht Hp]. split; [done|].
      exists language. destruct (supported_positions acc !! language); [eauto|by apply elem_of_nil in Hp].
    + intros (Ht & language & l & Hl & Hp). exists (nonempty_positions sections l).
      rewrite <- !list_elem_of_In. split; [|by apply list_elem_of_filter].
      apply list_elem_of_fmap. exists language. rewrite Hl. split; [done|].
      apply elem_of_sorted_strs, list_elem_of_fmap. exists (language, l).
      split; [done|]. by apply elem_of_map_to_list.
Qed.

(** The rows of one input position once everything is populated. *)
Lemma populated_rows_ok sections seg b acc rows' p section :
  (0 < b)%nat -> classified sections (length sections) acc ->
  populate_supported_rows sections seg b acc = Ok rows' ->
  sections !! p = Some section ->
  exists rs, rows' !! p = Some rs /\ section_rows_ok section rs.
Proof.
  intros Hb (H1 & H2 & _) H Hp.
  destruct (populate_supported_updates _ _ _ _ _ Hb H) as (ps & Hu & Hps).
  specialize (Hu p). specialize (H1 p section Hp ltac:(by eapply lookup_lt_Some)).
  assert (Hsec : section_at sections p = section) by (unfold section_at; by rewrite Hp).
  destruct (is_sat_supported_language (language_of section)) eqn:Hl.
  - destruct H1 as [Hrow Hin]. destruct (decide (p ∈ ps)) as [Hpin|Hpin].
    + destruct Hu as (pieces & rs & Hrs & Hsplit). exists rs. split; [done|].
      rewrite Hsec in Hsplit. apply split_rows_tiles in Hsplit as [? ?].
      split; [done|]. by rewrite Hl.
    + exists []. split; [congruence|]. split; [|by rewrite Hl].
      destruct (decide (text_of section = [])) as [->|Hne]; [constructor|].
      destruct Hpin. apply Hps. rewrite Hsec. split; [done|].
      destruct (supported_positions acc !! language_of section) eqn:E; [eauto|by apply elem_of_nil in Hin].
  - destruct H1 as (row & Hrow & Hlk). exists [row]. split; [|by apply unsplit_row_ok].
    rewrite decide_False in Hu; [congruence|]. intros (_ & language & l & Hlang & Hpl)%Hps.
    destruct (H2 _ _ _ Hlang Hpl) as (section' & ? & ? & ?). simplify_eq. congruence.
Qed.

(** C6: sentence splitting is lossless for every segmenter whose output it accepts: the rows are,
    section by section in input order, consecutive pieces whose texts concatenate to the section's
    text and whose offsets tile it from 0; a section in a supported language gets only non-empty
    pieces, any other section exactly one row with its whole text. *)
Theorem split_sections_lossless sections seg b rows summary :
  split_sections sections seg b = Ok (rows, summary) ->
  exists groups, rows = concat groups /\ Forall2 section_rows_ok sections groups.
Proof.
  unfold split_sections. intros H. outcome_inv H. rewrite raise_if_Ok, Z.ltb_ge in E.
  apply mret_Ok in H. simplify_eq.
  apply classify_sections_ok in E0. unfold rows_in_input_order.
  eexists; split; [done|]. apply Forall2_same_length_lookup.
  split; [by rewrite length_fmap, length_seq|].
  intros i section rs Hi Hrs. rewrite list_lookup_fmap in Hrs.
  apply fmap_Some in Hrs as (p & Hp & ->). apply lookup_seq in Hp as [-> _]. simpl.
  assert (Hb : (0 < Z.to_nat b)%nat) by lia.
  destruct (populated_rows_ok _ _ _ _ _ _ _ Hb E0 E1 Hi) as (rs & -> & Hok). done.
Qed.

(** The summary accounts for every section exactly once, as split or as unsplit, and for
    every row. *)
Theorem split_sections_summary sections seg b rows summary :
  split_sections sections seg b = Ok (rows, summary) ->
  su_sections summary = len sections /\
  su_split_sections summary + su_unsplit_sections summary = len sections /\
  su_sentence_rows summary = len rows /\
  StronglySorted str_le (su_supported_languages summary) /\
  StronglySorted str_le (su_unsupported_languages summary).
Proof.
  unfold split_sections. intros H. outcome_inv H. apply mret_Ok in H. simplify_eq. simpl.
  apply classify_sections_ok in E0 as (_ & _ & Hc).
  split_and!; [done|exact Hc|done|apply sorted_strs_sorted..].
Qed.

(** * Batching *)

(** A segmenter that treats each text on its own, whatever the batch it comes in. *)
Definition pointwise (seg : SentenceSegmenter) (f : str -> str -> list pyval) : Prop :=
  forall texts language, split seg texts language = Ok (f language <$> texts).

(** What a pointwise segmenter stores for one position. *)
Definition store_one (sections : list pydict) (seg : SentenceSegmenter)
    (f : str -> str -> list pyval) (language : str) (rows : gmap nat (list pydict)) (p : nat)
    : outcome (gmap nat (list pydict)) :=
  rs ← split_rows (section_at sections p) (f language (text_of (section_at sections p)))
         (model_id seg) (version seg);
  mret (<[p := rs]> rows).

Lemma store_batch_pointwise sections seg f language positions : forall rows,
  store_batch sections seg positions
    (f language <$> ((fun p => text_of (section_at sections p)) <$> positions)) rows =
  fold_outcome (store_one sections seg f language) rows positions.
Proof.
  induction positions as [|p positions IH]; intros rows; csimpl; [done|].
  destruct (split_rows _ _ _ _) as [rs|e] eqn:E.
  - assert (Hs : store_one sections seg f language rows p = Ok (<[p := rs]> rows))
      by (unfold store_one; by rewrite E).
    rewrite Hs. apply IH.
  - assert (Hs : store_one sections seg f language rows p = Raise e)
      by (unfold store_one; by rewrite E).
    by rewrite Hs.
Qed.

Lemma populate_batch_pointwise sections seg f language rows positions :
  pointwise seg f ->
  populate_batch sections seg language rows positions =
  fold_outcome (store_one sections seg f language) rows positions.
Proof.
  intros Hf. unfold populate_batch. rewrite Hf. simpl.
  rewrite !length_fmap, Nat.eqb_refl. simpl. apply store_batch_pointwise.
Qed.

Lemma fold_outcome_concat {A B} (f : A -> B -> outcome A) acc ll :
  fold_outcome (fold_outcome f) acc ll = fold_outcome f acc (concat ll).
Proof.
  revert acc. induction ll as [|l ll IH]; intros acc; simpl; [done|].
  rewrite fold_outcome_app. destruct (fold_outcome f acc l); simpl; [apply IH|done].
Qed.

Lemma populate_positions_pointwise sections seg f b language rows positions :
  (0 < b)%nat -> pointwise seg f ->
  populate_positions sections seg b language rows positions =
  fold_outcome (store_one sections seg f language) rows (nonempty_positions sections positions).
Proof.
  intros Hb Hf. unfold populate_positions.
  erewrite fold_outcome_ext; [|intros; by apply populate_batch_pointwise].
  by rewrite fold_outcome_concat, concat_slices.
Qed.

(** The batch size does not matter: with a segmenter that treats each text on its own, two
    runs with different positive batch sizes give the same rows and summary, or raise the same
    error. *)
Theorem split_sections_batch_independent sections seg f b b' :
  pointwise seg f -> 1 <= b -> 1 <= b' ->
  split_sections sections seg b = split_sections sections seg b'.
Proof.
  intros Hf Hb Hb'. unfold split_sections.
  rewrite !(proj2 (Z.ltb_ge _ _)) by done. simpl.
  destruct (classify_sections sections) as [acc|]; simpl; [|done].
  assert (E : populate_supported_rows sections seg (Z.to_nat b) acc =
              populate_supported_rows sections seg (Z.to_nat b') acc).
  { unfold populate_supported_rows. destruct (supports_mixed_languages seg).
    - by rewrite !(populate_positions_pointwise _ _ f) by (done || lia).
    - apply fold_outcome_ext. intros.
      by rewrite !(populate_positions_pointwise _ _ f) by (done || lia). }
  by rewrite E.
Qed.

End Sentences.

(** * Examples *)

(** A runtime whose parameters are fixed functions, and a segmenter that cuts every text after
    its second character. *)
#[local] Instance example_runtime : Runtime := {|
  str_of_nonstr _ := u "value";
  sha256_hexdigest _ := replicate 64 48%N |}.

Definition cut_at_two (language text : str) : list pyval :=
  if (2 <? length text)%nat then [VStr (take 2 text); VStr (drop 2 text)] else [VStr text].

Definition example_segmenter : SentenceSegmenter := {|
  model_id := u "cut"; version := u "1"; supports_mixed_languages := false;
  split texts language := Ok (cut_at_two language <$> texts) |}.

Definition example_section (language text : string) : pydict :=
  [(u "section_id", VStr (u text)); (u "language", VStr (u language)); (u "text", VStr (u text))].
Definition example_sections : list pydict :=
  [example_section "en" "abcd"; example_section "xx" "opaque"; example_section "en" "ef"].

Definition example_split : list pydict * SentenceSplitSummary := Eval vm_compute in
  match split_sections [u "en"] example_sections example_segmenter 2 with
  | Ok rs => rs
  | Raise _ => ([], Build_SentenceSplitSummary 0 0 0 0 [] [])
  end.

Lemma example_split_ok :
  split_sections [u "en"] example_sections example_segmenter 2 = Ok (example_split.1, example_split.2).
Proof. vm_compute. reflexivity. Qed.

Lemma split_sections_lossless_witness :
  length example_split.1 = 4%nat /\
  exists groups, example_split.1 = concat groups /\ Forall2 (section_rows_ok [u "en"]) example_sections groups.
Proof.
  split; [reflexivity|]. exact (split_sections_lossless _ _ _ _ _ _ example_split_ok).
Defined.

Lemma split_sections_summary_witness :
  su_split_sections example_split.2 + su_unsplit_sections example_split.2 = 3.
Proof.
  destruct (split_sections_summary _ _ _ _ _ _ example_split_ok) as (_ & H & _). exact H.
Defined.

Lemma split_sections_batch_independent_witness :
  split_sections [u "en"] example_sections example_segmenter 1 =
  split_sections [u "en"] example_sections example_segmenter 7.
Proof.
  apply (split_sections_batch_independent _ example_sections example_segmenter cut_at_two); [|lia..].
  intros texts language. reflexivity.
Defined.
