(* ===== verification/UploadState.v ===== *)
(** The durable state of the upload queue: publication operations ([hf/_uploader/plan.py]), the
    files of the state directory ([hf/_upload_state_files.py]) and the store that persists,
    resumes, upgrades and deletes uploads ([hf/_upload_state.py]). *)
From stdpp Require Import sorting.
From S2P Require Import Prelude Py PyStr PyText Fs Artifacts Atomic.

(** * Publication operations *)

Record PublicationOp := {
  action : str; path_in_repo : str; local_path : option path; snapshot_path : option path }.

Definition is_none {A} (o : option A) : bool := match o with None => true | Some _ => false end.

Definition validate_action (a : str) : outcome unit :=
  raise_if (negb (bool_decide (a ∈ [u "add"; u "delete"])))
    (exc CValueError [FStr (u "PublicationOp.action must be 'add' or 'delete', got "); FRepr (VStr a)]).
(** The text of a refusal of [PublicationOp(action=..., path_in_repo=...)]. *)
Definition op_refused (a p : str) (why : string) : exn :=
  exc CValueError [FStr (u "PublicationOp(action='" ++ a ++ u "', path_in_repo="); FRepr (VStr p); FStr (u ")" ++ u why)].
Definition validate_local_path (a p : str) (l : option path) : outcome unit :=
  _ ← raise_if (str_eqb a (u "add") && is_none l) (op_refused a p " requires a local_path");
  raise_if (str_eqb a (u "delete") && negb (is_none l)) (op_refused a p " must not carry a local_path").
Definition validate_snapshot_path (a p : str) (s : option path) : outcome unit :=
  raise_if (str_eqb a (u "delete") && negb (is_none s)) (op_refused a p " must not carry a snapshot_path").

(** [PublicationOp(...)] with its [__post_init__]. *)
Definition publication_op (a p : str) (l s : option path) : outcome PublicationOp :=
  _ ← validate_action a;
  _ ← validate_local_path a p l;
  _ ← validate_snapshot_path a p s;
  mret {| action := a; path_in_repo := p; local_path := l; snapshot_path := s |}.
Definition add_op (l : path) (p : str) : outcome PublicationOp := publication_op (u "add") p (Some l) None.
Definition delete_op (p : str) : outcome PublicationOp := publication_op (u "delete") p None None.

Definition QUEUE_CONTRACT_VERSION : str := u "bg-upload-v1".
Definition HIGHWATER_FILENAME : str := u ".highwater".
Definition SNAPSHOTS_SUBDIR : str := u "snapshots".

(** One durable upload ready for processing; a recorded digest is what the envelope says. *)
Record StoredUpload := {
  su_ops : list PublicationOp; su_message : str; su_state_path : path;
  su_snapshot_dir : option path; su_op_shas : list pyval }.
Record ResumeResult := {
  rr_uploads : list StoredUpload; rr_failures : list pymsg; rr_discovered : nat }.

(** The store and the disk below it. *)
Record QState := mkQ { q_fs : FsState; q_next : Z }.

(** [f"{n:06d}"] and [f"{n:03d}"]. *)
Definition sequence_name (n : Z) : str := zero_pad 6 n.
Definition op_name (i : nat) : str := zero_pad 3 (Z.of_nat i).

Section Store.
Context {RT : Runtime} {FF : FileFormats}.
Variable temporary_middle : gmap path node -> path -> str.
Variables (state_dir cwd : path).
Abbreviation M := (PyM QState).

Definition on_fs {A} (m : PyM FsState A) : M A := fun s =>
  let '(o, fs) := m (q_fs s) in (o, mkQ fs (q_next s)).
Definition read_tree {A} (f : gmap path node -> outcome A) : M A := on_fs (reads f).

(** * Files of the state directory *)

(** [read_json(path)] without [on_malformed]: unreadable documents give [None]. *)
Definition read_json_lenient (p : path) (t : gmap path node) : option pyval :=
  match read_json p t with Ok v => Some v | Raise _ => None end.
Definition read_json_object (p : path) (t : gmap path node) : option pydict :=
  match read_json_lenient p t with Some (VDict d) => Some d | _ => None end.

(** [path.read_text(encoding="utf-8")] of a file of bytes. *)
Definition read_text (p : path) (t : gmap path node) : option str :=
  match read_bytes p t with Ok b => utf8_decode b | Raise _ => None end.

Definition read_highwater (t : gmap path node) : Z :=
  let p := child state_dir HIGHWATER_FILENAME in
  if negb (is_file p t) then 0
  else match text ← read_text p t; int_of_str (strip text) with
       | Some v => Z.max v 0
       | None => 0
       end.

Definition write_highwater (value : Z) : PyM FsState unit :=
  atomic_write_text temporary_middle (child state_dir HIGHWATER_FILENAME) (str_of_Z value ++ [10%N]).

(** [SEQUENCE_FILE.match(name)]: the digits. *)
Definition sequence_file_match (name : str) : option str :=
  let '(digits, rest) := span is_decimal name in
  if negb (bool_decide (digits = [])) &&
     (str_eqb rest (u ".json") || str_eqb rest (u ".json" ++ [10%N]))
  then Some digits else None.

Definition sequence_from_state_path (p : path) (t : gmap path node) : Z :=
  match sequence_file_match (path_name p) with
  | Some digits => int_of_digits digits
  | None =>
      match envelope ← read_json_object p t; dget (u "sequence") envelope with
      | Some (VInt sequence) => Z.max sequence 0
      | _ => 0
      end
  end.

Definition scanned_sequence (t : gmap path node) : Z :=
  foldl (fun highest p => Z.max highest (sequence_from_state_path p t)) 0 (glob state_dir (u ".json") t).

Definition next_sequence_from_state_dir (t : gmap path node) : Z :=
  if negb (is_dir state_dir t) then 1
  else Z.max (read_highwater t) (scanned_sequence t) + 1.

Definition independent_copy (source target : path) : PyM FsState unit :=
  mkdir (path_parent target);; copy_file source target.

Definition required_string (entry : pydict) (key : string) : outcome str :=
  match dget_none (u key) entry with
  | VStr s => mret s
  | _ => Raise (exc CValueError
           [FStr (u "Envelope operation field "); FRepr (VStr (u key)); FStr (u " must be a string")])
  end.

Definition current_sequence (payload : pydict) (p : path) : outcome Z :=
  let invalid := exc CValueError [FStr (u "Current envelope " ++ path_str p ++ u " has an invalid sequence")] in
  match dget_none (u "sequence") payload with
  | VInt n => _ ← raise_if (n <? 1) invalid; mret n
  | _ => Raise invalid
  end.

Definition is_legacy_envelope (payload : pydict) : bool :=
  negb (dmem (u "contract_version") payload) &&
  match dget_none (u "message") payload, dget_none (u "ops") payload with
  | VStr _, VList _ => true
  | _, _ => false
  end.

Definition snapshots_root : path := child state_dir SNAPSHOTS_SUBDIR.
Definition snapshot_dir_for_sequence (sequence : Z) : path := child snapshots_root (sequence_name sequence).
Definition state_path_for (sequence : Z) : path := child state_dir (sequence_name sequence ++ u ".json").

Definition is_inside (p parent : path) : bool :=
  bool_decide (is_Some (relative_to (resolve p) (resolve parent))).

Definition remove_failed_upgrade (sequence : Z) (snapshot_dir : path) : PyM FsState unit :=
  unlink (state_path_for sequence);;
  existing <- gets (fun s => is_dir snapshot_dir (tree s));;
  if existing && is_inside snapshot_dir snapshots_root then rmtree snapshot_dir else ret tt.

(** * Persisting an upload *)

(** [_allocate_sequence]. *)
Definition allocate_sequence : M Z :=
  sequence <- gets q_next;;
  modify (fun s => mkQ (q_fs s) (sequence + 1));;
  on_fs (write_highwater sequence);;
  ret sequence.

Definition path_value (p : option path) : pyval :=
  match p with Some p => VStr (path_str p) | None => VNone end.

(** Copying one local file into the snapshot directory: the snapshot's path and digest. *)
Definition take_snapshot (l : path) (i : nat) (snapshot_dir : path) : PyM FsState (path * str) :=
  let op_dir := child snapshot_dir (op_name i) in
  mkdir op_dir;;
  let snapshot := child op_dir (path_name l) in
  independent_copy l snapshot;;
  digest <- reads (sha256_file snapshot);;
  ret (snapshot, digest).

Definition snapshot_entry (entry : pydict) (snapshot : path) (digest : str) : pydict :=
  dset (u "sha256") (VStr digest) (dset (u "snapshot_path") (VStr (path_str snapshot)) entry).

Definition snapshot_add_operation (op : PublicationOp) (i : nat) (snapshot_dir : path)
    (entry : pydict) : PyM FsState (PublicationOp * pydict) :=
  match local_path op with
  | None => throw (exc CValueError (msg "add operation must carry a local path"))
  | Some l =>
      present <- gets (fun s => is_file l (tree s));;
      if negb present then throw (exc CFileNotFoundError [FStr (u "Cannot snapshot missing file: " ++ path_str l)])
      else
        taken <- take_snapshot l i snapshot_dir;;
        new <- lift (publication_op (action op) (path_in_repo op) (Some l) (Some taken.1));;
        ret (new, snapshot_entry entry taken.1 taken.2)
  end.

Definition operation_entry (op : PublicationOp) : pydict :=
  [(u "action", VStr (action op)); (u "path_in_repo", VStr (path_in_repo op));
   (u "local_path", path_value (local_path op))].

Definition snapshot_operation (op : PublicationOp) (i : nat) (snapshot_dir : option path)
    : PyM FsState (PublicationOp * pydict) :=
  if negb (str_eqb (action op) (u "add")) then ret (op, operation_entry op)
  else match snapshot_dir with
       | None => throw (exc CRuntimeError (msg "snapshot_dir must be set when any op is an add"))
       | Some d => snapshot_add_operation op i d (operation_entry op)
       end.

Definition submission_snapshot_dir (ops : list PublicationOp) (sequence : Z)
    : PyM FsState (option path) :=
  if negb (existsb (fun op => str_eqb (action op) (u "add")) ops) then ret None
  else
    let d := snapshot_dir_for_sequence sequence in
    mkdir d;; ret (Some d).

(** The loop of [_snapshot_operations] from operation [i] on. *)
Fixpoint snapshot_from (i : nat) (ops : list PublicationOp) (snapshot_dir : option path)
    : PyM FsState (list (PublicationOp * pydict)) :=
  match ops with
  | [] => ret []
  | op :: ops =>
      one <- snapshot_operation op i snapshot_dir;;
      rest <- snapshot_from (S i) ops snapshot_dir;;
      ret (one :: rest)
  end.

Definition make_envelope (sequence : Z) (message : str) (entries : list pydict) : pydict :=
  [(u "contract_version", VStr QUEUE_CONTRACT_VERSION); (u "sequence", VInt sequence);
   (u "message", VStr message); (u "ops", VList (VDict <$> entries))].

(** [atomic_write_text(path, json.dumps(envelope, ...) + "\n")]. *)
Definition write_envelope (p : path) (envelope : pydict) : PyM FsState unit :=
  atomic_write_json temporary_middle p (VDict envelope).

Definition cleanup_failed_submission (state_path : path) (snapshot_dir : option path)
    : PyM FsState unit :=
  unlink state_path;;
  match snapshot_dir with
  | Some d => if is_inside d snapshots_root then rmtree d else ret tt
  | None => ret tt
  end.

(** [_snapshot_operations]: the operations with their entries, and the snapshot directory. *)
Definition snapshot_operations (ops : list PublicationOp) (sequence : Z)
    : PyM FsState (list (PublicationOp * pydict) * option path) :=
  d <- submission_snapshot_dir ops sequence;;
  taken <- snapshot_from 0 ops d;;
  ret (taken, d).

(** The [try] block of [persist]: the handler sees the snapshot directory of the sequence until
    the operations are snapshotted, and then the one that was used. *)
Definition snapshot_and_write (ops : list PublicationOp) (message : str) (sequence : Z)
    : PyM FsState (list (PublicationOp * pydict) * option path) :=
  let state_path := state_path_for sequence in
  taken <- on_error (snapshot_operations ops sequence)
             (cleanup_failed_submission state_path (Some (snapshot_dir_for_sequence sequence)));;
  on_error (write_envelope state_path (make_envelope sequence message taken.1.*2))
    (cleanup_failed_submission state_path taken.2);;
  ret taken.

Definition stored_upload (message : str) (sequence : Z)
    (taken : list (PublicationOp * pydict) * option path) : StoredUpload :=
  {| su_ops := taken.1.*1; su_message := message; su_state_path := state_path_for sequence;
     su_snapshot_dir := taken.2; su_op_shas := dget_none (u "sha256") <$> taken.1.*2 |}.

Definition persist (ops : list PublicationOp) (message : str) : M StoredUpload :=
  sequence <- allocate_sequence;;
  taken <- on_fs (snapshot_and_write ops message sequence);;
  ret (stored_upload message sequence taken).

(** * Resuming *)

(** [Path(text) if text else None]. *)
Definition optional_path (v : pyval) : outcome (option path) :=
  if negb (py_truthy v) then mret None
  else match v with
       | VStr s => mret (Some (path_join cwd s))
       | _ => Raise (exc CTypeError (msg "expected str, bytes or os.PathLike object"))
       end.

(** [for entry in value]. *)
Definition iterate (v : pyval) : outcome (list pyval) :=
  match v with
  | VList l | VTuple l => mret l
  | VStr s => mret ((fun c => VStr [c]) <$> s)
  | VDict d => mret ((fun kv => VStr kv.1) <$> d)
  | _ => Raise (exc CTypeError (msg "object is not iterable"))
  end.

Definition ops_of (envelope : pydict) : outcome (list pyval) :=
  iterate (default (VList []) (dget (u "ops") envelope)).

Definition validate_resume_snapshot (snapshot : option path) (state_path snapshot_dir : path) : outcome unit :=
  match snapshot with
  | None => Raise (exc CValueError [FStr (u "Add op in " ++ path_str state_path ++ u " is missing snapshot_path")])
  | Some p =>
      raise_if (negb (is_inside p snapshot_dir))
        (exc CValueError [FStr (u "Add op snapshot " ++ path_str p ++ u " is outside " ++ path_str snapshot_dir ++
                                u "; refusing to upload")])
  end.

Definition resume_operation (raw : pyval) (state_path snapshot_dir : path)
    : outcome (PublicationOp * pyval) :=
  entry ← as_entry raw;
  a ← required_string entry "action";
  p ← required_string entry "path_in_repo";
  l ← optional_path (dget_none (u "local_path") entry);
  s ← optional_path (dget_none (u "snapshot_path") entry);
  _ ← (if str_eqb a (u "add") then validate_resume_snapshot s state_path snapshot_dir else mret tt);
  op ← publication_op a p l s;
  mret (op, dget_none (u "sha256") entry).

Definition resume_operations (envelope : pydict) (state_path snapshot_dir : path)
    : outcome (list (PublicationOp * pyval)) :=
  entries ← ops_of envelope;
  mapM (fun entry => resume_operation entry state_path snapshot_dir) entries.

(** [except (FileNotFoundError, OSError, ValueError)]. *)
Definition resume_failure (e : exn) : bool := isinstance e COSError || isinstance e CValueError.

(** [_restore_pending_job]: the upload, or the failure to report. *)
Definition restore_pending_job (state_path : path) (envelope : pydict) (snapshot_dir : path)
    : outcome (StoredUpload + pymsg) :=
  if negb (is_inside snapshot_dir snapshots_root)
  then mret (inr [FStr (u "Computed snapshot dir " ++ path_str snapshot_dir ++
                       u " is outside state_dir/snapshots; refusing to resume")])
  else match resume_operations envelope state_path snapshot_dir with
  | Raise e =>
      if resume_failure e
      then mret (inr (FStr (u "resume validation failed for " ++ path_name state_path ++ u ": ") :: exn_msg e))
      else Raise e
  | Ok ops =>
      message ← match dget (u "message") envelope with
                | Some m => mret (py_str m)
                | None => Raise (exc CKeyError [FRepr (VStr (u "message"))])
                end;
      mret (inl {| su_ops := ops.*1; su_message := message; su_state_path := state_path;
                   su_snapshot_dir := Some snapshot_dir; su_op_shas := ops.*2 |})
  end.

(** [_classify_pending_envelope]: a legacy payload, or the current one with its sequence. *)
Definition classify_pending_envelope (p : path) (seen : list Z) (t : gmap path node)
    : outcome (pydict + Z * pydict) :=
  match read_json_object p t with
  | None => Raise (exc CValueError [FStr (u "Malformed envelope: " ++ path_str p ++ u " -- refusing to resume")])
  | Some payload =>
      if is_legacy_envelope payload then mret (inl payload)
      else
        _ ← raise_if (negb (py_eqb (dget_none (u "contract_version") payload)
                                   (VStr QUEUE_CONTRACT_VERSION)))
              (exc CValueError [FStr (u "Unknown contract_version in " ++ path_str p ++ u "; refusing to resume")]);
        sequence ← current_sequence payload p;
        _ ← raise_if (bool_decide (sequence ∈ seen))
              (exc CValueError [FStr (u "Duplicate sequence "); FInt sequence;
                                FStr (u " in " ++ path_str p ++ u " -- refusing to upload")]);
        mret (inr (sequence, payload))
  end.

Record Pending := {
  pe_current : list (Z * path * pydict); pe_legacy : list (path * pydict); pe_seen : list Z }.

Definition add_pending (t : gmap path node) (acc : Pending) (p : path) : outcome Pending :=
  kind ← classify_pending_envelope p (pe_seen acc) t;
  mret match kind with
       | inl payload =>
           {| pe_current := pe_current acc; pe_legacy := pe_legacy acc ++ [(p, payload)]; pe_seen := pe_seen acc |}
       | inr (sequence, payload) =>
           {| pe_current := pe_current acc ++ [(sequence, p, payload)]; pe_legacy := pe_legacy acc;
              pe_seen := sequence :: pe_seen acc |}
       end.

(** [sorted(state_dir.glob("*.json"))], classified. *)
Definition pending_envelopes (t : gmap path node) : outcome Pending :=
  fold_outcome (add_pending t) {| pe_current := []; pe_legacy := []; pe_seen := [] |}
    (glob state_dir (u ".json") t).

(** * Upgrading legacy envelopes *)

Definition upgrade_legacy_add_operation (p : str) (l : option path) (i : nat) (snapshot_dir : path)
    (entry : pydict) : PyM FsState pydict :=
  match l with
  | None => throw (op_refused (u "add") p " requires a local_path")
  | Some l =>
      present <- gets (fun s => is_file l (tree s));;
      if negb present then throw (exc CFileNotFoundError [FStr (u "Cannot snapshot missing canonical file: " ++ path_str l)])
      else
        taken <- take_snapshot l i snapshot_dir;;
        lift (publication_op (u "add") p (Some l) (Some taken.1));;
        ret (snapshot_entry entry taken.1 taken.2)
  end.

Definition upgrade_legacy_operation (raw : pyval) (i : nat) (snapshot_dir : path)
    : PyM FsState pydict :=
  entry <- lift (as_entry raw);;
  a <- lift (required_string entry "action");;
  p <- lift (required_string entry "path_in_repo");;
  l <- lift (optional_path (dget_none (u "local_path") entry));;
  let op_entry := [(u "action", VStr a); (u "path_in_repo", VStr p);
                   (u "local_path", dget_none (u "local_path") entry)] in
  if negb (str_eqb a (u "add"))
  then match l with
       | Some _ => throw (op_refused (u "delete") p " must not carry a local_path")
       | None => lift (publication_op a p None None);; ret op_entry
       end
  else upgrade_legacy_add_operation p l i snapshot_dir op_entry.

Fixpoint upgrade_from (i : nat) (entries : list pyval) (snapshot_dir : path)
    : PyM FsState (list pydict) :=
  match entries with
  | [] => ret []
  | entry :: entries =>
      one <- upgrade_legacy_operation entry i snapshot_dir;;
      rest <- upgrade_from (S i) entries snapshot_dir;;
      ret (one :: rest)
  end.

(** [_upgrade_legacy_envelope]: the sequence, the new envelope and its snapshot directory. *)
Definition upgrade_legacy_envelope (legacy_path : path) (payload : pydict) : M (Z * pydict * path) :=
  sequence <- allocate_sequence;;
  let snapshot_dir := snapshot_dir_for_sequence sequence in
  on_fs (
    mkdir snapshot_dir;;
    entries <- lift (ops_of payload);;
    new <- upgrade_from 0 entries snapshot_dir;;
    let envelope := make_envelope sequence (py_str (default (VStr []) (dget (u "message") payload))) new in
    write_envelope (state_path_for sequence) envelope;;
    unlink legacy_path;;
    ret (sequence, envelope, snapshot_dir)).

(** [_upgrade_pending_legacy]: what was upgraded, and the failures. *)
Record Upgrades := {
  up_jobs : list (Z * path * pydict * path); up_seen : list Z; up_failures : list pymsg }.

Definition legacy_failure (p : path) (e : exn) : pymsg :=
  FStr (u "legacy envelope " ++ path_name p ++ u ": skipped, ") :: exn_msg e.

Definition upgrade_one (acc : Upgrades) (legacy : path * pydict) : M Upgrades :=
  result <- try_except (r <- upgrade_legacy_envelope legacy.1 legacy.2;; ret (inl r))
    (fun e => if resume_failure e then Some (ret (inr (legacy_failure legacy.1 e))) else None);;
  match result with
  | inr failure =>
      ret {| up_jobs := up_jobs acc; up_seen := up_seen acc; up_failures := up_failures acc ++ [failure] |}
  | inl (sequence, envelope, snapshot_dir) =>
      if bool_decide (sequence ∈ up_seen acc)
      then
        on_fs (remove_failed_upgrade sequence snapshot_dir);;
        throw (exc CValueError [FStr (u "Legacy upgrade produced duplicate sequence "); FInt sequence;
                                FStr (u "; refusing to upload")])
      else
        ret {| up_jobs := up_jobs acc ++ [(sequence, state_path_for sequence, envelope, snapshot_dir)];
               up_seen := sequence :: up_seen acc; up_failures := up_failures acc |}
  end.

Fixpoint upgrade_pending_legacy (acc : Upgrades) (legacy : list (path * pydict)) : M Upgrades :=
  match legacy with
  | [] => ret acc
  | l :: legacy => acc <- upgrade_one acc l;; upgrade_pending_legacy acc legacy
  end.

Definition job_le (a b : Z * path * pydict * path) : Prop := a.1.1.1 <= b.1.1.1.
#[local] Instance job_le_dec : RelDecision job_le := fun a b => decide (a.1.1.1 <= b.1.1.1).

(** [_ordered_pending_jobs]: a stable sort by sequence. *)
Definition ordered_pending_jobs (current : list (Z * path * pydict))
    (upgraded : list (Z * path * pydict * path)) : list (Z * path * pydict * path) :=
  merge_sort job_le
    (((fun c => (c, snapshot_dir_for_sequence c.1.1)) <$> current) ++ upgraded).

Definition add_restored (acc : list StoredUpload * list pymsg) (job : Z * path * pydict * path)
    : outcome (list StoredUpload * list pymsg) :=
  restored ← restore_pending_job job.1.1.2 job.1.2 job.2;
  mret match restored with
       | inl upload => (acc.1 ++ [upload], acc.2)
       | inr failure => (acc.1, acc.2 ++ [failure])
       end.

(** [resume_pending]. *)
Definition resume_pending : M ResumeResult :=
  pending <- read_tree pending_envelopes;;
  upgrades <- upgrade_pending_legacy
    {| up_jobs := []; up_seen := pe_seen pending; up_failures := [] |} (pe_legacy pending);;
  let jobs := ordered_pending_jobs (pe_current pending) (up_jobs upgrades) in
  restored <- lift (fold_outcome add_restored ([], up_failures upgrades) jobs);;
  ret {| rr_uploads := restored.1; rr_failures := restored.2; rr_discovered := length jobs |}.

(** * Finishing *)

(** [delete]. *)
Definition delete_upload (state_path : path) (snapshot_dir : option path) : PyM FsState unit :=
  unlink state_path;;
  match snapshot_dir with
  | None => ret tt
  | Some d =>
      if negb (is_inside d snapshots_root)
      then throw (exc CValueError [FStr (u "snapshot_dir " ++ path_str d ++ u " is outside " ++
                                     path_str snapshots_root ++ u "; refusing to delete")])
      else rmtree d
  end.

Definition effective_snapshot (op : PublicationOp) : option path :=
  if negb (str_eqb (action op) (u "add")) then None
  else match snapshot_path op with Some p => Some p | None => local_path op end.

(** [snapshot_mismatch]: the failure message for a changed snapshot. *)
Definition snapshot_mismatch (message : str) (op : PublicationOp) (recorded : pyval)
    (t : gmap path node) : outcome (option pymsg) :=
  match effective_snapshot op with
  | None => mret None
  | Some p =>
      if negb (py_truthy recorded) then mret None
      else
        actual ← sha256_file p t;
        mret (if py_eqb (VStr actual) recorded then None
              else Some [FStr (message ++ u ": SHA mismatch for " ++ path_str p ++ u " (recorded " ++
                                py_str recorded ++ u ", actual " ++ actual ++ u ")")])
  end.

(** [UploadStateStore.__init__]. *)
Definition open_store (fs : FsState) : outcome unit * QState :=
  match mkdir state_dir fs with
  | (Ok _, fs) => (Ok tt, mkQ fs (next_sequence_from_state_dir (tree fs)))
  | (Raise e, fs) => (Raise e, mkQ fs 0)
  end.
End Store.
