(* ===== verification/UploadProofs.v ===== *)
(** What the upload state guarantees: sequence numbers are never reused, a persisted upload is
    resumed as it was, and a failed submission leaves nothing behind. *)
From S2P Require Import Prelude Py PyStr PyText Decimal Fs Keeps Artifacts Paths Atomic UploadState.

Section Proofs.
Context {RT : Runtime} {FF : FileFormats}.
Context (temporary_middle : gmap path node -> path -> str) (state_dir cwd : path).
Hypothesis temporary_fresh : forall t p, t !! temporary_name temporary_middle p t = None.

Abbreviation highwater_path := (child state_dir HIGHWATER_FILENAME).
Abbreviation persist := (UploadState.persist temporary_middle state_dir).
Abbreviation write_envelope := (UploadState.write_envelope temporary_middle).
Abbreviation state_path n := (state_path_for state_dir n).
Abbreviation snapshot_dir n := (snapshot_dir_for_sequence state_dir n).

(** * Frames *)

Lemma keeps_atomic_write_json q target v : q ≠ target -> keeps q (atomic_write_json temporary_middle target v).
Proof.
  intros Hne s o s' n Hq E. apply atomic_write_json_replaced in E as [_ Ho _]; [|done]. by apply Ho.
Qed.

Lemma keeps_unlink q p : q ≠ p -> keeps q (unlink p).
Proof.
  intros Hne. apply keeps_primitive. intros t n Hq. unfold unlink_tree.
  destruct (t !! p) as [[]|]; simpl; rewrite ?lookup_delete_ne by done; done.
Qed.

Lemma keeps_on_error {A} q (m : PyM FsState A) h : keeps q m -> keeps q h -> keeps q (on_error m h).
Proof.
  intros Hm Hh s o s' n Hq E. unfold on_error in E. destruct (m s) as [[a|e] s1] eqn:E1.
  - simplify_eq. by eapply Hm.
  - destruct (h s1) as [[]] eqn:E2; simplify_eq; (eapply Hh; [|exact E2]; by eapply Hm).
Qed.

Lemma child_inj d a b : child d a = child d b -> a = b.
Proof. unfold child. intros H%app_inj_tail. tauto. Qed.

Lemma keeps_take_snapshot q l i d :
  relative_to q (child d (op_name i)) = None -> keeps q (take_snapshot l i d).
Proof.
  intros Hd. unfold take_snapshot, independent_copy. apply keeps_bind; [apply keeps_mkdir|intros _].
  apply keeps_bind.
  - apply keeps_bind; [apply keeps_mkdir|intros _]. apply keeps_copy_file. intros <-.
    pose proof (relative_to_app (child d (op_name i)) [path_name l]). unfold child in *. congruence.
  - intros _. apply keeps_bind; [by apply keeps_pure|intros]. by apply keeps_pure.
Qed.

Lemma keeps_snapshot_from q i ops d :
  (forall d' j, d = Some d' -> (i <= j)%nat -> relative_to q (child d' (op_name j)) = None) ->
  keeps q (snapshot_from i ops d).
Proof.
  revert i. induction ops as [|op ops IH]; intros i Hd; [by apply keeps_pure|].
  apply keeps_bind; [|intros; apply keeps_bind; [apply IH; intros; apply Hd; [done|lia]|intros; by apply keeps_pure]].
  unfold snapshot_operation, snapshot_add_operation. case_match; [by apply keeps_pure|].
  destruct d as [d|]; [|by apply keeps_pure]. case_match; [|by apply keeps_pure].
  apply keeps_bind; [by apply keeps_pure|intros present]. case_match; [by apply keeps_pure|].
  apply keeps_bind; [by apply keeps_take_snapshot, Hd|intros taken].
  apply keeps_bind; [by apply keeps_pure|intros; by apply keeps_pure].
Qed.

Lemma keeps_snapshot_operations q ops n :
  relative_to q (snapshot_dir n) = None -> keeps q (snapshot_operations state_dir ops n).
Proof.
  intros Hd. unfold snapshot_operations, submission_snapshot_dir.
  assert (Hrest : forall d, (forall d', d = Some d' -> relative_to q d' = None) ->
    keeps q (pbind (snapshot_from 0 ops d) (fun taken => ret (taken, d)))).
  { intros d H. apply keeps_bind; [|intros; by apply keeps_pure]. apply keeps_snapshot_from.
    intros d' j Hd' _. eapply below_elsewhere; [by apply H|apply below_app, below_self]. }
  intros s o s' node Hq E. unfold pbind at 1 in E. destruct (existsb _ ops); simpl in E.
  - unfold pbind at 1 in E. destruct (mkdir (snapshot_dir n) s) as [[[]|e] s1] eqn:E1;
      assert (Hq1 : tree s1 !! q = Some node) by (by eapply keeps_mkdir).
    + unfold ret at 1 in E. eapply (Hrest (Some (snapshot_dir n))); [by intros ? [= <-]|exact Hq1|exact E].
    + by simplify_eq.
  - unfold ret at 1 in E. eapply (Hrest None); [done|exact Hq|exact E].
Qed.

Lemma keeps_cleanup q p d :
  q ≠ p -> (forall d', d = Some d' -> relative_to q d' = None) ->
  keeps q (cleanup_failed_submission state_dir p d).
Proof.
  intros Hp Hd. unfold cleanup_failed_submission. apply keeps_bind; [by apply keeps_unlink|intros _].
  destruct d as [d|]; [|by apply keeps_pure]. case_match; [|by apply keeps_pure]. by apply keeps_rmtree, Hd.
Qed.

(** A file of the state directory or elsewhere that is neither this upload's envelope nor in its
    snapshot directory survives the submission. *)
Lemma snapshot_and_write_keeps ops message n (s s' : FsState) o :
  snapshot_and_write temporary_middle state_dir ops message n s = (o, s') ->
  forall q node, tree s !! q = Some node -> q ≠ state_path n -> relative_to q (snapshot_dir n) = None ->
    tree s' !! q = Some node.
Proof.
  intros E q node Hq Hp Hd. revert E. unfold snapshot_and_write.
  assert (Hbody : forall d, (forall d', d = Some d' -> relative_to q d' = None) ->
    keeps q (cleanup_failed_submission state_dir (state_path n) d)) by (intros; by apply keeps_cleanup).
  unfold pbind at 1. destruct (on_error (snapshot_operations state_dir ops n) _ s) as [[taken|e] s1] eqn:E1;
    assert (Hq1 : tree s1 !! q = Some node).
  1,3: eapply (keeps_on_error q _ _ (keeps_snapshot_operations q ops n Hd)); [|exact Hq|exact E1];
       apply Hbody; by intros ? [= <-].
  2: { intros. by simplify_eq. }
  intros E. eapply (keeps_bind q); [| |exact Hq1|exact E]; [|intros; by apply keeps_pure].
  apply keeps_on_error; [by apply keeps_atomic_write_json|]. apply Hbody. intros d' Hd'.
  assert (taken.2 = None \/ taken.2 = Some (snapshot_dir n)) as [?|?]; [|congruence|congruence].
  clear -E1. unfold on_error in E1. destruct (snapshot_operations state_dir ops n s) as [[t|e] s2] eqn:E2.
  - simplify_eq. apply pym_bind_Ok in E2 as (d & s3 & E3 & E2).
    apply pym_bind_Ok in E2 as (l & s4 & _ & E2). unfold ret in E2. simplify_eq. simpl.
    unfold submission_snapshot_dir in E3. destruct (existsb _ ops); simpl in E3.
    + apply pym_bind_Ok in E3 as ([] & s5 & _ & E3). unfold ret in E3. simplify_eq. by right.
    + unfold ret in E3. simplify_eq. by left.
  - by destruct (cleanup_failed_submission _ _ _ s2) as [[]].
Qed.
(** * Sequence numbers *)

Lemma write_text_replaced target text (s s' : FsState) o :
  ascii text -> atomic_write_text temporary_middle target text s = (o, s') ->
  replaced target (fun c => c = CBytes text) s o s'.
Proof.
  intros Ha E. eapply atomic_replacement_cases in E as (s1 & H & _); [exact H|done|].
  intros tmp sx ox sx' Ex. rewrite utf8_encode_ascii in Ex by done. by apply write_fills.
Qed.

Lemma highwater_text n : 0 <= n -> ascii (str_of_Z n ++ [10%N]).
Proof.
  intros Hn. apply Forall_app. split; [|by repeat constructor].
  eapply digits_ascii, str_of_Z_digits, Hn.
Qed.

Lemma read_highwater_written n t :
  0 <= n -> t !! highwater_path = Some (File (CBytes (str_of_Z n ++ [10%N]))) ->
  read_highwater state_dir t = n.
Proof.
  intros Hn Ht. destruct (str_of_Z_digits n Hn) as [Hd Hne]. unfold read_highwater, is_file, read_text, read_bytes.
  rewrite Ht. simpl. rewrite utf8_decode_ascii by by apply highwater_text. simpl.
  rewrite strip_newline; [|done|].
  - rewrite (int_of_str_digits n) by done. lia.
  - destruct Hd as [HF _]. eapply Forall_impl; [exact HF|]. apply ascii_digit_nonspace.
Qed.

Lemma allocate_sequence_Ok s n s' :
  0 <= q_next s -> allocate_sequence temporary_middle state_dir s = (Ok n, s') ->
  n = q_next s /\ q_next s' = n + 1 /\
  tree (q_fs s') !! highwater_path = Some (File (CBytes (str_of_Z n ++ [10%N]))).
Proof.
  intros Hn E. unfold allocate_sequence in E.
  apply pym_bind_Ok in E as (n' & s1 & [= <- <-] & E). apply pym_bind_Ok in E as ([] & s2 & [= <-] & E).
  apply pym_bind_Ok in E as ([] & s3 & E3 & E). unfold ret in E. simplify_eq.
  unfold on_fs in E3. destruct (write_highwater _ _ _ _) as [o fs] eqn:Ew. simplify_eq. simpl.
  apply write_text_replaced in Ew as [[[[e ?] _]|(_ & c & -> & Hc)] _ _]; [done|..]; [|by apply highwater_text].
  done.
Qed.

Lemma scanned_nonneg t : 0 <= scanned_sequence state_dir t.
Proof.
  unfold scanned_sequence. assert (H : forall l acc, 0 <= acc ->
    0 <= foldl (fun h p => Z.max h (sequence_from_state_path p t)) acc l).
  { induction l as [|p l IH]; intros acc Ha; simpl; [done|]. apply IH. lia. }
  by apply H.
Qed.

Lemma highwater_not_envelope n : 0 <= n -> HIGHWATER_FILENAME ≠ sequence_name n ++ u ".json".
Proof.
  intros Hn H. symmetry in H. by apply (zero_pad_not_dot 6 n _ (u "highwater")) in H.
Qed.

(** Sequence numbers are never reused.  A submission that returns took the next sequence
    number for its envelope; and a store that is opened later on the state directory - whatever
    happened to the envelopes in between, so also after they were uploaded and deleted - starts
    beyond it, as long as the high-water mark is what the submission wrote. *)
Theorem sequences_never_reused ops message s stored s' :
  0 <= q_next s -> persist ops message s = (Ok stored, s') ->
  su_state_path stored = state_path (q_next s) /\ q_next s' = q_next s + 1 /\
  forall fs o st,
    tree fs !! highwater_path = tree (q_fs s') !! highwater_path ->
    open_store state_dir fs = (o, st) -> o = Ok tt -> q_next st > q_next s.
Proof.
  intros Hn E. apply pym_bind_Ok in E as (n & s1 & E1 & E).
  apply allocate_sequence_Ok in E1 as (-> & Hn1 & Hh); [|done].
  apply pym_bind_Ok in E as (taken & s2 & E2 & E). unfold ret in E. simplify_eq.
  unfold on_fs in E2. destruct (snapshot_and_write _ _ _ _ _ _) as [o2 fs2] eqn:Ew. simplify_eq.
  split_and!; [done|done|]. intros fs o st Hfs Ho ->.
  apply (snapshot_and_write_keeps _ _ _ _ _ _ Ew) in Hh; simpl in Hfs.
  - unfold open_store in Ho. destruct (mkdir state_dir fs) as [[[]|e] fs'] eqn:Em; [|done]. simplify_eq. simpl.
    rewrite <- Hfs in Hh. pose proof (keeps_mkdir _ _ _ _ _ _ Hh Em) as Hh'.
    unfold next_sequence_from_state_dir.
    assert (Hd : is_dir state_dir (tree fs') = true) by (by eapply mkdir_is_dir).
    rewrite Hd. simpl. rewrite (read_highwater_written (q_next s)) by done. lia.
  - unfold state_path_for. intros H%child_inj. by eapply highwater_not_envelope.
  - apply not_below_shallower. unfold snapshot_dir_for_sequence, snapshots_root, child.
    rewrite !length_app. simpl. lia.
Qed.
(** * A failed submission *)

(** Nothing at the envelope's path nor in the snapshot directory. *)
Definition gone (n : Z) (t : gmap path node) : Prop :=
  t !! state_path n = None /\ forall x, t !! (snapshot_dir n ++ x) = None.

Lemma replaced_absent target want s o s' q :
  replaced target want s o s' -> q ≠ target -> ~ temporary_sibling target q ->
  q ∉ prefixes (path_parent target) -> tree s !! q = None -> tree s' !! q = None.
Proof.
  intros [_ _ Hn] Hq Hl Hp Ha. destruct (tree s' !! q) as [n|] eqn:E; [|done].
  by destruct (Hn _ _ Hq Ha E) as [[_ ?]|(_ & _ & ?)].
Qed.

Lemma snapshot_is_inside n : 0 <= n -> is_inside (snapshot_dir n) (snapshots_root state_dir) = true.
Proof.
  intros Hn. unfold is_inside, snapshot_dir_for_sequence, child. apply bool_decide_eq_true.
  rewrite resolve_app, relative_to_app; [eauto|]. intros H%list_elem_of_singleton.
  apply (zero_pad_not_dot 6 n [] (u ".") Hn). by rewrite app_nil_r.
Qed.

(** A file written into the state directory adds nothing to a snapshot directory. *)
Lemma no_snapshot_replaced n target want s o s' :
  path_parent target = state_dir -> replaced target want s o s' ->
  (forall x, tree s !! (snapshot_dir n ++ x) = None) -> forall x, tree s' !! (snapshot_dir n ++ x) = None.
Proof.
  intros Hp Hr H x. pose proof (length_parent target) as Ht. rewrite Hp in Ht.
  assert (Hsub : (length state_dir + 1 < length (snapshot_dir n ++ x))%nat).
  { unfold snapshot_dir_for_sequence, snapshots_root, child. rewrite !length_app. simpl. lia. }
  eapply replaced_absent; [done|..|done].
  - intros E. rewrite E in Hsub. lia.
  - intros [_ E]. pose proof (length_parent (snapshot_dir n ++ x)). rewrite E, Hp in *. lia.
  - intros Hin%prefixes_shorter. rewrite Hp in Hin. lia.
Qed.

Lemma gone_replaced n target want s o s' :
  0 <= n -> path_parent target = state_dir -> target ≠ state_path n ->
  replaced target want s o s' -> gone n (tree s) -> gone n (tree s').
Proof.
  intros Hn Hp Ht Hr [H1 H2]. split; [|by eapply no_snapshot_replaced].
  eapply replaced_absent; [done|done|..|done].
  - intros [Hl _]. unfold temporary_like, state_path_for in Hl. rewrite path_name_child in Hl.
    apply andb_true_iff in Hl as [Hl _]. unfold startswith in Hl.
    apply bool_decide_eq_true in Hl as [r Hl]. apply strip_prefix_Some in Hl.
    by eapply (zero_pad_not_dot 6 n _ _ Hn).
  - intros Hin%prefixes_shorter. rewrite Hp in Hin. unfold state_path_for, child in Hin.
    rewrite length_app in Hin. simpl in Hin. lia.
Qed.

(** The envelope is removed, but a removal in the snapshot directory failed. *)
Definition leftover (n : Z) (s' : FsState) : Prop :=
  tree s' !! state_path n = None /\ exists fs o, ~ calm fs /\ rmtree (snapshot_dir n) fs = (o, s').

Lemma cleanup_gone n d s o s' :
  cleanup_failed_submission state_dir (state_path n) d s = (o, s') ->
  d = Some (snapshot_dir n) \/ d = None /\ (forall x, tree s !! (snapshot_dir n ++ x) = None) ->
  0 <= n -> gone n (tree s') \/ leftover n s' \/ exists e, o = Raise e /\ unlink (state_path n) s = (Raise e, s').
Proof.
  intros E Hd Hn. unfold cleanup_failed_submission, pbind at 1 in E.
  destruct (unlink (state_path n) s) as [[[]|e] s1] eqn:Eu; [|simplify_eq; eauto].
  assert (Ht1 : tree s1 = delete (state_path n) (tree s)).
  { apply primitive_cases in Eu as [(? & ? & _)|Eu]; [done|]. unfold unlink_tree in Eu.
    by destruct (tree s !! state_path n) as [[]|]; simplify_eq. }
  assert (Hne : forall x, state_path n ≠ snapshot_dir n ++ x).
  { intros x H. apply (f_equal length) in H. unfold state_path_for, snapshot_dir_for_sequence, snapshots_root, child in H.
    rewrite !length_app in H. simpl in H. lia. }
  destruct Hd as [->|[-> Ha]].
  - rewrite snapshot_is_inside in E by done.
    assert (Hs : tree s' !! state_path n = None).
    { destruct (rmtree_subset _ _ _ _ E (state_path n)) as [->|[? _]]; [|done]. rewrite Ht1. apply lookup_delete_eq. }
    destruct (decide (Forall (fun f => f = None) (faults s1))) as [Hc|Hc]; [left|right; left; split; eauto].
    split; [done|]. destruct (rmtree_calm (snapshot_dir n) s1 Hc) as (s2 & E2 & _ & Hg). rewrite E in E2. by injection E2 as _ <-.
  - left. unfold ret in E. simplify_eq. split; [rewrite Ht1; apply lookup_delete_eq|].
    intros x. rewrite Ht1, lookup_delete_ne by done. apply Ha.
Qed.

Lemma snapshot_from_None i ops s : (snapshot_from i ops None s).2 = s.
Proof.
  revert i s. induction ops as [|op ops IH]; intros i s; [done|]. simpl. unfold pbind, snapshot_operation.
  destruct (negb _); [|done]. simpl. specialize (IH (S i) s).
  by destruct (snapshot_from (S i) ops None s) as [[] ?].
Qed.

Lemma snapshot_operations_Ok ops n taken s s' :
  snapshot_operations state_dir ops n s = (Ok taken, s') ->
  taken.2 = Some (snapshot_dir n) \/ taken.2 = None /\ s' = s.
Proof.
  unfold snapshot_operations, submission_snapshot_dir. intros E.
  apply pym_bind_Ok in E as (d & s1 & E1 & E). apply pym_bind_Ok in E as (l & s2 & E2 & E).
  unfold ret in E. simplify_eq. simpl. destruct (existsb _ ops); simpl in E1.
  - apply pym_bind_Ok in E1 as ([] & s5 & _ & E1). unfold ret in E1. simplify_eq. by left.
  - unfold ret in E1. simplify_eq. pose proof (snapshot_from_None 0 ops s1) as H. rewrite E2 in H. by right.
Qed.

(** A handler that raises replaces the error. *)
Lemma on_error_Raise {A} (m : PyM FsState A) h s e s' :
  on_error m h s = (Raise e, s') ->
  exists e0 s1 o, m s = (Raise e0, s1) /\ h s1 = (o, s') /\ (forall e', o = Raise e' -> e = e').
Proof.
  unfold on_error. destruct (m s) as [[a|e0] s1]; [done|].
  destruct (h s1) as [[[]|e'] s2] eqn:E; intros; simplify_eq; do 3 eexists; (split_and!; [done..|]); by intros ? [=].
Qed.

Lemma snapshot_and_write_failed ops message n s e s' :
  0 <= n -> gone n (tree s) ->
  snapshot_and_write temporary_middle state_dir ops message n s = (Raise e, s') ->
  gone n (tree s') \/ leftover n s' \/ exists fs, unlink (state_path n) fs = (Raise e, s').
Proof.
  intros Hn Hg E. assert (Hclean : forall d s1 o, cleanup_failed_submission state_dir (state_path n) d s1 = (o, s') ->
    (forall e', o = Raise e' -> e = e') ->
    d = Some (snapshot_dir n) \/ d = None /\ (forall x, tree s1 !! (snapshot_dir n ++ x) = None) ->
    gone n (tree s') \/ leftover n s' \/ exists fs, unlink (state_path n) fs = (Raise e, s')).
  { intros d s1 o E1 He Hd. destruct (cleanup_gone _ _ _ _ _ E1 Hd Hn) as [?|[?|(e1 & -> & Eu)]]; [by left|by right; left|].
    rewrite (He e1 eq_refl). eauto. }
  unfold snapshot_and_write, pbind at 1 in E.
  destruct (on_error (snapshot_operations state_dir ops n) _ s) as [[taken|e0] s1] eqn:E1.
  - assert (E2 : snapshot_operations state_dir ops n s = (Ok taken, s1)).
    { unfold on_error in E1. destruct (snapshot_operations state_dir ops n s) as [[t|e0] s2]; [done|].
      by destruct (cleanup_failed_submission _ _ _ s2) as [[]]. }
    unfold pbind in E. destruct (on_error (write_envelope _ _) _ s1) as [[[]|e1] s3] eqn:E3; simplify_eq.
    apply on_error_Raise in E3 as (e0 & s4 & o & Ew & Eh & He).
    eapply Hclean; [exact Eh|done|]. apply snapshot_operations_Ok in E2 as [->|[-> ->]]; [by left|right].
    split; [done|]. apply atomic_write_json_replaced in Ew; [|done].
    eapply no_snapshot_replaced; [|exact Ew|apply Hg]. unfold state_path_for. by rewrite path_parent_child.
  - simplify_eq. apply on_error_Raise in E1 as (e0 & s4 & o & _ & Eh & He).
    eapply Hclean; [exact Eh|done|by left].
Qed.

(** A failed submission leaves nothing behind.  When [persist] raises - a local file is
    missing, a copy or the envelope cannot be written, at any point - neither the envelope nor
    anything in the upload's snapshot directory is left, provided neither existed before; unless
    the clean-up fails as well: then the envelope could not be removed and that is the error raised,
    or only parts of the snapshot directory are left. *)
Theorem failed_submission_leaves_nothing ops message s e s' :
  0 <= q_next s -> gone (q_next s) (tree (q_fs s)) ->
  persist ops message s = (Raise e, s') ->
  gone (q_next s) (tree (q_fs s')) \/ leftover (q_next s) (q_fs s') \/
  exists fs, unlink (state_path (q_next s)) fs = (Raise e, q_fs s').
Proof.
  intros Hn Hg E. unfold UploadState.persist, pbind at 1 in E.
  destruct (allocate_sequence temporary_middle state_dir s) as [o s1] eqn:E1.
  assert (gone (q_next s) (tree (q_fs s1)) /\ (forall n, o = Ok n -> n = q_next s)) as [Hg1 Ho].
  { unfold allocate_sequence, pbind, on_fs in E1. simpl in E1.
    destruct (write_highwater _ _ _ _) as [o1 fs] eqn:Ew.
    apply write_text_replaced in Ew; [|by apply highwater_text].
    assert (s1 = mkQ fs (q_next s + 1) /\ forall n, o = Ok n -> n = q_next s) as [-> Ho].
    { destruct o1 as [[]|]; unfold ret in E1; simplify_eq; (split; [reflexivity|]); intros; by simplify_eq. }
    split; [|done]. eapply gone_replaced; [done|apply path_parent_child| |exact Ew|done].
    intros H%child_inj. by eapply highwater_not_envelope. }
  destruct o as [n|e1]; [|simplify_eq; by left]. specialize (Ho n eq_refl). subst n.
  unfold pbind, on_fs in E. destruct (snapshot_and_write _ _ _ _ _ _) as [[taken|e2] fs] eqn:E2; [done|].
  simplify_eq. simpl. by eapply snapshot_and_write_failed.
Qed.
End Proofs.
