(* ===== verification/UploadResume.v ===== *)
(** A persisted upload is resumed as it was: its operations, message and recorded digests come
    back from the envelope, and the digests are those of the snapshots on disk. *)
From S2P Require Import Prelude Py PyStr PyText Decimal Fs Keeps Artifacts Paths Atomic UploadState UploadProofs.

Lemma optional_path_str cwd p : clean_path p -> optional_path cwd (VStr (path_str p)) = Ok (Some p).
Proof.
  intros Hp. unfold optional_path. simpl. f_equal. f_equal.
  change (path_components (path_str p) = p). by apply path_components_str.
Qed.

Lemma digits_plain n s : digits_of n s -> s ≠ [] -> plain s.
Proof.
  intros [HF _] Hne. split_and!; [done| |].
  - intros ->. inversion HF as [|? ? Hc _]. by vm_compute in Hc.
  - intros Hin. rewrite Forall_forall in HF. specialize (HF _ Hin). by vm_compute in HF.
Qed.

Lemma zero_pad_plain w n : 0 <= n -> plain (zero_pad w n).
Proof. intros Hn. destruct (zero_pad_digits w n Hn) as [Hd Hne]. by eapply digits_plain. Qed.

Lemma op_name_inj i j : op_name i = op_name j -> i = j.
Proof. intros H%zero_pad_inj; lia. Qed.

Section Resume.
Context {RT : Runtime} {FF : FileFormats}.
Context (temporary_middle : gmap path node -> path -> str) (state_dir cwd : path).
Hypothesis temporary_fresh : forall t p, t !! temporary_name temporary_middle p t = None.
Hypothesis state_dir_clean : clean_path state_dir.

Abbreviation persist := (UploadState.persist temporary_middle state_dir).
Abbreviation state_path n := (state_path_for state_dir n).
Abbreviation snapshot_dir n := (snapshot_dir_for_sequence state_dir n).

(** An operation as its constructor builds it, before its snapshot is taken: an added file has a
    proper path, and a deletion carries none. *)
Definition fresh_op (op : PublicationOp) : Prop :=
  action op = u "add" /\ snapshot_path op = None /\
    (exists l, local_path op = Some l /\ clean_path l /\ l ≠ [] /\ path_name l ≠ u "..") \/
  action op = u "delete" /\ local_path op = None /\ snapshot_path op = None.

Lemma snapshot_dir_clean n : 0 <= n -> clean_path (snapshot_dir n).
Proof.
  intros Hn. unfold clean_path, snapshot_dir_for_sequence, snapshots_root, child.
  apply Forall_app. split; [apply Forall_app; split; [done|]|].
  - constructor; [|done]. split_and!; [done|done|]. by_evaluation.
  - constructor; [by apply zero_pad_plain|done].
Qed.

(** Where the snapshot of operation [i] goes. *)
Definition snapshot_of (d : path) (i : nat) (l : path) : path := child (child d (op_name i)) (path_name l).

Lemma snapshot_of_inside n i l :
  path_name l ≠ u ".." -> is_inside (snapshot_of (snapshot_dir n) i l) (snapshot_dir n) = true.
Proof.
  intros Hl. unfold is_inside, snapshot_of, child. apply bool_decide_eq_true.
  rewrite <- app_assoc, resolve_app, relative_to_app; [eauto|].
  rewrite not_elem_of_app, !not_elem_of_cons. split_and!; [|apply not_elem_of_nil|done|apply not_elem_of_nil].
  intros H. symmetry in H. apply (zero_pad_not_dot 3 (Z.of_nat i) [] (u ".")); [lia|]. by rewrite app_nil_r.
Qed.

Lemma take_snapshot_Ok l i d s snap digest s' :
  take_snapshot l i d s = (Ok (snap, digest), s') ->
  snap = snapshot_of d i l /\ sha256_file snap (tree s') = Ok digest.
Proof.
  intros E. apply pym_bind_Ok in E as ([] & s1 & _ & E). apply pym_bind_Ok in E as ([] & s2 & _ & E).
  apply pym_bind_Ok in E as (h & s3 & Eh & E). unfold ret in E. unfold reads in Eh. by simplify_eq.
Qed.

(** The operation and the entry that [snapshot_operation] makes. *)
Inductive taken_operation (i : nat) (n : Z) (op : PublicationOp) (t : gmap path node) :
    PublicationOp * pydict -> Prop :=
  | TakenDelete :
      action op = u "delete" -> local_path op = None -> snapshot_path op = None ->
      taken_operation i n op t (op, operation_entry op)
  | TakenAdd l digest :
      action op = u "add" -> local_path op = Some l -> clean_path l -> l ≠ [] -> path_name l ≠ u ".." ->
      sha256_file (snapshot_of (snapshot_dir n) i l) t = Ok digest ->
      taken_operation i n op t
        ({| action := u "add"; path_in_repo := path_in_repo op; local_path := Some l;
            snapshot_path := Some (snapshot_of (snapshot_dir n) i l) |},
         snapshot_entry (operation_entry op) (snapshot_of (snapshot_dir n) i l) digest).

Lemma snapshot_operation_taken op i d n s taken s' :
  fresh_op op -> (forall d', d = Some d' -> d' = snapshot_dir n) ->
  snapshot_operation op i d s = (Ok taken, s') -> taken_operation i n op (tree s') taken.
Proof.
  intros Hop Hd E. unfold snapshot_operation in E.
  destruct Hop as [(Ha & Hs & l & Hl & Hc & Hne & Hdots)|(Ha & Hl & Hs)]; rewrite Ha in E; simpl in E.
  - destruct d as [d|]; [|done]. specialize (Hd d eq_refl). subst d.
    unfold snapshot_add_operation in E. rewrite Hl in E.
    apply pym_bind_Ok in E as (present & s1 & _ & E). destruct present; [|done]. simpl in E.
    apply pym_bind_Ok in E as ([snap digest] & s2 & [-> E2]%take_snapshot_Ok & E).
    apply pym_bind_Ok in E as (new & s3 & E3 & E). unfold ret in E. simplify_eq. simpl in *.
    unfold lift in E3. rewrite Ha in E3. unfold publication_op in E3. simpl in E3. unfold mret, outcome_ret in E3.
    simplify_eq. by apply TakenAdd.
  - unfold ret in E. simplify_eq. by apply TakenDelete.
Qed.

(** What one entry of the envelope says is read back. *)
Lemma taken_resumes i n op t taken p :
  0 <= n -> taken_operation i n op t taken ->
  resume_operation cwd (VDict taken.2) p (snapshot_dir n) = Ok (taken.1, dget_none (u "sha256") taken.2).
Proof.
  intros Hn [Ha Hl Hs|l digest Ha Hl Hc Hne Hdots _]; simpl; unfold resume_operation, operation_entry; rewrite Ha, Hl; simpl.
  - unfold publication_op. simpl. destruct op; simpl in *; subst. reflexivity.
  - assert (Hsc : clean_path (snapshot_of (snapshot_dir n) i l)).
    { unfold snapshot_of, child, clean_path. rewrite !Forall_app, !Forall_singleton.
      split_and!; [by apply snapshot_dir_clean|apply zero_pad_plain; lia|by apply path_name_plain]. }
    rewrite !path_components_str by done. by rewrite snapshot_of_inside.
Qed.

(** The recorded digest is that of the snapshot. *)
Lemma taken_matches i n op t taken message :
  taken_operation i n op t taken ->
  snapshot_mismatch message taken.1 (dget_none (u "sha256") taken.2) t = Ok None.
Proof.
  intros [Ha Hl Hs|l digest Ha Hl Hc Hne Hdots Hd]; unfold snapshot_mismatch, effective_snapshot; simpl.
  - by rewrite Ha.
  - rewrite Hd. case_match; [done|]. simpl. by rewrite str_eqb_refl.
Qed.

Lemma taken_kept i n op t t' taken :
  taken_operation i n op t taken ->
  (forall l node, t !! snapshot_of (snapshot_dir n) i l = Some node ->
     t' !! snapshot_of (snapshot_dir n) i l = Some node) ->
  taken_operation i n op t' taken.
Proof.
  intros [?|l digest Ha Hl Hc Hne Hdots Hs] Hk; [by apply TakenDelete|]. apply TakenAdd; try done.
  unfold sha256_file, read_bytes in *. destruct (t !! _) as [node|] eqn:Hq; [|done].
  by rewrite (Hk _ _ Hq).
Qed.

(** Later operations have their own directories. *)
Lemma taken_later i n op taken ops d (s s' : FsState) o :
  (forall d', d = Some d' -> d' = snapshot_dir n) -> taken_operation i n op (tree s) taken ->
  snapshot_from (S i) ops d s = (o, s') -> taken_operation i n op (tree s') taken.
Proof.
  intros Hd Ht E. eapply taken_kept; [exact Ht|]. intros l node Hq.
  eapply keeps_snapshot_from; [|exact Hq|exact E].
  intros d' j Hd' Hj. rewrite (Hd d' Hd'). unfold snapshot_of, child.
  destruct (relative_to _ _) as [r|] eqn:Er; [|done]. apply relative_to_spec in Er.
  rewrite <- !app_assoc in Er. apply app_inv_head in Er. simpl in Er. injection Er as Er _.
  apply op_name_inj in Er. lia.
Qed.

Lemma snapshot_from_taken i ops d n s taken s' :
  Forall fresh_op ops -> (forall d', d = Some d' -> d' = snapshot_dir n) ->
  snapshot_from i ops d s = (Ok taken, s') ->
  Forall (fun x => exists i op, taken_operation i n op (tree s') x) taken.
Proof.
  intros Hops Hd. revert i s taken. induction Hops as [|op ops Hop Hops IH]; intros i s taken E; simpl in E.
  - unfold ret in E. simplify_eq. constructor.
  - apply pym_bind_Ok in E as (one & s1 & E1 & E). apply pym_bind_Ok in E as (rest & s2 & E2 & E).
    unfold ret in E. simplify_eq. constructor; [|by eapply IH]. exists i, op.
    eapply taken_later; [done| |exact E2]. by eapply snapshot_operation_taken.
Qed.
Lemma snapshot_operations_taken ops n s taken s' :
  Forall fresh_op ops -> snapshot_operations state_dir ops n s = (Ok taken, s') ->
  Forall (fun x => exists i op, taken_operation i n op (tree s') x) taken.1.
Proof.
  intros Hops E. apply pym_bind_Ok in E as (d & s1 & E1 & E). apply pym_bind_Ok in E as (l & s2 & E2 & E).
  unfold ret in E. simplify_eq. simpl. eapply snapshot_from_taken; [done| |exact E2].
  intros d' ->. unfold submission_snapshot_dir in E1. destruct (existsb _ ops); simpl in E1; [|done].
  apply pym_bind_Ok in E1 as ([] & s3 & _ & E1). unfold ret in E1. by simplify_eq.
Qed.

Lemma snapshot_and_write_taken ops message n s taken s' :
  Forall fresh_op ops -> snapshot_and_write temporary_middle state_dir ops message n s = (Ok taken, s') ->
  Forall (fun x => exists i op, taken_operation i n op (tree s') x) taken.1 /\
  tree s' !! state_path n = Some (File (CJson (VDict (make_envelope n message taken.1.*2)))).
Proof.
  intros Hops E. apply pym_bind_Ok in E as (taken' & s1 & E1 & E).
  apply pym_bind_Ok in E as ([] & s2 & E2 & E). unfold ret in E. simplify_eq.
  assert (E3 : snapshot_operations state_dir ops n s = (Ok taken, s1)).
  { unfold on_error in E1. destruct (snapshot_operations state_dir ops n s) as [[t|e0] s2]; [done|].
    by destruct (cleanup_failed_submission _ _ _ s2) as [[]]. }
  assert (E4 : write_envelope temporary_middle (state_path n) (make_envelope n message taken.1.*2) s1 = (Ok tt, s')).
  { unfold on_error in E2. destruct (write_envelope _ _ _ s1) as [[[]|e0] s2]; [done|].
    by destruct (cleanup_failed_submission _ _ _ s2) as [[]]. }
  apply snapshot_operations_taken in E3; [|done]. split.
  - eapply Forall_impl; [exact E3|]. intros x (i & op & Hx). exists i, op.
    eapply taken_kept; [exact Hx|]. intros l node Hq.
    eapply keeps_atomic_write_json; [done| |exact Hq|exact E4].
    intros H. apply (f_equal length) in H.
    unfold snapshot_of, state_path_for, snapshot_dir_for_sequence, snapshots_root, child in H.
    rewrite !length_app in H. simpl in H. lia.
  - apply atomic_write_json_replaced in E4 as [[[[e ?] _]|(_ & c & -> & Hc)] _ _]; done.
Qed.

Lemma resume_operations_taken n t taken message p :
  0 <= n -> Forall (fun x => exists i op, taken_operation i n op t x) taken ->
  resume_operations cwd (make_envelope n message taken.*2) p (snapshot_dir n) =
    Ok ((fun x => (x.1, dget_none (u "sha256") x.2)) <$> taken).
Proof.
  intros Hn H. unfold resume_operations, ops_of, make_envelope. simpl.
  induction H as [|x taken (i & op & Hx) _ IH]; [done|]. csimpl.
  rewrite (taken_resumes _ _ _ _ _ _ Hn Hx). simpl. exact (eq_trans (f_equal (mbind (M := outcome) _) IH) eq_refl).
Qed.

(** C12: A persisted upload is resumed as it was.  When [persist] returned, then - as long as the
    envelope it wrote is on the disk, whatever else happens there - resuming classifies the
    envelope as a current one with the upload's sequence number, and restores from it the same
    operations with their snapshots, the same message and the same recorded digests; and each
    recorded digest is that of the snapshot on the disk the submission left, so the check before
    the upload finds no mismatch. *)
Theorem persisted_upload_resumes ops message s stored s' seen t :
  1 <= q_next s -> Forall fresh_op ops -> q_next s ∉ seen ->
  persist ops message s = (Ok stored, s') ->
  t !! su_state_path stored = tree (q_fs s') !! su_state_path stored ->
  Forall2 (fun op sha => snapshot_mismatch message op sha (tree (q_fs s')) = Ok None)
    (su_ops stored) (su_op_shas stored) /\
  exists envelope,
    classify_pending_envelope (su_state_path stored) seen t = Ok (inr (q_next s, envelope)) /\
    restore_pending_job state_dir cwd (su_state_path stored) envelope (snapshot_dir (q_next s)) =
      Ok (inl {| su_ops := su_ops stored; su_message := message; su_state_path := su_state_path stored;
                 su_snapshot_dir := Some (snapshot_dir (q_next s)); su_op_shas := su_op_shas stored |}).
Proof.
  intros Hn Hops Hseen E Ht. apply pym_bind_Ok in E as (n & s1 & E1 & E).
  apply allocate_sequence_Ok in E1 as (-> & _ & _); [|done|lia].
  apply pym_bind_Ok in E as (taken & s2 & E2 & E). unfold ret in E. simplify_eq.
  unfold on_fs in E2. destruct (snapshot_and_write _ _ _ _ _ _) as [o2 fs2] eqn:Ew. simplify_eq. simpl in *.
  apply snapshot_and_write_taken in Ew as [Htaken He]; [|done]. rewrite He in Ht. split.
  - clear He Ht. induction Htaken as [|x l (i & op & Hx) _ IH]; csimpl; [constructor|].
    constructor; [by eapply taken_matches|exact IH].
  - exists (make_envelope (q_next s) message taken.1.*2). split.
    + unfold classify_pending_envelope, read_json_object, read_json_lenient, read_json. rewrite Ht. simpl.
      unfold current_sequence. simpl. rewrite (proj2 (Z.ltb_ge _ _) Hn). simpl.
      by rewrite bool_decide_false by done.
    + unfold restore_pending_job. rewrite snapshot_is_inside by lia.
      erewrite resume_operations_taken by (done || lia). simpl. unfold mret, outcome_ret.
      by rewrite <- !list_fmap_compose.
Qed.
End Resume.
