(* ===== verification/UploadQueue.v ===== *)
(** The background upload queue: retries of one upload ([hf/_upload_retry.py],
    [utils/http_retry.py]) and the bounded queue with its worker thread ([hf/upload_queue.py]) as
    a step relation of the client and the worker. *)
From Stdlib Require Import QArith SpecFloat.
From S2P Require Import Prelude Py PyStr PyText Fs Artifacts Atomic UploadState Retry.

Definition UploadError : exn_class := CUser (u "UploadError") CRuntimeError.

(** The upload callback, the attributes of exceptions that the record of an exception does not
    hold ([error.transient], and [error.response] as its status and [Retry-After] header), the
    parsing of a float literal and of an HTTP date, and the clock. *)
Class UploadSite (W : Type) := {
  upload : gmap path node -> list PublicationOp -> str -> PyM W unit;
  error_transient : exn -> bool;
  error_response : exn -> option (Z * option str);
  float_of_str : str -> option spec_float;
  http_date_delay : str -> PyM W (option Q) }.

(** * Retrying an upload *)

Definition BASE_DELAY_SECONDS : Q := 1 # 2.
Definition MAX_DELAY_SECONDS : Q := 8.
Definition MAX_SERVER_RETRY_AFTER_SECONDS : Q := 300.
Definition RESPONSE_CAUSE_DEPTH : nat := 10.

(** [min(max_s, max(0.0, f))] of a float. *)
Definition clamp_float (f : spec_float) (max_s : Q) : Q :=
  match f with
  | S754_zero _ | S754_nan => fmin max_s 0
  | S754_infinity s => if s then fmin max_s 0 else max_s
  | S754_finite s m e =>
      let v := if (0 <=? e)%Z then inject_Z (Zpos m * 2 ^ e) else (Zpos m # Z.to_pos (2 ^ (- e)))%Q in
      fmin max_s (fmax 0 (if s then - v else v)%Q)
  end.

Section Retrying.
Context {W : Type} `{!RetryEnv W} `{!UploadSite W}.

Definition numeric_retry_delay (value : str) (max_s : Q) : option Q :=
  (fun f => clamp_float f max_s) <$> float_of_str value.

Definition date_retry_delay (value : str) (max_s default_s : Q) : PyM W Q :=
  delay <- http_date_delay value;;
  ret match delay with Some d => fmin max_s (fmax 0 d) | None => default_s end.

Definition parse_retry_after (value : option str) (default_s max_s : Q) : PyM W Q :=
  match value with
  | None | Some [] => ret default_s
  | Some value =>
      match numeric_retry_delay value max_s with
      | Some d => ret d
      | None => date_retry_delay value max_s default_s
      end
  end.

Definition is_transient (e : exn) : bool :=
  if isinstance e UploadError then error_transient e else is_transient_network_error e.

Fixpoint rate_limited_response_from (n : nat) (current : option exn) : option (option str) :=
  match n, current with
  | S n, Some e =>
      match error_response e with
      | Some (429, header) => Some header
      | _ => rate_limited_response_from n (next_cause e)
      end
  | _, _ => None
  end.
Definition rate_limited_response (e : exn) : option (option str) :=
  rate_limited_response_from RESPONSE_CAUSE_DEPTH (Some e).

Definition rate_limit_delay (e : exn) : PyM W Q :=
  match rate_limited_response e with
  | None => ret 0%Q
  | Some header => parse_retry_after header 0 MAX_SERVER_RETRY_AFTER_SECONDS
  end.

Definition backoff_seconds (attempt : Z) : PyM W Q :=
  jitter <- uniform 0 BASE_DELAY_SECONDS;;
  ret (fmin (BASE_DELAY_SECONDS * inject_Z (2 ^ (attempt - 1))) MAX_DELAY_SECONDS + jitter)%Q.

(** [_should_retry] and [_wait_before_retry], without the log. *)
Definition should_retry_upload (e : exn) (attempt attempts : Z) : bool :=
  (attempt <? attempts) && is_transient e.
Definition wait_before_retry (attempt : Z) (e : exn) : PyM W bool :=
  backoff <- backoff_seconds attempt;;
  server <- rate_limit_delay e;;
  cancellation_wait (fmax backoff server).

Definition validate_attempts (attempts : Z) : outcome unit :=
  raise_if (attempts <? 1) (exc CValueError (msg "attempts must be >= 1")).

(** The loop of [_run_upload_attempts] over the attempt numbers. *)
Fixpoint attempts_from (call : PyM W unit) (attempts : Z) (numbers : list Z) : PyM W unit :=
  match numbers with
  | [] => ret tt
  | attempt :: numbers =>
      result <- try_except (call;; ret None)
        (fun e => if isinstance e CException then Some (ret (Some e)) else None);;
      match result with
      | None => ret tt
      | Some e =>
          if negb (should_retry_upload e attempt attempts) then throw e
          else
            cancelled <- wait_before_retry attempt e;;
            if cancelled : bool then throw e else attempts_from call attempts numbers
      end
  end.

Definition run_upload_attempts (call : PyM W unit) (attempts : Z) : PyM W unit :=
  lift (validate_attempts attempts);;
  attempts_from call attempts (seqZ 1 attempts).
End Retrying.

(** * The queue *)

Record UploadJob := {
  j_ops : list PublicationOp; j_message : str; j_state_path : option path;
  j_snapshot_dir : option path; j_op_shas : list pyval }.

(** What the worker thread is doing. *)
Inductive worker := Idle | Busy (job : option UploadJob) | Stopped | Crashed (job : UploadJob) (e : exn).

(** How one job ended: uploaded, or with the recorded failure. *)
Inductive ending := Uploaded | Failed (detail : pymsg).

(** The state of the queue object, the disk, the outside world and the record of what happened;
    [to_put] are the items a client that is blocked in [put] still has to put. *)
Record Queue (W : Type) := mkQueue {
  store : QState;
  world : W;
  jobs : list (option UploadJob);
  to_put : list (option UploadJob);
  failures : list pymsg;
  closed : bool;
  thread : worker;
  accepted : list UploadJob;
  finished : list (UploadJob * ending) }.
Arguments mkQueue {W} _ _ _ _ _ _ _ _ _.
Arguments store {W} _.
Arguments world {W} _.
Arguments jobs {W} _.
Arguments to_put {W} _.
Arguments failures {W} _.
Arguments closed {W} _.
Arguments thread {W} _.
Arguments accepted {W} _.
Arguments finished {W} _.

Section Queue.
Context {RT : Runtime} {FF : FileFormats} {W : Type} `{!RetryEnv W} `{!UploadSite W}.
Variable temporary_middle : gmap path node -> path -> str.
Variables (state_dir cwd : path).
(** Whether the queue was given a state directory. *)
Variable durable : bool.
Variables (max_pending attempts : Z).

(** The disk and the world, as the worker's computations see them. *)
Abbreviation Env := (FsState * W)%type.
Definition on_disk {A} (m : PyM FsState A) : PyM Env A := fun s =>
  let '(o, fs) := m s.1 in (o, (fs, s.2)).
Definition on_site {A} (m : gmap path node -> PyM W A) : PyM Env A := fun s =>
  let '(o, w) := m (tree s.1) s.2 in (o, (s.1, w)).

(** [BackgroundUploadQueue.__init__]: the checks of the arguments. *)
Definition check_arguments : outcome unit :=
  _ ← raise_if (max_pending <? 1) (exc CValueError (msg "max_pending must be positive"));
  raise_if (attempts <? 1) (exc CValueError (msg "attempts must be positive")).

Definition job_of_stored (s : StoredUpload) : UploadJob :=
  {| j_ops := su_ops s; j_message := su_message s; j_state_path := Some (su_state_path s);
     j_snapshot_dir := su_snapshot_dir s; j_op_shas := su_op_shas s |}.

(** [_build_job]. *)
Definition build_job (ops : list PublicationOp) (message : str) : PyM QState UploadJob :=
  if durable
  then stored <- persist temporary_middle state_dir ops message;; ret (job_of_stored stored)
  else ret {| j_ops := ops; j_message := message; j_state_path := None; j_snapshot_dir := None;
              j_op_shas := (fun _ => VNone) <$> ops |}.

(** * One job *)

(** [zip(ops, shas, strict=True)] with the early exit of the loop: the first mismatch. *)
Fixpoint first_mismatch (message : str) (ops : list PublicationOp) (shas : list pyval)
    (t : gmap path node) : outcome (option pymsg) :=
  match ops, shas with
  | [], [] => mret None
  | op :: ops, sha :: shas =>
      detail ← snapshot_mismatch message op sha t;
      match detail with
      | Some d => mret (Some d)
      | None => first_mismatch message ops shas t
      end
  | _, _ => Raise (exc CValueError (msg "zip() arguments have different lengths"))
  end.

Definition verify_job_snapshot (job : UploadJob) (t : gmap path node) : outcome (option pymsg) :=
  if negb durable then mret None else first_mismatch (j_message job) (j_ops job) (j_op_shas job) t.

Definition upload_with_retries (job : UploadJob) : PyM Env unit :=
  on_site (fun t => run_upload_attempts (upload t (j_ops job) (j_message job)) attempts).

(** [_process_job]: the failure it recorded itself, if any. *)
Definition process_job (job : UploadJob) : PyM Env (option pymsg) :=
  mismatch <- on_disk (reads (verify_job_snapshot job));;
  match mismatch with
  | Some d => ret (Some d)
  | None =>
      upload_with_retries job;;
      match j_state_path job with
      | None => ret None
      | Some p =>
          if negb durable then throw (exc CRuntimeError (msg "durable upload job has no state store"))
          else on_disk (delete_upload state_dir p (j_snapshot_dir job));; ret None
      end
  end.

(** The body of the worker's loop for a job: how it ended. *)
Definition work (job : UploadJob) : PyM Env ending :=
  try_except
    (recorded <- process_job job;;
     ret match recorded with Some d => Failed d | None => Uploaded end)
    (fun e => if isinstance e CException
              then Some (ret (Failed (FStr (j_message job ++ u ": ") :: exn_msg e))) else None).

(** * The client and the worker *)

Definition failure_of (x : ending) : list pymsg := match x with Uploaded => [] | Failed d => [d] end.

(** [submit] up to [put]. *)
Definition submit (ops : list PublicationOp) (message : str) (q : Queue W)
    : outcome unit * Queue W :=
  if closed q then (Raise (exc CRuntimeError (msg "upload queue is closed")), q)
  else match build_job ops message (store q) with
  | (Raise e, st) =>
      (Raise e, mkQueue st (world q) (jobs q) (to_put q) (failures q) (closed q) (thread q) (accepted q) (finished q))
  | (Ok job, st) =>
      (Ok tt, mkQueue st (world q) (jobs q) (to_put q ++ [Some job]) (failures q) (closed q) (thread q)
                (accepted q ++ [job]) (finished q))
  end.

(** [resume_pending] up to the first [put]. *)
Definition resume (q : Queue W) : outcome nat * Queue W :=
  if negb durable then (Ok 0%nat, q)
  else match resume_pending temporary_middle state_dir cwd (store q) with
  | (Raise e, st) =>
      (Raise e, mkQueue st (world q) (jobs q) (to_put q) (failures q) (closed q) (thread q) (accepted q) (finished q))
  | (Ok r, st) =>
      let new := job_of_stored <$> rr_uploads r in
      (Ok (rr_discovered r),
       mkQueue st (world q) (jobs q) (to_put q ++ (Some <$> new)) (failures q ++ rr_failures r) (closed q)
         (thread q) (accepted q ++ new) (finished q))
  end.

(** [close_and_wait] up to [put(None)]. *)
Definition close (q : Queue W) : Queue W :=
  if closed q then q
  else mkQueue (store q) (world q) (jobs q) (to_put q ++ [None]) (failures q) true (thread q) (accepted q) (finished q).

(** [upload_synchronously]: one more upload after the queue was closed. *)
Definition upload_synchronously (ops : list PublicationOp) (message : str) (q : Queue W)
    : outcome unit * Queue W :=
  if negb (closed q)
  then (Raise (exc CRuntimeError (msg "Synchronous final upload requires a drained, closed queue")), q)
  else
    let '(o, w) := upload (tree (q_fs (store q))) ops message (world q) in
    (o, mkQueue (store q) w (jobs q) (to_put q) (failures q) (closed q) (thread q) (accepted q) (finished q)).

(** [self._jobs.put]: enabled while the queue is not full. *)
Definition put (q : Queue W) : option (Queue W) :=
  match to_put q with
  | item :: rest =>
      if (len (jobs q) <? max_pending)%Z
      then Some (mkQueue (store q) (world q) (jobs q ++ [item]) rest (failures q) (closed q) (thread q) (accepted q) (finished q))
      else None
  | [] => None
  end.

(** One iteration of [_worker]: [get], or the job it holds. *)
Definition worker_step (q : Queue W) : option (Queue W) :=
  match thread q with
  | Idle =>
      match jobs q with
      | item :: rest =>
          Some (mkQueue (store q) (world q) rest (to_put q) (failures q) (closed q) (Busy item) (accepted q) (finished q))
      | [] => None
      end
  | Busy None =>
      Some (mkQueue (store q) (world q) (jobs q) (to_put q) (failures q) (closed q) Stopped (accepted q) (finished q))
  | Busy (Some job) =>
      Some match work job (q_fs (store q), world q) with
      | (Ok x, (fs, w)) =>
          mkQueue (mkQ fs (q_next (store q))) w (jobs q) (to_put q) (failures q ++ failure_of x) (closed q)
            Idle (accepted q) (finished q ++ [(job, x)])
      | (Raise e, (fs, w)) =>
          mkQueue (mkQ fs (q_next (store q))) w (jobs q) (to_put q) (failures q) (closed q)
            (Crashed job e) (accepted q) (finished q)
      end
  | Stopped | Crashed _ _ => None
  end.

(** Any interleaving of one client and the worker: the client calls a method when it is not
    blocked in [put], and [resume_pending] - which has no check of its own - before it closes the
    queue, as its two callers do. *)
Inductive qstep : Queue W -> Queue W -> Prop :=
  | QSubmit q ops message : to_put q = [] -> qstep q (submit ops message q).2
  | QResume q : to_put q = [] -> closed q = false -> qstep q (resume q).2
  | QClose q : to_put q = [] -> qstep q (close q)
  | QSynchronous q ops message : to_put q = [] -> qstep q (upload_synchronously ops message q).2
  | QPut q q' : put q = Some q' -> qstep q q'
  | QWork q q' : worker_step q = Some q' -> qstep q q'.

Definition start (st : QState) (w : W) : Queue W := mkQueue st w [] [] [] false Idle [] [].

Inductive reachable (st : QState) (w : W) : Queue W -> Prop :=
  | RStart : reachable st w (start st w)
  | RStep q q' : reachable st w q -> qstep q q' -> reachable st w q'.
End Queue.
