(* ===== verification/UploadQueueProofs.v ===== *)
(** What the upload queue guarantees: what one job does to the disk and when, that every accepted
    upload is processed exactly once and in order, and that a closed queue drains. *)
From stdpp Require Import relations.
From S2P Require Import Prelude Py PyStr PyText Fs Keeps Artifacts Atomic UploadState UploadProofs Retry UploadQueue.

Section Job.
Context {RT : Runtime} {FF : FileFormats} {W : Type} `{!RetryEnv W} `{!UploadSite W}.
Context (state_dir : path) (durable : bool) (attempts : Z).

(** * One job *)

(** The recorded digest of an operation is not that of its snapshot, or the snapshot is gone. *)
Definition changed (t : gmap path node) (op : PublicationOp) (sha : pyval) : Prop :=
  exists p, effective_snapshot op = Some p /\ py_truthy sha = true /\
    forall h, sha256_file p t = Ok h -> py_eqb (VStr h) sha = false.

Lemma read_bytes_exception p t e : read_bytes p t = Raise e -> isinstance e CException = true.
Proof. unfold read_bytes. intros. repeat case_match; by simplify_eq. Qed.

Lemma snapshot_mismatch_exception message op sha t e :
  snapshot_mismatch message op sha t = Raise e -> isinstance e CException = true.
Proof.
  unfold snapshot_mismatch, sha256_file. destruct (effective_snapshot op); [|done]. destruct (negb _); [done|].
  destruct (read_bytes _ _) eqn:E; simpl; intros; simplify_eq. by eapply read_bytes_exception.
Qed.

Lemma first_mismatch_exception message ops shas t e :
  first_mismatch message ops shas t = Raise e -> isinstance e CException = true.
Proof.
  revert shas. induction ops as [|op ops IH]; intros [|sha shas] H; simpl in H; try by simplify_eq.
  destruct (snapshot_mismatch _ _ _ _) as [[d|]|] eqn:E; simpl in H; simplify_eq; eauto using snapshot_mismatch_exception.
Qed.

Lemma first_mismatch_changed message ops shas t i op sha :
  ops !! i = Some op -> shas !! i = Some sha -> changed t op sha ->
  first_mismatch message ops shas t ≠ Ok None.
Proof.
  revert shas i. induction ops as [|op' ops IH]; intros [|sha' shas] i Ho Hs Hc; simpl; try done.
  destruct (snapshot_mismatch message op' sha' t) as [[d|]|] eqn:E; simpl; [done| |done].
  destruct i as [|i]; simplify_eq/=; [|by eapply IH].
  destruct Hc as (p & Hp & Ht & Hh). unfold snapshot_mismatch in E. rewrite Hp, Ht in E. simpl in E.
  destruct (sha256_file p t) as [h|] eqn:Eh; [|done]. specialize (Hh h eq_refl). simpl in E, Hh.
  by rewrite Hh in E.
Qed.

Abbreviation attempt_uploads job t := (run_upload_attempts (upload t (j_ops job) (j_message job)) attempts).
Abbreviation work := (UploadQueue.work state_dir durable attempts).

(** The steps of a job of a durable queue. *)
Lemma work_cases job p fs w o fs' w' :
  durable = true -> j_state_path job = Some p -> work job (fs, w) = (o, (fs', w')) ->
  (verify_job_snapshot durable job (tree fs) ≠ Ok None /\ (exists d, o = Ok (Failed d)) /\ fs' = fs /\ w' = w) \/
  (o ≠ Ok Uploaded /\ fs' = fs) \/
  exists o', attempt_uploads job (tree fs) w = (Ok tt, w') /\
    delete_upload state_dir p (j_snapshot_dir job) fs = (o', fs') /\ (o = Ok Uploaded -> o' = Ok tt).
Proof.
  intros Hd Hp E. unfold UploadQueue.work, try_except, process_job, pbind, on_disk, reads in E. simpl in E.
  destruct (verify_job_snapshot durable job (tree fs)) as [[d|]|e] eqn:Ev.
  - left. unfold ret in E. simplify_eq. eauto.
  - unfold upload_with_retries, on_site in E. simpl in E.
    destruct (attempt_uploads job (tree fs) w) as [[[]|e] w1] eqn:Eu.
    + rewrite Hp, Hd in E. simpl in E. destruct (delete_upload _ _ _ _) as [o' fs1] eqn:Ed.
      right; right. exists o'. destruct o' as [[]|e]; unfold ret in E; [by simplify_eq|].
      destruct (isinstance e CException); unfold ret in E; simplify_eq; by split_and!.
    + right; left. destruct (isinstance e CException); unfold ret in E; simplify_eq; by split.
  - left. assert (He : isinstance e CException = true).
    { unfold verify_job_snapshot in Ev. rewrite Hd in Ev. simpl in Ev. by eapply first_mismatch_exception. }
    rewrite He in E. unfold ret in E. simplify_eq. eauto.
Qed.

Lemma keeps_delete_upload q p d :
  q ≠ p -> (forall d', d = Some d' -> relative_to q d' = None) -> keeps q (delete_upload state_dir p d).
Proof.
  intros Hp Hd. unfold delete_upload. apply keeps_bind; [by apply keeps_unlink|intros _].
  destruct d as [d|]; [|by apply keeps_pure]. case_match; [by apply keeps_pure|]. by apply keeps_rmtree, Hd.
Qed.

Lemma delete_upload_Ok p d s s' :
  delete_upload state_dir p d s = (Ok tt, s') ->
  tree s' !! p = None /\ (calm s -> forall d' x, d = Some d' -> tree s' !! (d' ++ x) = None) /\
  forall q, tree s' !! q = tree s !! q \/ tree s' !! q = None.
Proof.
  intros E. apply pym_bind_Ok in E as ([] & s1 & Eu & E). pose proof (primitive_keeps_calm _ _ _ _ Eu) as Hcalm.
  assert (Ht1 : tree s1 = delete p (tree s)).
  { apply primitive_cases in Eu as [(? & ? & _)|Eu]; [done|]. unfold unlink_tree in Eu. by destruct (tree s !! p) as [[]|]; simplify_eq. }
  assert (Hsub1 : forall q, tree s1 !! q = tree s !! q \/ tree s1 !! q = None).
  { intros q. rewrite Ht1. destruct (decide (p = q)) as [->|]; [right; apply lookup_delete_eq|left; by apply lookup_delete_ne]. }
  destruct d as [d|]; [|unfold ret in E; simplify_eq; split_and!; [rewrite Ht1; apply lookup_delete_eq|done|done]].
  destruct (negb _); [done|]. pose proof (rmtree_subset _ _ _ _ E) as Hsub. split_and!.
  - destruct (Hsub p) as [->|[? _]]; [|done]. rewrite Ht1. apply lookup_delete_eq.
  - intros Hc d' x [= <-]. destruct (rmtree_calm d s1 (Hcalm Hc)) as (s2 & E2 & _ & Hg). rewrite E in E2. injection E2 as <-. apply Hg.
  - intros q. destruct (Hsub q) as [->|[? _]]; auto.
Qed.

(** C11: What a job does.  In a queue with a state directory, when a recorded digest is not that
    of the snapshot - changed or missing - the job ends as failed without any call of the upload
    and without any change of the disk.  Otherwise the disk only changes after the upload
    returned: until then the envelope and the snapshots stay for a later resume.  No other file
    is ever removed or changed.  A job ends as uploaded only when the upload returned and its
    envelope is gone, so no later process resumes it; its snapshot directory is gone as well unless
    a system call of its removal fails, and then nothing of it has changed that is still there. *)
Theorem job_effect job p fs w o fs' w' :
  durable = true -> j_state_path job = Some p -> work job (fs, w) = (o, (fs', w')) ->
  ((exists i op sha, j_ops job !! i = Some op /\ j_op_shas job !! i = Some sha /\ changed (tree fs) op sha) ->
     (exists d, o = Ok (Failed d)) /\ fs' = fs /\ w' = w) /\
  (tree fs' ≠ tree fs -> attempt_uploads job (tree fs) w = (Ok tt, w')) /\
  (forall q n, tree fs !! q = Some n -> q ≠ p ->
     (forall d, j_snapshot_dir job = Some d -> relative_to q d = None) -> tree fs' !! q = Some n) /\
  (o = Ok Uploaded -> attempt_uploads job (tree fs) w = (Ok tt, w') /\ tree fs' !! p = None /\
     (calm fs -> forall d x, j_snapshot_dir job = Some d -> tree fs' !! (d ++ x) = None) /\
    forall q, tree fs' !! q = tree fs !! q \/ tree fs' !! q = None).
Proof.
  intros Hd Hp E. split.
  - intros (i & op & sha & Ho & Hs & Hc).
    assert (Hv : verify_job_snapshot durable job (tree fs) ≠ Ok None).
    { unfold verify_job_snapshot. rewrite Hd. by eapply first_mismatch_changed. }
    unfold UploadQueue.work, try_except, process_job, pbind, on_disk, reads in E. simpl in E.
    destruct (verify_job_snapshot durable job (tree fs)) as [[d|]|e] eqn:Ev; [|done|].
    + unfold ret in E. simplify_eq. eauto.
    + unfold verify_job_snapshot in Ev. rewrite Hd in Ev. simpl in Ev. apply first_mismatch_exception in Ev.
      rewrite Ev in E. unfold ret in E. simplify_eq. eauto.
  - destruct (work_cases _ _ _ _ _ _ _ Hd Hp E) as [(_ & [d ->] & -> & ->)|[[Ho ->]|(o' & Eu & Ed & Ho)]];
      [split_and!; done..|]. split_and!; [done| |].
    + intros q n Hq Hne Hdir. by eapply keeps_delete_upload.
    + intros ->. split; [done|]. rewrite (Ho eq_refl) in Ed. by apply delete_upload_Ok in Ed.
Qed.
End Job.

Section Accounting.
Context {RT : Runtime} {FF : FileFormats} {W : Type} `{!RetryEnv W} `{!UploadSite W}.
Context (temporary_middle : gmap path node -> path -> str) (state_dir cwd : path) (durable : bool).
Context (max_pending attempts : Z).

Abbreviation qstep := (UploadQueue.qstep temporary_middle state_dir cwd durable max_pending attempts).
Abbreviation reachable := (UploadQueue.reachable temporary_middle state_dir cwd durable max_pending attempts).
Abbreviation worker_step := (UploadQueue.worker_step state_dir durable attempts).
Abbreviation put := (UploadQueue.put max_pending).

(** * Accounting *)

(** The job the worker holds, and the items that are still before it. *)
Definition in_flight (t : worker) : list UploadJob :=
  match t with Busy (Some job) | Crashed job _ => [job] | _ => [] end.
Definition line (q : Queue W) : list (option UploadJob) :=
  match thread q with Busy item => [item] | _ => [] end ++ jobs q ++ to_put q.

Record accounted (q : Queue W) : Prop := {
  (** every accepted upload has ended, is being processed or waits, in the order of acceptance *)
  acc_order : accepted q = (finished q).*1 ++ in_flight (thread q) ++ omap id (jobs q ++ to_put q);
  acc_bound : len (jobs q) <= Z.max 0 max_pending;
  (** the stop marker is put by [close_and_wait] only, once and last *)
  acc_open : thread q ≠ Stopped ->
    exists l, line q = (Some <$> l) ++ (if closed q then [None] else []);
  acc_stopped : thread q = Stopped -> closed q = true /\ line q = [];
  (** no failure of a job is lost *)
  acc_failures : concat (failure_of <$> (finished q).*2) `sublist_of` failures q }.

Lemma omap_Some {A} (l : list A) : omap id (Some <$> l) = l.
Proof. induction l as [|x l IH]; csimpl; [done|]. by rewrite IH. Qed.

(** A client that adds items at the end of an open queue. *)
Lemma accounted_add q st new more :
  closed q = false -> to_put q = [] -> accounted q ->
  accounted (mkQueue st (world q) (jobs q) (to_put q ++ (Some <$> new)) (failures q ++ more) (closed q)
    (thread q) (accepted q ++ new) (finished q)).
Proof.
  intros Hc Hp [Ho Hb Hn Hs Hf]. split; simpl; try done.
  - rewrite Ho, Hp, app_nil_r. simpl. rewrite omap_app, omap_Some. by rewrite <- !app_assoc.
  - intros Ht. destruct (Hn Ht) as [l Hl]. exists (l ++ new). rewrite Hc in *. unfold line in *. simpl.
    rewrite fmap_app, app_nil_r in *. rewrite <- Hl. by rewrite <- !app_assoc.
  - intros Ht. destruct (Hs Ht). congruence.
  - by apply sublist_inserts_r.
Qed.

Lemma accounted_outside q st w : accounted q ->
  accounted (mkQueue st w (jobs q) (to_put q) (failures q) (closed q) (thread q) (accepted q) (finished q)).
Proof. intros [Ho Hb Hn Hs Hf]. by split. Qed.

Lemma submit_accounted ops message q :
  to_put q = [] -> accounted q ->
  accounted (submit temporary_middle state_dir durable ops message q).2.
Proof.
  intros Hp Hq. unfold submit. destruct (closed q) eqn:Hc; [done|].
  destruct (build_job _ _ _ _ _ _) as [[job|e] st]; simpl; rewrite <- Hc; [|by apply accounted_outside].
  pose proof (accounted_add q st [job] [] Hc Hp Hq) as H. by rewrite app_nil_r in H.
Qed.

Lemma resume_accounted q :
  to_put q = [] -> closed q = false -> accounted q ->
  accounted (resume temporary_middle state_dir cwd durable q).2.
Proof.
  intros Hp Hc Hq. unfold resume. destruct (negb durable); [done|].
  destruct (resume_pending _ _ _ _) as [[r|e] st]; simpl; [by apply accounted_add|by apply accounted_outside].
Qed.

Lemma synchronous_accounted ops message q : accounted q -> accounted (upload_synchronously ops message q).2.
Proof.
  intros Hq. unfold upload_synchronously. destruct (negb (closed q)); [done|].
  destruct (upload _ _ _ _) as [o w]. by apply accounted_outside.
Qed.

Lemma close_accounted q : to_put q = [] -> accounted q -> accounted (close q).
Proof.
  intros Hp Hq. unfold close. destruct (closed q) eqn:Hc; [done|]. destruct Hq as [Ho Hb Hn Hs Hf].
  split; simpl; try done.
  - rewrite Ho, Hp, !omap_app. simpl. by rewrite !app_nil_r.
  - intros Ht. destruct (Hn Ht) as [l Hl]. exists l. rewrite Hc, app_nil_r in Hl. unfold line in *. simpl.
    by rewrite !app_assoc, <- (app_assoc _ _ (to_put q)), Hl.
  - intros Ht. destruct (Hs Ht). congruence.
Qed.

Lemma put_accounted q q' : put q = Some q' -> accounted q -> accounted q'.
Proof.
  unfold UploadQueue.put. intros E [Ho Hb Hn Hs Hf]. destruct (to_put q) as [|item rest] eqn:Hp; [done|].
  destruct (len (jobs q) <? max_pending) eqn:Hlen; [|done]. simplify_eq. apply Z.ltb_lt in Hlen.
  split; simpl; try done.
  - rewrite Ho, <- (app_assoc (jobs q)). done.
  - unfold len in *. rewrite length_app. simpl. lia.
  - intros Ht. destruct (Hn Ht) as [l Hl]. exists l. unfold line in *. simpl. rewrite Hp in Hl.
    by rewrite <- Hl, <- (app_assoc (jobs q)).
  - intros Ht. destruct (Hs Ht) as [? Hl]. split; [done|]. unfold line in *. rewrite Ht, Hp in Hl.
    by destruct (jobs q).
Qed.

Lemma worker_step_accounted q q' : worker_step q = Some q' -> accounted q -> accounted q'.
Proof.
  unfold UploadQueue.worker_step. intros E [Ho Hb Hn Hs Hf].
  destruct (thread q) as [|item| |] eqn:Ht; [|destruct item as [job|]|done|done].
  - destruct (jobs q) as [|item rest] eqn:Hj; [done|]. simplify_eq. split; simpl; try done.
    + rewrite Ho. simpl. by destruct item.
    + unfold len in *. simpl in *. lia.
    + intros _. destruct Hn as [l Hl]; [done|]. exists l. unfold line in *. rewrite Ht, Hj in Hl. done.
  - destruct Hn as [l Hl]; [done|]. unfold line in Hl. rewrite Ht in Hl. destruct l as [|job' l].
    { by destruct (closed q). }
    destruct (work _ _ _ _ _) as [[x|e] [fs w]]; simplify_eq; split; simpl; try done.
    + rewrite Ho, fmap_app. simpl. by rewrite <- app_assoc.
    + intros _. exists l. unfold line. simpl. by simplify_eq.
    + rewrite fmap_app, fmap_app, concat_app. simpl. rewrite app_nil_r. by apply sublist_app.
    + intros _. exists l. unfold line. simpl. by simplify_eq.
  - destruct Hn as [l Hl]; [done|]. unfold line in Hl. rewrite Ht in Hl. destruct l as [|job' l]; [|done].
    destruct (closed q) eqn:Hc; [|done]. simplify_eq. split; simpl; try done.
Qed.

Lemma every_upload_accounted st w q : reachable st w q -> accounted q.
Proof.
  induction 1 as [|q q' Hq IH Hstep].
  - split; simpl; try done; unfold len; simpl; [lia|]. intros _. by exists [].
  - destruct Hstep; eauto using submit_accounted, resume_accounted, synchronous_accounted, close_accounted, put_accounted,
      worker_step_accounted.
Qed.

(** C9: Nothing is lost, duplicated or reordered.  In every state the client and the worker can
    reach, under any interleaving, the accepted uploads - submitted ones and resumed ones - are,
    in the order of their acceptance, those that ended, then the one the worker holds, then those
    in the queue and those still to be put; at most [max_pending] jobs are in the queue; the
    failure of every job that failed is in the list [close_and_wait] returns; and the worker only
    stops after [close_and_wait] and when nothing is left. *)
Theorem every_upload_accounted_for st w q : reachable st w q -> accounted q.
Proof. apply every_upload_accounted. Qed.

(** * Draining *)

(** The steps of the worker and of a client that is blocked in [put]. *)
Definition drain_step (q q' : Queue W) : Prop := put q = Some q' \/ worker_step q = Some q'.

Definition left_to_do (q : Queue W) : nat :=
  3 * length (to_put q) + 2 * length (jobs q) + match thread q with Busy _ => 1 | _ => 0 end.

Lemma drain_step_decreases q q' : drain_step q q' -> (left_to_do q' < left_to_do q)%nat.
Proof.
  unfold drain_step, UploadQueue.put, UploadQueue.worker_step, left_to_do. intros [E|E].
  - destruct (to_put q) as [|item rest]; [done|]. destruct (len (jobs q) <? max_pending); [|done].
    simplify_eq. simpl. rewrite length_app. simpl. lia.
  - destruct (thread q) as [|[job|]| |]; [| | |done..].
    + destruct (jobs q); [done|]. simplify_eq. simpl. lia.
    + destruct (work _ _ _ _ _) as [[x|e] [fs w]]; simplify_eq; simpl; lia.
    + simplify_eq. simpl. lia.
Qed.

Lemma drain_step_sn q : sn drain_step q.
Proof.
  remember (left_to_do q) as n eqn:Hn. revert q Hn. induction (lt_wf n) as [n _ IH]. intros q ->.
  constructor. intros q' Hstep. eapply IH; [|done]. by apply drain_step_decreases.
Qed.

Lemma drain_step_same q q' : drain_step q q' -> closed q' = closed q /\ accepted q' = accepted q.
Proof.
  unfold drain_step, UploadQueue.put, UploadQueue.worker_step. intros [E|E].
  - by repeat case_match; simplify_eq.
  - destruct (thread q) as [|[job|]| |]; [destruct (jobs q)| | | |];
      try destruct (work _ _ _ _ _) as [[x|e] [fs w]]; by simplify_eq.
Qed.

Lemma drain_run st w q q' :
  rtc drain_step q q' -> reachable st w q ->
  reachable st w q' /\ closed q' = closed q /\ accepted q' = accepted q.
Proof.
  induction 1 as [q|q q1 q' Hstep _ IH]; intros Hq; [done|].
  destruct (drain_step_same _ _ Hstep) as [<- <-]. apply IH. eapply RStep; [done|].
  destruct Hstep; by constructor.
Qed.

(** Only an exception that is no [Exception] ends the worker's loop. *)
Lemma work_raises job s e s' :
  UploadQueue.work state_dir durable attempts job s = (Raise e, s') -> isinstance e CException = false.
Proof.
  unfold UploadQueue.work, try_except. destruct (pbind _ _ s) as [[x|e0] s1]; [done|].
  destruct (isinstance e0 CException) eqn:E; intros; by simplify_eq.
Qed.

Lemma crash_reason st w q job e :
  reachable st w q -> thread q = Crashed job e -> isinstance e CException = false.
Proof.
  intros Hq. revert job e. induction Hq as [|q q' Hq IH Hstep]; intros job e; [done|]. destruct Hstep; simpl.
  - unfold submit. destruct (closed q); [apply IH|]. destruct (build_job _ _ _ _ _ _) as [[] ?]; apply IH.
  - unfold resume. destruct (negb durable); [apply IH|]. destruct (resume_pending _ _ _ _) as [[] ?]; apply IH.
  - unfold close. destruct (closed q); apply IH.
  - unfold upload_synchronously. destruct (negb (closed q)); [apply IH|]. destruct (upload _ _ _ _); apply IH.
  - revert H. unfold UploadQueue.put. intros. repeat case_match; simplify_eq. by eapply IH.
  - revert H. unfold UploadQueue.worker_step. destruct (thread q) as [|[j|]| |]; [destruct (jobs q)| | |done..];
      try destruct (work _ _ _ _ _) as [[x|e0] [fs w0]] eqn:Ew; intros; simplify_eq/=; try done.
    by eapply work_raises.
Qed.

(** C10: A closed queue drains.  Once [close_and_wait] was called, the worker and the blocked
    client can only take finitely many steps, and when they cannot take any more the worker has
    stopped - so that [join] returns - with every upload that was ever accepted processed, in
    order; the one other way to end is a job that raised something that is not an [Exception],
    such as a [KeyboardInterrupt], which ends the thread. *)
Theorem closed_queue_drains st w q :
  1 <= max_pending -> reachable st w q -> closed q = true ->
  sn drain_step q /\
  forall q', rtc drain_step q q' -> nf drain_step q' ->
    thread q' = Stopped /\ (finished q').*1 = accepted q /\
      concat (failure_of <$> (finished q').*2) `sublist_of` failures q' \/
    exists job e, thread q' = Crashed job e /\ isinstance e CException = false.
Proof.
  intros Hmax Hq Hc. split; [apply drain_step_sn|]. intros q' Hrun Hnf.
  destruct (drain_run _ _ _ _ Hrun Hq) as (Hq' & Hc' & Ha). rewrite Hc in Hc'.
  pose proof (every_upload_accounted st w q' Hq') as [Ho Hb Hn Hs Hf].
  destruct (thread q') as [|item| |job e] eqn:Ht.
  - exfalso. apply Hnf. destruct (jobs q') as [|item rest] eqn:Hj.
    + destruct (Hn) as [l Hl]; [done|]. rewrite Hc' in Hl. unfold line in Hl. rewrite Ht, Hj in Hl. simpl in Hl.
      destruct (to_put q') as [|item rest] eqn:Hp; [by destruct l|]. eexists. left. unfold UploadQueue.put.
      rewrite Hp, Hj. change (len (@nil (option UploadJob))) with 0. rewrite (proj2 (Z.ltb_lt 0 max_pending)) by lia.
      reflexivity.
    + eexists. right. unfold UploadQueue.worker_step. rewrite Ht, Hj. reflexivity.
  - exfalso. apply Hnf. destruct item; eexists; right; unfold UploadQueue.worker_step; rewrite Ht; reflexivity.
  - left. destruct (Hs eq_refl) as [_ Hl]. unfold line in Hl. rewrite Ht in Hl.
    simpl in Hl. rewrite <- Ha, Ho, Hl. split_and!; [done|simpl; by rewrite app_nil_r|done].
  - right. exists job, e. split; [done|]. by eapply crash_reason.
Qed.
End Accounting.
