(* ===== verification/UploadExamples.v ===== *)
(** A concrete state directory and upload service: one upload that is persisted, resumed, uploaded
    and deleted, one submission that fails, one changed snapshot, and a queue that is drained. *)
From Stdlib Require Import QArith SpecFloat.
From stdpp Require Import relations.
From S2P Require Import Prelude Py PyStr PyText Fs Artifacts Paths Atomic Protocol UploadState UploadProofs UploadResume Retry UploadQueue UploadQueueProofs.

#[local] Existing Instance example_runtime.
#[local] Existing Instance example_formats.

(** * A disk and two operations *)

Definition queue_dir : path := [u "s"].
Definition data_file : path := [u "d"; u "x.bin"].
Definition upload_disk : gmap path node := list_to_map
  [([u "d"], Dir); (data_file, File (CBytes [1%N; 2%N])); (queue_dir, Dir)].
Definition opened : QState := mkQ (mkFs upload_disk []) 7.

Definition add_file : PublicationOp :=
  {| action := u "add"; path_in_repo := u "x.bin"; local_path := Some data_file; snapshot_path := None |}.
Definition delete_file : PublicationOp :=
  {| action := u "delete"; path_in_repo := u "old.bin"; local_path := None; snapshot_path := None |}.
Definition two_ops : list PublicationOp := [add_file; delete_file].

Example operations_are_built :
  add_op data_file (u "x.bin") = Ok add_file /\ delete_op (u "old.bin") = Ok delete_file.
Proof. split; vm_compute; reflexivity. Qed.

Lemma two_ops_fresh : Forall fresh_op two_ops.
Proof.
  constructor; [left|constructor; [right; done|constructor]]. split; [done|]. split; [done|].
  exists data_file. split_and!; [done| |done|by_evaluation]. unfold clean_path, plain, data_file. by_evaluation.
Qed.

Lemma queue_dir_clean : clean_path queue_dir.
Proof. unfold clean_path, plain, queue_dir. by_evaluation. Qed.

Abbreviation persist_here := (persist long_middle queue_dir).

Lemma persisted : exists stored s', persist_here two_ops (u "m") opened = (Ok stored, s').
Proof.
  destruct (persist_here two_ops (u "m") opened) as [[stored|e] s'] eqn:E; [eauto|].
  apply (f_equal (fun r => match r.1 with Ok _ => true | Raise _ => false end)) in E. vm_compute in E. discriminate E.
Qed.

Lemma sequences_never_reused_witness :
  exists stored s', persist_here two_ops (u "m") opened = (Ok stored, s') /\
    su_state_path stored = state_path_for queue_dir 7 /\ q_next s' = 8.
Proof.
  destruct persisted as (stored & s' & E). exists stored, s'. split; [exact E|].
  destruct (sequences_never_reused long_middle queue_dir temporary_name_fresh two_ops (u "m") opened stored s')
    as (H1 & H2 & _); [discriminate|exact E|]. split; [exact H1|exact H2].
Defined.

Lemma persisted_upload_resumes_witness :
  exists stored s' envelope, persist_here two_ops (u "m") opened = (Ok stored, s') /\
    classify_pending_envelope (su_state_path stored) [3; 5] (tree (q_fs s')) = Ok (inr (7, envelope)).
Proof.
  destruct persisted as (stored & s' & E).
  destruct (persisted_upload_resumes long_middle queue_dir [] temporary_name_fresh queue_dir_clean
    two_ops (u "m") opened stored s' [3; 5] (tree (q_fs s'))) as (_ & envelope & H & _);
    [discriminate|apply two_ops_fresh|by_evaluation|exact E|reflexivity|].
  exists stored, s', envelope. split; [exact E|exact H].
Defined.

(** The second file is missing: the first snapshot is removed again. *)
Definition missing_file : PublicationOp :=
  {| action := u "add"; path_in_repo := u "y.bin"; local_path := Some [u "d"; u "y.bin"]; snapshot_path := None |}.

Lemma failed_submission_leaves_nothing_witness :
  exists e s', persist_here [add_file; missing_file] (u "m") opened = (Raise e, s') /\
    (gone queue_dir 7 (tree (q_fs s')) \/ leftover queue_dir 7 (q_fs s') \/
     exists fs, unlink (state_path_for queue_dir 7) fs = (Raise e, q_fs s')).
Proof.
  destruct (persist_here [add_file; missing_file] (u "m") opened) as [[stored|e] s'] eqn:E.
  - exfalso. apply (f_equal (fun r => match r.1 with Ok _ => true | Raise _ => false end)) in E.
    vm_compute in E. discriminate E.
  - exists e, s'. split; [reflexivity|].
    refine (failed_submission_leaves_nothing long_middle queue_dir temporary_name_fresh
      [add_file; missing_file] (u "m") opened e s' _ _ E); [discriminate|].
    assert (Hg : forall q, (2 <= length q)%nat -> q ≠ data_file -> upload_disk !! q = None).
    { intros q Hq Hne. apply not_elem_of_list_to_map_1. intros Hin.
      exfalso. cbn -[data_file] in Hin. rewrite !elem_of_cons in Hin.
      destruct Hin as [->|[->|[->|Hin%elem_of_nil]]]; [simpl in Hq; lia|by apply Hne|simpl in Hq; lia|exact Hin]. }
    split.
    + apply Hg; [simpl; lia|by_evaluation].
    + intros x. apply Hg; [unfold snapshot_dir_for_sequence, snapshots_root, child; rewrite !length_app; simpl; lia|].
      intros H. apply (f_equal head) in H. vm_compute in H. discriminate H.
Defined.

(** * An upload service *)

(** The answers the service gives, and the messages it was called with. *)
Record Service := { answers : list (outcome unit); calls : list str }.

#[local] Instance service_env : RetryEnv Service := {|
  cancellation_is_set _ := false; cancellation_wait _ w := (Ok false, w); uniform a _ w := (Ok a, w) |}.
#[local] Instance service_site : UploadSite Service := {|
  upload _ _ message w := (default (Ok tt) (head (answers w)),
    {| answers := tail (answers w); calls := calls w ++ [message] |});
  error_transient _ := true; error_response _ := None; float_of_str _ := None;
  http_date_delay _ w := (Ok None, w) |}.

Definition idle_service : Service := {| answers := []; calls := [] |}.

(** Transient failures are retried until the attempts are used up. *)
Example attempts_used_up :
  let failing := {| answers := replicate 9 (Raise (exc CTimeoutError [])); calls := [] |} in
  let r := run_upload_attempts (upload ∅ two_ops (u "m")) 3 failing in
  r.1 = Raise (exc CTimeoutError []) /\ length (calls r.2) = 3%nat.
Proof. split; vm_compute; reflexivity. Qed.

Definition stored_job (s : PublicationOp) (sha : pyval) : UploadJob :=
  {| j_ops := [s]; j_message := u "m"; j_state_path := Some (state_path_for queue_dir 7);
     j_snapshot_dir := None; j_op_shas := [sha] |}.
Definition other_digest : pyval := VStr (u "0").

Lemma job_effect_witness :
  let job := stored_job add_file other_digest in
  exists d, work queue_dir true 5 job (mkFs upload_disk [], idle_service) =
    (Ok (Failed d), (mkFs upload_disk [], idle_service)).
Proof.
  intros job. destruct (work queue_dir true 5 job (mkFs upload_disk [], idle_service)) as [o [fs' w']] eqn:E.
  destruct (job_effect queue_dir true 5 job (state_path_for queue_dir 7) (mkFs upload_disk []) idle_service o fs' w'
    eq_refl eq_refl E) as (H & _).
  destruct H as ([d ->] & -> & ->); [|by exists d].
  exists 0%nat, add_file, other_digest. split; [reflexivity|]. split; [reflexivity|].
  exists data_file. split; [reflexivity|]. split; [reflexivity|].
  intros h Hh. vm_compute in Hh. injection Hh as <-. vm_compute. reflexivity.
Defined.

(** * A queue *)

Abbreviation step := (qstep long_middle queue_dir [] true 1 5).
Definition submitted : Queue Service :=
  (submit long_middle queue_dir true two_ops (u "m") (start opened idle_service)).2.
Definition closing : Queue Service :=
  match put 1 submitted with Some q => close q | None => start opened idle_service end.

Lemma closing_reachable : reachable long_middle queue_dir [] true 1 5 opened idle_service closing.
Proof.
  assert (H1 : reachable long_middle queue_dir [] true 1 5 opened idle_service submitted).
  { eapply RStep; [apply RStart|]. by apply QSubmit. }
  unfold closing. destruct (put 1 submitted) as [q|] eqn:E; [|apply RStart].
  eapply RStep; [eapply RStep; [exact H1|by apply QPut]|]. apply QClose.
  assert (Hl : length (to_put submitted) = 1%nat) by (vm_compute; reflexivity).
  unfold put in E. destruct (to_put submitted) as [|item [|]]; [done| |done].
  by destruct (len (jobs submitted) <? 1); simplify_eq.
Qed.

Lemma every_upload_accounted_for_witness : accounted 1 closing /\ length (accepted closing) = 1%nat.
Proof.
  split; [|vm_compute; reflexivity].
  apply (every_upload_accounted_for long_middle queue_dir [] true 1 5 opened idle_service closing).
  apply closing_reachable.
Defined.

Lemma closed_queue_drains_witness : sn (drain_step queue_dir true 1 5) closing.
Proof.
  destruct (closed_queue_drains long_middle queue_dir [] true 1 5 opened idle_service closing) as [H _];
    [discriminate|apply closing_reachable|vm_compute; reflexivity|exact H].
Defined.
