(* ===== verification/UploadFrame.v ===== *)
(** The upload queue confined to its state directory: no operation of the store or of the queue
    changes a file outside of it. *)
From stdpp Require Import gmap sorting.
From S2P Require Import Prelude Py PyStr PyText Fs Keeps Artifacts Atomic Paths Retry UploadState UploadQueue.

(** * Computations that do not touch a path *)

Section Untouched.
Context (q : path).

Definition untouched {A} (m : PyM FsState A) : Prop := forall s o s', m s = (o, s') -> tree s' !! q = tree s !! q.

Lemma untouched_pure {A} (m : PyM FsState A) : (forall s, (m s).2 = s) -> untouched m.
Proof. intros H s o s' E. specialize (H s). rewrite E in H. simpl in H. by subst. Qed.

Lemma untouched_bind {A B} (m : PyM FsState A) (f : A -> PyM FsState B) :
  untouched m -> (forall a, untouched (f a)) -> untouched (pbind m f).
Proof.
  intros Hm Hf s o s'. unfold pbind. destruct (m s) as [[a|e] s1] eqn:E; intros H.
  - by rewrite (Hf a _ _ _ H), (Hm _ _ _ E).
  - simplify_eq. by eapply Hm.
Qed.

Lemma untouched_on_error {A} (m : PyM FsState A) h : untouched m -> untouched h -> untouched (on_error m h).
Proof.
  intros Hm Hh s o s'. unfold on_error. destruct (m s) as [[a|e] s1] eqn:E; [intros [= <- <-]; by eapply Hm|].
  destruct (h s1) as [[[]|e'] s2] eqn:E2; intros [= <- <-]; by rewrite (Hh _ _ _ E2), (Hm _ _ _ E).
Qed.

Lemma untouched_primitive {A} (f : gmap path node -> outcome A * gmap path node) :
  (forall t, (f t).2 !! q = t !! q) -> untouched (primitive f).
Proof. intros Hf s o s' [(e & _ & ->)|E]%primitive_cases; [done|]. specialize (Hf (tree s)). by rewrite E in Hf. Qed.

Lemma untouched_mkdir p : q ∉ prefixes p -> untouched (mkdir p).
Proof.
  intros Hp. apply untouched_primitive. intros t. destruct (mkdirs (prefixes p) t) as [o t'] eqn:E.
  by destruct (mkdirs_lookup _ _ _ _ q E) as [|(_ & _ & ?)].
Qed.

Lemma write_tree_untouched p c t : p ≠ q -> (write_tree p c t).2 !! q = t !! q.
Proof.
  intros Hp. destruct (write_tree p c t) as [o t'] eqn:E.
  apply write_tree_cases in E as [(e & _ & ->)|(_ & _ & _ & ->)]; [done|]. by apply lookup_insert_ne.
Qed.

Lemma untouched_write_file p c : p ≠ q -> untouched (write_file p c).
Proof. intros. apply untouched_primitive. intros. by apply write_tree_untouched. Qed.

Lemma untouched_copy_file src p : p ≠ q -> untouched (copy_file src p).
Proof.
  intros. apply untouched_primitive. intros t. unfold copy_tree.
  destruct (t !! src) as [[c|]|]; [by apply write_tree_untouched|done..].
Qed.

Lemma untouched_unlink p : p ≠ q -> untouched (unlink p).
Proof.
  intros. apply untouched_primitive. intros t. unfold unlink_tree.
  destruct (t !! p) as [[]|]; [by apply lookup_delete_ne|done|by apply lookup_delete_ne].
Qed.

Lemma untouched_os_replace src dst : src ≠ q -> dst ≠ q -> untouched (os_replace src dst).
Proof.
  intros. apply untouched_primitive. intros t. unfold replace_tree.
  repeat case_match; try done; simpl; by rewrite lookup_insert_ne, lookup_delete_ne.
Qed.

Lemma untouched_create_temporary name : (forall t, name t ≠ q) -> untouched (create_temporary name).
Proof.
  intros Hn. apply untouched_primitive. intros t. pose proof (write_tree_untouched (name t) (CBytes []) t (Hn t)) as H.
  by destruct (write_tree _ _ t) as [[] t'].
Qed.

Lemma untouched_rmtree p : relative_to q p = None -> untouched (rmtree p).
Proof.
  intros Hp s o s' E. destruct (rmtree_subset _ _ _ _ E q) as [?|[_ [x Hx]]]; [done|congruence].
Qed.

Lemma untouched_atomic_replacement middle target (body : path -> PyM FsState unit) :
  q ∉ prefixes (path_parent target) -> target ≠ q -> (forall t, temporary_name middle target t ≠ q) ->
  (forall t, t ≠ q -> untouched (body t)) -> untouched (atomic_replacement middle target body).
Proof.
  intros Hp Ht Htmp Hb. unfold atomic_replacement.
  intros s o s'. unfold pbind at 1. destruct (mkdir _ s) as [[[]|e] s1] eqn:E1;
    (apply untouched_mkdir in E1; [|done]); [|intros [= <- <-]; done].
  unfold pbind at 1, mkstemp_tmp. destruct (create_temporary _ s1) as [[tmp|e] s2] eqn:E2.
  - pose proof E2 as E2'. apply untouched_create_temporary in E2'; [|done].
    apply create_temporary_cases in E2 as [(e & ? & _)|(Htm & _)]; [done|]. injection Htm as ->. intros H.
    apply untouched_on_error in H; [congruence|apply untouched_bind; [by apply Hb|intros; by apply untouched_os_replace]|by apply untouched_unlink].
  - intros [= <- <-]. apply untouched_create_temporary in E2; [congruence|done].
Qed.
End Untouched.

#[export] Hint Extern 1 (untouched _ (ret _)) => by apply untouched_pure : untouched.
#[export] Hint Extern 1 (untouched _ (throw _)) => by apply untouched_pure : untouched.
#[export] Hint Extern 1 (untouched _ (lift _)) => by apply untouched_pure : untouched.
#[export] Hint Extern 1 (untouched _ (gets _)) => by apply untouched_pure : untouched.
#[export] Hint Extern 1 (untouched _ (reads _)) => by apply untouched_pure : untouched.
#[export] Hint Resolve untouched_bind untouched_on_error : untouched.

(** * The store *)

Section Store.
Context {RT : Runtime} {FF : FileFormats}.
Variable temporary_middle : gmap path node -> path -> str.
Variables (state_dir cwd : path).

(** A path that is not in the state directory and not one of its parents. *)
Record outside (q : path) : Prop := {
  o_root : q ≠ [];
  o_plain : u ".." ∉ q;
  o_below : relative_to q state_dir = None;
  o_above : q ∉ prefixes state_dir }.
Hypothesis state_dir_plain : u ".." ∉ state_dir.

Context (q : path) (Hq : outside q).
#[local] Abbreviation untouched := (untouched q).

Lemma prefixes_app a b p : p ∈ prefixes (a ++ b) -> p ∈ prefixes a \/ exists x, p = a ++ x.
Proof.
  unfold prefixes. change a with ([] ++ a) at 3. generalize (@nil str) as acc.
  induction a as [|c a IH]; intros acc; simpl.
  - intros H. right. rewrite app_nil_r. revert acc H. induction b as [|d b IHb]; intros acc; simpl; [by intros ?%elem_of_nil|].
    intros [->|H]%elem_of_cons; [by exists [d]|]. apply IHb in H as [x ->]. exists (d :: x). by rewrite <- app_assoc.
  - intros [->|H]%elem_of_cons; [left; by left|]. apply IH in H as [H|[x ->]]; [left; by right|right].
    exists x. by rewrite <- !app_assoc.
Qed.

Lemma not_in_state_dir x : state_dir ++ x ≠ q.
Proof. intros <-. pose proof (o_below _ Hq) as H. by rewrite relative_to_app in H. Qed.

Lemma not_above_state_dir x : q ∉ prefixes (state_dir ++ x).
Proof. intros [H|[y Hy]]%prefixes_app; [by apply (o_above _ Hq)|by apply (not_in_state_dir y)]. Qed.

Lemma not_beside_state_dir x : path_parent q ≠ state_dir ++ x.
Proof.
  intros H. apply (not_in_state_dir (x ++ [path_name q])). rewrite app_assoc, <- H. symmetry. apply path_eta, Hq.
Qed.

Lemma untouched_mkdir_in x : untouched (mkdir (state_dir ++ x)).
Proof. apply untouched_mkdir, not_above_state_dir. Qed.

Lemma untouched_atomic_in x name body :
  (forall t, t ≠ q -> untouched (body t)) ->
  untouched (atomic_replacement temporary_middle (child (state_dir ++ x) name) body).
Proof.
  intros. apply untouched_atomic_replacement; rewrite ?path_parent_child;
    [apply not_above_state_dir|unfold child; rewrite <- app_assoc; apply not_in_state_dir| |done].
  intros t E. apply (not_beside_state_dir x). rewrite <- E. unfold temporary_name. by rewrite !path_parent_child.
Qed.

Lemma untouched_write_highwater n : untouched (write_highwater temporary_middle state_dir n).
Proof.
  unfold write_highwater, atomic_write_text. rewrite <- (app_nil_r state_dir). apply untouched_atomic_in.
  intros. apply untouched_bind; [by apply untouched_pure|]. intros. by apply untouched_write_file.
Qed.

Lemma untouched_write_envelope n v : untouched (write_envelope temporary_middle (state_path_for state_dir n) v).
Proof.
  unfold write_envelope, atomic_write_json, state_path_for. rewrite <- (app_nil_r state_dir). apply untouched_atomic_in.
  intros. by apply untouched_write_file.
Qed.

(** Removing a directory that the store takes for one of its snapshot directories. *)
Lemma untouched_rmtree_inside d : is_inside d (snapshots_root state_dir) = true -> untouched (rmtree d).
Proof.
  intros Hd. apply untouched_rmtree. destruct (relative_to q d) as [x|] eqn:E; [|done].
  apply relative_to_spec in E. unfold is_inside in Hd. apply bool_decide_eq_true in Hd as [y Hy].
  assert (Hclean : forall p, u ".." ∉ p -> resolve p = p).
  { intros p. unfold resolve. induction p as [|c p IH] using rev_ind; [done|]. intros Hp. rewrite foldl_app, IH by set_solver.
    simpl. rewrite str_eqb_neq; [done|]. set_solver. }
  rewrite (Hclean d), (Hclean (snapshots_root state_dir)) in Hy.
  - apply relative_to_spec in Hy. unfold snapshots_root, child in Hy. subst d q.
    pose proof (o_below _ Hq) as H. rewrite <- !app_assoc, relative_to_app in H. done.
  - unfold snapshots_root, child. rewrite elem_of_app, list_elem_of_singleton. by intros [?|?].
  - pose proof (o_plain _ Hq) as H. subst q. set_solver.
Qed.

Lemma snapshot_below n : exists x, snapshot_dir_for_sequence state_dir n = state_dir ++ x.
Proof. exists ([SNAPSHOTS_SUBDIR; sequence_name n]). unfold snapshot_dir_for_sequence, snapshots_root, child. by rewrite <- app_assoc. Qed.

Lemma untouched_take_snapshot l i d : (exists x, d = state_dir ++ x) -> untouched (take_snapshot l i d).
Proof.
  intros [x ->]. unfold take_snapshot, independent_copy, child. rewrite <- !app_assoc.
  apply untouched_bind; [apply untouched_mkdir_in|]. intros _.
  repeat (apply untouched_bind; [|intros]); auto with untouched.
  - unfold path_parent. rewrite !app_assoc, removelast_last, <- !app_assoc. apply untouched_mkdir_in.
  - apply untouched_copy_file, not_in_state_dir.
Qed.

Lemma untouched_snapshot_operation op i d :
  (forall d', d = Some d' -> exists x, d' = state_dir ++ x) -> untouched (snapshot_operation op i d).
Proof.
  intros Hd. unfold snapshot_operation. destruct (negb _); [auto with untouched|].
  destruct d as [d|]; [|auto with untouched]. unfold snapshot_add_operation.
  destruct (local_path op); [|auto with untouched]. apply untouched_bind; [auto with untouched|]. intros []; simpl; [|auto with untouched].
  apply untouched_bind; [by apply untouched_take_snapshot, Hd|]. intros. apply untouched_bind; intros; auto with untouched.
Qed.

Lemma untouched_snapshot_from i ops d :
  (forall d', d = Some d' -> exists x, d' = state_dir ++ x) -> untouched (snapshot_from i ops d).
Proof.
  intros Hd. revert i. induction ops as [|op ops IH]; intros i; simpl; [auto with untouched|].
  apply untouched_bind; [by apply untouched_snapshot_operation|]. intros.
  apply untouched_bind; [apply IH|]. auto with untouched.
Qed.

Lemma untouched_cleanup n d : untouched (cleanup_failed_submission state_dir (state_path_for state_dir n) d).
Proof.
  unfold cleanup_failed_submission. apply untouched_bind; [apply untouched_unlink, not_in_state_dir|]. intros _.
  destruct d as [d|]; [|auto with untouched]. destruct (is_inside _ _) eqn:E; [by apply untouched_rmtree_inside|auto with untouched].
Qed.

Lemma untouched_snapshot_operations ops n : untouched (snapshot_operations state_dir ops n).
Proof.
  assert (H : forall d, (forall d', d = Some d' -> exists x, d' = state_dir ++ x) ->
    untouched (taken <- snapshot_from 0 ops d;; ret (taken, d))).
  { intros d Hd. apply untouched_bind; [by apply untouched_snapshot_from|auto with untouched]. }
  unfold snapshot_operations, submission_snapshot_dir. destruct (negb _); [by apply H|].
  intros s o s'. unfold pbind at 1 2. destruct (mkdir _ s) as [[[]|e] s1] eqn:E1;
    (destruct (snapshot_below n) as [x Hx]; rewrite Hx in E1; apply untouched_mkdir_in in E1).
  - intros H1. apply H in H1; [congruence|]. intros d' [= <-]. apply snapshot_below.
  - by intros [= <- <-].
Qed.

Lemma untouched_snapshot_and_write ops message n : untouched (snapshot_and_write temporary_middle state_dir ops message n).
Proof.
  unfold snapshot_and_write. apply untouched_bind.
  - apply untouched_on_error; [apply untouched_snapshot_operations|apply untouched_cleanup].
  - intros. apply untouched_bind; [|auto with untouched]. apply untouched_on_error; [apply untouched_write_envelope|apply untouched_cleanup].
Qed.

(** ** Computations of the store *)

Definition in_dir (p : path) : Prop := exists x, p = state_dir ++ x.

Definition store_untouched {A} (m : PyM QState A) : Prop :=
  forall s o s', m s = (o, s') -> tree (q_fs s') !! q = tree (q_fs s) !! q.

Lemma store_bind {A B} (m : PyM QState A) (f : A -> PyM QState B) :
  store_untouched m -> (forall a s s', m s = (Ok a, s') -> store_untouched (f a)) -> store_untouched (pbind m f).
Proof.
  intros Hm Hf s o s'. unfold pbind. destruct (m s) as [[a|e] s1] eqn:E; intros H.
  - by rewrite (Hf a _ _ E _ _ _ H), (Hm _ _ _ E).
  - simplify_eq. by eapply Hm.
Qed.

Lemma store_pure {A} (m : PyM QState A) : (forall s, (m s).2.(q_fs) = s.(q_fs)) -> store_untouched m.
Proof. intros H s o s' E. specialize (H s). rewrite E in H. simpl in H. by rewrite H. Qed.

Lemma store_on_fs {A} (m : PyM FsState A) : untouched m -> store_untouched (UploadState.on_fs m).
Proof.
  intros Hm s o s'. unfold UploadState.on_fs. destruct (m (q_fs s)) as [o1 fs] eqn:E. intros [= <- <-]. by eapply Hm.
Qed.

Lemma store_allocate : store_untouched (allocate_sequence temporary_middle state_dir).
Proof.
  unfold allocate_sequence. apply store_bind; [by apply store_pure|]. intros n _ _ _.
  apply store_bind; [by apply store_pure|]. intros _ _ _ _.
  apply store_bind; [apply store_on_fs, untouched_write_highwater|]. intros _ _ _ _. by apply store_pure.
Qed.

Lemma store_persist ops message : store_untouched (persist temporary_middle state_dir ops message).
Proof.
  unfold persist. apply store_bind; [apply store_allocate|]. intros n _ _ _.
  apply store_bind; [apply store_on_fs, untouched_snapshot_and_write|]. intros. by apply store_pure.
Qed.

Lemma persist_in_dir ops message s stored s' :
  persist temporary_middle state_dir ops message s = (Ok stored, s') -> in_dir (su_state_path stored).
Proof.
  unfold persist. intros (n & s1 & _ & H)%pym_bind_Ok. apply pym_bind_Ok in H as (taken & s2 & _ & H).
  unfold ret in H. simplify_eq. by eexists.
Qed.

(** ** Resuming *)

Lemma untouched_upgrade_operation raw i d : in_dir d -> untouched (upgrade_legacy_operation cwd raw i d).
Proof.
  intros Hd. unfold upgrade_legacy_operation. do 4 (apply untouched_bind; [auto with untouched|intros]).
  destruct (negb _).
  - case_match; [auto with untouched|]. apply untouched_bind; intros; auto with untouched.
  - unfold upgrade_legacy_add_operation. case_match; [|auto with untouched].
    apply untouched_bind; [auto with untouched|]. intros []; simpl; [|auto with untouched].
    apply untouched_bind; [by apply untouched_take_snapshot|]. intros. apply untouched_bind; intros; auto with untouched.
Qed.

Lemma untouched_upgrade_from i entries d : in_dir d -> untouched (upgrade_from cwd i entries d).
Proof.
  intros Hd. revert i. induction entries as [|e es IH]; intros i; simpl; [auto with untouched|].
  apply untouched_bind; [by apply untouched_upgrade_operation|]. intros.
  apply untouched_bind; [apply IH|]. auto with untouched.
Qed.

Lemma store_upgrade_envelope p payload :
  in_dir p -> store_untouched (upgrade_legacy_envelope temporary_middle state_dir cwd p payload).
Proof.
  intros [x ->]. unfold upgrade_legacy_envelope. apply store_bind; [apply store_allocate|]. intros n _ _ _.
  destruct (snapshot_below n) as [y Hy]. apply store_on_fs.
  apply untouched_bind; [rewrite Hy; apply untouched_mkdir_in|]. intros _.
  apply untouched_bind; [auto with untouched|]. intros.
  apply untouched_bind; [apply untouched_upgrade_from; by exists y|]. intros.
  apply untouched_bind; [apply untouched_write_envelope|]. intros _.
  apply untouched_bind; [apply untouched_unlink, not_in_state_dir|]. auto with untouched.
Qed.

Lemma store_try_except {A} (m : PyM QState A) h :
  store_untouched m -> (forall e k, h e = Some k -> store_untouched k) -> store_untouched (try_except m h).
Proof.
  intros Hm Hh s o s'. unfold try_except. destruct (m s) as [[a|e] s1] eqn:E; [intros [= <- <-]; by eapply Hm|].
  destruct (h e) as [k|] eqn:Eh; [|intros [= <- <-]; by eapply Hm].
  intros H. by rewrite (Hh _ _ Eh _ _ _ H), (Hm _ _ _ E).
Qed.

Definition upgrades_in_dir (u : Upgrades) : Prop := Forall (fun j => in_dir j.1.1.2) (up_jobs u).

Lemma store_upgrade_one acc legacy :
  in_dir legacy.1 -> store_untouched (upgrade_one temporary_middle state_dir cwd acc legacy).
Proof.
  intros Hl. unfold upgrade_one. apply store_bind.
  - apply store_try_except.
    + apply store_bind; [by apply store_upgrade_envelope|]. intros. by apply store_pure.
    + intros e k Hk. destruct (resume_failure e); [|done]. injection Hk as <-. by apply store_pure.
  - intros [[[n envelope] d]|f] _ _ _; [|by apply store_pure]. case_bool_decide; [|by apply store_pure].
    apply store_bind; [|intros; by apply store_pure]. apply store_on_fs. unfold remove_failed_upgrade.
    apply untouched_bind; [apply untouched_unlink, not_in_state_dir|]. intros _.
    apply untouched_bind; [auto with untouched|]. intros []; simpl; [|auto with untouched].
    destruct (is_inside _ _) eqn:E; [by apply untouched_rmtree_inside|auto with untouched].
Qed.

Lemma upgrade_one_in_dir acc legacy s acc' s' :
  upgrades_in_dir acc -> upgrade_one temporary_middle state_dir cwd acc legacy s = (Ok acc', s') -> upgrades_in_dir acc'.
Proof.
  intros Ha (r & s1 & _ & H)%pym_bind_Ok. destruct r as [[[n envelope] d]|f].
  - case_bool_decide; [by apply pym_bind_Ok in H as (? & ? & _ & ?)|]. unfold ret in H. simplify_eq.
    apply Forall_app. split; [done|]. repeat constructor. by eexists.
  - unfold ret in H. by simplify_eq.
Qed.

Lemma store_upgrade_pending acc legacy :
  Forall (fun l => in_dir l.1) legacy -> store_untouched (upgrade_pending_legacy temporary_middle state_dir cwd acc legacy).
Proof.
  intros H. revert acc. induction H as [|l legacy Hl _ IH]; intros acc; simpl; [by apply store_pure|].
  apply store_bind; [by apply store_upgrade_one|]. intros. apply IH.
Qed.

Lemma upgrade_pending_in_dir acc legacy s acc' s' :
  upgrades_in_dir acc -> upgrade_pending_legacy temporary_middle state_dir cwd acc legacy s = (Ok acc', s') ->
  upgrades_in_dir acc'.
Proof.
  revert acc s. induction legacy as [|l legacy IH]; intros acc s Ha; simpl; [unfold ret; intros; by simplify_eq|].
  intros (a & s1 & E & H)%pym_bind_Ok. eapply IH; [|exact H]. by eapply upgrade_one_in_dir.
Qed.

Definition pending_in_dir (p : Pending) : Prop :=
  Forall (fun c => in_dir c.1.2) (pe_current p) /\ Forall (fun l => in_dir l.1) (pe_legacy p).

Lemma pending_envelopes_in_dir t p : pending_envelopes state_dir t = Ok p -> pending_in_dir p.
Proof.
  unfold pending_envelopes. intros H. eapply (fold_outcome_invariant pending_in_dir); [exact H|by split|].
  intros acc x acc' (name & -> & _)%list_elem_of_fmap [Ha1 Ha2] H1. assert (Hx : in_dir (child state_dir name)) by by exists [name].
  unfold add_pending in H1. apply outcome_bind_Ok in H1 as (kind & _ & H1). apply mret_Ok in H1. subst acc'.
  destruct kind as [payload|[n payload]]; split; simpl; try done; (apply Forall_app; split; [done|by constructor]).
Qed.

Definition uploads_in_dir (l : list StoredUpload) : Prop := Forall (fun x => in_dir (su_state_path x)) l.

Lemma restored_in_dir jobs acc r :
  Forall (fun j : Z * path * pydict * path => in_dir j.1.1.2) jobs -> uploads_in_dir acc.1 ->
  fold_outcome (add_restored state_dir cwd) acc jobs = Ok r -> uploads_in_dir r.1.
Proof.
  intros H. revert acc. induction H as [|j jobs Hj _ IH]; intros acc Ha Hr; simpl in Hr; [apply mret_Ok in Hr; by subst|].
  apply outcome_bind_Ok in Hr as (acc' & H1 & Hr). eapply IH; [|exact Hr].
  unfold add_restored in H1. apply outcome_bind_Ok in H1 as (x & Hx & H1). apply mret_Ok in H1. subst acc'.
  destruct x as [x|]; [|done]. simpl. apply Forall_app. split; [done|]. constructor; [|done].
  unfold restore_pending_job in Hx. destruct (negb _); [by apply mret_Ok in Hx|].
  destruct (resume_operations _ _ _ _) as [ops|e]; [|destruct (resume_failure e); [by apply mret_Ok in Hx|done]].
  apply outcome_bind_Ok in Hx as (m & _ & Hx). apply mret_Ok in Hx. by injection Hx as <-.
Qed.

Lemma ordered_in_dir current upgraded :
  Forall (fun c : Z * path * pydict => in_dir c.1.2) current -> Forall (fun j : Z * path * pydict * path => in_dir j.1.1.2) upgraded ->
  Forall (fun j => in_dir j.1.1.2) (ordered_pending_jobs state_dir current upgraded).
Proof.
  intros Hc Hu. unfold ordered_pending_jobs. rewrite merge_sort_Permutation. apply Forall_app. split; [|done].
  by apply Forall_fmap.
Qed.

Lemma store_resume : store_untouched (resume_pending temporary_middle state_dir cwd).
Proof.
  unfold resume_pending. apply store_bind; [by apply store_pure|]. intros pending s s1 Hp.
  apply store_bind.
  - apply store_upgrade_pending. unfold read_tree, UploadState.on_fs, reads in Hp. injection Hp as Hp _.
    by apply pending_envelopes_in_dir in Hp as [_ ?].
  - intros. apply store_bind; [by apply store_pure|]. intros. by apply store_pure.
Qed.

Lemma resume_in_dir s r s' :
  resume_pending temporary_middle state_dir cwd s = (Ok r, s') -> uploads_in_dir (rr_uploads r).
Proof.
  intros (pending & s1 & Hp & H)%pym_bind_Ok. unfold read_tree, UploadState.on_fs, reads in Hp. injection Hp as Hp _.
  apply pending_envelopes_in_dir in Hp as [Hc Hl]. apply pym_bind_Ok in H as (upgrades & s2 & Hu & H).
  apply upgrade_pending_in_dir in Hu; [|constructor].
  apply pym_bind_Ok in H as (restored & s3 & Hr & H). unfold ret in H. injection H as <- _. unfold lift in Hr. injection Hr as Hr _.
  refine (restored_in_dir _ _ _ (ordered_in_dir _ _ Hc Hu) _ Hr). constructor.
Qed.

(** ** Finishing *)

Lemma untouched_delete p d : p ≠ q -> untouched (delete_upload state_dir p d).
Proof.
  intros Hp. unfold delete_upload. apply untouched_bind; [by apply untouched_unlink|]. intros _.
  destruct d as [d|]; [|auto with untouched]. destruct (is_inside _ _) eqn:E; simpl; [by apply untouched_rmtree_inside|auto with untouched].
Qed.
End Store.
