(* ===== verification/DeferredMetadata.v ===== *)
(** Metadata a regional commit leaves for later: the record both publishers make of it
    ([_record_deferred_metadata] and its helper, in [hf/core_publication.py] and in
    [cli/sync_application.py]) and what it means for the publication intent. *)
From stdpp Require Import gmap sorting.
From S2P Require Import Prelude Py PyStr Fs Artifacts Atomic Pending PendingProofs.

(** * The record *)

Section DeferredMetadata.
Context {RT : Runtime} {FF : FileFormats}.
Variable temporary_middle : gmap path node -> path -> str.
Variable data_root : path.

(** The digests a surviving marker names. *)
Definition recorded_marker_hashes (t : gmap path node) : outcome (list (str * str)) :=
  marker ← load_metadata_refresh_marker data_root t;
  match marker with
  | None => mret []
  | Some marker =>
      match dget_none (u "fingerprint_hashes") marker with
      | VDict hashes => mret ((fun kv => (kv.1, py_str kv.2)) <$> hashes)
      | _ => Raise (exc AttributeError (msg "object has no attribute 'items'"))
      end
  end.

Definition polygons_path (stem : str) : path := child (processed_polygons data_root) (stem ++ u ".parquet").

(** The digests of the regions a run has deferred so far live in a dictionary of the run. *)
Definition str_values (d : list (str * str)) : pydict := (fun kv => (kv.1, VStr kv.2)) <$> d.

Definition record_deferred_metadata (stem : str) : PyM (FsState * list (str * str)) unit := fun s =>
  let '(fs, deferred) := s in
  if negb (is_file (polygons_path stem) (tree fs)) then (Ok tt, s)
  else match sha256_file (polygons_path stem) (tree fs) with
  | Raise e => (Raise e, s)
  | Ok digest =>
      let deferred := dset stem digest deferred in
      match recorded_marker_hashes (tree fs) with
      | Raise e => (Raise e, (fs, deferred))
      | Ok recorded =>
          let merged := dupdate recorded deferred in
          let '(o, fs') := set_metadata_refresh_marker temporary_middle data_root
            (VList (VStr <$> sorted_strs merged.*1)) (VDict (str_values merged)) fs in
          (o, (fs', deferred))
      end
  end.

End DeferredMetadata.

(** * Its meaning *)

Section Owed.
Context {RT : Runtime} {FF : FileFormats}.
Variable temporary_middle : gmap path node -> path -> str.
Variable data_root : path.
Hypothesis temporary_is_fresh : forall t p, t !! temporary_name temporary_middle p t = None.

(** The digests of the regions whose metadata is owed, on a disk with a sound envelope. *)
Definition owes (s : FsState) (m : gmap str str) : Prop :=
  exists i, represents data_root (tree s) i /\ default ∅ (refresh i) = m.

(** The run's own dictionary is part of what is owed. *)
Definition tracks (s : FsState * list (str * str)) (m : gmap str str) : Prop :=
  owes s.1 m /\ NoDup s.2.*1 /\ (list_to_map s.2 : gmap str str) ⊆ m.

Lemma owes_same s s' m : tree s' !! manifest_path data_root = tree s !! manifest_path data_root -> owes s m -> owes s' m.
Proof. intros H (i & Hi & Hm). exists i. split; [by eapply represents_same|done]. Qed.

Lemma recorded_hashes_owed s m :
  owes s m -> exists recorded, recorded_marker_hashes data_root (tree s) = Ok recorded /\ forall k, dget k recorded = m !! k.
Proof.
  intros (i & Hi & <-). unfold recorded_marker_hashes. rewrite (load_marker_represents data_root _ _ Hi).
  destruct (refresh i) as [m|]; simpl; [|by exists []].
  exists ((fun kv => (kv.1, py_str kv.2)) <$> hashes_field m). split; [done|].
  intros k. rewrite dget_fmap, dget_hashes_field. by destruct (m !! k).
Qed.

Lemma load_marker_owed s m :
  owes s m -> exists r, load_metadata_refresh_marker data_root (tree s) = Ok r /\
    (m = ∅ /\ r = None \/ m ≠ ∅ /\ r = Some (marker_payload m)).
Proof.
  intros (i & Hi & <-). eexists. split; [by apply load_marker_represents|].
  destruct (refresh i) as [m|] eqn:E; simpl; [right|by left]. split; [|done].
  assert (marker_ok m) as [? _]; [|done]. unfold represents in Hi.
  destruct (tree s !! manifest_path data_root) as [[[b|[]]|]|]; try done; [|by subst]. by eapply d_marker_ok.
Qed.

Lemma dget_dupdate_map (d kvs : list (str * str)) (m : gmap str str) k :
  (forall k, dget k d = m !! k) -> NoDup kvs.*1 -> dget k (dupdate d kvs) = (list_to_map kvs ∪ m) !! k.
Proof.
  intros Hd Hn. rewrite lookup_union, lookup_list_to_map, <- Hd.
  destruct (dget k kvs) as [v|] eqn:E.
  - rewrite (dget_dupdate k v); [by destruct (dget k d)|done|by apply dget_elem_of].
  - rewrite dget_dupdate_other; [by destruct (dget k d)|by apply dget_None].
Qed.

Lemma marker_of_str_values (d : list (str * str)) (m : gmap str str) :
  (forall k, dget k d = m !! k) -> marker_of (str_values d) = m.
Proof.
  intros H. apply map_eq. intros k. destruct (m !! k) as [h|] eqn:E.
  - apply lookup_marker_of. unfold str_values. by rewrite (dget_fmap VStr), H, E.
  - destruct (marker_of (str_values d) !! k) as [h|] eqn:E'; [|done].
    apply lookup_marker_of in E'. unfold str_values in E'. rewrite (dget_fmap VStr), H, E in E'. done.
Qed.

Lemma set_marker_owes stems d s o s' m :
  owes s m -> set_metadata_refresh_marker temporary_middle data_root stems (VDict d) s = (o, s') ->
  owes s' (match o with Ok _ => marker_of d | Raise _ => m end).
Proof.
  intros (i & Hi & <-) H. pose proof (turns_set_marker _ _ temporary_is_fresh stems (VDict d) i s o s' Hi H) as Hi'.
  eexists. split; [exact Hi'|]. by destruct o.
Qed.

Lemma clear_marker_owes s o s' m :
  owes s m -> clear_metadata_refresh_marker temporary_middle data_root s = (o, s') ->
  owes s' (match o with Ok _ => ∅ | Raise _ => m end).
Proof.
  intros (i & Hi & <-) H.
  pose proof (turns_request temporary_middle data_root temporary_is_fresh ClearMarker i s o s' Hi H) as Hi'.
  eexists. split; [exact Hi'|]. by destruct o.
Qed.

(** Recording a region adds its digest to what is owed, and forgets nothing; a record that raises
    changes nothing. *)
Lemma record_deferred_metadata_owes stem s o s' m :
  tracks s m -> record_deferred_metadata temporary_middle data_root stem s = (o, s') ->
  match o with
  | Raise _ => owes s'.1 m
  | Ok _ =>
      if is_file (polygons_path data_root stem) (tree s.1)
      then exists h, sha256_file (polygons_path data_root stem) (tree s.1) = Ok h /\ tracks s' (<[stem := h]> m)
      else s' = s
  end.
Proof.
  destruct s as [fs d]. intros (Ho & Hn & Hsub) H. unfold record_deferred_metadata in H. simpl in *.
  destruct (is_file _ _) eqn:Ef; simpl in H; [|by simplify_eq].
  destruct (sha256_file _ _) as [h|e] eqn:Eh; [|by simplify_eq].
  destruct (recorded_hashes_owed fs m Ho) as (recorded & Er & Hr). rewrite Er in H.
  destruct (set_metadata_refresh_marker _ _ _ _ fs) as [o' fs'] eqn:Es. simplify_eq.
  pose proof (set_marker_owes _ _ _ _ _ _ Ho Es) as Ho'. destruct o; simpl; [|done].
  exists h. split; [done|].
  assert (Hd : (list_to_map (dset stem h d) : gmap str str) = <[stem := h]> (list_to_map d)).
  { apply map_eq. intros k. rewrite lookup_list_to_map. destruct (decide (k = stem)) as [->|Hne].
    - by rewrite dget_dset_eq, lookup_insert_eq.
    - by rewrite dget_dset_ne, lookup_insert_ne, lookup_list_to_map. }
  unfold tracks. simpl. rewrite Hd. split_and!.
  - erewrite marker_of_str_values in Ho'; [exact Ho'|]. intros k.
    rewrite (dget_dupdate_map _ _ m) by (try done; by apply dset_NoDup).
    by rewrite Hd, <- insert_union_l, (map_subseteq_union (list_to_map d)).
  - by apply dset_NoDup.
  - by apply insert_mono.
Qed.

End Owed.
