(* ===== verification/Retirement.v ===== *)
(** Retirement of legacy articles after a publication: which regions a commit allows to retire
    ([cli/_sync/retirement.py]), the local retirement ([augmentation/wikipedia_retirement.py]) and
    the upload job that performs it ([cli/sync_publication.py]). *)
From stdpp Require Import gmap sorting.
From S2P Require Import Prelude Py PyStr Fs Artifacts Atomic Pending UploadState Reconciliation.

(** * Pairing *)

(** What [_scan_operations] collects; [None] stands for the path [__conflict__]. *)
Record Scan := { add_counts : gmap str Z; valid_adds : gmap str (option path); deletes : gset str }.
Definition empty_scan : Scan := {| add_counts := ∅; valid_adds := ∅; deletes := ∅ |}.

Definition canonical_remote (stem : str) : str := REMOTE_WIKIPEDIA_DOCUMENTS_DIR ++ u "/" ++ stem ++ u ".parquet".
Definition legacy_remote (stem : str) : str := LEGACY_REMOTE_ARTICLES_DIR ++ u "/" ++ stem ++ u ".parquet".

Definition operation_stem (op : PublicationOp) : option str :=
  if bool_decide (path_in_repo op = []) then None
  else
    let stem := stem_of_name (path_name (path_components (path_in_repo op))) in
    if is_safe_stem (VStr stem) then Some stem else None.

Definition is_canonical_add (remote action stem : str) : bool :=
  str_eqb action (u "add") && str_eqb remote (canonical_remote stem).
Definition is_legacy_delete (remote stem : str) : bool := str_eqb remote (legacy_remote stem).

Definition merge_add_path (prior : option (option path)) (resolved : path) : option path :=
  match prior with
  | None => Some resolved
  | Some prior => if bool_decide (prior = Some resolved) then Some resolved else None
  end.

Section Pairing.
Variable data_root : path.

Definition canonical_path (stem : str) : path := child (sub (processed data_root) "wikipedia/documents") (stem ++ u ".parquet").

Definition resolve_canonical_path (local : path) (stem : str) (t : gmap path node) : option path :=
  let expected := resolve (canonical_path stem) in
  if bool_decide (resolve local = expected) && is_file expected t then Some (resolve local) else None.

Definition canonical_add_path (op : PublicationOp) (stem : str) (t : gmap path node) : option path :=
  if negb (is_canonical_add (path_in_repo op) (action op) stem) then None
  else local ← local_path op; resolve_canonical_path local stem t.

Definition record_add (op : PublicationOp) (stem : str) (t : gmap path node) (s : Scan) : Scan :=
  {| add_counts := <[stem := default 0 (add_counts s !! stem) + 1]> (add_counts s);
     valid_adds := match canonical_add_path op stem t with
                   | Some resolved => <[stem := merge_add_path (valid_adds s !! stem) resolved]> (valid_adds s)
                   | None => valid_adds s
                   end;
     deletes := deletes s |}.

Definition scan_operation (t : gmap path node) (s : Scan) (op : PublicationOp) : Scan :=
  match operation_stem op with
  | None => s
  | Some stem =>
      if str_eqb (action op) (u "add")
      then if is_canonical_add (path_in_repo op) (action op) stem then record_add op stem t s else s
      else if is_legacy_delete (path_in_repo op) stem
           then {| add_counts := add_counts s; valid_adds := valid_adds s; deletes := {[stem]} ∪ deletes s |}
           else s
  end.

Definition scan_operations (ops : list PublicationOp) (t : gmap path node) : Scan :=
  foldl (scan_operation t) empty_scan ops.

Definition valid_single_adds (counts : gmap str Z) (adds : gmap str (option path)) : gset str :=
  dom (filter (fun kv => counts !! kv.1 = Some 1 /\ is_Some kv.2) adds).

Definition paired_retirement_stems (ops : list PublicationOp) (t : gmap path node) : gset str :=
  let s := scan_operations ops t in valid_single_adds (add_counts s) (valid_adds s) ∩ deletes s.

End Pairing.

(** * Local retirement *)

Section Retirement.
Context {RT : Runtime} {FF : FileFormats}.
Variable temporary_middle : gmap path node -> path -> str.
Variable data_root : path.
(** The checks of [_validate_retirement_inputs] on the tables of a region. *)
Variable validate_retirement_inputs : str -> gmap path node -> outcome unit.
Abbreviation M := (PyM FsState).

Definition legacy_path (stem : str) : path := child (processed_articles data_root) (stem ++ u ".parquet").
Definition processed_manifest : path := child (processed_manifests data_root) (u "processed_pbfs.json").
Definition augmentation_manifest : path := sub (processed data_root) "augmentation/manifests/augmentation_manifest.json".

Definition with_canonical_documents (stem : str) (entry : pydict) : pydict :=
  dset (u "wikipedia_documents_path") (VStr (u "wikipedia/documents/" ++ stem ++ u ".parquet")) (ddel (u "articles_path") entry).

Definition update_processed_manifest (stem : str) : M unit :=
  exists_ <- gets (fun s => path_exists processed_manifest (tree s));;
  if negb exists_ then ret tt
  else
    raw <- reads (read_json processed_manifest);;
    payload <- lift (as_entry raw);;
    match dget (stem ++ u ".osm.pbf") payload with
    | Some (VDict entry) =>
        atomic_write_json temporary_middle processed_manifest
          (VDict (dset (stem ++ u ".osm.pbf") (VDict (with_canonical_documents stem entry)) payload))
    | _ => ret tt
    end.

Definition with_canonical_hash (stem digest : str) (hashes : pydict) : pydict :=
  dset (path_str (canonical_path data_root stem)) (VStr digest) (ddel (path_str (legacy_path stem)) hashes).

Definition update_augmentation_manifest (stem : str) : M unit :=
  exists_ <- gets (fun s => path_exists augmentation_manifest (tree s));;
  if negb exists_ then ret tt
  else
    raw <- reads (read_json augmentation_manifest);;
    payload <- lift (as_entry raw);;
    match dget stem payload with
    | Some (VDict entry) =>
        match dget (u "core_hashes") entry with
        | Some (VDict hashes) =>
            digest <- reads (sha256_file (canonical_path data_root stem));;
            atomic_write_json temporary_middle augmentation_manifest
              (VDict (dset stem (VDict (dset (u "core_hashes") (VDict (with_canonical_hash stem digest hashes)) entry)) payload))
        | _ => ret tt
        end
    | _ => ret tt
    end.

Definition prepare_local_retirement (stem : str) : M unit :=
  reads (validate_retirement_inputs stem);;
  update_processed_manifest stem;;
  update_augmentation_manifest stem.

Definition finalize_local_retirement (stem : str) : M unit :=
  exists_ <- gets (fun s => path_exists (legacy_path stem) (tree s));;
  if negb exists_ then ret tt else prepare_local_retirement stem;; unlink (legacy_path stem).

(** * The upload job *)

Definition post_upload_publication_cleanup (ops : list PublicationOp) (dry_run : bool) : M unit :=
  if dry_run then ret tt
  else
    paired <- gets (fun s => paired_retirement_stems data_root ops (tree s));;
    if bool_decide (paired = ∅) then ret tt
    else
      for_each finalize_local_retirement (sorted_strs (elements paired));;
      remove_pending_publications temporary_middle data_root paired.

Section Job.
(** The Hub ([R]) and the upload of a commit to it. *)
Context {R : Type}.
Variable upload_files : list PublicationOp -> str -> gmap path node -> PyM R unit.

(** The operations that are sent read a snapshot where there is one. *)
Definition effective_op (op : PublicationOp) : outcome PublicationOp :=
  publication_op (action op) (path_in_repo op)
    (match snapshot_path op with Some p => Some p | None => local_path op end) None.

Definition execute_upload_job (ops : list PublicationOp) (message : str) (dry_run : bool) : PyM (FsState * R) unit := fun s =>
  match mapM effective_op ops with
  | Raise e => (Raise e, s)
  | Ok upload_ops =>
      match upload_files upload_ops message (tree s.1) s.2 with
      | (Raise e, hub) => (Raise e, (s.1, hub))
      | (Ok _, hub) => let '(o, fs) := post_upload_publication_cleanup ops dry_run s.1 in (o, (fs, hub))
      end
  end.
End Job.
End Retirement.
