(* ===== verification/RetirementProofs.v ===== *)
(** What retirement guarantees: a commit allows exactly the regions to be retired whose canonical
    documents it adds once and whose legacy articles it deletes, and nothing local is removed
    before the commit has succeeded. *)
From stdpp Require Import gmap sorting.
From S2P Require Import Prelude Py PyStr Fs Keeps Artifacts Atomic Paths Pending PendingProofs PendingThreads Reconciliation ReconciliationProofs UploadState UploadFrame Retirement.

(** * Pairing *)

Lemma safe_stem_spec stem : safe stem <-> stem ≠ [] /\ stem ≠ u "." /\ stem ≠ u ".." /\ 47%N ∉ stem /\ 92%N ∉ stem.
Proof.
  unfold safe, is_safe_stem. rewrite !andb_true_iff, !negb_true_iff, !bool_decide_eq_false.
  assert (He : forall c, existsb (N.eqb c) stem = false <-> c ∉ stem).
  { intros c. rewrite <- not_true_iff_false, existsb_exists. split.
    - intros H Hc. apply H. exists c. split; [by apply list_elem_of_In|apply N.eqb_refl].
    - intros H (x & Hx & ->%N.eqb_eq). apply H. by apply list_elem_of_In. }
  rewrite !He. naive_solver.
Qed.

Lemma components_of_parquet dir stem :
  safe stem -> path_components (dir ++ u "/" ++ stem ++ u ".parquet") = path_components dir ++ [stem ++ u ".parquet"].
Proof.
  intros (Hs & _ & _ & H47 & _)%safe_stem_spec. unfold path_components.
  change (u "/" ++ ?x) with (47%N :: x). rewrite split_on_slash, filter_app. f_equal.
  assert (Hp : bool_decide (47%N ∉ u ".parquet") = true) by (vm_compute; reflexivity).
  rewrite bool_decide_eq_true in Hp. rewrite split_on_none by (rewrite not_elem_of_app; done).
  apply (filter_singleton_True _ _ []).

  split; intros H%(f_equal length); rewrite length_app in H; change (length (u ".parquet")) with 8%nat in H;
    [|change (length (u ".")) with 1%nat in H]; simpl in H; lia.
Qed.

Lemma operation_stem_of dir stem op :
  safe stem -> path_in_repo op = dir ++ u "/" ++ stem ++ u ".parquet" -> operation_stem op = Some stem.
Proof.
  intros Hs Hp. unfold operation_stem. rewrite Hp, components_of_parquet by done.
  rewrite bool_decide_eq_false_2.
  2:{ intros H. apply (f_equal length) in H. rewrite !length_app in H. change (length (u "/")) with 1%nat in H. simpl in H. lia. }
  unfold path_name. rewrite last_snoc. change (default [] (Some ?x)) with x. cbv zeta. rewrite last_dot_stem by (by apply safe_stem_spec in Hs as [? _]).
  unfold safe in Hs. by rewrite Hs.
Qed.

Lemma operation_stem_safe op stem : operation_stem op = Some stem -> safe stem.
Proof. unfold operation_stem, safe. case_bool_decide; [done|]. destruct (is_safe_stem _) eqn:E; [|done]. by intros [= <-]. Qed.

Section PairingSpec.
Variable data_root : path.
Variable t : gmap path node.

(** The operations of a commit that add the canonical documents of a region. *)
Definition adds_of (stem : str) (ops : list PublicationOp) : list PublicationOp :=
  filter (fun op => action op = u "add" /\ path_in_repo op = canonical_remote stem) ops.
(** Its local file is the canonical file of the region. *)
Definition reads_canonical (stem : str) (op : PublicationOp) : Prop :=
  exists local, local_path op = Some local /\ resolve local = resolve (canonical_path data_root stem) /\
    is_file (resolve (canonical_path data_root stem)) t = true.
Definition deletes_legacy (stem : str) (op : PublicationOp) : Prop :=
  action op ≠ u "add" /\ path_in_repo op = legacy_remote stem.

Record scanned (ops : list PublicationOp) (s : Scan) : Prop := {
  sc_counts : forall stem, safe stem -> default 0 (add_counts s !! stem) = len (adds_of stem ops);
  sc_adds : forall stem x, valid_adds s !! stem = Some x ->
    safe stem /\ x = Some (resolve (canonical_path data_root stem)) /\ exists op, op ∈ adds_of stem ops /\ reads_canonical stem op;
  sc_add : forall stem op, safe stem -> op ∈ adds_of stem ops -> reads_canonical stem op -> is_Some (valid_adds s !! stem);
  sc_deletes : forall stem, stem ∈ deletes s <-> safe stem /\ exists op, op ∈ ops /\ deletes_legacy stem op }.

Lemma canonical_add_path_spec op stem :
  action op = u "add" -> path_in_repo op = canonical_remote stem ->
  forall p, canonical_add_path data_root op stem t = Some p <-> reads_canonical stem op /\ p = resolve (canonical_path data_root stem).
Proof.
  intros Ha Hp p. unfold canonical_add_path, is_canonical_add. rewrite Ha, Hp, !str_eqb_refl. simpl.
  unfold reads_canonical, resolve_canonical_path. destruct (local_path op) as [local|]; simpl; [|naive_solver].
  destruct (bool_decide _ && _) eqn:E.
  - apply andb_true_iff in E as [E1%bool_decide_eq_true E2]. rewrite E1. naive_solver.
  - split; [done|]. intros [(l & [= <-] & Hr & Hf) _]. rewrite Hr, bool_decide_eq_true_2, Hf in E by done. done.
Qed.

Lemma adds_of_snoc stem ops op :
  adds_of stem (ops ++ [op]) = adds_of stem ops ++
    (if decide (action op = u "add" /\ path_in_repo op = canonical_remote stem) then [op] else []).
Proof. unfold adds_of. by rewrite filter_app, (filter_singleton _ _ []). Qed.

Lemma canonical_remote_inj a b : canonical_remote a = canonical_remote b -> a = b.
Proof. unfold canonical_remote. intros H. apply (inj _) in H. apply (inj _) in H. by apply (inj (.++ u ".parquet")) in H. Qed.
Lemma legacy_remote_inj a b : legacy_remote a = legacy_remote b -> a = b.
Proof. unfold legacy_remote. intros H. apply (inj _) in H. apply (inj _) in H. by apply (inj (.++ u ".parquet")) in H. Qed.

Lemma elem_of_adds stem ops op : op ∈ adds_of stem ops <-> (action op = u "add" /\ path_in_repo op = canonical_remote stem) /\ op ∈ ops.
Proof. unfold adds_of. by rewrite list_elem_of_filter. Qed.

(** An operation that says nothing about any region. *)
Lemma scanned_skip ops s op :
  (forall stem, safe stem -> path_in_repo op = canonical_remote stem -> action op ≠ u "add") ->
  (forall stem, safe stem -> ~ deletes_legacy stem op) -> scanned ops s -> scanned (ops ++ [op]) s.
Proof.
  intros Ha Hd [H1 H2 H3 H4].
  assert (He : forall stem, safe stem -> adds_of stem (ops ++ [op]) = adds_of stem ops).
  { intros stem Hs. rewrite adds_of_snoc, decide_False, app_nil_r; [done|]. intros [? ?]. by eapply Ha. }
  split.
  - intros stem Hs. by rewrite He, H1.
  - intros stem x Hx. destruct (H2 stem x Hx) as (Hs & -> & op' & Hin & Hr). split_and!; [done..|]. exists op'. by rewrite He.
  - intros stem op' Hs. rewrite He by done. by apply H3.
  - intros stem. rewrite H4. setoid_rewrite elem_of_app. setoid_rewrite list_elem_of_singleton. split; [naive_solver|].
    intros [Hs (op' & [Hin| ->] & Hdel)]; [naive_solver|]. by apply Hd in Hdel.
Qed.

Lemma scanned_delete ops s op stem :
  safe stem -> deletes_legacy stem op -> scanned ops s ->
  scanned (ops ++ [op]) {| add_counts := add_counts s; valid_adds := valid_adds s; deletes := {[stem]} ∪ deletes s |}.
Proof.
  intros Hs [Ha Hp] [H1 H2 H3 H4].
  assert (He : forall x, adds_of x (ops ++ [op]) = adds_of x ops).
  { intros x. rewrite adds_of_snoc, decide_False, app_nil_r; [done|]. by intros [? _]. }
  split; simpl.
  - intros x Hx. by rewrite He, H1.
  - intros x y Hy. destruct (H2 x y Hy) as (Hx & -> & op' & Hin & Hr). split_and!; [done..|]. exists op'. by rewrite He.
  - intros x op' Hx. rewrite He. by apply H3.
  - intros x. rewrite elem_of_union, elem_of_singleton, H4. setoid_rewrite elem_of_app. setoid_rewrite list_elem_of_singleton. split.
    + intros [->|(? & op' & ? & ?)]; [split; [done|]; exists op; split; [by right|done]|]. split; [done|]. exists op'. auto.
    + intros [Hx (op' & [Hin| ->] & Hd)]; [right; eauto|]. left. destruct Hd as [_ Hd]. rewrite Hp in Hd.
      by apply legacy_remote_inj in Hd.
Qed.

Lemma scanned_add ops s op stem :
  safe stem -> action op = u "add" -> path_in_repo op = canonical_remote stem -> scanned ops s ->
  scanned (ops ++ [op]) (record_add data_root op stem t s).
Proof.
  intros Hs Ha Hp [H1 H2 H3 H4].
  assert (He : adds_of stem (ops ++ [op]) = adds_of stem ops ++ [op]).
  { rewrite adds_of_snoc, decide_True; [done|]. done. }
  assert (Hne : forall x, x ≠ stem -> adds_of x (ops ++ [op]) = adds_of x ops).
  { intros x Hx. rewrite adds_of_snoc, decide_False, app_nil_r; [done|]. intros [_ E]. rewrite Hp in E.
    by apply canonical_remote_inj in E. }
  assert (Hmono : forall x op', op' ∈ adds_of x ops -> op' ∈ adds_of x (ops ++ [op])).
  { intros x op'. rewrite !elem_of_adds, elem_of_app. naive_solver. }
  pose proof (canonical_add_path_spec op stem Ha Hp) as Hc.
  split; simpl.
  - intros x Hx. destruct (decide (x = stem)) as [->|E].
    + rewrite lookup_insert_eq, He, H1 by done. unfold len. rewrite length_app. simpl. lia.
    + rewrite lookup_insert_ne, Hne, H1 by done. done.
  - intros x y. destruct (canonical_add_path data_root op stem t) as [r|] eqn:Ec.
    + destruct (proj1 (Hc r) eq_refl) as [Hr ->]. destruct (decide (x = stem)) as [->|E].
      * rewrite lookup_insert_eq. intros [= <-].
        assert (Hm : merge_add_path (valid_adds s !! stem) (resolve (canonical_path data_root stem)) = Some (resolve (canonical_path data_root stem))).
        { unfold merge_add_path. destruct (valid_adds s !! stem) as [x|] eqn:Ev; [|done].
          apply H2 in Ev as (_ & -> & _). by rewrite bool_decide_eq_true_2. }
        rewrite Hm. split_and!; [done..|]. exists op. split; [|done]. rewrite He. apply elem_of_app. right. by left.
      * rewrite lookup_insert_ne by done. intros (Hx & -> & op' & Hin & Hr')%H2. split_and!; [done..|]. exists op'. auto.
    + intros (Hx & -> & op' & Hin & Hr')%H2. split_and!; [done..|]. exists op'. auto.
  - intros x op' Hx Hin Hr. destruct (canonical_add_path data_root op stem t) as [r|] eqn:Ec.
    + destruct (decide (x = stem)) as [->|E]; [rewrite lookup_insert_eq; eauto|].
      rewrite lookup_insert_ne by done. rewrite Hne in Hin by done. by eapply H3.
    + destruct (decide (x = stem)) as [->|E]; [|rewrite Hne in Hin by done; by eapply H3].
      rewrite He in Hin. apply elem_of_app in Hin as [Hin| ->%list_elem_of_singleton]; [by eapply H3|].
      destruct (Hc (resolve (canonical_path data_root stem))) as [_ H]. specialize (H (conj Hr eq_refl)). congruence.
  - intros x. rewrite H4. setoid_rewrite elem_of_app. setoid_rewrite list_elem_of_singleton. split; [naive_solver|].
    intros [Hx (op' & [Hin| ->] & Hd)]; [naive_solver|]. by destruct Hd.
Qed.

Lemma scan_operations_scanned ops : scanned ops (scan_operations data_root ops t).
Proof.
  induction ops as [|op ops IH] using rev_ind.
  - split; simpl.
    + intros stem Hs. done.
    + intros stem x Hx. by rewrite lookup_empty in Hx.
    + intros stem op _ Hin. by apply elem_of_nil in Hin.
    + intros stem. split; [set_solver|]. by intros [_ (op & ?%elem_of_nil & _)].
  - unfold scan_operations. rewrite foldl_app. simpl. fold (scan_operations data_root ops t). unfold scan_operation.
    assert (Hc : forall stem, safe stem -> path_in_repo op = canonical_remote stem -> operation_stem op = Some stem).
    { intros. by eapply operation_stem_of. }
    assert (Hl : forall stem, safe stem -> path_in_repo op = legacy_remote stem -> operation_stem op = Some stem).
    { intros. by eapply operation_stem_of. }
    destruct (operation_stem op) as [stem|] eqn:Es.
    2:{ apply scanned_skip; [|intros stem Hs [_ Hp]|done]; [intros stem Hs Hp|]; [by apply Hc in Hp|by apply Hl in Hp]. }
    pose proof (operation_stem_safe _ _ Es) as Hs. destruct (str_eqb_spec (action op) (u "add")) as [Ha|Ha].
    + unfold is_canonical_add. rewrite Ha, str_eqb_refl. simpl.
      destruct (str_eqb_spec (path_in_repo op) (canonical_remote stem)) as [Hp|Hp]; [by apply scanned_add|].
      apply scanned_skip; [|by intros x _ [? _]|done]. intros x Hx Hpx. apply Hc in Hpx as Hx'; [|done]. by simplify_eq.
    + unfold is_legacy_delete. destruct (str_eqb_spec (path_in_repo op) (legacy_remote stem)) as [Hp|Hp]; [by apply scanned_delete|].
      apply scanned_skip; [done| |done]. intros x Hx [_ Hpx]. apply Hl in Hpx as Hx'; [|done]. by simplify_eq.
Qed.

Lemma paired_stem ops stem :
  stem ∈ paired_retirement_stems data_root ops t <->
  safe stem /\ length (adds_of stem ops) = 1%nat /\ Exists (reads_canonical stem) (adds_of stem ops) /\
  Exists (deletes_legacy stem) ops.
Proof.
  pose proof (scan_operations_scanned ops) as [H1 H2 H3 H4]. unfold paired_retirement_stems, valid_single_adds.
  rewrite elem_of_intersection, elem_of_dom, H4, !Exists_exists. split.
  - intros [[x Hx] [Hs Hd]]. apply map_lookup_filter_Some in Hx as [Hx [Hn _]]. simpl in Hn.
    specialize (H1 stem Hs). rewrite Hn in H1. simpl in H1. split_and!; [done|unfold len in H1; lia| |done].
    apply H2 in Hx as (_ & _ & op & Hop & Hr). eauto.
  - intros (Hs & Hl & (op & Hop & Hr) & Hd). destruct (H3 stem op Hs Hop Hr) as [x Hx]. split; [|done]. exists x.
    apply map_lookup_filter_Some. split; [done|]. split; simpl.
    + specialize (H1 stem Hs). destruct (add_counts _ !! stem) as [n|]; simpl in H1; unfold len in H1; [f_equal; lia|lia].
    + apply H2 in Hx as (_ & -> & _). done.
Qed.

(** Pairing is fail-closed and exact.  A commit allows the legacy articles of a region to be
    retired exactly when its name is safe, exactly one operation adds its canonical documents - at
    exactly the canonical remote path - and reads them from the region's own canonical file, which
    exists, and some operation deletes exactly its legacy path. *)
Theorem paired_retirement_stems_spec ops stem :
  stem ∈ paired_retirement_stems data_root ops t <->
  safe stem /\ length (adds_of stem ops) = 1%nat /\ Exists (reads_canonical stem) (adds_of stem ops) /\
  Exists (deletes_legacy stem) ops.
Proof. apply paired_stem. Qed.
End PairingSpec.

(** * Retiring *)

Lemma prefixes_prefix p q : q ∈ prefixes p -> exists r, p = q ++ r.
Proof.
  unfold prefixes. intros H. assert (Hg : forall p acc, q ∈ prefixes_from acc p -> exists r, acc ++ p = q ++ r).
  2:{ by apply (Hg p []). }
  clear. induction p as [|c p IH]; intros acc; simpl; [by intros ?%elem_of_nil|].
  intros [->|H]%elem_of_cons; [exists p; by rewrite <- app_assoc|]. apply IH in H as [r Hr]. exists r. by rewrite <- app_assoc in Hr.
Qed.

Section Retiring.
Context {RT : Runtime} {FF : FileFormats}.
Variable temporary_middle : gmap path node -> path -> str.
Variable data_root : path.
Variable validate_retirement_inputs : str -> gmap path node -> outcome unit.
Hypothesis temporary_is_fresh : forall t p, t !! temporary_name temporary_middle p t = None.

(** A path that is none of the two manifests nor involved in replacing them. *)
Record not_a_manifest (q : path) : Prop := {
  nm_processed : forall body, (forall t, t ≠ q -> untouched q (body t)) ->
    untouched q (atomic_replacement temporary_middle (processed_manifest data_root) body);
  nm_augmentation : forall body, (forall t, t ≠ q -> untouched q (body t)) ->
    untouched q (atomic_replacement temporary_middle (augmentation_manifest data_root) body) }.

Lemma in_processed (rel : string) : sub (processed data_root) rel = processed data_root ++ path_components (u rel).
Proof. done. Qed.

(** A path of another directory below [processed]. *)
Lemma other_directory q a b target :
  q = processed data_root ++ a -> path_parent target = processed data_root ++ b ->
  (forall r, b ≠ a ++ r) -> removelast a ≠ b -> a ≠ [] ->
  forall body, (forall t, t ≠ q -> untouched q (body t)) -> untouched q (atomic_replacement temporary_middle target body).
Proof.
  intros Hq Hb Hpre Hdir Ha body Hbody.
  assert (Hparent : path_parent q ≠ path_parent target).
  { rewrite Hq, Hb. unfold path_parent. rewrite removelast_app by done. intros E. by apply app_inv_head in E. }
  apply untouched_atomic_replacement; [..|done].
  - rewrite Hb. intros [r Hr]%prefixes_prefix. rewrite Hq, <- app_assoc in Hr. apply app_inv_head in Hr. by apply (Hpre r).
  - by intros <-.
  - intros t E. apply Hparent. rewrite <- E. apply temporary_name_like.
Qed.

Lemma legacy_not_a_manifest stem : not_a_manifest (legacy_path data_root stem).
Proof.
  assert (Hq : legacy_path data_root stem = processed data_root ++ [u "articles"; stem ++ u ".parquet"]).
  { unfold legacy_path, processed_articles, child. by rewrite in_processed, <- app_assoc. }
  split; intros body Hb; (eapply other_directory; [exact Hq| | | | |exact Hb]).
  - unfold processed_manifest. rewrite path_parent_child. apply in_processed.
  - intros r. by intros [= ?].
  - done.
  - done.
  - instantiate (1 := [u "augmentation"; u "manifests"]). unfold augmentation_manifest, path_parent. rewrite in_processed.
    change (path_components (u "augmentation/manifests/augmentation_manifest.json"))
      with ([u "augmentation"; u "manifests"] ++ [u "augmentation_manifest.json"]).
    by rewrite app_assoc, removelast_last.
  - intros r. by intros [= ?].
  - done.
  - done.
Qed.

Lemma envelope_not_a_manifest : not_a_manifest (manifest_path data_root).
Proof.
  assert (Hq : manifest_path data_root = processed data_root ++ [u "manifests"; FILENAME]).
  { unfold manifest_path, processed_manifests, child. by rewrite in_processed, <- app_assoc. }
  split; intros body Hb.
  - apply untouched_atomic_replacement; [..|done]; unfold processed_manifest; rewrite ?path_parent_child.
    + apply manifest_not_parent.
    + intros H. by apply (f_equal path_name) in H; unfold manifest_path in H; rewrite !path_name_child in H.
    + intros t E. apply (f_equal path_name) in E. unfold temporary_name, manifest_path in E. rewrite !path_name_child in E.
      by apply (f_equal head) in E.
  - eapply (other_directory _ _ [u "augmentation"; u "manifests"]); [exact Hq| | | | |exact Hb].
    + unfold augmentation_manifest, path_parent. rewrite in_processed.
      change (path_components (u "augmentation/manifests/augmentation_manifest.json"))
        with ([u "augmentation"; u "manifests"] ++ [u "augmentation_manifest.json"]).
      by rewrite app_assoc, removelast_last.
    + intros r. by intros [= ?].
    + done.
    + done.
Qed.

Abbreviation finalize := (finalize_local_retirement temporary_middle data_root validate_retirement_inputs).
Abbreviation cleanup := (post_upload_publication_cleanup temporary_middle data_root validate_retirement_inputs).

Lemma untouched_prepare q stem :
  not_a_manifest q -> untouched q (prepare_local_retirement temporary_middle data_root validate_retirement_inputs stem).
Proof.
  intros [H1 H2]. assert (Hw : forall v t, t ≠ q -> untouched q (write_file t (CJson v))) by (intros; by apply untouched_write_file).
  unfold prepare_local_retirement, update_processed_manifest, update_augmentation_manifest.
  apply untouched_bind; [auto with untouched|intros _]. apply untouched_bind; [|intros _].
  - apply untouched_bind; [auto with untouched|]. intros []; simpl; [|auto with untouched].
    do 2 (apply untouched_bind; [auto with untouched|intros]).
    destruct (dget _ _) as [[]|]; try auto with untouched. apply H1. intros. by apply Hw.
  - apply untouched_bind; [auto with untouched|]. intros []; simpl; [|auto with untouched].
    do 2 (apply untouched_bind; [auto with untouched|intros]).
    destruct (dget _ _) as [[]|]; try auto with untouched. destruct (dget _ _) as [[]|]; try auto with untouched.
    apply untouched_bind; [auto with untouched|]. intros. apply H2. intros. by apply Hw.
Qed.

Lemma untouched_finalize q stem : not_a_manifest q -> q ≠ legacy_path data_root stem -> untouched q (finalize stem).
Proof.
  intros Hm Hq. unfold finalize_local_retirement. apply untouched_bind; [auto with untouched|]. intros []; simpl; [|auto with untouched].
  apply untouched_bind; [by apply untouched_prepare|]. intros _. by apply untouched_unlink.
Qed.

Lemma legacy_path_inj a b : legacy_path data_root a = legacy_path data_root b -> a = b.
Proof. unfold legacy_path, child. intros H%app_inj_tail. destruct H as [_ H]. by apply (inj (.++ u ".parquet")) in H. Qed.

Lemma envelope_not_legacy stem : manifest_path data_root ≠ legacy_path data_root stem.
Proof.
  unfold manifest_path, legacy_path, processed_manifests, processed_articles, child. rewrite !in_processed, <- !app_assoc.
  intros H%app_inv_head. by injection H.
Qed.

Lemma legacy_exists stem t : path_exists (legacy_path data_root stem) t = bool_decide (is_Some (t !! legacy_path data_root stem)).
Proof.
  unfold path_exists. destruct (t !! _); [by rewrite bool_decide_eq_true_2|].
  rewrite !bool_decide_eq_false_2; [done|by intros [? ?]|]. unfold legacy_path, child. by destruct (processed_articles data_root).
Qed.

Lemma finalize_removes stem s s' : finalize stem s = (Ok tt, s') -> tree s' !! legacy_path data_root stem = None.
Proof.
  unfold finalize_local_retirement. intros (b & s1 & E & H)%pym_bind_Ok. unfold gets in E. injection E as <- <-.
  rewrite legacy_exists in H. case_bool_decide as Hl; simpl in H.
  - apply pym_bind_Ok in H as ([] & s2 & _ & Hu). apply primitive_cases in Hu as [(? & ? & _)|Hu]; [done|].
    unfold unlink_tree in Hu. assert (tree s' = delete (legacy_path data_root stem) (tree s2)) as ->; [|apply lookup_delete_eq].
    by destruct (tree s2 !! _) as [[]|]; simplify_eq.
  - unfold ret in H. simplify_eq. by apply eq_None_not_Some.
Qed.

(** Retiring some regions: the other legacy files and the envelope stay, and when it returns those
    of the regions are gone. *)
Lemma finalize_all stems s o s' :
  for_each finalize stems s = (o, s') ->
  tree s' !! manifest_path data_root = tree s !! manifest_path data_root /\
  (forall x, x ∉ stems -> tree s' !! legacy_path data_root x = tree s !! legacy_path data_root x) /\
  (o = Ok tt -> forall x, x ∈ stems -> tree s' !! legacy_path data_root x = None).
Proof.
  assert (Hm : forall l, untouched (manifest_path data_root) (for_each finalize l)).
  { induction l as [|x l IH]; simpl; [auto with untouched|]. apply untouched_bind; [|intros; apply IH].
    apply untouched_finalize; [apply envelope_not_a_manifest|apply envelope_not_legacy]. }
  assert (Hx : forall x l, x ∉ l -> untouched (legacy_path data_root x) (for_each finalize l)).
  { intros x. induction l as [|y l IH]; simpl; intros Hx; [auto with untouched|]. apply untouched_bind; [|intros; apply IH; set_solver].
    apply untouched_finalize; [apply legacy_not_a_manifest|]. intros E%legacy_path_inj. set_solver. }
  intros H. split_and!; [by eapply Hm|intros x Hn; by eapply Hx|]. intros -> x Hin.
  revert s H. induction stems as [|y stems IH]; intros s H; [by apply elem_of_nil in Hin|].
  simpl in H. apply pym_bind_Ok in H as ([] & s1 & Ef & H).
  destruct (decide (x ∈ stems)) as [Hs|Hs]; [by eapply IH|].
  apply elem_of_cons in Hin as [->|?]; [|done]. rewrite (Hx y stems Hs _ _ _ H). by eapply finalize_removes.
Qed.

Lemma untouched_save_pending stem S :
  untouched (legacy_path data_root stem) (save_pending_publications temporary_middle data_root S).
Proof.
  unfold save_pending_publications, replace_pending_stems. apply untouched_bind.
  - apply untouched_mkdir. unfold manifest_path. rewrite path_parent_child. intros [r Hr]%prefixes_prefix.
    unfold processed_manifests, legacy_path, processed_articles, child in Hr. rewrite !in_processed, <- !app_assoc in Hr.
    apply app_inv_head in Hr. done.
  - intros _. do 2 (apply untouched_bind; [auto with untouched|intros]).
    eapply (other_directory _ [u "articles"; stem ++ u ".parquet"] [u "manifests"]).
    + unfold legacy_path, processed_articles, child. by rewrite in_processed, <- app_assoc.
    + unfold manifest_path. rewrite path_parent_child. apply in_processed.
    + intros r. by intros [= ?].
    + done.
    + done.
    + intros. by apply untouched_write_file.
Qed.

(** ** What a retirement can change

    A computation that only replaces some files and removes some paths: whatever was there before
    is still there as it was, or is one of the files and still there, or is one of the paths. *)
Definition confined {A} (written : list path) (removed : path -> Prop) (m : PyM FsState A) : Prop :=
  forall s o s' q n, m s = (o, s') -> tree s !! q = Some n ->
    tree s' !! q = Some n \/ (q ∈ written /\ is_Some (tree s' !! q)) \/ removed q.

Section Confined.
Context (written : list path) (removed : path -> Prop).

Lemma confined_pure {A} (m : PyM FsState A) : (forall s, (m s).2 = s) -> confined written removed m.
Proof. intros H s o s' q n E Hq. specialize (H s). rewrite E in H. simpl in H. subst. by left. Qed.

Lemma confined_bind {A B} (m : PyM FsState A) (f : A -> PyM FsState B) :
  confined written removed m -> (forall a, confined written removed (f a)) -> confined written removed (pbind m f).
Proof.
  intros Hm Hf s o s' q n E Hq. unfold pbind in E. destruct (m s) as [[a|e] s1] eqn:E1; [|simplify_eq; by eapply Hm].
  destruct (Hm _ _ _ _ _ E1 Hq) as [H1|[[Hw [n1 H1]]|Hr]]; [by eapply Hf| |auto].
  destruct (Hf a _ _ _ _ _ E H1) as [H2|[H2|H2]]; [|auto..]. right; left. eauto.
Qed.

Lemma confined_for_each {A} (f : A -> PyM FsState unit) l :
  (forall x, x ∈ l -> confined written removed (f x)) -> confined written removed (for_each f l).
Proof.
  induction l as [|x l IH]; intros H; [by apply confined_pure|]. apply confined_bind; [by apply H; left|]. intros _. apply IH. intros. apply H. by right.
Qed.

Lemma confined_keeps {A} (m : PyM FsState A) : (forall q, keeps q m) -> confined written removed m.
Proof. intros H s o s' q n E Hq. left. by eapply H. Qed.

Lemma confined_write target v : target ∈ written -> confined written removed (atomic_write_json temporary_middle target v).
Proof.
  intros Hw s o s' q n E Hq. apply atomic_write_json_replaced in E as [Ht Ho _]; [|done].
  destruct (decide (q = target)) as [->|Hne]; [|left; by apply Ho].
  destruct Ht as [[_ Ht]|(_ & c & _ & Ht)]; [left; congruence|]. right; left. eauto.
Qed.

Lemma confined_unlink p : removed p -> confined written removed (unlink p).
Proof.
  intros Hp s o s' q n [(e & _ & ->)|E]%primitive_cases Hq; [by left|]. destruct (decide (q = p)) as [->|Hne]; [by right; right|].
  left. assert (tree s' = delete p (tree s) \/ tree s' = tree s) as [->| ->]; [|by rewrite lookup_delete_ne|done].
  unfold unlink_tree in E. destruct (tree s !! p) as [[]|]; injection E; auto.
Qed.
End Confined.

Definition written_files : list path := [processed_manifest data_root; augmentation_manifest data_root; manifest_path data_root].

Lemma confined_prepare removed stem :
  confined written_files removed (prepare_local_retirement temporary_middle data_root validate_retirement_inputs stem).
Proof.
  unfold prepare_local_retirement, update_processed_manifest, update_augmentation_manifest.
  repeat first [by apply confined_pure | by apply confined_write; set_solver | apply confined_bind; [|intros ?] | case_match].
Qed.

Lemma confined_finalize (removed : path -> Prop) stem : removed (legacy_path data_root stem) -> confined written_files removed (finalize stem).
Proof.
  intros H. unfold finalize_local_retirement. apply confined_bind; [by apply confined_pure|]. intros []; simpl; [|by apply confined_pure].
  apply confined_bind; [apply confined_prepare|]. intros _. by apply confined_unlink.
Qed.

Lemma confined_remove_pending removed S : confined written_files removed (remove_pending_publications temporary_middle data_root S).
Proof.
  unfold remove_pending_publications, save_pending_publications, replace_pending_stems. case_bool_decide; [by apply confined_pure|].
  apply confined_bind; [by apply confined_pure|]. intros current. apply confined_bind; [apply confined_keeps; intros; apply keeps_mkdir|]. intros _.
  apply confined_bind; [by apply confined_pure|]. intros l. apply confined_bind; [by apply confined_pure|]. intros d.
  apply confined_write. unfold written_files. set_solver.
Qed.

Lemma confined_retire (removed : path -> Prop) (S : gset str) :
  (forall stem, stem ∈ S -> removed (legacy_path data_root stem)) ->
  confined written_files removed
    (for_each finalize (sorted_strs (elements S));; remove_pending_publications temporary_middle data_root S).
Proof.
  intros HS. apply confined_bind; [|intros _; apply confined_remove_pending]. apply confined_for_each.
  intros x. rewrite elem_of_sorted_strs, elem_of_elements. intros Hx. by apply confined_finalize, HS.
Qed.

Lemma confined_cleanup ops s o s' q n :
  cleanup ops false s = (o, s') -> tree s !! q = Some n ->
  tree s' !! q = Some n \/ (q ∈ written_files /\ is_Some (tree s' !! q)) \/
  exists stem, stem ∈ paired_retirement_stems data_root ops (tree s) /\ q = legacy_path data_root stem.
Proof.
  unfold post_upload_publication_cleanup, pbind at 1, gets. case_bool_decide as Hp; [intros [= <- <-] ?; by left|].
  intros H Hq. refine (confined_retire (fun p => exists stem, stem ∈ _ /\ p = legacy_path data_root stem) _ _ s o s' q n H Hq). eauto.
Qed.

(** What the clean-up after a successful upload does to the intent and to the legacy files. *)
Record retired (ops : list PublicationOp) (i : Intent) (fs : FsState) (o : outcome unit) (fs' : FsState) : Prop := {
  rt_changed : forall q n, tree fs !! q = Some n ->
    tree fs' !! q = Some n \/ (q ∈ written_files /\ is_Some (tree fs' !! q)) \/
    exists stem, stem ∈ paired_retirement_stems data_root ops (tree fs) /\ q = legacy_path data_root stem;
  rt_unpaired : forall stem, stem ∉ paired_retirement_stems data_root ops (tree fs) ->
    tree fs' !! legacy_path data_root stem = tree fs !! legacy_path data_root stem;
  rt_intent : represents data_root (tree fs') i \/
    o = Ok tt /\ represents data_root (tree fs') (with_pending (pending i ∖ paired_retirement_stems data_root ops (tree fs)) i) /\
    forall stem, stem ∈ paired_retirement_stems data_root ops (tree fs) -> tree fs' !! legacy_path data_root stem = None;
  rt_returned : o = Ok tt ->
    represents data_root (tree fs') (with_pending (pending i ∖ paired_retirement_stems data_root ops (tree fs)) i) }.

Lemma cleanup_retires ops fs o fs' i :
  represents data_root (tree fs) i -> cleanup ops false fs = (o, fs') -> retired ops i fs o fs'.
Proof.
  intros Hi Hc. pose proof (fun q n => confined_cleanup _ _ _ _ q n Hc) as Hchanged. revert Hc Hchanged.
  unfold post_upload_publication_cleanup, pbind, gets.
  set (paired := paired_retirement_stems data_root ops (tree fs)). case_bool_decide as Hp.
  - intros [= <- <-] Hchanged. assert (He : with_pending (pending i ∖ paired) i = i) by (rewrite Hp, difference_empty_L; apply with_pending_id).
    split; fold paired; rewrite ?He; auto.
  - destruct (for_each finalize _ fs) as [[[]|e] fs1] eqn:Ef; apply finalize_all in Ef as (Hm & Hother & Hgone);
      pose proof (represents_same data_root _ _ i Hm Hi) as Hi1.
    2:{ intros [= <- <-] Hchanged. split; fold paired; [done| |by left|done]. intros stem Hs. apply Hother.
        by rewrite elem_of_sorted_strs, elem_of_elements. }
    intros H Hchanged. pose proof (turns_request temporary_middle data_root temporary_is_fresh (RemovePending paired) i fs1 o fs' Hi1 H) as Hi2.
    assert (Hl : forall stem, tree fs' !! legacy_path data_root stem = tree fs1 !! legacy_path data_root stem).
    { intros stem. unfold remove_pending_publications in H. rewrite bool_decide_eq_false_2 in H by done.
      unfold pbind, reads in H. destruct (load_pending_publications _ _) as [c|e]; [by apply (untouched_save_pending stem) in H|by simplify_eq]. }
    split; fold paired.
    + done.
    + intros stem Hs. rewrite Hl. apply Hother. by rewrite elem_of_sorted_strs, elem_of_elements.
    + destruct o as [[]|e]; [right|by left]. split_and!; [done|exact Hi2|]. intros stem Hs. rewrite Hl. apply Hgone; [done|].
      by rewrite elem_of_sorted_strs, elem_of_elements.
    + intros ->. exact Hi2.
Qed.

(** C19: Nothing local is retired before the publication has succeeded.  If the upload of a commit
    is refused or raises, or the run is dry, the job leaves the whole disk as it was.  Otherwise, for
    every sequence of faults: every path that was there is still there with the same content, but
    for the processed manifest, the augmentation manifest and the pending publications, which stay
    but may be rewritten, and the legacy articles of the regions the commit pairs, the only files
    that can disappear; the pending publications are left as they were unless the job returns, and then exactly the paired
    regions are no longer pending and all their legacy articles are gone; the marker and the fields
    of other writers stay. *)
Theorem retirement_follows_publication {R} (upload_files : list PublicationOp -> str -> gmap path node -> PyM R unit)
    ops message dry_run fs (hub : R) o fs' hub' i :
  represents data_root (tree fs) i ->
  execute_upload_job temporary_middle data_root validate_retirement_inputs upload_files ops message dry_run (fs, hub) =
    (o, (fs', hub')) ->
  (exists e, o = Raise e) /\ fs' = fs \/
  (exists sent, mapM effective_op ops = Ok sent /\ upload_files sent message (tree fs) hub = (Ok tt, hub')) /\
    (dry_run = true -> o = Ok tt /\ fs' = fs) /\
    (dry_run = false -> retired ops i fs o fs').
Proof.
  intros Hi. unfold execute_upload_job. simpl. destruct (mapM effective_op ops) as [sent|e] eqn:Es; [|intros [= <- <- <-]; left; eauto].
  destruct (upload_files sent message (tree fs) hub) as [[[]|e] hub1] eqn:Eu; [|intros [= <- <- <-]; left; eauto].
  destruct (cleanup ops dry_run fs) as [o1 fs1] eqn:Ec. intros [= <- <- <-]. right. split; [eauto|]. split.
  - intros ->. unfold post_upload_publication_cleanup, ret in Ec. by simplify_eq.
  - intros ->. by apply cleanup_retires.
Qed.
End Retiring.

(** * Example

    A commit that adds the documents of a region and deletes its articles: the articles are removed
    and the region is no longer pending. *)

#[local] Existing Instance example_runtime.
#[local] Existing Instance example_formats.

Definition malta_documents : path := canonical_path pending_root (u "malta").
Definition malta_articles : path := legacy_path pending_root (u "malta").
Definition retired_fs : FsState :=
  mkFs (<[malta_documents := File (CBytes [1%N])]> (<[malta_articles := File (CBytes [2%N])]> pending_tree)) [].

Definition retiring_commit : list PublicationOp :=
  [{| action := u "add"; path_in_repo := canonical_remote (u "malta"); local_path := Some malta_documents; snapshot_path := None |};
   {| action := u "delete"; path_in_repo := legacy_remote (u "malta"); local_path := None; snapshot_path := None |}].

Example the_commit_pairs_malta :
  elements (paired_retirement_stems pending_root retiring_commit (tree retired_fs)) = [u "malta"].
Proof. vm_compute. reflexivity. Qed.

(** A second operation that adds the same documents makes the pair ambiguous. *)
Example an_ambiguous_commit_pairs_nothing :
  elements (paired_retirement_stems pending_root (retiring_commit ++ take 1 retiring_commit) (tree retired_fs)) = [].
Proof. vm_compute. reflexivity. Qed.

Definition retiring_job : outcome unit * (FsState * nat) :=
  execute_upload_job long_middle pending_root (fun _ _ => Ok tt) (fun _ _ _ n => (Ok tt, S n)) retiring_commit (u "m") false (retired_fs, 0%nat).

Lemma retirement_follows_publication_witness :
  retiring_job.1 = Ok tt /\
  represents pending_root (tree retiring_job.2.1) (with_pending ∅ one_pending) /\
  tree retiring_job.2.1 !! malta_articles = None /\
  tree retiring_job.2.1 !! malta_documents = Some (File (CBytes [1%N])).
Proof.
  assert (Hok : retiring_job.1 = Ok tt) by (vm_compute; reflexivity).
  assert (Hi : represents pending_root (tree retired_fs) one_pending).
  { refine (represents_same pending_root _ _ one_pending _ pending_represented). vm_compute. reflexivity. }
  assert (E : retiring_job = (retiring_job.1, (retiring_job.2.1, retiring_job.2.2))).
  { destruct retiring_job as [o [fs' n]]. reflexivity. }
  destruct (retirement_follows_publication long_middle pending_root (fun _ _ => Ok tt) temporary_name_fresh
    (fun _ _ _ n => (Ok tt, S n)) retiring_commit (u "m") false retired_fs 0%nat retiring_job.1 retiring_job.2.1 retiring_job.2.2
    one_pending Hi E) as [[[e He] _]|(_ & _ & H)].
  - rewrite Hok in He. discriminate He.
  - specialize (H eq_refl). split; [exact Hok|]. pose proof (rt_returned _ _ _ _ _ _ H Hok) as Hr.
    assert (Hd : pending one_pending ∖ paired_retirement_stems pending_root retiring_commit (tree retired_fs) = ∅)
      by (vm_compute; reflexivity).
    rewrite Hd in Hr. split; [exact Hr|]. split; [vm_compute; reflexivity|].
    destruct (rt_changed _ _ _ _ _ _ H malta_documents (File (CBytes [1%N]))) as [Hs|[[Hw _]|(stem & _ & Hl)]].
    + vm_compute. reflexivity.
    + exact Hs.
    + exfalso. revert Hw. apply (bool_decide_unpack (_ ∉ _)). vm_compute. exact I.
    + exfalso. apply (f_equal (fun p => nth 2 p [])) in Hl. vm_compute in Hl. discriminate Hl.
Defined.
