(* ===== verification/CorePublication.v ===== *)
(** Core processing with publication ([hf/core_publication.py]) over the directory orchestrator
    ([pipeline/orchestrator.py]) and an upload queue behind an interface. *)
From stdpp Require Import gmap sorting.
From S2P Require Import Prelude Py PyStr Fs Artifacts Atomic Pending PendingProofs DeferredMetadata UploadState.

(** * The interface to the queue *)

(** A world that contains the disk. *)
Class HasDisk (W : Type) := {
  disk : W -> FsState;
  with_disk : FsState -> W -> W;
  disk_with_disk : forall fs w, disk (with_disk fs w) = fs }.

(** [BackgroundUploadQueue] as its clients see it; what its thread does meanwhile is part of the
    effect of these calls. *)
Class PublicationQueue (W : Type) := {
  open_queue : PyM W unit;
  queue_submit : list PublicationOp -> str -> PyM W unit;
  queue_close_and_wait : PyM W (list pymsg);
  queue_upload_synchronously : list PublicationOp -> str -> PyM W unit }.

(** What the orchestrator and the publisher call: extraction ([E]), processing ([R]) and the
    assembly of publications. *)
Class CoreSite (W E R : Type) := {
  extract_pbf : path -> PyM W E;
  process_extracted_pbf : E -> PyM W R;
  manifest_entry : R -> pydict;
  assemble_core_upload : R -> bool -> PyM W (list PublicationOp);
  assemble_metadata_only_upload : PyM W (list PublicationOp) }.

Definition on_disk {W A} `{!HasDisk W} (m : PyM FsState A) : PyM W A := fun w =>
  let '(o, fs) := m (disk w) in (o, with_disk fs w).

(** * The orchestrator *)

(** [path.suffix]. *)
Definition suffix_of_name (name : str) : str := drop (length (stem_of_name name)) name.

Definition collect_input (input_path : path) (t : gmap path node) : list path :=
  if is_dir input_path t then filter (fun p => suffix_of_name (path_name p) = u ".pbf") (iterdir input_path t)
  else if is_file input_path t then [input_path] else [].

Definition collect_pbfs (inputs : list path) (t : gmap path node) : list path :=
  inputs ≫= fun p => collect_input p t.

Definition select_unprocessed (pbfs : list path) (processed_entries : pydict) : list path :=
  filter (fun pbf => negb (dmem (path_name pbf) processed_entries)) pbfs.

(** The values of the command line the publisher reads. *)
Record ProcessingOptions := {
  push : bool; dry_run : bool; custom_message : option str; skip_existing : bool; force : bool }.

(** * The publisher *)

Inductive core_event :=
  | EDeferred (stem : str) | ESubmitted (stem : str)
  | EProcessed | EDrained (failures : list pymsg) | ERefreshed.

(** The world, the two collections the callback closes over and the record of what happened. *)
Record CoreRun (W : Type) := mkCore {
  core_world : W; published_stems : gset str; deferred_stems : list (str * str); journal : list core_event }.
Arguments mkCore {W}.
Arguments core_world {W}.
Arguments published_stems {W}.
Arguments deferred_stems {W}.
Arguments journal {W}.

Section CorePublication.
Context {RT : Runtime} {FF : FileFormats}.
Context {W E R : Type} `{!HasDisk W} `{!PublicationQueue W} `{!CoreSite W E R}.
Variable temporary_middle : gmap path node -> path -> str.
Variable data_root : path.
Variable options : ProcessingOptions.
Variable defer_metadata_assets : bool.
Abbreviation M := (PyM (CoreRun W)).

Definition on_world {A} (m : PyM W A) : M A := fun s =>
  let '(o, w) := m (core_world s) in (o, mkCore w (published_stems s) (deferred_stems s) (journal s)).
Definition log (e : core_event) : M unit :=
  modify (fun s => mkCore (core_world s) (published_stems s) (deferred_stems s) (journal s ++ [e])).
Definition publish_stem (stem : str) : M unit :=
  modify (fun s => mkCore (core_world s) ({[stem]} ∪ published_stems s) (deferred_stems s) (journal s ++ [ESubmitted stem])).
Definition current_tree (s : CoreRun W) : gmap path node := tree (disk (core_world s)).

(** [result.manifest_entry["source_pbf"]]. *)
Definition source_pbf (result : R) : outcome str :=
  match dget (u "source_pbf") (manifest_entry result) with
  | Some v => mret (py_str v)
  | None => Raise (exc CKeyError (msg "'source_pbf'"))
  end.
Definition result_stem (result : R) : outcome str :=
  s ← source_pbf result;
  mret (removesuffix (u ".osm") (stem_of_name (path_name (path_components s)))).

Definition record_deferred (result : R) : M unit :=
  stem <- lift (result_stem result);;
  fun s =>
    let '(o, (fs, deferred)) :=
      record_deferred_metadata temporary_middle data_root stem (disk (core_world s), deferred_stems s) in
    let marked := match o with Ok _ => is_file (polygons_path data_root stem) (current_tree s) | Raise _ => false end in
    (o, mkCore (with_disk fs (core_world s)) (published_stems s) deferred
          (if marked then journal s ++ [EDeferred stem] else journal s)).

Definition upload_message (result : R) : outcome str :=
  match custom_message options with
  | Some ((_ :: _) as m) => mret m
  | _ => s ← source_pbf result; mret (u "Update PBF " ++ s)
  end.

Definition enqueue_core_upload (message : str) (result : R) : M unit :=
  ops <- on_world (assemble_core_upload result defer_metadata_assets);;
  on_world (queue_submit ops message).

(** The callback; there is a queue exactly when [push] is set. *)
Definition enqueue_upload (result : R) : M unit :=
  if negb (push options) then ret tt
  else
    (if defer_metadata_assets && negb (dry_run options) then record_deferred result else ret tt);;
    message <- lift (upload_message result);;
    enqueue_core_upload message result;;
    stem <- lift (result_stem result);;
    publish_stem stem.

Fixpoint process_selected (selected : list path) : M (list R) :=
  match selected with
  | [] => ret []
  | pbf :: rest =>
      extracted <- on_world (extract_pbf pbf);;
      result <- on_world (process_extracted_pbf extracted);;
      enqueue_upload result;;
      results <- process_selected rest;;
      ret (result :: results)
  end.

Definition orchestrate (inputs : list path) : M (list R) :=
  pbfs <- gets (fun s => collect_pbfs inputs (current_tree s));;
  match pbfs with
  | [] => ret []
  | _ =>
      processed_entries <- (if skip_existing options && negb (force options)
        then fun s => (load_manifest (child (processed_manifests data_root) (u "processed_pbfs.json")) (current_tree s), s)
        else ret []);;
      process_selected (select_unprocessed pbfs processed_entries)
  end.

Definition load_marker : M (option pydict) := fun s =>
  (load_metadata_refresh_marker data_root (current_tree s), s).

(** [set(marker["stems"]) <= published_stems], of the strings of a loaded marker. *)
Definition marker_covered (marker : pydict) (published : gset str) : bool :=
  match dget (u "stems") marker with
  | Some (VList stems) => forallb (fun v => match v with VStr s => bool_decide (s ∈ published) | _ => false end) stems
  | _ => false
  end.

Definition metadata_refresh_requested : M bool :=
  published <- gets published_stems;;
  if bool_decide (published = ∅) then ret false
  else
    marker <- load_marker;;
    ret match marker with None => true | Some marker => marker_covered marker published end.

(** The warning is not modelled, its reading of the marker is. *)
Definition warn_metadata_refresh_pending : M unit := _ <- load_marker;; ret tt.

Definition upload_metadata_refresh : M unit :=
  ops <- on_world assemble_metadata_only_upload;;
  on_world (queue_upload_synchronously ops (u "Refresh repository metadata and maps")).

Definition refresh_repository_metadata : M (list pymsg) :=
  failed <- try_except (upload_metadata_refresh;; log ERefreshed;; ret None)
    (fun e => if isinstance e CException
              then Some (ret (Some (FStr (u "Refresh repository metadata and maps: ") :: exn_msg e))) else None);;
  match failed with
  | Some failure => ret [failure]
  | None =>
      (if dry_run options then ret tt
       else on_world (on_disk (clear_metadata_refresh_marker temporary_middle data_root)));;
      ret []
  end.

Definition drain_uploads (deferring : bool) : M (list pymsg) :=
  failures <- on_world queue_close_and_wait;;
  log (EDrained failures);;
  if negb (bool_decide (length failures = 0%nat)) || negb deferring then ret failures
  else
    requested <- metadata_refresh_requested;;
    if requested : bool then refresh_repository_metadata
    else warn_metadata_refresh_pending;; ret failures.

Definition refresh_allowed (deferring processing_completed : bool) : bool := deferring && processing_completed.

(** [try: ... finally: ...] with the results of both. *)
Definition run_core_publication (inputs : list path) : M (list R * list pymsg) :=
  (if push options then on_world open_queue else ret tt);;
  fun s =>
    let '(r, s1) := (results <- orchestrate inputs;; log EProcessed;; ret results) s in
    let completed := match r with Ok _ => true | Raise _ => false end in
    let '(d, s2) := (if push options then drain_uploads (refresh_allowed defer_metadata_assets completed) else ret []) s1 in
    match r, d with
    | Ok results, Ok upload_failures => (Ok (results, upload_failures), s2)
    | Raise e, Ok _ => (Raise e, s2)
    | _, Raise e => (Raise e, s2)
    end.

End CorePublication.
