(* ===== verification/CorePublicationProofs.v ===== *)
(** What a core run guarantees about the metadata it defers: it is published only when everything
    it describes has been uploaded, and it is never forgotten. *)
From stdpp Require Import gmap sorting.
From S2P Require Import Prelude Py PyStr Triples Fs Artifacts Atomic Pending PendingProofs DeferredMetadata UploadState CorePublication.

Section Laws.
Context {RT : Runtime} {FF : FileFormats}.
Context {W E R : Type} `{!HasDisk W} `{!PublicationQueue W} `{!CoreSite W E R}.
Variable data_root : path.
(** What the collaborators rely on in their own part of the world. *)
Variable world_ok : W -> Prop.

(** A world with a sound envelope, and what it owes. *)
Definition holds (w : W) (owed : gmap str str) : Prop := world_ok w /\ owes data_root (disk w) owed.

(** A computation that leaves what is owed as it is. *)
Definition keeps_owed {A} (m : PyM W A) : Prop :=
  forall w o w' owed, m w = (o, w') -> holds w owed -> holds w' owed.

(** The promises of the queue and of the other collaborators to the publisher: the envelope of
    pending publications is none of their business. *)
Class QueueKeepsOwed : Prop := {
  k_disk : forall fs w, world_ok w -> world_ok (with_disk fs w);
  k_open : keeps_owed open_queue;
  k_submit : forall ops message, keeps_owed (queue_submit ops message);
  k_close : keeps_owed queue_close_and_wait;
  k_synchronous : forall ops message, keeps_owed (queue_upload_synchronously ops message) }.
Class SiteKeepsOwed : Prop := {
  k_extract : forall pbf, keeps_owed (extract_pbf (R := R) (E := E) pbf);
  k_process : forall e : E, keeps_owed (process_extracted_pbf (R := R) e);
  k_assemble_core : forall (r : R) b, keeps_owed (assemble_core_upload (E := E) r b);
  k_assemble_metadata : keeps_owed (assemble_metadata_only_upload (E := E) (R := R)) }.
End Laws.

Section CorePublicationProofs.
Context {RT : Runtime} {FF : FileFormats}.
Context {W E R : Type} `{!HasDisk W} `{!PublicationQueue W} `{!CoreSite W E R}.
Variable temporary_middle : gmap path node -> path -> str.
Variable data_root : path.
Variable options : ProcessingOptions.
Variable defer_metadata_assets : bool.
Hypothesis temporary_is_fresh : forall t p, t !! temporary_name temporary_middle p t = None.
Variable world_ok : W -> Prop.
Context `{!QueueKeepsOwed data_root world_ok} `{!SiteKeepsOwed (E := E) (R := R) data_root world_ok}.
Abbreviation holds := (holds data_root world_ok).
Abbreviation keeps_owed := (keeps_owed data_root world_ok).
Implicit Types (s : CoreRun W) (m : gmap str str).

(** * Invariants *)

(** What holds of a run at every moment before the queue is drained: [m] is owed, and it covers
    what was owed at the start and what the run has deferred. *)
Record remembers (m0 m : gmap str str) (s : CoreRun W) : Prop := {
  r_owes : holds (core_world s) m;
  r_start : dom m0 ⊆ dom m;
  r_deferred : forall stem, EDeferred stem ∈ journal s -> stem ∈ dom m;
  r_no_refresh : ERefreshed ∉ journal s;
  r_dry : dry_run options = true -> m = m0 }.

(** And between two callbacks: everything deferred was submitted. *)
Record between_callbacks (m0 : gmap str str) (s : CoreRun W) (m : gmap str str) : Prop := {
  b_remembers : remembers m0 m s;
  b_tracks : tracks data_root (disk (core_world s), deferred_stems s) m;
  b_submitted : forall stem, EDeferred stem ∈ journal s -> ESubmitted stem ∈ journal s;
  b_published : forall stem, stem ∈ published_stems s <-> ESubmitted stem ∈ journal s }.

Definition boundary m0 s : Prop := exists m, between_callbacks m0 s m.
Definition interrupted m0 s : Prop := exists m, remembers m0 m s.

(** A computation of the run that goes from a boundary to a boundary, or raises. *)
Definition advances {A} (c : PyM (CoreRun W) A) : Prop := forall m0, triple (boundary m0) (interrupted m0) c.

Lemma advances_bind {A B} (c : PyM (CoreRun W) A) (f : A -> PyM (CoreRun W) B) :
  advances c -> (forall a, advances (f a)) -> advances (pbind c f).
Proof. intros Hc Hf m0. apply triple_bind; [apply Hc|intros; apply Hf]. Qed.

Lemma boundary_interrupted m0 s : boundary m0 s -> interrupted m0 s.
Proof. intros [m H]. exists m. apply H. Qed.

Lemma advances_pure {A} (c : PyM (CoreRun W) A) : (forall s, (c s).2 = s) -> advances c.
Proof. intros H m0. by apply triple_pure; [apply boundary_interrupted|]. Qed.

(** A collaborator's step changes the world only. *)
Lemma boundary_world m0 s w :
  (forall m, holds (core_world s) m -> holds w m) -> boundary m0 s ->
  boundary m0 (mkCore w (published_stems s) (deferred_stems s) (journal s)).
Proof.
  intros Hw [m [[H1 H2 H3 H4 H5] (T1 & T2 & T3) B3 B4]]. apply Hw in H1.
  exists m. split; [by split|split_and!|done|done]; [apply H1|done..].
Qed.

Lemma advances_world {A} (c : PyM W A) : keeps_owed c -> advances (on_world c).
Proof.
  intros Hc m0 s o s' Hs. unfold on_world. destruct (c (core_world s)) as [o' w] eqn:Ec. intros [= <- <-].
  assert (Hb : boundary m0 (mkCore w (published_stems s) (deferred_stems s) (journal s))).
  { apply boundary_world; [|done]. intros m Hm. by eapply Hc. }
  destruct o'; [done|by apply boundary_interrupted].
Qed.

Lemma owes_on_disk {A} (c : PyM FsState A) (w : W) o w' :
  CorePublication.on_disk c w = (o, w') -> exists fs, c (disk w) = (o, fs) /\ w' = with_disk fs w.
Proof. unfold CorePublication.on_disk. destruct (c (disk w)) as [o' fs]. intros [= <- <-]. by exists fs. Qed.

Lemma holds_with_disk fs w m m' : holds w m -> owes data_root fs m' -> holds (with_disk fs w) m'.
Proof. intros [Hok _] H. split; [by apply (k_disk data_root)|by rewrite disk_with_disk]. Qed.

(** * The callback *)

(** Recording a region and publishing it; in between the region is deferred and not submitted. *)
Lemma submission_advances result stem m0 m s o s' :
  result_stem (E := E) result = Ok stem -> remembers m0 m s ->
  tracks data_root (disk (core_world s), deferred_stems s) m ->
  (forall x, EDeferred x ∈ journal s -> x = stem \/ ESubmitted x ∈ journal s) ->
  (forall x, x ∈ published_stems s <-> ESubmitted x ∈ journal s) ->
  (message <- lift (upload_message (E := E) options result);;
   enqueue_core_upload (E := E) defer_metadata_assets message result;;
   stem <- lift (result_stem (E := E) result);; publish_stem stem) s = (o, s') ->
  match o with Ok _ => boundary m0 s' | Raise _ => interrupted m0 s' end.
Proof.
  intros Hstem Hr Ht Hd Hp. unfold pbind at 1, lift at 1.
  destruct (upload_message options result) as [message|e]; [|intros [= <- <-]; by exists m].
  unfold pbind at 1, enqueue_core_upload, pbind at 1, on_world at 1.
  destruct (assemble_core_upload result defer_metadata_assets (core_world s)) as [[ops|e] w1] eqn:E1.
  2:{ intros [= <- <-]. exists m. destruct Hr as [H1 H2 H3 H4 H5]. split; simpl; try done. exact (k_assemble_core data_root world_ok _ _ _ _ _ _ E1 H1). }
  unfold on_world at 1. simpl. destruct (queue_submit ops message w1) as [[[]|e] w2] eqn:E2.
  2:{ intros [= <- <-]. exists m. destruct Hr as [H1 H2 H3 H4 H5]. split; simpl; try done.
      exact (k_submit data_root world_ok _ _ _ _ _ _ E2 (k_assemble_core data_root world_ok _ _ _ _ _ _ E1 H1)). }
  unfold pbind, lift. rewrite Hstem. intros [= <- <-]. exists m.
  destruct Hr as [H1 H2 H3 H4 H5], Ht as (T1 & T2 & T3). simpl in *.
  assert (Hw : holds w2 m) by exact (k_submit data_root world_ok _ _ _ _ _ _ E2 (k_assemble_core data_root world_ok _ _ _ _ _ _ E1 H1)).
  split; simpl; [split; simpl|split_and!; [apply Hw|done..]|..]; try done.
  - intros x [?|Hx]%elem_of_app; [auto|]. by apply list_elem_of_singleton in Hx.
  - intros [?|Hx]%elem_of_app; [done|]. by apply list_elem_of_singleton in Hx.
  - intros x [Hx|Hx]%elem_of_app; [|by apply list_elem_of_singleton in Hx].
    apply elem_of_app. destruct (Hd x Hx) as [->|?]; [right; by left|by left].
  - intros x. rewrite elem_of_union, elem_of_app, elem_of_singleton, list_elem_of_singleton, Hp. naive_solver.
Qed.

Lemma record_advances result s o s' m0 m :
  dry_run options = false -> between_callbacks m0 s m ->
  record_deferred (E := E) temporary_middle data_root result s = (o, s') ->
  match o with
  | Ok _ => exists stem m', result_stem (E := E) result = Ok stem /\ remembers m0 m' s' /\
      tracks data_root (disk (core_world s'), deferred_stems s') m' /\
      (forall x, EDeferred x ∈ journal s' -> x = stem \/ ESubmitted x ∈ journal s') /\
      (forall x, x ∈ published_stems s' <-> ESubmitted x ∈ journal s')
  | Raise _ => interrupted m0 s'
  end.
Proof.
  intros Hdry Hb. unfold record_deferred, pbind, lift. pose proof Hb as [[H1 H2 H3 H4 H5] Ht B3 B4].
  destruct (result_stem result) as [stem|e]; [|intros [= <- <-]; by exists m].
  destruct (record_deferred_metadata _ _ _ _) as [o' [fs deferred]] eqn:Er.
  pose proof (record_deferred_metadata_owes _ _ temporary_is_fresh _ _ _ _ _ Ht Er) as Hr. intros [= <- <-].
  destruct o' as [[]|e]; simpl in *.
  2:{ exists m. split; simpl; try done. by eapply holds_with_disk. }
  unfold current_tree. destruct (is_file _ _).
  - destruct Hr as (h & _ & Ht'). exists stem, (<[stem := h]> m). rewrite disk_with_disk. split_and!; try done.
    + split; simpl.
      * eapply holds_with_disk; [exact H1|apply Ht'].
      * set_solver.
      * intros x [Hx|Hx%list_elem_of_singleton]%elem_of_app; [apply H3 in Hx; set_solver|]. injection Hx as ->. set_solver.
      * intros [?|Hx%list_elem_of_singleton]%elem_of_app; done.
      * congruence.
    + intros x [Hx|Hx%list_elem_of_singleton]%elem_of_app; [right|left; congruence]. apply elem_of_app. left. auto.
    + intros x. rewrite elem_of_app, list_elem_of_singleton, B4. naive_solver.
  - simplify_eq. exists stem, m. rewrite disk_with_disk. split_and!; try done; [|auto].
    split; simpl; try done. eapply holds_with_disk; [exact H1|apply Ht].
Qed.

Lemma enqueue_advances result :
  advances (enqueue_upload (E := E) temporary_middle data_root options defer_metadata_assets result).
Proof.
  intros m0 s o s' [m Hb]. unfold enqueue_upload.
  destruct (negb (push options)); [intros [= <- <-]; by exists m|].
  assert (exists r, result_stem (E := E) result = r) as [[stem|e] Hstem] by eauto.
  - destruct (defer_metadata_assets && negb (dry_run options)) eqn:Hc.
    + unfold pbind at 1. destruct (record_deferred _ _ _ s) as [o1 s1] eqn:Er. intros H.
      pose proof (record_advances result s o1 s1 m0 m) as Hr. destruct o1 as [[]|e].
      * destruct Hr as (stem' & m' & Hs & Hr' & Ht & Hd & Hp); [by destruct (dry_run options); [rewrite andb_false_r in Hc|]|done|done|].
        rewrite Hstem in Hs. simplify_eq. by eapply submission_advances.
      * simplify_eq. apply Hr; [by destruct (dry_run options); [rewrite andb_false_r in Hc|]|done|done].
    + unfold pbind at 1, ret at 1. intros H. eapply submission_advances; [exact Hstem| | | | |exact H]; [apply Hb|apply Hb| |apply Hb].
      intros x Hx. right. by apply (b_submitted _ _ _ Hb).
  - destruct (defer_metadata_assets && negb (dry_run options)) eqn:Hc.
    + unfold pbind at 1, record_deferred, pbind at 1, lift at 1. rewrite Hstem. intros [= <- <-]. exists m. apply Hb.
    + unfold pbind at 1, ret at 1. unfold pbind at 1, lift at 1.
      destruct (upload_message options result) as [message|e']; [|intros [= <- <-]; exists m; apply Hb].
      unfold pbind at 1, enqueue_core_upload. intros H.
      assert (Ha : advances (ops <- on_world (assemble_core_upload result defer_metadata_assets);;
                             on_world (queue_submit ops message))).
      { apply advances_bind; [apply advances_world, (k_assemble_core data_root world_ok)|]. intros. apply advances_world, (k_submit data_root world_ok). }
      destruct (pbind _ _ s) as [[[]|e'] s1] eqn:E1; [|simplify_eq; exact (Ha m0 s (Raise e') s' (ex_intro _ m Hb) E1)].
      unfold pbind, lift in H. rewrite Hstem in H. simplify_eq. apply boundary_interrupted.
      exact (Ha m0 s (Ok tt) s' (ex_intro _ m Hb) E1).
Qed.

Lemma process_selected_advances selected :
  advances (process_selected (E := E) (R := R) temporary_middle data_root options defer_metadata_assets selected).
Proof.
  induction selected as [|pbf rest IH]; simpl; [by apply advances_pure|].
  apply advances_bind; [apply advances_world, (k_extract data_root world_ok)|]. intros extracted.
  apply advances_bind; [apply advances_world, (k_process data_root world_ok)|]. intros result.
  apply advances_bind; [apply enqueue_advances|]. intros _.
  apply advances_bind; [done|]. intros. by apply advances_pure.
Qed.

Lemma orchestrate_advances inputs :
  advances (orchestrate (E := E) (R := R) temporary_middle data_root options defer_metadata_assets inputs).
Proof.
  unfold orchestrate. apply advances_bind; [by apply advances_pure|]. intros [|p ps]; [by apply advances_pure|].
  apply advances_bind; [by destruct (_ && _); apply advances_pure|]. intros. apply process_selected_advances.
Qed.

(** * Draining *)

Lemma marker_covered_owed m published : marker_covered (marker_payload m) published = true <-> dom m ⊆ published.
Proof.
  unfold marker_covered, marker_payload. simpl. rewrite forallb_forall. split.
  - intros H stem [h Hh]%elem_of_dom. specialize (H (VStr stem)). apply bool_decide_eq_true in H; [done|].
    apply list_elem_of_In, list_elem_of_fmap. exists stem. split; [done|]. apply elem_of_marker_stems. by rewrite Hh.
  - intros H v (stem & -> & Hs%elem_of_marker_stems)%list_elem_of_In%list_elem_of_fmap.
    apply bool_decide_eq_true, H. by apply elem_of_dom.
Qed.

(** The refresh is published: what was owed is described by it and forgotten unless the run is dry
    or the removal of the record fails. *)
Record refreshed (m : gmap str str) (s s' : CoreRun W) (returned : bool) : Prop := {
  f_journal : journal s' = journal s ++ [EDrained []; ERefreshed];
  f_covered : dom m ⊆ published_stems s;
  f_owes : exists m', holds (core_world s') m' /\
    (dry_run options = true -> m' = m) /\ (dry_run options = false -> returned = true -> m' = ∅) }.

Definition returns_ {A} (o : outcome A) : bool := match o with Ok _ => true | Raise _ => false end.

Lemma remembers_world m0 m s w es :
  holds w m -> remembers m0 m s -> (forall e, e ∈ es -> exists f, e = EDrained f \/ e = EProcessed) ->
  remembers m0 m (mkCore w (published_stems s) (deferred_stems s) (journal s ++ es)).
Proof.
  intros Hw [H1 H2 H3 H4 H5] He. split; simpl; try done.
  - intros stem [?|Hx]%elem_of_app; [auto|]. destruct (He _ Hx) as (f & [?|?]); done.
  - intros [?|Hx]%elem_of_app; [done|]. destruct (He _ Hx) as (f & [?|?]); done.
Qed.

(** Publishing the assets, from a drained queue whose regions are all submitted. *)
Lemma refresh_outcome m0 m s o s' :
  remembers m0 m s -> refresh_repository_metadata (E := E) (R := R) temporary_middle data_root options s = (o, s') ->
  remembers m0 m s' \/
  (exists m', holds (core_world s') m' /\ (dry_run options = true -> m' = m) /\
     (dry_run options = false -> returns_ o = true -> m' = ∅)) /\ journal s' = journal s ++ [ERefreshed].
Proof.
  intros Hr. unfold refresh_repository_metadata, upload_metadata_refresh, try_except, pbind, on_world.
  pose proof (r_owes _ _ _ Hr) as Ho.
  destruct (assemble_metadata_only_upload (core_world s)) as [[ops|e] w1] eqn:E1; simpl.
  2:{ pose proof (k_assemble_metadata data_root world_ok _ _ _ _ E1 Ho) as Ho1.
      destruct (isinstance e CException); intros [= <- <-]; left;
        by pose proof (remembers_world m0 m s w1 [] Ho1 Hr (fun e H => match not_elem_of_nil e H with end)) as H;
        rewrite app_nil_r in H. }
  pose proof (k_assemble_metadata data_root world_ok _ _ _ _ E1 Ho) as Ho1.
  destruct (queue_upload_synchronously ops _ w1) as [[[]|e] w2] eqn:E2; simpl.
  2:{ pose proof (k_synchronous data_root world_ok _ _ _ _ _ _ E2 Ho1) as Ho2.
      destruct (isinstance e CException); intros [= <- <-]; left;
        by pose proof (remembers_world m0 m s w2 [] Ho2 Hr (fun e H => match not_elem_of_nil e H with end)) as H;
        rewrite app_nil_r in H. }
  pose proof (k_synchronous data_root world_ok _ _ _ _ _ _ E2 Ho1) as Ho2.
  destruct (dry_run options) eqn:Hdry.
  - intros [= <- <-]. right. split; [|done]. by exists m.
  - simpl. destruct (CorePublication.on_disk _ w2) as [[[]|e] w3] eqn:E3; intros [= <- <-];
      apply owes_on_disk in E3 as (fs & E3 & ->); apply (clear_marker_owes _ _ temporary_is_fresh _ _ _ _ (proj2 Ho2)) in E3;
      apply (holds_with_disk _ _ _ _ Ho2) in E3;
      right; (split; [|done]); by eexists.
Qed.

Lemma drain_outcome m0 m s deferring o s' :
  remembers m0 m s -> drain_uploads (E := E) (R := R) temporary_middle data_root options deferring s = (o, s') ->
  remembers m0 m s' \/ deferring = true /\ refreshed m s s' (returns_ o).
Proof.
  intros Hr. unfold drain_uploads. unfold pbind at 1, on_world at 1.
  destruct (queue_close_and_wait (core_world s)) as [[failures|e] w1] eqn:E1;
    pose proof (k_close data_root world_ok _ _ _ _ E1 (r_owes _ _ _ Hr)) as Ho.
  2:{ intros [= <- <-]. left.
      pose proof (remembers_world m0 m s w1 [] Ho Hr (fun e H => match not_elem_of_nil e H with end)) as H.
      by rewrite app_nil_r in H. }
  unfold pbind at 1, log at 1, modify at 1. simpl.
  set (s1 := mkCore w1 _ _ (journal s ++ [EDrained failures])).
  assert (Hs1 : remembers m0 m s1).
  { apply remembers_world; [done..|]. intros e ->%list_elem_of_singleton. eauto. }
  destruct (negb _ || negb deferring) eqn:Hc; [intros [= <- <-]; by left|].
  apply orb_false_iff in Hc as [Hf Hd]. apply negb_false_iff in Hd. subst deferring.
  apply negb_false_iff, bool_decide_eq_true, nil_length_inv in Hf. subst failures.
  destruct (load_marker_owed data_root _ _ (proj2 (r_owes _ _ _ Hs1))) as (marker & Hl & Hm).
  unfold pbind at 1, metadata_refresh_requested, pbind at 1, gets at 1.
  assert (Hwarn : forall o s', (warn_metadata_refresh_pending data_root;; ret (A := list pymsg) []) s1 = (o, s') -> s' = s1).
  { intros o1 s2. unfold warn_metadata_refresh_pending, pbind, load_marker, current_tree. rewrite Hl. by intros [= _ <-]. }
  case_bool_decide; [intros H1; apply Hwarn in H1 as ->; by left|].
  unfold pbind at 1, load_marker, current_tree. rewrite Hl. simpl.
  destruct (match marker with Some _ => _ | None => true end) eqn:Hcov; [|intros H1; apply Hwarn in H1 as ->; by left].
  intros H1. destruct (refresh_outcome _ _ _ _ _ Hs1 H1) as [H2|[Ho' Hj]]; [by left|]. right. split; [done|]. split.
  - rewrite Hj. simpl. by rewrite <- app_assoc.
  - destruct Hm as [[-> ->]|[_ ->]]; [set_solver|]. by apply marker_covered_owed.
  - done.
Qed.

(** * The run *)

Definition start (w : W) : CoreRun W := mkCore w ∅ [] [].
Abbreviation run := (run_core_publication (E := E) (R := R) temporary_middle data_root options defer_metadata_assets).

Lemma start_boundary w m0 : holds w m0 -> boundary m0 (start w).
Proof.
  intros H. exists m0. split; [split| |..]; simpl; try done.
  - by intros stem ?%elem_of_nil.
  - by intros ?%elem_of_nil.
  - split_and!; [apply H|constructor|apply map_empty_subseteq].
  - by intros stem ?%elem_of_nil.
  - intros stem. by rewrite elem_of_empty, elem_of_nil.
Qed.

Definition opening : PyM (CoreRun W) unit := if push options then on_world open_queue else ret tt.
Lemma opening_advances : advances opening.
Proof. unfold opening. destruct (push options); [apply advances_world, (k_open data_root world_ok)|by apply advances_pure]. Qed.

(** Either the run ends before a refresh, or after everything it deferred was submitted and the
    queue was drained without failures. *)
Lemma core_run_outcome inputs w r s' m0 :
  holds w m0 -> run inputs (start w) = (r, s') ->
  interrupted m0 s' \/
  exists s1 m, push options = true /\ defer_metadata_assets = true /\ between_callbacks m0 s1 m /\
    refreshed m (mkCore (core_world s1) (published_stems s1) (deferred_stems s1) (journal s1 ++ [EProcessed])) s' (returns_ r).
Proof.
  intros Ho%start_boundary. unfold run_core_publication. unfold pbind at 1.
  destruct (opening (start w)) as [[[]|e] s0] eqn:E0; pose proof (opening_advances _ _ _ _ Ho E0) as Hs0; unfold opening in E0;
    rewrite E0; [|intros [= <- <-]; by left].
  clear E0. unfold pbind at 1. destruct (orchestrate _ _ _ _ inputs s0) as [ro s1] eqn:Eo.
  pose proof (orchestrate_advances inputs m0 s0 ro s1 Hs0 Eo) as Hs1. destruct ro as [results|e].
  - unfold pbind, log, modify, ret. destruct Hs1 as [m Hb].
    set (s2 := mkCore _ _ _ (journal s1 ++ [EProcessed])).
    assert (Hs2 : remembers m0 m s2).
    { apply remembers_world; [apply Hb..|]. intros e ->%list_elem_of_singleton. exists []. by right. }
    destruct (push options); [|intros [= <- <-]; left; by exists m].
    destruct (drain_uploads _ _ _ _ s2) as [rd s3] eqn:Ed.
    destruct (drain_outcome m0 m s2 _ rd s3 Hs2 Ed) as [H|[Hd H]];
      intros Hr; assert (s' = s3 /\ returns_ r = returns_ rd) as [-> Hret] by (by destruct rd; simplify_eq).
    + left. by exists m.
    + right. exists s1, m. rewrite Hret. split_and!; try done. unfold refresh_allowed in Hd. by destruct defer_metadata_assets.
  - destruct Hs1 as [m Hs1]. destruct (push options); [|intros [= <- <-]; left; by exists m].
    destruct (drain_uploads _ _ _ _ s1) as [rd s3] eqn:Ed.
    destruct (drain_outcome m0 m s1 _ rd s3 Hs1 Ed) as [H|[Hd H]].
    + intros Hr. left. exists m. by destruct rd; simplify_eq.
    + unfold refresh_allowed in Hd. by rewrite andb_false_r in Hd.
Qed.

Lemma refreshed_journal m s s' b : refreshed m s s' b -> ERefreshed ∈ journal s'.
Proof. intros [-> _ _]. apply elem_of_app. right. apply elem_of_cons. right. by left. Qed.

(** C18: Repository-wide metadata is published only when it is earned.  Whatever the collaborators
    return or raise, a run that published the metadata was allowed to push and to defer it, had
    finished the processing and drained its queue without a failure, and had submitted in this run
    every region whose metadata was owed, those that an earlier run left behind included; the
    publication is the last thing the run did. *)
Theorem metadata_refresh_is_licensed inputs w r s' m0 :
  holds w m0 -> run inputs (start w) = (r, s') -> ERefreshed ∈ journal s' ->
  push options = true /\ defer_metadata_assets = true /\
  exists before, journal s' = before ++ [EProcessed; EDrained []; ERefreshed] /\
    ERefreshed ∉ before /\
    forall stem, stem ∈ dom m0 \/ EDeferred stem ∈ before -> ESubmitted stem ∈ before.
Proof.
  intros Ho Hr Hin. destruct (core_run_outcome _ _ _ _ _ Ho Hr) as [[m H]|(s1 & m & Hp & Hd & Hb & [Hj Hc _])].
  - by apply (r_no_refresh _ _ _ H) in Hin.
  - split_and!; [done..|]. exists (journal s1). split_and!; [by rewrite Hj; simpl; rewrite <- app_assoc|apply Hb|].
    intros stem [Hs|Hs]; [|by apply (b_submitted _ _ _ Hb)].
    apply (b_published _ _ _ Hb), Hc. by apply (r_start m0 m s1); [apply Hb|].
Qed.

(** C30: Owed metadata is never forgotten.  At the end of every run, however it ends, the marker
    names every region it named at the start and every region the run deferred, unless the
    metadata of all of them was published; a dry run leaves the marker exactly as it was, and a
    run that returns after a publication leaves none. *)
Theorem owed_metadata_survives inputs w r s' m0 :
  holds w m0 -> run inputs (start w) = (r, s') ->
  exists m', holds (core_world s') m' /\
    (ERefreshed ∉ journal s' -> dom m0 ⊆ dom m' /\ forall stem, EDeferred stem ∈ journal s' -> stem ∈ dom m') /\
    (dry_run options = true -> m' = m0) /\
    (ERefreshed ∈ journal s' -> dry_run options = false -> returns_ r = true -> m' = ∅).
Proof.
  intros Ho Hr. destruct (core_run_outcome _ _ _ _ _ Ho Hr) as [[m H]|(s1 & m & _ & _ & Hb & Hf)].
  - exists m. pose proof H as [H1 H2 H3 H4 H5]. by split_and!.
  - destruct (f_owes _ _ _ _ Hf) as (m' & Hm & Hdry & Hnone). exists m'.
    pose proof (refreshed_journal _ _ _ _ Hf) as Hin. split_and!; [done|by intros ?| |auto].
    intros Hd. rewrite Hdry by done. by apply (r_dry m0 m s1); [apply Hb|].
Qed.

End CorePublicationProofs.
