(* ===== verification/CoreQueue.v ===== *)
(** The background upload queue as the publisher's queue: between two calls of the client the
    worker takes an arbitrary number of steps, and what the publisher relies on
    ([QueueKeepsOwed]) holds of it. *)
From stdpp Require Import gmap.
From S2P Require Import Prelude Py PyStr PyText Fs Keeps Artifacts Atomic Paths Pending PendingProofs Retry UploadState UploadQueue UploadQueueProofs UploadFrame DeferredMetadata CorePublication CorePublicationProofs.

Section CoreQueue.
Context {RT : Runtime} {FF : FileFormats} {W : Type} `{!RetryEnv W} `{!UploadSite W}.
Variable temporary_middle : gmap path node -> path -> str.
Variables (state_dir cwd : path).
Variables (max_pending attempts : Z).
(** How many steps the worker takes before the next call of the client. *)
Variable turns : Queue W -> nat.

Abbreviation worker_step := (worker_step state_dir true attempts).
Abbreviation put := (put max_pending).

Definition queue_disk (q : Queue W) : FsState := q_fs (store q).
Definition with_queue_disk (fs : FsState) (q : Queue W) : Queue W :=
  mkQueue (mkQ fs (q_next (store q))) (world q) (jobs q) (to_put q) (failures q) (closed q) (thread q) (accepted q) (finished q).

#[export] Program Instance queue_has_disk : HasDisk (Queue W) :=
  {| disk := queue_disk; with_disk := with_queue_disk |}.
Next Obligation. done. Qed.

(** At most [n] steps of the worker. *)
Fixpoint work_for (n : nat) (q : Queue W) : Queue W :=
  match n with
  | O => q
  | S n => match worker_step q with Some q' => work_for n q' | None => q end
  end.

(** The client in [put] and the worker, until everything is put; a client that waits for a worker
    that has died can only be interrupted. *)
Fixpoint settle (n : nat) (q : Queue W) : outcome unit * Queue W :=
  match n, to_put q with
  | _, [] => (Ok tt, q)
  | O, _ => (Raise (exc CKeyboardInterrupt []), q)
  | S n, _ =>
      match put q with
      | Some q' => settle n q'
      | None => match worker_step q with Some q' => settle n q' | None => (Raise (exc CKeyboardInterrupt []), q) end
      end
  end.

(** A call of the client that may have to put. *)
Definition call {A} (f : Queue W -> outcome A * Queue W) : PyM (Queue W) A := fun q =>
  match f (work_for (turns q) q) with
  | (Raise e, q') => (Raise e, q')
  | (Ok a, q') => match settle (left_to_do q') q' with (Ok _, q'') => (Ok a, q'') | (Raise e, q'') => (Raise e, q'') end
  end.

(** [close_and_wait] puts the sentinel and joins the thread. *)
Definition closing : PyM (Queue W) (list pymsg) :=
  call (fun q => (Ok tt, close q));;
  fun q => let q' := work_for (left_to_do q) q in (Ok (failures q'), q').

#[export] Instance background_queue : PublicationQueue (Queue W) := {|
  open_queue := _ <- call (resume temporary_middle state_dir cwd true);; ret tt;
  queue_submit := fun ops message => call (submit temporary_middle state_dir true ops message);
  queue_close_and_wait := closing;
  queue_upload_synchronously := fun ops message => call (upload_synchronously ops message) |}.

(** * Its promises *)

Variable data_root : path.
Hypothesis state_dir_plain : u ".." ∉ state_dir.
Hypothesis manifest_outside : outside state_dir (manifest_path data_root).
Abbreviation manifest := (manifest_path data_root).

Definition item_ok (item : option UploadJob) : Prop :=
  match item with Some job => forall p, j_state_path job = Some p -> p ≠ manifest | None => True end.

(** The queue never holds a job whose envelope is the file of the pending publications. *)
Definition queue_ok (q : Queue W) : Prop :=
  Forall item_ok (jobs q) /\ Forall item_ok (to_put q) /\ match thread q with Busy item => item_ok item | _ => True end.

Definition queue_keeps (q q' : Queue W) : Prop :=
  queue_ok q -> queue_ok q' /\ tree (queue_disk q') !! manifest = tree (queue_disk q) !! manifest.

Lemma queue_keeps_refl q : queue_keeps q q.
Proof. by intros ?. Qed.
Lemma queue_keeps_trans q1 q2 q3 : queue_keeps q1 q2 -> queue_keeps q2 q3 -> queue_keeps q1 q3.
Proof. intros H12 H23 H1. destruct (H12 H1) as [H2 E2]. destruct (H23 H2) as [H3 E3]. split; [done|congruence]. Qed.

Lemma put_keeps q q' : put q = Some q' -> queue_keeps q q'.
Proof.
  unfold UploadQueue.put. destruct (to_put q) as [|item rest] eqn:E; [done|]. destruct (_ <? _)%Z; [|done].
  intros [= <-] (Hj & Hp & Ht). rewrite E in Hp. apply Forall_cons in Hp as [Hi Hp]. split; [|done].
  split_and!; simpl; [apply Forall_app; by repeat constructor|done..].
Qed.

Lemma work_untouched job fs w o fs' w' :
  item_ok (Some job) -> work state_dir true attempts job (fs, w) = (o, (fs', w')) -> tree fs' !! manifest = tree fs !! manifest.
Proof.
  intros Hok. unfold work, try_except. destruct (pbind _ _ (fs, w)) as [r [fs1 w1]] eqn:E. intros H.
  assert (Hfs : fs' = fs1) by (destruct r as [[]|e]; repeat case_match; unfold ret in *; by simplify_eq). subst fs'.
  assert (Hp : tree (process_job state_dir true attempts job (fs, w)).2.1 !! manifest = tree fs !! manifest).
  2:{ unfold pbind in E. destruct (process_job _ _ _ job (fs, w)) as [[x|e] s1]; unfold ret in E; by simplify_eq. }
  clear - Hok state_dir_plain manifest_outside. unfold process_job, UploadQueue.on_disk, pbind, reads. simpl.
  destruct (verify_job_snapshot _ job (tree fs)) as [[d|]|e]; [done| |done].
  unfold upload_with_retries, on_site. simpl. destruct (run_upload_attempts _ _ w) as [[[]|e] w1]; [|done].
  destruct (j_state_path job) as [p|] eqn:Hj; [|done]. simpl.
  destruct (delete_upload state_dir p (j_snapshot_dir job) fs) as [od fs2] eqn:Ed.
  apply (untouched_delete state_dir state_dir_plain manifest manifest_outside) in Ed; [|by apply Hok].
  by destruct od.
Qed.

Lemma worker_step_keeps q q' : worker_step q = Some q' -> queue_keeps q q'.
Proof.
  unfold UploadQueue.worker_step. intros E (Hj & Hp & Ht).
  destruct (thread q) as [|[job|]| |] eqn:Eth; [destruct (jobs q) as [|item rest] eqn:Ej| | |done..]; simplify_eq.
  - apply Forall_cons in Hj as [Hi Hj]. split; [|done]. by split_and!.
  - destruct (work _ _ _ job _) as [[x|e] [fs w]] eqn:Ew; apply work_untouched in Ew; simplify_eq; try done;
      by split; [split_and!|].
  - by split; [split_and!|].
Qed.

Lemma work_for_keeps n q : queue_keeps q (work_for n q).
Proof.
  revert q. induction n as [|n IH]; intros q; simpl; [apply queue_keeps_refl|].
  destruct (worker_step q) as [q'|] eqn:E; [|apply queue_keeps_refl].
  eapply queue_keeps_trans; [by apply worker_step_keeps|apply IH].
Qed.

Lemma settle_keeps n q o q' : settle n q = (o, q') -> queue_keeps q q'.
Proof.
  revert q. induction n as [|n IH]; intros q; simpl; [destruct (to_put q); intros [= <- <-]; apply queue_keeps_refl|].
  destruct (to_put q); [intros [= <- <-]; apply queue_keeps_refl|].
  destruct (put q) as [q1|] eqn:Ep.
  - intros H. eapply queue_keeps_trans; [by apply put_keeps|by apply IH].
  - destruct (worker_step q) as [q1|] eqn:Ew; [|intros [= <- <-]; apply queue_keeps_refl].
    intros H. eapply queue_keeps_trans; [by apply worker_step_keeps|by apply IH].
Qed.

Lemma call_keeps {A} (f : Queue W -> outcome A * Queue W) q o q' :
  (forall q, queue_keeps q (f q).2) -> call f q = (o, q') -> queue_keeps q q'.
Proof.
  intros Hf. unfold call. pose proof (work_for_keeps (turns q) q) as Hw. pose proof (Hf (work_for (turns q) q)) as Hq.
  destruct (f (work_for (turns q) q)) as [[a|e] q1]; simpl in Hq.
  - destruct (settle (left_to_do q1) q1) as [[[]|e] q2] eqn:Es; apply settle_keeps in Es; intros [= <- <-];
      (eapply queue_keeps_trans; [exact Hw|]; by eapply queue_keeps_trans).
  - intros [= <- <-]. by eapply queue_keeps_trans.
Qed.

Lemma in_dir_not_manifest p : in_dir state_dir p -> p ≠ manifest.
Proof. intros [x ->]. by apply (not_in_state_dir state_dir manifest). Qed.

Lemma stored_ok l : uploads_in_dir state_dir l -> Forall item_ok (Some <$> (job_of_stored <$> l)).
Proof.
  intros H. rewrite !Forall_fmap. eapply Forall_impl; [exact H|]. intros x Hx p. simpl. intros [= <-]. by apply in_dir_not_manifest.
Qed.

(** New work at the end of what the client still has to put. *)
Lemma queue_ok_put q st new f a c :
  queue_ok q -> Forall item_ok new -> queue_ok (mkQueue st (world q) (jobs q) (to_put q ++ new) f c (thread q) a (finished q)).
Proof. intros (Hj & Hp & Ht) Hn. split_and!; simpl; [done|by apply Forall_app|done]. Qed.

Lemma submit_keeps ops message q : queue_keeps q (submit temporary_middle state_dir true ops message q).2.
Proof.
  intros Hq. unfold submit. destruct (closed q); [done|]. unfold build_job.
  destruct (pbind _ _ (store q)) as [[job|e] st] eqn:E; unfold pbind in E;
    destruct (persist _ _ _ _ (store q)) as [[stored|e'] st'] eqn:Ep; unfold ret in E; simplify_eq;
    pose proof (store_persist _ _ state_dir_plain _ manifest_outside _ _ _ _ _ Ep) as Ht; (split; [|exact Ht]).
  - simpl. apply queue_ok_put; [done|]. repeat constructor. intros p. simpl. intros [= <-].
    by apply in_dir_not_manifest, (persist_in_dir temporary_middle state_dir ops message (store q) _ st).
  - rewrite <- (app_nil_r (to_put q)). simpl. by apply queue_ok_put.
Qed.

Lemma resume_keeps q : queue_keeps q (resume temporary_middle state_dir cwd true q).2.
Proof.
  intros Hq. unfold resume. simpl. destruct (resume_pending _ _ _ (store q)) as [[r|e] st] eqn:E;
    pose proof (store_resume _ _ _ state_dir_plain _ manifest_outside _ _ _ E) as Ht; (split; [|exact Ht]); simpl.
  - apply queue_ok_put; [done|]. by eapply stored_ok, resume_in_dir.
  - rewrite <- (app_nil_r (to_put q)). by apply queue_ok_put.
Qed.

Lemma close_keeps q : queue_keeps q (close q).
Proof.
  intros Hq. unfold close. destruct (closed q); [done|]. split; [|done]. apply queue_ok_put; [done|by repeat constructor].
Qed.

Lemma synchronous_keeps ops message q : queue_keeps q (upload_synchronously ops message q).2.
Proof. intros Hq. unfold upload_synchronously. destruct (negb _); [done|]. by destruct (upload _ _ _ _). Qed.

Lemma keeps_owed_of {A} (m : PyM (Queue W) A) :
  (forall q o q', m q = (o, q') -> queue_keeps q q') -> keeps_owed data_root queue_ok m.
Proof.
  intros Hm q o q' owed E [Hok Ho]. destruct (Hm _ _ _ E Hok) as [Hok' Ht]. split; [done|]. by eapply owes_same.
Qed.

(** The background queue keeps its promises to the publisher, whatever its worker's schedule. *)
#[export] Instance background_queue_keeps_owed : QueueKeepsOwed data_root queue_ok.
Proof.
  split.
  - done.
  - apply keeps_owed_of. intros q o q' E. simpl in E. unfold pbind in E.
    destruct (call _ q) as [[n|e] q1] eqn:Ec; apply call_keeps in Ec; try (intros; apply resume_keeps); unfold ret in E; by simplify_eq.
  - intros ops message. apply keeps_owed_of. intros q o q' E. eapply call_keeps; [|exact E]. intros. apply submit_keeps.
  - apply keeps_owed_of. intros q o q' E. simpl in E. unfold closing, pbind in E.
    destruct (call _ q) as [[n|e] q1] eqn:Ec; apply call_keeps in Ec; try (intros; apply close_keeps); [|by simplify_eq].
    simplify_eq. eapply queue_keeps_trans; [done|apply work_for_keeps].
  - intros ops message. apply keeps_owed_of. intros q o q' E. eapply call_keeps; [|exact E]. intros. apply synchronous_keeps.
Qed.

End CoreQueue.

(** * Example

    A directory run over the background queue: one that publishes the metadata it deferred, and one
    whose upload fails, so that the metadata stays owed. *)

From Stdlib Require Import QArith.
From S2P Require Import UploadExamples.

#[local] Existing Instance example_formats.
#[local] Existing Instance service_env.
#[local] Existing Instance service_site.

(** Every digest is the same. *)
#[local] Instance core_runtime : Runtime := {|
  str_of_nonstr _ := u "value"; sha256_hexdigest _ := repeat 97%N 64 |}.

Definition core_root : path := [u "data"].
Definition upload_jobs : path := child (cache core_root) (u "upload_jobs").
Definition malta_pbf : path := [u "in"; u "malta.osm.pbf"].
Definition malta_polygons : path := polygons_path core_root (u "malta").

Definition core_tree : gmap path node := list_to_map
  ([(malta_pbf, File (CBytes [])); (malta_polygons, File (CBytes [1%N])); (processed_polygons core_root, Dir)] ++
   ((fun p => (p, Dir)) <$> prefixes (processed_manifests core_root) ++ prefixes upload_jobs)).

Definition core_queue (answers : list (outcome unit)) : Queue Service :=
  UploadQueue.start (mkQ (mkFs core_tree []) 1) {| answers := answers; calls := [] |}.

(** The worker takes one step before each call. *)
#[local] Instance core_disk : HasDisk (Queue Service) := queue_has_disk.
#[local] Instance core_background : PublicationQueue (Queue Service) :=
  background_queue long_middle upload_jobs [] 2 5 (fun _ => 1%nat).
#[local] Instance core_site : CoreSite (Queue Service) path str := {|
  extract_pbf := ret;
  process_extracted_pbf pbf := ret (path_name pbf);
  manifest_entry name := [(u "source_pbf", VStr name)];
  assemble_core_upload _ _ :=
    ret [{| action := u "add"; path_in_repo := u "polygons/malta.parquet"; local_path := Some malta_polygons; snapshot_path := None |}];
  assemble_metadata_only_upload := ret [] |}.

Abbreviation core_ok := (queue_ok (W := Service) core_root).

Lemma upload_jobs_plain : u ".." ∉ upload_jobs.
Proof. by_evaluation. Qed.

Lemma core_manifest_outside : outside upload_jobs (manifest_path core_root).
Proof. split; by_evaluation. Qed.

#[local] Instance core_queue_keeps : QueueKeepsOwed core_root core_ok.
Proof. apply background_queue_keeps_owed; [apply upload_jobs_plain|apply core_manifest_outside]. Qed.

#[local] Instance core_site_keeps : SiteKeepsOwed (E := path) (R := str) core_root core_ok.
Proof. split; intros; intros w o w' m E H; injection E as _ <-; exact H. Qed.

Definition core_options : ProcessingOptions :=
  {| push := true; dry_run := false; custom_message := None; skip_existing := false; force := false |}.

Definition core_run (answers : list (outcome unit)) :=
  run_core_publication (E := path) (R := str) long_middle core_root core_options true [malta_pbf]
    (CorePublicationProofs.start (core_queue answers)).

Lemma core_start answers : holds core_root core_ok (core_queue answers) ∅.
Proof.
  split; [by repeat constructor|]. exists no_intent. split; [|done]. unfold represents.
  assert (E : tree (disk (core_queue answers)) !! manifest_path core_root = None) by (vm_compute; reflexivity).
  by rewrite E.
Qed.

(** The region is uploaded, and then the metadata it deferred. *)
Lemma metadata_refresh_is_licensed_witness :
  let s' := (core_run []).2 in
  ERefreshed ∈ journal s' /\
  exists before, journal s' = before ++ [EProcessed; EDrained []; ERefreshed] /\ ESubmitted (u "malta") ∈ before.
Proof.
  intros s'. assert (Hj : journal s' = [EDeferred (u "malta"); ESubmitted (u "malta"); EProcessed; EDrained []; ERefreshed])
    by (vm_compute; reflexivity).
  assert (Hin : ERefreshed ∈ journal s') by (rewrite Hj; do 4 (apply elem_of_cons; right); left).
  split; [exact Hin|].
  destruct (metadata_refresh_is_licensed (E := path) (R := str) long_middle core_root core_options true temporary_name_fresh core_ok
    [malta_pbf] (core_queue []) (core_run []).1 s' ∅ (core_start []) (surjective_pairing _) Hin)
    as (_ & _ & before & Hb & _ & Hs).
  exists before. split; [exact Hb|]. apply Hs. right. rewrite Hj in Hb.
  apply (app_inj_2 [EDeferred (u "malta"); ESubmitted (u "malta")]) in Hb as [<- _]; [left|reflexivity].
Defined.

(** The upload keeps failing: the region's metadata is still owed. *)
Definition failing : list (outcome unit) := replicate 5 (Raise (exc CTimeoutError [])).
Lemma owed_metadata_survives_witness :
  let s' := (core_run failing).2 in
  exists m', holds core_root core_ok (core_world s') m' /\ u "malta" ∈ dom m'.
Proof.
  intros s'. destruct (owed_metadata_survives (E := path) (R := str) long_middle core_root core_options true temporary_name_fresh core_ok
    [malta_pbf] (core_queue failing) (core_run failing).1 s' ∅ (core_start failing) (surjective_pairing _)) as (m' & Hm & H & _).
  exists m'. split; [exact Hm|].
  assert (Hj : journal s' = [EDeferred (u "malta"); ESubmitted (u "malta"); EProcessed; EDrained [FStr (u "Update PBF malta.osm.pbf: ") :: []]])
    by (vm_compute; reflexivity).
  rewrite Hj in H. destruct H as [_ H];
    [intros Hx; repeat (apply elem_of_cons in Hx as [Hx|Hx]; [discriminate Hx|]); by apply elem_of_nil in Hx|]. apply H. left.
Defined.
