(* ===== verification/SyncApplication.v ===== *)
(** The execution phase of a synchronization ([cli/sync_application.py]): the callbacks it hands to
    the runner ([SyncRunner.run_sync]), the record of deferred metadata, the closing of the upload
    queue and the final refresh. *)
From stdpp Require Import gmap sorting.
From S2P Require Import Prelude Py PyStr Fs Artifacts Atomic Pending PendingProofs DeferredMetadata UploadState Reconciliation SyncPlan SyncRunner CorePublication.

(** * Services *)

Inductive LinkClass := LinkCanonical | LinkBlocked (reason : str) | LinkMigratable.

(** The audit of one region: whether it needs a repair, and its classifications ([K]). *)
Record RegionAudit (K : Type) := { requires_repair : bool; audit_classifications : K }.
Arguments requires_repair {K}.
Arguments audit_classifications {K}.

(** [SyncApplicationServices]: results of an augmentation ([A]), of a core ([C]) and of an
    extraction ([E]); the audit and the repair are given with their clients and settings. *)
Class SyncServices (W A C E K : Type) := {
  s_extract_pbf : path -> outcome E;
  s_process_extracted_pbf : E -> PyM W C;
  s_augment_region : str -> PyM W A;
  wikipedia_documents_path : A -> option path;
  s_load_existing_augmentation : str -> PyM W A;
  plan_link_migration : str -> PyM W (option LinkClass);
  apply_link_migration : str -> PyM W unit;
  audit_region_plan : str -> PyM W (RegionAudit K);
  (** [changed] and [map_inputs_changed]. *)
  repair_wikidata_region : str -> RegionAudit K -> PyM W (bool * bool);
  s_prepare_local_retirement : str -> PyM W unit;
  record_region_recovery_receipt : str -> K -> PyM W unit;
  assemble_region_upload : str -> A -> option C -> bool -> PyM W (list PublicationOp);
  s_assemble_metadata_only_upload : PyM W (list PublicationOp);
  load_existing_core_for_publication : str -> PyM W C;
  s_commit_message : RegionSyncState -> str;
  cancel_pending_retries : PyM W unit;
  reset_retry_cancellation : PyM W unit }.

(** The fixed part of [SyncApplicationContext]. *)
Record SyncContext := {
  planned_states : list RegionSyncState; push_enabled : bool; sync_dry_run : bool; has_queue : bool;
  context_pending_stems : gset str; context_plan : option ReconciliationPlan;
  containment_enqueued : bool; initially_repaired : bool }.

Record SyncResult := { return_code : Z; result_will_be_repaired : bool; result_core_repaired : bool; metadata_repaired : bool }.

Inductive sync_event := SDeferred (stem : str) | SSubmitted (message : str) | SDrained (failures : list pymsg) | SRefreshed.

(** The world, the mutable fields of the application and its context, and what happened. *)
Record SyncApp (W K : Type) := mkApp {
  app_world : W;
  recovered_stems : gset str;
  recovery_map_refresh_stems : gset str;
  recovery_classifications : list (str * K);
  region_publication_submitted : bool;
  metadata_repair_requested : bool;
  deferred_metadata_stems : list (str * str);
  will_be_repaired : bool;
  core_repaired_ : bool;
  events : list sync_event }.
Arguments mkApp {W K}.
Arguments app_world {W K}.
Arguments recovered_stems {W K}.
Arguments recovery_map_refresh_stems {W K}.
Arguments recovery_classifications {W K}.
Arguments region_publication_submitted {W K}.
Arguments metadata_repair_requested {W K}.
Arguments deferred_metadata_stems {W K}.
Arguments will_be_repaired {W K}.
Arguments core_repaired_ {W K}.
Arguments events {W K}.

Section SyncApplication.
Context {RT : Runtime} {FF : FileFormats}.
Context {W A C E K : Type} `{!HasDisk W} `{!PublicationQueue W} `{!SyncServices W A C E K}.
Variable temporary_middle : gmap path node -> path -> str.
Variable data_root : path.
Variable context : SyncContext.
(** The [publish_builder] of the context; the command line passes none. *)
Variable publish_builder : option (RegionSyncState -> A -> option C -> PyM W (list PublicationOp)).
Abbreviation App := (SyncApp W K).
Abbreviation M := (PyM App).

Definition in_world {B} (m : PyM W B) : M B := fun s =>
  let '(o, w) := m (app_world s) in
  (o, mkApp w (recovered_stems s) (recovery_map_refresh_stems s) (recovery_classifications s) (region_publication_submitted s)
        (metadata_repair_requested s) (deferred_metadata_stems s) (will_be_repaired s) (core_repaired_ s) (events s)).
Definition app_log (e : sync_event) : M unit :=
  modify (fun s => mkApp (app_world s) (recovered_stems s) (recovery_map_refresh_stems s) (recovery_classifications s)
    (region_publication_submitted s) (metadata_repair_requested s) (deferred_metadata_stems s) (will_be_repaired s)
    (core_repaired_ s) (events s ++ [e])).
Definition set_submitted (b : bool) : M unit :=
  modify (fun s => mkApp (app_world s) (recovered_stems s) (recovery_map_refresh_stems s) (recovery_classifications s) b
    (metadata_repair_requested s) (deferred_metadata_stems s) (will_be_repaired s) (core_repaired_ s) (events s)).
Definition request_repair : M unit :=
  modify (fun s => mkApp (app_world s) (recovered_stems s) (recovery_map_refresh_stems s) (recovery_classifications s)
    (region_publication_submitted s) true (deferred_metadata_stems s) (will_be_repaired s) (core_repaired_ s) (events s)).
Definition set_will_be_repaired (b : bool) : M unit :=
  modify (fun s => mkApp (app_world s) (recovered_stems s) (recovery_map_refresh_stems s) (recovery_classifications s)
    (region_publication_submitted s) (metadata_repair_requested s) (deferred_metadata_stems s) b (core_repaired_ s) (events s)).
Definition set_core_repaired (b : bool) : M unit :=
  modify (fun s => mkApp (app_world s) (recovered_stems s) (recovery_map_refresh_stems s) (recovery_classifications s)
    (region_publication_submitted s) (metadata_repair_requested s) (deferred_metadata_stems s) (will_be_repaired s) b (events s)).
Definition set_classifications (stem : str) (k : K) : M unit :=
  modify (fun s => mkApp (app_world s) (recovered_stems s) (recovery_map_refresh_stems s) (dset stem k (recovery_classifications s))
    (region_publication_submitted s) (metadata_repair_requested s) (deferred_metadata_stems s) (will_be_repaired s)
    (core_repaired_ s) (events s)).
Definition mark_recovered (stem : str) (map_inputs_changed : bool) : M unit :=
  modify (fun s => mkApp (app_world s) ({[stem]} ∪ recovered_stems s)
    (if map_inputs_changed then {[stem]} ∪ recovery_map_refresh_stems s else recovery_map_refresh_stems s)
    (recovery_classifications s) (region_publication_submitted s) (metadata_repair_requested s) (deferred_metadata_stems s)
    (will_be_repaired s) (core_repaired_ s) (events s)).

(** * Augmentation and recovery *)

Definition links_need_migration (c : option LinkClass) : bool :=
  match c with Some LinkCanonical | None => false | Some _ => true end.

Definition augment_documents (stem : str) : M A :=
  result <- in_world (s_augment_region stem);;
  match wikipedia_documents_path result with
  | None => ret result
  | Some _ =>
      links <- in_world (plan_link_migration stem);;
      (if links_need_migration links then in_world (apply_link_migration stem) else ret tt);;
      in_world (s_load_existing_augmentation stem)
  end.

Definition audit_augmentation (stem : str) (result : A) : M A :=
  region <- in_world (audit_region_plan stem);;
  if negb (requires_repair region) then ret result
  else
    repair <- in_world (repair_wikidata_region stem region);;
    if negb repair.1 then ret result
    else
      mark_recovered stem repair.2;;
      in_world (s_load_existing_augmentation stem).

Definition augment (state : RegionSyncState) : M A :=
  result <- augment_documents (state_stem state);;
  audit_augmentation (state_stem state) result.

Definition load_existing (state : RegionSyncState) : M A := in_world (s_load_existing_augmentation (state_stem state)).

Definition migrate_links_if_needed (stem : str) : M bool :=
  current <- in_world (plan_link_migration stem);;
  match current with
  | None | Some LinkCanonical => ret false
  | Some (LinkBlocked reason) =>
      throw (exc CRuntimeError
        [FStr (u "Unified polygon-document link migration is blocked for " ++ stem ++ u ": " ++ reason)])
  | Some LinkMigratable => in_world (apply_link_migration stem);; ret true
  end.

Definition recover_healthy (state : RegionSyncState) (plan : RegionAudit K) : M (option A) :=
  let stem := state_stem state in
  migrated <- migrate_links_if_needed stem;;
  if migrated : bool then
    set_classifications stem (audit_classifications plan);;
    mark_recovered stem false;;
    if push_enabled context then r <- load_existing state;; ret (Some r) else ret None
  else if push_enabled context && bool_decide (stem ∈ context_pending_stems context)
  then r <- load_existing state;; ret (Some r)
  else ret None.

Definition recover_repair (state : RegionSyncState) (plan : RegionAudit K) : M (option A) :=
  repair <- in_world (repair_wikidata_region (state_stem state) plan);;
  if negb repair.1 then recover_healthy state plan
  else
    mark_recovered (state_stem state) repair.2;;
    _ <- migrate_links_if_needed (state_stem state);;
    r <- load_existing state;; ret (Some r).

Definition recover (state : RegionSyncState) : M (option A) :=
  plan <- in_world (audit_region_plan (state_stem state));;
  if requires_repair plan then recover_repair state plan else recover_healthy state plan.

(** * Publication of a region *)

Definition prepare_publication (state : RegionSyncState) (result : A) : M unit :=
  match wikipedia_documents_path result with
  | None => ret tt
  | Some _ =>
      in_world (s_prepare_local_retirement (state_stem state));;
      in_world (on_disk (add_pending_publications temporary_middle data_root {[state_stem state]}));;
      classifications <- gets (fun s => dget (state_stem state) (recovery_classifications s));;
      match classifications with
      | Some k => in_world (record_region_recovery_receipt (state_stem state) k)
      | None => ret tt
      end
  end.

Definition submit_region (ops : list PublicationOp) (message : str) : M unit :=
  if negb (has_queue context) then ret tt
  else
    in_world (queue_submit ops message);;
    app_log (SSubmitted message);;
    set_submitted true.

(** [_record_deferred_metadata] of the application, which records nothing in a dry run. *)
Definition record_region_metadata (stem : str) : M unit :=
  if sync_dry_run context then ret tt
  else fun s =>
    let '(o, (fs, deferred)) :=
      record_deferred_metadata temporary_middle data_root stem (disk (app_world s), deferred_metadata_stems s) in
    let marked := match o with Ok _ => is_file (polygons_path data_root stem) (tree (disk (app_world s))) | Raise _ => false end in
    (o, mkApp (with_disk fs (app_world s)) (recovered_stems s) (recovery_map_refresh_stems s) (recovery_classifications s)
          (region_publication_submitted s) (metadata_repair_requested s) deferred (will_be_repaired s) (core_repaired_ s)
          (if marked then events s ++ [SDeferred stem] else events s)).

Definition needs_existing_core (stem : str) : M bool :=
  recovered <- gets recovered_stems;;
  ret (if bool_decide (stem ∈ recovered) then true
       else match context_plan context with
            | Some plan => push_enabled context &&
                (bool_decide ((stem, u "polygons") ∈ missing plan) || bool_decide ((stem, u "polygon_articles") ∈ missing plan))
            | None => false
            end).

Definition ensure_publication_core (stem : str) (core : option C) : M (option C) :=
  core <- match core with
          | Some c => ret (Some c)
          | None =>
              needed <- needs_existing_core stem;;
              if needed : bool then c <- in_world (load_existing_core_for_publication stem);; ret (Some c) else ret None
          end;;
  recovered <- gets recovered_stems;;
  (if bool_decide (stem ∈ recovered) && is_none core
   then throw (exc CRuntimeError
     [FStr (u "Recovered region "); FRepr (VStr stem); FStr (u " has no core publication artifacts")])
   else ret tt);;
  ret core.

Definition refresh_maps (state : RegionSyncState) : M bool :=
  map_stems <- gets recovery_map_refresh_stems;;
  ret (if bool_decide (state_action state = RECOVERY) then bool_decide (state_stem state ∈ map_stems) else true).

Definition build_region_publication (state : RegionSyncState) (augmentation : A) (core : option C)
    : M (list PublicationOp) :=
  core <- ensure_publication_core (state_stem state) core;;
  record_region_metadata (state_stem state);;
  maps <- refresh_maps state;;
  in_world (assemble_region_upload (state_stem state) augmentation core maps).

(** * The run *)

Definition runner_callbacks : Collaborators App A C E PublicationOp := {|
  SyncRunner.extract_pbf := s_extract_pbf;
  SyncRunner.process_extracted_pbf := fun e => in_world (s_process_extracted_pbf e);
  augment_region := augment;
  uploads := {|
    build_upload_files := if push_enabled context
      then Some (match publish_builder with Some build => fun state a c => in_world (build state a c) | None => build_region_publication end)
      else None;
    commit_message := Some (fun state => ret (s_commit_message state));
    submit_upload := if push_enabled context then Some submit_region else None;
    close_uploads := None |};
  on_complete := Some prepare_publication;
  load_existing_augmentation := Some load_existing;
  recover_region := Some recover |}.

Definition metadata_repair_needed (rc : Z) (will_be_repaired : bool) : bool :=
  (rc =? 0) && push_enabled context &&
  match context_plan context with Some plan => negb (bool_decide (length (repository_refresh plan) = 0%nat)) | None => false end &&
  negb (will_be_repaired || containment_enqueued context).

Definition request_metadata_repair (rc : Z) : M unit :=
  repaired <- gets will_be_repaired;;
  if negb (push_enabled context) || negb (metadata_repair_needed rc repaired) then ret tt else request_repair.

(** [run_sync] on the application as its world. *)
Definition run_planned : M Z := fun s =>
  let '(o, r) := run_sync runner_callbacks (planned_states context) (mkRun s [] []) in (o, SyncRunner.world r).

Definition execute_plan : M Z :=
  rc <- run_planned;;
  recovered <- gets recovered_stems;;
  before <- gets will_be_repaired;;
  set_will_be_repaired (before || negb (bool_decide (recovered = ∅)));;
  request_metadata_repair rc;;
  ret rc.

Definition drain_queue (aborted : bool) : PyM W (list pymsg) :=
  if negb aborted then queue_close_and_wait
  else
    cancel_pending_retries;;
    finally queue_close_and_wait reset_retry_cancellation.

Definition close_uploads_ (aborted : bool) : M (list pymsg) :=
  if negb (has_queue context) then ret []
  else
    failures <- in_world (drain_queue aborted);;
    app_log (SDrained failures);;
    ret failures.

Definition run_with_cleanup : M (Z * list pymsg) := fun s =>
  let '(r, s1) := execute_plan s in
  let aborted := match r with Ok _ => false | Raise _ => true end in
  let '(c, s2) := close_uploads_ aborted s1 in
  match r, c with
  | Ok rc, Ok failures => (Ok (if bool_decide (length failures = 0%nat) then rc else 1, failures), s2)
  | Raise e, Ok _ => (Raise e, s2)
  | _, Raise e => (Raise e, s2)
  end.

Definition upload_final_metadata : M unit :=
  ops <- in_world s_assemble_metadata_only_upload;;
  if negb (has_queue context) then throw (exc CRuntimeError (msg "Metadata refresh requires an upload queue"))
  else in_world (queue_upload_synchronously ops (u "Repair remote repository metadata and maps"));; app_log SRefreshed.

Definition clear_metadata_refresh_state (marker : option pydict) : M unit :=
  (if negb (is_none marker) && negb (sync_dry_run context)
   then in_world (on_disk (clear_metadata_refresh_marker temporary_middle data_root)) else ret tt);;
  set_submitted false.

Definition refresh_metadata_marker : M bool :=
  if negb (push_enabled context) then ret false
  else
    marker <- (fun s => (load_metadata_refresh_marker data_root (tree (disk (app_world s))), s));;
    requested <- gets metadata_repair_requested;;
    submitted <- gets region_publication_submitted;;
    if negb requested && negb (negb (is_none marker) || submitted) then ret false
    else
      upload_final_metadata;;
      clear_metadata_refresh_state marker;;
      ret true.

Definition finish (rc : Z) (failures : list pymsg) (metadata_repaired_ : bool) : M SyncResult :=
  (if (rc =? 0) && bool_decide (length failures = 0%nat) && push_enabled context
   then recovered <- gets recovered_stems;;
        before <- gets core_repaired_;;
        set_core_repaired (before || negb (bool_decide (recovered = ∅)))
   else ret tt);;
  will <- gets will_be_repaired;;
  repaired <- gets core_repaired_;;
  ret {| return_code := if (rc =? 0) && bool_decide (length failures = 0%nat) then rc else if rc =? 0 then 1 else rc;
         result_will_be_repaired := will; result_core_repaired := repaired; metadata_repaired := metadata_repaired_ |}.

Definition run : M SyncResult :=
  outcome <- run_with_cleanup;;
  repaired <- (if (outcome.1 =? 0) && bool_decide (length outcome.2 = 0%nat) then refresh_metadata_marker else ret false);;
  finish outcome.1 outcome.2 repaired.

Definition start_app (w : W) : App := mkApp w ∅ ∅ [] false false [] (initially_repaired context) false [].

End SyncApplication.
