(* ===== verification/SyncApplicationProofs.v ===== *)
(** What a synchronization guarantees about the metadata it defers, and what its result means. *)
From stdpp Require Import gmap sorting.
From S2P Require Import Prelude Py PyStr Triples Fs Artifacts Atomic Pending PendingProofs DeferredMetadata UploadState Reconciliation SyncPlan SyncRunner SyncRunnerProofs CorePublication CorePublicationProofs SyncApplication.

(** The promises of the services to the application: what is owed is none of their business. *)
Section Laws.
Context {RT : Runtime} {FF : FileFormats}.
Context {W A C E K : Type} `{!HasDisk W} `{!SyncServices W A C E K}.
Variable data_root : path.
Variable world_ok : W -> Prop.
Abbreviation keeps_owed := (keeps_owed data_root world_ok).

Class ServicesKeepOwed : Prop := {
  l_process : forall e, keeps_owed (s_process_extracted_pbf (A := A) (C := C) (E := E) (K := K) e);
  l_augment : forall stem, keeps_owed (s_augment_region (A := A) (C := C) (E := E) (K := K) stem);
  l_existing : forall stem, keeps_owed (s_load_existing_augmentation (A := A) (C := C) (E := E) (K := K) stem);
  l_links : forall stem, keeps_owed (plan_link_migration (A := A) (C := C) (E := E) (K := K) stem);
  l_migrate : forall stem, keeps_owed (apply_link_migration (A := A) (C := C) (E := E) (K := K) stem);
  l_audit : forall stem, keeps_owed (audit_region_plan (A := A) (C := C) (E := E) (K := K) stem);
  l_repair : forall stem plan, keeps_owed (repair_wikidata_region (A := A) (C := C) (E := E) (K := K) stem plan);
  l_retire : forall stem, keeps_owed (s_prepare_local_retirement (A := A) (C := C) (E := E) (K := K) stem);
  l_receipt : forall stem k, keeps_owed (record_region_recovery_receipt (A := A) (C := C) (E := E) (K := K) stem k);
  l_assemble : forall stem a c b, keeps_owed (assemble_region_upload (A := A) (C := C) (E := E) (K := K) stem a c b);
  l_metadata : keeps_owed (s_assemble_metadata_only_upload (A := A) (C := C) (E := E) (K := K));
  l_core : forall stem, keeps_owed (load_existing_core_for_publication (A := A) (C := C) (E := E) (K := K) stem);
  l_cancel : keeps_owed (cancel_pending_retries (A := A) (C := C) (E := E) (K := K));
  l_reset : keeps_owed (reset_retry_cancellation (A := A) (C := C) (E := E) (K := K)) }.
End Laws.

Section SyncApplicationProofs.
Context {RT : Runtime} {FF : FileFormats}.
Context {W A C E K : Type} `{!HasDisk W} `{!PublicationQueue W} `{!SyncServices W A C E K}.
Variable temporary_middle : gmap path node -> path -> str.
Variable data_root : path.
Variable context : SyncContext.
Variable publish_builder : option (RegionSyncState -> A -> option C -> PyM W (list PublicationOp)).
Hypothesis temporary_is_fresh : forall t p, t !! temporary_name temporary_middle p t = None.
Variable world_ok : W -> Prop.
Context `{!QueueKeepsOwed data_root world_ok} `{!ServicesKeepOwed (A := A) (C := C) (E := E) (K := K) data_root world_ok}.
Abbreviation holds := (holds data_root world_ok).
Abbreviation keeps_owed := (keeps_owed data_root world_ok).
Abbreviation App := (SyncApp W K).
Abbreviation run := (SyncApplication.run temporary_middle data_root context publish_builder).
Abbreviation run_planned := (SyncApplication.run_planned temporary_middle data_root context publish_builder).
Abbreviation callbacks := (runner_callbacks temporary_middle data_root context publish_builder).
Implicit Types (s : App) (m : gmap str str).

(** * Invariants *)

(** What holds at every moment before the final refresh: [m] is owed, and it covers what was owed
    at the start and what the run has deferred. *)
Record recalls (m0 m : gmap str str) s : Prop := {
  a_owes : holds (app_world s) m;
  a_start : dom m0 ⊆ dom m;
  a_deferred : forall stem, SDeferred stem ∈ events s -> stem ∈ dom m;
  a_no_refresh : SRefreshed ∉ events s;
  a_dry : sync_dry_run context = true -> m = m0 }.

Definition working m0 s : Prop := exists m, recalls m0 m s /\ tracks data_root (disk (app_world s), deferred_metadata_stems s) m.
Definition aborted m0 s : Prop := exists m, recalls m0 m s.

(** A computation of the run keeps this, and ends in the weaker invariant when it raises. *)
Definition works {B} (c : PyM App B) : Prop := forall m0, triple (working m0) (aborted m0) c.

Lemma working_aborted m0 s : working m0 s -> aborted m0 s.
Proof. intros (m & H & _). by exists m. Qed.

Lemma works_pure {B} (c : PyM App B) : (forall s, (c s).2 = s) -> works c.
Proof. intros H m0. by apply triple_pure; [apply working_aborted|]. Qed.
Lemma works_ret {B} (b : B) : works (ret b).
Proof. by apply works_pure. Qed.
Lemma works_throw {B} e : works (throw e : PyM App B).
Proof. by apply works_pure. Qed.
Lemma works_gets {B} (f : App -> B) : works (gets f).
Proof. by apply works_pure. Qed.
Lemma works_lift {B} (o : outcome B) : works (lift o).
Proof. by apply works_pure. Qed.
Lemma works_bind {B D} (c : PyM App B) (f : B -> PyM App D) : works c -> (forall b, works (f b)) -> works (pbind c f).
Proof. intros Hc Hf m0. apply triple_bind; [apply Hc|intros; apply Hf]. Qed.

(** A step that only touches the fields of the application that are not about metadata. *)
Lemma works_modify (f : App -> App) :
  (forall s, app_world (f s) = app_world s /\ deferred_metadata_stems (f s) = deferred_metadata_stems s /\
    (events (f s) = events s \/ exists message, events (f s) = events s ++ [SSubmitted message])) ->
  works (modify f).
Proof.
  intros Hf m0. apply triple_modify. intros s (m & [H1 H2 H3 H4 H5] & Ht). destruct (Hf s) as (Ew & Ed & He).
  exists m. rewrite Ew, Ed. split; [|done]. split; rewrite ?Ew; try done.
  - intros stem Hs. apply H3. destruct He as [He|[message He]]; rewrite He in Hs; [done|].
    apply elem_of_app in Hs as [?|Hs]; [done|]. by apply list_elem_of_singleton in Hs.
  - intros Hs. apply H4. destruct He as [He|[message He]]; rewrite He in Hs; [done|].
    apply elem_of_app in Hs as [?|Hs]; [done|]. by apply list_elem_of_singleton in Hs.
Qed.

Lemma recalls_world m0 m s w : holds w m -> recalls m0 m s ->
  recalls m0 m (mkApp w (recovered_stems s) (recovery_map_refresh_stems s) (recovery_classifications s)
    (region_publication_submitted s) (metadata_repair_requested s) (deferred_metadata_stems s) (will_be_repaired s)
    (core_repaired_ s) (events s)).
Proof. intros Hw [H1 H2 H3 H4 H5]. by split. Qed.

Lemma works_world {B} (c : PyM W B) : keeps_owed c -> works (in_world c).
Proof.
  intros Hc m0 s o s' (m & Hr & T1 & T2 & T3). unfold in_world. destruct (c (app_world s)) as [o' w] eqn:Ec. intros [= <- <-].
  pose proof (Hc _ _ _ _ Ec (a_owes _ _ _ Hr)) as Hw. apply (recalls_world _ _ _ w Hw) in Hr.
  destruct o'; exists m; [split; [done|]; split_and!; [apply Hw|done..]|done].
Qed.

Lemma keeps_pending stems : keeps_owed (on_disk (add_pending_publications temporary_middle data_root stems)).
Proof.
  intros w o w' m E0 [Hok (i & Hi & Hm)]. apply owes_on_disk in E0 as (fs & E0 & ->).
  pose proof (turns_request temporary_middle data_root temporary_is_fresh (AddPending stems) i _ _ _ Hi E0) as Hi'.
  apply (holds_with_disk data_root world_ok fs w m m); [split; [done|by exists i]|].
  eexists. split; [exact Hi'|]. by destruct o.
Qed.

(** Decomposes a computation of the application into its steps. *)
Ltac works_step :=
  lazymatch goal with
  | |- works (ret _) => apply works_ret
  | |- works (throw _) => apply works_throw
  | |- works (gets _) => apply works_gets
  | |- works (lift _) => apply works_lift
  | |- works (pbind _ _) => apply works_bind; [|intros ?]
  | |- works (modify _) => apply works_modify; intros ?; split_and!; [done..|by eauto]
  | |- works (in_world _) => apply works_world; first [done | apply keeps_pending | apply (k_submit data_root world_ok)
       | apply (l_process data_root world_ok) | apply (l_augment data_root world_ok) | apply (l_existing data_root world_ok)
       | apply (l_links data_root world_ok) | apply (l_migrate data_root world_ok) | apply (l_audit data_root world_ok)
       | apply (l_repair data_root world_ok) | apply (l_retire data_root world_ok) | apply (l_receipt data_root world_ok)
       | apply (l_assemble data_root world_ok) | apply (l_metadata data_root world_ok) | apply (l_core data_root world_ok) ]
  | |- works (match ?x with _ => _ end) => destruct x
  end.
Ltac works_steps := repeat works_step.

Lemma works_mark_recovered stem b : works (mark_recovered stem b).
Proof. unfold mark_recovered. works_steps. Qed.

Lemma works_augment state : works (augment state).
Proof.
  unfold augment, augment_documents, audit_augmentation. works_steps. apply works_mark_recovered.
Qed.

Lemma works_migrate stem : works (migrate_links_if_needed stem).
Proof. unfold migrate_links_if_needed. works_steps. Qed.

Lemma works_healthy state plan : works (recover_healthy context state plan).
Proof.
  unfold recover_healthy, load_existing, set_classifications. works_steps; first [apply works_migrate|apply works_mark_recovered].
Qed.

Lemma works_recover state : works (recover context state).
Proof.
  unfold recover, recover_repair, load_existing.
  works_steps; first [apply works_healthy|apply works_migrate|apply works_mark_recovered].
Qed.

Lemma works_record stem : works (record_region_metadata temporary_middle data_root context stem).
Proof.
  unfold record_region_metadata. destruct (sync_dry_run context) eqn:Hd; [works_steps|].
  intros m0 s o s' (m & [H1 H2 H3 H4 H5] & Ht).
  destruct (record_deferred_metadata _ _ _ _) as [o' [fs deferred]] eqn:Er.
  pose proof (record_deferred_metadata_owes _ _ temporary_is_fresh _ _ _ _ _ Ht Er) as Hr. clear Er. intros [= <- <-].
  destruct o' as [[]|e]; simpl in *.
  2:{ exists m. split; simpl; try done. by eapply (holds_with_disk data_root world_ok). }
  destruct (is_file _ _).
  - destruct Hr as (h & _ & Ht'). exists (<[stem := h]> m). simpl. rewrite disk_with_disk. split; [|done]. split; simpl.
    + eapply (holds_with_disk data_root world_ok); [exact H1|apply Ht'].
    + set_solver.
    + intros x [Hx|Hx%list_elem_of_singleton]%elem_of_app; [apply H3 in Hx; set_solver|]. injection Hx as ->. set_solver.
    + intros [?|Hx%list_elem_of_singleton]%elem_of_app; done.
    + congruence.
  - simplify_eq. exists m. simpl. rewrite disk_with_disk. split; [|done]. split; simpl; try done.
    eapply (holds_with_disk data_root world_ok); [exact H1|apply Ht].
Qed.

Lemma works_build state a c : works (build_region_publication temporary_middle data_root context state a c).
Proof.
  unfold build_region_publication, ensure_publication_core, needs_existing_core, refresh_maps. works_steps. apply works_record.
Qed.

(** A builder that is given instead leaves what is owed as it is, too. *)
Hypothesis builder_keeps : forall build state a c, publish_builder = Some build -> keeps_owed (build state a c).

Lemma works_prepare state a : works (prepare_publication temporary_middle data_root state a).
Proof. unfold prepare_publication. works_steps. Qed.

Lemma works_submit ops message : works (submit_region context ops message).
Proof. unfold submit_region, app_log, set_submitted. works_steps. Qed.

Lemma works_complete state a c : works (complete_state callbacks state a c).
Proof.
  unfold complete_state, maybe_submit. apply works_bind; [apply works_prepare|intros _]. simpl.
  destruct (push_enabled context); [|works_steps].
  apply works_bind; [|intros ops; works_steps; apply works_submit].
  destruct publish_builder as [build|] eqn:Eb; [|apply works_build]. apply works_world. by apply builder_keeps.
Qed.

Lemma works_perform state : works (perform callbacks state).
Proof.
  unfold perform. simpl. unfold load_existing.
  works_steps; first [apply works_recover|apply works_augment|apply works_complete].
Qed.

(** The runner closes nothing itself: a run of the plan is its regions in the order of the phases. *)
Lemma run_planned_reference s :
  run_planned s = match for_each (perform callbacks) (in_phase_order (planned_states context)) s with
                  | (Ok _, s') => (Ok 0, s')
                  | (Raise e, s') => (Raise e, s')
                  end.
Proof.
  unfold SyncApplication.run_planned, run_sync.
  destruct (run_phases_reference callbacks (planned_states context) (mkRun s [] []) eq_refl eq_refl) as (H1 & H2 & _).
  cbn [SyncRunner.world] in *. destruct (run_phases callbacks _ _) as [o r], (for_each _ _ s) as [o' s'].
  simpl in H1, H2. subst o' s'. by destruct o as [[]|e].
Qed.

Lemma works_planned : works run_planned.
Proof.
  intros m0 s o s' Hs. rewrite run_planned_reference. destruct (for_each _ _ s) as [o' s1] eqn:Ef.
  pose proof (triple_for_each (working m0) (aborted m0) (working_aborted m0) _ _ (fun state => works_perform state m0) s o' s1 Hs Ef) as H.
  destruct o'; intros [= <- <-]; done.
Qed.

(** * The end of the run *)

Lemma works_execute : works (execute_plan temporary_middle data_root context publish_builder).
Proof.
  unfold execute_plan, set_will_be_repaired, request_metadata_repair, request_repair. works_steps. apply works_planned.
Qed.

Lemma execute_code s rc s' : execute_plan temporary_middle data_root context publish_builder s = (Ok rc, s') -> rc = 0.
Proof.
  unfold execute_plan. unfold pbind at 1. rewrite run_planned_reference. destruct (for_each _ _ s) as [[[]|e] s1]; [|done].
  unfold request_metadata_repair, set_will_be_repaired, request_repair, pbind, gets, modify, ret.
  destruct (negb _ || negb _); by intros [= <- _].
Qed.

Lemma keeps_drain b : keeps_owed (drain_queue (A := A) (C := C) (E := E) (K := K) b).
Proof.
  intros w o w' m. unfold drain_queue. destruct b; simpl; [|apply (k_close data_root world_ok)]. unfold pbind, finally. intros H Hm.
  destruct (cancel_pending_retries w) as [[[]|e] w1] eqn:E1; pose proof (l_cancel data_root world_ok _ _ _ _ E1 Hm) as H1; [|by simplify_eq].
  destruct (queue_close_and_wait w1) as [o2 w2] eqn:E2. pose proof (k_close data_root world_ok _ _ _ _ E2 H1) as H2.
  destruct (reset_retry_cancellation w2) as [o3 w3] eqn:E3. pose proof (l_reset data_root world_ok _ _ _ _ E3 H2) as H3.
  by destruct o2, o3 as [[]|]; simplify_eq.
Qed.

(** Closing the queue: what is recalled stays, and the application learns of every failure. *)
Lemma close_recalls m0 m b s o s' :
  recalls m0 m s -> close_uploads_ (A := A) (C := C) (E := E) context b s = (o, s') ->
  recalls m0 m s' /\
  match o with
  | Ok failures => events s' = events s ++ (if has_queue context then [SDrained failures] else []) /\
                   (has_queue context = false -> failures = [])
  | Raise _ => events s' = events s
  end.
Proof.
  intros Hr. unfold close_uploads_. destruct (has_queue context); simpl; [|intros [= <- <-]; by rewrite app_nil_r].
  unfold pbind, in_world, app_log, modify, ret. destruct (drain_queue b (app_world s)) as [o1 w1] eqn:E1.
  pose proof (keeps_drain b _ _ _ _ E1 (a_owes _ _ _ Hr)) as Hw. pose proof (recalls_world _ _ _ _ Hw Hr) as [I1 I2 I3 I4 I5].
  destruct o1 as [failures|e]; intros [= <- <-]; [|split; [|done]; by split].
  split; [|done]. split; simpl in *; try done.
  - intros x [?|Hx%list_elem_of_singleton]%elem_of_app; [auto|done].
  - intros [?|Hx%list_elem_of_singleton]%elem_of_app; done.
Qed.

(** How the execution and the draining end. *)
Lemma cleanup_outcome m0 s o s' :
  working m0 s -> run_with_cleanup temporary_middle data_root context publish_builder s = (o, s') ->
  exists m, recalls m0 m s' /\
  forall r, o = Ok r -> (r.1 = 0 <-> r.2 = []) /\ (r.1 = 0 \/ r.1 = 1) /\
    exists before, events s' = before ++ (if has_queue context then [SDrained r.2] else []).
Proof.
  intros Hs. unfold run_with_cleanup. destruct (execute_plan _ _ _ _ s) as [r s1] eqn:Ee.
  pose proof (works_execute m0 s r s1 Hs Ee) as H1.
  assert (H1' : aborted m0 s1) by (destruct r; [by apply working_aborted|done]). destruct H1' as [m Hm].
  destruct (close_uploads_ _ _ s1) as [c s2] eqn:Ec. destruct (close_recalls _ _ _ _ _ _ Hm Ec) as [H2 He].
  destruct r as [rc|e], c as [failures|e']; intros [= <- <-]; exists m; (split; [done|]); try done.
  apply execute_code in Ee as ->. intros r [= <-]. simpl. destruct He as [He Hq].
  destruct failures; simpl; split_and!; eauto; done.
Qed.

Lemma cleanup_planned s r s' :
  run_with_cleanup temporary_middle data_root context publish_builder s = (Ok r, s') -> exists s1, run_planned s = (Ok 0, s1).
Proof.
  unfold run_with_cleanup, execute_plan. unfold pbind at 1. rewrite run_planned_reference.
  destruct (for_each _ _ s) as [[[]|e] s1]; [by eauto|]. by destruct (close_uploads_ _ _ s1) as [[?|?] ?].
Qed.

(** * The final refresh *)

(** The metadata was assembled and its upload returned. *)
Definition uploads_metadata (w : W) (ops : list PublicationOp) (w1 w2 : W) : Prop :=
  s_assemble_metadata_only_upload (A := A) (C := C) (E := E) (K := K) w = (Ok ops, w1) /\
  queue_upload_synchronously ops (u "Repair remote repository metadata and maps") w1 = (Ok tt, w2).

(** The refresh was published: what was owed is forgotten unless the run is dry or the removal of
    the record fails. *)
Record settled m s s' (returned : bool) : Prop := {
  e_events : events s' = events s ++ [SRefreshed];
  e_queue : has_queue context = true;
  e_push : push_enabled context = true;
  e_owes : exists m', holds (app_world s') m' /\ (sync_dry_run context = true -> m' = m) /\
    (sync_dry_run context = false -> returned = true -> m' = ∅);
  e_sent : exists ops w1 w2, uploads_metadata (app_world s) ops w1 w2 /\
    (sync_dry_run context = false -> returned = true -> m ≠ ∅ ->
     on_disk (clear_metadata_refresh_marker temporary_middle data_root) w2 = (Ok tt, app_world s')) }.

Lemma upload_outcome m0 m s o s' :
  recalls m0 m s -> upload_final_metadata (A := A) (C := C) (E := E) context s = (o, s') ->
  match o with
  | Raise _ => recalls m0 m s' /\ events s' = events s
  | Ok _ => has_queue context = true /\ events s' = events s ++ [SRefreshed] /\ holds (app_world s') m /\
            exists ops w1, uploads_metadata (app_world s) ops w1 (app_world s')
  end.
Proof.
  intros Hr. unfold upload_final_metadata. unfold pbind at 1, in_world at 1.
  destruct (s_assemble_metadata_only_upload (app_world s)) as [[ops|e] w1] eqn:E1;
    pose proof (l_metadata data_root world_ok _ _ _ _ E1 (a_owes _ _ _ Hr)) as H1; [|intros [= <- <-]; split; [by apply recalls_world|done]].
  destruct (has_queue context); simpl; [|intros [= <- <-]; split; [by apply recalls_world|done]].
  unfold pbind, in_world, app_log, modify. simpl.
  destruct (queue_upload_synchronously ops _ w1) as [[[]|e] w2] eqn:E2;
    pose proof (k_synchronous data_root world_ok _ _ _ _ _ _ E2 H1) as H2; intros [= <- <-];
    [split_and!; [done..|by exists ops, w1]|split; [by apply recalls_world|done]].
Qed.

(** Forgetting the marker, once the refresh was published. *)
Lemma clear_outcome marker m s o s' :
  holds (app_world s) m -> (marker = None -> m = ∅) ->
  clear_metadata_refresh_state temporary_middle data_root context marker s = (o, s') ->
  events s' = events s /\
  exists m', holds (app_world s') m' /\ (sync_dry_run context = true -> m' = m) /\
    (sync_dry_run context = false -> returns_ o = true -> m' = ∅) /\
    (sync_dry_run context = false -> returns_ o = true -> m ≠ ∅ ->
     on_disk (clear_metadata_refresh_marker temporary_middle data_root) (app_world s) = (Ok tt, app_world s')).
Proof.
  intros Ho Hm. unfold clear_metadata_refresh_state, set_submitted, pbind, modify, in_world, ret.
  destruct (sync_dry_run context); [rewrite andb_false_r; intros [= <- <-]; split; [done|by exists m]|].
  destruct marker as [marker|]; simpl; [|intros [= <- <-]; rewrite Hm in * by done; split; [done|by exists ∅]].
  destruct (on_disk _ (app_world s)) as [r w] eqn:Ec. apply owes_on_disk in Ec as (fs & Ec & ->).
  pose proof (clear_marker_owes _ _ temporary_is_fresh _ _ _ _ (proj2 Ho) Ec) as Hc.
  apply (holds_with_disk data_root world_ok _ _ _ _ Ho) in Hc.
  destruct r as [[]|e]; intros [= <- <-]; (split; [done|]); by eexists.
Qed.

Lemma refresh_settles m0 m s o s' :
  recalls m0 m s -> refresh_metadata_marker (A := A) (C := C) (E := E) temporary_middle data_root context s = (o, s') ->
  recalls m0 m s' /\ events s' = events s /\
    (forall b, o = Ok b -> b = false /\ (push_enabled context = true -> m = ∅)) \/
  settled m s s' (returns_ o) /\ (forall b, o = Ok b -> b = true).
Proof.
  intros Hr. unfold refresh_metadata_marker. destruct (push_enabled context) eqn:Hp; simpl; [|intros [= <- <-]; left; split_and!; naive_solver].
  destruct (load_marker_owed data_root _ _ (proj2 (a_owes _ _ _ Hr))) as (marker & Hl & Hm).
  assert (Hnone : marker = None -> m = ∅) by naive_solver.
  unfold pbind at 1. rewrite Hl. unfold pbind at 1, gets at 1, pbind at 1, gets at 1.
  destruct (negb (metadata_repair_requested s) && _) eqn:Hc.
  - intros [= <- <-]. left. split_and!; [done..|]. intros b [= <-]. split; [done|]. intros _. apply Hnone.
    apply andb_true_iff in Hc as [_ Hc]. apply negb_true_iff, orb_false_iff in Hc as [H1 _]. by destruct marker.
  - unfold pbind at 1. destruct (upload_final_metadata _ s) as [[[]|e] s1] eqn:Eu; pose proof (upload_outcome _ _ _ _ _ Hr Eu) as Hu;
      [|intros [= <- <-]; left; destruct Hu; by split_and!].
    destruct Hu as (Hq & He & Ho & ops & w1 & Hsent). unfold pbind at 1. destruct (clear_metadata_refresh_state _ _ _ marker s1) as [rc s2] eqn:Ec.
    destruct (clear_outcome _ _ _ _ _ Ho Hnone Ec) as (He2 & m' & Hm2 & Hdry & Hgone & Hclear).
    intros H. assert (s' = s2 /\ returns_ o = returns_ rc /\ forall b, o = Ok b -> b = true) as (-> & Hro & Hb)
      by (destruct rc; unfold ret in H; simplify_eq; naive_solver).
    right. split; [|done]. rewrite Hro. split; [by rewrite He2|done..|by exists m'|by exists ops, w1, (app_world s1)].
Qed.

(** * The run *)

Lemma start_working w m0 : holds w m0 -> working m0 (start_app context w).
Proof.
  intros H. exists m0. split; [split|]; simpl; try done.
  - by intros stem ?%elem_of_nil.
  - by intros ?%elem_of_nil.
  - split_and!; [apply H|constructor|apply map_empty_subseteq].
Qed.

(** The result is assembled without touching the world. *)
Lemma finish_spec rc failures b s o s' :
  finish context rc failures b s = (o, s') ->
  app_world s' = app_world s /\ events s' = events s /\
  exists r, o = Ok r /\ metadata_repaired r = b /\
    return_code r = if (rc =? 0) && bool_decide (length failures = 0%nat) then rc else if rc =? 0 then 1 else rc.
Proof.
  unfold finish, pbind, gets, set_core_repaired, modify, ret. destruct (_ && push_enabled context); intros [= <- <-]; eauto 10.
Qed.

Definition drained s : Prop := exists before, events s = before ++ (if has_queue context then [SDrained []] else []).

(** Something is owed where there was a marker or something was deferred. *)
Lemma owed_nonempty m0 m s : recalls m0 m s -> m0 ≠ ∅ \/ (exists stem, SDeferred stem ∈ events s) -> m ≠ ∅.
Proof.
  intros Hm Ho ->. destruct Ho as [Hne|[stem Hs]].
  - apply Hne. pose proof (a_start _ _ _ Hm) as H. rewrite dom_empty_L in H. apply dom_empty_inv_L. set_solver.
  - apply (a_deferred _ _ _ Hm) in Hs. rewrite dom_empty_L in Hs. set_solver.
Qed.

(** A run ends without the final refresh, or with it as its last step. *)
Lemma sync_outcome w o s' m0 :
  holds w m0 -> run (start_app context w) = (o, s') ->
  exists s1 m, recalls m0 m s1 /\
   ((holds (app_world s') m /\ events s' = events s1 /\
     forall r, o = Ok r -> metadata_repaired r = false /\
       (return_code r = 1 \/ return_code r = 0 /\ drained s1 /\ (push_enabled context = true -> m = ∅))) \/
    (settled m s1 s' (returns_ o) /\ drained s1 /\ (exists s0, run_planned (start_app context w) = (Ok 0, s0)) /\
     forall r, o = Ok r -> metadata_repaired r = true /\ return_code r = 0)).
Proof.
  intros Ho%start_working. unfold SyncApplication.run. unfold pbind at 1.
  destruct (run_with_cleanup _ _ _ _ _) as [[[rc failures]|e] s1] eqn:Ec; destruct (cleanup_outcome _ _ _ _ Ho Ec) as (m & Hm & Hc);
    [|intros [= <- <-]; exists s1, m; split; [done|]; left; split_and!; [apply Hm|done..]].
  destruct (Hc _ eq_refl) as (Hrc & H01 & Hd). simpl in *. apply cleanup_planned in Ec as Hplan. clear Hc Ec. intros H. exists s1, m. split; [done|]. revert H.
  unfold pbind. simpl.
  assert ((rc =? 0) && bool_decide (length failures = 0%nat) = (rc =? 0)) as Hz.
  { destruct (Z.eqb_spec rc 0) as [E0|]; [|done]. apply Hrc in E0 as ->. done. }
  rewrite Hz. destruct (decide (rc = 0)) as [->|Hne].
  - assert (failures = []) as -> by by apply Hrc. change (0 =? 0) with true. cbv iota.
    destruct (refresh_metadata_marker _ _ _ s1) as [[b|e] s2] eqn:Er;
      destruct (refresh_settles _ _ _ _ _ Hm Er) as [(Hm2 & He2 & Hb)|[Hse Hb]].
    + intros H. apply finish_spec in H as (Hw & He & r & -> & Hr1 & Hr2). left. rewrite Hw, He.
      destruct (Hb _ eq_refl) as [-> Hn]. split_and!; [apply Hm2|done|]. intros r' [= <-]. split; [done|by right].
    + intros H. apply finish_spec in H as (Hw & He & r & -> & Hr1 & Hr2). right. split_and!; [|done..|].
      * destruct Hse as [E1 E2 E3 E4]. by split; rewrite ?Hw, ?He.
      * intros r' [= <-]. by rewrite Hr1, (Hb _ eq_refl).
    + intros [= <- <-]. left. split_and!; [apply Hm2|done..].
    + intros [= <- <-]. right. by split_and!.
  - rewrite (proj2 (Z.eqb_neq rc 0) Hne). intros H. apply finish_spec in H as (Hw & He & r & -> & Hr1 & Hr2).
    rewrite Hz, (proj2 (Z.eqb_neq rc 0) Hne) in Hr2. left. rewrite Hw, He. split_and!; [apply Hm|done|].
    intros r' [= <-]. split; [done|left]. destruct H01; congruence.
Qed.

(** The final refresh follows the uploads.  Whatever the collaborators return or raise, a run
    that published the repository-wide metadata was allowed to push and had a queue, no phase raised,
    and the queue was drained without a failure right before; it is the last thing the run did, and
    the run reports it exactly then. *)
Theorem final_refresh_follows_uploads w o s' m0 :
  holds w m0 -> run (start_app context w) = (o, s') ->
  (SRefreshed ∈ events s' ->
     push_enabled context = true /\ has_queue context = true /\
     (exists before, events s' = before ++ [SDrained []; SRefreshed] /\ SRefreshed ∉ before) /\
     exists w', run_planned (start_app context w) = (Ok 0, w')) /\
  forall r, o = Ok r -> (metadata_repaired r = true <-> SRefreshed ∈ events s').
Proof.
  intros Ho Hr. destruct (sync_outcome _ _ _ _ Ho Hr) as (s1 & m & Hm & [(Hh & He & H)|(Hs & [before Hd] & Hp & H)]).
  - pose proof (a_no_refresh _ _ _ Hm) as Hn. rewrite He. split; [done|]. intros r [Hf _]%H. by rewrite Hf.
  - destruct Hs as [E1 E2 E3 _]. rewrite E2 in Hd. split.
    + intros _. split_and!; [done..| |done]. exists before. split; [by rewrite E1, Hd, <- app_assoc|].
      intros Hin. apply (a_no_refresh _ _ _ Hm). rewrite Hd. apply elem_of_app. by left.
    + intros r [Hf _]%H. rewrite Hf, E1. split; [intros _|done]. apply elem_of_app. right. by left.
Qed.

(** What a synchronization owes is never forgotten.  At the end of every run, however it ends,
    the marker names every region it named at the start and every region the run deferred, unless
    the repository-wide metadata was published; a dry run leaves the marker exactly as it was. *)
Theorem sync_keeps_owed_metadata w o s' m0 :
  holds w m0 -> run (start_app context w) = (o, s') ->
  exists m', holds (app_world s') m' /\
    (SRefreshed ∉ events s' -> dom m0 ⊆ dom m' /\ forall stem, SDeferred stem ∈ events s' -> stem ∈ dom m') /\
    (sync_dry_run context = true -> m' = m0).
Proof.
  intros Ho Hr. destruct (sync_outcome _ _ _ _ Ho Hr) as (s1 & m & Hm & [(Hh & He & _)|(Hs & _)]).
  - exists m. rewrite He. split_and!; [done| |apply Hm]. intros _. split; apply Hm.
  - destruct (e_owes _ _ _ _ Hs) as (m' & Hm' & Hd & _). exists m'. split_and!; [done| |].
    + intros []. rewrite (e_events _ _ _ _ Hs). apply elem_of_app. right. by left.
    + intros Hdry. rewrite Hd by done. by apply Hm.
Qed.


(** ** A run with nothing to do *)

Lemma phase_order_complete l : Forall (fun state => state_action state = COMPLETE) l -> in_phase_order l = [].
Proof.
  intros H. unfold in_phase_order. rewrite !states_of_none; [done|..]; (eapply Forall_impl; [exact H|]); by intros ? ->.
Qed.

Lemma idle_cleanup w w1 :
  Forall (fun state => state_action state = COMPLETE) (planned_states context) -> has_queue context = true ->
  queue_close_and_wait w = (Ok [], w1) ->
  exists s1, run_with_cleanup temporary_middle data_root context publish_builder (start_app context w) = (Ok (0, []), s1) /\
    app_world s1 = w1 /\ events s1 = [SDrained []].
Proof.
  intros Hc Hq E1. unfold run_with_cleanup, execute_plan. unfold pbind at 1. rewrite run_planned_reference, phase_order_complete by done.
  simpl. unfold request_metadata_repair, set_will_be_repaired, request_repair, pbind, gets, modify, ret.
  destruct (negb _ || negb _); simpl; unfold close_uploads_, drain_queue, pbind, in_world, app_log, modify, ret; simpl;
    rewrite Hq; simpl; rewrite E1; simpl; by eexists.
Qed.

Lemma marker_refreshes m s ops w1 w2 o s' :
  holds (app_world s) m -> m ≠ ∅ -> push_enabled context = true -> has_queue context = true ->
  s_assemble_metadata_only_upload (A := A) (C := C) (E := E) (K := K) (app_world s) = (Ok ops, w1) ->
  queue_upload_synchronously ops (u "Repair remote repository metadata and maps") w1 = (Ok tt, w2) ->
  refresh_metadata_marker (A := A) (C := C) (E := E) temporary_middle data_root context s = (o, s') ->
  events s' = events s ++ [SRefreshed].
Proof.
  intros Ho Hne Hp Hq E1 E2. unfold refresh_metadata_marker. rewrite Hp. cbn [negb].
  destruct (load_marker_owed data_root _ _ (proj2 Ho)) as (marker & Hl & [[? _]|[_ ->]]); [done|].
  unfold pbind at 1. rewrite Hl. unfold pbind at 1, gets at 1, pbind at 1, gets at 1. simpl. rewrite andb_false_r.
  unfold pbind at 1, upload_final_metadata, pbind at 1, in_world at 1. rewrite E1, Hq. simpl.
  unfold pbind at 1, in_world at 1. simpl. rewrite E2. unfold app_log at 1, modify at 1. unfold pbind.
  match goal with |- context [clear_metadata_refresh_state _ _ _ _ ?x] => set (s2 := x) end.
  unfold clear_metadata_refresh_state, set_submitted, pbind, modify, in_world, ret. simpl.
  destruct (sync_dry_run context); simpl; [by intros [= _ <-]|].
  destruct (on_disk _ _) as [[[]|e] w3]; by intros [= _ <-].
Qed.

(** A marker alone makes the refresh due.  A run with nothing to do that finds a marker, drains
    its queue and can upload, publishes the repository-wide metadata - which describes the marked
    regions - and forgets the marker, although it has published none of those regions. *)
Theorem stranded_marker_licenses_refresh w m0 w1 ops w2 w3 :
  holds w m0 -> m0 ≠ ∅ -> push_enabled context = true -> has_queue context = true -> sync_dry_run context = false ->
  Forall (fun state => state_action state = COMPLETE) (planned_states context) ->
  queue_close_and_wait w = (Ok [], w1) -> s_assemble_metadata_only_upload (A := A) (C := C) (E := E) (K := K) w1 = (Ok ops, w2) ->
  queue_upload_synchronously ops (u "Repair remote repository metadata and maps") w2 = (Ok tt, w3) ->
  exists o s', run (start_app context w) = (o, s') /\ events s' = [SDrained []; SRefreshed] /\
    forall r, o = Ok r -> return_code r = 0 /\ holds (app_world s') ∅.
Proof.
  intros Ho Hne Hp Hq Hdry Hc E1 E2 E3. destruct (run (start_app context w)) as [o s'] eqn:Er. exists o, s'. split; [done|].
  assert (Hev : events s' = [SDrained []; SRefreshed]).
  { pose proof (k_close data_root world_ok _ _ _ _ E1 Ho) as Ho1. unfold SyncApplication.run in Er.
    destruct (idle_cleanup w w1 Hc Hq E1) as (s1 & Hs1 & <- & He1). unfold pbind at 1 in Er. rewrite Hs1 in Er.
    cbn [fst snd] in Er. change ((0 =? 0) && bool_decide (length (@nil pymsg) = 0%nat)) with true in Er.
    unfold pbind at 1 in Er. cbv iota in Er.
    destruct (refresh_metadata_marker _ _ _ s1) as [rb s2] eqn:Em.
    pose proof (marker_refreshes _ _ _ _ _ _ _ Ho1 Hne Hp Hq E2 E3 Em) as He2. rewrite He1 in He2.
    destruct rb as [b|e]; [|by simplify_eq]. apply finish_spec in Er as (_ & -> & _). done. }
  split; [done|]. intros r ->. destruct (sync_outcome _ _ _ _ Ho Er) as (s1 & m & Hm & [(Hh & He & H)|(Hs & _ & _ & H)]).
  - destruct (a_no_refresh _ _ _ Hm). rewrite <- He, Hev. right. by left.
  - split; [by apply H|]. destruct (e_owes _ _ _ _ Hs) as (m' & Hm' & _ & Hn). by rewrite <- (Hn Hdry eq_refl).
Qed.

End SyncApplicationProofs.
