(* ===== verification/SyncApplicationExamples.v ===== *)
(** Synchronizations over the background queue with the real preparation of a retirement: one that
    publishes a region and its metadata, one whose upload fails, and one that only finds a marker. *)
From Stdlib Require Import QArith.
From stdpp Require Import gmap.
From S2P Require Import Prelude Py PyStr Fs Artifacts Atomic Pending PendingProofs PendingThreads Reconciliation SyncPlan SyncRunner Retry UploadState UploadQueue UploadExamples UploadFrame DeferredMetadata Retirement RetirementProofs CorePublication CorePublicationProofs CoreQueue SyncApplication SyncApplicationProofs.

#[local] Existing Instance example_formats.
#[local] Existing Instance service_env.
#[local] Existing Instance service_site.
#[local] Existing Instance core_runtime.
#[local] Existing Instance core_disk.
#[local] Existing Instance core_background.
#[local] Existing Instance core_queue_keeps.

Abbreviation SyncWorld := (Queue Service).

(** A region's augmentation is the path of its documents; the tables are as they should be. *)
#[local] Instance sync_services : SyncServices SyncWorld (option path) str path unit := {|
  s_extract_pbf := Ok;
  s_process_extracted_pbf pbf := ret (path_name pbf);
  s_augment_region stem := ret (Some (canonical_path core_root stem));
  wikipedia_documents_path := id;
  s_load_existing_augmentation stem := ret (Some (canonical_path core_root stem));
  plan_link_migration _ := ret (Some LinkCanonical);
  apply_link_migration _ := ret tt;
  audit_region_plan _ := ret {| requires_repair := false; audit_classifications := tt |};
  repair_wikidata_region _ _ := ret (false, false);
  s_prepare_local_retirement stem := on_disk (prepare_local_retirement long_middle core_root (fun _ _ => Ok tt) stem);
  record_region_recovery_receipt _ _ := ret tt;
  assemble_region_upload stem _ _ _ :=
    ret [{| action := u "add"; path_in_repo := u "polygons/malta.parquet"; local_path := Some malta_polygons; snapshot_path := None |}];
  s_assemble_metadata_only_upload := ret [];
  load_existing_core_for_publication := ret;
  s_commit_message state := u "Sync complete region " ++ state_stem state;
  cancel_pending_retries := ret tt;
  reset_retry_cancellation := ret tt |}.

Lemma ret_keeps_owed {B} (b : B) : keeps_owed core_root core_ok (ret b : PyM SyncWorld B).
Proof. intros w o w' m [= <- <-] H. exact H. Qed.

(** The preparation of a retirement writes the two manifests only. *)
Lemma retirement_keeps_owed stem :
  keeps_owed core_root core_ok (on_disk (prepare_local_retirement long_middle core_root (fun _ _ => Ok tt) stem) : PyM SyncWorld unit).
Proof.
  intros w o w' m E [Hok Ho]. apply owes_on_disk in E as (fs & E & ->). apply (holds_with_disk core_root core_ok fs w m m); [by split|].
  apply (owes_same core_root (disk w)); [|exact Ho].
  refine (untouched_prepare long_middle core_root (fun _ _ => Ok tt) _ stem _ _ _ _ E).
  apply envelope_not_a_manifest.
Qed.

#[local] Instance sync_services_keep :
  ServicesKeepOwed (A := option path) (C := str) (E := path) (K := unit) core_root core_ok.
Proof. split; intros; first [apply retirement_keeps_owed|apply ret_keeps_owed]. Qed.

Definition sync_context (states : list RegionSyncState) : SyncContext := {|
  planned_states := states; push_enabled := true; sync_dry_run := false; has_queue := true;
  context_pending_stems := ∅; context_plan := None; containment_enqueued := false; initially_repaired := false |}.

Definition malta : RegionSyncState := {| state_stem := u "malta"; state_pbf := malta_pbf; state_action := PROCESS |}.

Definition sync_run (states : list RegionSyncState) (w : SyncWorld) :=
  run (C := str) (E := path) (K := unit) long_middle core_root (sync_context states) None (start_app (sync_context states) w).

Lemma no_builder : forall (build : RegionSyncState -> option path -> option str -> PyM SyncWorld (list PublicationOp))
  state a c, None = Some build -> keeps_owed core_root core_ok (build state a c).
Proof. discriminate. Qed.

(** The region is processed and uploaded, and then the metadata it deferred. *)
Lemma final_refresh_follows_uploads_witness :
  let s' := (sync_run [malta] (core_queue [])).2 in
  SRefreshed ∈ events s' /\ exists before, events s' = before ++ [SDrained []; SRefreshed] /\ SRefreshed ∉ before.
Proof.
  intros s'. assert (Hin : SRefreshed ∈ events s').
  { replace (events s') with [SDeferred (u "malta"); SSubmitted (u "Sync complete region malta"); SDrained []; SRefreshed]
      by (vm_compute; reflexivity). do 3 (apply elem_of_cons; right). left. }
  split; [exact Hin|].
  destruct (final_refresh_follows_uploads (C := str) (E := path) (K := unit) long_middle core_root (sync_context [malta]) None
    temporary_name_fresh core_ok no_builder (core_queue []) (sync_run [malta] (core_queue [])).1 s' ∅ (core_start [])
    (surjective_pairing _)) as [H _].
  destruct (H Hin) as (_ & _ & Hb & _). exact Hb.
Defined.


(** The upload keeps failing: the region's metadata is still owed. *)
Lemma sync_keeps_owed_metadata_witness :
  let s' := (sync_run [malta] (core_queue failing)).2 in
  exists m', holds core_root core_ok (app_world s') m' /\ u "malta" ∈ dom m'.
Proof.
  intros s'. destruct (sync_keeps_owed_metadata (C := str) (E := path) (K := unit) long_middle core_root (sync_context [malta]) None
    temporary_name_fresh core_ok no_builder (core_queue failing) (sync_run [malta] (core_queue failing)).1 s' ∅
    (core_start failing) (surjective_pairing _)) as (m' & Hm & H & _).
  exists m'. split; [exact Hm|].
  assert (He : exists f, events s' = [SDeferred (u "malta"); SSubmitted (u "Sync complete region malta"); SDrained f])
    by (eexists; vm_compute; reflexivity).
  destruct He as [f He]. rewrite He in H. destruct H as [_ H]; [|apply H; left].
  intros Hx. repeat (apply elem_of_cons in Hx as [Hx|Hx]; [discriminate Hx|]). by apply elem_of_nil in Hx.
Defined.

(** An earlier run marked [samoa] and never published it. *)
Definition samoa_owed : pydict := [(u "samoa", VStr some_hash)].
Definition marking : outcome unit * FsState :=
  set_metadata_refresh_marker long_middle core_root (VList [VStr (u "samoa")]) (VDict samoa_owed) (queue_disk (core_queue [])).
Definition marked_queue : SyncWorld := with_disk marking.2 (core_queue []).

Lemma marked_start : holds core_root core_ok marked_queue (marker_of samoa_owed).
Proof.
  destruct (core_start []) as [Hok Ho]. apply (holds_with_disk core_root core_ok _ _ ∅ _ (conj Hok Ho)).
  assert (E : marking = (Ok tt, marking.2)) by (rewrite (surjective_pairing marking) at 1; f_equal; vm_compute; reflexivity).
  exact (set_marker_owes long_middle core_root temporary_name_fresh _ _ _ _ _ _ Ho E).
Qed.

Lemma samoa_is_owed : marker_of samoa_owed ≠ ∅.
Proof.
  intros H. assert (E : marker_of samoa_owed !! u "samoa" = Some some_hash) by (vm_compute; reflexivity).
  rewrite H, lookup_empty in E. discriminate E.
Qed.

Definition drained_queue : SyncWorld := (queue_close_and_wait marked_queue).2.
Definition refresh_upload : PyM SyncWorld unit := queue_upload_synchronously [] (u "Repair remote repository metadata and maps").

Lemma marked_queue_drains : queue_close_and_wait marked_queue = (Ok [], drained_queue).
Proof. rewrite (surjective_pairing (queue_close_and_wait marked_queue)) at 1. apply (f_equal2 pair); [vm_compute; reflexivity|reflexivity]. Qed.
Lemma drained_queue_uploads : refresh_upload drained_queue = (Ok tt, (refresh_upload drained_queue).2).
Proof. rewrite (surjective_pairing (refresh_upload drained_queue)) at 1. apply (f_equal2 pair); [vm_compute; reflexivity|reflexivity]. Qed.
Lemma nothing_to_assemble :
  s_assemble_metadata_only_upload (A := option path) (C := str) (E := path) (K := unit) drained_queue = (Ok [], drained_queue).
Proof. reflexivity. Qed.

Lemma stranded_marker_licenses_refresh_witness :
  exists o s', sync_run [] marked_queue = (o, s') /\ events s' = [SDrained []; SRefreshed] /\
    forall r, o = Ok r -> return_code r = 0%Z /\ holds core_root core_ok (app_world s') ∅.
Proof.
  exact (stranded_marker_licenses_refresh (C := str) (E := path) (K := unit) long_middle core_root (sync_context []) None
    temporary_name_fresh core_ok no_builder marked_queue (marker_of samoa_owed) drained_queue [] drained_queue _ marked_start
    samoa_is_owed eq_refl eq_refl eq_refl (Forall_nil_2 _) marked_queue_drains nothing_to_assemble drained_queue_uploads).
Defined.
