(* ===== verification/KeyDict.v ===== *)
(** Insertion-ordered dictionaries whose keys are tuples, and slices of a list of bounded length. *)
From stdpp Require Import list.
From S2P Require Import Prelude Py PyStr.

(** * Dictionaries *)

Section KeyDict.
Context {K : Type} `{!EqDecision K} {A : Type}.
Implicit Types (d : list (K * A)) (k : K) (v : A).

(** [d.get(k)]. *)
Fixpoint kget k d : option A :=
  match d with
  | [] => None
  | (k', v) :: d' => if decide (k' = k) then Some v else kget k d'
  end.

(** [d[k] = v]. *)
Fixpoint kset k v d : list (K * A) :=
  match d with
  | [] => [(k, v)]
  | (k', w) :: d' => if decide (k' = k) then (k', v) :: d' else (k', w) :: kset k v d'
  end.

Lemma kget_kset k k' v d : kget k' (kset k v d) = if decide (k = k') then Some v else kget k' d.
Proof. induction d as [|[k1 w] d IH]; simpl; repeat (case_decide; simplify_eq/=); congruence. Qed.

Lemma kget_None k d : kget k d = None <-> k ∉ d.*1.
Proof.
  induction d as [|[k1 v] d IH]; csimpl; [split; [intros _; apply not_elem_of_nil|done]|].
  rewrite not_elem_of_cons. case_decide; naive_solver.
Qed.

Lemma kget_elem_of k v d : kget k d = Some v -> (k, v) ∈ d.
Proof.
  induction d as [|[k1 w] d IH]; simpl; [done|]. case_decide; [intros [= ->]; subst; by left|]. intros. right. auto.
Qed.

Lemma kget_NoDup k v d : NoDup d.*1 -> (k, v) ∈ d -> kget k d = Some v.
Proof.
  induction d as [|[k1 w] d IH]; csimpl; [by intros _ ?%elem_of_nil|]. intros [Hn Hd]%NoDup_cons [?|Hin]%elem_of_cons; simplify_eq.
  - by rewrite decide_True.
  - rewrite decide_False; [auto|]. intros ->. apply Hn. by eapply elem_of_fst.
Qed.

Lemma kset_keys k v d : k ∈ d.*1 /\ (kset k v d).*1 = d.*1 \/ k ∉ d.*1 /\ (kset k v d).*1 = d.*1 ++ [k].
Proof.
  induction d as [|[k1 w] d IH]; csimpl; [right; split; [apply not_elem_of_nil|done]|].
  rewrite elem_of_cons. case_decide; csimpl; [left; naive_solver|].
  destruct IH as [[? ->]|[? ->]]; [left|right]; naive_solver.
Qed.

Lemma kset_NoDup k v d : NoDup d.*1 -> NoDup (kset k v d).*1.
Proof.
  intros H. destruct (kset_keys k v d) as [[_ ->]|[Hk ->]]; [done|]. apply NoDup_app. split_and!; [done| |apply NoDup_singleton].
  by intros x Hx ->%list_elem_of_singleton.
Qed.

Lemma elem_of_kset_keys k k' v d : k' ∈ (kset k v d).*1 <-> k' = k \/ k' ∈ d.*1.
Proof.
  destruct (kset_keys k v d) as [[? ->]|[? ->]]; rewrite ?elem_of_app, ?list_elem_of_singleton; naive_solver.
Qed.
End KeyDict.

(** * Chunks *)

(** [items[start : start + size] for start in range(0, len(items), size)]. *)
Definition chunks {A} (items : list A) (size : nat) : list (list A) :=
  (fun i => take size (drop (i * size) items)) <$> seq 0 ((length items + size - 1) / size).

Section Chunks.
Context {A : Type}.
Implicit Types (items : list A).

Lemma chunks_cons items size :
  (0 < size)%nat -> items ≠ [] -> chunks items size = take size items :: chunks (drop size items) size.
Proof.
  intros Hs Hne. unfold chunks. rewrite length_drop.
  assert (Hc : ((length items + size - 1) / size = S ((length items - size + size - 1) / size))%nat).
  { destruct items as [|x l]; [done|]. simpl length. destruct (decide (S (length l) <= size)%nat) as [Hle|Hgt].
    - replace (S (length l) - size)%nat with 0%nat by lia. simpl. rewrite (Nat.div_small (size - 1)) by lia.
      symmetry. apply (Nat.div_unique _ _ _ (length l)); lia.
    - replace (S (length l) + size - 1)%nat with (1 * size + (S (length l) - size + size - 1))%nat by lia.
      rewrite Nat.div_add_l by lia. lia. }
  rewrite Hc. simpl. f_equal. rewrite <- seq_shift, <- list_fmap_compose. apply list_fmap_ext. intros _ i _. simpl.
  by rewrite drop_drop.
Qed.

Lemma chunks_nil size : chunks ([] : list A) size = [].
Proof.
  unfold chunks. destruct size as [|n]; [done|]. rewrite Nat.div_small; [done|]. simpl. lia.
Qed.

Section Sized.
Variable size : nat.
Hypothesis positive : (0 < size)%nat.

Lemma chunks_ind (P : list A -> Prop) : P [] -> (forall items, items ≠ [] -> P (drop size items) -> P items) -> forall items, P items.
Proof.
  intros Hnil Hstep. refine (well_founded_ind (well_founded_ltof _ (@length A)) _ _). intros items IH.
  destruct items as [|x l]; [done|]. apply Hstep; [done|]. apply IH. unfold ltof. rewrite length_drop. simpl. lia.
Qed.

Lemma join_chunks items : mjoin (chunks items size) = items.
Proof.
  induction items as [|items Hne IH] using chunks_ind; [by rewrite chunks_nil|].
  rewrite chunks_cons by done. simpl. by rewrite IH, take_drop.
Qed.

Lemma chunks_bounded items : Forall (fun c => c ≠ [] /\ (length c <= size)%nat) (chunks items size).
Proof.
  induction items as [|items Hne IH] using chunks_ind; [by rewrite chunks_nil|].
  rewrite chunks_cons by done. constructor; [|done]. rewrite length_take. split; [|lia].
  destruct items; [done|]. by destruct size; [lia|].
Qed.

Lemma chunks_empty items : chunks items size = [] <-> items = [].
Proof.
  split; [|intros ->; apply chunks_nil]. destruct items; [done|]. by rewrite chunks_cons.
Qed.

Lemma elem_of_chunks x items : x ∈ items <-> exists c, c ∈ chunks items size /\ x ∈ c.
Proof. rewrite <- (join_chunks items) at 1. rewrite list_elem_of_join. naive_solver. Qed.
End Sized.
End Chunks.
