(* ===== verification/Linker.v ===== *)
(** Linking of Wikidata items to Wikipedia articles ([enrichment/article_linker.py]): one request
    after the other, and in batches whose results arrive in any order; with the identifiers, the
    language of a site ([enrichment/wikidata/parsing.py]) and the progress counters
    ([enrichment/progress.py]). *)
From stdpp Require Import gmap sorting.
From S2P Require Import Prelude Py PyStr PyText KeyDict.

(** * Identifiers and sites *)

(** [^Q[1-9]\d*$], [fullmatch]. *)
Definition is_valid_qid (qid : str) : bool :=
  match qid with
  | c :: d :: rest => (c =? 81)%N && between 49 57 d && forallb is_decimal rest
  | _ => false
  end.

Definition fromkeys (l : list str) : list str :=
  foldl (fun acc x => if bool_decide (x ∈ acc) then acc else acc ++ [x]) [] l.

Definition qids_from_osm_tag (value : str) : list str :=
  let components := strip <$> split_on 59 value in
  if existsb (fun c => negb (is_valid_qid c)) components then [] else fromkeys components.

Definition language_from_site (site : str) : str :=
  if negb (endswith (u "wiki") site) then site
  else
    let language := take (length site - 4) site in
    if str_eqb language (u "be_x_old") then u "be-tarask" else replace_char 95 45 language.

(** * Data *)

Record WikidataEntity := {
  entity_qid : str;
  sitelinks : list (str * str);
  labels : list (str * str);
  descriptions : list (str * str);
  aliases : list (str * list str) }.

Record WikipediaEntityContext := { context_label : str; context_description : str; context_aliases : list str }.

(** [d.get(language) or d.get("en", default)]. *)
Definition localized {A} (d : list (str * list A)) (language : str) : list A :=
  match dget language d with
  | Some (x :: l) => x :: l
  | _ => default [] (dget (u "en") d)
  end.

Definition entity_context_for_language (entity : WikidataEntity) (language : str) : WikipediaEntityContext := {|
  context_label := localized (labels entity) language;
  context_description := localized (descriptions entity) language;
  context_aliases := localized (aliases entity) language |}.

Record WikipediaArticle := {
  article_language : str; article_site : str; article_title : str; page_id : Z; revision_id : Z;
  revision_timestamp : str; article_url : str; lead_text : str; extract : str; full_text : str; full_text_format : str;
  thumbnail_url : str; thumbnail_width : option Z; thumbnail_height : option Z; categories : list str;
  license : str; attribution : str; source_api : str; retrieved_at : str }.

Record FetchResult := { status : str; article : option WikipediaArticle; fetch_error : str }.

Record LinkSummary := mkSummary {
  qid : str; entity : option WikidataEntity; articles : list WikipediaArticle;
  statuses : list (str * str); errors : list (str * str) }.

Definition new_summary (qid : str) (entity : option WikidataEntity) : LinkSummary := mkSummary qid entity [] [] [].

Definition PREFERRED_LANGUAGES : list str := [u "en"; u "fr"; u "de"; u "es"; u "it"].

(** [min(available)]. *)
Definition min_str (l : list str) : str :=
  match l with [] => [] | x :: r => foldl (fun a b => if str_leb a b then a else b) x r end.

Definition best_language (preference : list str) (s : LinkSummary) : str :=
  let available := article_language <$> articles s in
  match List.find (fun lang => bool_decide (lang ∈ available)) preference with
  | Some lang => lang
  | None => min_str available
  end.

(** * Progress *)

Record EnrichmentProgress := mkProgress {
  qids_completed : Z; qids_total : Z; sites_completed : Z; sites_total : Z; articles_attempted : Z; phase : str }.

Definition new_progress (total_qids : Z) : EnrichmentProgress := mkProgress 0 total_qids 0 0 0 (u "wikidata").

(** The state of a run is the progress it reports to, if any. *)
Abbreviation Reporting := (PyM (option EnrichmentProgress)).

Definition counting (count : Z) (f : EnrichmentProgress -> EnrichmentProgress) : Reporting unit := fun p =>
  match p with
  | None => (Ok tt, None)
  | Some p => if count <? 0 then (Raise (exc CValueError (msg "progress counts must be non-negative")), Some p) else (Ok tt, Some (f p))
  end.

Definition set_qids_total (total : Z) : Reporting unit := counting total (fun p =>
  mkProgress (qids_completed p) total (sites_completed p) (sites_total p) (articles_attempted p) (phase p)).
Definition advance_qids (count : Z) : Reporting unit := counting count (fun p =>
  mkProgress (qids_completed p + count) (qids_total p) (sites_completed p) (sites_total p) (articles_attempted p) (phase p)).
Definition start_wikipedia (total_sites : Z) : Reporting unit := counting total_sites (fun p =>
  mkProgress (qids_completed p) (qids_total p) (sites_completed p) total_sites (articles_attempted p) (u "wikipedia")).
Definition complete_site (attempted : Z) : Reporting unit := counting attempted (fun p =>
  mkProgress (qids_completed p) (qids_total p) (sites_completed p + 1) (sites_total p) (articles_attempted p + attempted) (phase p)).
Definition advance_articles (count : Z) : Reporting unit := counting count (fun p =>
  mkProgress (qids_completed p) (qids_total p) (sites_completed p) (sites_total p) (articles_attempted p + count) (phase p)).

(** * Clients *)

(** The contracts of [enrichment/wikidata/models.py] and [enrichment/wikipedia/models.py]; during a
    run a client answers the same question in the same way. *)
Class WikidataClient := get_entity : str -> outcome (option WikidataEntity).
Class WikipediaClient :=
  fetch_article : forall (language site title : str) (context : WikipediaEntityContext) (fetch_full_text : bool), outcome FetchResult.
Class BatchWikidataClient := get_entities : list str -> outcome (list (option WikidataEntity)).
Class BatchWikipediaClient :=
  fetch_articles : forall (language site : str) (titles : list str) (fetch_full_text : bool), outcome (list (str * FetchResult)).

(** * One request after the other *)

Definition item_leb (a b : str * str) : bool := negb (str_leb b.1 a.1) || (str_eqb a.1 b.1 && str_leb a.2 b.2).
(** [sorted(sitelinks.items())]. *)
Definition sorted_items (l : list (str * str)) : list (str * str) := merge_sort item_leb l.

Definition site_allowed (site : str) (allow : option (gset str)) : bool :=
  match allow with None => true | Some allow => bool_decide (language_from_site site ∈ allow) end.

Definition record_link_result (s : LinkSummary) (site : str) (result : FetchResult) : LinkSummary :=
  let statuses := dset site (status result) (statuses s) in
  match article result with
  | Some a =>
      if str_eqb (status result) (u "article_not_found")
      then mkSummary (qid s) (entity s) (articles s) statuses (dset site (fetch_error result) (errors s))
      else mkSummary (qid s) (entity s) (articles s ++ [a]) statuses
             (if str_eqb (status result) (u "ok") then errors s else dset site (fetch_error result) (errors s))
  | None => mkSummary (qid s) (entity s) (articles s) statuses (dset site (fetch_error result) (errors s))
  end.

(** [l[:n]]. *)
Definition slice_to {A} (n : Z) (l : list A) : list A := take (Z.to_nat (if n <? 0 then len l + n else n)) l.

Definition truncate_articles (maximum : option Z) (s : LinkSummary) : LinkSummary :=
  match maximum with
  | None => s
  | Some n => mkSummary (qid s) (entity s) (slice_to n (articles s)) (statuses s) (errors s)
  end.

Section Single.
Context {wikidata : WikidataClient} {wikipedia : WikipediaClient}.
Variable allow : option (gset str).
Variable fetch_full_text : bool.

Definition fetch_entity_article (entity : WikidataEntity) (language site title : str) : outcome FetchResult :=
  fetch_article language site title (entity_context_for_language entity language) fetch_full_text.

Definition link_entity_articles (s : LinkSummary) : outcome LinkSummary :=
  match entity s with
  | None => Raise (exc CValueError [FStr (u "Cannot link articles without a Wikidata entity: " ++ qid s)])
  | Some e =>
      fold_outcome (fun s item =>
        if negb (site_allowed item.1 allow) then mret s
        else
          result ← fetch_entity_article e (language_from_site item.1) item.1 item.2;
          mret (record_link_result s item.1 result)) s (sorted_items (sitelinks e))
  end.

Definition link_qid (qid : str) : outcome LinkSummary :=
  if negb (is_valid_qid qid) then mret (new_summary qid None)
  else
    entity ← get_entity qid;
    match entity with
    | None => mret (new_summary qid None)
    | Some e => link_entity_articles (new_summary qid (Some e))
    end.

Variable max_articles_per_qid : option Z.

Fixpoint fetch_compatibility_qids (requested : list str) : Reporting (list LinkSummary) :=
  match requested with
  | [] => ret []
  | qid :: rest =>
      summary <- lift (link_qid qid);;
      advance_qids 1;;
      out <- fetch_compatibility_qids rest;;
      ret (truncate_articles max_articles_per_qid summary :: out)
  end.
End Single.

(** * In batches *)

Abbreviation SiteKey := (str * str)%type.
Abbreviation SiteRequest := (nat * str * str)%type.
Abbreviation SiteWork := (SiteKey * list str)%type.

Definition validate_fetch_options (batch_size site_workers : Z) : outcome unit :=
  if batch_size <? 1 then Raise (exc CValueError (msg "batch_size must be >= 1"))
  else if site_workers <? 1 then Raise (exc CValueError (msg "site_workers must be >= 1"))
  else mret tt.

(** [requests.setdefault(key, []).extend(rows)]. *)
Definition add_requests {K R} `{!EqDecision K} (key : K) (rows : list R) (requests : list (K * list R)) : list (K * list R) :=
  kset key (default [] (kget key requests) ++ rows) requests.

Definition summary_site_requests (index : nat) (s : LinkSummary) (allow : option (gset str)) : list (SiteKey * list SiteRequest) :=
  match entity s with
  | None => []
  | Some e =>
      foldl (fun requests item =>
        if site_allowed item.1 allow
        then add_requests (language_from_site item.1, item.1) [(index, item.1, item.2)] requests
        else requests) [] (sorted_items (sitelinks e))
  end.

Definition build_site_requests (summaries : list LinkSummary) (allow : option (gset str)) : list (SiteKey * list SiteRequest) :=
  foldl (fun requests entry => foldl (fun requests kr => add_requests kr.1 kr.2 requests) requests
           (summary_site_requests entry.1 entry.2 allow))
        [] (zip (seq 0 (length summaries)) summaries).

Definition unique_site_titles (requests : list (SiteKey * list SiteRequest)) : list (SiteKey * list str) :=
  (fun kr => (kr.1, fromkeys (snd <$> kr.2))) <$> requests.

Definition chunk_site_titles (site_titles : list (SiteKey * list str)) (batch_size : Z) : list (SiteKey * list (list str)) :=
  (fun kt => (kt.1, chunks kt.2 (Z.to_nat batch_size))) <$> site_titles.

Definition round_robin_site_work (site_chunks : list (SiteKey * list (list str))) : list SiteWork * list (SiteKey * Z) :=
  let rounds := foldl Nat.max 0%nat ((fun kc => length kc.2) <$> site_chunks) in
  (seq 0 rounds ≫= (fun index => omap (fun kc => (pair kc.1) <$> kc.2 !! index) site_chunks),
   (fun kc => (kc.1, len kc.2)) <$> site_chunks).

Definition plan_site_work (requests : list (SiteKey * list SiteRequest)) (batch_size : Z) : list SiteWork * list (SiteKey * Z) :=
  round_robin_site_work (chunk_site_titles (unique_site_titles requests) batch_size).

Section Batched.
Context {batch_wikidata : BatchWikidataClient} {batch_wikipedia : BatchWikipediaClient}.
Variable allow : option (gset str).
Variable fetch_full_text : bool.
Variable max_articles_per_qid : option Z.
Variables (batch_size site_workers : Z).
(** The order in which the futures of the submitted work complete. *)
Variable completion : list SiteWork -> list SiteWork.

Fixpoint fetch_entity_chunks (work : list (list str)) : Reporting (list (option WikidataEntity)) :=
  match work with
  | [] => ret []
  | chunk :: rest =>
      entities <- lift (get_entities chunk);;
      advance_qids (len chunk);;
      more <- fetch_entity_chunks rest;;
      ret (entities ++ more)
  end.

Definition fetch_batched_entities (requested : list str) : Reporting (list LinkSummary) :=
  entities <- fetch_entity_chunks (chunks requested (Z.to_nat batch_size));;
  (if bool_decide (length entities = length requested)
   then ret (zip_with new_summary requested entities)
   else throw (exc CValueError (msg "zip() arguments have different lengths"))).

Definition fetch_one_site_chunk (work : SiteWork) : outcome (SiteKey * list (str * FetchResult)) :=
  results ← fetch_articles work.1.1 work.1.2 work.2 fetch_full_text;
  mret (work.1, results).

Abbreviation Fetched := (list (SiteKey * list (str * FetchResult))).

Definition consume_site_future (work : SiteWork) (fetched : Fetched) (chunks_remaining : list (SiteKey * Z))
    : Reporting (Fetched * list (SiteKey * Z)) :=
  result <- lift (fetch_one_site_chunk work);;
  let '(key, chunk_results) := result in
  let fetched := kset key (dupdate (default [] (kget key fetched)) chunk_results) fetched in
  advance_articles (len work.2);;
  let left := default 0 (kget key chunks_remaining) - 1 in
  (if left =? 0 then complete_site 0 else ret tt);;
  ret (fetched, kset key left chunks_remaining).

Fixpoint consume_site_futures (completed : list SiteWork) (fetched : Fetched) (chunks_remaining : list (SiteKey * Z)) : Reporting Fetched :=
  match completed with
  | [] => ret fetched
  | work :: rest =>
      next <- consume_site_future work fetched chunks_remaining;;
      consume_site_futures rest next.1 next.2
  end.

Definition fetch_site_work (work : list SiteWork) (requests : list (SiteKey * list SiteRequest)) (chunks_remaining : list (SiteKey * Z))
    : Reporting Fetched :=
  consume_site_futures (completion work) ((fun kr => (kr.1, [])) <$> requests) chunks_remaining.

(** [fetched[(language, site)][title]]. *)
Definition fetched_result (fetched : Fetched) (site title : str) : outcome FetchResult :=
  match kget (language_from_site site, site) fetched with
  | None => Raise (exc CKeyError [FRepr (VTuple [VStr (language_from_site site); VStr site])])
  | Some results =>
      match dget title results with
      | None => Raise (exc CKeyError [FRepr (VStr title)])
      | Some r => Ok r
      end
  end.

(** [_apply_article_result]; its two branches are those of [record_link_result] the other way round. *)
Definition apply_article_result (s : LinkSummary) (site : str) (result : FetchResult) : LinkSummary :=
  let statuses := dset site (status result) (statuses s) in
  if negb (str_eqb (status result) (u "article_not_found")) && match article result with Some _ => true | None => false end
  then mkSummary (qid s) (entity s) (articles s ++ from_option (fun a => [a]) [] (article result)) statuses
         (if negb (str_eqb (status result) (u "ok")) then dset site (fetch_error result) (errors s) else errors s)
  else mkSummary (qid s) (entity s) (articles s) statuses (dset site (fetch_error result) (errors s)).

Definition populate_one_summary (fetched : Fetched) (s : LinkSummary) : outcome LinkSummary :=
  match entity s with
  | None => mret s
  | Some e =>
      populated ← fold_outcome (fun s item =>
        if negb (site_allowed item.1 allow) then mret s
        else result ← fetched_result fetched item.1 item.2; mret (apply_article_result s item.1 result))
        s (sorted_items (sitelinks e));
      mret (truncate_articles max_articles_per_qid populated)
  end.

Definition fetch_batched_qids (requested : list str) : Reporting (list LinkSummary) :=
  summaries <- fetch_batched_entities requested;;
  let requests := build_site_requests summaries allow in
  start_wikipedia (len requests);;
  let '(work, chunks_remaining) := plan_site_work requests batch_size in
  fetched <- fetch_site_work work requests chunks_remaining;;
  lift (mapM (populate_one_summary fetched) summaries).
End Batched.

(** * The entry point *)

(** [fetch_qids]: in batches when both clients can do that ([batched]). *)
Definition fetch_qids `{!WikidataClient} `{!WikipediaClient} (batched : option (BatchWikidataClient * BatchWikipediaClient))
    (completion : list SiteWork -> list SiteWork) (languages : option (list str)) (fetch_full_text : bool) (max_articles_per_qid : option Z)
    (batch_size site_workers : Z) (requested : list str) : Reporting (list LinkSummary) :=
  lift (validate_fetch_options batch_size site_workers);;
  set_qids_total (len requested);;
  let allow := list_to_set <$> languages in
  match batched with
  | Some (wikidata, wikipedia) =>
      @fetch_batched_qids wikidata wikipedia allow fetch_full_text max_articles_per_qid batch_size completion requested
  | None => fetch_compatibility_qids allow fetch_full_text max_articles_per_qid requested
  end.
