(* ===== verification/LinkerProofs.v ===== *)
(** Linking in batches, in whatever order the results arrive, is linking one request after the
    other; and what is asked of the clients and reported on the way. *)
From stdpp Require Import gmap sorting.
From S2P Require Import Prelude Py PyStr PyText KeyDict Linker.

(** * Auxiliary lemmas *)

Lemma mapM_ext_in {A B} (f g : A -> outcome B) l : (forall x, x ∈ l -> f x = g x) -> mapM f l = mapM g l.
Proof.
  intros H. induction l as [|x l IH]; simpl; [done|]. rewrite (H x) by left. destruct (g x); simpl; [|done].
  rewrite IH; [done|]. intros. apply H. by right.
Qed.

Lemma elem_of_fromkeys x l : x ∈ fromkeys l <-> x ∈ l.
Proof.
  unfold fromkeys. induction l as [|y l IH] using rev_ind; [done|]. rewrite foldl_app, elem_of_app, list_elem_of_singleton. simpl.
  case_bool_decide as H; rewrite ?elem_of_app, ?list_elem_of_singleton, IH; [|done].
  split; [tauto|]. intros [?| ->]; [done|]. by apply IH.
Qed.

Lemma fromkeys_NoDup l : NoDup (fromkeys l).
Proof.
  unfold fromkeys. induction l as [|y l IH] using rev_ind; [constructor|]. rewrite foldl_app. simpl. case_bool_decide as H; [done|].
  apply NoDup_app. split_and!; [done| |apply NoDup_singleton]. by intros x Hx ->%list_elem_of_singleton.
Qed.

Lemma dget_update {A} t (d kvs : list (str * A)) :
  NoDup kvs.*1 -> dget t (dupdate d kvs) = match dget t kvs with Some r => Some r | None => dget t d end.
Proof.
  intros H. destruct (dget t kvs) as [r|] eqn:E; [apply dget_dupdate; [done|]; by apply dget_elem_of|].
  apply dget_dupdate_other. by apply dget_None.
Qed.

Lemma elem_of_sorted_items x l : x ∈ sorted_items l <-> x ∈ l.
Proof. unfold sorted_items. by rewrite merge_sort_Permutation. Qed.

Definition returned {A} (o : outcome A) : Prop := match o with Ok _ => True | Raise _ => False end.
Lemma returned_spec {A} (o : outcome A) : returned o <-> exists a, o = Ok a.
Proof. destruct o; split; [by eexists|done|done|by intros []]. Qed.

(** ** Reports *)

Lemma counting_ok n f p : 0 <= n -> counting n f p = (Ok tt, f <$> p).
Proof. intros H. unfold counting. destruct p; [|done]. by rewrite (proj2 (Z.ltb_ge n 0)). Qed.

Lemma len_nonneg {A} (l : list A) : 0 <= len l.
Proof. unfold len. lia. Qed.

#[local] Hint Resolve len_nonneg : core.

Lemma reported {B} n f (k : Reporting B) p : 0 <= n -> (counting n f;; k) p = k (f <$> p).
Proof. intros H. unfold pbind. by rewrite counting_ok. Qed.

(** * What is requested *)

Section Requests.
Variable allow : option (gset str).

(** A summary asks for an article of a site. *)
Definition wants (s : LinkSummary) (site title : str) : Prop :=
  exists e, entity s = Some e /\ (site, title) ∈ sitelinks e /\ site_allowed site allow = true.
Definition wanted (summaries : list LinkSummary) (site title : str) : Prop := exists s, s ∈ summaries /\ wants s site title.

Definition site_key (site : str) : SiteKey := (language_from_site site, site).

(** The requests stand for the articles of [P]. *)
Record requests_for (requests : list (SiteKey * list SiteRequest)) (P : str -> str -> Prop) : Prop := {
  rf_keys : NoDup requests.*1;
  rf_nonempty : forall key rows, (key, rows) ∈ requests -> rows ≠ [];
  rf_sound : forall key rows i site title, (key, rows) ∈ requests -> (i, site, title) ∈ rows -> key = site_key site /\ P site title;
  rf_complete : forall site title, P site title -> exists rows i, (site_key site, rows) ∈ requests /\ (i, site, title) ∈ rows }.

Lemma requests_for_add requests (P Q : str -> str -> Prop) site rows :
  requests_for requests P -> rows ≠ [] ->
  (forall i site' title, (i, site', title) ∈ rows -> site' = site /\ Q site title) ->
  (forall title, Q site title -> exists i, (i, site, title) ∈ rows) ->
  requests_for (add_requests (site_key site) rows requests) (fun site' title => P site' title \/ site' = site /\ Q site title).
Proof.
  intros [H1 H2 H3 H4] Hne Hs Hc. unfold add_requests.
  assert (Hin : forall key rs, (key, rs) ∈ kset (site_key site) (default [] (kget (site_key site) requests) ++ rows) requests <->
    key = site_key site /\ rs = default [] (kget (site_key site) requests) ++ rows \/ key ≠ site_key site /\ (key, rs) ∈ requests).
  { assert (Hn := kset_NoDup (site_key site) (default [] (kget (site_key site) requests) ++ rows) requests H1). intros key rs. split.
    - intros Hin. apply (kget_NoDup _ _ _ Hn) in Hin. rewrite kget_kset in Hin. case_decide; [left; naive_solver|right].
      apply kget_elem_of in Hin. naive_solver.
    - intros Hin. apply kget_elem_of. rewrite kget_kset. case_decide; [naive_solver|]. apply kget_NoDup; naive_solver. }
  split.
  - by apply kset_NoDup.
  - intros key rs [[-> ->]|[_ Hr]]%Hin; [by destruct (default [] _), rows|by eapply H2].
  - intros key rs i site' title [[-> ->]|[Hk Hr]]%Hin Hrow.
    + apply elem_of_app in Hrow as [Hrow|Hrow]; [|apply Hs in Hrow as [-> Hq]; auto].
      destruct (kget (site_key site) requests) as [old|] eqn:E; simpl in Hrow; [|by apply elem_of_nil in Hrow].
      destruct (H3 _ _ _ _ _ (kget_elem_of _ _ _ E) Hrow) as [? ?]. auto.
    + destruct (H3 _ _ _ _ _ Hr Hrow) as [? ?]. auto.
  - intros site' title [HP|[-> HQ]].
    + destruct (H4 _ _ HP) as (rs & i & Hr & Hrow). destruct (decide (site_key site' = site_key site)) as [Ek|Hk].
      * exists (default [] (kget (site_key site) requests) ++ rows), i. split; [apply Hin; left; done|].
        rewrite Ek in Hr. rewrite (kget_NoDup _ _ _ H1 Hr). apply elem_of_app. by left.
      * exists rs, i. split; [apply Hin; by right|done].
    + destruct (Hc title HQ) as [i Hi]. exists (default [] (kget (site_key site) requests) ++ rows), i. split; [apply Hin; by left|].
      apply elem_of_app. by right.
Qed.

Lemma requests_for_iff requests P Q :
  (forall site title, P site title <-> Q site title) -> requests_for requests P -> requests_for requests Q.
Proof. intros H [H1 H2 H3 H4]. split; [done..| |]; naive_solver. Qed.

Lemma requests_for_nil : requests_for [] (fun _ _ => False).
Proof. split; try done; [constructor|by intros key rows ?%elem_of_nil|by intros key rows i site title ?%elem_of_nil]. Qed.

Lemma summary_requests_spec index s : requests_for (summary_site_requests index s allow) (wants s).
Proof.
  unfold summary_site_requests, wants. destruct (entity s) as [e|]; [|eapply requests_for_iff; [|apply requests_for_nil]; naive_solver].
  apply (requests_for_iff _ (fun site title => (site, title) ∈ sorted_items (sitelinks e) /\ site_allowed site allow = true)).
  { intros site title. rewrite elem_of_sorted_items. naive_solver. }
  induction (sorted_items (sitelinks e)) as [|[site title] l IH] using rev_ind.
  { eapply requests_for_iff; [|apply requests_for_nil]. intros. rewrite elem_of_nil. tauto. }
  rewrite foldl_app. simpl. destruct (site_allowed site allow) eqn:Ha.
  - eapply requests_for_iff; [|apply (requests_for_add _ _ (fun s t => t = title) site _ IH); [done| |]].
    + intros s' t'. simpl. rewrite elem_of_app, list_elem_of_singleton. split; [intros [[? ?]|[-> ->]]; auto|naive_solver].
    + intros i s' t' [= -> -> ->]%list_elem_of_singleton. done.
    + intros t' ->. exists index. by apply list_elem_of_singleton.
  - eapply requests_for_iff; [|exact IH]. intros s' t'. simpl. rewrite elem_of_app, list_elem_of_singleton. naive_solver congruence.
Qed.

Lemma merge_requests_spec requests P new Q :
  requests_for requests P -> requests_for new Q ->
  requests_for (foldl (fun requests kr => add_requests kr.1 kr.2 requests) requests new) (fun site title => P site title \/ Q site title).
Proof.
  intros HP [H1 H2 H3 H4].
  eapply (requests_for_iff _ (fun site title => P site title \/ exists rows i, (site_key site, rows) ∈ new /\ (i, site, title) ∈ rows)).
  { intros site title. split; [|naive_solver]. intros [?|(rows & i & Hr & Hrow)]; [by left|right]. by eapply H3. }
  clear H4. induction new as [|[key rows] new IH] using rev_ind; simpl.
  { eapply requests_for_iff; [|exact HP]. intros. setoid_rewrite elem_of_nil. naive_solver. }
  rewrite foldl_app. simpl. rewrite fmap_app in H1. apply NoDup_app in H1 as (H1 & Hnew & _).
  assert (IH' : requests_for (foldl (fun requests kr => add_requests kr.1 kr.2 requests) requests new)
    (fun site title => P site title \/ exists rows i, (site_key site, rows) ∈ new /\ (i, site, title) ∈ rows)).
  { apply IH; [done|..]; intros; [eapply H2|eapply H3]; try done; apply elem_of_app; by left. }
  assert (Hlast : (key, rows) ∈ new ++ [(key, rows)]) by (apply elem_of_app; right; by left).
  destruct rows as [|[[i0 site0] title0] rows'] eqn:Er; [by destruct (H2 _ _ Hlast)|]. rewrite <- Er in *.
  assert (Hk : key = site_key site0) by (eapply H3; [exact Hlast|rewrite Er; by left]). subst key.
  eapply requests_for_iff; [|apply (requests_for_add _ _ (fun s t => exists i, (i, site0, t) ∈ rows) site0 rows IH'); [by subst| |]].
  - intros site title. setoid_rewrite elem_of_app. setoid_rewrite list_elem_of_singleton. split.
    + intros [[?|(rs & i & Hr & Hrow)]|[-> [i Hi]]]; [by left|right; eauto|right]. exists rows, i. auto.
    + intros [?|(rs & i & [Hr|Heq] & Hrow)]; [by left; left|left; right; eauto|]. right. unfold site_key in Heq. simplify_eq. eauto.
  - intros i site title Hrow. destruct (H3 _ _ _ _ _ Hlast Hrow) as [Heq _]. unfold site_key in Heq. simplify_eq. eauto.
  - naive_solver.
Qed.

Lemma build_requests_spec summaries : requests_for (build_site_requests summaries allow) (wanted summaries).
Proof.
  unfold build_site_requests, wanted.
  apply (requests_for_iff _ (fun site title => exists i s, (i, s) ∈ zip (seq 0 (length summaries)) summaries /\ wants s site title)).
  { intros site title. split.
    - intros (i & s & Hin & Hw). exists s. split; [|done]. by apply elem_of_zip_r in Hin.
    - intros (s & [i Hi]%list_elem_of_lookup & Hw). exists i, s. split; [|done]. apply list_elem_of_lookup. exists i.
      apply lookup_zip_with_Some. exists i, s. split_and!; [done| |done]. apply lookup_seq. split; [done|]. by eapply lookup_lt_Some. }
  induction (zip _ summaries) as [|[i s] l IH] using rev_ind; simpl.
  { eapply requests_for_iff; [|apply requests_for_nil]. intros. setoid_rewrite elem_of_nil. naive_solver. }
  rewrite foldl_app. simpl. eapply requests_for_iff; [|apply merge_requests_spec; [exact IH|apply summary_requests_spec]].
  intros site title. setoid_rewrite elem_of_app. setoid_rewrite list_elem_of_singleton. split.
  - intros [(j & x & Hin & Hw)|Hw]; [exists j, x; auto|exists i, s; auto].
  - intros (j & x & [Hin|[= -> ->]] & Hw); [left; eauto|by right].
Qed.
End Requests.

(** * The plan *)

Lemma bind_app_perm {A B} (f g : A -> list B) l : (l ≫= fun x => f x ++ g x) ≡ₚ (l ≫= f) ++ (l ≫= g).
Proof. induction l as [|x l IH]; csimpl; [done|]. rewrite IH. solve_Permutation. Qed.

Lemma seq_lookup_bind {A B} (f : A -> B) cs n :
  (length cs <= n)%nat -> (seq 0 n ≫= fun i => match cs !! i with Some c => [f c] | None => [] end) = f <$> cs.
Proof.
  revert n. induction cs as [|c cs IH]; intros n Hn.
  - clear Hn. generalize (seq 0 n). induction l as [|i l IHl]; [done|]. exact IHl.
  - destruct n as [|n]; simpl in Hn; [lia|]. simpl seq. csimpl. f_equal. rewrite <- seq_shift, <- (IH n) by lia.
    generalize (seq 0 n). induction l as [|i l IHl]; csimpl; [done|]. by rewrite IHl.
Qed.

Lemma round_robin_perm {K C} (L : list (K * list C)) n :
  Forall (fun kc => (length kc.2 <= n)%nat) L ->
  (seq 0 n ≫= fun i => omap (fun kc => pair kc.1 <$> kc.2 !! i) L) ≡ₚ (L ≫= fun kc => pair kc.1 <$> kc.2).
Proof.
  induction 1 as [|[k cs] L Hk _ IH].
  - generalize (seq 0 n). induction l as [|i l IHl]; [done|]. exact IHl.
  - assert (He : (seq 0 n ≫= fun i => omap (fun kc => pair kc.1 <$> kc.2 !! i) ((k, cs) :: L)) =
      (seq 0 n ≫= fun i => (match cs !! i with Some c => [(k, c)] | None => [] end) ++ omap (fun kc => pair kc.1 <$> kc.2 !! i) L)).
    { apply list_bind_ext; [|done]. intros i. simpl. by destruct (cs !! i). }
    rewrite He, bind_app_perm, IH, (seq_lookup_bind (pair k)) by done. done.
Qed.

Lemma foldl_max_le l a x : (x <= a \/ x ∈ l)%nat -> (x <= foldl Nat.max a l)%nat.
Proof.
  revert a. induction l as [|y l IH]; simpl; intros a; [intros [?|?%elem_of_nil]; done|].
  intros [?|[->|?]%elem_of_cons]; apply IH; [left; lia|left; lia|by right].
Qed.

(** The work is the chunks of every site, in some order. *)
Lemma plan_perm requests batch_size :
  (plan_site_work requests batch_size).1 ≡ₚ
  (requests ≫= fun kr => pair kr.1 <$> chunks (fromkeys kr.2.*2) (Z.to_nat batch_size)).
Proof.
  unfold plan_site_work, round_robin_site_work. simpl. rewrite round_robin_perm.
  - unfold chunk_site_titles, unique_site_titles. rewrite <- list_fmap_compose. apply reflexive_eq.
    induction requests as [|kr l IH]; csimpl; [done|]. by rewrite IH.
  - apply Forall_forall. intros kc Hkc. apply foldl_max_le. right. apply list_elem_of_fmap. by exists kc.
Qed.

(** The articles some work asks for. *)
Definition asked (work : list SiteWork) : list (SiteKey * str) := work ≫= fun w => pair w.1 <$> w.2.

Lemma asked_perm work work' : work ≡ₚ work' -> asked work ≡ₚ asked work'.
Proof. unfold asked. intros H. by rewrite H. Qed.

Section Plan.
Variables (requests : list (SiteKey * list SiteRequest)) (P : str -> str -> Prop) (batch_size : Z).
Hypothesis requested : requests_for requests P.
Hypothesis positive : 1 <= batch_size.
Abbreviation work := (plan_site_work requests batch_size).1.

Lemma asked_plan : asked work ≡ₚ (requests ≫= fun kr => pair kr.1 <$> fromkeys kr.2.*2).
Proof.
  rewrite (asked_perm _ _ (plan_perm requests batch_size)). unfold asked. apply reflexive_eq. clear requested.
  induction requests as [|[key rows] l IH]; csimpl; [done|]. rewrite bind_app, IH. f_equal.
  rewrite <- (join_chunks (Z.to_nat batch_size) ltac:(lia) (fromkeys rows.*2)) at 2.
  induction (chunks _ _) as [|c cs IHc]; csimpl; [done|]. by rewrite IHc, fmap_app.
Qed.

Lemma plan_bounded w : w ∈ work -> w.2 ≠ [] /\ len w.2 <= batch_size.
Proof.
  rewrite plan_perm. intros ([key rows] & Hin & Hkr)%list_elem_of_bind. apply list_elem_of_fmap in Hin as (c & -> & Hc). simpl.
  pose proof (chunks_bounded (Z.to_nat batch_size) ltac:(lia) (fromkeys rows.*2)) as Hb. rewrite Forall_forall in Hb.
  destruct (Hb c Hc). unfold len. split; [done|lia].
Qed.

Lemma elem_of_asked key title : (key, title) ∈ asked work <-> exists site, key = site_key site /\ P site title.
Proof.
  rewrite asked_plan, list_elem_of_bind. destruct requested as [H1 H2 H3 H4]. split.
  - intros ([key' rows] & Hin & Hkr). apply list_elem_of_fmap in Hin as (t & [= -> ->] & Ht). simpl in *.
    apply elem_of_fromkeys, list_elem_of_fmap in Ht as ([[i site] t'] & -> & Hrow). exists site. by eapply H3.
  - intros (site & -> & Hp). destruct (H4 _ _ Hp) as (rows & i & Hr & Hrow). exists (site_key site, rows). split; [|done].
    apply list_elem_of_fmap. exists title. split; [done|]. apply elem_of_fromkeys, list_elem_of_fmap. by exists (i, site, title).
Qed.

Lemma asked_NoDup : NoDup (asked work).
Proof.
  rewrite asked_plan. destruct requested as [H1 _ _ _]. clear requested. induction requests as [|[key rows] l IH]; csimpl; [constructor|].
  csimpl in H1. apply NoDup_cons in H1 as [Hk Hl]. apply NoDup_app. split_and!; [|intros [k t] Ha Hb|by apply IH].
  - apply NoDup_fmap; [apply _|]. apply fromkeys_NoDup.
  - apply list_elem_of_fmap in Ha as (? & [= -> ->] & _). apply list_elem_of_bind in Hb as ([k' rows'] & Hin & Hl').
    apply list_elem_of_fmap in Hin as (? & [= -> ->] & _). apply Hk. by eapply elem_of_fst.
Qed.

Lemma work_of_asked key title : (key, title) ∈ asked work -> exists titles, (key, titles) ∈ work /\ title ∈ titles.
Proof. intros ([k ts] & Hin & Hw)%list_elem_of_bind. apply list_elem_of_fmap in Hin as (t & [= -> ->] & Ht). by exists ts. Qed.
End Plan.

(** * Batches and single requests *)

(** What the batch clients promise: the answers of the single clients.  An invalid identifier has no
    entity, and a title batch has a result for every title, independent of the context. *)
Section Agreement.
Context {wikidata : WikidataClient} {wikipedia : WikipediaClient} {batch_wikidata : BatchWikidataClient} {batch_wikipedia : BatchWikipediaClient}.
Variable fetch_full_text : bool.

Definition single_entity (qid : str) : outcome (option WikidataEntity) := if is_valid_qid qid then get_entity qid else mret None.

(** Every context gets this result. *)
Definition article_is (site title : str) (r : FetchResult) : Prop :=
  forall context, fetch_article (language_from_site site) site title context fetch_full_text = Ok r.

Class BatchAgrees : Prop := {
  entities_agree : forall qids es, get_entities qids = Ok es <-> mapM single_entity qids = Ok es;
  articles_agree : forall site titles results,
    fetch_articles (language_from_site site) site titles fetch_full_text = Ok results ->
    NoDup results.*1 /\ (forall t, t ∈ titles -> is_Some (dget t results)) /\
    forall t r, dget t results = Some r -> article_is site t r;
  articles_answered : forall site titles,
    (forall t, t ∈ titles -> exists context r, fetch_article (language_from_site site) site t context fetch_full_text = Ok r) ->
    exists results, fetch_articles (language_from_site site) site titles fetch_full_text = Ok results }.
End Agreement.

Section Equivalence.
Context {wikidata : WikidataClient} {wikipedia : WikipediaClient} {batch_wikidata : BatchWikidataClient} {batch_wikipedia : BatchWikipediaClient}.
Variable fetch_full_text : bool.
Context {agrees : BatchAgrees fetch_full_text}.
Variable allow : option (gset str).
Variable maximum : option Z.
Variable batch_size : Z.
Variable completion : list SiteWork -> list SiteWork.
Hypothesis positive : 1 <= batch_size.
Hypothesis completes : forall work, completion work ≡ₚ work.
Implicit Types (p : option EnrichmentProgress).

(** ** Entities *)

Lemma entity_chunks_spec work p es :
  (fetch_entity_chunks work p).1 = Ok es <-> Forall2 (fun q e => single_entity q = Ok e) (mjoin work) es.
Proof.
  revert p es. induction work as [|chunk work IH]; intros p es.
  - simpl. split; [intros [= <-]; constructor|]. by intros ->%Forall2_nil_inv_l.
  - csimpl. unfold pbind at 1, lift at 1. destruct (get_entities chunk) as [e1|e] eqn:E.
    + unfold advance_qids. rewrite reported by done. unfold pbind, ret. destruct (fetch_entity_chunks work _) as [[e2|e'] p2] eqn:E2; simpl.
      * assert (Ha : Forall2 (fun q e => single_entity q = Ok e) chunk e1) by by apply mapM_Forall2, (entities_agree fetch_full_text).
        assert (Hb : Forall2 (fun q e => single_entity q = Ok e) (mjoin work) e2) by (eapply IH; by rewrite E2).
        split; [intros [= <-]; by apply Forall2_app|]. intros H. apply Forall2_app_inv_l in H as (k1 & k2 & Hk1 & Hk2 & ->).
        apply mapM_Forall2 in Ha, Hb, Hk1, Hk2. congruence.
      * split; [done|]. intros H. apply Forall2_app_inv_l in H as (k1 & k2 & _ & Hk2 & ->). eapply IH in Hk2. by rewrite E2 in Hk2.
    + split; [done|]. intros H. apply Forall2_app_inv_l in H as (k1 & k2 & Hk1 & _ & ->).
      apply mapM_Forall2, (entities_agree fetch_full_text) in Hk1. congruence.
Qed.

Lemma batched_entities_spec requested p ss :
  (fetch_batched_entities batch_size requested p).1 = Ok ss <->
  exists es, Forall2 (fun q e => single_entity q = Ok e) requested es /\ ss = zip_with new_summary requested es.
Proof.
  unfold fetch_batched_entities, pbind. pose proof (entity_chunks_spec (chunks requested (Z.to_nat batch_size)) p) as H.
  rewrite join_chunks in H by lia. destruct (fetch_entity_chunks _ p) as [[es|e] p1]; simpl in *.
  - pose proof (proj1 (H es) eq_refl) as Hes. rewrite bool_decide_eq_true_2 by (symmetry; by eapply Forall2_length). simpl. split.
    + intros [= <-]. eauto.
    + intros (es' & Hes' & ->). apply H in Hes'. by simplify_eq.
  - split; [done|]. intros (es & Hes & _). by apply H in Hes.
Qed.

(** ** Articles *)

Abbreviation Fetched := (list (SiteKey * list (str * FetchResult))).

(** Everything fetched is what a single request gets. *)
Definition faithful (fetched : Fetched) : Prop :=
  forall site results t r, kget (site_key site) fetched = Some results -> dget t results = Some r -> article_is fetch_full_text site t r.
Definition has (fetched : Fetched) (key : SiteKey) (t : str) : Prop := exists results, kget key fetched = Some results /\ is_Some (dget t results).

Lemma consume_one site titles fetched remaining p :
  match fetch_articles (language_from_site site) site titles fetch_full_text with
  | Ok results => exists fetched' remaining',
      (consume_site_future fetch_full_text (site_key site, titles) fetched remaining p).1 = Ok (fetched', remaining') /\
      (faithful fetched -> faithful fetched') /\ (forall key t, has fetched key t -> has fetched' key t) /\
      forall t, t ∈ titles -> has fetched' (site_key site) t
  | Raise e => (consume_site_future fetch_full_text (site_key site, titles) fetched remaining p).1 = Raise e
  end.
Proof.
  unfold consume_site_future, fetch_one_site_chunk, pbind at 1, lift. simpl.
  destruct (fetch_articles _ site titles _) as [results|e] eqn:E; [|done]. simpl.
  destruct (articles_agree fetch_full_text _ _ _ E) as (Hn & Hall & Hr).
  unfold advance_articles. rewrite reported by done. unfold pbind.
  assert (Hok : forall (c : bool) p', exists p'', (if c then complete_site 0 else ret tt) p' = (Ok tt, p'')).
  { intros [] p'; [eexists; by apply counting_ok|by eexists]. }
  destruct (Hok (default 0 (kget (site_key site) remaining) - 1 =? 0)
    ((fun q => mkProgress (qids_completed q) (qids_total q) (sites_completed q) (sites_total q) (articles_attempted q + len titles) (phase q)) <$> p))
    as [p'' ->].
  eexists _, _. split; [reflexivity|]. split_and!.
  - intros Hf site' rs t r. rewrite kget_kset. case_decide as Hk; [|by apply Hf]. intros [= <-]. rewrite dget_update by done.
    assert (site' = site) as -> by (unfold site_key in Hk; congruence). destruct (dget t results) as [r'|] eqn:Et.
    + intros [= ->]. by apply Hr.
    + destruct (kget (site_key site) fetched) as [old|] eqn:Eo; [|done]. by apply (Hf site old).
  - intros key t (rs & Hrs & Ht). unfold has. setoid_rewrite kget_kset. case_decide as Hk; [|by exists rs].
    eexists. split; [done|]. rewrite dget_update by done. destruct (dget t results); [done|]. subst. by rewrite Hrs.
  - intros t Ht. unfold has. setoid_rewrite kget_kset. rewrite decide_True by done. eexists. split; [done|].
    rewrite dget_update by done. by destruct (Hall t Ht) as [r ->].
Qed.

Definition answered (w : SiteWork) : Prop := returned (fetch_articles w.1.1 w.1.2 w.2 fetch_full_text).

Lemma consume_all work fetched remaining p :
  Forall (fun w => exists site, w.1 = site_key site) work ->
  let r := consume_site_futures fetch_full_text work fetched remaining p in
  (Forall answered work -> exists fetched', r.1 = Ok fetched') /\
  forall fetched', r.1 = Ok fetched' ->
    (faithful fetched -> faithful fetched') /\ (forall key t, has fetched key t -> has fetched' key t) /\
    forall key t, (key, t) ∈ asked work -> has fetched' key t.
Proof.
  revert fetched remaining p. induction work as [|[key titles] work IH]; intros fetched remaining p Hsites.
  - simpl. split; [by eexists|]. intros ? [= <-]. split_and!; [done..|]. by intros ? ? ?%elem_of_nil.
  - apply Forall_cons in Hsites as [[site Hsite] Hsites]. simpl in Hsite. subst key. simpl. unfold pbind.
    pose proof (consume_one site titles fetched remaining p) as H1.
    destruct (fetch_articles (language_from_site site) site titles fetch_full_text) as [results|e] eqn:E.
    + destruct H1 as (f1 & r1 & H1 & Hf & Hm & Ht). destruct (consume_site_future _ _ _ _ p) as [o p1]. simpl in H1. subst o. simpl.
      destruct (IH f1 r1 p1 Hsites) as [IH1 IH2]. split; [intros [_ Ha]%Forall_cons; by apply IH1|].
      intros f' Hf'. destruct (IH2 f' Hf') as (Hf2 & Hm2 & Ht2). split_and!; [auto..|].
      intros k t. unfold asked. csimpl. rewrite elem_of_app. intros [Hin|Hin]; [|by apply Ht2].
      apply list_elem_of_fmap in Hin as (t' & [= -> ->] & Hin). auto.
    + destruct (consume_site_future _ _ _ _ p) as [o p1]. simpl in H1. subst o. split; [|done].
      intros [[r Ha]%returned_spec _]%Forall_cons. simpl in Ha. congruence.
Qed.

(** The requests of some summaries, worked off in the order of completion. *)
Section Site.
Variable summaries : list LinkSummary.
Abbreviation requests := (build_site_requests summaries allow).
Abbreviation fetching := (fetch_site_work fetch_full_text completion (plan_site_work requests batch_size).1 requests (plan_site_work requests batch_size).2).

Lemma completed_sites : Forall (fun w => exists site, w.1 = site_key site) (completion (plan_site_work requests batch_size).1).
Proof.
  apply Forall_forall. intros w. rewrite completes. intros Hw. destruct (plan_bounded _ _ positive w Hw) as [Hne _].
  destruct w as [key [|t ts]]; [done|]. destruct (proj1 (elem_of_asked requests _ batch_size (build_requests_spec allow summaries) positive key t)) as (site & -> & _); [|by exists site].
  apply list_elem_of_bind. exists (key, t :: ts). split; [by left|done].
Qed.

Lemma fetching_answers p :
  (forall site title, wanted allow summaries site title -> exists context r, fetch_article (language_from_site site) site title context fetch_full_text = Ok r) ->
  exists fetched, (fetching p).1 = Ok fetched.
Proof.
  intros Hw. unfold fetch_site_work. apply (proj1 (consume_all _ _ _ p completed_sites)).
  pose proof completed_sites as Hs. rewrite Forall_forall in Hs. apply Forall_forall. intros w Hin. destruct (Hs w Hin) as [site Hsite].
  destruct w as [key titles]. simpl in Hsite. subst key. apply returned_spec. apply (articles_answered fetch_full_text site titles).
  intros t Ht. apply Hw. rewrite completes in Hin.
  assert (Ha : (site_key site, t) ∈ asked (plan_site_work requests batch_size).1)
    by (apply list_elem_of_bind; exists (site_key site, titles); split; [by apply list_elem_of_fmap; exists t|done]).
  apply (elem_of_asked _ _ batch_size (build_requests_spec allow summaries) positive) in Ha as (site' & Hk & Hw').
  unfold site_key in Hk. by simplify_eq.
Qed.

Lemma fetching_results p fetched site title :
  (fetching p).1 = Ok fetched -> wanted allow summaries site title ->
  exists r, fetched_result fetched site title = Ok r /\ article_is fetch_full_text site title r.
Proof.
  intros Hf Hw. destruct (proj2 (consume_all _ _ _ p completed_sites) _ Hf) as (Hfaith & _ & Hhas).
  assert (Ha : (site_key site, title) ∈ asked (completion (plan_site_work requests batch_size).1)).
  { rewrite (asked_perm _ _ (completes _)). apply (elem_of_asked _ _ batch_size (build_requests_spec allow summaries) positive). eauto. }
  destruct (Hhas _ _ Ha) as (results & Hr & [r Ht]). exists r. unfold fetched_result. fold (site_key site). rewrite Hr, Ht. split; [done|].
  eapply Hfaith; [|done|done]. intros site' rs t r' Hk Hd. apply kget_elem_of, list_elem_of_fmap in Hk as (kr & [= _ ->] & _). done.
Qed.
End Site.

(** ** Summaries *)

Definition link_summary (s : LinkSummary) : outcome LinkSummary :=
  match entity s with None => mret s | Some _ => link_entity_articles allow fetch_full_text s end.

Lemma apply_article_result_eq s site r : apply_article_result s site r = record_link_result s site r.
Proof.
  unfold apply_article_result, record_link_result. destruct (article r); simpl; destruct (str_eqb (status r) (u "article_not_found")); simpl; try done.
  by destruct (str_eqb _ _).
Qed.

Lemma populate_links fetched s :
  (forall site title, wants allow s site title -> exists r, fetched_result fetched site title = Ok r /\ article_is fetch_full_text site title r) ->
  populate_one_summary allow maximum fetched s =
    match entity s with None => mret s | Some _ => s' ← link_summary s; mret (truncate_articles maximum s') end.
Proof.
  intros Hw. unfold populate_one_summary, link_summary, link_entity_articles. destruct (entity s) as [e|] eqn:Es; [|done].
  erewrite fold_outcome_ext; [reflexivity|]. intros acc [site title] Hin. simpl. destruct (site_allowed site allow) eqn:Ha; [|done]. simpl.
  destruct (Hw site title) as (r & -> & Hr); [exists e; split_and!; [done|by apply elem_of_sorted_items|done]|].
  unfold fetch_entity_article. rewrite Hr. simpl. by rewrite apply_article_result_eq.
Qed.

Lemma link_wants s s' site title :
  link_summary s = Ok s' -> wants allow s site title ->
  exists context r, fetch_article (language_from_site site) site title context fetch_full_text = Ok r.
Proof.
  unfold link_summary, wants, link_entity_articles. intros H (e & He & Hin & Ha). rewrite He in H.
  apply elem_of_sorted_items in Hin. revert H. generalize s at 1. induction (sorted_items (sitelinks e)) as [|item l IH];
    [by apply elem_of_nil in Hin|]. intros s1 H. simpl in H. apply outcome_bind_Ok in H as (s2 & H1 & H2).
  apply elem_of_cons in Hin as [<-|Hin]; [|by eapply IH]. simpl in H1. rewrite Ha in H1. simpl in H1.
  apply outcome_bind_Ok in H1 as (r & Hr & _). unfold fetch_entity_article in Hr. eauto.
Qed.

Lemma truncate_new qid : truncate_articles maximum (new_summary qid None) = new_summary qid None.
Proof. unfold truncate_articles, new_summary, slice_to. destruct maximum; [|done]. simpl. by rewrite take_nil. Qed.

(** A single request, split at the entity. *)
Lemma link_qid_spec qid s :
  link_qid allow fetch_full_text qid = Ok s <-> exists e, single_entity qid = Ok e /\ link_summary (new_summary qid e) = Ok s.
Proof.
  unfold link_qid, single_entity, link_summary. destruct (is_valid_qid qid); simpl.
  - destruct (get_entity qid) as [[e|]|e]; simpl; [|by naive_solver..]. split; [by eauto|]. intros (e' & [= <-] & H). exact H.
  - split; [intros [= <-]; by eexists|]. by intros (e & [= <-] & [= <-]).
Qed.

Lemma compatibility_spec requested p ss :
  (fetch_compatibility_qids allow fetch_full_text maximum requested p).1 = Ok ss <->
  Forall2 (fun q s => exists s0, link_qid allow fetch_full_text q = Ok s0 /\ s = truncate_articles maximum s0) requested ss.
Proof.
  revert p ss. induction requested as [|q rest IH]; intros p ss; simpl; [split; [intros [= <-]; constructor|by intros ->%Forall2_nil_inv_l]|].
  unfold pbind at 1, lift at 1. destruct (link_qid allow fetch_full_text q) as [s0|e] eqn:El.
  - unfold advance_qids. rewrite reported by done. unfold pbind, ret. set (p' := _ <$> p). specialize (IH p').
    destruct (fetch_compatibility_qids _ _ _ rest p') as [[out|e] p1]; simpl in *; split.
    + intros [= <-]. constructor; [eauto|]. by apply IH.
    + intros H. apply Forall2_cons_inv_l in H as (s & ss' & (s1 & Hs1 & ->) & Hr & ->). apply IH in Hr. simplify_eq. congruence.
    + done.
    + intros H. apply Forall2_cons_inv_l in H as (s & ss' & _ & Hr & _). by apply IH in Hr.
  - split; [done|]. intros H. apply Forall2_cons_inv_l in H as (s & ss' & (s1 & Hs1 & _) & _). congruence.
Qed.

(** Both ways to link, from the entities on. *)
Lemma compatibility_entities requested p ss :
  (fetch_compatibility_qids allow fetch_full_text maximum requested p).1 = Ok ss <->
  exists es, Forall2 (fun q e => single_entity q = Ok e) requested es /\
    Forall2 (fun s0 s => (s' ← link_summary s0; mret (truncate_articles maximum s')) = Ok s) (zip_with new_summary requested es) ss.
Proof.
  rewrite compatibility_spec. revert ss. induction requested as [|q rest IH]; intros ss.
  - split.
    + intros ->%Forall2_nil_inv_l. exists []. by split; constructor.
    + by intros (es & ->%Forall2_nil_inv_l & ->%Forall2_nil_inv_l).
  - split.
    + intros H. apply Forall2_cons_inv_l in H as (s & ss' & (s1 & (e & He & Hl)%link_qid_spec & ->) & Hr & ->).
      apply IH in Hr as (es & Hes & Hss). exists (e :: es). split; [by constructor|]. simpl. constructor; [by rewrite Hl|done].
    + intros (es & Hes & Hss). apply Forall2_cons_inv_l in Hes as (e & es' & He & Hes & ->). simpl in Hss.
      apply Forall2_cons_inv_l in Hss as (s & ss' & Hs & Hss & ->). apply outcome_bind_Ok in Hs as (s' & Hl & Ht). simplify_eq.
      constructor; [|apply IH; eauto]. exists s'. split; [apply link_qid_spec; eauto|]. by injection Ht.
Qed.

Lemma populated fetched s :
  (exists q e, s = new_summary q e) ->
  (forall site title, wants allow s site title -> exists r, fetched_result fetched site title = Ok r /\ article_is fetch_full_text site title r) ->
  populate_one_summary allow maximum fetched s = (s' ← link_summary s; mret (truncate_articles maximum s')).
Proof.
  intros (q & e & ->) Hw. rewrite populate_links by done. unfold link_summary. simpl. destruct e; [done|]. simpl. by rewrite truncate_new.
Qed.

Lemma new_summaries requested es s : s ∈ zip_with new_summary requested es -> exists q e, s = new_summary q e.
Proof. intros (q & e & -> & _)%elem_of_zip_with. eauto. Qed.

(** Linking in batches and one request after the other return the same. *)
Lemma batched_compatible requested p q ss :
  (fetch_batched_qids allow fetch_full_text maximum batch_size completion requested p).1 = Ok ss <->
  (fetch_compatibility_qids allow fetch_full_text maximum requested q).1 = Ok ss.
Proof.
  rewrite compatibility_entities. unfold fetch_batched_qids. unfold pbind at 1.
  pose proof (batched_entities_spec requested p) as He. destruct (fetch_batched_entities batch_size requested p) as [[summaries|e] p1]; simpl in He.
  2:{ split; [done|]. intros (es & Hes & _). assert (Raise e = Ok (zip_with new_summary requested es)) by (apply He; eauto). done. }
  destruct (proj1 (He summaries) eq_refl) as (es & Hes & Hsum).
  unfold start_wikipedia. rewrite reported by done. set (p2 := _ <$> p1).
  destruct (plan_site_work _ _) as [work remaining] eqn:Ep. unfold pbind, lift.
  assert (Hwork : (work, remaining) = plan_site_work (build_site_requests summaries allow) batch_size) by done.
  pose proof (f_equal fst Hwork) as Hw1. pose proof (f_equal snd Hwork) as Hw2. simpl in Hw1, Hw2. rewrite Hw1, Hw2. clear Hwork Hw1 Hw2 Ep work remaining.
  assert (Hmap : forall fetched, (fetch_site_work fetch_full_text completion (plan_site_work (build_site_requests summaries allow) batch_size).1
      (build_site_requests summaries allow) (plan_site_work (build_site_requests summaries allow) batch_size).2 p2).1 = Ok fetched ->
    (mapM (populate_one_summary allow maximum fetched) summaries = Ok ss <->
     Forall2 (fun s0 s => (s' ← link_summary s0; mret (truncate_articles maximum s')) = Ok s) summaries ss)).
  { intros fetched Hf.
    assert (Hpop : forall s, s ∈ summaries -> populate_one_summary allow maximum fetched s = (s' ← link_summary s; mret (truncate_articles maximum s'))).
    { intros s Hs. apply populated; [subst; by eapply new_summaries|]. intros site title Hw. eapply fetching_results; [exact Hf|by exists s]. }
    by rewrite (mapM_ext_in _ _ _ Hpop), mapM_Forall2. }
  destruct (fetch_site_work _ _ _ _ _ p2) as [[fetched|e] p3] eqn:Ef; simpl.
  - rewrite (Hmap fetched eq_refl). subst summaries. split; [by eauto|]. intros (es' & Hes' & Hss).
    apply mapM_Forall2 in Hes, Hes'. rewrite Hes in Hes'. by simplify_eq.
  - split; [done|]. intros (es' & Hes' & Hss). exfalso.
    assert (es' = es) as -> by (apply mapM_Forall2 in Hes, Hes'; congruence). rewrite <- Hsum in Hss.
    destruct (fetching_answers summaries p2) as [fetched Hf]; [|by rewrite Ef in Hf].
    intros site title (s & Hs & Hw). apply list_elem_of_lookup in Hs as [i Hi]. destruct (Forall2_lookup_l _ _ _ _ _ Hss Hi) as (s' & _ & Hl).
    apply outcome_bind_Ok in Hl as (s'' & Hl & _). by eapply link_wants.
Qed.
End Equivalence.

(** ** Progress *)

Section Progress.
Context {batch_wikidata : BatchWikidataClient} {batch_wikipedia : BatchWikipediaClient}.
Variable fetch_full_text : bool.

(** How often a site still has to answer. *)
Definition pending_chunks (key : SiteKey) (work : list SiteWork) : Z := len (filter (fun w => w.1 = key) work).

Lemma len_remove_dups (key : SiteKey) (l : list SiteKey) :
  len (remove_dups (key :: l)) = (if decide (key ∈ l) then 0 else 1) + len (remove_dups l).
Proof. unfold len. simpl. destruct (decide_rel (∈) key l); case_decide; simpl; done || lia. Qed.

Lemma consume_progress work fetched remaining pr fetched' p' :
  (forall key, key ∈ work.*1 -> kget key remaining = Some (pending_chunks key work)) ->
  consume_site_futures fetch_full_text work fetched remaining (Some pr) = (Ok fetched', p') ->
  p' = Some (mkProgress (qids_completed pr) (qids_total pr) (sites_completed pr + len (remove_dups work.*1)) (sites_total pr)
    (articles_attempted pr + len (asked work)) (phase pr)).
Proof.
  revert fetched remaining pr. induction work as [|[key titles] work IH]; intros fetched remaining pr Hrem.
  - simpl. intros [= <- <-]. unfold len. simpl. destruct pr. simpl. by rewrite !Z.add_0_r.
  - cbn [consume_site_futures]. unfold pbind at 1, consume_site_future, pbind at 1, lift.
    destruct (fetch_one_site_chunk _ _) as [[key' results]|e] eqn:E; [|done].
    assert (key' = key) as ->.
    { unfold fetch_one_site_chunk in E. simpl in E. destruct (fetch_articles _ _ _ _); simpl in E; [by injection E|done]. }
    unfold advance_articles. rewrite reported by done.
    assert (Hk : kget key remaining = Some (pending_chunks key work + 1)).
    { rewrite Hrem by (csimpl; by left). unfold pending_chunks, len. rewrite filter_cons_True by done. simpl. f_equal. lia. }
    rewrite Hk. cbn [from_option fst snd]. unfold id. replace (pending_chunks key work + 1 - 1) with (pending_chunks key work) by lia.
    assert (Hstep : forall key', key' ∈ work.*1 ->
      kget key' (kset key (pending_chunks key work) remaining) = Some (pending_chunks key' work)).
    { intros key' Hin. rewrite kget_kset. case_decide as Hd; [by subst|]. rewrite Hrem by (csimpl; by right).
      unfold pending_chunks. by rewrite filter_cons_False. }
    assert (Hlen : len (asked ((key, titles) :: work)) = len titles + len (asked work)).
    { unfold len, asked. csimpl. rewrite length_app, length_fmap. lia. }
    assert (Hdups : len (remove_dups ((key, titles) :: work).*1) =
      (if decide (key ∈ work.*1) then 0 else 1) + len (remove_dups work.*1)).
    { apply len_remove_dups. }
    rewrite Hlen, Hdups. clear Hlen Hdups. unfold pbind. destruct (Z.eqb_spec (pending_chunks key work) 0) as [Hz|Hz].
    + unfold complete_site. rewrite counting_ok by lia. simpl. intros H. apply IH in H as ->; [|done]. simpl.
      assert (Hn : key ∉ work.*1).
      { intros Hin%list_elem_of_fmap. destruct Hin as (w & -> & Hw). unfold pending_chunks, len in Hz.
        assert (Hf : w ∈ filter (fun w' => w'.1 = w.1) work) by by apply list_elem_of_filter.
        destruct (filter _ work); [by apply elem_of_nil in Hf|simpl in Hz; lia]. }
      rewrite decide_False by done. do 2 f_equal; lia.
    + simpl. intros H. apply IH in H as ->; [|done]. simpl.
      assert (Hn : key ∈ work.*1).
      { destruct (decide (key ∈ work.*1)) as [|Hn]; [done|]. destruct Hz. unfold pending_chunks.
        destruct (filter _ work) as [|w l] eqn:Ef; [done|]. assert (w ∈ filter (fun w => w.1 = key) work) as [<- Hw]%list_elem_of_filter
          by (rewrite Ef; by left). destruct Hn. by apply list_elem_of_fmap_2. }
      rewrite decide_True by done. do 2 f_equal; lia.
Qed.

Lemma entity_chunks_progress work pr es p' :
  fetch_entity_chunks work (Some pr) = (Ok es, p') ->
  p' = Some (mkProgress (qids_completed pr + len (mjoin work)) (qids_total pr) (sites_completed pr) (sites_total pr) (articles_attempted pr) (phase pr)).
Proof.
  revert pr es p'. induction work as [|chunk work IH]; intros pr es p'.
  - intros [= _ <-]. destruct pr. simpl. unfold len. simpl. by rewrite Z.add_0_r.
  - cbn [fetch_entity_chunks]. unfold pbind at 1, lift. destruct (get_entities chunk); [|done]. unfold advance_qids. rewrite reported by done.
    unfold pbind, ret. destruct (fetch_entity_chunks work _) as [[more|e] p1] eqn:E; [|done]. simpl in E. apply IH in E as ->.
    intros [= _ <-]. unfold len. csimpl. rewrite length_app. do 2 f_equal. lia.
Qed.

Variable allow : option (gset str).
Variable maximum : option Z.
Variable batch_size : Z.
Variable completion : list SiteWork -> list SiteWork.
Hypothesis positive : 1 <= batch_size.
Hypothesis completes : forall work, completion work ≡ₚ work.

Lemma filter_pairs {B} (key key' : SiteKey) (l : list B) :
  filter (fun w => w.1 = key) (pair key' <$> l) = if decide (key' = key) then pair key' <$> l else [].
Proof.
  induction l as [|x l IH]; csimpl; [by case_decide|]. case_decide.
  - rewrite filter_cons_True, IH; done.
  - by rewrite filter_cons_False.
Qed.

Lemma filter_bind {B C} (f : B -> list C) (requests : list (SiteKey * B)) key rows :
  NoDup requests.*1 -> (key, rows) ∈ requests ->
  filter (fun w => w.1 = key) (requests ≫= fun kr => pair kr.1 <$> f kr.2) = pair key <$> f rows.
Proof.
  assert (Hother : forall l : list (SiteKey * B), key ∉ l.*1 -> filter (fun w => w.1 = key) (l ≫= fun kr => pair kr.1 <$> f kr.2) = []).
  { induction l as [|[k r] l IH]; csimpl; [done|]. intros [Hk Hl]%not_elem_of_cons. rewrite filter_app, filter_pairs, IH by done.
    by rewrite decide_False. }
  induction requests as [|[k r] l IH]; csimpl; [by intros _ ?%elem_of_nil|]. intros [Hk Hl]%NoDup_cons Hin. rewrite filter_app, filter_pairs.
  apply elem_of_cons in Hin as [[= -> ->]|Hin].
  - by rewrite decide_True, Hother, app_nil_r.
  - rewrite decide_False, IH; [done..|]. intros ->. apply Hk. by eapply elem_of_fst.
Qed.

#[local] Instance pending_chunks_proper key : Proper ((≡ₚ) ==> (=)) (pending_chunks key).
Proof. intros l k H. unfold pending_chunks, len. by rewrite H. Qed.

Lemma plan_remaining requests P key :
  requests_for requests P -> key ∈ (plan_site_work requests batch_size).1.*1 ->
  kget key (plan_site_work requests batch_size).2 = Some (pending_chunks key (plan_site_work requests batch_size).1).
Proof.
  intros [Hn _ _ _]. rewrite plan_perm. intros (w & -> & ([k rows] & Hw & Hin)%list_elem_of_bind)%list_elem_of_fmap.
  apply list_elem_of_fmap in Hw as (c & -> & _). simpl. unfold pending_chunks, len.
  rewrite (filter_bind (fun rows : list SiteRequest => chunks (fromkeys rows.*2) (Z.to_nat batch_size)) _ _ _ Hn Hin), length_fmap.
  apply kget_NoDup; unfold plan_site_work, round_robin_site_work, chunk_site_titles, unique_site_titles; simpl; rewrite <- !list_fmap_compose; [exact Hn|].
  apply list_elem_of_fmap. by exists (k, rows).
Qed.

Lemma populate_entity fetched s s' : populate_one_summary allow maximum fetched s = Ok s' -> entity s' = entity s.
Proof.
  unfold populate_one_summary. destruct (entity s) as [e|] eqn:Es; [|by intros [= <-]]. intros H. apply outcome_bind_Ok in H as (s1 & H & Ht).
  assert (He : entity s' = entity s1) by (unfold truncate_articles in Ht; destruct maximum; by injection Ht as <-). rewrite He, <- Es. clear He Ht Es s'.
  revert s H. induction (sorted_items (sitelinks e)) as [|item l IH]; intros s H; simpl in H; [by injection H as <-|].
  apply outcome_bind_Ok in H as (s2 & H1 & H2). rewrite (IH _ H2). destruct (negb _); [by injection H1 as <-|].
  apply outcome_bind_Ok in H1 as (r & _ & H1). injection H1 as <-. rewrite apply_article_result_eq. unfold record_link_result.
  destruct (article r); [|done]. by destruct (str_eqb _ _).
Qed.

Lemma site_count requests P :
  requests_for requests P -> len (remove_dups (completion (plan_site_work requests batch_size).1).*1) = len requests.
Proof.
  intros [Hn Hne _ _]. unfold len. f_equal. rewrite <- (length_fmap fst requests). apply Permutation_length, NoDup_Permutation; [apply NoDup_remove_dups|done|].
  intros key. rewrite elem_of_remove_dups, completes, plan_perm, list_elem_of_fmap. split.
  - intros (w & -> & ([k rows] & Hw & Hin)%list_elem_of_bind). apply list_elem_of_fmap in Hw as (c & -> & _). simpl. by eapply elem_of_fst.
  - intros ([k rows] & -> & Hin)%list_elem_of_fmap. simpl.
    destruct (chunks (fromkeys rows.*2) (Z.to_nat batch_size)) as [|c cs] eqn:Ec.
    + apply chunks_empty in Ec; [|lia]. destruct rows as [|[[i site] t] rest]; [by destruct (Hne _ _ Hin)|].
      assert (Ht : t ∈ fromkeys ((i, site, t) :: rest).*2) by (apply elem_of_fromkeys; csimpl; by left). rewrite Ec in Ht. by apply elem_of_nil in Ht.
    + exists (k, c). split; [done|]. apply list_elem_of_bind. exists (k, rows). split; [|done]. simpl. rewrite Ec. by left.
Qed.

Lemma wanted_populated fetched summaries ss site title :
  mapM (populate_one_summary allow maximum fetched) summaries = Ok ss ->
  (wanted allow ss site title <-> wanted allow summaries site title).
Proof.
  intros H%mapM_Forall2. unfold wanted, wants.
  split; intros (s & [i Hi]%list_elem_of_lookup & Hw).
  - destruct (Forall2_lookup_r _ _ _ _ _ H Hi) as (s0 & Hs0 & Hp%populate_entity). exists s0. rewrite <- Hp.
    split; [|done]. by eapply list_elem_of_lookup_2.
  - destruct (Forall2_lookup_l _ _ _ _ _ H Hi) as (s1 & Hs1 & Hp%populate_entity). exists s1. rewrite Hp.
    split; [|done]. by eapply list_elem_of_lookup_2.
Qed.

(** What a batched run has reported when it returns. *)
Lemma batched_progress requested pr ss p' :
  fetch_batched_qids allow fetch_full_text maximum batch_size completion requested (Some pr) = (Ok ss, p') ->
  exists sites articles, NoDup sites /\ NoDup articles /\
    (forall key, key ∈ sites <-> exists title, (key, title) ∈ articles) /\
    (forall key title, (key, title) ∈ articles <-> exists site, key = site_key site /\ wanted allow ss site title) /\
    p' = Some (mkProgress (qids_completed pr + len requested) (qids_total pr) (sites_completed pr + len sites) (len sites)
      (articles_attempted pr + len articles) (u "wikipedia")).
Proof.
  unfold fetch_batched_qids, fetch_batched_entities. unfold pbind at 1. unfold pbind at 1.
  destruct (fetch_entity_chunks _ (Some pr)) as [[es|e] p1] eqn:Ee; [|done]. apply entity_chunks_progress in Ee as ->.
  rewrite join_chunks by lia. case_bool_decide; [|done]. unfold ret at 1. set (summaries := zip_with _ _ _).
  unfold start_wikipedia. rewrite reported by done. cbn [fmap option_fmap option_map].
  pose proof (build_requests_spec allow summaries) as Hreq.
  destruct (plan_site_work _ _) as [work remaining] eqn:Ep. assert (Hwork : work = (plan_site_work (build_site_requests summaries allow) batch_size).1) by by rewrite Ep.
  assert (Hrem : forall key, key ∈ (completion work).*1 -> kget key remaining = Some (pending_chunks key (completion work))).
  { intros key. rewrite completes. intros Hk. pose proof (plan_remaining _ _ key Hreq) as Hp. rewrite Ep in Hp. by apply Hp. }
  unfold pbind, lift, fetch_site_work. destruct (consume_site_futures _ _ _ _ _) as [[fetched|e] p2] eqn:Ec; [|done].
  intros [= Hss <-]. apply consume_progress in Ec as ->; [|done]. simpl. rewrite Hwork, (site_count _ _ Hreq). clear Hwork Hrem Ep.
  exists (build_site_requests summaries allow).*1, (asked (plan_site_work (build_site_requests summaries allow) batch_size).1).
  assert (Hasked : forall key title, (key, title) ∈ asked (plan_site_work (build_site_requests summaries allow) batch_size).1 <->
    exists site, key = site_key site /\ wanted allow summaries site title) by (intros; by apply elem_of_asked).
  split_and!.
  - apply Hreq.
  - eapply asked_NoDup; done.
  - intros key. setoid_rewrite Hasked. destruct Hreq as [_ Hne Hs Hc]. split.
    + intros ([k rows] & -> & Hin)%list_elem_of_fmap. destruct rows as [|[[i site] title] rest]; [by destruct (Hne _ _ Hin)|].
      exists title, site. eapply Hs; [exact Hin|by left].
    + intros (title & site & -> & Hw). destruct (Hc _ _ Hw) as (rows & i & Hin & _). by eapply elem_of_fst.
  - intros key title. rewrite Hasked.
    pose proof (fun site title => wanted_populated fetched summaries ss site title Hss) as Hp. by setoid_rewrite Hp.
  - unfold len. rewrite !length_fmap. rewrite (Permutation_length (asked_perm _ _ (completes _))). done.
Qed.
End Progress.

(** * The entry point *)

Section FetchQids.
Context {wikidata : WikidataClient} {wikipedia : WikipediaClient} (batch_wikidata : BatchWikidataClient) (batch_wikipedia : BatchWikipediaClient).
Variable completion : list SiteWork -> list SiteWork.
Variable languages : option (list str).
Variable fetch_full_text : bool.
Variable max_articles_per_qid : option Z.
Variables batch_size site_workers : Z.
Hypothesis completes : forall work, completion work ≡ₚ work.

Abbreviation linking batched := (fetch_qids batched completion languages fetch_full_text max_articles_per_qid batch_size site_workers).

(** C27: Batching and concurrency are invisible.  When the batch clients answer as the single
    clients do, then for every batch size, every allow-list and every order in which the threads
    finish, linking in batches returns exactly what linking one identifier and one article after the
    other returns, and it returns when that does. *)
Theorem batched_linking_is_sequential_linking requested p q ss :
  BatchAgrees fetch_full_text ->
  (linking (Some (batch_wikidata, batch_wikipedia)) requested p).1 = Ok ss <-> (linking None requested q).1 = Ok ss.
Proof.
  intros Ha. unfold fetch_qids, set_qids_total. unfold pbind at 1 3, lift. unfold validate_fetch_options.
  destruct (Z.ltb_spec batch_size 1); [done|]. destruct (site_workers <? 1); [done|]. rewrite !reported by done. by apply batched_compatible.
Qed.

(** Progress is exact.  When a batched linking returns, the reported counters say that every
    requested identifier is resolved and every site completed, and that as many articles were
    attempted as there are distinct articles the entities have on the allowed sites: each of them
    was asked for exactly once. *)
Theorem linking_progress_is_exact requested n ss p' :
  linking (Some (batch_wikidata, batch_wikipedia)) requested (Some (new_progress n)) = (Ok ss, p') ->
  exists articles pr, NoDup articles /\
    (forall key title, (key, title) ∈ articles <-> exists site, key = site_key site /\ wanted (list_to_set <$> languages) ss site title) /\
    p' = Some pr /\ qids_completed pr = qids_total pr /\ qids_total pr = len requested /\ sites_completed pr = sites_total pr /\
    articles_attempted pr = len articles.
Proof.
  unfold fetch_qids, set_qids_total. unfold pbind at 1, lift. unfold validate_fetch_options.
  destruct (Z.ltb_spec batch_size 1); [done|]. destruct (site_workers <? 1); [done|]. unfold mret, outcome_ret. rewrite reported by done.
  intros Hb. apply batched_progress in Hb as (sites & articles & _ & Hn & _ & Hart & ->); [|lia|done].
  eexists articles, _. split_and!; [done|exact Hart|reflexivity|..]; simpl; unfold len; lia.
Qed.

(** C28: Requests are bounded.  For any summaries, every planned request is for at least one and at
    most [batch_size] titles of one site, and over all requests the articles the entities have on
    the allowed sites are asked for exactly once each, and nothing else. *)
Theorem site_requests_are_bounded summaries allow :
  1 <= batch_size ->
  let work := (plan_site_work (build_site_requests summaries allow) batch_size).1 in
  Forall (fun w => w.2 ≠ [] /\ len w.2 <= batch_size) work /\
  NoDup (work ≫= fun w => pair w.1 <$> w.2) /\
  forall key title, (key, title) ∈ (work ≫= fun w => pair w.1 <$> w.2) <-> exists site, key = site_key site /\ wanted allow summaries site title.
Proof.
  intros Hpos work. pose proof (build_requests_spec allow summaries) as Hreq. split_and!.
  - apply Forall_forall. intros w Hw. by eapply plan_bounded.
  - by eapply asked_NoDup.
  - intros key title. by eapply elem_of_asked.
Qed.
End FetchQids.

(** * Example

    Two items with articles on three sites, linked in batches of two whose results arrive in reverse
    order; the batch clients are those the single clients give, as [_fetch_full_text_batch] of
    [enrichment/wikipedia/transport.py] does. *)

(** * Batches from single requests *)

Section FromSingle.
Context {wikidata : WikidataClient} {wikipedia : WikipediaClient}.

(** The context a batch gives. *)
Definition no_context : WikipediaEntityContext := {| context_label := []; context_description := []; context_aliases := [] |}.

(** [{title: self.fetch_article(language, site, title, fetch_full_text=True) for title in requested}]
    of the distinct titles. *)
Definition fetch_full_text_batch : BatchWikipediaClient := fun language site titles fetch_full_text =>
  mapM (fun title => r ← fetch_article language site title no_context fetch_full_text; mret (title, r)) (fromkeys titles).

Definition entities_one_by_one : BatchWikidataClient := mapM single_entity.

(** The single client does not use the context, as [parse_wikipedia_response] deletes it. *)
Hypothesis context_free : forall language site title c c' full,
  fetch_article language site title c full = fetch_article language site title c' full.

Lemma full_text_batch_spec language site titles full results :
  fetch_full_text_batch language site titles full = Ok results <->
  Forall2 (fun t kr => kr.1 = t /\ fetch_article language site t no_context full = Ok kr.2) (fromkeys titles) results.
Proof.
  unfold fetch_full_text_batch. rewrite mapM_Forall2. split; intros H; (eapply Forall2_impl; [exact H|]); intros t [k r]; simpl.
  - intros (r' & Hr & [= <- <-])%outcome_bind_Ok. done.
  - intros [-> ->]. done.
Qed.

Lemma single_batches_agree full : @BatchAgrees wikidata wikipedia entities_one_by_one fetch_full_text_batch full.
Proof.
  split; [done|..].
  - intros site titles results H%full_text_batch_spec.
    assert (Hk : results.*1 = fromkeys titles).
    { induction H as [|t [k r] ts rs [<- _] _ IH]; csimpl; [done|]. simpl. by rewrite IH. }
    rewrite Hk. split_and!; [apply fromkeys_NoDup| |].
    + intros t Ht%elem_of_fromkeys. destruct (dget t results) eqn:E; [done|]. apply dget_None in E. by rewrite Hk in E.
    + intros t r Hd%dget_elem_of context. apply list_elem_of_lookup in Hd as [i Hi].
      destruct (Forall2_lookup_r _ _ _ _ _ H Hi) as (t' & _ & [<- Hr]). by erewrite context_free.
  - intros site titles H. assert (Hall : forall t, t ∈ fromkeys titles -> exists context r, fetch_article (language_from_site site) site t context full = Ok r)
      by (intros t Ht; apply H; by apply elem_of_fromkeys).
    clear H. setoid_rewrite full_text_batch_spec. induction (fromkeys titles) as [|t ts IH]; [by exists []|].
    destruct IH as [rs Hrs]; [intros; apply Hall; by right|]. destruct (Hall t) as (c & r & Hr); [by left|].
    exists ((t, r) :: rs). constructor; [|done]. split; [done|]. by erewrite context_free.
Qed.
End FromSingle.

(** * A run *)

Definition an_article (language site title : str) : WikipediaArticle := {|
  article_language := language; article_site := site; article_title := title; page_id := 1; revision_id := 1;
  revision_timestamp := []; article_url := []; lead_text := []; extract := []; full_text := title; full_text_format := [];
  thumbnail_url := []; thumbnail_width := None; thumbnail_height := None; categories := []; license := []; attribution := [];
  source_api := []; retrieved_at := [] |}.

Definition an_entity (q : str) (sites : list (str * str)) : WikidataEntity :=
  {| entity_qid := q; sitelinks := sites; labels := []; descriptions := []; aliases := [] |}.

#[local] Instance example_wikidata : WikidataClient := fun q =>
  Ok (if str_eqb q (u "Q1") then Some (an_entity q [(u "enwiki", u "Malta"); (u "dewiki", u "Malta")])
      else if str_eqb q (u "Q2") then Some (an_entity q [(u "enwiki", u "Samoa"); (u "frwiki", u "Samoa")])
      else None).
(** There is no German article. *)
#[local] Instance example_wikipedia : WikipediaClient := fun language site title _ _ =>
  Ok (if str_eqb site (u "dewiki") then {| status := u "article_not_found"; article := None; fetch_error := u "missing" |}
      else {| status := u "ok"; article := Some (an_article language site title); fetch_error := [] |}).

Definition linking_example (batched : bool) (p : option EnrichmentProgress) : outcome (list LinkSummary) * option EnrichmentProgress :=
  fetch_qids (if batched then Some (entities_one_by_one, fetch_full_text_batch) else None) (fun work => reverse work)
    None true None 2 5 [u "Q1"; u "Q2"; u "no"] p.

Definition linked_example : list LinkSummary :=
  [mkSummary (u "Q1") (Some (an_entity (u "Q1") [(u "enwiki", u "Malta"); (u "dewiki", u "Malta")]))
     [an_article (u "en") (u "enwiki") (u "Malta")] [(u "dewiki", u "article_not_found"); (u "enwiki", u "ok")] [(u "dewiki", u "missing")];
   mkSummary (u "Q2") (Some (an_entity (u "Q2") [(u "enwiki", u "Samoa"); (u "frwiki", u "Samoa")]))
     [an_article (u "en") (u "enwiki") (u "Samoa"); an_article (u "fr") (u "frwiki") (u "Samoa")]
     [(u "enwiki", u "ok"); (u "frwiki", u "ok")] [];
   new_summary (u "no") None].

Example linked_one_by_one : (linking_example false None).1 = Ok linked_example.
Proof. vm_compute. reflexivity. Qed.

Lemma example_agrees : @BatchAgrees example_wikidata example_wikipedia entities_one_by_one fetch_full_text_batch true.
Proof. apply single_batches_agree. reflexivity. Qed.

Lemma reverse_completes : forall work : list SiteWork, reverse work ≡ₚ work.
Proof. intros. apply reverse_Permutation. Qed.

Lemma batched_linking_is_sequential_linking_witness : (linking_example true None).1 = Ok linked_example.
Proof.
  apply (batched_linking_is_sequential_linking entities_one_by_one fetch_full_text_batch (fun work => reverse work) None true None 2 5
    reverse_completes [u "Q1"; u "Q2"; u "no"] None None linked_example example_agrees).
  exact linked_one_by_one.
Defined.

(** Four articles on three sites. *)
Lemma linking_progress_is_exact_witness :
  exists (articles : list (SiteKey * str)) pr, (linking_example true (Some (new_progress 0))).2 = Some pr /\ NoDup articles /\
    qids_completed pr = 3 /\ sites_completed pr = sites_total pr /\ articles_attempted pr = len articles.
Proof.
  assert (E : linking_example true (Some (new_progress 0)) = (Ok linked_example, (linking_example true (Some (new_progress 0))).2)).
  { rewrite (surjective_pairing (linking_example _ _)) at 1. apply (f_equal2 pair); [vm_compute; reflexivity|reflexivity]. }
  destruct (linking_progress_is_exact entities_one_by_one fetch_full_text_batch (fun work => reverse work) None true None 2 5
    reverse_completes [u "Q1"; u "Q2"; u "no"] 0 linked_example _ E) as (articles & pr & Hn & _ & Hp & Hq & Ht & Hs & Ha).
  exists articles, pr. split; [exact Hp|]. split; [exact Hn|]. rewrite Hq, Ht. split; [reflexivity|]. split; [exact Hs|exact Ha].
Defined.

Lemma site_requests_are_bounded_witness :
  Forall (fun w => w.2 ≠ [] /\ len w.2 <= 2) (plan_site_work (build_site_requests linked_example None) 2).1.
Proof. apply (site_requests_are_bounded 2 linked_example None). lia. Defined.
