(* ===== verification/Uploader.v ===== *)
(** Commits to the Hub ([hf/_uploader/operations.py]): translation of publication operations, the
    safety rules a commit has to meet, the filtering of deletes of absent files, the commit and the
    translation of the client's errors; and the in-memory Hub ([hf/_uploader/stub.py]). *)
From stdpp Require Import gmap sorting.
From S2P Require Import Prelude Py PyStr Fs Artifacts Retry UploadState UploadQueue.

(** * Operations of a commit *)

(** [CommitOperationAdd] and [CommitOperationDelete] of the client; an added file is named by its
    local path.  The client's constructors also refuse a local path that is no file and a remote path
    that is not relative or has dot segments; those checks are the client's and are not modelled. *)
Inductive CommitOperation :=
  | CommitAdd (path_in_repo : str) (path_or_fileobj : path)
  | CommitDelete (path_in_repo : str).

Definition commit_path (o : CommitOperation) : str := match o with CommitAdd p _ | CommitDelete p => p end.

(** An [UploadError]; its attribute [transient] is kept in the place of [errno]. *)
Definition upload_error (m : pymsg) (transient : bool) : exn :=
  MkExn UploadError m (if transient then Some 1 else None) None None None None.
Definition refuse {A} (m : pymsg) : outcome A := Raise (upload_error m false).

Definition publication_source_path (op : PublicationOp) (t : gmap path node) : outcome path :=
  match snapshot_path op with
  | Some p => if is_file p t then mret p else refuse [FStr (u "Snapshot file does not exist: " ++ path_str p)]
  | None =>
      match local_path op with
      | None => refuse [FStr (u "Publication op has no local file: " ++ path_in_repo op)]
      | Some p => if path_exists p t then mret p else refuse [FStr (u "Local file does not exist: " ++ path_str p)]
      end
  end.

Definition translate_publication_op (t : gmap path node) (op : PublicationOp) : outcome CommitOperation :=
  if str_eqb (action op) (u "add") then source ← publication_source_path op t; mret (CommitAdd (path_in_repo op) source)
  else if str_eqb (action op) (u "delete") then mret (CommitDelete (path_in_repo op))
  else refuse [FStr (u "Unknown action: "); FRepr (VStr (action op))].

Record Prepared := { operations : list CommitOperation; add_paths : gset str; delete_paths : gset str }.

Definition build_publication_operations (ops : list PublicationOp) (t : gmap path node) : outcome Prepared :=
  out ← mapM (translate_publication_op t) ops;
  mret {| operations := out;
          add_paths := list_to_set (path_in_repo <$> filter (fun op => action op = u "add") ops);
          delete_paths := list_to_set (path_in_repo <$> filter (fun op => action op ≠ u "add") ops) |}.

Definition build_file_operations (files : list (path * str)) (t : gmap path node) : outcome Prepared :=
  out ← mapM (fun '(local, remote) =>
          if path_exists local t then mret (CommitAdd remote local)
          else refuse [FStr (u "Local file does not exist: " ++ path_str local)]) files;
  mret {| operations := out; add_paths := list_to_set files.*2; delete_paths := ∅ |}.

Definition prepare_upload_operations (files : option (list (path * str))) (ops : option (list PublicationOp)) (t : gmap path node)
    : outcome Prepared :=
  match files, ops with
  | None, Some ops => build_publication_operations ops t
  | Some files, None => build_file_operations files t
  | _, _ => refuse (msg "upload_files requires exactly one of `files=` or `ops=`")
  end.

(** * Safety *)

Definition LEGACY_PATHS_REQUIRING_CANONICAL : list (str * str) :=
  [(u "augmentation/manifests/augmentation_manifest.json", u "manifests/augmentation_manifest.json");
   (u "coverage_map.png", u "assets/coverage_map.png");
   (u "assets/geographic_wikipedia_text_coverage.png", u "assets/geographic_text_density.png");
   (u "assets/geographic_polygon_count.png", u "assets/geographic_text_density.png")].

Fixpoint validate_paired_legacy (pairs : list (str * str)) (adds deletes : gset str) : outcome unit :=
  match pairs with
  | [] => mret tt
  | (legacy, canonical) :: rest =>
      if bool_decide (legacy ∈ deletes) && bool_decide (canonical ∉ adds)
      then refuse [FStr (u "Refusing to delete legacy "); FRepr (VStr legacy); FStr (u " without also uploading its canonical replacement ");
             FRepr (VStr canonical); FStr (u " in the same commit.")]
      else validate_paired_legacy rest adds deletes
  end.
Definition validate_paired_legacy_deletes : gset str -> gset str -> outcome unit := validate_paired_legacy LEGACY_PATHS_REQUIRING_CANONICAL.

Definition is_article_path (p : str) : bool := startswith (u "articles/") p && endswith (u ".parquet") p.
Definition canonical_document (p : str) : str := u "wikipedia/documents/" ++ path_name (path_components p).

Fixpoint validate_paired_articles (legacy_paths : list str) (adds : gset str) : outcome unit :=
  match legacy_paths with
  | [] => mret tt
  | p :: rest =>
      if is_article_path p && bool_decide (canonical_document p ∉ adds)
      then refuse [FStr (u "Refusing to delete legacy "); FRepr (VStr p); FStr (u " without also uploading its canonical replacement ");
             FRepr (VStr (canonical_document p)); FStr (u " in the same commit")]
      else validate_paired_articles rest adds
  end.
Definition validate_paired_article_deletes (adds deletes : gset str) : outcome unit :=
  validate_paired_articles (sorted_strs (elements deletes)) adds.

Definition canonical_region_prefixes : list str :=
  [u "polygons/"; u "polygon_articles/"; u "wikipedia/documents/"; u "wikipedia/sections/"; u "wikivoyage/documents/";
   u "wikivoyage/sections/"; u "wikidata/facts/"].
Definition is_canonical_region_path (p : str) : bool :=
  existsb (fun prefix => startswith prefix p) canonical_region_prefixes && endswith (u ".parquet") p.
Definition canonical_region_deletes (deletes : gset str) : gset str := filter (fun p => is_canonical_region_path p = true) deletes.

Definition containment_manifest : str := u "manifests/containment_retirements.json".
Definition validate_paired_canonical_deletes (adds deletes : gset str) : outcome unit :=
  if bool_decide (canonical_region_deletes deletes ≠ ∅) && bool_decide (containment_manifest ∉ adds)
  then refuse (msg "Refusing to delete canonical region artifacts without uploading manifests/containment_retirements.json in the same commit")
  else mret tt.

Definition validate_upload_safety (adds deletes : gset str) : outcome unit :=
  _ ← validate_paired_legacy_deletes adds deletes;
  _ ← validate_paired_article_deletes adds deletes;
  validate_paired_canonical_deletes adds deletes.

Definition validate_upload_operations (ops : list CommitOperation) : outcome unit :=
  _ ← raise_if (bool_decide (length ops = 0%nat)) (upload_error (msg "Cannot create an empty upload commit") false);
  raise_if (negb (bool_decide (NoDup (commit_path <$> ops)))) (upload_error (msg "Upload commit contains duplicate remote paths") false).

(** * The Hub *)

(** What [create_commit] may return. *)
Inductive CommitInfo :=
  | InfoText (s : str)
  | InfoDict (d : pydict)
  | InfoObject (oid commit_oid sha : pyval).

(** The client's contract ([hf/_uploader/protocol.py]); it reads the files it uploads. *)
Class HfHub (R : Type) := {
  create_repo : str -> PyM R unit;
  file_exists : str -> str -> PyM R bool;
  create_commit : str -> list CommitOperation -> str -> Z -> gmap path node -> PyM R CommitInfo;
  hub_upload_file : str -> list N + path -> str -> str -> gmap path node -> PyM R str }.

Definition commit_identity_candidates (result : CommitInfo) : list pyval :=
  match result with
  | InfoText _ => [VNone; VNone; VNone]
  | InfoDict d => [dget_none (u "oid") d; dget_none (u "commit_oid") d; dget_none (u "sha") d]
  | InfoObject oid commit_oid sha => [oid; commit_oid; sha]
  end.

Section Uploader.
Context {RT : Runtime} {R : Type} `{!HfHub R}.
(** What an exception of the client says (status code and message), and [sanitize_server_message]. *)
Variable error_details : exn -> option Z * str.
Variable sanitize_server_message : str -> str.
(** [str.lower]. *)
Variable lower : str -> str.
Variable repo_id : str.

Definition auth_markers : list str :=
  [u "invalid username"; u "invalid user token"; u "invalid token"; u "bad credentials"; u "401 unauthorized"; u "token is required"].

(** [marker in text]. *)
Fixpoint contains (marker text : str) : bool :=
  startswith marker text || match text with [] => false | _ :: rest => contains marker rest end.

Definition is_auth_error (status_code : option Z) (message : str) : bool :=
  bool_decide (status_code = Some 401 \/ status_code = Some 403) || existsb (fun m => contains m (lower message)) auth_markers.

Definition auth_upload_error (message : str) : exn :=
  upload_error [FStr (u "Hugging Face rejected the upload to " ++ repo_id ++ u ": " ++ message ++
    u ". Verify your HF_TOKEN is a write token from the account that owns " ++ repo_id ++ u ", or pass --hf-token (or --repo-id) explicitly.")] false.

Definition translate_hf_error (error : exn) : exn :=
  let '(status_code, server_message) := error_details error in
  let message := sanitize_server_message server_message in
  if is_auth_error status_code message then auth_upload_error message
  else upload_error [FStr (u "Hugging Face upload to " ++ repo_id ++ u " failed: " ++ message)] (is_transient_failure error status_code).

(** [try: m / except Exception as error: raise _translate_hf_error(error) from error]. *)
Definition translated {A} (m : PyM R A) : PyM R A :=
  try_except m (fun e => if isinstance e CException then Some (throw (translate_hf_error e)) else None).

Definition ensure_repo_exists : PyM R unit := translated (create_repo repo_id).

Fixpoint query_existing (paths : list str) : PyM R (gset str) :=
  match paths with
  | [] => ret ∅
  | p :: rest =>
      exists_ <- file_exists repo_id p;;
      more <- query_existing rest;;
      ret (if exists_ : bool then {[p]} ∪ more else more)
  end.
(** The paths of a set are asked for in some order. *)
Definition existing_delete_paths (deletes : gset str) : PyM R (gset str) := translated (query_existing (elements deletes)).

Definition drop_absent_deletes (ops : list CommitOperation) (deletes : gset str) : PyM R (list CommitOperation) :=
  if bool_decide (deletes = ∅) then ret ops
  else
    existing <- existing_delete_paths deletes;;
    ret (filter (fun o => commit_path o ∉ deletes ∖ existing) ops).

Definition commit_identity (result : CommitInfo) : outcome str :=
  match List.find py_truthy (commit_identity_candidates result) with
  | Some v => mret (py_str v)
  | None =>
      match result with
      | InfoText (c :: s) => mret (c :: s)
      | _ => refuse [FStr (u "Hugging Face upload to " ++ repo_id ++ u " returned no commit OID")]
      end
  end.

Definition create_upload_commit (ops : list CommitOperation) (message : str) (num_threads : Z) (t : gmap path node) : PyM R str :=
  result <- translated (create_commit repo_id ops message num_threads t);;
  lift (commit_identity result).

Definition empty_upload_result (allow_noop : bool) : outcome str :=
  if allow_noop then mret [] else refuse (msg "No upload operations remain after idempotent delete filtering").

Definition upload_files (files : option (list (path * str))) (ops : option (list PublicationOp)) (commit_message : str) (num_threads : Z)
    (allow_noop : bool) (t : gmap path node) : PyM R str :=
  prepared <- lift (prepare_upload_operations files ops t);;
  lift (validate_upload_safety (add_paths prepared) (delete_paths prepared));;
  lift (validate_upload_operations (operations prepared));;
  ensure_repo_exists;;
  remaining <- drop_absent_deletes (operations prepared) (delete_paths prepared);;
  match remaining with
  | [] => lift (empty_upload_result allow_noop)
  | _ => create_upload_commit remaining commit_message num_threads t
  end.

Definition default_commit_message (stem : str) : str := u "Update PBF " ++ stem.

Definition upload_parquet (local : path) (path_in_repo : str) (commit_message : option str) (t : gmap path node) : PyM R str :=
  lift (raise_if (negb (path_exists local t)) (upload_error [FStr (u "Local file does not exist: " ++ path_str local)] false));;
  ensure_repo_exists;;
  translated (hub_upload_file repo_id (inr local) path_in_repo
    (match commit_message with
     | Some (c :: m) => c :: m
     | _ => u "Upload parquet " ++ path_name (path_components path_in_repo)
     end) t).

Definition upload_manifest (local : path) (path_in_repo : str) (commit_message : option str) (t : gmap path node) : PyM R str :=
  upload_parquet local path_in_repo (Some (match commit_message with Some (c :: m) => c :: m | _ => u "Update manifest" end)) t.

Definition upload_card (card_markdown path_in_repo : str) (commit_message : option str) (t : gmap path node) : PyM R str :=
  lift (raise_if (bool_decide (strip card_markdown = [])) (upload_error (msg "Cannot upload empty dataset card") false));;
  ensure_repo_exists;;
  buffer <- lift (utf8_encode card_markdown);;
  translated (hub_upload_file repo_id (inl buffer) path_in_repo
    (match commit_message with Some (c :: m) => c :: m | _ => u "Update dataset card" end) t).
End Uploader.

(** * The stub

    The in-memory Hub ([hf/_uploader/stub.py]): what it stores and what it records. *)

Record StubCommit := { commit_id : str; commit_operations : list (str * str); stub_message : str; commit_threads : Z }.
Record StubUpload := { upload_path : str; upload_message : str; size_bytes : Z; upload_id : str }.

(** [remote_files] is [None] for a Hub that claims to have every file. *)
Record StubHfHub := mkStub {
  uploads : list StubUpload; commits : list StubCommit; created_repos : list str;
  remote_files : option (gset str); remote_content : gmap str (list N); revision : option str }.

Section StubHub.
Context {RT : Runtime} {FF : FileFormats}.
(** [str(uuid4())]. *)
Variable uuid4 : StubHfHub -> str.
Abbreviation M := (PyM StubHfHub).

Definition new_stub (files : option (gset str)) (content : gmap str (list N)) (initial : option str) : StubHfHub :=
  mkStub [] [] [] files content (if bool_decide (content = ∅) && bool_decide (default ∅ files = ∅) then None else initial).

Definition stub_create_repo (repo_id : str) : M unit :=
  modify (fun h => mkStub (uploads h) (commits h) (created_repos h ++ [repo_id]) (remote_files h) (remote_content h) (revision h)).

Definition stub_file_exists (filename : str) : M bool :=
  gets (fun h => match remote_files h with None => true | Some files => bool_decide (filename ∈ files) end).

Definition list_repo_files (h : StubHfHub) : list str := sorted_strs (elements (default ∅ (remote_files h))).

Definition remote_path_exists (p : str) (h : StubHfHub) : bool :=
  bool_decide (p ∈ dom (remote_content h)) || match remote_files h with None => false | Some files => bool_decide (p ∈ files) end.
Definition get_paths_info (paths : list str) (h : StubHfHub) : list (str * Z) :=
  (fun p => (p, len (default [] (remote_content h !! p)))) <$> filter (fun p => remote_path_exists p h = true) paths.

(** A file is stored, and it is there. *)
Definition store_file (p : str) (data : list N) (h : StubHfHub) : StubHfHub :=
  mkStub (uploads h) (commits h) (created_repos h) (union {[p]} <$> remote_files h) (<[p := data]> (remote_content h)) (revision h).
Definition discard_file (p : str) (h : StubHfHub) : StubHfHub :=
  mkStub (uploads h) (commits h) (created_repos h) ((fun files => files ∖ {[p]}) <$> remote_files h) (delete p (remote_content h)) (revision h).
Definition set_revision (r : str) (h : StubHfHub) : StubHfHub :=
  mkStub (uploads h) (commits h) (created_repos h) (remote_files h) (remote_content h) (Some r).

Definition apply_remote_operation (t : gmap path node) (o : CommitOperation) : M unit :=
  match o with
  | CommitAdd p source => data <- lift (read_bytes source t);; modify (store_file p data)
  | CommitDelete p => modify (discard_file p)
  end.

Definition serialize_operation (o : CommitOperation) : str * str :=
  match o with CommitAdd p _ => (u "add", p) | CommitDelete p => (u "delete", p) end.

Definition stub_create_commit (ops : list CommitOperation) (message : str) (num_threads : Z) (t : gmap path node) : M CommitInfo :=
  id <- gets uuid4;;
  modify (fun h => mkStub (uploads h)
    (commits h ++ [{| commit_id := id; commit_operations := serialize_operation <$> ops; stub_message := message; commit_threads := num_threads |}])
    (created_repos h) (remote_files h) (remote_content h) (revision h));;
  for_each (apply_remote_operation t) ops;;
  modify (set_revision id);;
  ret (InfoText id).

Definition stub_upload_file (source : list N + path) (p message : str) (t : gmap path node) : M str :=
  data <- lift (match source with inl b => mret b | inr local => read_bytes local t end);;
  id <- gets uuid4;;
  modify (fun h => mkStub (uploads h ++ [{| upload_path := p; upload_message := message; size_bytes := len data; upload_id := id |}])
    (commits h) (created_repos h) (remote_files h) (remote_content h) (revision h));;
  modify (store_file p data);;
  modify (set_revision id);;
  ret p.

#[export] Instance stub_hub : HfHub StubHfHub := {|
  create_repo := stub_create_repo;
  file_exists _ := stub_file_exists;
  create_commit _ := stub_create_commit;
  hub_upload_file _ := stub_upload_file |}.
End StubHub.
