(* ===== verification/UploaderProofs.v ===== *)
(** What reaches the Hub: at most one commit per call, and only a safe one that says exactly what was
    asked for; and what that means together with the retirement of legacy articles. *)
From stdpp Require Import gmap sorting.
From S2P Require Import Prelude Py PyStr Triples Fs Artifacts Atomic Pending PendingProofs PendingThreads Reconciliation UploadState UploadQueue Retirement RetirementProofs Uploader.

(** * Safe commits *)

Definition added (p : str) (sent : list CommitOperation) : Prop := exists source, CommitAdd p source ∈ sent.

(** No path is touched twice, and nothing is deleted without what replaces it. *)
Record safe_commit (sent : list CommitOperation) : Prop := {
  sc_nonempty : sent ≠ [];
  sc_distinct : NoDup (commit_path <$> sent);
  sc_legacy : forall legacy canonical, (legacy, canonical) ∈ LEGACY_PATHS_REQUIRING_CANONICAL -> CommitDelete legacy ∈ sent -> added canonical sent;
  sc_articles : forall p, is_article_path p = true -> CommitDelete p ∈ sent -> added (canonical_document p) sent;
  sc_regions : forall p, is_canonical_region_path p = true -> CommitDelete p ∈ sent -> added containment_manifest sent }.

(** The prepared operations and the two sets describe the same commit. *)
Record describes_commit (c : Prepared) : Prop := {
  dc_added : forall p, p ∈ add_paths c -> added p (operations c);
  dc_deleted : forall p, CommitDelete p ∈ operations c <-> p ∈ delete_paths c }.

Lemma add_not_delete : u "add" ≠ u "delete".
Proof. done. Qed.

Lemma translated_op t op o :
  translate_publication_op t op = Ok o ->
  action op = u "add" /\ (exists source, publication_source_path op t = Ok source /\ o = CommitAdd (path_in_repo op) source) \/
  action op = u "delete" /\ o = CommitDelete (path_in_repo op).
Proof.
  unfold translate_publication_op. destruct (str_eqb_spec (action op) (u "add")) as [Ha|_].
  - intros (source & Hs & [= <-])%outcome_bind_Ok. left. eauto.
  - destruct (str_eqb_spec (action op) (u "delete")) as [Ha|_]; [|done]. intros [= <-]. by right.
Qed.

Lemma prepared_describes files ops t c : prepare_upload_operations files ops t = Ok c -> describes_commit c.
Proof.
  unfold prepare_upload_operations. pose proof add_not_delete as Hne. destruct files as [files|], ops as [ops|]; try done.
  - intros (out & Hout & [= <-])%outcome_bind_Ok. apply outcome_mapM_Forall2 in Hout. split; simpl.
    + intros p ([local remote] & -> & [i Hi]%list_elem_of_lookup)%elem_of_list_to_set%list_elem_of_fmap.
      destruct (Forall2_lookup_l _ _ _ _ _ Hout Hi) as (o & Ho & Hf). simpl in Hf. destruct (path_exists local t); [|done].
      injection Hf as <-. exists local. by eapply list_elem_of_lookup_2.
    + intros p. split; [|set_solver]. intros [i Hi]%list_elem_of_lookup.
      destruct (Forall2_lookup_r _ _ _ _ _ Hout Hi) as ([local remote] & _ & Hf). by destruct (path_exists local t).
  - intros (out & Hout & [= <-])%outcome_bind_Ok. apply outcome_mapM_Forall2 in Hout. split; simpl.
    + intros p (op & -> & [Ha [i Hi]%list_elem_of_lookup]%list_elem_of_filter)%elem_of_list_to_set%list_elem_of_fmap.
      destruct (Forall2_lookup_l _ _ _ _ _ Hout Hi) as (o & Ho & [(_ & source & _ & ->)|[Hd _]]%translated_op); [|by rewrite Ha in Hd].
      exists source. by eapply list_elem_of_lookup_2.
    + intros p. rewrite elem_of_list_to_set, list_elem_of_fmap. split.
      * intros [i Hi]%list_elem_of_lookup.
        destruct (Forall2_lookup_r _ _ _ _ _ Hout Hi) as (op & Hop & [(_ & source & _ & ?)|[Hd Ho]]%translated_op); [done|].
        injection Ho as ->. exists op. split; [done|]. apply list_elem_of_filter. split; [by rewrite Hd|by eapply list_elem_of_lookup_2].
      * intros (op & -> & [Ha [i Hi]%list_elem_of_lookup]%list_elem_of_filter).
        destruct (Forall2_lookup_l _ _ _ _ _ Hout Hi) as (o & Ho & [(Hd & _)|[_ ->]]%translated_op); [done|]. by eapply list_elem_of_lookup_2.
Qed.

(** ** The rules *)

Lemma legacy_rule pairs adds deletes :
  validate_paired_legacy pairs adds deletes = Ok tt <-> forall legacy canonical, (legacy, canonical) ∈ pairs -> legacy ∈ deletes -> canonical ∈ adds.
Proof.
  induction pairs as [|[legacy canonical] pairs IH]; simpl; [split; [by intros _ ? ? ?%elem_of_nil|done]|].
  destruct (bool_decide (legacy ∈ deletes) && bool_decide (canonical ∉ adds)) eqn:E.
  - apply andb_true_iff in E as [Hl%bool_decide_eq_true Hc%bool_decide_eq_true]. split; [done|].
    intros H. destruct Hc. eapply H; [by left|done].
  - rewrite IH. apply andb_false_iff in E. rewrite !bool_decide_eq_false in E. split; intros H l c Hin Hd.
    + apply elem_of_cons in Hin as [[= -> ->]|Hin]; [|by eapply H]. destruct E as [?|E]; [done|]. by destruct (decide (canonical ∈ adds)).
    + eapply H; [by right|done].
Qed.

Lemma article_rule paths adds :
  validate_paired_articles paths adds = Ok tt <-> forall p, p ∈ paths -> is_article_path p = true -> canonical_document p ∈ adds.
Proof.
  induction paths as [|p paths IH]; simpl; [split; [by intros _ ? ?%elem_of_nil|done]|].
  destruct (is_article_path p && bool_decide (canonical_document p ∉ adds)) eqn:E.
  - apply andb_true_iff in E as [Ha Hc%bool_decide_eq_true]. split; [done|]. intros H. destruct Hc. apply H; [by left|done].
  - rewrite IH. apply andb_false_iff in E. rewrite bool_decide_eq_false in E. split; intros H q Hin Hq.
    + apply elem_of_cons in Hin as [->|Hin]; [|by apply H]. destruct E as [?|E]; [congruence|]. by destruct (decide (canonical_document p ∈ adds)).
    + apply H; [by right|done].
Qed.

Lemma safety_rules adds deletes :
  validate_upload_safety adds deletes = Ok tt <->
  (forall legacy canonical, (legacy, canonical) ∈ LEGACY_PATHS_REQUIRING_CANONICAL -> legacy ∈ deletes -> canonical ∈ adds) /\
  (forall p, p ∈ deletes -> is_article_path p = true -> canonical_document p ∈ adds) /\
  (forall p, p ∈ deletes -> is_canonical_region_path p = true -> containment_manifest ∈ adds).
Proof.
  unfold validate_upload_safety, validate_paired_legacy_deletes, validate_paired_article_deletes, validate_paired_canonical_deletes.
  rewrite <- legacy_rule.
  assert (Ha : (forall p, p ∈ deletes -> is_article_path p = true -> canonical_document p ∈ adds) <->
    validate_paired_articles (sorted_strs (elements deletes)) adds = Ok tt).
  { rewrite article_rule. by setoid_rewrite elem_of_sorted_strs; setoid_rewrite elem_of_elements. }
  assert (Hc : forall p, p ∈ canonical_region_deletes deletes <-> p ∈ deletes /\ is_canonical_region_path p = true).
  { intros p. unfold canonical_region_deletes. rewrite elem_of_filter. tauto. }
  assert (Hr : (forall p, p ∈ deletes -> is_canonical_region_path p = true -> containment_manifest ∈ adds) <->
    bool_decide (canonical_region_deletes deletes ≠ ∅) && bool_decide (containment_manifest ∉ adds) = false).
  { rewrite andb_false_iff, !bool_decide_eq_false. split.
    - intros H. destruct (decide (containment_manifest ∈ adds)); [by right; intros ?|left].
      intros Hne. apply set_choose_L in Hne as [p [? ?]%Hc]. eauto.
    - intros [H|H] p Hp Hq; [|by destruct (decide (containment_manifest ∈ adds))].
      destruct H. intros He. assert (p ∈ canonical_region_deletes deletes) as Hin by by apply Hc. rewrite He in Hin. set_solver. }
  rewrite Ha, Hr. destruct (validate_paired_legacy _ _ _) as [[]|]; simpl; [|naive_solver].
  destruct (validate_paired_articles _ _) as [[]|]; simpl; [|naive_solver]. destruct (_ && _); naive_solver.
Qed.

Lemma operations_rule ops : validate_upload_operations ops = Ok tt <-> ops ≠ [] /\ NoDup (commit_path <$> ops).
Proof.
  unfold validate_upload_operations, raise_if. destruct ops as [|o ops]; [naive_solver|].
  change (bool_decide (length (o :: ops) = 0%nat)) with false. cbn [mbind outcome_bind].
  destruct (decide (NoDup (commit_path <$> o :: ops))) as [H|H].
  - rewrite (bool_decide_eq_true_2 _ H). naive_solver.
  - rewrite (bool_decide_eq_false_2 _ H). naive_solver.
Qed.

(** A commit that obeys the rules stays safe when some of its deletes are dropped. *)
Lemma checked_is_safe c absent :
  describes_commit c -> validate_upload_safety (add_paths c) (delete_paths c) = Ok tt -> validate_upload_operations (operations c) = Ok tt ->
  absent ⊆ delete_paths c -> let sent := filter (fun o => commit_path o ∉ absent) (operations c) in sent ≠ [] -> safe_commit sent.
Proof.
  intros [Da Dd] (H1 & H2 & H3)%safety_rules [_ Hn]%operations_rule Hsub sent Hne.
  assert (Hadd : forall p, p ∈ add_paths c -> added p sent).
  { intros p Hp. destruct (Da p Hp) as [source Hs]. exists source. apply list_elem_of_filter. split; [|done]. simpl. intros Hx.
    apply Hsub, Dd in Hx. apply list_elem_of_lookup in Hs as [i Hi], Hx as [j Hj].
    assert (i = j) as ->; [|congruence]. eapply NoDup_lookup; [exact Hn|rewrite list_lookup_fmap, Hi|rewrite list_lookup_fmap, Hj]; done. }
  split; [done|..].
  - eapply sublist_NoDup; [exact Hn|]. apply fmap_sublist, sublist_filter.
  - intros l k Hin [_ Hd]%list_elem_of_filter. apply Hadd. eapply H1; [exact Hin|by apply Dd].
  - intros p Hp [_ Hd]%list_elem_of_filter. apply Hadd, H2; [by apply Dd|done].
  - intros p Hp [_ Hd]%list_elem_of_filter. eapply Hadd, H3; [by apply Dd|done].
Qed.

(** * What the client is asked *)

(** A Hub that also records the commits it is asked for. *)
Section Recording.
Context {R : Type} `{!HfHub R}.

Definition recorded {A} (m : PyM R A) : PyM (R * list (list CommitOperation)) A := fun s => let '(o, r) := m s.1 in (o, (r, s.2)).

#[export] Instance recording_hub : HfHub (R * list (list CommitOperation)) := {|
  create_repo repo_id := recorded (create_repo repo_id);
  file_exists repo_id p := recorded (file_exists repo_id p);
  create_commit repo_id ops message num_threads t := fun s =>
    let '(o, r) := create_commit repo_id ops message num_threads t s.1 in (o, (r, s.2 ++ [ops]));
  hub_upload_file repo_id source p message t := recorded (hub_upload_file repo_id source p message t) |}.
End Recording.

Section Commits.
Context {RT : Runtime} {R : Type} {hub : HfHub R}.
Variable error_details : exn -> option Z * str.
Variable sanitize_server_message : str -> str.
Variable lower : str -> str.
Variable repo_id : str.
Abbreviation translated := (Uploader.translated error_details sanitize_server_message lower repo_id).
Abbreviation log := (list (list CommitOperation)).
Abbreviation Recorded := (PyM (R * log)).

(** Every failure of the uploader is an [UploadError], or no [Exception]. *)
Definition is_upload_failure (e : exn) : Prop := exn_cls e = UploadError \/ isinstance e CException = false.

Definition refuses_properly {A} (o : outcome A) : Prop := forall e, o = Raise e -> is_upload_failure e.

Lemma fails_other {A B} e : refuses_properly (Raise e : outcome A) -> refuses_properly (Raise e : outcome B).
Proof. intros H e' [= <-]. by apply H. Qed.

Lemma translate_class e : exn_cls (translate_hf_error error_details sanitize_server_message lower repo_id e) = UploadError.
Proof. unfold translate_hf_error. destruct (error_details e). by destruct (is_auth_error _ _ _). Qed.

Lemma translated_fails {S A} (m : PyM S A) s : refuses_properly (translated m s).1.
Proof.
  unfold Uploader.translated, try_except. destruct (m s) as [[a|e] s'] eqn:E; [done|]. destruct (isinstance e CException) eqn:Ei; intros e' He; simpl in He.
  - injection He as <-. left. apply translate_class.
  - injection He as <-. by right.
Qed.

Lemma bind_fails {S A B} (m : PyM S A) (f : A -> PyM S B) s :
  refuses_properly (m s).1 -> (forall a s', refuses_properly (f a s').1) -> refuses_properly (pbind m f s).1.
Proof. intros Hm Hf. unfold pbind. destruct (m s) as [[a|e] s']; [apply Hf|]. intros e' [= <-]. by apply Hm. Qed.

Lemma outcome_bind_fails {A B} (m : outcome A) (f : A -> outcome B) :
  refuses_properly m -> (forall a, refuses_properly (f a)) -> refuses_properly (m ≫= f).
Proof. intros Hm Hf. destruct m as [a|e]; [apply Hf|]. intros e' [= <-]. by apply Hm. Qed.

Lemma refuse_fails {A} m : refuses_properly (refuse m : outcome A).
Proof. intros e [= <-]. by left. Qed.

Lemma mapM_fails {A B} (f : A -> outcome B) l : (forall x, refuses_properly (f x)) -> refuses_properly (mapM f l).
Proof.
  intros Hf. induction l as [|x l IH]; simpl; [done|]. apply outcome_bind_fails; [done|]. intros y. apply outcome_bind_fails; [done|]. done.
Qed.

#[local] Hint Resolve refuse_fails outcome_bind_fails mapM_fails : fails.

Lemma prepare_fails files ops t : refuses_properly (prepare_upload_operations files ops t).
Proof.
  unfold prepare_upload_operations. destruct files as [files|], ops as [ops|]; auto with fails.
  - apply outcome_bind_fails; [|done]. apply mapM_fails. intros [local remote]. destruct (path_exists local t); [done|auto with fails].
  - apply outcome_bind_fails; [|done]. apply mapM_fails. intros op. unfold translate_publication_op, publication_source_path.
    repeat first [apply outcome_bind_fails; [|intros ?] | case_match | apply refuse_fails | done].
Qed.

Lemma safety_fails adds deletes : refuses_properly (validate_upload_safety adds deletes).
Proof.
  unfold validate_upload_safety, validate_paired_legacy_deletes, validate_paired_article_deletes, validate_paired_canonical_deletes.
  apply outcome_bind_fails; [|intros _; apply outcome_bind_fails; [|intros _; case_match; [apply refuse_fails|done]]].
  - induction LEGACY_PATHS_REQUIRING_CANONICAL as [|[l c] ps IH]; simpl; [done|]. case_match; [apply refuse_fails|done].
  - induction (sorted_strs (elements deletes)) as [|p ps IH]; simpl; [done|]. case_match; [apply refuse_fails|done].
Qed.

Lemma operations_fail ops : refuses_properly (validate_upload_operations ops).
Proof.
  unfold validate_upload_operations, raise_if. apply outcome_bind_fails; [|intros _]; case_match; try done; intros e [= <-]; by left.
Qed.

Lemma identity_fails result : refuses_properly (commit_identity repo_id result).
Proof. unfold commit_identity. repeat case_match; first [done|apply refuse_fails]. Qed.

(** The steps before the commit leave the record as it is. *)
Lemma recorded_log {A} (m : PyM R A) s : (recorded m s).2.2 = s.2.
Proof. unfold recorded. by destruct (m s.1). Qed.
Lemma translated_log {A} (m : Recorded A) s : (m s).2.2 = s.2 -> (translated m s).2.2 = s.2.
Proof. unfold Uploader.translated, try_except. destruct (m s) as [[a|e] s']; [done|]. simpl. by destruct (isinstance e CException). Qed.

Lemma drop_log ops deletes s :
  let r := drop_absent_deletes (R := R * log) error_details sanitize_server_message lower repo_id ops deletes s in
  r.2.2 = s.2 /\ refuses_properly r.1 /\
  forall kept, r.1 = Ok kept -> exists absent, absent ⊆ deletes /\ kept = filter (fun o => commit_path o ∉ absent) ops.
Proof.
  unfold drop_absent_deletes. case_bool_decide as Hd.
  - split_and!; [done..|]. intros kept [= <-]. exists ∅. split; [set_solver|]. induction ops as [|o ops IH]; [done|].
    rewrite filter_cons_True by set_solver. by rewrite <- IH.
  - assert (Hq : forall l s, (query_existing (R := R * log) repo_id l s).2.2 = s.2).
    { clear s. induction l as [|p l IH]; intros s; [done|]. simpl. unfold pbind at 1. pose proof (recorded_log (file_exists repo_id p) s) as Hr.
      destruct (recorded _ s) as [[b|e] s1]; simpl in Hr; [|done]. unfold pbind. specialize (IH s1).
      destruct (query_existing repo_id l s1) as [[more|e] s2]; simpl in *; congruence. }
    pose proof (translated_log _ s (Hq (elements deletes) s)) as Hl. pose proof (translated_fails (query_existing repo_id (elements deletes)) s) as Hf.
    unfold existing_delete_paths, pbind. cbv zeta.
    destruct (translated _ s) as [[existing|e] s1]; simpl in *; split_and!; try done.
    + intros kept [= <-]. exists (deletes ∖ existing). split; [set_solver|done].
    + exact (fails_other _ Hf).
Qed.

(** C20: Only safe commits reach the Hub.  Whatever the Hub answers and whatever is asked for, one
    call of the uploader asks for at most one commit.  The commit touches no path twice, deletes no
    legacy file, article or region file without uploading what replaces it, and is exactly the
    prepared operations without some of their deletes; a call that returns without a commit was
    allowed to, and a call that fails raises an [UploadError] (or no [Exception] at all) as long as
    the client's constructors accept the operations. *)
Theorem only_safe_commits_reach_the_hub files ops message num_threads allow_noop t (h : R) (l : log) o h' l' :
  upload_files (R := R * log) error_details sanitize_server_message lower repo_id files ops message num_threads allow_noop t (h, l) = (o, (h', l')) ->
  (l' = l /\ (forall oid, o = Ok oid -> allow_noop = true /\ oid = []) \/
   exists sent c absent, l' = l ++ [sent] /\ safe_commit sent /\
     prepare_upload_operations files ops t = Ok c /\ absent ⊆ delete_paths c /\ sent = filter (fun o => commit_path o ∉ absent) (operations c)) /\
  refuses_properly o.
Proof.
  intros H. unfold upload_files in H. unfold pbind at 1, lift at 1 in H.
  pose proof (prepare_fails files ops t) as Hpf. destruct (prepare_upload_operations files ops t) as [c|e] eqn:Ep; [|simplify_eq; split; [by left|exact (fails_other _ Hpf)]].
  unfold pbind at 1, lift at 1 in H. pose proof (safety_fails (add_paths c) (delete_paths c)) as Hsf.
  destruct (validate_upload_safety _ _) as [[]|e] eqn:Es; [|simplify_eq; split; [by left|exact (fails_other _ Hsf)]].
  unfold pbind at 1, lift at 1 in H. pose proof (operations_fail (operations c)) as Hof.
  destruct (validate_upload_operations _) as [[]|e] eqn:Eo; [|simplify_eq; split; [by left|exact (fails_other _ Hof)]].
  unfold pbind at 1, ensure_repo_exists in H. pose proof (translated_log (create_repo repo_id) (h, l) (recorded_log _ _)) as Hl1.
  pose proof (translated_fails (create_repo repo_id) (h, l)) as Hf1. destruct (translated _ (h, l)) as [[[]|e] [h1 l1]]; simpl in Hl1, Hf1; subst l1;
    [|simplify_eq; split; [by left|exact (fails_other _ Hf1)]].
  unfold pbind at 1 in H. pose proof (drop_log (operations c) (delete_paths c) (h1, l)) as Hd.
  destruct (drop_absent_deletes _ _ _ _ _ _ (h1, l)) as [[kept|e] [h2 l2]]; destruct Hd as (Hl2 & Hf2 & Hk); simpl in Hl2; subst l2;
    [|simplify_eq; split; [by left|exact (fails_other _ Hf2)]].
  destruct (Hk kept eq_refl) as (absent & Habs & Hkept). clear Hk.
  destruct kept as [|o1 kept].
  - unfold lift, empty_upload_result in H. destruct allow_noop; injection H as <- <- <-; (split; [left|]).
    + split; [done|]. by intros oid [= <-].
    + done.
    + done.
    + apply refuse_fails.
  - remember (o1 :: kept) as sent eqn:Esent. assert (Hne : sent ≠ []) by by subst. clear Esent o1 kept.
    assert (Hsafe : safe_commit sent).
    { rewrite Hkept. apply checked_is_safe; try done; [by eapply prepared_describes|]. by rewrite <- Hkept. }
    unfold create_upload_commit in H. unfold pbind at 1 in H. pose proof (translated_fails (create_commit repo_id sent message num_threads t) (h2, l)) as Hf3.
    assert (Hl3 : (translated (create_commit (R := R * log) repo_id sent message num_threads t) (h2, l)).2.2 = l ++ [sent]).
    { unfold Uploader.translated, try_except. simpl. destruct (create_commit _ _ _ _ _ h2) as [[a|e] r]; [done|]. simpl. by destruct (isinstance e CException). }
    destruct (translated _ (h2, l)) as [[result|e] [h3 l3]]; simpl in Hl3, Hf3; subst l3.
    + unfold lift in H. injection H as <- <- <-. split; [right; by exists sent, c, absent|apply identity_fails].
    + injection H as <- <- <-. split; [right; by exists sent, c, absent|exact (fails_other _ Hf3)].
Qed.
End Commits.

(** * The in-memory Hub *)

Section Stub.
Context {RT : Runtime} {FF : FileFormats}.
Variable uuid4 : StubHfHub -> str.
#[local] Existing Instance stub_hub.
Variable error_details : exn -> option Z * str.
Variable sanitize_server_message : str -> str.
Variable lower : str -> str.
Variable repo_id : str.
Implicit Types (h : StubHfHub) (t : gmap path node).

(** What is stored is known to be there. *)
Definition consistent h : Prop := match remote_files h with None => True | Some files => dom (remote_content h) ⊆ files end.

(** The Hub after some operations on distinct paths. *)
Record holds_commit (ops : list CommitOperation) t h h' : Prop := {
  hc_added : forall p source, CommitAdd p source ∈ ops -> exists b, read_bytes source t = Ok b /\ remote_content h' !! p = Some b;
  hc_deleted : forall p, CommitDelete p ∈ ops -> remote_content h' !! p = None;
  hc_others : forall p, p ∉ commit_path <$> ops -> remote_content h' !! p = remote_content h !! p;
  hc_consistent : consistent h -> consistent h' }.

Lemma stored_consistent p b h : consistent h -> consistent (store_file p b h).
Proof. unfold consistent, store_file. simpl. destruct (remote_files h); [|done]. simpl. rewrite dom_insert_L. set_solver. Qed.
Lemma discarded_consistent p h : consistent h -> consistent (discard_file p h).
Proof. unfold consistent, discard_file. simpl. destruct (remote_files h); [|done]. simpl. rewrite dom_delete_L. set_solver. Qed.

Lemma apply_operations ops t h h' :
  NoDup (commit_path <$> ops) -> for_each (apply_remote_operation t) ops h = (Ok tt, h') -> holds_commit ops t h h'.
Proof.
  revert h. induction ops as [|o ops IH]; intros h Hn H; simpl in H.
  - unfold ret in H. injection H as <-. split; try done; by intros ? ?%elem_of_nil || by intros ? ? ?%elem_of_nil.
  - csimpl in Hn. apply NoDup_cons in Hn as [Ho Hn]. unfold pbind in H.
    destruct (apply_remote_operation t o h) as [[[]|e] h1] eqn:E1; [|done]. destruct (IH h1 Hn H) as [I1 I2 I3 I4]. clear IH H.
    assert (Hlast : remote_content h' !! commit_path o = remote_content h1 !! commit_path o) by by apply I3.
    destruct o as [p source|p]; simpl in *.
    + unfold pbind, lift, modify in E1. destruct (read_bytes source t) as [b|e] eqn:Eb; [|done]. injection E1 as <-. simpl in *. split.
      * intros q src [[= -> ->]|Hin]%elem_of_cons; [exists b; by rewrite Hlast, lookup_insert_eq|eauto].
      * intros q [?|Hin]%elem_of_cons; [done|auto].
      * intros q Hq. apply not_elem_of_cons in Hq as [Hne Hq]. rewrite I3 by done. by apply lookup_insert_ne.
      * intros Hc. apply I4. by apply stored_consistent.
    + unfold modify in E1. injection E1 as <-. simpl in *. split.
      * intros q src [?|Hin]%elem_of_cons; [done|eauto].
      * intros q [[= ->]|Hin]%elem_of_cons; [by rewrite Hlast, lookup_delete_eq|auto].
      * intros q Hq. apply not_elem_of_cons in Hq as [Hne Hq]. rewrite I3 by done. by apply lookup_delete_ne.
      * intros Hc. apply I4. by apply discarded_consistent.
Qed.

Lemma stub_commit ops message num_threads t h r h' :
  NoDup (commit_path <$> ops) -> stub_create_commit uuid4 ops message num_threads t h = (Ok r, h') -> holds_commit ops t h h'.
Proof.
  intros Hn. unfold stub_create_commit. unfold pbind, gets, modify, ret. set (h1 := mkStub _ _ _ _ _ _).
  destruct (for_each _ ops h1) as [[[]|e] h2] eqn:E; [|done]. intros [= _ <-]. apply apply_operations in E as [I1 I2 I3 I4]; [|done]. by split.
Qed.

(** The deletes that are dropped are of files the Hub does not have. *)
Lemma stub_query paths h :
  exists existing, query_existing (HfHub0 := stub_hub uuid4) repo_id paths h = (Ok existing, h) /\
    forall p, p ∈ paths -> p ∉ existing -> exists files, remote_files h = Some files /\ p ∉ files.
Proof.
  induction paths as [|p paths (existing & IH & Hout)]; [exists ∅; split; [done|]; by intros p ?%elem_of_nil|].
  simpl. unfold pbind, stub_file_exists, gets, ret. rewrite IH. eexists. split; [done|]. intros q Hq Hn.
  destruct (remote_files h) as [files|] eqn:Ef.
  - case_bool_decide as Hp; apply elem_of_cons in Hq as [->|Hq]; [set_solver|apply Hout; [done|set_solver]|by eauto|by apply Hout].
  - apply elem_of_cons in Hq as [->|Hq]; [set_solver|]. apply Hout; [done|set_solver].
Qed.

Lemma translated_Ok {A} (m : PyM StubHfHub A) h a h' : m h = (Ok a, h') ->
  Uploader.translated error_details sanitize_server_message lower repo_id m h = (Ok a, h').
Proof. intros H. unfold Uploader.translated, try_except. by rewrite H. Qed.

Lemma translated_inv {A} (m : PyM StubHfHub A) h a h' :
  Uploader.translated error_details sanitize_server_message lower repo_id m h = (Ok a, h') -> m h = (Ok a, h').
Proof. unfold Uploader.translated, try_except. destruct (m h) as [[x|e] h1]; [done|]. by destruct (isinstance e CException). Qed.

Lemma stub_drop ops deletes h :
  consistent h ->
  exists absent, drop_absent_deletes (HfHub0 := stub_hub uuid4) error_details sanitize_server_message lower repo_id ops deletes h =
    (Ok (filter (fun o => commit_path o ∉ absent) ops), h) /\ absent ⊆ deletes /\ forall p, p ∈ absent -> remote_content h !! p = None.
Proof.
  intros Hc. unfold drop_absent_deletes. case_bool_decide as Hd.
  - exists ∅. split_and!; [|set_solver..]. unfold ret. do 2 f_equal. induction ops as [|o ops IH]; [done|].
    rewrite filter_cons_True by set_solver. by rewrite <- IH.
  - destruct (stub_query (elements deletes) h) as (existing & Hq & Hout). unfold pbind, existing_delete_paths. rewrite (translated_Ok _ _ _ _ Hq).
    exists (deletes ∖ existing). split_and!; [done|set_solver|]. intros p [Hp Hn]%elem_of_difference.
    destruct (Hout p) as (files & Hf & Hnf); [by apply elem_of_elements|done|]. unfold consistent in Hc. rewrite Hf in Hc.
    apply not_elem_of_dom. set_solver.
Qed.

Lemma stub_upload_files ops message num_threads allow_noop t h oid h' :
  consistent h ->
  upload_files (HfHub0 := stub_hub uuid4) error_details sanitize_server_message lower repo_id None (Some ops) message num_threads allow_noop t h =
    (Ok oid, h') ->
  exists c, build_publication_operations ops t = Ok c /\ holds_commit (operations c) t h h'.
Proof.
  intros Hc H. unfold upload_files in H. unfold pbind at 1, lift at 1 in H. simpl in H.
  destruct (build_publication_operations ops t) as [c|e] eqn:Ep; [|done]. exists c. split; [done|].
  unfold pbind at 1, lift at 1 in H. destruct (validate_upload_safety _ _) as [[]|e] eqn:Es; [|done].
  unfold pbind at 1, lift at 1 in H. destruct (validate_upload_operations _) as [[]|e] eqn:Eo; [|done].
  unfold pbind at 1, ensure_repo_exists in H.
  destruct (Uploader.translated _ _ _ _ _ h) as [[[]|e] h1] eqn:E1; [|done]. apply translated_inv in E1. injection E1 as <-.
  set (h1 := mkStub _ _ _ _ _ _) in H. assert (Hc1 : consistent h1) by done.
  unfold pbind at 1 in H. destruct (stub_drop (operations c) (delete_paths c) h1 Hc1) as (absent & Hd & Hsub & Habs). rewrite Hd in H.
  apply operations_rule in Eo as [_ Hn]. pose proof (prepared_describes None (Some ops) t c Ep) as [_ Dd].
  assert (Hsent : forall h2, holds_commit (filter (fun o => commit_path o ∉ absent) (operations c)) t h1 h2 -> holds_commit (operations c) t h h2).
  { intros h2 [I1 I2 I3 I4]. split; [|intros p Hp| |done].
    - intros p source Hin. apply I1. apply list_elem_of_filter. split; [|done]. simpl. intros Hx. apply Hsub, Dd in Hx.
      apply list_elem_of_lookup in Hin as [i Hi], Hx as [j Hj].
      assert (i = j) as ->; [|congruence]. eapply NoDup_lookup; [exact Hn|rewrite list_lookup_fmap, Hi|rewrite list_lookup_fmap, Hj]; done.
    - destruct (decide (p ∈ absent)) as [Hx|Hx].
      + rewrite I3; [by apply Habs|]. intros (o & -> & [Ho _]%list_elem_of_filter)%list_elem_of_fmap. done.
      + apply I2, list_elem_of_filter. done.
    - intros p Hp. rewrite I3; [done|]. intros (o & -> & [_ Ho]%list_elem_of_filter)%list_elem_of_fmap. apply Hp. by apply list_elem_of_fmap_2. }
  apply Hsent. clear Hsent. set (sent := filter _ (operations c)) in *.
  assert (Hns : NoDup (commit_path <$> sent)) by (eapply sublist_NoDup; [exact Hn|]; apply fmap_sublist, sublist_filter).
  destruct sent as [|o1 sent'] eqn:Esent.
  - unfold lift, empty_upload_result in H. destruct allow_noop; [|done]. injection H as _ <-. split; try done; by intros ? ?%elem_of_nil || by intros ? ? ?%elem_of_nil.
  - unfold create_upload_commit, pbind at 1 in H. destruct (Uploader.translated _ _ _ _ _ h1) as [[r|e] h2] eqn:E2; [|done].
    apply translated_inv in E2. apply stub_commit in E2; [|done]. unfold lift in H. by injection H as _ <-.
Qed.

(** What an operation reads. *)
Definition source_of (op : PublicationOp) : option path := match snapshot_path op with Some p => Some p | None => local_path op end.

Lemma holds_ops ops t c h h' :
  build_publication_operations ops t = Ok c -> holds_commit (operations c) t h h' ->
  (forall op, op ∈ ops -> action op = u "add" -> exists source b, source_of op = Some source /\ read_bytes source t = Ok b /\
     remote_content h' !! path_in_repo op = Some b) /\
  (forall op, op ∈ ops -> action op ≠ u "add" -> remote_content h' !! path_in_repo op = None) /\
  (forall p, p ∉ path_in_repo <$> ops -> remote_content h' !! p = remote_content h !! p).
Proof.
  intros Hb [I1 I2 I3 _]. apply outcome_bind_Ok in Hb as (out & Hout & [= <-]). apply outcome_mapM_Forall2 in Hout. simpl in *.
  assert (Hop : forall op, op ∈ ops -> exists o, o ∈ out /\ translate_publication_op t op = Ok o).
  { intros op [i Hi]%list_elem_of_lookup. destruct (Forall2_lookup_l _ _ _ _ _ Hout Hi) as (o & Ho & Ht). exists o. split; [|done]. by eapply list_elem_of_lookup_2. }
  split_and!.
  - intros op Hin Ha. destruct (Hop op Hin) as (o & Ho & [(_ & source & Hs & ->)|[Hd _]]%translated_op); [|by rewrite Ha in Hd].
    destruct (I1 _ _ Ho) as (b & Hr & Hc). exists source, b. split_and!; [|done..].
    unfold publication_source_path in Hs. unfold source_of. destruct (snapshot_path op) as [q|]; [destruct (is_file q t); [by injection Hs as ->|done]|].
    destruct (local_path op) as [q|]; [destruct (path_exists q t); [by injection Hs as ->|done]|done].
  - intros op Hin Ha. destruct (Hop op Hin) as (o & Ho & [(? & _)|[_ ->]]%translated_op); [done|]. auto.
  - intros p Hp. apply I3. intros (o & -> & [i Hi]%list_elem_of_lookup)%list_elem_of_fmap. apply Hp.
    destruct (Forall2_lookup_r _ _ _ _ _ Hout Hi) as (op & Hop' & [(_ & source & _ & ->)|[_ ->]]%translated_op); simpl;
      apply list_elem_of_fmap_2; by eapply list_elem_of_lookup_2.
Qed.

(** An upload that returns is on the Hub.  On a consistent in-memory Hub, an upload of
    publication operations that returns has stored, for every added path, exactly the bytes of the
    operation's snapshot (or of its local file when it has none), has removed every deleted path
    whether or not it was there, and has changed no other path; a Hub stays consistent. *)
Theorem returned_upload_is_on_the_hub ops message num_threads allow_noop t h oid h' :
  consistent h ->
  upload_files (HfHub0 := stub_hub uuid4) error_details sanitize_server_message lower repo_id None (Some ops) message num_threads allow_noop t h =
    (Ok oid, h') ->
  (forall op, op ∈ ops -> action op = u "add" -> exists source b, source_of op = Some source /\ read_bytes source t = Ok b /\
     remote_content h' !! path_in_repo op = Some b) /\
  (forall op, op ∈ ops -> action op ≠ u "add" -> remote_content h' !! path_in_repo op = None) /\
  (forall p, p ∉ path_in_repo <$> ops -> remote_content h' !! p = remote_content h !! p) /\
  consistent h'.
Proof.
  intros Hc H. destruct (stub_upload_files _ _ _ _ _ _ _ _ Hc H) as (c & Hb & Hh).
  destruct (holds_ops _ _ _ _ _ Hb Hh) as (H1 & H2 & H3). split_and!; [done..|]. by apply Hh.
Qed.
End Stub.

(** * Retirement over the in-memory Hub *)

Section RetiredUploads.
Context {RT : Runtime} {FF : FileFormats}.
Variable temporary_middle : gmap path node -> path -> str.
Variable data_root : path.
Variable validate_retirement_inputs : str -> gmap path node -> outcome unit.
Hypothesis temporary_is_fresh : forall t p, t !! temporary_name temporary_middle p t = None.
Variable uuid4 : StubHfHub -> str.
Variable error_details : exn -> option Z * str.
Variable sanitize_server_message : str -> str.
Variable lower : str -> str.
Variable repo_id : str.
Variable num_threads : Z.

(** [upload_files] as the upload of the job of [cli/sync_publication.py]. *)
Definition upload_to_stub (ops : list PublicationOp) (message : str) (t : gmap path node) : PyM StubHfHub unit :=
  _ <- upload_files (HfHub0 := stub_hub uuid4) error_details sanitize_server_message lower repo_id None (Some ops) message num_threads false t;;
  ret tt.

Lemma effective_op_spec op op' : effective_op op = Ok op' ->
  action op' = action op /\ path_in_repo op' = path_in_repo op /\ source_of op' = source_of op.
Proof.
  unfold effective_op, publication_op. intros H. repeat (apply outcome_bind_Ok in H as (? & _ & H)). injection H as <-. done.
Qed.

(** C21: A legacy file is given up only for documents that are on the Hub.  When an upload job
    over the in-memory Hub has changed the legacy articles of a region on disk - whether the job
    returned or failed in the middle of its clean-up - then the Hub holds the region's canonical
    documents with exactly the bytes the commit's operation named, and no longer holds its articles. *)
Theorem retired_articles_are_on_the_hub ops message dry_run fs h o fs' h' i stem :
  represents data_root (tree fs) i -> consistent h ->
  execute_upload_job temporary_middle data_root validate_retirement_inputs upload_to_stub ops message dry_run (fs, h) = (o, (fs', h')) ->
  tree fs' !! legacy_path data_root stem ≠ tree fs !! legacy_path data_root stem ->
  (exists op source b, op ∈ ops /\ path_in_repo op = canonical_remote stem /\ source_of op = Some source /\
     read_bytes source (tree fs) = Ok b /\ remote_content h' !! canonical_remote stem = Some b) /\
  remote_content h' !! legacy_remote stem = None.
Proof.
  intros Hi Hc H Hchanged. unfold execute_upload_job in H. simpl in H.
  destruct (mapM effective_op ops) as [sent|e] eqn:Es; [|simplify_eq; done].
  destruct (upload_to_stub sent message (tree fs) h) as [[[]|e] h1] eqn:Eu; [|simplify_eq; done].
  destruct (post_upload_publication_cleanup _ _ _ ops dry_run fs) as [o1 fs1] eqn:Ec. simplify_eq.
  destruct dry_run; [unfold post_upload_publication_cleanup, ret in Ec; by simplify_eq|].
  pose proof (cleanup_retires temporary_middle data_root validate_retirement_inputs temporary_is_fresh _ _ _ _ _ Hi Ec) as Hr.
  assert (Hp : stem ∈ paired_retirement_stems data_root ops (tree fs)).
  { destruct (decide (stem ∈ paired_retirement_stems data_root ops (tree fs))) as [|Hn]; [done|]. destruct Hchanged. by apply Hr. }
  apply paired_stem in Hp as (_ & _ & (op & [[Ha Hpath] Hop]%elem_of_adds & _)%Exists_exists & (del & Hdel & Hda & Hdp)%Exists_exists).
  unfold upload_to_stub, pbind in Eu. destruct (upload_files _ _ _ _ _ _ _ _ _ _ h) as [[oid|e] h2] eqn:Ef; [|done]. unfold ret in Eu. simplify_eq.
  destruct (stub_upload_files _ _ _ _ _ _ _ _ _ _ _ _ _ Hc Ef) as (c & Hb & Hh). destruct (holds_ops _ _ _ _ _ Hb Hh) as (H1 & H2 & _).
  apply outcome_mapM_Forall2 in Es.
  assert (Hsent : forall x, x ∈ ops -> exists x', x' ∈ sent /\ action x' = action x /\ path_in_repo x' = path_in_repo x /\ source_of x' = source_of x).
  { intros x [k Hk]%list_elem_of_lookup. destruct (Forall2_lookup_l _ _ _ _ _ Es Hk) as (x' & Hx' & Heff%effective_op_spec). exists x'.
    split; [by eapply list_elem_of_lookup_2|done]. }
  split.
  - destruct (Hsent op Hop) as (op' & Hin & Ea & Ep & Esrc). destruct (H1 op' Hin) as (source & b & Hs & Hread & Hcont); [congruence|].
    exists op, source, b. rewrite <- Hpath, <- Ep, <- Esrc. split_and!; congruence || done.
  - destruct (Hsent del Hdel) as (del' & Hin & Ea & Ep & _). rewrite <- Hdp, <- Ep. apply H2; [done|congruence].
Qed.
End RetiredUploads.

(** * Example

    Uploads to a concrete in-memory Hub: a safe commit, one that is refused, and the retirement of the
    articles of a region. *)

#[local] Existing Instance example_runtime.
#[local] Existing Instance example_formats.

Definition counting_uuid (h : StubHfHub) : str := [N.of_nat (length (commits h) + length (uploads h))].
#[local] Instance example_hub : HfHub StubHfHub := stub_hub counting_uuid.
Definition no_details (e : exn) : option Z * str := (None, []).

(** The Hub holds the articles, and one file of another region. *)
Definition other_remote : str := legacy_remote (u "gozo").
Definition stocked_hub : StubHfHub :=
  new_stub (Some {[legacy_remote (u "malta"); other_remote]}) {[legacy_remote (u "malta") := [2%N]; other_remote := [3%N]]} (Some (u "r")).

Lemma stocked_consistent : consistent stocked_hub.
Proof. unfold consistent, stocked_hub, new_stub. cbn [remote_files remote_content]. rewrite dom_insert_L, dom_singleton_L. set_solver. Qed.

Definition retiring_upload (t : gmap path node) (h : StubHfHub) : outcome str * StubHfHub :=
  upload_files (HfHub0 := example_hub) no_details id id (u "org/data") None (Some retiring_commit) (u "m") 5 false t h.

(** Articles are not deleted without the documents that replace them, and the Hub is not asked. *)
Example articles_alone_are_refused :
  let r := upload_files (HfHub0 := example_hub) no_details id id (u "org/data") None (Some (drop 1 retiring_commit)) (u "m") 5 false
             (tree retired_fs) stocked_hub in
  (exists e, r.1 = Raise e /\ exn_cls e = UploadError) /\ r.2 = stocked_hub.
Proof. vm_compute. split; [eexists; split; reflexivity|reflexivity]. Qed.

(** A delete of an absent file alone leaves nothing to commit. *)
Example deleting_an_absent_file_is_a_noop :
  let op := {| action := u "delete"; path_in_repo := u "old.txt"; local_path := None; snapshot_path := None |} in
  let r := upload_files (HfHub0 := example_hub) no_details id id (u "org/data") None (Some [op]) (u "m") 5 true ∅ stocked_hub in
  r.1 = Ok [] /\ length (commits r.2) = 0%nat.
Proof. vm_compute. split; reflexivity. Qed.

Definition recorded_upload : outcome str * (StubHfHub * list (list CommitOperation)) :=
  upload_files (HfHub0 := recording_hub (HfHub0 := example_hub)) no_details id id (u "org/data") None (Some retiring_commit) (u "m") 5 false
    (tree retired_fs) (stocked_hub, []).

Lemma only_safe_commits_reach_the_hub_witness :
  exists sent, recorded_upload.2.2 = [sent] /\ safe_commit sent /\ length sent = 2%nat.
Proof.
  assert (E : recorded_upload = (recorded_upload.1, (recorded_upload.2.1, recorded_upload.2.2))).
  { destruct recorded_upload as [o [h l]]. reflexivity. }
  destruct (only_safe_commits_reach_the_hub (hub := example_hub) no_details id id (u "org/data") None (Some retiring_commit) (u "m") 5 false
    (tree retired_fs) stocked_hub [] _ _ _ E) as [[[Hl _]|(sent & c & absent & Hl & Hs & _)] _].
  - vm_compute in Hl. discriminate Hl.
  - exists sent. split; [exact Hl|]. split; [exact Hs|]. vm_compute in Hl. injection Hl as <-. reflexivity.
Defined.

Lemma returned_upload_is_on_the_hub_witness :
  let h' := (retiring_upload (tree retired_fs) stocked_hub).2 in
  remote_content h' !! canonical_remote (u "malta") = Some [1%N] /\ remote_content h' !! legacy_remote (u "malta") = None /\
  remote_content h' !! other_remote = Some [3%N] /\ consistent h'.
Proof.
  assert (E : retiring_upload (tree retired_fs) stocked_hub = (Ok [0%N], (retiring_upload (tree retired_fs) stocked_hub).2)).
  { vm_compute. reflexivity. }
  destruct (returned_upload_is_on_the_hub counting_uuid no_details id id (u "org/data") retiring_commit (u "m") 5 false
    (tree retired_fs) stocked_hub _ _ stocked_consistent E) as (H1 & H2 & H3 & H4).
  split_and!; [|apply (H2 (nth 1 retiring_commit (nth 0 retiring_commit {| action := []; path_in_repo := []; local_path := None; snapshot_path := None |})))| |exact H4].
  - edestruct (H1 {| action := u "add"; path_in_repo := canonical_remote (u "malta"); local_path := Some malta_documents; snapshot_path := None |})
      as (source & b & Hs & Hr & Hc); [left|reflexivity|].
    injection Hs as <-. vm_compute in Hr. injection Hr as <-. exact Hc.
  - right. left.
  - apply (bool_decide_unpack _). vm_compute. exact I.
  - rewrite H3; [vm_compute; reflexivity|]. apply (bool_decide_unpack _). vm_compute. exact I.
Defined.

Definition published_retirement : outcome unit * (FsState * StubHfHub) :=
  execute_upload_job long_middle pending_root (fun _ _ => Ok tt) (upload_to_stub counting_uuid no_details id id (u "org/data") 5)
    retiring_commit (u "m") false (retired_fs, stocked_hub).

Lemma retired_articles_are_on_the_hub_witness :
  published_retirement.1 = Ok tt /\ tree published_retirement.2.1 !! malta_articles = None /\
  remote_content published_retirement.2.2 !! legacy_remote (u "malta") = None /\
  exists b, remote_content published_retirement.2.2 !! canonical_remote (u "malta") = Some b.
Proof.
  assert (Hi : represents pending_root (tree retired_fs) one_pending).
  { refine (represents_same pending_root _ _ one_pending _ pending_represented). vm_compute. reflexivity. }
  assert (E : published_retirement = (published_retirement.1, (published_retirement.2.1, published_retirement.2.2))).
  { destruct published_retirement as [o [fs h]]. reflexivity. }
  assert (Hgone : tree published_retirement.2.1 !! malta_articles = None) by (vm_compute; reflexivity).
  split; [vm_compute; reflexivity|]. split; [exact Hgone|].
  destruct (retired_articles_are_on_the_hub long_middle pending_root (fun _ _ => Ok tt) temporary_name_fresh counting_uuid no_details id id
    (u "org/data") 5 retiring_commit (u "m") false retired_fs stocked_hub _ _ _ one_pending (u "malta") Hi stocked_consistent E)
    as [(op & source & b & _ & _ & _ & _ & Hc) Hn].
  - assert (Hwas : tree retired_fs !! malta_articles = Some (File (CBytes [2%N]))) by (vm_compute; reflexivity).
    unfold malta_articles in *. rewrite Hgone, Hwas. discriminate.
  - split; [exact Hn|]. exists b. exact Hc.
Defined.
