(* ===== verification/PolygonLinks.v ===== *)
(** Canonical links between polygons and documents ([domain/polygon_document_links.py]): the schema,
    the join of polygons and documents by their Wikidata identifiers, and the validation that removes
    duplicates and sorts. *)
From stdpp Require Import gmap sorting.
From S2P Require Import Prelude Py PyStr PyText Artifacts Linker.

Definition CANONICAL_COLUMNS : list str :=
  u <$> ["polygon_id"; "document_id"; "project"; "wikidata"; "language"; "source_pbf"; "region"; "osm_type"; "osm_id"; "page_id";
         "revision_id"]%string.
Definition PROJECTS : list str := [u "wikipedia"; u "wikivoyage"].

Inductive column_type := pa_string | pa_int64 | pa_float64 | pa_bool.

Definition polygon_document_link_schema : list (str * column_type) :=
  [(u "polygon_id", pa_string); (u "document_id", pa_string); (u "project", pa_string); (u "wikidata", pa_string);
   (u "language", pa_string); (u "source_pbf", pa_string); (u "region", pa_string); (u "osm_type", pa_string);
   (u "osm_id", pa_int64); (u "page_id", pa_int64); (u "revision_id", pa_int64)].

(** * Document identifiers *)

Definition document_id_project (document_id : str) : option str :=
  match split_on 58 document_id with
  | _ :: candidate :: _ => if bool_decide (candidate ∈ PROJECTS) then Some candidate else None
  | _ => None
  end.

Definition document_id_wikidata (document_id : str) : option str :=
  match split_on 58 document_id with
  | candidate :: _ => if is_valid_qid candidate then Some candidate else None
  | [] => None
  end.

Definition document_id_language (document_id : str) : option str :=
  match split_on 58 document_id with
  | _ :: _ :: language :: _ :: _ => Some language
  | _ => None
  end.

(** [v == s] for a string [s], and [v in PROJECTS]. *)
Definition is_str_value (s : str) (v : pyval) : bool := py_eqb (VStr s) v.
Definition in_projects (v : pyval) : outcome bool :=
  if hashable v then mret (existsb (fun p => is_str_value p v) PROJECTS)
  else Raise (exc CTypeError [FStr (u "unhashable type: '" ++ type_name v ++ u "'")]).

Section PolygonLinks.
Context {RT : Runtime}.

(** [str(d.get(key, ""))]. *)
Definition get_text (key : string) (d : pydict) : str := py_str (default (VStr []) (dget (u key) d)).
(** [int(d.get(key, 0))]. *)
Definition get_number (key : string) (d : pydict) : outcome Z := py_int (default (VInt 0) (dget (u key) d)).

(** * Construction *)

Record PolygonFields := {
  field_polygon_id : str; wikidata_tag : str; wikidata_qids : list str;
  field_source_pbf : str; field_region : str; field_osm_type : str; field_osm_id : Z }.

Definition invalid_polygon_id (polygon_id : str) : exn := exc CValueError [FStr (u "Invalid polygon_id: "); FRepr (VStr polygon_id)].

(** The set of a polygon's identifiers is kept in the order of the tag. *)
Definition coerce_polygon_row (polygon : pydict) : outcome PolygonFields :=
  let polygon_id := get_text "polygon_id" polygon in
  _ ← raise_if (negb (is_safe_stem (VStr polygon_id))) (invalid_polygon_id polygon_id);
  let raw_wikidata := get_text "wikidata" polygon in
  let qids := qids_from_osm_tag raw_wikidata in
  _ ← raise_if (bool_decide (qids = []))
        (exc CValueError [FStr (u "Polygon polygon_id="); FRepr (VStr polygon_id); FStr (u " has invalid wikidata: "); FRepr (VStr raw_wikidata)]);
  osm_id ← get_number "osm_id" polygon;
  mret {| field_polygon_id := polygon_id; wikidata_tag := raw_wikidata; wikidata_qids := qids;
          field_source_pbf := get_text "source_pbf" polygon; field_region := get_text "region" polygon;
          field_osm_type := get_text "osm_type" polygon; field_osm_id := osm_id |}.

Definition opt_val (o : option str) : pyval := match o with Some s => VStr s | None => VNone end.

Definition validate_document (doc : pydict) : outcome unit :=
  let document_id := get_text "document_id" doc in
  _ ← raise_if (bool_decide (document_id = [])) (exc CValueError (msg "Document is missing document_id"));
  let project := get_text "project" doc in
  _ ← raise_if (negb (bool_decide (project ∈ PROJECTS)))
        (exc CValueError [FStr (u "Document document_id="); FRepr (VStr document_id); FStr (u " has invalid project: "); FRepr (VStr project)]);
  let declared_project := document_id_project document_id in
  _ ← raise_if (negb (bool_decide (declared_project = Some project)))
        (exc CValueError [FStr (u "Document document_id="); FRepr (VStr document_id); FStr (u " project slot disagrees with project field (");
           FRepr (opt_val declared_project); FStr (u " vs "); FRepr (VStr project); FStr (u ")")]);
  let wikidata := get_text "wikidata" doc in
  raise_if (negb (is_valid_qid wikidata))
    (exc CValueError [FStr (u "Document document_id="); FRepr (VStr document_id); FStr (u " has invalid wikidata: "); FRepr (VStr wikidata)]).

(** [str(d[key])]. *)
Definition item_text (key : string) (d : pydict) : outcome str := v ← getitem_of key d; mret (py_str v).

Definition build_link_row (fields : PolygonFields) (doc : pydict) : outcome pydict :=
  document_id ← item_text "document_id" doc;
  project ← item_text "project" doc;
  wikidata ← item_text "wikidata" doc;
  page_id ← get_number "page_id" doc;
  revision_id ← get_number "revision_id" doc;
  mret [(u "polygon_id", VStr (field_polygon_id fields)); (u "document_id", VStr document_id); (u "project", VStr project);
        (u "wikidata", VStr wikidata); (u "language", VStr (get_text "language" doc)); (u "source_pbf", VStr (field_source_pbf fields));
        (u "region", VStr (field_region fields)); (u "osm_type", VStr (field_osm_type fields)); (u "osm_id", VInt (field_osm_id fields));
        (u "page_id", VInt page_id); (u "revision_id", VInt revision_id)].

(** [by_qid.setdefault(qid, []).append(fields)] for every identifier of every polygon. *)
Definition index_polygon (by_qid : list (str * list PolygonFields)) (fields : PolygonFields) : list (str * list PolygonFields) :=
  foldl (fun d qid => dset qid (default [] (dget qid d) ++ [fields]) d) by_qid (wikidata_qids fields).

Definition document_links (by_qid : list (str * list PolygonFields)) (doc : pydict) : outcome (list pydict) :=
  _ ← validate_document doc;
  qid ← item_text "wikidata" doc;
  mapM (fun fields => build_link_row fields doc) (default [] (dget qid by_qid)).

(** * Validation *)

Definition copy_canonical_columns (row : pydict) : outcome pydict :=
  mapM (fun col => match dget col row with
                   | Some v => mret (col, v)
                   | None => Raise (exc CValueError [FStr (u "Link row is missing required column "); FRepr (VStr col)])
                   end) CANONICAL_COLUMNS.

Definition validated_polygon_id (value : pyval) : outcome str :=
  let polygon_id := py_str value in
  _ ← raise_if (negb (is_safe_stem (VStr polygon_id))) (invalid_polygon_id polygon_id);
  mret polygon_id.

Definition disagrees (polygon_id document_id slot : str) (declared value : pyval) : exn :=
  exc CValueError [FStr (u "polygon_id="); FRepr (VStr polygon_id); FStr (u ": document_id="); FRepr (VStr document_id);
    FStr (u " " ++ slot ++ u " slot disagrees with " ++ slot ++ u " column ("); FRepr declared; FStr (u " vs "); FRepr value; FStr (u ")")].

Definition validate_document_project (polygon_id document_id : str) (project : pyval) : outcome unit :=
  known ← in_projects project;
  _ ← raise_if (negb known)
        (exc CValueError [FStr (u "polygon_id="); FRepr (VStr polygon_id); FStr (u ": invalid project "); FRepr project]);
  let declared_project := document_id_project document_id in
  raise_if (negb (py_eqb (opt_val declared_project) project))
    (disagrees polygon_id document_id (u "project") (opt_val declared_project) project).

Definition validate_document_language (polygon_id document_id : str) (language : pyval) : outcome unit :=
  match document_id_language document_id with
  | Some declared => raise_if (negb (is_str_value declared language)) (disagrees polygon_id document_id (u "language") (VStr declared) language)
  | None => mret tt
  end.

Definition validate_document_wikidata (polygon_id document_id : str) (value : pyval) : outcome unit :=
  let wikidata := py_str value in
  _ ← raise_if (negb (is_valid_qid wikidata))
        (exc CValueError [FStr (u "polygon_id="); FRepr (VStr polygon_id); FStr (u ": invalid wikidata "); FRepr (VStr wikidata)]);
  match document_id_wikidata document_id with
  | Some declared => raise_if (negb (str_eqb declared wikidata))
                       (disagrees polygon_id document_id (u "wikidata") (VStr declared) (VStr wikidata))
  | None => mret tt
  end.

Definition coerce_numeric_columns (coerced : pydict) : outcome pydict :=
  fold_outcome (fun row column => v ← getitem_of column row; z ← py_int v; mret (dset (u column) (VInt z) row)) coerced
    ["osm_id"; "page_id"; "revision_id"]%string.

Definition coerce_row (row : pydict) : outcome pydict :=
  coerced ← copy_canonical_columns row;
  id_value ← getitem_of "polygon_id" coerced;
  polygon_id ← validated_polygon_id id_value;
  document_id ← item_text "document_id" coerced;
  project ← getitem_of "project" coerced;
  _ ← validate_document_project polygon_id document_id project;
  language ← getitem_of "language" coerced;
  _ ← validate_document_language polygon_id document_id language;
  wikidata ← getitem_of "wikidata" coerced;
  _ ← validate_document_wikidata polygon_id document_id wikidata;
  coerce_numeric_columns coerced.

Definition validated_link_row (raw : pyval) : outcome pydict :=
  match raw with
  | VDict row => coerce_row row
  | _ => Raise (exc CTypeError [FStr (u "Each link row must be a dict, got " ++ type_name raw)])
  end.

(** The identity of a row and the dictionary of the rows. *)
Definition identity : Type := pyval * pyval * pyval.
Definition row_identity (row : pydict) : identity :=
  (dget_none (u "polygon_id") row, dget_none (u "project") row, dget_none (u "document_id") row).
Definition identity_eqb (a b : identity) : bool := py_eqb a.1.1 b.1.1 && py_eqb a.1.2 b.1.2 && py_eqb a.2 b.2.
Definition identity_hashable (k : identity) : bool := hashable k.1.1 && hashable k.1.2 && hashable k.2.

Fixpoint link_at (key : identity) (out : list (identity * pydict)) : option pydict :=
  match out with
  | [] => None
  | (k, row) :: rest => if identity_eqb k key then Some row else link_at key rest
  end.

Definition merge_link_row (out : list (identity * pydict)) (row : pydict) : outcome (list (identity * pydict)) :=
  let key := row_identity row in
  _ ← raise_if (negb (identity_hashable key)) (exc CTypeError (msg "unhashable type"));
  match link_at key out with
  | None => mret (out ++ [(key, row)])
  | Some existing =>
      _ ← raise_if (negb (py_eqb (VDict existing) (VDict row)))
            (exc CValueError [FStr (u "Conflicting duplicate link identity "); FRepr (VTuple [key.1.1; key.1.2; key.2]); FStr (u ": existing=");
               FRepr (VDict existing); FStr (u " new="); FRepr (VDict row)]);
      mret out
  end.

(** [a < b] on the values of an identity: strings and numbers are ordered among themselves, and
    [None] with nothing.  (Tuples and floats do not occur in these columns and are given no order.) *)
Definition value_ltb (a b : pyval) : option bool :=
  match a, b with
  | VStr s, VStr t => Some (negb (str_leb t s))
  | (VInt _ | VBool _), (VInt _ | VBool _) => Some (bool_decide (default 0 (as_int a) < default 0 (as_int b)))
  | _, _ => None
  end.

(** Tuples are compared at the first position where they differ. *)
Definition identity_ltb (a b : identity) : option bool :=
  if negb (py_eqb a.1.1 b.1.1) then value_ltb a.1.1 b.1.1
  else if negb (py_eqb a.1.2 b.1.2) then value_ltb a.1.2 b.1.2
  else if negb (py_eqb a.2 b.2) then value_ltb a.2 b.2
  else Some false.

Fixpoint insert_link (kv : identity * pydict) (sorted : list (identity * pydict)) : list (identity * pydict) :=
  match sorted with
  | [] => [kv]
  | kv' :: rest => if default false (identity_ltb kv.1 kv'.1) then kv :: sorted else kv' :: insert_link kv rest
  end.

(** [sorted(out.keys())]: any two keys that cannot be compared make it raise. *)
Definition sorted_links (out : list (identity * pydict)) : outcome (list (identity * pydict)) :=
  _ ← raise_if (existsb (fun a => existsb (fun b => bool_decide (identity_ltb a.1 b.1 = None)) out) out)
        (exc CTypeError (msg "'<' not supported between these instances"));
  mret (foldr insert_link [] out).

Definition validate_polygon_document_links (rows : list pyval) : outcome (list pydict) :=
  out ← fold_outcome (fun out raw => row ← validated_link_row raw; merge_link_row out row) [] rows;
  sorted ← sorted_links out;
  mret sorted.*2.

Definition build_polygon_document_links (polygons wikipedia_documents wikivoyage_documents : list pydict) : outcome (list pydict) :=
  poly_list ← mapM coerce_polygon_row polygons;
  links ← mapM (document_links (foldl index_polygon [] poly_list)) (wikipedia_documents ++ wikivoyage_documents);
  validate_polygon_document_links (VDict <$> mjoin links).
End PolygonLinks.
