(* ===== verification/PolygonLinkProofs.v ===== *)
(** The canonical link table: its rows have the schema's columns and types and agree with the
    identifiers they carry, it is strictly sorted by identity, it does not depend on the order or
    repetition of its input, and it is the join of polygons and documents. *)
From stdpp Require Import gmap sorting.
From S2P Require Import Prelude Py PyStr PyText Artifacts PendingThreads Linker PolygonLinks.

(** * Typed links *)

(** A row of the table, with the types of its columns. *)
Record Link := {
  l_polygon_id : str; l_document_id : str; l_project : str; l_wikidata : str; l_language : str; l_source_pbf : str;
  l_region : str; l_osm_type : str; l_osm_id : Z; l_page_id : Z; l_revision_id : Z }.
#[export] Instance link_eq_dec : EqDecision Link.
Proof. solve_decision. Defined.

Definition row_of (l : Link) : pydict :=
  [(u "polygon_id", VStr (l_polygon_id l)); (u "document_id", VStr (l_document_id l)); (u "project", VStr (l_project l));
   (u "wikidata", VStr (l_wikidata l)); (u "language", VStr (l_language l)); (u "source_pbf", VStr (l_source_pbf l));
   (u "region", VStr (l_region l)); (u "osm_type", VStr (l_osm_type l)); (u "osm_id", VInt (l_osm_id l));
   (u "page_id", VInt (l_page_id l)); (u "revision_id", VInt (l_revision_id l))].

Definition has_type (ty : column_type) (v : pyval) : Prop :=
  match ty with pa_string => exists s, v = VStr s | pa_int64 => exists z, v = VInt z | pa_float64 => exists f, v = VFloat f | pa_bool => exists b, v = VBool b end.
Definition has_schema (row : pydict) : Prop :=
  Forall2 (fun field kv => field.1 = kv.1 /\ has_type field.2 kv.2) polygon_document_link_schema row.

(** The columns of a link agree with one another. *)
Record valid_link (l : Link) : Prop := {
  vl_polygon : is_safe_stem (VStr (l_polygon_id l)) = true;
  vl_project : document_id_project (l_document_id l) = Some (l_project l);
  vl_language : forall declared, document_id_language (l_document_id l) = Some declared -> declared = l_language l;
  vl_qid : is_valid_qid (l_wikidata l) = true;
  vl_wikidata : forall declared, document_id_wikidata (l_document_id l) = Some declared -> declared = l_wikidata l }.

(** ** Identities *)

Definition link_id (l : Link) : str * str * str := (l_polygon_id l, l_project l, l_document_id l).
Definition str_lt (a b : str) : Prop := str_leb b a = false.
Definition id_lt (a b : str * str * str) : Prop :=
  str_lt a.1.1 b.1.1 \/ a.1.1 = b.1.1 /\ (str_lt a.1.2 b.1.2 \/ a.1.2 = b.1.2 /\ str_lt a.2 b.2).
Definition sorted_by_identity (ls : list Link) : Prop := StronglySorted (fun a b => id_lt (link_id a) (link_id b)) ls.

#[export] Instance str_lt_dec : RelDecision str_lt.
Proof. intros a b. unfold str_lt. apply _. Defined.
#[export] Instance id_lt_dec : RelDecision id_lt.
Proof. intros a b. unfold id_lt. apply _. Defined.

Lemma str_lt_irrefl a : ¬ str_lt a a.
Proof. unfold str_lt. rewrite (str_le_refl a). done. Qed.

Lemma str_lt_total a b : str_lt a b \/ a = b \/ str_lt b a.
Proof.
  unfold str_lt. destruct (str_leb b a) eqn:E1, (str_leb a b) eqn:E2; auto. right; left. by apply (anti_symm str_le).
Qed.

Lemma str_lt_trans a b c : str_lt a b -> str_lt b c -> str_lt a c.
Proof.
  intros H1 H2. destruct (str_lt_total a c) as [?|[->|H3]]; [done|exfalso..].
  - unfold str_lt in *. destruct (total str_le b c) as [Hx|Hx]; unfold str_le in Hx; congruence.
  - unfold str_lt in *. destruct (total str_le a b) as [Hx|Hx]; unfold str_le in Hx; [|congruence].
    destruct (total str_le b c) as [Hy|Hy]; unfold str_le in Hy; [|congruence].
    assert (Hac : str_le a c) by (by trans b). unfold str_le in Hac. congruence.
Qed.

Lemma id_lt_irrefl a : ¬ id_lt a a.
Proof. unfold id_lt. pose proof str_lt_irrefl. naive_solver. Qed.

Lemma id_lt_total a b : id_lt a b \/ a = b \/ id_lt b a.
Proof.
  destruct a as [[a1 a2] a3], b as [[b1 b2] b3]. unfold id_lt. simpl.
  destruct (str_lt_total a1 b1) as [?|[->|?]]; [naive_solver| |naive_solver].
  destruct (str_lt_total a2 b2) as [?|[->|?]]; [naive_solver| |naive_solver].
  destruct (str_lt_total a3 b3) as [?|[->|?]]; naive_solver.
Qed.

Lemma id_lt_trans a b c : id_lt a b -> id_lt b c -> id_lt a c.
Proof.
  destruct a as [[a1 a2] a3], b as [[b1 b2] b3], c as [[c1 c2] c3]. unfold id_lt. simpl.
  intros [Ha|[-> Ha]] [Hb|[<- Hb]]; [left; by eapply str_lt_trans|by left|by left|right; split; [done|]].
  destruct Ha as [Ha|[-> Ha]], Hb as [Hb|[<- Hb]]; [left; by eapply str_lt_trans|by left|by left|right; split; [done|]].
  by eapply str_lt_trans.
Qed.

(** Two tables that are sorted by identity and have the same rows are equal. *)
Lemma sorted_ext ls ks : sorted_by_identity ls -> sorted_by_identity ks -> (forall l, l ∈ ls <-> l ∈ ks) -> ls = ks.
Proof.
  unfold sorted_by_identity. intros Hl. revert ks. induction Hl as [|l ls Hl IH Hmin]; intros ks Hk Hm.
  - destruct ks as [|k ks]; [done|]. exfalso. apply (not_elem_of_nil k), Hm. left.
  - destruct Hk as [|k ks Hk Hkmin]; [exfalso; apply (not_elem_of_nil l), Hm; left|].
    rewrite Forall_forall in Hmin, Hkmin.
    assert (l = k) as <-.
    { assert (Hlk : l ∈ k :: ks) by (apply Hm; left). assert (Hkl : k ∈ l :: ls) by (apply Hm; left).
      apply elem_of_cons in Hlk as [?|Hlk], Hkl as [?|Hkl]; try congruence.
      destruct (id_lt_irrefl (link_id l)). eapply id_lt_trans; [by apply Hmin|by apply Hkmin]. }
    f_equal. apply IH; [done|]. intros x. specialize (Hm x). rewrite !elem_of_cons in Hm. split; intros Hx.
    + destruct (proj1 Hm (or_intror Hx)) as [->|?]; [|done]. destruct (id_lt_irrefl (link_id l)). by apply Hmin.
    + destruct (proj2 Hm (or_intror Hx)) as [->|?]; [|done]. destruct (id_lt_irrefl (link_id l)). by apply Hkmin.
Qed.

Lemma sorted_NoDup ls : sorted_by_identity ls -> NoDup (link_id <$> ls).
Proof.
  induction 1 as [|l ls _ IH Hmin]; csimpl; constructor; [|done]. intros (k & Hk & Hin)%list_elem_of_fmap.
  rewrite Forall_forall in Hmin. apply (id_lt_irrefl (link_id l)). rewrite Hk at 2. by apply Hmin.
Qed.

(** * Rows *)

Lemma row_of_schema l : has_schema (row_of l).
Proof. unfold has_schema, polygon_document_link_schema, row_of. repeat constructor; simpl; eauto. Qed.

#[export] Instance row_of_inj : Inj (=) (=) row_of.
Proof. intros a b. destruct a, b. unfold row_of. simpl. by intros [= -> -> -> -> -> -> -> -> -> -> ->]. Qed.

Lemma py_eqb_row_of a b : py_eqb (VDict (row_of a)) (VDict (row_of b)) = bool_decide (a = b).
Proof.
  apply bool_decide_ext || (destruct (bool_decide_reflect (a = b)) as [->|Hne]).
  - destruct b. simpl. unfold as_int. by rewrite !str_eqb_refl, !bool_decide_eq_true_2.
  - apply not_true_iff_false. intros H. apply Hne. clear Hne. destruct a, b. simpl in H. unfold str_eqb in H.
    repeat (apply andb_true_iff in H as [? H]). by repeat match goal with Hx : bool_decide _ = true |- _ => apply bool_decide_eq_true in Hx; simplify_eq end.
Qed.

Definition packed (l : Link) : identity * pydict := (row_identity (row_of l), row_of l).

Lemma identity_eqb_link a b : identity_eqb (row_identity (row_of a)) (row_identity (row_of b)) = bool_decide (link_id a = link_id b).
Proof.
  unfold identity_eqb, row_identity, link_id. simpl. unfold str_eqb. destruct a as [a1 a2 a3], b as [b1 b2 b3]. simpl.
  repeat case_bool_decide; simplify_eq; try done; congruence.
Qed.

Lemma identity_ltb_link a b :
  identity_ltb (row_identity (row_of a)) (row_identity (row_of b)) = Some (bool_decide (id_lt (link_id a) (link_id b))).
Proof.
  unfold identity_ltb, row_identity, id_lt, link_id, str_lt. simpl. unfold str_eqb.
  assert (Hs : forall s t : str, negb (str_leb t s) = bool_decide (str_leb t s = false)).
  { intros s t. by destruct (str_leb t s). }
  pose proof (str_le_refl (l_polygon_id b)) as R1. pose proof (str_le_refl (l_project b)) as R2.
  pose proof (str_le_refl (l_document_id b)) as R3. unfold str_le in *.
  case_bool_decide as H1; simpl; [rewrite H1; case_bool_decide as H2; simpl; [rewrite H2; case_bool_decide as H3; simpl|]|];
    rewrite ?Hs; f_equal; [rewrite H3; symmetry; apply bool_decide_eq_false|apply bool_decide_ext..]; intuition congruence.
Qed.

(** ** Sorting *)

Lemma insert_packed l ls : Forall (fun k => link_id l ≠ link_id k) ls -> sorted_by_identity ls ->
  exists ls', insert_link (packed l) (packed <$> ls) = packed <$> ls' /\ sorted_by_identity ls' /\ ls' ≡ₚ l :: ls.
Proof.
  unfold sorted_by_identity. intros Hne Hs. induction Hs as [|k ls Hs IH Hmin]; csimpl; [exists [l]; split_and!; [done| |done]; by repeat constructor|].
  inversion Hne as [|? ? Hk Hne']; subst. unfold packed at 2. rewrite identity_ltb_link. simpl. case_bool_decide as Hlt.
  - exists (l :: k :: ls). split_and!; [done| |done]. constructor; [by constructor|]. constructor; [done|].
    eapply Forall_impl; [exact Hmin|]. intros x Hx. by eapply id_lt_trans.
  - destruct (IH Hne') as (ls' & -> & Hs' & Hp). exists (k :: ls'). split_and!; [done| |by rewrite Hp, Permutation_swap].
    constructor; [done|]. rewrite Hp. constructor; [|done]. destruct (id_lt_total (link_id l) (link_id k)) as [?|[?|?]]; done.
Qed.

Lemma foldr_packed ls : NoDup (link_id <$> ls) ->
  exists ls', foldr insert_link [] (packed <$> ls) = packed <$> ls' /\ sorted_by_identity ls' /\ ls' ≡ₚ ls.
Proof.
  induction ls as [|l ls IH]; csimpl; intros Hn; [exists []; split_and!; [done|constructor|done]|].
  apply NoDup_cons in Hn as [Hl Hn]. destruct (IH Hn) as (ls' & -> & Hs & Hp).
  destruct (insert_packed l ls') as (ls2 & -> & Hs2 & Hp2); [|done|exists ls2; split_and!; [done..|by rewrite Hp2, Hp]].
  rewrite Hp. apply Forall_forall. intros k Hk Heq. apply Hl. rewrite Heq. by apply list_elem_of_fmap_2.
Qed.

Lemma sorted_packed ls : NoDup (link_id <$> ls) ->
  exists ls', sorted_links (packed <$> ls) = Ok (packed <$> ls') /\ sorted_by_identity ls' /\ ls' ≡ₚ ls.
Proof.
  intros Hn. destruct (foldr_packed ls Hn) as (ls' & E & H). exists ls'. split; [|done]. unfold sorted_links.
  rewrite (proj2 (raise_if_Ok _ _ tt)); [simpl; by rewrite E|]. apply not_true_iff_false. rewrite existsb_exists.
  intros (a & (la & -> & _)%list_elem_of_In%list_elem_of_fmap & (b & (lb & -> & _)%list_elem_of_In%list_elem_of_fmap & Hb)%existsb_exists).
  unfold packed in Hb. simpl in Hb. rewrite identity_ltb_link in Hb. done.
Qed.

(** * Rows that are checked *)

Section Checked.
Context {RT : Runtime}.

(** The columns the schema calls strings hold strings. *)
Definition text_columns (row : pydict) : Prop :=
  forall column v, (column, pa_string) ∈ polygon_document_link_schema -> dget column row = Some v -> exists s, v = VStr s.

(** What a row that passes the checks becomes. *)
Definition checked (row : pydict) (l : Link) : Prop := coerce_row row = Ok (row_of l).

Lemma in_projects_known s : in_projects (VStr s) = Ok (bool_decide (s ∈ PROJECTS)).
Proof.
  unfold in_projects, PROJECTS, is_str_value. simpl. unfold mret, outcome_ret, str_eqb. f_equal. rewrite orb_false_r.
  repeat case_bool_decide; try done; set_solver.
Qed.

Lemma project_known d p : document_id_project d = Some p -> p ∈ PROJECTS.
Proof. unfold document_id_project. destruct (split_on 58 d) as [|? [|c ?]]; try done. case_bool_decide; [|done]. by intros [= <-]. Qed.

(** The eleven columns of a row, in the order of the schema. *)
Definition columns (v1 v2 v3 v4 v5 v6 v7 v8 v9 v10 v11 : pyval) : pydict := zip CANONICAL_COLUMNS [v1; v2; v3; v4; v5; v6; v7; v8; v9; v10; v11].

Lemma copied row c : copy_canonical_columns row = Ok c ->
  exists v1 v2 v3 v4 v5 v6 v7 v8 v9 v10 v11, c = columns v1 v2 v3 v4 v5 v6 v7 v8 v9 v10 v11 /\
    forall column v, (column, v) ∈ c -> dget column row = Some v.
Proof.
  intros H%outcome_mapM_Forall2. unfold CANONICAL_COLUMNS in H. csimpl in H.
  assert (Hin : forall column v, (column, v) ∈ c -> dget column row = Some v).
  { intros column v [i Hi]%list_elem_of_lookup. destruct (Forall2_lookup_r _ _ _ _ _ H Hi) as (col & _ & Hc).
    destruct (dget col row) as [w|] eqn:E; [|done]. by injection Hc as <- <-. }
  repeat match type of H with Forall2 _ (_ :: _) _ => apply Forall2_cons_inv_l in H as ([? ?] & ? & ? & H & ->) end.
  apply Forall2_nil_inv_l in H as ->.
  repeat match goal with Hx : match dget ?k row with _ => _ end = _ |- _ => destruct (dget k row); [injection Hx as <- <-|discriminate Hx] end.
  do 11 eexists. split; [reflexivity|exact Hin].
Qed.

Lemma copied_columns v1 v2 v3 v4 v5 v6 v7 v8 v9 v10 v11 :
  copy_canonical_columns (columns v1 v2 v3 v4 v5 v6 v7 v8 v9 v10 v11) = Ok (columns v1 v2 v3 v4 v5 v6 v7 v8 v9 v10 v11).
Proof. reflexivity. Qed.

Lemma coerced_numbers s1 s2 s3 s4 s5 s6 s7 s8 v9 v10 v11 :
  coerce_numeric_columns (columns (VStr s1) (VStr s2) (VStr s3) (VStr s4) (VStr s5) (VStr s6) (VStr s7) (VStr s8) v9 v10 v11) =
    (z9 ← py_int v9; z10 ← py_int v10; z11 ← py_int v11; mret (row_of (Build_Link s1 s2 s3 s4 s5 s6 s7 s8 z9 z10 z11))).
Proof.
  unfold coerce_numeric_columns. cbn [fold_outcome]. unfold mret, outcome_ret. simpl.
  destruct (py_int v9) as [z9|e]; [|done]. simpl. destruct (py_int v10) as [z10|e]; [|done]. simpl. by destruct (py_int v11).
Qed.

Lemma known_project polygon_id d p :
  validate_document_project polygon_id d (VStr p) = Ok tt <-> document_id_project d = Some p.
Proof.
  unfold validate_document_project. rewrite in_projects_known. cbn [mbind outcome_bind]. split.
  - intros (_ & _ & H%raise_if_Ok%negb_false_iff)%outcome_bind_Ok. destruct (document_id_project d) as [q|]; simpl in H; [|done].
    by apply bool_decide_eq_true in H as ->.
  - intros H. rewrite H. rewrite bool_decide_eq_true_2 by (by eapply project_known). simpl. by rewrite str_eqb_refl.
Qed.

Lemma known_language polygon_id d language :
  validate_document_language polygon_id d (VStr language) = Ok tt <-> forall declared, document_id_language d = Some declared -> declared = language.
Proof.
  unfold validate_document_language, is_str_value. destruct (document_id_language d) as [q|]; [|split; done]. rewrite raise_if_Ok, negb_false_iff.
  simpl. unfold str_eqb. rewrite bool_decide_eq_true. naive_solver.
Qed.

Lemma known_wikidata polygon_id d qid :
  validate_document_wikidata polygon_id d (VStr qid) = Ok tt <->
    is_valid_qid qid = true /\ forall declared, document_id_wikidata d = Some declared -> declared = qid.
Proof.
  unfold validate_document_wikidata. cbn [py_str]. split.
  - intros (_ & Hq%raise_if_Ok%negb_false_iff & H)%outcome_bind_Ok. split; [done|]. destruct (document_id_wikidata d) as [q|]; [|done].
    apply raise_if_Ok, negb_false_iff, bool_decide_eq_true in H as ->. by intros ? [= ->].
  - intros [Hq H]. rewrite Hq. simpl. destruct (document_id_wikidata d) as [q|]; [|done].
    apply raise_if_Ok, negb_false_iff, bool_decide_eq_true. by apply H.
Qed.

Lemma coerce_columns s1 s2 s3 s4 s5 s6 s7 s8 v9 v10 v11 c row :
  copy_canonical_columns row = Ok (columns (VStr s1) (VStr s2) (VStr s3) (VStr s4) (VStr s5) (VStr s6) (VStr s7) (VStr s8) v9 v10 v11) ->
  coerce_row row = Ok c <-> exists z9 z10 z11, py_int v9 = Ok z9 /\ py_int v10 = Ok z10 /\ py_int v11 = Ok z11 /\
    let l := Build_Link s1 s2 s3 s4 s5 s6 s7 s8 z9 z10 z11 in valid_link l /\ c = row_of l.
Proof.
  intros Hc. unfold coerce_row. rewrite Hc. cbn [mbind outcome_bind]. change (getitem_of "polygon_id" _) with (Ok (VStr s1)).
  change (item_text "document_id" _) with (Ok s2). change (getitem_of "project" _) with (Ok (VStr s3)).
  change (getitem_of "language" _) with (Ok (VStr s5)). change (getitem_of "wikidata" _) with (Ok (VStr s4)).
  rewrite coerced_numbers. unfold validated_polygon_id. simpl. split.
  - intros (id & (? & H1%raise_if_Ok%negb_false_iff & [= ->])%outcome_bind_Ok & H)%outcome_bind_Ok.
    apply outcome_bind_Ok in H as ([] & H2%known_project & H). apply outcome_bind_Ok in H as ([] & H3 & H). rewrite known_language in H3.
    apply outcome_bind_Ok in H as ([] & H4 & H). apply (proj1 (known_wikidata _ _ _)) in H4 as [H4 H5]. apply outcome_bind_Ok in H as (z9 & E9 & H).
    apply outcome_bind_Ok in H as (z10 & E10 & H). apply outcome_bind_Ok in H as (z11 & E11 & [= <-]).
    exists z9, z10, z11. by split_and!.
  - intros (z9 & z10 & z11 & -> & -> & -> & [H1 H2 H3 H4 H5] & ->). simpl in *. rewrite H1. simpl.
    rewrite (proj2 (known_project _ _ _) H2), (proj2 (known_language _ _ _) H3). simpl. by rewrite (proj2 (known_wikidata _ _ _) (conj H4 H5)).
Qed.

Lemma checked_row_of l l' : checked (row_of l) l' <-> l' = l /\ valid_link l.
Proof.
  unfold checked. destruct l as [s1 s2 s3 s4 s5 s6 s7 s8 z9 z10 z11].
  rewrite (coerce_columns s1 s2 s3 s4 s5 s6 s7 s8 (VInt z9) (VInt z10) (VInt z11)) by reflexivity. split.
  - intros (? & ? & ? & [= <-] & [= <-] & [= <-] & Hv & H%(inj row_of)). by subst.
  - intros [-> Hv]. by exists z9, z10, z11.
Qed.

Lemma coerced_is_checked row c : text_columns row -> coerce_row row = Ok c -> exists l, c = row_of l /\ checked row l /\ valid_link l.
Proof.
  intros Ht H. pose proof H as H0. unfold coerce_row in H0. apply outcome_bind_Ok in H0 as (cs & Hcs & _).
  pose proof Hcs as Hcs'. apply copied in Hcs' as (v1 & v2 & v3 & v4 & v5 & v6 & v7 & v8 & v9 & v10 & v11 & -> & Hin).
  assert (Htext : forall column v, (column, pa_string) ∈ polygon_document_link_schema ->
    (column, v) ∈ columns v1 v2 v3 v4 v5 v6 v7 v8 v9 v10 v11 -> exists s, v = VStr s) by (intros; eapply Ht; eauto).
  unfold columns, CANONICAL_COLUMNS, polygon_document_link_schema in Htext. csimpl in Htext.
  destruct (Htext (u "polygon_id") v1) as [s1 ->]; [set_solver|set_solver|]. destruct (Htext (u "document_id") v2) as [s2 ->]; [set_solver|set_solver|].
  destruct (Htext (u "project") v3) as [s3 ->]; [set_solver|set_solver|]. destruct (Htext (u "wikidata") v4) as [s4 ->]; [set_solver|set_solver|].
  destruct (Htext (u "language") v5) as [s5 ->]; [set_solver|set_solver|]. destruct (Htext (u "source_pbf") v6) as [s6 ->]; [set_solver|set_solver|].
  destruct (Htext (u "region") v7) as [s7 ->]; [set_solver|set_solver|]. destruct (Htext (u "osm_type") v8) as [s8 ->]; [set_solver|set_solver|].
  pose proof H as Hl. apply (coerce_columns _ _ _ _ _ _ _ _ _ _ _ _ _ Hcs) in Hl as (z9 & z10 & z11 & _ & _ & _ & Hv & ->).
  eexists. by split_and!.
Qed.
End Checked.

(** * Merging *)

Section Merged.
Context {RT : Runtime}.

Lemma link_at_packed l ls :
  match link_at (row_identity (row_of l)) (packed <$> ls) with
  | None => link_id l ∉ link_id <$> ls
  | Some row => exists k, k ∈ ls /\ link_id k = link_id l /\ row = row_of k
  end.
Proof.
  induction ls as [|k ls IH]; csimpl; [by apply not_elem_of_nil|]. unfold packed at 1. rewrite identity_eqb_link. case_bool_decide as Hk.
  - exists k. split_and!; [left|done..].
  - destruct (link_at _ _) as [row|]; [destruct IH as (k' & ? & ?); exists k'; split; [by right|done]|].
    rewrite elem_of_cons. naive_solver.
Qed.

Lemma merge_packed ls l o : NoDup (link_id <$> ls) ->
  merge_link_row (packed <$> ls) (row_of l) = Ok o <->
    o = packed <$> ls /\ l ∈ ls \/ o = packed <$> (ls ++ [l]) /\ link_id l ∉ link_id <$> ls.
Proof.
  intros Hn. unfold merge_link_row. change (identity_hashable _) with true. cbn [negb raise_if mbind outcome_bind].
  pose proof (link_at_packed l ls) as Hat.
  destruct (link_at _ _) as [row|].
  - destruct Hat as (k & Hk & Hid & ->). rewrite py_eqb_row_of. case_bool_decide as He; simpl.
    + subst k. split; [intros [= <-]; by left|]. intros [[-> _]|[_ Hx]]; [done|]. destruct Hx. by apply list_elem_of_fmap_2.
    + split; [done|]. intros [[_ Hl]|[_ Hx]]; [|destruct Hx; rewrite <- Hid; by apply list_elem_of_fmap_2].
      destruct He. apply list_elem_of_lookup in Hk as [i Hi], Hl as [j Hj].
      assert (i = j) as ->; [|congruence]. eapply NoDup_lookup; [exact Hn|rewrite list_lookup_fmap, Hi; simpl; rewrite Hid; done|by rewrite list_lookup_fmap, Hj].
  - split; [intros [= <-]; right; split; [|done]; by rewrite fmap_app|]. intros [[_ Hl]|[-> _]]; [|by rewrite fmap_app].
    destruct Hat. by apply list_elem_of_fmap_2.
Qed.

Abbreviation merge_step := (fun out raw => row ← validated_link_row raw; merge_link_row out row).

(** The dictionary after some rows holds each link of theirs once. *)
Definition collects (ls0 links ls : list Link) : Prop := NoDup (link_id <$> ls) /\ forall l, l ∈ ls <-> l ∈ ls0 \/ l ∈ links.

Lemma NoDup_snoc_id ls l : NoDup (link_id <$> ls) -> link_id l ∉ link_id <$> ls -> NoDup (link_id <$> (ls ++ [l])).
Proof. intros Hn Hl. rewrite fmap_app. apply NoDup_app. split_and!; [done| |apply NoDup_singleton]. intros x Hx ->%list_elem_of_singleton. done. Qed.

Lemma merge_forward rows ls0 out :
  Forall text_columns rows -> NoDup (link_id <$> ls0) -> fold_outcome merge_step (packed <$> ls0) (VDict <$> rows) = Ok out ->
  exists links ls, Forall2 checked rows links /\ Forall valid_link links /\ out = packed <$> ls /\ collects ls0 links ls.
Proof.
  intros Ht. revert ls0. induction Ht as [|row rows Hrow _ IH]; intros ls0 Hn H; csimpl in H.
  - injection H as <-. exists [], ls0. split_and!; [constructor..|done|]. split; [done|]. set_solver.
  - apply outcome_bind_Ok in H as (out1 & H1 & H). apply outcome_bind_Ok in H1 as (c & Hc & Hm). simpl in Hc.
    destruct (coerced_is_checked row c Hrow Hc) as (l & -> & Hl & Hv).
    assert (Hls1 : exists ls1, out1 = packed <$> ls1 /\ NoDup (link_id <$> ls1) /\ forall k, k ∈ ls1 <-> k ∈ ls0 \/ k = l).
    { apply (merge_packed _ _ _ Hn) in Hm as [[-> Hin]|[-> Hin]]; eexists; (split; [done|]); (split; [done || by apply NoDup_snoc_id|]); set_solver. }
    destruct Hls1 as (ls1 & -> & Hn1 & Hm1). destruct (IH ls1 Hn1 H) as (links & ls & Hlinks & Hvs & -> & Hn2 & Hm2).
    exists (l :: links), ls. split_and!; [by constructor..|done|]. split; [done|]. intros k. rewrite Hm2, Hm1, elem_of_cons. tauto.
Qed.

Lemma merge_backward rows links ls0 :
  Forall2 checked rows links -> NoDup (link_id <$> ls0) ->
  (forall a b, a ∈ ls0 ++ links -> b ∈ ls0 ++ links -> link_id a = link_id b -> a = b) ->
  exists ls, fold_outcome merge_step (packed <$> ls0) (VDict <$> rows) = Ok (packed <$> ls) /\ collects ls0 links ls.
Proof.
  intros Hr. revert ls0. induction Hr as [|row l rows links Hl _ IH]; intros ls0 Hn Hf; csimpl.
  - exists ls0. split; [done|]. split; [done|]. set_solver.
  - rewrite Hl. cbn [mbind outcome_bind].
    assert (Hm : exists ls1, merge_link_row (packed <$> ls0) (row_of l) = Ok (packed <$> ls1) /\ NoDup (link_id <$> ls1) /\
      forall k, k ∈ ls1 <-> k ∈ ls0 \/ k = l).
    { destruct (decide (link_id l ∈ link_id <$> ls0)) as [(k & Hk & Hin)%list_elem_of_fmap|Hin].
      - assert (l = k) as -> by (apply Hf; [set_solver|set_solver|done]). exists ls0. split_and!; [|done|set_solver].
        apply merge_packed; [done|]. by left.
      - exists (ls0 ++ [l]). split_and!; [|by apply NoDup_snoc_id|set_solver]. apply merge_packed; [done|]. by right. }
    destruct Hm as (ls1 & -> & Hn1 & Hm1). destruct (IH ls1 Hn1) as (ls & E & Hn2 & Hm2); [intros a b; rewrite !elem_of_app, !Hm1; intros; apply Hf; set_solver|].
    exists ls. split; [exact E|]. split; [done|]. intros k. rewrite Hm2, Hm1, elem_of_cons. tauto.
Qed.

(** Links of which no two have the same identity. *)
Definition no_conflict (links : list Link) : Prop := forall a b, a ∈ links -> b ∈ links -> link_id a = link_id b -> a = b.

Lemma NoDup_no_conflict ls : NoDup (link_id <$> ls) -> no_conflict ls.
Proof.
  intros Hn a b [i Hi]%list_elem_of_lookup [j Hj]%list_elem_of_lookup Hab. assert (i = j) as ->; [|congruence].
  eapply NoDup_lookup; [exact Hn|rewrite list_lookup_fmap, Hi; done|rewrite list_lookup_fmap, Hj; simpl; by rewrite Hab].
Qed.

(** What validation returns: the links of the rows, each once, sorted by identity. *)
Lemma validation_inv rows out :
  Forall text_columns rows -> validate_polygon_document_links (VDict <$> rows) = Ok out ->
  exists links ls, Forall2 checked rows links /\ Forall valid_link ls /\ sorted_by_identity ls /\ (forall l, l ∈ ls <-> l ∈ links) /\ out = row_of <$> ls.
Proof.
  intros Ht (o & Ho & H)%outcome_bind_Ok. destruct (merge_forward rows [] o Ht NoDup_nil_2 Ho) as (links & ls & Hl & Hv & -> & Hn & Hm).
  destruct (sorted_packed ls Hn) as (ls' & E & Hs & Hp). rewrite E in H. injection H as <-.
  assert (Hin : forall l, l ∈ ls' <-> l ∈ links) by (intros l; rewrite Hp, Hm; set_solver).
  exists links, ls'. split_and!; [done| |done|done|by rewrite <- list_fmap_compose]. rewrite Forall_forall in Hv |- *. intros l ?%Hin. by apply Hv.
Qed.

Lemma validation_intro rows links ls :
  Forall2 checked rows links -> sorted_by_identity ls -> (forall l, l ∈ ls <-> l ∈ links) ->
  validate_polygon_document_links (VDict <$> rows) = Ok (row_of <$> ls).
Proof.
  intros Hr Hs Hm. unfold validate_polygon_document_links.
  destruct (merge_backward rows links [] Hr NoDup_nil_2) as (ks & E & Hn & Hk).
  { intros a b Ha Hb. apply (NoDup_no_conflict ls); [by apply sorted_NoDup|by apply Hm..]. }
  change (@nil (identity * pydict)) with (packed <$> []). rewrite E. cbn [mbind outcome_bind].
  destruct (sorted_packed ks Hn) as (ks' & -> & Hs' & Hp). cbn [mbind outcome_bind]. unfold mret, outcome_ret.
  rewrite <- list_fmap_compose. do 2 f_equal. apply sorted_ext; [done..|]. intros l. rewrite Hp, Hk, Hm. set_solver.
Qed.

Lemma checked_rows_of ls : Forall valid_link ls -> Forall2 checked (row_of <$> ls) ls.
Proof. induction 1 as [|l ls Hl _ IH]; csimpl; [constructor|]. constructor; [by apply checked_row_of|done]. Qed.

Lemma checked_functional row a b : checked row a -> checked row b -> a = b.
Proof. unfold checked. intros Ha Hb. apply (inj row_of). congruence. Qed.

Lemma elem_of_checked rows links l : Forall2 checked rows links -> l ∈ links <-> exists row, row ∈ rows /\ checked row l.
Proof.
  intros H. split.
  - intros [i Hi]%list_elem_of_lookup. destruct (Forall2_lookup_r _ _ _ _ _ H Hi) as (row & Hr & Hc). exists row. split; [by eapply list_elem_of_lookup_2|done].
  - intros (row & [i Hi]%list_elem_of_lookup & Hc). destruct (Forall2_lookup_l _ _ _ _ _ H Hi) as (l' & Hl & Hc').
    rewrite (checked_functional _ _ _ Hc Hc'). by eapply list_elem_of_lookup_2.
Qed.

Lemma all_checked rows : (forall row, row ∈ rows -> exists l, checked row l) -> exists links, Forall2 checked rows links.
Proof.
  induction rows as [|row rows IH]; intros H; [by exists []|]. destruct (H row) as [l Hl]; [left|].
  destruct IH as [links Hlinks]; [intros r Hr; apply H; by right|]. exists (l :: links). by constructor.
Qed.

(** C26: Validation is canonical.  For rows whose string columns hold strings, the validated table
    depends only on which rows there are: every list of the same rows, in any order and with any
    repetition, gives the same table.  The rows of the table agree with the identifiers they carry,
    and validating the table again returns it unchanged. *)
Theorem validation_is_canonical rows out :
  Forall text_columns rows -> validate_polygon_document_links (VDict <$> rows) = Ok out ->
  (forall rows', (forall r, r ∈ rows' <-> r ∈ rows) -> validate_polygon_document_links (VDict <$> rows') = Ok out) /\
  validate_polygon_document_links (VDict <$> out) = Ok out /\
  exists ls, out = row_of <$> ls /\ Forall valid_link ls /\ sorted_by_identity ls.
Proof.
  intros Ht H. destruct (validation_inv _ _ Ht H) as (links & ls & Hl & Hv & Hs & Hm & ->). split_and!.
  - intros rows' Hrows. destruct (all_checked rows') as [links' Hl'].
    { intros row Hr%Hrows. apply list_elem_of_lookup in Hr as [i Hi]. destruct (Forall2_lookup_l _ _ _ _ _ Hl Hi) as (l & _ & Hc). by exists l. }
    apply (validation_intro _ _ _ Hl' Hs). intros l. rewrite Hm, (elem_of_checked _ _ _ Hl), (elem_of_checked _ _ _ Hl'). by setoid_rewrite Hrows.
  - apply (validation_intro _ ls); [by apply checked_rows_of|done..].
  - eauto.
Qed.
End Merged.

(** * Construction *)

Section Built.
Context {RT : Runtime}.

Lemma row_of_text l : text_columns (row_of l).
Proof.
  intros column v Hc H%dget_elem_of. unfold polygon_document_link_schema, row_of in *. csimpl in *.
  repeat (apply elem_of_cons in H as [H|H]; [injection H as -> ->; eauto; exfalso; set_solver by done|]). by apply elem_of_nil in H.
Qed.

Lemma index_polygon_spec qids (fields f : PolygonFields) qid (d : list (str * list PolygonFields)) :
  f ∈ default [] (dget qid (foldl (fun d qid => dset qid (default [] (dget qid d) ++ [fields]) d) d qids)) <->
    f ∈ default [] (dget qid d) \/ f = fields /\ qid ∈ qids.
Proof.
  revert d. induction qids as [|q qids IH]; intros d; simpl; [set_solver|]. rewrite IH. destruct (decide (q = qid)) as [->|Hne].
  - rewrite dget_dset_eq. simpl. set_solver.
  - rewrite dget_dset_ne by done. set_solver.
Qed.

Lemma index_polygons polys d qid (f : PolygonFields) :
  f ∈ default [] (dget qid (foldl index_polygon d polys)) <-> f ∈ default [] (dget qid d) \/ f ∈ polys /\ qid ∈ wikidata_qids f.
Proof.
  revert d. induction polys as [|p polys IH]; intros d; simpl; [set_solver|]. rewrite IH. unfold index_polygon. rewrite index_polygon_spec. set_solver.
Qed.

(** The link of a polygon and a document. *)
Lemma built_row fields doc r : build_link_row fields doc = Ok r -> exists l, r = row_of l.
Proof.
  unfold build_link_row. intros H. repeat (apply outcome_bind_Ok in H as (? & _ & H)). injection H as <-. by eexists (Build_Link _ _ _ _ _ _ _ _ _ _ _).
Qed.

(** What the join is made of. *)
Definition joined (polygons docs : list pydict) (r : pydict) : Prop :=
  exists polygon fields doc, polygon ∈ polygons /\ coerce_polygon_row polygon = Ok fields /\ doc ∈ docs /\
    get_text "wikidata" doc ∈ wikidata_qids fields /\ build_link_row fields doc = Ok r.

Lemma elem_of_mapM {A B} (f : A -> outcome B) l k y : mapM f l = Ok k -> y ∈ k <-> exists x, x ∈ l /\ f x = Ok y.
Proof.
  intros H%outcome_mapM_Forall2. split.
  - intros [i Hi]%list_elem_of_lookup. destruct (Forall2_lookup_r _ _ _ _ _ H Hi) as (x & Hx & Hf). exists x. split; [by eapply list_elem_of_lookup_2|done].
  - intros (x & [i Hi]%list_elem_of_lookup & Hf). destruct (Forall2_lookup_l _ _ _ _ _ H Hi) as (y' & Hy & Hf').
    rewrite Hf in Hf'. injection Hf' as ->. by eapply list_elem_of_lookup_2.
Qed.

Lemma item_text_Ok key d s : item_text key d = Ok s -> s = get_text key d.
Proof. unfold item_text, getitem_of, get_text. destruct (dget (u key) d); simpl; [by intros [= <-]|done]. Qed.

Lemma document_links_spec by_qid doc rows r : document_links by_qid doc = Ok rows ->
  r ∈ rows <-> exists fields, fields ∈ default [] (dget (get_text "wikidata" doc) by_qid) /\ build_link_row fields doc = Ok r.
Proof. intros (_ & _ & (qid & ->%item_text_Ok & H)%outcome_bind_Ok)%outcome_bind_Ok. by apply elem_of_mapM. Qed.

Lemma links_joined polygons docs poly_list (links : list (list pydict)) r :
  mapM coerce_polygon_row polygons = Ok poly_list -> mapM (document_links (foldl index_polygon [] poly_list)) docs = Ok links ->
  r ∈ mjoin links <-> joined polygons docs r.
Proof.
  intros Hp Hl. rewrite list_elem_of_join. unfold joined. split.
  - intros (rows & Hr & Hrows). destruct (proj1 (elem_of_mapM _ _ _ _ Hl) Hrows) as (doc & Hd & Hdoc).
    destruct (proj1 (document_links_spec _ _ _ _ Hdoc) Hr) as (fields & Hf & Hb).
    apply index_polygons in Hf as [[]%elem_of_nil|[Hf Hq]].
    destruct (proj1 (elem_of_mapM _ _ _ _ Hp) Hf) as (polygon & Hpoly & Hc). by exists polygon, fields, doc.
  - intros (polygon & fields & doc & Hpoly & Hc & Hd & Hq & Hb).
    assert (Hrows : exists rows, document_links (foldl index_polygon [] poly_list) doc = Ok rows /\ rows ∈ links).
    { apply outcome_mapM_Forall2 in Hl. apply list_elem_of_lookup in Hd as [i Hi]. destruct (Forall2_lookup_l _ _ _ _ _ Hl Hi) as (rows & Hr & Hx).
      exists rows. split; [done|by eapply list_elem_of_lookup_2]. }
    destruct Hrows as (rows & Hdoc & Hrows). exists rows. split; [|done]. apply (document_links_spec _ _ _ _ Hdoc). exists fields. split; [|done].
    apply index_polygons. right. split; [|done]. apply (elem_of_mapM _ _ _ _ Hp). by exists polygon.
Qed.

Lemma built_inv polygons wikipedia wikivoyage out :
  build_polygon_document_links polygons wikipedia wikivoyage = Ok out ->
  exists ls, out = row_of <$> ls /\ Forall valid_link ls /\ sorted_by_identity ls /\
    forall l, l ∈ ls <-> joined polygons (wikipedia ++ wikivoyage) (row_of l).
Proof.
  intros (poly_list & Hp & (links & Hl & H)%outcome_bind_Ok)%outcome_bind_Ok. pose proof (fun r => links_joined _ _ _ _ r Hp Hl) as Hj.
  assert (Hrow : exists js, mjoin links = row_of <$> js).
  { assert (Hall : forall r, r ∈ mjoin links -> exists l, r = row_of l) by (intros r (? & ? & ? & ? & ? & ? & ? & Hb)%Hj; by eapply built_row).
    clear -Hall. induction (mjoin links) as [|r rows IH]; [by exists []|]. destruct (Hall r) as [l ->]; [left|].
    destruct IH as [js ->]; [intros; apply Hall; by right|]. by exists (l :: js). }
  destruct Hrow as [js Hjs]. rewrite Hjs in H, Hj. destruct (validation_inv (row_of <$> js) out) as (links' & ls & Hc & Hv & Hs & Hm & ->); [|done|].
  { apply Forall_forall. intros r (l & -> & _)%list_elem_of_fmap. apply row_of_text. }
  exists ls. split_and!; [done..|]. intros l. rewrite Hm, (elem_of_checked _ _ _ Hc). rewrite <- Hj. split.
  - intros (r & Hr & Hx). assert (Hr' := Hr). apply list_elem_of_fmap in Hr' as (l' & -> & _). by apply checked_row_of in Hx as [-> _].
  - intros Hr. exists (row_of l). split; [done|]. apply list_elem_of_lookup in Hr as [i Hi].
    destruct (Forall2_lookup_l _ _ _ _ _ Hc Hi) as (l' & _ & Hx). pose proof Hx as Hx'. by apply checked_row_of in Hx' as [-> _].
Qed.

(** C25: Links are well typed.  Every row that the construction returns has the eleven columns of
    the schema, in its order and with its types; its polygon identifier is a safe file name, its
    project and, where the document identifier has them, its language and item are those of the
    document identifier; and the rows are strictly sorted by polygon, project and document. *)
Theorem links_are_well_typed polygons wikipedia_documents wikivoyage_documents out :
  build_polygon_document_links polygons wikipedia_documents wikivoyage_documents = Ok out ->
  Forall has_schema out /\ exists ls, out = row_of <$> ls /\ Forall valid_link ls /\ sorted_by_identity ls.
Proof.
  intros (ls & -> & Hv & Hs & _)%built_inv. split; [|eauto]. apply Forall_forall. intros r (l & -> & _)%list_elem_of_fmap. apply row_of_schema.
Qed.

(** C24: Links are the join.  The rows that the construction returns are exactly the links of the
    polygons and documents whose item is one of the items of the polygon's tag, each of them once. *)
Theorem links_are_the_join polygons wikipedia_documents wikivoyage_documents out :
  build_polygon_document_links polygons wikipedia_documents wikivoyage_documents = Ok out ->
  NoDup out /\ forall r, r ∈ out <-> joined polygons (wikipedia_documents ++ wikivoyage_documents) r.
Proof.
  intros (ls & -> & _ & Hs & Hm)%built_inv. split.
  - apply NoDup_fmap_2_strong; [intros ? ? _ _; apply (inj row_of)|]. by eapply NoDup_fmap_1, sorted_NoDup.
  - intros r. split; [intros (l & -> & Hl)%list_elem_of_fmap; by apply Hm|]. intros Hj.
    assert (Hl : exists l, r = row_of l) by (destruct Hj as (? & ? & ? & ? & ? & ? & ? & Hb); by eapply built_row).
    destruct Hl as [l ->]. apply list_elem_of_fmap_2. by apply Hm.
Qed.
End Built.

(** * Example

    A polygon with two items, a document of each project, and what is refused. *)

#[local] Existing Instance example_runtime.

Definition some_polygon : pydict :=
  [(u "polygon_id", VStr (u "way1")); (u "wikidata", VStr (u "Q1; Q2")); (u "source_pbf", VStr (u "malta.osm.pbf"));
   (u "region", VStr (u "malta")); (u "osm_type", VStr (u "way")); (u "osm_id", VInt 7)].
Definition some_document (id project qid language : string) (page : Z) : pydict :=
  [(u "document_id", VStr (u id)); (u "project", VStr (u project)); (u "wikidata", VStr (u qid)); (u "language", VStr (u language));
   (u "page_id", VInt page); (u "revision_id", VInt 6)].
Definition voyage : pydict := some_document "Q2:wikivoyage:fr:1:6" "wikivoyage" "Q2" "fr" 1.
Definition article : pydict := some_document "Q1:wikipedia:en:5:6" "wikipedia" "Q1" "en" 5.
(** A document of an item the polygon does not have. *)
Definition unrelated : pydict := some_document "Q3:wikipedia:en:9:6" "wikipedia" "Q3" "en" 9.

Definition link_to (doc_id project qid language : string) (page : Z) : Link :=
  {| l_polygon_id := u "way1"; l_document_id := u doc_id; l_project := u project; l_wikidata := u qid; l_language := u language;
     l_source_pbf := u "malta.osm.pbf"; l_region := u "malta"; l_osm_type := u "way"; l_osm_id := 7; l_page_id := page; l_revision_id := 6 |}.
Definition article_link : Link := link_to "Q1:wikipedia:en:5:6" "wikipedia" "Q1" "en" 5.
Definition voyage_link : Link := link_to "Q2:wikivoyage:fr:1:6" "wikivoyage" "Q2" "fr" 1.

Definition built : outcome (list pydict) := build_polygon_document_links [some_polygon] [article; unrelated; article] [voyage].
Lemma built_links : built = Ok (row_of <$> [article_link; voyage_link]).
Proof. vm_compute. reflexivity. Qed.

(** A document whose language disagrees with its identifier joins no polygon silently. *)
Example a_wrong_language_is_refused :
  exists e, build_polygon_document_links [some_polygon] [some_document "Q1:wikipedia:en:5:6" "wikipedia" "Q1" "de" 5] [] = Raise e /\
    exn_cls e = CValueError.
Proof. eexists. split; vm_compute; reflexivity. Qed.

(** Two different rows for one polygon and document are refused. *)
Example a_conflict_is_refused :
  exists e, validate_polygon_document_links
    [VDict (row_of article_link); VDict (row_of (link_to "Q1:wikipedia:en:5:6" "wikipedia" "Q1" "en" 6))] = Raise e /\ exn_cls e = CValueError.
Proof. eexists. split; vm_compute; reflexivity. Qed.

Lemma links_are_well_typed_witness :
  Forall has_schema (row_of <$> [article_link; voyage_link]) /\ sorted_by_identity [article_link; voyage_link].
Proof.
  destruct (links_are_well_typed [some_polygon] [article; unrelated; article] [voyage] _ built_links) as [Hs (ls & E & _ & Hsorted)].
  split; [exact Hs|]. apply (inj (fmap row_of)) in E as <-. exact Hsorted.
Defined.

Lemma links_are_the_join_witness :
  joined [some_polygon] ([article; unrelated; article] ++ [voyage]) (row_of voyage_link).
Proof.
  apply (links_are_the_join [some_polygon] [article; unrelated; article] [voyage] _ built_links). right. left.
Defined.

Lemma validation_is_canonical_witness :
  validate_polygon_document_links (VDict <$> [row_of voyage_link; row_of article_link; row_of voyage_link]) =
    Ok (row_of <$> [article_link; voyage_link]).
Proof.
  apply (validation_is_canonical (row_of <$> [article_link; voyage_link])).
  - constructor; [apply row_of_text|]. constructor; [apply row_of_text|constructor].
  - vm_compute. reflexivity.
  - intros r. simpl. rewrite !elem_of_cons. tauto.
Defined.
