(* ===== verification/RecoveryRows.v ===== *)
(** The rows of a Wikidata repair ([pipeline/_wikidata_recovery]): integrity and preservation checks
    ([validation.py]), the legacy and canonical shapes of links ([link_rows.py]), derived fields
    ([repair_fields.py]), the rows a repair retains ([repair_inputs.py]) and the merge of what was
    recovered ([repair_merge.py]). *)
From stdpp Require Import gmap sorting.
From S2P Require Import Prelude Py PyStr PyText Linker PolygonLinks.

Definition RecoveryRepairError : exn_class := CUser (u "RecoveryRepairError") CRuntimeError.
Definition repair_error (parts : pymsg) : exn := exc RecoveryRepairError parts.

Inductive RecoveryClassification :=
  | CURRENT | AUTHORITATIVE_NO_SITELINK | AUTHORITATIVE_NO_ARTICLE | AUTHORITATIVE_MISSING | REPAIR_REQUIRED | BLOCKED.
#[export] Instance classification_eq_dec : EqDecision RecoveryClassification.
Proof. solve_decision. Defined.

(** What the audit found in a region, as far as a repair reads it. *)
Record RegionAuditResult := {
  region_stem : str;
  blocked_reason : str;
  classifications : list (str * RecoveryClassification);
  polygon_ids_by_qid : list (str * list str);
  affected_polygon_ids_by_qid : list (str * list str);
  affected_qids : list str;
  orphan_fact_ids : list str;
  region_orphan_document_ids : list str }.

(** [a != b] on rows and on lists of rows. *)
Definition row_eqb (a b : pydict) : bool := py_eqb (VDict a) (VDict b).
Definition rows_eqb (a b : list pydict) : bool := py_eqb (VList (VDict <$> a)) (VList (VDict <$> b)).

(** [list.sort(key=...)]: stable. *)
Fixpoint insert_by {K} (leb : K -> K -> bool) (x : K * pydict) (l : list (K * pydict)) : list (K * pydict) :=
  match l with
  | [] => [x]
  | y :: rest => if leb x.1 y.1 then x :: l else y :: insert_by leb x rest
  end.
Definition sort_rows {K} (leb : K -> K -> bool) (key : pydict -> outcome K) (rows : list pydict) : outcome (list pydict) :=
  keys ← mapM key rows;
  mret (foldr (insert_by leb) [] (zip keys rows)).*2.

Section RecoveryRows.
Context {RT : Runtime}.

(** * Checks ([validation.py]) *)

Definition duplicate (label : string) (identifier : str) : exn :=
  repair_error [FStr (u "duplicate " ++ u label ++ u " "); FRepr (VStr identifier)].

Definition unique_mapping (rows : list pydict) (key value label : string) : outcome (list (str * str)) :=
  fold_outcome (fun result row =>
    identifier ← item_text key row;
    _ ← raise_if (dmem identifier result) (duplicate label identifier);
    v ← item_text value row;
    mret (dset identifier v result)) [] rows.

Definition unique_rows (rows : list pydict) (key label : string) : outcome (list (str * pydict)) :=
  fold_outcome (fun result row =>
    identifier ← item_text key row;
    _ ← raise_if (dmem identifier result) (duplicate label identifier);
    mret (dset identifier row result)) [] rows.

Definition first_invalid_polygon_tag (tags : list str) : option str := List.find (fun tag => bool_decide (qids_from_osm_tag tag = [])) tags.

Definition validate_polygons (polygons : list pydict) : outcome (list (str * list str)) :=
  polygon_tags ← unique_mapping polygons "polygon_id" "wikidata" "polygon_id";
  match first_invalid_polygon_tag polygon_tags.*2 with
  | Some invalid => Raise (repair_error [FStr (u "polygon contains invalid Wikidata identifier "); FRepr (VStr invalid)])
  | None => mret ((fun kv => (kv.1, qids_from_osm_tag kv.2)) <$> polygon_tags)
  end.

Definition validate_documents (documents : list pydict) : outcome (list (str * pydict) * gset str) :=
  documents_by_article ← unique_rows documents "article_id" "article_id";
  _ ← unique_rows documents "document_id" "document_id";
  ids ← mapM (item_text "document_id") documents;
  mret (documents_by_article, list_to_set ids).

Definition pair_repr (identity : str * str) : frag := FRepr (VTuple [VStr identity.1; VStr identity.2]).

Definition record_link_identity (identity : str * str) (link_ids : gset (str * str)) : outcome (gset (str * str)) :=
  _ ← raise_if (bool_decide (identity ∈ link_ids)) (repair_error [FStr (u "duplicate polygon-article identity "); pair_repr identity]);
  mret ({[identity]} ∪ link_ids).

Definition validate_link_reference (link : pydict) (polygon_id article_identifier : str) (polygon_qids : list (str * list str))
    (documents_by_article : list (str * pydict)) : outcome unit :=
  match dget polygon_id polygon_qids with
  | None => Raise (repair_error [FStr (u "link references missing polygon "); FRepr (VStr polygon_id)])
  | Some qids =>
      match dget article_identifier documents_by_article with
      | None => Raise (repair_error [FStr (u "link references missing document "); FRepr (VStr article_identifier)])
      | Some document =>
          qid ← item_text "wikidata" link;
          let mismatch := repair_error [FStr (u "link QID mismatch for "); pair_repr (polygon_id, article_identifier)] in
          if negb (bool_decide (qid ∈ qids)) then Raise mismatch
          else document_qid ← item_text "wikidata" document; raise_if (negb (str_eqb document_qid qid)) mismatch
      end
  end.

Definition validate_link (polygon_qids : list (str * list str)) (documents_by_article : list (str * pydict)) (link_ids : gset (str * str))
    (link : pydict) : outcome (gset (str * str)) :=
  polygon_id ← item_text "polygon_id" link;
  article_identifier ← item_text "article_id" link;
  link_ids ← record_link_identity (polygon_id, article_identifier) link_ids;
  _ ← validate_link_reference link polygon_id article_identifier polygon_qids documents_by_article;
  mret link_ids.

Definition validate_links (links : list pydict) (polygon_qids : list (str * list str)) (documents_by_article : list (str * pydict))
    : outcome unit :=
  _ ← fold_outcome (validate_link polygon_qids documents_by_article) ∅ links;
  mret tt.

Definition validate_section (document_ids : gset str) (section : pydict) : outcome unit :=
  id ← item_text "document_id" section;
  raise_if (negb (bool_decide (id ∈ document_ids)))
    (repair_error [FStr (u "section references missing document "); FRepr (dget_none (u "document_id") section)]).

Definition validate_sections (sections : list pydict) (document_ids : gset str) : outcome unit :=
  _ ← unique_rows sections "section_id" "section_id";
  fold_outcome (fun _ => validate_section document_ids) tt sections.

Definition validate_fact (valid_qids : gset str) (fact : pydict) : outcome unit :=
  qid ← item_text "wikidata" fact;
  raise_if (negb (bool_decide (qid ∈ valid_qids)))
    (repair_error [FStr (u "fact references absent QID "); FRepr (dget_none (u "wikidata") fact)]).

Definition validate_facts (facts : list pydict) (polygon_qids : list (str * list str)) : outcome unit :=
  _ ← unique_rows facts "fact_id" "fact_id";
  let valid_qids : gset str := list_to_set (mjoin polygon_qids.*2) in
  fold_outcome (fun _ => validate_fact valid_qids) tt facts.

Definition validate_existing_rows (polygons links documents sections facts : list pydict) : outcome unit :=
  polygon_qids ← validate_polygons polygons;
  '(documents_by_article, document_ids) ← validate_documents documents;
  _ ← validate_links links polygon_qids documents_by_article;
  _ ← validate_sections sections document_ids;
  validate_facts facts polygon_qids.

Record RowVersions := { original : list pydict; updated : list pydict }.

(** [{str(row[key]): row for row in rows}]. *)
Definition rows_by (key : string) (rows : list pydict) : outcome (list (str * pydict)) :=
  fold_outcome (fun d row => k ← item_text key row; mret (dset k row d)) [] rows.

Definition touches (affected : gset str) (tag : str) : bool := existsb (fun q => bool_decide (q ∈ affected)) (qids_from_osm_tag tag).

Definition validate_healthy_polygon_preservation (polygons : RowVersions) (affected : gset str) : outcome unit :=
  updated_polygon_map ← rows_by "polygon_id" (updated polygons);
  fold_outcome (fun _ row =>
    tag ← item_text "wikidata" row;
    if touches affected tag then mret tt
    else
      id ← item_text "polygon_id" row;
      match dget id updated_polygon_map with
      | None => Raise (exc CKeyError [FRepr (VStr id)])
      | Some row' => raise_if (negb (row_eqb row' row)) (repair_error [FStr (u "healthy polygon changed: " ++ id)])
      end) tt (original polygons).

Definition validate_rows_preserved (versions : RowVersions) (key label : string) (removed_ids : gset str) : outcome unit :=
  updated_map ← rows_by key (updated versions);
  fold_outcome (fun _ row =>
    identifier ← item_text key row;
    if bool_decide (identifier ∈ removed_ids) then mret tt
    else
      let kept := match dget identifier updated_map with Some row' => row_eqb row' row | None => false end in
      raise_if (negb kept) (repair_error [FStr (u "existing " ++ u label ++ u " changed: " ++ identifier)])) tt (original versions).

Definition validate_preservation (polygons documents sections facts : RowVersions) (affected removed_document_ids removed_section_ids : gset str)
    : outcome unit :=
  _ ← validate_healthy_polygon_preservation polygons affected;
  _ ← validate_rows_preserved documents "document_id" "document" removed_document_ids;
  _ ← validate_rows_preserved sections "section_id" "section" removed_section_ids;
  validate_rows_preserved facts "fact_id" "fact" ∅.

(** * Links ([link_rows.py]) *)

Definition link_identities (links : list pydict) : outcome (gset (str * str)) :=
  fold_outcome (fun identities row =>
    polygon_id ← item_text "polygon_id" row;
    article_id ← item_text "article_id" row;
    record_link_identity (polygon_id, article_id) identities) ∅ links.

Definition sort_by_document (rows : list pydict) : outcome (list pydict) := sort_rows str_leb (item_text "document_id") rows.

Definition documents_by_qid (documents : list pydict) : outcome (list (str * list pydict)) :=
  grouped ← fold_outcome (fun d document => q ← item_text "wikidata" document; mret (dset q (default [] (dget q d) ++ [document]) d)) [] documents;
  mapM (fun kv => values ← sort_by_document kv.2; mret (kv.1, values)) grouped.

Definition legacy_link (polygon document : pydict) (qid : str) : outcome pydict :=
  polygon_id ← getitem_of "polygon_id" polygon;
  article_id ← getitem_of "article_id" document;
  language ← getitem_of "language" document;
  source_pbf ← getitem_of "source_pbf" polygon;
  region ← getitem_of "region" polygon;
  osm_type ← getitem_of "osm_type" polygon;
  osm_id ← getitem_of "osm_id" polygon;
  page_id ← getitem_of "page_id" document;
  revision_id ← getitem_of "revision_id" document;
  mret [(u "polygon_id", polygon_id); (u "article_id", article_id); (u "wikidata", VStr qid); (u "language", language);
        (u "source_pbf", source_pbf); (u "region", region); (u "osm_type", osm_type); (u "osm_id", osm_id); (u "page_id", page_id);
        (u "revision_id", revision_id); (u "is_best_language", VBool false)].

(** The rows so far and the identities they have. *)
Abbreviation linked := (list pydict * gset (str * str))%type.

Definition append_document (polygon : pydict) (qid : str) (acc : linked) (document : pydict) : outcome linked :=
  polygon_id ← item_text "polygon_id" polygon;
  article_id ← item_text "article_id" document;
  if bool_decide ((polygon_id, article_id) ∈ acc.2) then mret acc
  else
    link ← legacy_link polygon document qid;
    mret (acc.1 ++ [link], {[(polygon_id, article_id)]} ∪ acc.2).

Definition append_polygon_documents (by_qid : list (str * list pydict)) (affected : gset str) (acc : linked) (polygon : pydict) : outcome linked :=
  tag ← item_text "wikidata" polygon;
  fold_outcome (fun acc qid =>
    if negb (bool_decide (qid ∈ affected)) then mret acc
    else fold_outcome (append_document polygon qid) acc (default [] (dget qid by_qid))) acc (qids_from_osm_tag tag).

Definition merge_links (polygons links documents : list pydict) (affected : gset str) : outcome (list pydict) :=
  identities ← link_identities links;
  by_qid ← documents_by_qid documents;
  acc ← fold_outcome (append_polygon_documents by_qid affected) (links, identities) polygons;
  mret acc.1.

Definition wikipedia_links (links : list pydict) : outcome (list pydict) :=
  fold_outcome (fun acc link => project ← getitem_of "project" link; mret (if is_str_value (u "wikipedia") project then acc ++ [link] else acc)) [] links.

Definition legacy_link_from_canonical (documents_by_id : list (str * pydict)) (best_by_polygon : list (str * str)) (affected : gset str)
    (link : pydict) : outcome (option pydict) :=
  document_id ← item_text "document_id" link;
  match dget document_id documents_by_id with
  | None =>
      qid ← item_text "wikidata" link;
      if bool_decide (qid ∈ affected) then mret None
      else Raise (repair_error [FStr (u "canonical Wikipedia link references missing document "); FRepr (VStr document_id)])
  | Some document =>
      polygon_id ← getitem_of "polygon_id" link;
      article_id ← getitem_of "article_id" document;
      wikidata ← getitem_of "wikidata" link;
      language ← getitem_of "language" link;
      source_pbf ← getitem_of "source_pbf" link;
      region ← getitem_of "region" link;
      osm_type ← getitem_of "osm_type" link;
      osm_id ← getitem_of "osm_id" link;
      page_id ← getitem_of "page_id" link;
      revision_id ← getitem_of "revision_id" link;
      let best := str_eqb (py_str language) (default [] (dget (py_str polygon_id) best_by_polygon)) in
      mret (Some [(u "polygon_id", polygon_id); (u "article_id", article_id); (u "wikidata", wikidata); (u "language", language);
        (u "source_pbf", source_pbf); (u "region", region); (u "osm_type", osm_type); (u "osm_id", osm_id); (u "page_id", page_id);
        (u "revision_id", revision_id); (u "is_best_language", VBool best)])
  end.

Definition convert_canonical_links (documents_by_id : list (str * pydict)) (best_by_polygon : list (str * str)) (affected : gset str)
    (links : list pydict) : outcome (list pydict) :=
  converted ← mapM (legacy_link_from_canonical documents_by_id best_by_polygon affected) links;
  mret (omap id converted).

Definition canonical_wikipedia_links_to_legacy (links documents polygons : list pydict) (affected : gset str) : outcome (list pydict) :=
  documents_by_id ← rows_by "document_id" documents;
  best_by_polygon ← fold_outcome (fun d row =>
    id ← item_text "polygon_id" row; mret (dset id (str_or_empty (dget_none (u "best_language") row)) d)) [] polygons;
  selected ← wikipedia_links links;
  convert_canonical_links documents_by_id best_by_polygon affected selected.

Definition canonical_link_row (documents_by_article : list (str * pydict)) (link : pydict) : outcome pydict :=
  article_identifier ← item_text "article_id" link;
  match dget article_identifier documents_by_article with
  | None => Raise (repair_error [FStr (u "recovered link references missing article "); FRepr (VStr article_identifier)])
  | Some document =>
      polygon_id ← getitem_of "polygon_id" link;
      document_id ← getitem_of "document_id" document;
      wikidata ← getitem_of "wikidata" link;
      language ← getitem_of "language" link;
      source_pbf ← getitem_of "source_pbf" link;
      region ← getitem_of "region" link;
      osm_type ← getitem_of "osm_type" link;
      osm_id ← getitem_of "osm_id" link;
      page_id ← getitem_of "page_id" link;
      revision_id ← getitem_of "revision_id" link;
      mret [(u "polygon_id", polygon_id); (u "document_id", document_id); (u "project", VStr (u "wikipedia")); (u "wikidata", wikidata);
        (u "language", language); (u "source_pbf", source_pbf); (u "region", region); (u "osm_type", osm_type); (u "osm_id", osm_id);
        (u "page_id", page_id); (u "revision_id", revision_id)]
  end.

Definition legacy_wikipedia_links_to_canonical (links documents preserved_wikivoyage_links : list pydict) : outcome (list pydict) :=
  documents_by_article ← rows_by "article_id" documents;
  converted ← mapM (canonical_link_row documents_by_article) links;
  match validate_polygon_document_links (VDict <$> (preserved_wikivoyage_links ++ converted)) with
  | Ok canonical => mret canonical
  | Raise e =>
      if isinstance e CTypeError || isinstance e CValueError
      then Raise (exc_from RecoveryRepairError (FStr (u "Recovered canonical polygon-document links are invalid: ") :: exn_msg e) e)
      else Raise e
  end.
End RecoveryRows.
