(* ===== verification/RecoveryMerge.v ===== *)
(** The merge of a Wikidata repair: derived polygon fields ([repair_fields.py]), the rows that are
    retained ([repair_inputs.py]), and the merged, checked tables ([repair_merge.py]). *)
From stdpp Require Import gmap sorting.
From S2P Require Import Prelude Py PyStr PyText Linker PolygonLinks RecoveryRows.

(** [dumps] of a list of strings ([utils/json.py]): no escapes but those JSON needs. *)
Definition hex_digit (n : N) : N := (if n <? 10 then 48 + n else 87 + n)%N.
Definition json_char (c : N) : str :=
  match c with
  | 34%N => [92; 34]%N | 92%N => [92; 92]%N | 10%N => [92; 110]%N | 13%N => [92; 114]%N | 9%N => [92; 116]%N
  | 8%N => [92; 98]%N | 12%N => [92; 102]%N
  | _ => if (c <? 32)%N then [92; 117; 48; 48; hex_digit (c / 16); hex_digit (c mod 16)]%N else [c]
  end.
Definition json_string (s : str) : str := [34%N] ++ mjoin (json_char <$> s) ++ [34%N].
Definition dumps_strs (l : list str) : str := [91%N] ++ join [44%N] (json_string <$> l) ++ [93%N].

(** [sorted(set(l))]. *)
Definition sorted_set (l : list str) : list str := sorted_strs (elements (list_to_set l : gset str)).

Section RecoveryMerge.
Context {RT : Runtime}.

(** * Derived fields *)

Definition summarize_polygon_links (polygon_links : list pydict) : outcome (list str * list str) :=
  articles ← mapM (item_text "article_id") polygon_links;
  languages ← mapM (item_text "language") polygon_links;
  mret (sorted_set articles, sorted_set languages).

Definition preferred_language (languages : list str) : str :=
  match List.find (fun l => bool_decide (l ∈ languages)) PREFERRED_LANGUAGES with
  | Some best => best
  | None => match languages with first :: _ => first | [] => [] end
  end.

(** [any(...)] stops at the first document with text. *)
Fixpoint has_article_text (article_ids : list str) (documents_by_article : list (str * pydict)) : outcome bool :=
  match article_ids with
  | [] => mret false
  | article :: rest =>
      match dget article documents_by_article with
      | None => Raise (exc CKeyError [FRepr (VStr article)])
      | Some document =>
          text ← item_text "full_text" document;
          if negb (bool_decide (strip text = [])) then mret true else has_article_text rest documents_by_article
      end
  end.

Definition recompute_polygon_row (documents_by_article : list (str * pydict)) (affected : gset str) (original : pydict)
    (polygon_links : list pydict) : outcome (pydict * str) :=
  tag ← item_text "wikidata" original;
  if negb (touches affected tag) then mret (original, [])
  else
    '(article_ids, languages) ← summarize_polygon_links polygon_links;
    let best := preferred_language languages in
    text ← has_article_text article_ids documents_by_article;
    mret (dupdate original
      [(u "has_wikipedia", VBool (negb (bool_decide (article_ids = [])))); (u "wikipedia_language_count", VInt (len languages));
       (u "wikipedia_languages", VStr (dumps_strs languages)); (u "wikipedia_article_count", VInt (len article_ids));
       (u "has_english_wikipedia", VBool (bool_decide (u "en" ∈ languages))); (u "has_french_wikipedia", VBool (bool_decide (u "fr" ∈ languages)));
       (u "text_available", VBool text); (u "best_language", VStr best)], best).

(** [d.setdefault(str(row[key]), []).append(row)] for every row. *)
Definition group_by (key : string) (rows : list pydict) : outcome (list (str * list pydict)) :=
  fold_outcome (fun d row => k ← item_text key row; mret (dset k (default [] (dget k d) ++ [row]) d)) [] rows.

Definition recompute_polygon_rows (polygons links documents : list pydict) (affected : gset str)
    : outcome (list pydict * list (str * str)) :=
  documents_by_article ← rows_by "article_id" documents;
  links_by_polygon ← group_by "polygon_id" links;
  fold_outcome (fun acc original =>
    polygon_id ← item_text "polygon_id" original;
    '(row, best) ← recompute_polygon_row documents_by_article affected original (default [] (dget polygon_id links_by_polygon));
    mret (acc.1 ++ [row], if bool_decide (best = []) then acc.2 else dset polygon_id best acc.2)) ([], []) polygons.

Definition apply_best_language (best_by_polygon : list (str * str)) (row : pydict) : outcome pydict :=
  polygon_id ← item_text "polygon_id" row;
  match dget polygon_id best_by_polygon with
  | Some best => language ← item_text "language" row; mret (dset (u "is_best_language") (VBool (str_eqb language best)) row)
  | None => mret row
  end.
Definition apply_best_language_links (links : list pydict) (best_by_polygon : list (str * str)) : outcome (list pydict) :=
  mapM (apply_best_language best_by_polygon) links.

Definition recompute_affected_polygon_fields (polygons links documents : list pydict) (affected : gset str)
    : outcome (list pydict * list pydict) :=
  '(updated_polygons, best_by_polygon) ← recompute_polygon_rows polygons links documents affected;
  updated_links ← apply_best_language_links links best_by_polygon;
  mret (updated_polygons, updated_links).

(** * Inputs *)

Record RepairInputs := {
  polygons : list pydict; stored_links : list pydict; links : list pydict; documents : list pydict; sections : list pydict;
  facts : list pydict; preserved_wikivoyage_links : list pydict; canonical_links : bool;
  retained_facts : list pydict; retained_documents : list pydict; retained_sections : list pydict; retained_links : list pydict;
  orphan_document_ids : gset str }.

(** [[row for row in rows if str(row[key]) not in ids]]. *)
Definition retain (key : string) (ids : gset str) (rows : list pydict) : outcome (list pydict) :=
  fold_outcome (fun acc row => k ← item_text key row; mret (if bool_decide (k ∈ ids) then acc else acc ++ [row])) [] rows.
Definition retain_facts (facts : list pydict) (orphans : gset str) : outcome (list pydict) := retain "fact_id" orphans facts.
Definition retain_documents (documents : list pydict) (orphans : gset str) : outcome (list pydict) := retain "document_id" orphans documents.
Definition retain_sections (sections : list pydict) (orphans : gset str) : outcome (list pydict) := retain "document_id" orphans sections.
Definition retain_links (links : list pydict) (orphans : gset str) : outcome (list pydict) := retain "article_id" orphans links.

(** [{str(row[value]) for row in rows if str(row[key]) in ids}]. *)
Definition texts_where (key value : string) (ids : gset str) (rows : list pydict) : outcome (gset str) :=
  fold_outcome (fun acc row =>
    k ← item_text key row;
    if bool_decide (k ∈ ids) then v ← item_text value row; mret ({[v]} ∪ acc) else mret acc) ∅ rows.
Definition orphan_article_ids (documents : list pydict) (orphans : gset str) : outcome (gset str) :=
  texts_where "document_id" "article_id" orphans documents.
(** [_removed_section_ids]. *)
Definition removed_section_ids (sections : list pydict) (orphans : gset str) : outcome (gset str) :=
  texts_where "document_id" "section_id" orphans sections.

Definition stale_plan (what : string) : exn := repair_error (msg ("Recovery plan contains stale or duplicate orphan " ++ what ++ " IDs")%string).

Record Retained := { kept_facts : list pydict; kept_documents : list pydict; kept_sections : list pydict; kept_links : list pydict; dropped : gset str }.

Definition retain_repair_rows (region : RegionAuditResult) (documents sections facts links : list pydict) : outcome Retained :=
  let orphan_facts : gset str := list_to_set (orphan_fact_ids region) in
  let orphans : gset str := list_to_set (region_orphan_document_ids region) in
  kept_facts ← retain_facts facts orphan_facts;
  _ ← raise_if (negb (bool_decide (len facts - len kept_facts = Z.of_nat (size orphan_facts)))) (stale_plan "fact");
  articles ← orphan_article_ids documents orphans;
  kept_documents ← retain_documents documents orphans;
  _ ← raise_if (negb (bool_decide (len documents - len kept_documents = Z.of_nat (size orphans)))) (stale_plan "document");
  kept_sections ← retain_sections sections orphans;
  kept_links ← retain_links links articles;
  mret {| kept_facts := kept_facts; kept_documents := kept_documents; kept_sections := kept_sections; kept_links := kept_links; dropped := orphans |}.

(** [[dict(row) for row in stored_links if row["project"] == "wikivoyage"]]. *)
Definition wikivoyage_links (links : list pydict) : outcome (list pydict) :=
  fold_outcome (fun acc link => project ← getitem_of "project" link; mret (if is_str_value (u "wikivoyage") project then acc ++ [link] else acc)) [] links.

(** The stored links are canonical or legacy, which their Arrow schema tells. *)
Definition load_repair_links (stored : list pydict) (canonical : bool) (polygons documents : list pydict) (affected : gset str)
    : outcome (list pydict * list pydict) :=
  if canonical then
    preserved ← wikivoyage_links stored;
    links ← canonical_wikipedia_links_to_legacy stored documents polygons affected;
    mret (links, preserved)
  else mret (stored, []).

(** The tables are those read from the region's files. *)
Definition load_repair_inputs (region : RegionAuditResult) (polygons documents sections facts stored : list pydict) (canonical : bool)
    : outcome RepairInputs :=
  '(links, preserved) ← load_repair_links stored canonical polygons documents (list_to_set (affected_qids region));
  kept ← retain_repair_rows region documents sections facts links;
  _ ← validate_existing_rows polygons (kept_links kept) (kept_documents kept) (kept_sections kept) (kept_facts kept);
  mret {| polygons := polygons; stored_links := stored; links := links; documents := documents; sections := sections; facts := facts;
          preserved_wikivoyage_links := preserved; canonical_links := canonical; retained_facts := kept_facts kept;
          retained_documents := kept_documents kept; retained_sections := kept_sections kept; retained_links := kept_links kept;
          orphan_document_ids := dropped kept |}.

(** * Merge *)

Record RecoveryBatchArtifacts := { batch_documents : list pydict; batch_sections : list pydict; batch_facts : list pydict }.

Definition flatten_batch_rows (batches : list RecoveryBatchArtifacts) (attribute : RecoveryBatchArtifacts -> list pydict) : list pydict :=
  mjoin (attribute <$> batches).

(** Primary and secondary identities so far. *)
Definition take_secondary (secondary_key : option string) (row : pydict) (secondary : gset str) : outcome (gset str) :=
  match secondary_key with
  | None => mret secondary
  | Some key =>
      identifier ← item_text key row;
      _ ← raise_if (bool_decide (identifier ∈ secondary)) (duplicate key identifier);
      mret ({[identifier]} ∪ secondary)
  end.

Definition validate_merge_rows (existing : list pydict) (primary_key label : string) (secondary_key : option string)
    : outcome (gset str * gset str) :=
  fold_outcome (fun ids row =>
    identifier ← item_text primary_key row;
    _ ← raise_if (bool_decide (identifier ∈ ids.1)) (duplicate label identifier);
    secondary ← take_secondary secondary_key row ids.2;
    mret ({[identifier]} ∪ ids.1, secondary)) (∅, ∅) existing.

Record Appending := { ap_rows : list pydict; ap_primary : gset str; ap_secondary : gset str; ap_added : gset str }.

Definition append_merge_row (primary_key : string) (secondary_key : option string) (a : Appending) (row : pydict) : outcome Appending :=
  identifier ← item_text primary_key row;
  if bool_decide (identifier ∈ ap_primary a) then mret a
  else
    secondary ← take_secondary secondary_key row (ap_secondary a);
    mret {| ap_rows := ap_rows a ++ [row]; ap_primary := {[identifier]} ∪ ap_primary a; ap_secondary := secondary;
            ap_added := {[identifier]} ∪ ap_added a |}.

Definition merge_rows (existing additions : list pydict) (primary_key label : string) (secondary_key : option string)
    : outcome (list pydict * gset str) :=
  '(primary, secondary) ← validate_merge_rows existing primary_key label secondary_key;
  a ← fold_outcome (append_merge_row primary_key secondary_key)
        {| ap_rows := existing; ap_primary := primary; ap_secondary := secondary; ap_added := ∅ |} additions;
  mret (ap_rows a, ap_added a).

(** The key of a section: its document and its index. *)
Definition section_key (row : pydict) : outcome (str * Z) :=
  document_id ← item_text "document_id" row;
  index ← getitem_of "section_index" row;
  n ← py_int index;
  mret (document_id, n).
Definition section_leb (a b : str * Z) : bool := if str_eqb a.1 b.1 then a.2 <=? b.2 else str_leb a.1 b.1.

Definition sort_repair_tables (documents sections facts : list pydict) : outcome (list pydict * list pydict * list pydict) :=
  documents ← sort_by_document documents;
  sections ← sort_rows section_leb section_key sections;
  facts ← sort_rows str_leb (item_text "fact_id") facts;
  mret (documents, sections, facts).

Definition affected_polygon_ids (region : RegionAuditResult) (affected : list str) : gset str :=
  list_to_set (mjoin (snd <$> filter (fun kv => kv.1 ∈ affected) (affected_polygon_ids_by_qid region))).

Record Merged := { m_polygons : list pydict; m_links : list pydict; m_documents : list pydict; m_sections : list pydict; m_facts : list pydict;
  m_affected_polygons : gset str }.

Definition merge_repair_tables (region : RegionAuditResult) (inputs : RepairInputs) (batches : list RecoveryBatchArtifacts) (affected : list str)
    : outcome Merged :=
  let affected_set : gset str := list_to_set affected in
  '(merged_documents, _) ← merge_rows (retained_documents inputs) (flatten_batch_rows batches batch_documents) "document_id" "document_id"
     (Some "article_id"%string);
  merged_links ← merge_links (polygons inputs) (retained_links inputs) merged_documents affected_set;
  '(updated_polygons, updated_links) ← recompute_affected_polygon_fields (polygons inputs) merged_links merged_documents affected_set;
  '(merged_sections, _) ← merge_rows (retained_sections inputs) (flatten_batch_rows batches batch_sections) "section_id" "section_id" None;
  '(merged_facts, _) ← merge_rows (retained_facts inputs) (flatten_batch_rows batches batch_facts) "fact_id" "fact_id" None;
  '(documents, sections, facts) ← sort_repair_tables merged_documents merged_sections merged_facts;
  mret {| m_polygons := updated_polygons; m_links := updated_links; m_documents := documents; m_sections := sections; m_facts := facts;
          m_affected_polygons := affected_polygon_ids region affected |}.

Definition validate_merged_repair (inputs : RepairInputs) (merged : Merged) (affected : list str) : outcome unit :=
  _ ← validate_existing_rows (m_polygons merged) (m_links merged) (m_documents merged) (m_sections merged) (m_facts merged);
  removed ← removed_section_ids (sections inputs) (orphan_document_ids inputs);
  validate_preservation {| original := polygons inputs; updated := m_polygons merged |}
    {| original := documents inputs; updated := m_documents merged |} {| original := sections inputs; updated := m_sections merged |}
    {| original := retained_facts inputs; updated := m_facts merged |} (list_to_set affected) (orphan_document_ids inputs) removed.

Definition persisted_repair_links (updated_links merged_documents : list pydict) (inputs : RepairInputs) : outcome (list pydict) :=
  if canonical_links inputs then legacy_wikipedia_links_to_canonical updated_links merged_documents (preserved_wikivoyage_links inputs)
  else mret updated_links.

Definition repair_change_flags (inputs : RepairInputs) (updated_polygons persisted_links merged_documents merged_sections merged_facts : list pydict)
    : bool * bool :=
  let map_inputs_changed := negb (rows_eqb (polygons inputs) updated_polygons && rows_eqb (stored_links inputs) persisted_links &&
    rows_eqb (documents inputs) merged_documents) in
  (map_inputs_changed || negb (rows_eqb (sections inputs) merged_sections && rows_eqb (facts inputs) merged_facts), map_inputs_changed).

Definition terminal_classification (qid : str) (state : RecoveryClassification) (affected : list str) (polygon_ids : list str)
    (linked_polygon_qids : gset (str * str)) : RecoveryClassification :=
  if negb (bool_decide (qid ∈ affected)) then state
  else if forallb (fun polygon_id => bool_decide ((polygon_id, qid) ∈ linked_polygon_qids)) polygon_ids then CURRENT
  else AUTHORITATIVE_NO_ARTICLE.

Definition linked_pairs (links : list pydict) : outcome (gset (str * str)) :=
  fold_outcome (fun acc link =>
    if is_str_value (u "wikipedia") (default (VStr (u "wikipedia")) (dget (u "project") link))
    then p ← item_text "polygon_id" link; q ← item_text "wikidata" link; mret ({[(p, q)]} ∪ acc)
    else mret acc) ∅ links.

(** [dict(pairs)]: a later pair replaces an earlier one. *)
Definition dict_of {A} (pairs : list (str * A)) : list (str * A) := dupdate [] pairs.

Definition terminal_classifications (region : RegionAuditResult) (links : list pydict) : outcome (list (str * RecoveryClassification)) :=
  linked ← linked_pairs links;
  let polygons_by_qid := dict_of (polygon_ids_by_qid region) in
  mret (dict_of ((fun '(qid, state) =>
    (qid, terminal_classification qid state (affected_qids region) (default [] (dget qid polygons_by_qid)) linked)) <$> classifications region)).

Record RepairOutputs := {
  out_polygons : list pydict; out_links : list pydict; out_documents : list pydict; out_sections : list pydict; out_facts : list pydict;
  out_classifications : list (str * RecoveryClassification); out_affected_qids : list str; out_affected_polygons : gset str;
  map_inputs_changed : bool; changed : bool }.

Definition merge_repair_outputs (region : RegionAuditResult) (inputs : RepairInputs) (batches : list RecoveryBatchArtifacts) : outcome RepairOutputs :=
  let affected := sorted_strs (affected_qids region) in
  merged ← merge_repair_tables region inputs batches affected;
  _ ← validate_merged_repair inputs merged affected;
  persisted ← persisted_repair_links (m_links merged) (m_documents merged) inputs;
  let '(changed, map_changed) := repair_change_flags inputs (m_polygons merged) persisted (m_documents merged) (m_sections merged) (m_facts merged) in
  terminal ← terminal_classifications region persisted;
  mret {| out_polygons := m_polygons merged; out_links := persisted; out_documents := m_documents merged; out_sections := m_sections merged;
          out_facts := m_facts merged; out_classifications := terminal; out_affected_qids := affected;
          out_affected_polygons := m_affected_polygons merged; map_inputs_changed := map_changed; changed := changed |}.
End RecoveryMerge.
