(* ===== verification/RecoveryProofs.v ===== *)
(** What a Wikidata repair guarantees: the checks on the tables mean referential integrity, and a
    merge that passes keeps what was there, adds only what is missing and links what it recovered. *)
From stdpp Require Import gmap sorting.
From S2P Require Import Prelude Py PyStr PyText Linker PolygonLinks RecoveryRows.

Section Integrity.
Context {RT : Runtime}.

(** * Identities *)

Definition texts (key : string) (rows : list pydict) (ks : list str) : Prop := Forall2 (fun r k => item_text key r = Ok k) rows ks.
Definition unique (key : string) (rows : list pydict) : Prop := exists ks, texts key rows ks /\ NoDup ks.
Definition link_pair (link : pydict) : outcome (str * str) :=
  polygon_id ← item_text "polygon_id" link; article_id ← item_text "article_id" link; mret (polygon_id, article_id).
Definition unique_pairs (links : list pydict) : Prop := exists ids, Forall2 (fun l id => link_pair l = Ok id) links ids /\ NoDup ids.

(** Referential integrity of the tables of a region. *)
Record integrity (polygons links documents sections facts : list pydict) : Prop := {
  it_polygons : unique "polygon_id" polygons;
  it_tags : forall p, p ∈ polygons -> exists tag, item_text "wikidata" p = Ok tag /\ qids_from_osm_tag tag ≠ [];
  it_articles : unique "article_id" documents;
  it_documents : unique "document_id" documents;
  it_pairs : unique_pairs links;
  it_links : forall l, l ∈ links -> exists p d tag i a q, p ∈ polygons /\ d ∈ documents /\
    item_text "polygon_id" l = Ok i /\ item_text "polygon_id" p = Ok i /\ item_text "article_id" l = Ok a /\ item_text "article_id" d = Ok a /\
    item_text "wikidata" l = Ok q /\ item_text "wikidata" d = Ok q /\ item_text "wikidata" p = Ok tag /\ q ∈ qids_from_osm_tag tag;
  it_sections : unique "section_id" sections;
  it_section_documents : forall s, s ∈ sections -> exists d i, d ∈ documents /\ item_text "document_id" s = Ok i /\ item_text "document_id" d = Ok i;
  it_facts : unique "fact_id" facts;
  it_fact_items : forall f, f ∈ facts -> exists p tag q, p ∈ polygons /\ item_text "wikidata" p = Ok tag /\ q ∈ qids_from_osm_tag tag /\
    item_text "wikidata" f = Ok q }.

(** ** Lists and the values of a column *)

Lemma Forall2_elem_l {A B} (R : A -> B -> Prop) l k x : Forall2 R l k -> x ∈ l -> exists y, y ∈ k /\ R x y.
Proof.
  intros H [i Hi]%list_elem_of_lookup. destruct (Forall2_lookup_l _ _ _ _ _ H Hi) as (y & Hy & Hr). exists y. split; [by eapply list_elem_of_lookup_2|done].
Qed.

Lemma Forall2_elem_r {A B} (R : A -> B -> Prop) l k y : Forall2 R l k -> y ∈ k -> exists x, x ∈ l /\ R x y.
Proof.
  intros H [i Hi]%list_elem_of_lookup. destruct (Forall2_lookup_r _ _ _ _ _ H Hi) as (x & Hx & Hr). exists x. split; [by eapply list_elem_of_lookup_2|done].
Qed.

Lemma elem_of_texts key rows ks k : texts key rows ks -> k ∈ ks <-> exists r, r ∈ rows /\ item_text key r = Ok k.
Proof.
  intros H. split; [apply (Forall2_elem_r _ _ _ _ H)|]. intros (r & Hr & Hk). destruct (Forall2_elem_l _ _ _ _ H Hr) as (k' & Hk' & E). simpl in E. congruence.
Qed.

Lemma elem_of_zip_texts {A} key rows ks (vs : list A) (R : pydict -> A -> Prop) k v :
  texts key rows ks -> Forall2 R rows vs -> (k, v) ∈ zip ks vs -> exists r, r ∈ rows /\ item_text key r = Ok k /\ R r v.
Proof.
  intros Hk Hv [i Hi]%list_elem_of_lookup. apply lookup_zip_with_Some in Hi as (k' & v' & [= <- <-] & Hki & Hvi).
  destruct (Forall2_lookup_r _ _ _ _ _ Hk Hki) as (r & Hr & E). destruct (Forall2_lookup_l _ _ _ _ _ Hv Hr) as (v' & Hv' & HR).
  exists r. split_and!; [by eapply list_elem_of_lookup_2|done|congruence].
Qed.

Lemma zip_texts_elem {A} key rows ks (vs : list A) (R : pydict -> A -> Prop) r k :
  texts key rows ks -> Forall2 R rows vs -> r ∈ rows -> item_text key r = Ok k -> exists v, (k, v) ∈ zip ks vs /\ R r v.
Proof.
  intros Hk Hv [i Hi]%list_elem_of_lookup E. destruct (Forall2_lookup_l _ _ _ _ _ Hk Hi) as (k' & Hki & E').
  destruct (Forall2_lookup_l _ _ _ _ _ Hv Hi) as (v & Hvi & HR). simpl in E'. assert (k' = k) as -> by congruence.
  exists v. split; [|done]. eapply (list_elem_of_lookup_2 _ i). apply lookup_zip_with_Some. eauto.
Qed.

Lemma zip_texts_keys {A} key rows ks (vs : list A) (R : pydict -> A -> Prop) : texts key rows ks -> Forall2 R rows vs -> (zip ks vs).*1 = ks.
Proof. intros H1%Forall2_length H2%Forall2_length. apply fst_zip. lia. Qed.

Lemma unique_eq key rows a b k : unique key rows -> a ∈ rows -> b ∈ rows -> item_text key a = Ok k -> item_text key b = Ok k -> a = b.
Proof.
  intros (ks & Hks & Hn) [i Hi]%list_elem_of_lookup [j Hj]%list_elem_of_lookup Ha Hb.
  destruct (Forall2_lookup_l _ _ _ _ _ Hks Hi) as (k1 & E1 & H1). destruct (Forall2_lookup_l _ _ _ _ _ Hks Hj) as (k2 & E2 & H2). simpl in *.
  assert (k1 = k) as -> by congruence. assert (k2 = k) as -> by congruence. assert (i = j) as -> by (by eapply NoDup_lookup). congruence.
Qed.

(** * Loops that build dictionaries *)

Lemma dset_fresh {A} k (v : A) d : k ∉ d.*1 -> dset k v d = d ++ [(k, v)].
Proof.
  induction d as [|[k' w] d IH]; csimpl; [done|]. intros Hk. rewrite str_eqb_neq by set_solver. rewrite IH by set_solver. done.
Qed.

Lemma dmem_false {A} k (d : list (str * A)) : dmem k d = false <-> k ∉ d.*1.
Proof. unfold dmem. destruct (dget k d) eqn:E; [split; [done|]; intros Hk; apply dget_elem_of in E; exfalso; eauto|]. by apply dget_None in E. Qed.

Lemma collect_spec {A} key label (val : pydict -> outcome A) rows r0 r :
  fold_outcome (fun result row => identifier ← item_text key row; _ ← raise_if (dmem identifier result) (duplicate label identifier);
                 v ← val row; mret (dset identifier v result)) r0 rows = Ok r <->
  exists ks vs, texts key rows ks /\ Forall2 (fun row v => val row = Ok v) rows vs /\ NoDup ks /\ (forall k, k ∈ ks -> k ∉ r0.*1) /\ r = r0 ++ zip ks vs.
Proof.
  revert r0. induction rows as [|row rows IH]; intros r0; simpl.
  - split; [intros [= <-]; exists [], []; split_and!; [constructor..|by intros ? ?%elem_of_nil|by rewrite app_nil_r]|].
    intros (ks & vs & ->%Forall2_nil_inv_l & ->%Forall2_nil_inv_l & _ & _ & ->). by rewrite app_nil_r.
  - split.
    + intros (r1 & H1 & H)%outcome_bind_Ok. apply outcome_bind_Ok in H1 as (k & Hk & H1).
      apply outcome_bind_Ok in H1 as (? & Hf & H1). apply raise_if_Ok in Hf. apply outcome_bind_Ok in H1 as (v & Hv & [= <-]).
      apply dmem_false in Hf. rewrite dset_fresh in H by done. apply IH in H as (ks & vs & Hks & Hvs & Hn & Hout & ->).
      exists (k :: ks), (v :: vs). split_and!; [by constructor|by constructor| | |by rewrite <- app_assoc].
      * constructor; [|done]. intros Hin. apply (Hout k Hin). rewrite fmap_app. set_solver.
      * intros k' [->|Hin]%elem_of_cons; [done|]. intros Hx. apply (Hout k' Hin). rewrite fmap_app. set_solver.
    + intros (ks & vs & Hks & Hvs & Hn & Hout & ->). apply Forall2_cons_inv_l in Hks as (k & ks' & Hk & Hks & ->).
      apply Forall2_cons_inv_l in Hvs as (v & vs' & Hv & Hvs & ->). apply NoDup_cons in Hn as [Hnk Hn]. rewrite Hk, Hv. simpl.
      assert (Hf : k ∉ r0.*1) by (apply Hout; left). rewrite (proj2 (dmem_false _ _) Hf). simpl. rewrite dset_fresh by done.
      apply IH. exists ks', vs'. split_and!; [done..| |by rewrite <- app_assoc]. intros k' Hk'. rewrite fmap_app. csimpl.
      rewrite elem_of_app, list_elem_of_singleton. intros [Hx| ->]; [|done]. apply (Hout k'); [by right|done].
Qed.

Lemma unique_rows_spec rows key label r : unique_rows rows key label = Ok r <-> exists ks, texts key rows ks /\ NoDup ks /\ r = zip ks rows.
Proof.
  unfold unique_rows. rewrite (fold_outcome_ext _ (fun result row => identifier ← item_text key row;
    _ ← raise_if (dmem identifier result) (duplicate label identifier); v ← (fun row => Ok row) row; mret (dset identifier v result))) by done.
  rewrite collect_spec. split.
  - intros (ks & vs & Hks & Hvs & Hn & _ & ->). exists ks. assert (vs = rows) as -> by (clear -Hvs; induction Hvs; simplify_eq/=; congruence). done.
  - intros (ks & Hks & Hn & ->). exists ks, rows. split_and!; [done| |done|by intros ? _ ?%elem_of_nil|done]. clear. induction rows; by constructor.
Qed.

Lemma unique_rows_ok rows key label : (exists r, unique_rows rows key label = Ok r) <-> unique key rows.
Proof. unfold unique. setoid_rewrite unique_rows_spec. naive_solver. Qed.

Lemma unique_mapping_spec rows key value label r :
  unique_mapping rows key value label = Ok r <-> exists ks vs, texts key rows ks /\ texts value rows vs /\ NoDup ks /\ r = zip ks vs.
Proof.
  unfold unique_mapping. rewrite (collect_spec key label (item_text value)). split.
  - intros (ks & vs & ? & ? & ? & _ & ->). by exists ks, vs.
  - intros (ks & vs & ? & ? & ? & ->). exists ks, vs. split_and!; [done..|by intros ? _ ?%elem_of_nil|done].
Qed.

Lemma all_texts key rows : (forall r, r ∈ rows -> exists k, item_text key r = Ok k) -> exists ks, texts key rows ks.
Proof.
  induction rows as [|r rows IH]; intros H; [by exists []; constructor|]. destruct (H r) as [k Hk]; [left|].
  destruct IH as [ks Hks]; [intros x Hx; apply H; by right|]. exists (k :: ks). by constructor.
Qed.

(** ** The checks *)

Lemma first_invalid_None tags : first_invalid_polygon_tag tags = None <-> Forall (fun tag => qids_from_osm_tag tag ≠ []) tags.
Proof.
  unfold first_invalid_polygon_tag. rewrite Forall_forall. split.
  - intros H tag Hin. pose proof (List.find_none _ _ H tag (proj1 (list_elem_of_In _ _) Hin)) as Hx. by apply bool_decide_eq_false in Hx.
  - intros H. destruct (List.find _ tags) as [tag|] eqn:E; [|done]. apply List.find_some in E as [Hin Hx]. apply bool_decide_eq_true in Hx.
    destruct (H tag); [by apply list_elem_of_In|done].
Qed.

Lemma validate_polygons_spec polygons q :
  validate_polygons polygons = Ok q <-> exists ks tags, texts "polygon_id" polygons ks /\ texts "wikidata" polygons tags /\ NoDup ks /\
    Forall (fun tag => qids_from_osm_tag tag ≠ []) tags /\ q = zip ks (qids_from_osm_tag <$> tags).
Proof.
  unfold validate_polygons.
  assert (Hz : forall ks tags, (fun kv : str * str => (kv.1, qids_from_osm_tag kv.2)) <$> zip ks tags = zip ks (qids_from_osm_tag <$> tags)).
  { intros ks. induction ks as [|k ks IH]; intros [|t tags]; csimpl; [done..|]. by rewrite IH. }
  split.
  - intros (r & (ks & tags & Hk & Ht & Hn & ->)%unique_mapping_spec & H)%outcome_bind_Ok.
    rewrite snd_zip in H by (apply Forall2_length in Hk, Ht; lia).
    destruct (first_invalid_polygon_tag tags) eqn:E; [done|]. apply first_invalid_None in E. injection H as <-.
    exists ks, tags. split_and!; [done..|]. by rewrite Hz.
  - intros (ks & tags & Hk & Ht & Hn & Hv & ->).
    rewrite (proj2 (unique_mapping_spec _ _ _ _ (zip ks tags))) by eauto 10. cbn [mbind outcome_bind].
    rewrite snd_zip by (apply Forall2_length in Hk, Ht; lia). rewrite (proj2 (first_invalid_None _) Hv). unfold mret, outcome_ret. by rewrite Hz.
Qed.

Lemma validate_documents_spec documents r :
  validate_documents documents = Ok r <-> exists aids dids, texts "article_id" documents aids /\ texts "document_id" documents dids /\
    NoDup aids /\ NoDup dids /\ r = (zip aids documents, list_to_set dids).
Proof.
  unfold validate_documents. split.
  - intros (r1 & (aids & Ha & Hna & ->)%unique_rows_spec & H)%outcome_bind_Ok. apply outcome_bind_Ok in H as (r2 & (dids & Hd & Hnd & ->)%unique_rows_spec & H).
    apply outcome_bind_Ok in H as (ids & Hids & [= <-]). exists aids, dids. split_and!; [done..|].
    apply mapM_Forall2 in Hd. rewrite Hd in Hids. by injection Hids as <-.
  - intros (aids & dids & Ha & Hd & Hna & Hnd & ->).
    rewrite (proj2 (unique_rows_spec _ _ _ (zip aids documents)) (ex_intro _ aids (conj Ha (conj Hna eq_refl)))). cbn [mbind outcome_bind].
    rewrite (proj2 (unique_rows_spec _ _ _ (zip dids documents)) (ex_intro _ dids (conj Hd (conj Hnd eq_refl)))). cbn [mbind outcome_bind]. by rewrite (proj2 (mapM_Forall2 _ _ _) Hd).
Qed.

(** A link to a known polygon and document that share its item. *)
Definition reference_ok (polygon_qids : list (str * list str)) (by_article : list (str * pydict)) (link : pydict) : Prop :=
  exists i a qids document q, item_text "polygon_id" link = Ok i /\ item_text "article_id" link = Ok a /\ dget i polygon_qids = Some qids /\
    dget a by_article = Some document /\ item_text "wikidata" link = Ok q /\ q ∈ qids /\ item_text "wikidata" document = Ok q.

Lemma validate_link_reference_ok link i a pq by_article :
  item_text "polygon_id" link = Ok i -> item_text "article_id" link = Ok a ->
  validate_link_reference link i a pq by_article = Ok tt <-> reference_ok pq by_article link.
Proof.
  intros Hi Ha. unfold validate_link_reference, reference_ok. split.
  - destruct (dget i pq) as [qids|] eqn:Eq; [|done]. destruct (dget a by_article) as [document|] eqn:Ed; [|done].
    intros (q & Hq & H)%outcome_bind_Ok. case_bool_decide as Hin; [|done]. simpl in H. apply outcome_bind_Ok in H as (dq & Hdq & H).
    apply raise_if_Ok, negb_false_iff in H. destruct (str_eqb_spec dq q) as [->|]; [|done]. by exists i, a, qids, document, q.
  - intros (i' & a' & qids & document & q & Hi' & Ha' & Hq & Hd & Hl & Hin & Hdq). assert (i' = i) as -> by congruence. assert (a' = a) as -> by congruence.
    rewrite Hq, Hd, Hl. cbn [mbind outcome_bind]. rewrite bool_decide_eq_true_2 by done. cbn [negb]. rewrite Hdq. cbn [mbind outcome_bind].
    by rewrite str_eqb_refl.
Qed.

Lemma validate_links_spec links pq by_article s0 s :
  fold_outcome (validate_link pq by_article) s0 links = Ok s <->
    exists ids, Forall2 (fun l id => link_pair l = Ok id) links ids /\ NoDup ids /\ (forall id, id ∈ ids -> id ∉ s0) /\
      Forall (reference_ok pq by_article) links /\ s = list_to_set ids ∪ s0.
Proof.
  revert s0. induction links as [|l links IH]; intros s0; simpl.
  - split; [intros [= <-]; exists []; split_and!; [constructor..|by intros ? ?%elem_of_nil|done|set_solver]|].
    intros (ids & ->%Forall2_nil_inv_l & _ & _ & _ & ->). f_equal. set_solver.
  - split.
    + intros (s1 & H1 & H)%outcome_bind_Ok. unfold validate_link in H1. apply outcome_bind_Ok in H1 as (i & Hi & H1).
      apply outcome_bind_Ok in H1 as (a & Ha & H1). apply outcome_bind_Ok in H1 as (s2 & Hs2 & H1). apply outcome_bind_Ok in Hs2 as (? & Hin & [= <-]).
      apply raise_if_Ok, bool_decide_eq_false in Hin. apply outcome_bind_Ok in H1 as ([] & Href & [= <-]).
      apply (validate_link_reference_ok _ _ _ _ _ Hi Ha) in Href. apply IH in H as (ids & Hids & Hn & Hout & Hr & ->).
      exists ((i, a) :: ids). split_and!; [constructor; [|done]; unfold link_pair; by rewrite Hi; simpl; rewrite Ha|constructor; [|done]|
        |by constructor|set_solver].
      * intros Hx. apply (Hout _ Hx). set_solver.
      * intros id [->|Hid]%elem_of_cons; [done|]. intros Hx. apply (Hout _ Hid). set_solver.
    + intros (ids & Hids & Hn & Hout & Hr & ->). apply Forall2_cons_inv_l in Hids as ([i a] & ids' & Hl & Hids & ->).
      apply NoDup_cons in Hn as [Hni Hn]. apply Forall_cons in Hr as [Href Hr]. unfold link_pair in Hl.
      apply outcome_bind_Ok in Hl as (i' & Hi & Hl). apply outcome_bind_Ok in Hl as (a' & Ha & [= -> ->]).
      unfold validate_link. rewrite Hi. cbn [mbind outcome_bind]. rewrite Ha. cbn [mbind outcome_bind]. unfold record_link_identity.
      rewrite bool_decide_eq_false_2 by (apply Hout; left). cbn [raise_if mbind outcome_bind].
      rewrite (proj2 (validate_link_reference_ok _ _ _ _ _ Hi Ha) Href). cbn [mbind outcome_bind]. apply IH. exists ids'. split_and!; [done..| |done|].
      * intros id Hid. rewrite elem_of_union, elem_of_singleton. intros [->|Hx]; [done|]. apply (Hout id); [by right|done].
      * set_solver.
Qed.

Lemma validate_section_ok ids s : validate_section ids s = Ok tt <-> exists i, item_text "document_id" s = Ok i /\ i ∈ ids.
Proof.
  unfold validate_section. split.
  - intros (i & Hi & H%raise_if_Ok%negb_false_iff%bool_decide_eq_true)%outcome_bind_Ok. eauto.
  - intros (i & -> & Hi). simpl. by rewrite bool_decide_eq_true_2.
Qed.

Lemma validate_fact_ok qids f : validate_fact qids f = Ok tt <-> exists q, item_text "wikidata" f = Ok q /\ q ∈ qids.
Proof.
  unfold validate_fact. split.
  - intros (i & Hi & H%raise_if_Ok%negb_false_iff%bool_decide_eq_true)%outcome_bind_Ok. eauto.
  - intros (i & -> & Hi). simpl. by rewrite bool_decide_eq_true_2.
Qed.

Lemma dget_tags polygons ks tags i qs : texts "polygon_id" polygons ks -> texts "wikidata" polygons tags -> NoDup ks ->
  dget i (zip ks (qids_from_osm_tag <$> tags)) = Some qs <->
    exists p tag, p ∈ polygons /\ item_text "polygon_id" p = Ok i /\ item_text "wikidata" p = Ok tag /\ qs = qids_from_osm_tag tag.
Proof.
  intros Hk Ht Hn. set (R := fun p qs => exists tag, item_text "wikidata" p = Ok tag /\ qs = qids_from_osm_tag tag).
  assert (Ht' : Forall2 R polygons (qids_from_osm_tag <$> tags)).
  { apply Forall2_fmap_r. eapply Forall2_impl; [exact Ht|]. intros p tag Hp. by exists tag. }
  split.
  - intros H%dget_elem_of. destruct (elem_of_zip_texts _ _ _ _ _ _ _ Hk Ht' H) as (p & Hp & Hi & tag & Htag & ->). by exists p, tag.
  - intros (p & tag & Hp & Hi & Htag & ->). destruct (zip_texts_elem _ _ _ _ _ _ _ Hk Ht' Hp Hi) as (qs & Hin & tag' & Htag' & ->).
    assert (tag' = tag) as -> by congruence. apply dget_NoDup; [|done]. by rewrite (zip_texts_keys _ _ _ _ _ Hk Ht').
Qed.

Lemma Forall2_refl_eq {A} (l : list A) : Forall2 eq l l.
Proof. induction l; by constructor. Qed.

Lemma dget_rows key rows ks k r : texts key rows ks -> NoDup ks -> dget k (zip ks rows) = Some r <-> r ∈ rows /\ item_text key r = Ok k.
Proof.
  intros Hk Hn. pose proof (Forall2_refl_eq rows) as Hr. split.
  - intros H%dget_elem_of. by destruct (elem_of_zip_texts _ _ _ _ _ _ _ Hk Hr H) as (r' & Hin & E & ->).
  - intros [Hin E]. destruct (zip_texts_elem _ _ _ _ _ _ _ Hk Hr Hin E) as (r' & Hz & <-). apply dget_NoDup; [|done].
    by rewrite (zip_texts_keys _ _ _ _ _ Hk Hr).
Qed.

Lemma elem_of_items polygons ks tags q : texts "polygon_id" polygons ks -> texts "wikidata" polygons tags ->
  q ∈ (list_to_set (mjoin (zip ks (qids_from_osm_tag <$> tags)).*2) : gset str) <->
    exists p tag, p ∈ polygons /\ item_text "wikidata" p = Ok tag /\ q ∈ qids_from_osm_tag tag.
Proof.
  intros Hk Ht. rewrite snd_zip by (rewrite length_fmap; apply Forall2_length in Hk, Ht; lia). rewrite elem_of_list_to_set, list_elem_of_join. split.
  - intros (qs & Hq & (tag & -> & Htag)%list_elem_of_fmap). destruct (Forall2_elem_r _ _ _ _ Ht Htag) as (p & Hp & E). by exists p, tag.
  - intros (p & tag & Hp & E & Hq). exists (qids_from_osm_tag tag). split; [done|]. apply list_elem_of_fmap_2. apply (elem_of_texts _ _ _ _ Ht). eauto.
Qed.

(** What the checks on links, sections and facts look up is in the tables. *)
Lemma reference_in_tables polygons documents ks tags aids l :
  texts "polygon_id" polygons ks -> texts "wikidata" polygons tags -> NoDup ks -> texts "article_id" documents aids -> NoDup aids ->
  reference_ok (zip ks (qids_from_osm_tag <$> tags)) (zip aids documents) l <->
    exists p d tag i a q, p ∈ polygons /\ d ∈ documents /\
      item_text "polygon_id" l = Ok i /\ item_text "polygon_id" p = Ok i /\ item_text "article_id" l = Ok a /\ item_text "article_id" d = Ok a /\
      item_text "wikidata" l = Ok q /\ item_text "wikidata" d = Ok q /\ item_text "wikidata" p = Ok tag /\ q ∈ qids_from_osm_tag tag.
Proof.
  intros Hk Ht Hnk Ha Hna. unfold reference_ok. split.
  - intros (i & a & qids & d & q & Hi & Hai & (p & tag & Hp & Hpi & Htag & ->)%(dget_tags _ _ _ _ _ Hk Ht Hnk) & [Hd Hda]%(dget_rows _ _ _ _ _ Ha Hna) & Hq & Hin & Hdq).
    by exists p, d, tag, i, a, q.
  - intros (p & d & tag & i & a & q & Hp & Hd & Hli & Hpi & Hla & Hda & Hlq & Hdq & Htag & Hin). exists i, a, (qids_from_osm_tag tag), d, q.
    split_and!; [done|done| | |done..]; [apply (dget_tags _ _ _ _ _ Hk Ht Hnk); by exists p, tag|by apply (dget_rows _ _ _ _ _ Ha Hna)].
Qed.

(** The checks are referential integrity.  The tables of a region pass the checks exactly when
    the identifiers of each table are unique, every polygon has a valid tag, every link joins one
    polygon and one document of the tables over an item that both have, every section is of a
    document of the table and every fact is about an item of some polygon. *)
Theorem validate_existing_rows_spec polygons links documents sections facts :
  validate_existing_rows polygons links documents sections facts = Ok tt <-> integrity polygons links documents sections facts.
Proof.
  unfold validate_existing_rows. split.
  - intros (pq & (ks & tags & Hk & Ht & Hnk & Hv & ->)%validate_polygons_spec & H)%outcome_bind_Ok.
    apply outcome_bind_Ok in H as (r & (aids & dids & Ha & Hd & Hna & Hnd & ->)%validate_documents_spec & H).
    apply outcome_bind_Ok in H as (? & (? & (ids & Hids & Hnids & _ & Hr & _)%validate_links_spec & _)%outcome_bind_Ok & H).
    apply outcome_bind_Ok in H as ([] & (? & Hs%(fun E => proj1 (unique_rows_ok _ _ _) (ex_intro _ _ E)) & Hsd%fold_outcome_checks)%outcome_bind_Ok & H).
    apply outcome_bind_Ok in H as (? & Hf%(fun E => proj1 (unique_rows_ok _ _ _) (ex_intro _ _ E)) & Hfi%fold_outcome_checks).
    rewrite Forall_forall in Hr. rewrite Forall_forall in Hsd. rewrite Forall_forall in Hfi. split; [by exists ks| |by exists aids|by exists dids|by exists ids| |done| |done|].
    + intros p Hp. destruct (Forall2_elem_l _ _ _ _ Ht Hp) as (tag & Htag & E). exists tag. split; [done|].
      exact (proj1 (Forall_forall _ _) Hv tag Htag).
    + intros l Hl. by apply (reference_in_tables _ _ _ _ _ _ Hk Ht Hnk Ha Hna), Hr.
    + intros s Hin. apply Hsd, validate_section_ok in Hin as (i & Hi & (d & Hdd & E)%elem_of_list_to_set%(elem_of_texts _ _ _ _ Hd)). by exists d, i.
    + intros f Hin. apply Hfi, validate_fact_ok in Hin as (q & Hq & (p & tag & Hp & E & Hqt)%(elem_of_items _ _ _ _ Hk Ht)). by exists p, tag, q.
  - intros [(ks & Hk & Hnk) Htags (aids & Ha & Hna) (dids & Hd & Hnd) (ids & Hids & Hnids) Hl Hs Hsd Hf Hfi].
    destruct (all_texts "wikidata" polygons) as [tags Ht]; [intros p Hp; destruct (Htags p Hp) as (tag & E & _); eauto|].
    rewrite (proj2 (validate_polygons_spec _ (zip ks (qids_from_osm_tag <$> tags)))).
    2: { exists ks, tags. split_and!; [done..| |done]. apply Forall_forall. intros tag Hin. destruct (Forall2_elem_r _ _ _ _ Ht Hin) as (p & Hp & E).
         destruct (Htags p Hp) as (tag' & E' & Hne). simpl in E. congruence. }
    cbn [mbind outcome_bind]. rewrite (proj2 (validate_documents_spec _ (zip aids documents, list_to_set dids))) by (by exists aids, dids).
    cbn [mbind outcome_bind]. unfold validate_links. rewrite (proj2 (validate_links_spec _ _ _ _ (list_to_set ids ∪ ∅))).
    2: { exists ids. split_and!; [done..|set_solver| |done]. apply Forall_forall. intros l Hin. by apply (reference_in_tables _ _ _ _ _ _ Hk Ht Hnk Ha Hna), Hl. }
    cbn [mbind outcome_bind]. unfold validate_sections, validate_facts. destruct (proj2 (unique_rows_ok _ _ "section_id") Hs) as [? ->].
    destruct (proj2 (unique_rows_ok _ _ "fact_id") Hf) as [? ->]. unfold mret, outcome_ret. cbn [mbind outcome_bind].
    rewrite (proj2 (fold_outcome_checks (validate_section (list_to_set dids)) sections)); [cbn [mbind outcome_bind]; apply fold_outcome_checks|]; apply Forall_forall.
    + intros f Hin. apply validate_fact_ok. destruct (Hfi f Hin) as (p & tag & q & Hp & E & Hqt & Hq). exists q. split; [done|].
      apply (elem_of_items _ _ _ _ Hk Ht). eauto.
    + intros s Hin. apply validate_section_ok. destruct (Hsd s Hin) as (d & i & Hdd & E & Ei). exists i. split; [done|].
      apply elem_of_list_to_set, (elem_of_texts _ _ _ _ Hd). eauto.
Qed.
End Integrity.
