(* ===== verification/RecoveryMergeProofs.v ===== *)
(** What the merge of a Wikidata repair does to the tables: rows are kept or added but never changed,
    every recovered document is linked, and links that are converted and back are unchanged. *)
From stdpp Require Import gmap sorting.
From S2P Require Import Prelude Py PyStr PyText Artifacts Linker PolygonLinks PolygonLinkProofs RecoveryRows RecoveryMerge RecoveryProofs.

Section MergedRows.
Context {RT : Runtime}.

(** * Rows *)

Lemma insert_by_perm {K} (leb : K -> K -> bool) x l : insert_by leb x l ≡ₚ x :: l.
Proof. induction l as [|y l IH]; simpl; [done|]. destruct (leb x.1 y.1); [done|]. by rewrite IH, Permutation_swap. Qed.

Lemma sort_rows_perm {K} (leb : K -> K -> bool) key rows rows' : sort_rows leb key rows = Ok rows' -> rows' ≡ₚ rows.
Proof.
  intros (keys & Hk & [= <-])%outcome_bind_Ok. apply outcome_mapM_Forall2, Forall2_length in Hk.
  assert (Hp : foldr (insert_by leb) [] (zip keys rows) ≡ₚ zip keys rows).
  { clear Hk. generalize (zip keys rows). intros l. induction l as [|x l IH]; simpl; [done|]. by rewrite insert_by_perm, IH. }
  rewrite Hp. rewrite snd_zip; [done|lia].
Qed.

Lemma retain_spec key ids rows kept :
  retain key ids rows = Ok kept -> forall r, r ∈ kept <-> r ∈ rows /\ exists k, item_text key r = Ok k /\ k ∉ ids.
Proof.
  unfold retain.
  assert (H : forall acc, fold_outcome (fun acc row => k ← item_text key row; mret (if bool_decide (k ∈ ids) then acc else acc ++ [row])) acc rows = Ok kept ->
    forall r, r ∈ kept <-> r ∈ acc \/ r ∈ rows /\ exists k, item_text key r = Ok k /\ k ∉ ids).
  { induction rows as [|row rows IH]; intros acc H r; simpl in H; [injection H as <-; set_solver|].
    apply outcome_bind_Ok in H as (acc1 & (k & Hk & [= <-])%outcome_bind_Ok & H). rewrite (IH _ H). rewrite elem_of_cons. case_bool_decide as Hin.
    - split; [naive_solver|]. intros [?|[[->|?] (k' & Hk' & Hn)]]; [by left|congruence|right; eauto].
    - rewrite elem_of_app, list_elem_of_singleton. split; [|naive_solver]. intros [[?| ->]|[? ?]]; [by left| |by right; eauto].
      right. split; [by left|eauto]. }
  intros E r. rewrite (H _ E). set_solver.
Qed.

(** The identities met so far are those of these rows. *)
Definition tracked (primary_key : string) (secondary_key : option string) (rows : list pydict) (primary secondary : gset str) : Prop :=
  (exists ks, texts primary_key rows ks /\ NoDup ks /\ primary = list_to_set ks) /\
  match secondary_key with
  | None => True
  | Some key => exists ks, texts key rows ks /\ NoDup ks /\ secondary = list_to_set ks
  end.

Lemma texts_snoc (key : string) (rows : list pydict) (ks : list str) (r : pydict) (k : str) (seen : gset str) :
  texts key rows ks -> NoDup ks -> seen = list_to_set ks -> item_text key r = Ok k -> k ∉ seen ->
  exists ks', texts key (rows ++ [r]) ks' /\ NoDup ks' /\ {[k]} ∪ seen = list_to_set ks'.
Proof.
  intros Hk Hn -> Hr Hnew. exists (ks ++ [k]). split_and!.
  - apply Forall2_app; [done|]. by constructor.
  - apply NoDup_app. split_and!; [done| |apply NoDup_singleton]. set_solver.
  - rewrite list_to_set_app_L. set_solver.
Qed.

Lemma tracked_snoc pk sk rows p s r k s' :
  tracked pk sk rows p s -> item_text pk r = Ok k -> k ∉ p -> take_secondary sk r s = Ok s' -> tracked pk sk (rows ++ [r]) ({[k]} ∪ p) s'.
Proof.
  intros [(ks & Hks & Hn & Hp) Hs] Hk Hnew Ht. split; [by apply (texts_snoc _ _ ks)|]. destruct sk as [key|]; [|done].
  destruct Hs as (ss & Hss & Hns & Es). simpl in Ht. apply outcome_bind_Ok in Ht as (k2 & Hk2 & Ht). apply outcome_bind_Ok in Ht as (? & Hin & [= <-]).
  apply raise_if_Ok, bool_decide_eq_false in Hin. by apply (texts_snoc _ _ ss).
Qed.

Lemma tracked_unique pk sk rows p s : tracked pk sk rows p s -> unique pk rows /\ forall key, sk = Some key -> unique key rows.
Proof.
  intros [(ks & Hks & Hn & _) Hs]. split; [by exists ks|]. intros key ->. destruct Hs as (ss & ? & ? & _). by exists ss.
Qed.

Lemma validate_merge_rows_tracked pk label sk rows rows0 p s p' s' :
  fold_outcome (fun ids row =>
    identifier ← item_text pk row; _ ← raise_if (bool_decide (identifier ∈ ids.1)) (duplicate label identifier);
    secondary ← take_secondary sk row ids.2; mret ({[identifier]} ∪ ids.1, secondary)) (p, s) rows = Ok (p', s') ->
  tracked pk sk rows0 p s -> tracked pk sk (rows0 ++ rows) p' s'.
Proof.
  revert rows0 p s. induction rows as [|r rows IH]; intros rows0 p s H Ht; simpl in H; [injection H as <- <-; by rewrite app_nil_r|].
  apply outcome_bind_Ok in H as ([p1 s1] & H1 & H). apply outcome_bind_Ok in H1 as (k & Hk & H1). apply outcome_bind_Ok in H1 as (? & Hin & H1).
  apply raise_if_Ok, bool_decide_eq_false in Hin. apply outcome_bind_Ok in H1 as (s2 & Hs & [= <- <-]). simpl in *.
  rewrite cons_middle, app_assoc. eapply IH; [exact H|]. by eapply tracked_snoc.
Qed.

Lemma append_merge_rows_tracked pk sk additions a a' :
  fold_outcome (append_merge_row pk sk) a additions = Ok a' -> tracked pk sk (ap_rows a) (ap_primary a) (ap_secondary a) ->
  tracked pk sk (ap_rows a') (ap_primary a') (ap_secondary a') /\
  (exists new, ap_rows a' = ap_rows a ++ new /\ new `sublist_of` additions) /\
  (forall k, k ∈ ap_primary a -> k ∈ ap_primary a') /\
  (forall r, r ∈ additions -> exists k, item_text pk r = Ok k /\ k ∈ ap_primary a').
Proof.
  revert a. induction additions as [|r additions IH]; intros a H Ht; simpl in H.
  - injection H as <-. split_and!; [done|exists []; by rewrite app_nil_r|done|]. by intros ? ?%elem_of_nil.
  - apply outcome_bind_Ok in H as (a1 & H1 & H). unfold append_merge_row in H1. apply outcome_bind_Ok in H1 as (k & Hk & H1).
    case_bool_decide as Hin.
    + injection H1 as <-. destruct (IH _ H Ht) as (Ht' & (new & En & Hsub) & Hmono & Hadd). split_and!; [done| |done|].
      * exists new. split; [done|]. by apply sublist_cons.
      * intros x [->|Hx]%elem_of_cons; [|by apply Hadd]. exists k. split; [done|]. by apply Hmono.
    + apply outcome_bind_Ok in H1 as (s2 & Hs & [= <-]). destruct (IH _ H) as (Ht' & (new & En & Hsub) & Hmono & Hadd); [simpl; by eapply tracked_snoc|].
      simpl in *. split_and!; [done| | |].
      * exists (r :: new). split; [by rewrite En, <- app_assoc|]. by apply sublist_skip.
      * intros k' Hk'. apply Hmono. set_solver.
      * intros x [->|Hx]%elem_of_cons; [|by apply Hadd]. exists k. split; [done|]. apply Hmono. set_solver.
Qed.

(** A merge keeps the existing rows as they are and adds the rows whose identity is new. *)
Record merges (existing additions : list pydict) (key : string) (m : list pydict) : Prop := {
  mg_unique : unique key m;
  mg_rows : exists new, m = existing ++ new /\ new `sublist_of` additions;
  mg_all : forall r, r ∈ additions -> exists k r', item_text key r = Ok k /\ r' ∈ m /\ item_text key r' = Ok k }.

Lemma merge_rows_spec existing additions pk label sk m added :
  merge_rows existing additions pk label sk = Ok (m, added) -> merges existing additions pk m /\ forall key, sk = Some key -> unique key m.
Proof.
  intros ([p s] & Hv & H)%outcome_bind_Ok. apply outcome_bind_Ok in H as (a & Ha & [= <- <-]).
  apply (validate_merge_rows_tracked _ _ _ _ []) in Hv; [|split; [exists []; split_and!; [constructor..|done]|]].
  2: { destruct sk; [|done]. exists []. split_and!; [constructor..|done]. }
  destruct (append_merge_rows_tracked _ _ _ _ _ Ha Hv) as (Ht & Hnew & _ & Hadd). destruct (tracked_unique _ _ _ _ _ Ht) as [Hu Hs].
  split; [|done]. split; [done|done|]. intros r Hr. destruct (Hadd r Hr) as (k & Hk & Hin). destruct Ht as [(ks & Hks & _ & Ep) _].
  rewrite Ep in Hin. apply elem_of_list_to_set, (elem_of_texts _ _ _ _ Hks) in Hin as (r' & Hr' & E). by exists k, r'.
Qed.

(** * Links *)

Lemma group_spec (key : string) rows d0 d q r :
  fold_outcome (fun d row => k ← item_text key row; mret (dset k (default [] (dget k d) ++ [row]) d)) d0 rows = Ok d ->
  r ∈ default [] (dget q d) <-> r ∈ default [] (dget q d0) \/ r ∈ rows /\ item_text key r = Ok q.
Proof.
  revert d0. induction rows as [|row rows IH]; intros d0 H; simpl in H; [injection H as <-; set_solver|].
  apply outcome_bind_Ok in H as (d1 & (k & Hk & [= <-])%outcome_bind_Ok & H). rewrite (IH _ H), elem_of_cons. destruct (decide (k = q)) as [->|Hne].
  - rewrite dget_dset_eq. simpl. rewrite elem_of_app, list_elem_of_singleton. naive_solver.
  - rewrite dget_dset_ne by done. naive_solver congruence.
Qed.

Lemma documents_by_qid_spec documents by_qid q d :
  documents_by_qid documents = Ok by_qid -> d ∈ default [] (dget q by_qid) <-> d ∈ documents /\ item_text "wikidata" d = Ok q.
Proof.
  intros (grouped & Hg & Hs)%outcome_bind_Ok. pose proof (group_spec _ _ _ _ q d Hg) as Hd. simpl in Hd.
  assert (Hsame : d ∈ default [] (dget q by_qid) <-> d ∈ default [] (dget q grouped)).
  { apply outcome_mapM_Forall2 in Hs. clear Hg Hd. induction Hs as [|[k vs] [k' vs'] grouped by_qid Hkv _ IH]; [done|].
    apply outcome_bind_Ok in Hkv as (values & Hv & [= -> ->]). simpl in Hv |- *. destruct (str_eqb k' q); [|done]. simpl.
    unfold sort_by_document in Hv. by rewrite (sort_rows_perm _ _ _ _ Hv). }
  rewrite Hsame, Hd. set_solver.
Qed.

Lemma item_text_value key d v : getitem_of key d = Ok v -> item_text key d = Ok (py_str v).
Proof. unfold item_text. by intros ->. Qed.

(** A link that a repair adds. *)
Definition added_link (polygons documents : list pydict) (affected : gset str) (l : pydict) : Prop :=
  exists p d tag q, p ∈ polygons /\ d ∈ documents /\ item_text "wikidata" p = Ok tag /\ q ∈ qids_from_osm_tag tag /\ q ∈ affected /\
    item_text "wikidata" d = Ok q /\ legacy_link p d q = Ok l.

Lemma legacy_link_pair p d q l i a :
  legacy_link p d q = Ok l -> item_text "polygon_id" p = Ok i -> item_text "article_id" d = Ok a -> link_pair l = Ok (i, a).
Proof.
  unfold legacy_link. intros H Hi Ha. apply outcome_bind_Ok in H as (vi & Hvi & H). apply outcome_bind_Ok in H as (va & Hva & H).
  repeat (apply outcome_bind_Ok in H as (? & _ & H)). injection H as <-. apply item_text_value in Hvi, Hva.
  assert (i = py_str vi) as -> by congruence. by assert (a = py_str va) as -> by congruence.
Qed.

(** The identities of the links so far. *)
Definition linked_state (acc : list pydict * gset (str * str)) : Prop :=
  exists ids, Forall2 (fun l id => link_pair l = Ok id) acc.1 ids /\ NoDup ids /\ acc.2 = list_to_set ids.

(** One loop of the merge of links, or several. *)
Record extends (new_link : pydict -> Prop) (acc acc' : list pydict * gset (str * str)) : Prop := {
  ex_state : linked_state acc -> linked_state acc';
  ex_rows : exists new, acc'.1 = acc.1 ++ new /\ Forall new_link new;
  ex_ids : acc.2 ⊆ acc'.2 }.

Lemma extends_refl (P : pydict -> Prop) acc : extends P acc acc.
Proof. split; [done|exists []; by rewrite app_nil_r|done]. Qed.

Lemma extends_trans (P : pydict -> Prop) a b c : extends P a b -> extends P b c -> extends P a c.
Proof.
  intros [H1 (n1 & E1 & F1) I1] [H2 (n2 & E2 & F2) I2]. split; [auto| |set_solver]. exists (n1 ++ n2).
  split; [by rewrite E2, E1, app_assoc|by apply Forall_app].
Qed.

(** A loop whose steps extend extends, and what a step establishes about the identities stays. *)
Lemma fold_extends {B} (P : pydict -> Prop) (f : list pydict * gset (str * str) -> B -> outcome (list pydict * gset (str * str)))
    (Q : B -> gset (str * str) -> Prop) (l : list B) acc acc' :
  (forall x acc acc', x ∈ l -> f acc x = Ok acc' -> extends P acc acc' /\ Q x acc'.2) ->
  (forall x (s s' : gset (str * str)), s ⊆ s' -> Q x s -> Q x s') ->
  fold_outcome f acc l = Ok acc' -> extends P acc acc' /\ forall x, x ∈ l -> Q x acc'.2.
Proof.
  intros Hf Hq. revert acc. induction l as [|x l IH]; intros acc H; simpl in H.
  - injection H as <-. split; [apply extends_refl|by intros ? ?%elem_of_nil].
  - apply outcome_bind_Ok in H as (acc1 & H1 & H). destruct (Hf x acc acc1 ltac:(left) H1) as [He Hx].
    destruct (IH ltac:(intros; apply Hf; [by right|done]) acc1 H) as [He' Hl]. split; [by eapply extends_trans|].
    intros y [->|Hy]%elem_of_cons; [|by apply Hl]. eapply Hq; [apply He'|done].
Qed.

Definition pair_in (p d : pydict) (ids : gset (str * str)) : Prop :=
  forall i a, item_text "polygon_id" p = Ok i -> item_text "article_id" d = Ok a -> (i, a) ∈ ids.

Lemma append_document_extends (P : pydict -> Prop) polygon q acc d acc' :
  (forall l, legacy_link polygon d q = Ok l -> P l) -> append_document polygon q acc d = Ok acc' ->
  extends P acc acc' /\ pair_in polygon d acc'.2.
Proof.
  intros HP H. unfold append_document in H. apply outcome_bind_Ok in H as (i & Hi & H). apply outcome_bind_Ok in H as (a & Ha & H).
  assert (Hpair : forall ids, (i, a) ∈ ids -> pair_in polygon d ids) by (intros ids Hin i' a' Hi' Ha'; congruence).
  case_bool_decide as Hin; [injection H as <-; split; [apply extends_refl|auto]|].
  apply outcome_bind_Ok in H as (l & Hl & [= <-]). split; [|apply Hpair; simpl; set_solver]. split; simpl; [|exists [l]; split; [done|]; constructor; auto|set_solver].
  intros (ids & Hids & Hn & E). exists (ids ++ [(i, a)]). simpl. split_and!.
  - apply Forall2_app; [done|]. constructor; [|constructor]. by eapply legacy_link_pair.
  - apply NoDup_app. split_and!; [done| |apply NoDup_singleton]. set_solver.
  - rewrite list_to_set_app_L. set_solver.
Qed.

(** Every document of an affected item of a polygon is linked to it. *)
Definition links_cover (polygons documents : list pydict) (affected : gset str) (ids : gset (str * str)) : Prop :=
  forall p d tag q, p ∈ polygons -> d ∈ documents -> item_text "wikidata" p = Ok tag -> q ∈ qids_from_osm_tag tag -> q ∈ affected ->
    item_text "wikidata" d = Ok q -> pair_in p d ids.

Lemma append_polygon_extends polygons documents by_qid affected acc p acc' :
  p ∈ polygons -> documents_by_qid documents = Ok by_qid -> append_polygon_documents by_qid affected acc p = Ok acc' ->
  extends (added_link polygons documents affected) acc acc' /\ links_cover [p] documents affected acc'.2.
Proof.
  intros Hp Hby H. unfold append_polygon_documents in H. apply outcome_bind_Ok in H as (tag & Htag & H).
  apply (fold_extends (added_link polygons documents affected) _
    (fun q ids => q ∈ affected -> forall d, d ∈ documents -> item_text "wikidata" d = Ok q -> pair_in p d ids)) in H as [He Hq].
  - split; [done|]. intros p' d tag' q ->%list_elem_of_singleton Hd Htag' Hin Haff Hdq. assert (tag' = tag) as -> by congruence. by apply (Hq q).
  - intros q acc1 acc2 Hin Hstep. case_bool_decide as Haff; simpl in Hstep; [|injection Hstep as <-; split; [apply extends_refl|done]].
    apply (fold_extends (added_link polygons documents affected) _ (fun d ids => pair_in p d ids)) in Hstep as [He Hd].
    + split; [done|]. intros _ d Hdin Hdq. apply Hd. by apply (documents_by_qid_spec _ _ _ _ Hby).
    + intros d acc3 acc4 Hx Hs. destruct (proj1 (documents_by_qid_spec _ _ _ _ Hby) Hx) as [Hdin Hdq]. refine (append_document_extends _ _ _ _ _ _ _ Hs).
      intros l Hl. by exists p, d, tag, q.
    + intros d ids ids' Hsub Hx i a Hi Ha. apply Hsub. by apply Hx.
  - intros q ids ids' Hsub Hx Haff d Hd Hdq i a Hi Ha. apply Hsub. by apply (Hx Haff d).
Qed.

Lemma link_identities_state links ids : link_identities links = Ok ids -> linked_state (links, ids).
Proof.
  unfold link_identities.
  assert (H : forall links0 ids0, linked_state (links0, ids0) ->
    fold_outcome (fun identities row => polygon_id ← item_text "polygon_id" row; article_id ← item_text "article_id" row;
      record_link_identity (polygon_id, article_id) identities) ids0 links = Ok ids -> linked_state (links0 ++ links, ids)).
  { induction links as [|l links IH]; intros links0 ids0 H0 H; simpl in H; [injection H as <-; by rewrite app_nil_r|].
    apply outcome_bind_Ok in H as (ids1 & H1 & H). apply outcome_bind_Ok in H1 as (i & Hi & H1). apply outcome_bind_Ok in H1 as (a & Ha & H1).
    apply outcome_bind_Ok in H1 as (? & Hin & [= <-]). apply raise_if_Ok, bool_decide_eq_false in Hin.
    rewrite cons_middle, app_assoc. eapply IH; [|exact H]. destruct H0 as (prs & Hprs & Hn & E). simpl in *. subst ids0.
    exists (prs ++ [(i, a)]). simpl. split_and!.
    - apply Forall2_app; [done|]. constructor; [|constructor]. unfold link_pair. rewrite Hi. simpl. by rewrite Ha.
    - apply NoDup_app. split_and!; [done| |apply NoDup_singleton]. set_solver.
    - rewrite list_to_set_app_L. set_solver. }
  intros E. apply (H [] ∅); [exists []; split_and!; [constructor..|done]|done].
Qed.

Lemma merge_links_spec polygons links documents affected links' :
  merge_links polygons links documents affected = Ok links' ->
  unique_pairs links' /\ (exists new, links' = links ++ new /\ Forall (added_link polygons documents affected) new) /\
  forall p d tag q i a, p ∈ polygons -> d ∈ documents -> item_text "wikidata" p = Ok tag -> q ∈ qids_from_osm_tag tag -> q ∈ affected ->
    item_text "wikidata" d = Ok q -> item_text "polygon_id" p = Ok i -> item_text "article_id" d = Ok a -> exists l, l ∈ links' /\ link_pair l = Ok (i, a).
Proof.
  intros (ids & Hids%link_identities_state & H)%outcome_bind_Ok. apply outcome_bind_Ok in H as (by_qid & Hby & H). apply outcome_bind_Ok in H as ([rows ids'] & H & [= <-]).
  apply (fold_extends (added_link polygons documents affected) _ (fun p ids => links_cover [p] documents affected ids)) in H as [[Hst Hrows _] Hcov].
  - destruct (Hst Hids) as (prs & Hprs & Hn & E). simpl in *. split_and!; [by exists prs|done|].
    intros p d tag q i a Hp Hd Htag Hq Haff Hdq Hi Ha.
    assert (Hin : (i, a) ∈ ids') by (eapply (Hcov p Hp p d); [left|done..]). rewrite E in Hin. apply elem_of_list_to_set in Hin.
    apply (Forall2_elem_r _ _ _ _ Hprs Hin).
  - intros p acc acc' Hp Hs. by eapply append_polygon_extends.
  - intros p s s' Hsub Hc p' d tag q Hp Hd Ht Hq Ha Hdq i a Hi Hai. apply Hsub. by eapply Hc.
Qed.

(** * Derived fields *)

Definition derived_fields : list str :=
  u <$> ["has_wikipedia"; "wikipedia_language_count"; "wikipedia_languages"; "wikipedia_article_count"; "has_english_wikipedia";
         "has_french_wikipedia"; "text_available"; "best_language"]%string.

(** A polygon after a repair: only derived fields of affected polygons may differ. *)
Definition repaired_polygon (affected : gset str) (p p' : pydict) : Prop :=
  (forall tag, item_text "wikidata" p = Ok tag -> touches affected tag = false -> p' = p) /\
  forall key, key ∉ derived_fields -> dget key p' = dget key p.

Lemma recomputed_row by_article affected original polygon_links p' best :
  recompute_polygon_row by_article affected original polygon_links = Ok (p', best) -> repaired_polygon affected original p'.
Proof.
  unfold recompute_polygon_row. intros (tag & Htag & H)%outcome_bind_Ok. destruct (touches affected tag) eqn:Et; simpl in H.
  - apply outcome_bind_Ok in H as ([article_ids languages] & _ & H). apply outcome_bind_Ok in H as (text & _ & [= <- _]).
    split; [intros tag' Htag' Hx; congruence|]. intros key Hkey. rewrite !dget_dset_ne; [done|intros <-; apply Hkey; by_evaluation..].
  - injection H as <- <-. by split.
Qed.

Lemma recomputed_rows polygons links documents affected P' best :
  recompute_polygon_rows polygons links documents affected = Ok (P', best) -> Forall2 (repaired_polygon affected) polygons P'.
Proof.
  intros (by_article & _ & H)%outcome_bind_Ok. apply outcome_bind_Ok in H as (by_polygon & _ & H).
  assert (Hg : forall acc res, fold_outcome (fun acc original =>
      polygon_id ← item_text "polygon_id" original;
      '(row, best) ← recompute_polygon_row by_article affected original (default [] (dget polygon_id by_polygon));
      mret (acc.1 ++ [row], if bool_decide (best = []) then acc.2 else dset polygon_id best acc.2)) acc polygons = Ok res ->
    exists new, res.1 = acc.1 ++ new /\ Forall2 (repaired_polygon affected) polygons new).
  { clear H. induction polygons as [|p polygons IH]; intros acc res H; simpl in H; [injection H as <-; exists []; split; [by rewrite app_nil_r|constructor]|].
    apply outcome_bind_Ok in H as (acc1 & H1 & H). apply outcome_bind_Ok in H1 as (i & _ & H1). apply outcome_bind_Ok in H1 as ([row b] & Hr & [= <-]).
    destruct (IH _ _ H) as (new & E & HF). exists (row :: new). simpl in E. rewrite <- app_assoc in E. split; [done|].
    constructor; [by eapply recomputed_row|done]. }
  destruct (Hg _ _ H) as (new & E & HF). simpl in E. by subst.
Qed.

Lemma touched_by_affected affected tag : touches affected tag = true <-> exists q, q ∈ qids_from_osm_tag tag /\ q ∈ affected.
Proof.
  unfold touches. rewrite existsb_exists. split; intros (q & H1 & H2); exists q.
  - split; [by apply list_elem_of_In|by apply bool_decide_eq_true in H2].
  - split; [by apply list_elem_of_In|by apply bool_decide_eq_true_2].
Qed.

(** A link after a repair: only its language flag may differ. *)
Definition repaired_link (l l' : pydict) : Prop := forall key, key ≠ u "is_best_language" -> dget key l' = dget key l.

Lemma repaired_links links best links' : apply_best_language_links links best = Ok links' -> Forall2 repaired_link links links'.
Proof.
  intros H%outcome_mapM_Forall2. eapply Forall2_impl; [exact H|]. intros l l' Hl key Hkey. simpl in Hl. unfold apply_best_language in Hl.
  apply outcome_bind_Ok in Hl as (i & _ & Hl). destruct (dget i best) as [b|]; [|by injection Hl as <-].
  apply outcome_bind_Ok in Hl as (language & _ & [= <-]). by apply dget_dset_ne.
Qed.

Lemma item_text_same key l l' : dget (u key) l' = dget (u key) l -> item_text key l' = item_text key l.
Proof. unfold item_text, getitem_of. by intros ->. Qed.

Lemma repaired_link_pair l l' : repaired_link l l' -> link_pair l' = link_pair l.
Proof. intros H. unfold link_pair. by rewrite (item_text_same "polygon_id" l l'), (item_text_same "article_id" l l') by (by apply H). Qed.

Lemma repaired_polygon_text affected p p' key : repaired_polygon affected p p' -> u key ∉ derived_fields -> item_text key p' = item_text key p.
Proof. intros [_ H] Hk. by apply item_text_same, H. Qed.
End MergedRows.

(** * The repair *)

Section Repair.
Context {RT : Runtime}.

(** A table after a repair: the old rows but those removed, unchanged, and recovered rows. *)
Record kept_rows (key : string) (removed : gset str) (old additions new : list pydict) : Prop := {
  kr_kept : forall r k, r ∈ old -> item_text key r = Ok k -> k ∉ removed -> r ∈ new;
  kr_new : forall r, r ∈ new -> r ∈ old \/ r ∈ additions }.

Lemma kept_rows_intro key removed old additions retained m new identity :
  retain key removed old = Ok retained -> merges retained additions identity m -> new ≡ₚ m -> kept_rows key removed old additions new.
Proof.
  intros Hr [_ (fresh & -> & Hsub) _] Hp. pose proof (retain_spec _ _ _ _ Hr) as Hs. split.
  - intros r k Hin Hk Hn. rewrite Hp, elem_of_app. left. apply Hs. eauto.
  - intros r. rewrite Hp, elem_of_app. intros [[? _]%Hs|Hin]; [by left|right]. by eapply elem_of_sublist.
Qed.

(** What a repair promises of its tables; [ls] are the links in the legacy shape. *)
Record repair_contract (region : RegionAuditResult) (P D Se F : list pydict) (inputs : RepairInputs) (batches : list RecoveryBatchArtifacts)
    (out : RepairOutputs) (ls : list pydict) : Prop := {
  rc_integrity : integrity (out_polygons out) ls (out_documents out) (out_sections out) (out_facts out);
  rc_polygons : Forall2 (repaired_polygon (list_to_set (affected_qids region))) P (out_polygons out);
  rc_documents : kept_rows "document_id" (list_to_set (region_orphan_document_ids region)) D (flatten_batch_rows batches batch_documents) (out_documents out);
  rc_sections : kept_rows "document_id" (list_to_set (region_orphan_document_ids region)) Se (flatten_batch_rows batches batch_sections) (out_sections out);
  rc_facts : kept_rows "fact_id" (list_to_set (orphan_fact_ids region)) F (flatten_batch_rows batches batch_facts) (out_facts out);
  rc_recovered : forall d, d ∈ flatten_batch_rows batches batch_documents ->
    exists k d', item_text "document_id" d = Ok k /\ d' ∈ out_documents out /\ item_text "document_id" d' = Ok k;
  rc_links : forall l, l ∈ retained_links inputs -> exists l', l' ∈ ls /\ repaired_link l l';
  rc_linked : forall p d tag q i a, p ∈ P -> d ∈ out_documents out -> item_text "wikidata" p = Ok tag -> q ∈ qids_from_osm_tag tag ->
    q ∈ affected_qids region -> item_text "wikidata" d = Ok q -> item_text "polygon_id" p = Ok i -> item_text "article_id" d = Ok a ->
    exists l, l ∈ ls /\ link_pair l = Ok (i, a) }.

Lemma list_to_set_sorted (l : list str) : list_to_set (C := gset str) (sorted_strs l) = list_to_set l.
Proof. apply set_eq. intros x. by rewrite !elem_of_list_to_set, elem_of_sorted_strs. Qed.

(** What the load of the inputs establishes. *)
Lemma loaded region P D Se F stored canonical inputs :
  load_repair_inputs region P D Se F stored canonical = Ok inputs ->
  polygons inputs = P /\ canonical_links inputs = canonical /\
  retain "document_id" (list_to_set (region_orphan_document_ids region)) D = Ok (retained_documents inputs) /\
  retain "document_id" (list_to_set (region_orphan_document_ids region)) Se = Ok (retained_sections inputs) /\
  retain "fact_id" (list_to_set (orphan_fact_ids region)) F = Ok (retained_facts inputs).
Proof.
  intros ([links preserved] & _ & H)%outcome_bind_Ok. apply outcome_bind_Ok in H as (kept & Hk & H). apply outcome_bind_Ok in H as (_ & _ & [= <-]).
  unfold retain_repair_rows in Hk. apply outcome_bind_Ok in Hk as (kf & Hf & Hk). apply outcome_bind_Ok in Hk as (_ & _ & Hk).
  apply outcome_bind_Ok in Hk as (articles & _ & Hk). apply outcome_bind_Ok in Hk as (kd & Hd & Hk). apply outcome_bind_Ok in Hk as (_ & _ & Hk).
  apply outcome_bind_Ok in Hk as (ks & Hs & Hk). apply outcome_bind_Ok in Hk as (kl & _ & [= <-]). simpl. by split_and!.
Qed.

(** C23: A repair keeps what is healthy and links what it recovered.  When a repair of a region
    returns, its tables have referential integrity; polygons without an affected item are unchanged
    and the others differ in derived fields only; every document, section and fact that the plan does
    not drop is there unchanged, and every other row comes from a recovered batch; every recovered
    document is there; every retained link is kept, but for its language flag; and every polygon is
    linked to every document of each of its affected items. *)
Theorem repair_keeps_and_links region P D Se F stored canonical inputs batches out :
  load_repair_inputs region P D Se F stored canonical = Ok inputs -> merge_repair_outputs region inputs batches = Ok out ->
  exists ls, repair_contract region P D Se F inputs batches out ls /\
    if canonical then legacy_wikipedia_links_to_canonical ls (out_documents out) (preserved_wikivoyage_links inputs) = Ok (out_links out)
    else out_links out = ls.
Proof.
  intros (HP & Hcan & Hd & Hs & Hf)%loaded H. unfold merge_repair_outputs in H. apply outcome_bind_Ok in H as (merged & Hm & H).
  apply outcome_bind_Ok in H as (? & Hv & H). apply outcome_bind_Ok in H as (persisted & Hp & H).
  destruct (repair_change_flags _ _ _ _ _ _) as [ch mch]. apply outcome_bind_Ok in H as (terminal & _ & [= <-]). simpl.
  unfold validate_merged_repair in Hv. apply outcome_bind_Ok in Hv as ([] & Hint%validate_existing_rows_spec & _).
  unfold merge_repair_tables in Hm. cbv zeta in Hm. rewrite list_to_set_sorted, HP in Hm.
  apply outcome_bind_Ok in Hm as ([docs added] & Hdocs & Hm). apply outcome_bind_Ok in Hm as (mlinks & Hlinks & Hm).
  apply outcome_bind_Ok in Hm as ([upolys ulinks] & Hrec & Hm). apply outcome_bind_Ok in Hm as ([secs ?] & Hsecs & Hm).
  apply outcome_bind_Ok in Hm as ([fcts ?] & Hfcts & Hm). apply outcome_bind_Ok in Hm as ([[sdocs ssecs] sfcts] & Hsort & [= <-]). simpl in *.
  apply merge_rows_spec in Hdocs as [Hdocs _], Hsecs as [Hsecs _], Hfcts as [Hfcts _].
  unfold sort_repair_tables in Hsort. apply outcome_bind_Ok in Hsort as (x1 & E1%sort_rows_perm & Hsort).
  apply outcome_bind_Ok in Hsort as (x2 & E2%sort_rows_perm & Hsort). apply outcome_bind_Ok in Hsort as (x3 & E3%sort_rows_perm & [= -> -> ->]).
  unfold recompute_affected_polygon_fields in Hrec. apply outcome_bind_Ok in Hrec as ([polys best] & Hpolys & Hrec).
  apply outcome_bind_Ok in Hrec as (ul & Hul%repaired_links & [= -> ->]). apply merge_links_spec in Hlinks as (_ & (new & -> & _) & Hcover).
  exists ulinks. split; [|unfold persisted_repair_links in Hp; rewrite Hcan in Hp; destruct canonical; [done|by injection Hp as <-]].
  split; simpl.
  - exact Hint.
  - by eapply recomputed_rows.
  - by eapply kept_rows_intro.
  - by eapply kept_rows_intro.
  - by eapply kept_rows_intro.
  - intros d Hin. destruct (mg_all _ _ _ _ Hdocs d Hin) as (k & d' & Hk & Hin' & Hk'). exists k, d'. by rewrite E1.
  - intros l Hl. apply (Forall2_elem_l _ _ _ _ Hul). apply elem_of_app. by left.
  - intros p d tag q i a Hp' Hin Htag Hq Haff Hdq Hi Ha. rewrite E1 in Hin.
    destruct (Hcover p d tag q i a) as (l & Hl & Hpair); [done|done|done|done|by apply elem_of_list_to_set|done..|].
    destruct (Forall2_elem_l _ _ _ _ Hul Hl) as (l' & Hl' & Hrl). exists l'. split; [done|]. by rewrite (repaired_link_pair _ _ Hrl).
Qed.
End Repair.

(** * Canonical links in the legacy shape and back *)

Section RoundTrip.
Context {RT : Runtime}.

Lemma rows_by_unique key rows ks : texts key rows ks -> NoDup ks -> rows_by key rows = Ok (zip ks rows).
Proof.
  intros Hk Hn. assert (Hu : unique_rows rows key "" = Ok (zip ks rows)) by (apply unique_rows_spec; by exists ks).
  unfold rows_by. unfold unique_rows in Hu. revert Hu. generalize (@nil (str * pydict)). generalize (zip ks rows). clear Hk Hn. induction rows as [|r rows IH]; intros d acc H; simpl in *; [done|].
  apply outcome_bind_Ok in H as (d1 & (k & Hk & (? & _ & [= <-])%outcome_bind_Ok)%outcome_bind_Ok & H). rewrite Hk. simpl. by apply IH.
Qed.

Definition of_project (project : string) (ls : list Link) : list Link := filter (fun l => l_project l = u project) ls.

Lemma selected_links (project : string) ls :
  fold_outcome (fun acc link => p ← getitem_of "project" link; mret (if is_str_value (u project) p then acc ++ [link] else acc)) [] (row_of <$> ls) =
    Ok (row_of <$> of_project project ls).
Proof.
  assert (H : forall acc, fold_outcome (fun acc link => p ← getitem_of "project" link;
      mret (if is_str_value (u project) p then acc ++ [link] else acc)) acc (row_of <$> ls) = Ok (acc ++ (row_of <$> of_project project ls))).
  { induction ls as [|l ls IH]; intros acc; csimpl; [by rewrite app_nil_r|]. change (getitem_of "project" (row_of l)) with (Ok (VStr (l_project l))).
    simpl. unfold is_str_value. simpl. rewrite IH. unfold of_project. destruct (str_eqb_spec (u project) (l_project l)) as [E|Hne].
    - rewrite filter_cons_True by done. by rewrite <- app_assoc.
    - by rewrite filter_cons_False by congruence. }
  apply (H []).
Qed.

Lemma item_value key r s : item_text key r = Ok s -> exists v, getitem_of key r = Ok v /\ py_str v = s.
Proof. intros (v & Hv & [= <-])%outcome_bind_Ok. by exists v. Qed.

(** A Wikipedia link of a document of the table, converted and back. *)
Lemma converted_back D dids aids best affected l d :
  texts "document_id" D dids -> NoDup dids -> texts "article_id" D aids -> NoDup aids ->
  l_project l = u "wikipedia" -> d ∈ D -> dget (u "document_id") d = Some (VStr (l_document_id l)) ->
  exists leg, legacy_link_from_canonical (zip dids D) best affected (row_of l) = Ok (Some leg) /\ canonical_link_row (zip aids D) leg = Ok (row_of l).
Proof.
  intros Hd Hnd Ha Hna Hproject Hin Hdoc.
  assert (Hid : item_text "document_id" d = Ok (l_document_id l)) by (unfold item_text, getitem_of; by rewrite Hdoc).
  destruct (Forall2_elem_l _ _ _ _ Ha Hin) as (a & _ & (v & Hv & Ev)%item_value).
  unfold legacy_link_from_canonical. change (item_text "document_id" (row_of l)) with (Ok (l_document_id l)). cbn [mbind outcome_bind].
  rewrite (proj2 (dget_rows _ _ _ _ _ Hd Hnd) (conj Hin Hid)). rewrite Hv.
  eexists. split; [reflexivity|]. unfold canonical_link_row.
  match goal with |- context [item_text "article_id" ?leg] => change (item_text "article_id" leg) with (Ok (py_str v) : outcome str) end.
  cbn [mbind outcome_bind]. assert (Haid : item_text "article_id" d = Ok (py_str v)) by by apply item_text_value.
  rewrite (proj2 (dget_rows _ _ _ _ _ Ha Hna) (conj Hin Haid)).
  assert (Hget : getitem_of "document_id" d = Ok (VStr (l_document_id l))) by (unfold getitem_of; by rewrite Hdoc). rewrite Hget.
  unfold row_of. rewrite Hproject. reflexivity.
Qed.

Lemma all_converted_back D dids aids best affected ls :
  texts "document_id" D dids -> NoDup dids -> texts "article_id" D aids -> NoDup aids ->
  (forall l, l ∈ ls -> l_project l = u "wikipedia" /\ exists d, d ∈ D /\ dget (u "document_id") d = Some (VStr (l_document_id l))) ->
  exists legs, convert_canonical_links (zip dids D) best affected (row_of <$> ls) = Ok legs /\
    mapM (canonical_link_row (zip aids D)) legs = Ok (row_of <$> ls).
Proof.
  intros Hd Hnd Ha Hna H.
  assert (Hx : exists legs, Forall2 (fun l leg => legacy_link_from_canonical (zip dids D) best affected (row_of l) = Ok (Some leg)) ls legs /\
    Forall2 (fun leg l => canonical_link_row (zip aids D) leg = Ok (row_of l)) legs ls).
  { induction ls as [|l ls IH]; [by exists []|]. destruct (H l) as (Hp & d & Hin & Hdoc); [left|].
    destruct (converted_back D dids aids best affected l d Hd Hnd Ha Hna Hp Hin Hdoc) as (leg & E1 & E2).
    destruct IH as (legs & E3 & E4); [intros; apply H; by right|]. exists (leg :: legs). split; by constructor. }
  destruct Hx as (legs & E & Hback). exists legs. split; [|by apply mapM_Forall2, Forall2_fmap_r]. unfold convert_canonical_links.
  rewrite (proj2 (mapM_Forall2 _ _ (Some <$> legs))) by (by apply Forall2_fmap). cbn [mbind outcome_bind].
  unfold mret, outcome_ret. f_equal. clear. induction legs as [|x legs IH]; [done|]. csimpl. by rewrite IH.
Qed.

(** Links survive the round trip.  A canonical link table, whose Wikipedia links are of
    documents of the region, that is converted to the legacy shape for a repair and back without a
    change is the same table, whatever the affected items: Wikivoyage links are set aside and put
    back in their place, and every other link finds its document again. *)
Theorem canonical_links_survive_repair ls P D affected :
  Forall valid_link ls -> sorted_by_identity ls -> unique "polygon_id" P -> unique "document_id" D -> unique "article_id" D ->
  (forall l, l ∈ ls -> l_project l = u "wikipedia" -> exists d, d ∈ D /\ dget (u "document_id") d = Some (VStr (l_document_id l))) ->
  exists legacy preserved, load_repair_links (row_of <$> ls) true P D affected = Ok (legacy, preserved) /\
    legacy_wikipedia_links_to_canonical legacy D preserved = Ok (row_of <$> ls).
Proof.
  intros Hv Hsorted (pids & Hp & _) (dids & Hd & Hnd) (aids & Ha & Hna) Hdocs.
  assert (Hbest : exists best, fold_outcome (fun d row => id ← item_text "polygon_id" row;
    mret (dset id (str_or_empty (dget_none (u "best_language") row)) d)) [] P = Ok best).
  { clear -Hp. generalize (@nil (str * str)). induction Hp as [|p k P ks Hk _ IH]; intros acc; [by exists acc|]. simpl. rewrite Hk. apply IH. }
  destruct Hbest as [best Hbest].
  destruct (all_converted_back D dids aids best affected (of_project "wikipedia" ls) Hd Hnd Ha Hna) as (legs & Hlegs & Hback).
  { intros l [Hpr Hin]%list_elem_of_filter. split; [done|]. by apply Hdocs. }
  exists legs, (row_of <$> of_project "wikivoyage" ls). split.
  - unfold load_repair_links, wikivoyage_links, canonical_wikipedia_links_to_legacy, wikipedia_links. rewrite (selected_links "wikivoyage").
    cbn [mbind outcome_bind]. rewrite (rows_by_unique _ _ _ Hd Hnd). cbn [mbind outcome_bind]. rewrite Hbest. cbn [mbind outcome_bind].
    rewrite (selected_links "wikipedia"). cbn [mbind outcome_bind]. by rewrite Hlegs.
  - unfold legacy_wikipedia_links_to_canonical. rewrite (rows_by_unique _ _ _ Ha Hna). cbn [mbind outcome_bind]. rewrite Hback. cbn [mbind outcome_bind].
    rewrite <- fmap_app. rewrite (validation_intro _ (of_project "wikivoyage" ls ++ of_project "wikipedia" ls) ls); [done| |done|].
    + apply checked_rows_of, Forall_app. split; apply Forall_forall; intros l [_ Hin]%list_elem_of_filter; by eapply Forall_forall in Hv.
    + intros l. unfold of_project. rewrite elem_of_app, !list_elem_of_filter. split; [|naive_solver]. intros Hin.
      eapply Forall_forall in Hv; [|exact Hin]. destruct Hv as [_ Hpr _ _ _]. apply project_known in Hpr. unfold PROJECTS in Hpr. set_solver.
Qed.
End RoundTrip.

(** * Example

    A repair of one region: a polygon with two items, one of which lost its article. *)

#[local] Existing Instance example_runtime.

Definition repair_document (id qid language : string) (page : Z) : pydict :=
  [(u "document_id", VStr (u id)); (u "article_id", VStr (u id ++ u "#a")); (u "wikidata", VStr (u qid)); (u "language", VStr (u language));
   (u "page_id", VInt page); (u "revision_id", VInt 6); (u "full_text", VStr (u "text"))].
(** The article of Q2 is there; the one of Q1 is recovered. *)
Definition known_document : pydict := repair_document "Q2:wikipedia:fr:3:6" "Q2" "fr" 3.
Definition recovered_document : pydict := repair_document "Q1:wikipedia:en:5:6" "Q1" "en" 5.
Definition orphan_document : pydict := repair_document "Q9:wikipedia:en:8:6" "Q9" "en" 8.
Definition recovered_section : pydict :=
  [(u "section_id", VStr (u "s1")); (u "document_id", VStr (u "Q1:wikipedia:en:5:6")); (u "section_index", VInt 0)].

Definition known_link : Link := link_to "Q2:wikipedia:fr:3:6" "wikipedia" "Q2" "fr" 3.
Definition stored : list Link := [known_link; voyage_link].

Definition some_region : RegionAuditResult :=
  {| region_stem := u "monaco"; blocked_reason := []; classifications := [(u "Q1", REPAIR_REQUIRED); (u "Q2", CURRENT)]; polygon_ids_by_qid := [(u "Q1", [u "way1"]); (u "Q2", [u "way1"])];
     affected_polygon_ids_by_qid := [(u "Q1", [u "way1"])]; affected_qids := [u "Q1"]; orphan_fact_ids := [];
     region_orphan_document_ids := [u "Q9:wikipedia:en:8:6"] |}.
Definition some_batch : RecoveryBatchArtifacts :=
  {| batch_documents := [recovered_document]; batch_sections := [recovered_section]; batch_facts := [] |}.

Definition loaded_inputs : outcome RepairInputs :=
  load_repair_inputs some_region [some_polygon] [known_document; orphan_document] [] [] (row_of <$> stored) true.
Definition repaired : outcome RepairOutputs := inputs ← loaded_inputs; merge_repair_outputs some_region inputs [some_batch].

(** The region is now current: both articles and the Wikivoyage page are linked. *)
Example repaired_links_are_canonical :
  (fun out => (out_links out, out_classifications out, changed out)) <$> (match repaired with Ok out => Some out | Raise _ => None end) =
    Some (row_of <$> [article_link; known_link; voyage_link], [(u "Q1", CURRENT); (u "Q2", CURRENT)], true).
Proof. vm_compute. reflexivity. Qed.

Lemma repair_keeps_and_links_witness :
  exists inputs out ls, loaded_inputs = Ok inputs /\ repaired = Ok out /\
    integrity (out_polygons out) ls (out_documents out) (out_sections out) (out_facts out) /\
    exists l, l ∈ ls /\ link_pair l = Ok (u "way1", u "Q1:wikipedia:en:5:6#a").
Proof.
  assert (Hin : exists inputs, loaded_inputs = Ok inputs) by (eexists; vm_compute; reflexivity). destruct Hin as [inputs Hin].
  assert (Hout : exists out, repaired = Ok out) by (eexists; vm_compute; reflexivity). destruct Hout as [out Hout].
  assert (Hm : merge_repair_outputs some_region inputs [some_batch] = Ok out).
  { unfold repaired in Hout. rewrite Hin in Hout. exact Hout. }
  destruct (repair_keeps_and_links some_region [some_polygon] [known_document; orphan_document] [] [] (row_of <$> stored) true inputs [some_batch]
    out Hin Hm) as (ls & [Hint _ _ _ _ Hrec _ Hlinked] & _).
  exists inputs, out, ls. split; [exact Hin|]. split; [exact Hout|]. split; [exact Hint|].
  destruct (Hrec recovered_document) as (k & d & Hk & Hd & Hdk); [left|].
  assert (Hdocs : out_documents out = [recovered_document; known_document]).
  { assert (Hv : (out_documents <$> match repaired with Ok out => Some out | Raise _ => None end) = Some [recovered_document; known_document])
      by (vm_compute; reflexivity). rewrite Hout in Hv. by injection Hv. }
  apply (Hlinked some_polygon recovered_document (u "Q1; Q2") (u "Q1")); [left|rewrite Hdocs; left|vm_compute; reflexivity| | |vm_compute; reflexivity..].
  - apply (bool_decide_unpack _). vm_compute. exact I.
  - left.
Defined.

Lemma canonical_links_survive_repair_witness :
  exists legacy preserved, load_repair_links (row_of <$> stored) true [some_polygon] [known_document] {[u "Q1"]} = Ok (legacy, preserved) /\
    legacy_wikipedia_links_to_canonical legacy [known_document] preserved = Ok (row_of <$> stored).
Proof.
  apply (canonical_links_survive_repair stored).
  - assert (Hb : validate_polygon_document_links (VDict <$> (row_of <$> stored)) = Ok (row_of <$> stored)) by (vm_compute; reflexivity).
    apply validation_inv in Hb as (links & ls & _ & Hv & _ & _ & E).
    + apply (inj (fmap row_of)) in E as ->. exact Hv.
    + constructor; [apply row_of_text|]. constructor; [apply row_of_text|constructor].
  - assert (Hb : validate_polygon_document_links (VDict <$> (row_of <$> stored)) = Ok (row_of <$> stored)) by (vm_compute; reflexivity).
    apply validation_inv in Hb as (links & ls & _ & _ & Hs & _ & E).
    + apply (inj (fmap row_of)) in E as ->. exact Hs.
    + constructor; [apply row_of_text|]. constructor; [apply row_of_text|constructor].
  - exists [u "way1"]. split; [constructor; [vm_compute; reflexivity|constructor]|apply NoDup_singleton].
  - exists [u "Q2:wikipedia:fr:3:6"]. split; [constructor; [vm_compute; reflexivity|constructor]|apply NoDup_singleton].
  - exists [u "Q2:wikipedia:fr:3:6#a"]. split; [constructor; [vm_compute; reflexivity|constructor]|apply NoDup_singleton].
  - intros l Hl Hp. exists known_document. split; [left|]. apply elem_of_cons in Hl as [->|Hl]; [vm_compute; reflexivity|].
    apply list_elem_of_singleton in Hl as ->. vm_compute in Hp. discriminate Hp.
Defined.
