(* ===== verification/RecoveryTransaction.v ===== *)
(** The transaction of a Wikidata repair ([pipeline/_wikidata_recovery/transaction.py]): backups, a
    journal, the replacement of the tables of a region, and the recovery of what was interrupted; and
    the publication of a repair through it ([repair_outputs.py]). *)
From stdpp Require Import sorting.
From S2P Require Import Prelude Py PyStr PyText Fs Artifacts Atomic PolygonLinks LinkTransaction RecoveryRows RecoveryMerge.

Definition RECOVERY_TRANSACTION_VERSION : str := u "wikidata-recovery-transaction-v1".

Definition FileExistsError : exn_class := CUser (u "FileExistsError") COSError.

(** [path.mkdir(parents=True, exist_ok=False)]. *)
Definition mkdir_new (p : path) : PyM FsState unit :=
  primitive (fun t =>
    match mkdirs (prefixes (path_parent p)) t with
    | (Ok _, t') => if path_exists p t' then (Raise (exc FileExistsError []), t') else (Ok tt, <[p := Dir]> t')
    | r => r
    end).

Record RecoveryRepairResult := {
  rr_stem : str; rr_changed : bool; rr_affected_qids : list str; rr_affected_polygon_count : Z; rr_repaired_paths : list path;
  rr_map_inputs_changed : bool }.

Section RecoveryTransaction.
Context {RT : Runtime} {FF : FileFormats}.
Variable temporary_middle : gmap path node -> path -> str.
Variable cwd : path.
Abbreviation M := (PyM FsState).

Definition transaction_directory (root : path) (stem : str) : outcome path :=
  s ← require_safe_stem stem (u "recovery transaction stem") CValueError; mret (child root s).

Definition recovery_journal (directory : path) : path := child directory (u "journal.json").

(** * Preparing *)

(** [sorted(replacements, key=lambda item: str(item[0]))]. *)
Definition by_target (a b : path * path) : Prop := str_leb (path_str a.1) (path_str b.1) = true.
#[global] Instance by_target_dec : RelDecision by_target.
Proof. intros a b. unfold by_target. apply _. Defined.

Definition backup_of (directory : path) (index : nat) : path := child directory (zero_pad 3 (Z.of_nat index) ++ u ".backup").

Definition backup_entry (directory : path) (index : nat) (target staged : path) : M pydict :=
  present <- gets (fun s => is_file staged (tree s));;
  (if negb present then throw (exc CFileNotFoundError [FStr (u "Staged recovery file is missing: " ++ path_str staged)]) else ret tt);;
  let backup := backup_of directory index in
  existed <- gets (fun s => is_file target (tree s));;
  (if existed : bool then copy_file target backup else ret tt);;
  original_hash <- (if existed : bool then reads (sha256_file target) else ret []);;
  staged_hash <- reads (sha256_file staged);;
  ret [(u "target", VStr (path_str target)); (u "staged", VStr (path_str staged)); (u "backup", VStr (path_str backup));
       (u "existed", VBool existed); (u "original_hash", VStr original_hash); (u "staged_hash", VStr staged_hash)].

Fixpoint backup_entries (directory : path) (index : nat) (replacements : list (path * path)) : M (list pydict) :=
  match replacements with
  | [] => ret []
  | (target, staged) :: rest =>
      e <- backup_entry directory index target staged;;
      es <- backup_entries directory (S index) rest;;
      ret (e :: es)
  end.

(** The journal of the entries, and its journal at another phase. *)
Definition journal_at (stem : str) (entries : list pydict) (phase : string) : pydict :=
  [(u "contract_version", VStr RECOVERY_TRANSACTION_VERSION); (u "stem", VStr stem); (u "phase", VStr (u phase));
   (u "entries", VList (VDict <$> entries))].
Definition write_recovery_journal (p : path) (journal : pydict) : M unit := atomic_write_json temporary_middle p (VDict journal).

(** * Applying and undoing *)

(** [Path(entry[key])]. *)
Definition entry_path (key : string) (entry : pydict) : outcome path :=
  v ← getitem_of key entry;
  match v with VStr s => mret (path_join cwd s) | _ => Raise (exc CTypeError (msg "argument should be a str or an os.PathLike object")) end.

Definition roll_forward_entry (entry : pydict) : M unit :=
  target <- lift (entry_path "target" entry);;
  staged <- lift (entry_path "staged" entry);;
  staged_hash <- lift (item_text "staged_hash" entry);;
  done_ <- gets (fun s => file_matches_hash target staged_hash (tree s));;
  if done_ : bool then ret tt
  else
    available <- gets (fun s => file_matches_hash staged staged_hash (tree s));;
    if negb available then throw (exc CRuntimeError [FStr (u "Recovery transaction staged file is unavailable: " ++ path_str staged)])
    else
      atomic_copy_file temporary_middle staged target;;
      h <- reads (sha256_file target);;
      if negb (str_eqb h staged_hash) then throw (exc CRuntimeError [FStr (u "Recovery transaction verification failed: " ++ path_str target)])
      else ret tt.
Definition roll_forward (entries : list pydict) : M unit := for_each roll_forward_entry entries.

Definition roll_back_entry (entry : pydict) : M unit :=
  target <- lift (entry_path "target" entry);;
  backup <- lift (entry_path "backup" entry);;
  existed <- lift (getitem_of "existed" entry);;
  if py_truthy existed then
    present <- gets (fun s => is_file backup (tree s));;
    if negb present then throw (exc CRuntimeError [FStr (u "Recovery transaction backup is unavailable: " ++ path_str backup)])
    else
      atomic_copy_file temporary_middle backup target;;
      h <- reads (sha256_file target);;
      original <- lift (item_text "original_hash" entry);;
      if negb (str_eqb h original)
      then throw (exc CRuntimeError [FStr (u "Recovery transaction rollback verification failed: " ++ path_str target)])
      else ret tt
  else
    created <- gets (fun s => path_exists target (tree s));;
    if created : bool then unlink_existing target else ret tt.
Definition roll_back (entries : list pydict) : M unit := for_each roll_back_entry (reverse entries).

(** [_cleanup]. *)
Definition discard_entry (entry : pydict) : M unit :=
  staged <- lift (entry_path "staged" entry);;
  unlink staged;;
  backup <- lift (entry_path "backup" entry);;
  unlink backup.
Definition discard_transaction (directory : path) (entries : list pydict) : M unit :=
  for_each discard_entry entries;;
  unlink (recovery_journal directory);;
  rmdir directory.

(** * A new transaction *)

(** [_commit_journal]. *)
Definition advance_journal (directory : path) (stem : str) (entries : list pydict) (before_commit : option (M unit)) : M unit :=
  match before_commit with Some hook => hook | None => ret tt end;;
  write_recovery_journal (recovery_journal directory) (journal_at stem entries "committing");;
  roll_forward entries;;
  write_recovery_journal (recovery_journal directory) (journal_at stem entries "committed").

Definition commit_or_rollback (directory : path) (stem : str) (entries : list pydict) (before_commit : option (M unit)) : M unit :=
  on_error (advance_journal directory stem entries before_commit) (roll_back entries;; discard_transaction directory entries);;
  discard_transaction directory entries.

(** What [commit_replacements] does before the journal is there. *)
Definition prepare_transaction (directory : path) (stem : str) (replacements : list (path * path)) : M (list pydict) :=
  lift (raise_if (negb (bool_decide (NoDup replacements.*1))) (exc CValueError (msg "Recovery transaction contains duplicate targets")));;
  mkdir directory;;
  prepared <- gets (fun s => path_exists (recovery_journal directory) (tree s));;
  lift (raise_if prepared (exc CRuntimeError [FStr (u "Recovery transaction is already prepared: " ++ path_str directory)]));;
  entries <- backup_entries directory 0 (merge_sort by_target replacements);;
  write_recovery_journal (recovery_journal directory) (journal_at stem entries "prepared");;
  ret entries.

Definition commit_replacements (directory : path) (stem : str) (replacements : list (path * path)) (before_commit : option (M unit)) : M unit :=
  match replacements with
  | [] => ret tt
  | _ =>
      entries <- prepare_transaction directory stem replacements;;
      commit_or_rollback directory stem entries before_commit
  end.

(** * Recovery *)

Definition read_recovery_journal (p : path) (t : gmap path node) : outcome (pydict * list pydict) :=
  let invalid := exc CRuntimeError [FStr (u "Invalid recovery transaction journal: " ++ path_str p)] in
  let invalid_entries := exc CRuntimeError [FStr (u "Invalid recovery transaction entries: " ++ path_str p)] in
  value ← read_json p t;
  match value with
  | VDict raw =>
      _ ← raise_if (negb (py_eqb (dget_none (u "contract_version") raw) (VStr RECOVERY_TRANSACTION_VERSION))) invalid;
      match dget_none (u "entries") raw with
      | VList entries =>
          es ← mapM (fun e => match e with VDict d => Ok d | _ => Raise invalid_entries end) entries;
          mret (raw, es)
      | _ => Raise invalid_entries
      end
  | _ => Raise invalid
  end.

(** Undo what was only prepared, finish what was being committed. *)
Definition resume_phase (journal_path : path) (journal : pydict) (entries : list pydict) (phase : pyval) : M unit :=
  if py_eqb phase (VStr (u "prepared")) then roll_back entries
  else if negb (hashable phase) then throw (exc CTypeError [FStr (u "unhashable type: '" ++ type_name phase ++ u "'")])
  else if py_in phase [VStr (u "committing"); VStr (u "committed")] then
    (roll_forward entries;;
     write_recovery_journal journal_path (dset (u "phase") (VStr (u "committed")) journal))
  else throw (exc CRuntimeError [FStr (u "Unknown recovery transaction phase "); FRepr phase]).

Definition recover_transaction_directory (directory : path) : M (option str) :=
  let journal_path := recovery_journal directory in
  present <- gets (fun s => is_file journal_path (tree s));;
  if negb present then ret None
  else
    read <- reads (read_recovery_journal journal_path);;
    let '(journal, entries) := read in
    phase <- lift (getitem_of "phase" journal);;
    resume_phase journal_path journal entries phase;;
    stem <- lift (item_text "stem" journal);;
    discard_transaction directory entries;;
    ret (Some stem).

(** [sorted(path for path in root.iterdir() if path.is_dir())]. *)
Definition transaction_directories (root : path) (t : gmap path node) : list path := filter (fun p => is_dir p t = true) (iterdir root t).

Fixpoint recover_all (directories : list path) : M (list str) :=
  match directories with
  | [] => ret []
  | d :: rest =>
      stem <- recover_transaction_directory d;;
      stems <- recover_all rest;;
      ret (match stem with Some s => s :: stems | None => stems end)
  end.

Definition recover_interrupted_transactions (root : path) : M (list str) :=
  exists_ <- gets (fun s => is_dir root (tree s));;
  if negb exists_ then ret []
  else
    directories <- gets (fun s => transaction_directories root (tree s));;
    recover_all directories.

(** * Publishing a repair *)

Definition audit_of (audited : list RegionAuditResult) (stem : str) : outcome RegionAuditResult :=
  match filter (fun r => region_stem r = stem) audited with r :: _ => Ok r | [] => Raise (exc CKeyError [FRepr (VStr stem)]) end.

(** The tables and manifests are staged below the transaction directory and named with their
    targets; the receipt, the audit of the result and the checkpoints are collaborators. *)
Definition persist_repair_outputs (region : RegionAuditResult) (outputs : RepairOutputs) (transaction_root : path)
    (stage : path -> M (list (path * path))) (before_commit : option (M unit)) (record_receipt clear_checkpoints : M unit)
    (audit : M (list RegionAuditResult)) : M RecoveryRepairResult :=
  let result := fun changed_ repaired flag =>
    {| rr_stem := region_stem region; rr_changed := changed_; rr_affected_qids := out_affected_qids outputs;
       rr_affected_polygon_count := Z.of_nat (size (out_affected_polygons outputs)); rr_repaired_paths := repaired; rr_map_inputs_changed := flag |} in
  if negb (changed outputs) then (record_receipt;; clear_checkpoints;; ret (result false [] false))
  else
    directory <- lift (transaction_directory transaction_root (region_stem region));;
    mkdir_new directory;;
    replacements <- stage directory;;
    commit_replacements directory (region_stem region) replacements before_commit;;
    record_receipt;;
    audited <- audit;;
    post <- lift (audit_of audited (region_stem region));;
    lift (raise_if (negb (bool_decide (affected_qids post = [])))
      (repair_error [FStr (u "Recovery did not converge for region "); FRepr (VStr (region_stem region))]));;
    clear_checkpoints;;
    ret (result true replacements.*1 (map_inputs_changed outputs)).

Definition requires_repair (region : RegionAuditResult) : bool :=
  negb (bool_decide (affected_qids region = [] /\ orphan_fact_ids region = [] /\ region_orphan_document_ids region = [])).

(** The inputs are read from the tables of the region, the batches are fetched and merged; both are
    parameters here. *)
Definition repair_wikidata_region (cache : path) (region : RegionAuditResult) (load_inputs : M RepairInputs)
    (build_outputs : RepairInputs -> M RepairOutputs) (stage : RepairInputs -> RepairOutputs -> path -> M (list (path * path)))
    (before_commit : option (M unit)) (record_receipt : RepairOutputs -> M unit) (clear_checkpoints : M unit) (audit : M (list RegionAuditResult))
    : M RecoveryRepairResult :=
  if negb (bool_decide (blocked_reason region = [])) then throw (repair_error [FStr (blocked_reason region)])
  else if negb (requires_repair region) then
    ret {| rr_stem := region_stem region; rr_changed := false; rr_affected_qids := []; rr_affected_polygon_count := 0; rr_repaired_paths := [];
           rr_map_inputs_changed := false |}
  else
    let transaction_root := child (child cache (u "wikidata_recovery")) (u "transactions") in
    recover_interrupted_transactions transaction_root;;
    inputs <- load_inputs;;
    outputs <- build_outputs inputs;;
    persist_repair_outputs region outputs transaction_root (stage inputs outputs) before_commit (record_receipt outputs) clear_checkpoints audit.
End RecoveryTransaction.
