(* ===== verification/RecoveryTransactionProofs.v ===== *)
(** A repair that is killed recovers: whatever a killed transaction leaves, the recovery puts back
    every table of the region or completes every one of them; and the staging that is abandoned
    without a journal blocks its region. *)
From stdpp Require Import sorting.
From S2P Require Import Prelude Py PyStr PyText Decimal Fs Calm Artifacts Paths Atomic PolygonLinks LinkTransaction RecoveryRows RecoveryMerge RecoveryTransaction.

(** * The entries of a journal *)

Record Entry := {
  e_target : path; e_staged : path; e_backup : path; e_existed : bool; e_original : str; e_new : str }.

Definition entry_dict (e : Entry) : pydict :=
  [(u "target", VStr (path_str (e_target e))); (u "staged", VStr (path_str (e_staged e))); (u "backup", VStr (path_str (e_backup e)));
   (u "existed", VBool (e_existed e)); (u "original_hash", VStr (e_original e)); (u "staged_hash", VStr (e_new e))].

(** Where the files of a transaction are: staged files and backups in its directory, targets
    outside, and none of them named like a temporary file. *)
Record layout (directory : path) (es : list Entry) : Prop := {
  ly_clean : forall e, e ∈ es -> clean_path (e_target e) /\ clean_path (e_staged e) /\ clean_path (e_backup e);
  ly_inside : forall e, e ∈ es -> path_parent (e_staged e) = directory /\ path_parent (e_backup e) = directory;
  ly_outside : forall e, e ∈ es -> path_parent (e_target e) ≠ directory /\ e_target e ≠ directory /\ e_target e ≠ [];
  ly_targets : NoDup (e_target <$> es);
  ly_backups : forall e e', e ∈ es -> e' ∈ es -> e_backup e ≠ e_staged e';
  ly_journal : forall e, e ∈ es -> e_staged e ≠ recovery_journal directory /\ e_backup e ≠ recovery_journal directory }.

(** The directories of the transaction are there, and no target is one. *)
Record housed (directory : path) (es : list Entry) (t : gmap path node) : Prop := {
  hs_directory : Forall (fun q => t !! q = Some Dir) (prefixes directory);
  hs_parents : forall e, e ∈ es -> Forall (fun q => t !! q = Some Dir) (prefixes (path_parent (e_target e)));
  hs_targets : forall e, e ∈ es -> t !! e_target e ≠ Some Dir }.

Section Recovery.
Context {RT : Runtime} {FF : FileFormats}.
Context (temporary_middle : gmap path node -> path -> str) (cwd directory : path).
Hypothesis temporary_fresh : forall t p, t !! temporary_name temporary_middle p t = None.
Variable stem : str.

(** A file with a digest. *)
Definition digest_at (t : gmap path node) (p : path) (h : str) : Prop := exists c, t !! p = Some (File c) /\ sha256_hexdigest (content_bytes c) = h.

Lemma digest_matches t p h : digest_at t p h <-> file_matches_hash p h t = true.
Proof.
  unfold digest_at, file_matches_hash, is_file, file_content_hash. split.
  - intros (c & -> & ->). simpl. apply str_eqb_refl.
  - destruct (t !! p) as [[c|]|]; simpl; try done. destruct (str_eqb_spec (sha256_hexdigest (content_bytes c)) h) as [<-|]; [|done]. eauto.
Qed.

Lemma digest_read t p h : digest_at t p h -> sha256_file p t = Ok h.
Proof. intros (c & Hc & <-). unfold sha256_file, read_bytes. by rewrite Hc. Qed.

(** ** Reading an entry *)

Lemma entry_dict_paths e : clean_path (e_target e) -> clean_path (e_staged e) -> clean_path (e_backup e) ->
  entry_path cwd "target" (entry_dict e) = Ok (e_target e) /\ entry_path cwd "staged" (entry_dict e) = Ok (e_staged e) /\
  entry_path cwd "backup" (entry_dict e) = Ok (e_backup e).
Proof.
  intros H1 H2 H3. unfold entry_path. change (getitem_of "target" (entry_dict e)) with (Ok (VStr (path_str (e_target e)))).
  change (getitem_of "staged" (entry_dict e)) with (Ok (VStr (path_str (e_staged e)))).
  change (getitem_of "backup" (entry_dict e)) with (Ok (VStr (path_str (e_backup e)))). cbn [mbind outcome_bind].
  by rewrite !path_join_str.
Qed.

Section Entries.
Context (es : list Entry) (Hl : layout directory es).

Lemma target_not_inside e q : e ∈ es -> path_parent q = directory -> q ≠ e_target e.
Proof. intros He Hq ->. by destruct (ly_outside _ _ Hl e He). Qed.

Lemma parent_ne (p : path) : p ≠ [] -> path_parent p ≠ p.
Proof. intros Hne E. rewrite (path_eta p Hne) in E at 2. apply (f_equal length) in E. unfold child in E. rewrite length_app in E. simpl in E. lia. Qed.

(** ** Rolling forward without faults *)

(** What rolling forward needs: every target already new, or its staged file there. *)
Definition forward_ready (t : gmap path node) : Prop := forall e, e ∈ es -> digest_at t (e_target e) (e_new e) \/ digest_at t (e_staged e) (e_new e).

(** Only targets change. *)
Definition targets_only (t t' : gmap path node) : Prop := forall q, q ∉ e_target <$> es -> t' !! q = t !! q.

Lemma housed_targets_only t t' : housed directory es t -> targets_only t t' -> (forall e, e ∈ es -> t' !! e_target e ≠ Some Dir) -> housed directory es t'.
Proof.
  intros [H1 H2 H3] Ht Hd.
  assert (Hk : forall q, t !! q = Some Dir -> t' !! q = Some Dir).
  { intros q Hq. rewrite Ht; [done|]. intros (e & -> & He)%list_elem_of_fmap. by apply (H3 e). }
  split; [|intros e He|done]; (eapply Forall_impl; [|exact Hk]); auto.
Qed.

Lemma roll_forward_entry_calm e s :
  e ∈ es -> calm s -> housed directory es (tree s) -> digest_at (tree s) (e_target e) (e_new e) \/ digest_at (tree s) (e_staged e) (e_new e) ->
  calmly (roll_forward_entry temporary_middle cwd (entry_dict e)) s (fun _ t =>
    digest_at t (e_target e) (e_new e) /\ (t = tree s \/ exists c, t = <[e_target e := File c]> (tree s))).
Proof.
  intros He Hc Hh Hd. destruct (ly_clean _ _ Hl e He) as (C1 & C2 & C3). destruct (entry_dict_paths e C1 C2 C3) as (P1 & P2 & P3).
  unfold roll_forward_entry. eapply calmly_lift_then; [exact P1|]. eapply calmly_lift_then; [exact P2|]. eapply (calmly_lift_then _ (e_new e)); [reflexivity|].
  destruct (file_matches_hash (e_target e) (e_new e) (tree s)) eqn:Em.
  - eapply calmly_gets_then; [exact Em|]. apply calmly_ret; [done|]. split; [by apply digest_matches|by left].
  - eapply calmly_gets_then; [exact Em|]. destruct Hd as [Hd|Hd]; [apply digest_matches in Hd; congruence|].
    eapply calmly_gets_then; [by apply digest_matches|]. cbn [negb]. destruct Hd as (c & Hsrc & Hh').
    eapply calmly_bind; [eapply (calmly_atomic_copy_file _ _ _ c); [done|done|by apply Hh|by apply Hh|done]|].
    intros [] s1 Hc1 E1. simpl in E1. assert (Hnew : digest_at (tree s1) (e_target e) (e_new e)) by (exists c; by rewrite E1, lookup_insert_eq).
    eapply calmly_reads_then; [by apply digest_read|]. rewrite str_eqb_refl. cbn [negb]. apply calmly_ret; [done|]. split; [done|]. right. by exists c.
Qed.

Lemma roll_forward_calm s :
  calm s -> housed directory es (tree s) -> forward_ready (tree s) ->
  calmly (roll_forward temporary_middle cwd (entry_dict <$> es)) s (fun _ t =>
    housed directory es t /\ targets_only (tree s) t /\ forall e, e ∈ es -> digest_at t (e_target e) (e_new e)).
Proof.
  intros Hc Hh Hr. set (t0 := tree s).
  assert (H : forall rest s, rest ⊆ es -> calm s -> housed directory es (tree s) -> targets_only t0 (tree s) ->
    (forall e, e ∈ es -> digest_at (tree s) (e_target e) (e_new e) \/ e ∈ rest /\ digest_at (tree s) (e_staged e) (e_new e)) -> NoDup (e_target <$> rest) ->
    calmly (for_each (roll_forward_entry temporary_middle cwd) (entry_dict <$> rest)) s (fun _ t =>
      housed directory es t /\ targets_only t0 t /\ forall e, e ∈ es -> digest_at t (e_target e) (e_new e))).
  { clearbody t0. clear s Hc Hh Hr. induction rest as [|e rest IH]; intros s Hsub Hc Hh Ht Hd Hn; csimpl.
    - apply calmly_ret; [done|]. split_and!; [done..|]. intros e He. destruct (Hd e He) as [?|[[]%elem_of_nil _]]. done.
    - csimpl in Hn. apply NoDup_cons in Hn as [Hne Hn]. assert (He : e ∈ es) by set_solver.
      eapply calmly_bind; [apply roll_forward_entry_calm; [done..|]; destruct (Hd e He) as [?|[_ ?]]; auto|].
      intros [] s1 Hc1 [Hdone Hs1]. simpl in *.
      assert (Hother : forall q, q ≠ e_target e -> tree s1 !! q = tree s !! q).
      { intros q Hq. destruct Hs1 as [->|[c ->]]; [done|]. by apply lookup_insert_ne. }
      assert (Ht1 : targets_only t0 (tree s1)).
      { intros q Hq. rewrite Hother; [by apply Ht|]. intros ->. apply Hq. by apply list_elem_of_fmap_2. }
      apply IH; [set_solver|done| |done| |done].
      + apply (housed_targets_only (tree s)); [done| |].
        * intros q Hq. apply Hother. intros ->. apply Hq. by apply list_elem_of_fmap_2.
        * intros e' He'. destruct (decide (e_target e' = e_target e)) as [->|Hx]; [destruct Hdone as (c & -> & _); done|]. rewrite Hother by done. by apply Hh.
      + intros e' He'. destruct (decide (e_target e' = e_target e)) as [Hx|Hx].
        * left. rewrite Hx. assert (e' = e) as -> by (by apply (NoDup_fmap_eq e_target es); [apply (ly_targets _ _ Hl)|..]). done.
        * assert (Hst : tree s1 !! e_staged e' = tree s !! e_staged e').
          { apply Hother. apply target_not_inside; [done|]. by apply (ly_inside _ _ Hl). }
          destruct (Hd e' He') as [(c & Hc' & E)|[Hin (c & Hc' & E)]].
          -- left. exists c. by rewrite Hother.
          -- apply elem_of_cons in Hin as [->|Hin]; [done|]. right. split; [done|]. exists c. by rewrite Hst. }
  apply H; [set_solver|done..| |by apply (ly_targets _ _ Hl)]. intros e He. destruct (Hr e He); [by left|by right].
Qed.

(** ** Rolling back without faults *)

(** What rolling back needs: the backup of every file that was there before. *)
Definition back_ready (t0 t : gmap path node) : Prop := forall e, e ∈ es ->
  if e_existed e then exists c, t0 !! e_target e = Some (File c) /\ t !! e_backup e = Some (File c) /\ sha256_hexdigest (content_bytes c) = e_original e
  else t0 !! e_target e = None.

Lemma roll_back_entry_calm (t0 : gmap path node) e s :
  e ∈ es -> calm s -> housed directory es (tree s) ->
  (if e_existed e then exists c, t0 !! e_target e = Some (File c) /\ tree s !! e_backup e = Some (File c) /\
     sha256_hexdigest (content_bytes c) = e_original e
   else t0 !! e_target e = None) ->
  calmly (roll_back_entry temporary_middle cwd (entry_dict e)) s (fun _ t =>
    t !! e_target e = t0 !! e_target e /\ forall q, q ≠ e_target e -> t !! q = tree s !! q).
Proof.
  intros He Hc Hh Hb. destruct (ly_clean _ _ Hl e He) as (C1 & C2 & C3). destruct (entry_dict_paths e C1 C2 C3) as (P1 & P2 & P3).
  unfold roll_back_entry. eapply calmly_lift_then; [exact P1|]. eapply calmly_lift_then; [exact P3|].
  eapply (calmly_lift_then _ (VBool (e_existed e))); [reflexivity|]. cbn [py_truthy]. destruct (e_existed e).
  - destruct Hb as (c & Ht0 & Hbk & Hsha). eapply (calmly_gets_then _ true); [unfold is_file; by rewrite Hbk|]. cbn [negb].
    eapply calmly_bind; [eapply (calmly_atomic_copy_file _ _ _ c); [done|done|by apply Hh|by apply Hh|done]|].
    intros [] s1 Hc1 E1. simpl in E1. eapply (calmly_reads_then _ (e_original e)).
    { apply digest_read. exists c. by rewrite E1, lookup_insert_eq. }
    eapply (calmly_lift_then _ (e_original e)); [reflexivity|]. rewrite str_eqb_refl. cbn [negb]. apply calmly_ret; [done|].
    rewrite E1, lookup_insert_eq. split; [done|]. intros q Hq. by apply lookup_insert_ne.
  - destruct (tree s !! e_target e) as [[c|]|] eqn:Et; [|by destruct (hs_targets _ _ _ Hh e He)|].
    + eapply (calmly_gets_then _ true); [unfold path_exists; by rewrite Et|].
      apply (calmly_primitive _ tt); [done|by rewrite Et|]. rewrite Et. simpl. rewrite lookup_delete_eq. split; [done|]. intros q Hq. by apply lookup_delete_ne.
    + eapply (calmly_gets_then _ false); [unfold path_exists; rewrite Et; apply bool_decide_eq_false; by apply (ly_outside _ _ Hl)|].
      apply calmly_ret; [done|]. split; [congruence|done].
Qed.

Lemma roll_back_calm t0 s :
  calm s -> housed directory es (tree s) -> back_ready t0 (tree s) ->
  calmly (roll_back temporary_middle cwd (entry_dict <$> es)) s (fun _ t =>
    targets_only (tree s) t /\ forall e, e ∈ es -> t !! e_target e = t0 !! e_target e).
Proof.
  intros Hc Hh Hr. unfold roll_back. rewrite <- fmap_reverse.
  assert (H : forall rest s, rest ⊆ es -> calm s -> housed directory es (tree s) -> back_ready t0 (tree s) ->
    calmly (for_each (roll_back_entry temporary_middle cwd) (entry_dict <$> rest)) s (fun _ t =>
      targets_only (tree s) t /\ (forall e, e ∈ es -> t !! e_target e = tree s !! e_target e \/ t !! e_target e = t0 !! e_target e) /\
      forall e, e ∈ rest -> t !! e_target e = t0 !! e_target e)).
  { clear s Hc Hh Hr. induction rest as [|e rest IH]; intros s Hsub Hc Hh Hr; csimpl.
    - apply calmly_ret; [done|]. split_and!; [done|by left|by intros ? ?%elem_of_nil].
    - assert (He : e ∈ es) by set_solver. eapply calmly_bind; [apply (roll_back_entry_calm t0); [done..|by apply Hr]|].
      intros [] s1 Hc1 [Hdone Hother]. simpl in *.
      assert (Ht1 : targets_only (tree s) (tree s1)) by (intros q Hq; apply Hother; intros ->; apply Hq; by apply list_elem_of_fmap_2).
      assert (Hh1 : housed directory es (tree s1)).
      { apply (housed_targets_only (tree s)); [done..|]. intros e' He'. destruct (decide (e_target e' = e_target e)) as [->|Hx].
        - rewrite Hdone. specialize (Hr e He). destruct (e_existed e); [destruct Hr as (c & -> & _)|rewrite Hr]; done.
        - rewrite Hother by done. by apply Hh. }
      assert (Hr1 : back_ready t0 (tree s1)).
      { intros e' He'. specialize (Hr e' He'). destruct (e_existed e'); [|done]. destruct Hr as (c & ? & Hbk & ?). exists c. split_and!; [done| |done].
        rewrite Hother; [done|]. apply target_not_inside; [done|]. by apply (ly_inside _ _ Hl). }
      eapply calmly_impl; [apply IH; [set_solver|done..]|]. intros _ t (Ha & Hb & Hd). split_and!.
      + intros q Hq. by rewrite Ha, Ht1.
      + intros e' He'. destruct (decide (e_target e' = e_target e)) as [Hx|Hx].
        * right. destruct (Hb e' He') as [E|E]; [|done]. rewrite E, Hx. exact Hdone.
        * destruct (Hb e' He') as [E|E]; [left; by rewrite E, Hother|by right].
      + intros e' [->|Hin]%elem_of_cons; [|by apply Hd]. destruct (Hb e He) as [E|E]; [by rewrite E|done]. }
  eapply calmly_impl; [apply (H (reverse es)); [intros x; by rewrite elem_of_reverse|done..]|]. intros _ t (Ha & _ & Hd). split; [done|].
  intros e He. apply Hd. by rewrite elem_of_reverse.
Qed.

(** ** Cleaning up *)

Definition discarded : list path := (es ≫= fun e => [e_staged e; e_backup e]) ++ [recovery_journal directory].

Lemma discard_entries_unlink s : for_each (discard_entry cwd) (entry_dict <$> es) s = for_each unlink (es ≫= fun e => [e_staged e; e_backup e]) s.
Proof.
  assert (H : forall rest s, rest ⊆ es -> for_each (discard_entry cwd) (entry_dict <$> rest) s = for_each unlink (rest ≫= fun e => [e_staged e; e_backup e]) s).
  { clear s. induction rest as [|e rest IH]; intros s Hsub; [done|]. csimpl.
    assert (He : e ∈ es) by set_solver. destruct (ly_clean _ _ Hl e He) as (C1 & C2 & C3). destruct (entry_dict_paths e C1 C2 C3) as (P1 & P2 & P3).
    unfold pbind at 1, discard_entry. rewrite P2, P3. unfold pbind, lift. destruct (unlink (e_staged e) s) as [[[]|] s1]; [|done].
    destruct (unlink (e_backup e) s1) as [[[]|] s2]; [|done]. apply IH. set_solver. }
  by apply H.
Qed.

(** Nothing is in the directory but the files of the transaction. *)
Definition tidy (t : gmap path node) : Prop := forall name, t !! child directory name ≠ None -> child directory name ∈ discarded.

Lemma discard_calm s :
  calm s -> directory ≠ [] -> tree s !! directory = Some Dir -> (forall p, p ∈ discarded -> tree s !! p ≠ Some Dir) ->
  exists o s', discard_transaction cwd directory (entry_dict <$> es) s = (o, s') /\ calm s' /\
    (forall q, q ∉ discarded -> q ≠ directory -> tree s' !! q = tree s !! q) /\ tree s' !! recovery_journal directory = None /\
    (tidy (tree s) -> o = Ok tt /\ tree s' !! directory = None).
Proof.
  intros Hc Hne Hdir Hf. unfold discard_transaction. unfold pbind at 1. rewrite discard_entries_unlink.
  destruct (unlinks_calm (es ≫= fun e => [e_staged e; e_backup e]) s Hc) as (s1 & E1 & Hc1 & H1).
  { apply Forall_forall. intros p Hp. apply Hf. unfold discarded. apply elem_of_app. by left. }
  rewrite E1. unfold pbind at 1.
  destruct (unlinks_calm [recovery_journal directory] s1 Hc1) as (s2 & E2 & Hc2 & H2).
  { constructor; [|done]. rewrite H1. destruct (decide _); [done|]. apply Hf. unfold discarded. set_solver. }
  simpl in E2. unfold pbind in E2. destruct (unlink (recovery_journal directory) s1) as [[[]|] s2']; [|done]. unfold ret in E2. injection E2 as ->.
  destruct (primitive_calm (rmdir_tree directory) s2 Hc2) as (s3 & E3 & Ht3 & Hc3). exists (rmdir_tree directory (tree s2)).1, s3.
  assert (H12 : forall q, tree s2 !! q = if decide (q ∈ discarded) then None else tree s !! q).
  { intros q. rewrite H2, H1. pose proof (elem_of_app (es ≫= fun e => [e_staged e; e_backup e]) [recovery_journal directory] q) as Hq.
    fold discarded in Hq. repeat case_decide; try done; exfalso; tauto. }
  assert (Hjd : recovery_journal directory ≠ directory).
  { intros E. apply (f_equal length) in E. unfold recovery_journal, child in E. rewrite length_app in E. simpl in E. lia. }
  assert (Hrm : (rmdir_tree directory (tree s2)).2 = tree s2 \/ (rmdir_tree directory (tree s2)).2 = delete directory (tree s2)).
  { unfold rmdir_tree. repeat case_match; auto. }
  split_and!; [exact E3|done| | |].
  - intros q Hq Hqd. rewrite Ht3. assert (E : tree s2 !! q = tree s !! q) by (rewrite H12; by rewrite decide_False).
    destruct Hrm as [->| ->]; [done|]. by rewrite lookup_delete_ne.
  - rewrite Ht3. assert (E : tree s2 !! recovery_journal directory = None).
    { rewrite H12. rewrite decide_True; [done|]. unfold discarded. set_solver. }
    destruct Hrm as [->| ->]; [done|]. by rewrite lookup_delete_ne.
  - intros Htidy. assert (Hd2 : tree s2 !! directory = Some Dir).
    { rewrite H12. destruct (decide (directory ∈ discarded)) as [Hin|]; [|done]. by destruct (Hf _ Hin). }
    assert (Hnil : iterdir directory (tree s2) = []).
    { destruct (iterdir directory (tree s2)) as [|q l] eqn:E; [done|]. exfalso. assert (Hq : q ∈ iterdir directory (tree s2)) by (rewrite E; left).
      apply elem_of_iterdir in Hq as (name & -> & Hq). rewrite H12 in Hq. case_decide as Hx; [done|]. by apply Hx, Htidy. }
    unfold rmdir_tree in *. rewrite Hd2, Hnil in *. simpl in *. split; [done|]. by rewrite Ht3, lookup_delete_eq.
Qed.

(** ** Recovering a journal *)

Definition journal_phase (t : gmap path node) (phase : string) : Prop :=
  t !! recovery_journal directory = Some (File (CJson (VDict (journal_at stem (entry_dict <$> es) phase)))).

(** What a journal of each phase can be recovered from. *)
Definition recoverable (phase : string) (t0 t : gmap path node) : Prop :=
  journal_phase t phase /\
  (phase = "prepared" /\ back_ready t0 t \/ (phase = "committing" \/ phase = "committed") /\ forward_ready t).

Definition all_old (t0 t : gmap path node) : Prop := forall e, e ∈ es -> t !! e_target e = t0 !! e_target e.
Definition all_new (t : gmap path node) : Prop := forall e, e ∈ es -> digest_at t (e_target e) (e_new e).
Definition settled (phase : string) (t0 t : gmap path node) : Prop := if String.eqb phase "prepared" then all_old t0 t else all_new t.

Lemma journal_read t phase : journal_phase t phase ->
  read_recovery_journal (recovery_journal directory) t = Ok (journal_at stem (entry_dict <$> es) phase, entry_dict <$> es).
Proof.
  unfold journal_phase, read_recovery_journal, read_json. intros ->. cbn [mbind outcome_bind].
  change (dget_none (u "contract_version") (journal_at stem (entry_dict <$> es) phase)) with (VStr RECOVERY_TRANSACTION_VERSION).
  change (py_eqb (VStr RECOVERY_TRANSACTION_VERSION) (VStr RECOVERY_TRANSACTION_VERSION)) with true. cbn [negb raise_if mbind outcome_bind].
  change (dget_none (u "entries") (journal_at stem (entry_dict <$> es) phase)) with (VList (VDict <$> (entry_dict <$> es))). cbn iota beta.
  induction (entry_dict <$> es) as [|d l IH]; [done|]. csimpl. destruct (mapM _ (VDict <$> l)) as [l'|]; [|done]. simpl in *. by injection IH as ->.
Qed.

Lemma journal_not_target : recovery_journal directory ∉ e_target <$> es.
Proof. intros (e & E & He)%list_elem_of_fmap. apply (target_not_inside e (recovery_journal directory) He); [apply path_parent_child|done]. Qed.

Lemma discarded_inside p : p ∈ discarded -> path_parent p = directory.
Proof.
  unfold discarded. rewrite elem_of_app, list_elem_of_bind, list_elem_of_singleton. intros [(e & Hp & He)| ->].
  - apply (ly_inside _ _ Hl) in He as [? ?]. set_solver.
  - apply path_parent_child.
Qed.

Lemma targets_kept (t t' : gmap path node) : (forall q, q ∉ discarded -> q ≠ directory -> t' !! q = t !! q) -> forall e, e ∈ es -> t' !! e_target e = t !! e_target e.
Proof.
  intros H e He. apply H; [|by apply (ly_outside _ _ Hl)]. intros Hin%discarded_inside. by apply (ly_outside _ _ Hl) in He as [? _].
Qed.

Lemma resume_calm phase t0 s :
  calm s -> housed directory es (tree s) -> recoverable phase t0 (tree s) -> (forall p, p ∈ discarded -> tree s !! p ≠ Some Dir) ->
  exists s1, calm s1 /\ (forall q, q ∉ discarded -> q ∉ e_target <$> es -> tree s1 !! q = tree s !! q) /\
    (forall p, p ∈ discarded -> tree s1 !! p ≠ Some Dir) /\ (tidy (tree s) -> tidy (tree s1)) /\ settled phase t0 (tree s1) /\
    resume_phase temporary_middle cwd (recovery_journal directory) (journal_at stem (entry_dict <$> es) phase) (entry_dict <$> es) (VStr (u phase)) s = (Ok tt, s1).
Proof.
  intros Hc Hh [Hj Hcase] Hf. unfold resume_phase.
  assert (Hin : forall p, p ∈ discarded -> p ∉ e_target <$> es).
  { intros p Hp (e & E & He)%list_elem_of_fmap. apply discarded_inside in Hp. by apply (target_not_inside e p He). }
  assert (Hchild : forall name, child directory name ∉ e_target <$> es).
  { intros name (e & E & He)%list_elem_of_fmap. apply (target_not_inside e (child directory name) He); [apply path_parent_child|done]. }
  destruct Hcase as [[-> Hback]|[Hphase Hfwd]].
  - change (py_eqb (VStr (u "prepared")) (VStr (u "prepared"))) with true. cbn iota.
    destruct (roll_back_calm t0 s Hc Hh Hback) as ([] & s1 & E & Hc1 & Ht & Hold). exists s1. split_and!; [done| | | |done|done].
    + intros q _ Hq. by apply Ht.
    + intros p Hp. rewrite Ht by auto. auto.
    + intros Htidy name Hn. rewrite Ht in Hn by auto. auto.
  - assert (E1 : py_eqb (VStr (u phase)) (VStr (u "prepared")) = false) by (by destruct Hphase as [-> | ->]).
    assert (E2 : py_in (VStr (u phase)) [VStr (u "committing"); VStr (u "committed")] = true) by (by destruct Hphase as [-> | ->]).
    rewrite E1, E2. cbn [hashable negb]. destruct (roll_forward_calm s Hc Hh Hfwd) as ([] & s1 & E & Hc1 & Hh1 & Ht & Hnew).
    unfold pbind. rewrite E. unfold write_recovery_journal.
    destruct (calmly_atomic_write_json temporary_middle (recovery_journal directory)
      (VDict (dset (u "phase") (VStr (u "committed")) (journal_at stem (entry_dict <$> es) phase))) s1) as ([] & s2 & Ew & Hc2 & Ht2); [done|done| | |].
    { unfold recovery_journal. rewrite path_parent_child. by apply Hh1. }
    { rewrite Ht by apply journal_not_target. by rewrite Hj. }
    exists s2. split_and!; [done| | | | |done].
    + intros q Hq Hqt. rewrite Ht2, lookup_insert_ne; [by apply Ht|]. intros <-. apply Hq. unfold discarded. set_solver.
    + intros p Hp. rewrite Ht2. destruct (decide (p = recovery_journal directory)) as [->|Hpj]; [by rewrite lookup_insert_eq|].
      rewrite lookup_insert_ne by done. rewrite Ht by auto. auto.
    + intros Htidy name Hn. rewrite Ht2 in Hn. destruct (decide (child directory name = recovery_journal directory)) as [->|Hpj]; [unfold discarded; set_solver|].
      rewrite lookup_insert_ne in Hn by done. rewrite Ht in Hn by auto. auto.
    + unfold settled. destruct Hphase as [-> | ->]; intros e He; destruct (Hnew e He) as (c & Hc' & Hd); exists c; (split; [|done]); (rewrite Ht2, lookup_insert_ne; [done|]);
        intros E3; apply journal_not_target; rewrite E3; by apply list_elem_of_fmap_2.
Qed.

(** Without faults the recovery puts every table of a recoverable transaction back, or completes
    all of them, and clears the journal; the directory goes too unless something else is in it. *)
Lemma recovery_calm phase t0 s :
  calm s -> directory ≠ [] -> housed directory es (tree s) -> recoverable phase t0 (tree s) ->
  (forall p, p ∈ discarded -> tree s !! p ≠ Some Dir) ->
  exists o s', recover_transaction_directory temporary_middle cwd directory s = (o, s') /\ calm s' /\
    tree s' !! recovery_journal directory = None /\
    settled phase t0 (tree s') /\
    (tidy (tree s) -> o = Ok (Some stem) /\ tree s' !! directory = None).
Proof.
  intros Hc Hne Hh [Hj Hcase] Hf. unfold recover_transaction_directory.
  destruct (resume_calm phase t0 s Hc Hh (conj Hj Hcase) Hf) as (s1 & Hc1 & Hsame & Hf1 & Htidy1 & Hgoal & Estep).
  assert (Hd1 : tree s1 !! directory = Some Dir).
  { rewrite Hsame; [apply (proj1 (Forall_forall _ _) (hs_directory _ _ _ Hh)); by apply (prefixes_from_last [])|..].
    - intros Hp%discarded_inside. by apply (parent_ne directory).
    - intros (e & E & He)%list_elem_of_fmap. by apply (ly_outside _ _ Hl) in He as (_ & ? & _). }
  destruct (discard_calm s1 Hc1 Hne Hd1 Hf1) as (o & s2 & E2 & Hc2 & Hk & Hj2 & Htd).
  exists (match o with Ok _ => Ok (Some stem) | Raise e => Raise e end), s2. split_and!.
  - unfold pbind at 1, gets. unfold is_file at 1. unfold journal_phase in Hj. rewrite Hj. cbn [negb]. unfold pbind at 1, reads.
    rewrite (journal_read _ phase Hj). cbn iota beta. unfold pbind at 1, lift at 1.
    change (getitem_of "phase" (journal_at stem (entry_dict <$> es) phase)) with (Ok (VStr (u phase))). cbn iota beta.
    unfold pbind at 1. rewrite Estep. unfold pbind at 1, lift at 1. change (item_text "stem" (journal_at stem (entry_dict <$> es) phase)) with (Ok stem). cbn iota beta.
    unfold pbind. rewrite E2. by destruct o as [[]|].
  - done.
  - done.
  - unfold settled in *. destruct (String.eqb phase "prepared").
    + intros e He. rewrite <- (Hgoal e He). by apply (targets_kept (tree s1)).
    + intros e He. destruct (Hgoal e He) as (c & Hc' & Hd). exists c. split; [|done]. rewrite <- Hc'. by apply (targets_kept (tree s1)).
  - intros Htidy. destruct (Htd (Htidy1 Htidy)) as [-> ?]. done.
Qed.

(** ** Any faults *)

(** A write under the directories that are there touches, of the paths that are not named like a
    temporary file, its target only. *)
Definition wrote (target : path) (want : content -> Prop) (t : gmap path node) (o : outcome unit) (t' : gmap path node) : Prop :=
  (forall q, q ≠ target -> temporary_like q = false \/ t !! q ≠ None -> t' !! q = t !! q) /\
  ((exists e, o = Raise e) /\ t' !! target = t !! target \/ o = Ok tt /\ exists c, want c /\ t' !! target = Some (File c)).

Lemma replaced_wrote target want s o s' :
  Forall (fun q => tree s !! q = Some Dir) (prefixes (path_parent target)) -> replaced target want s o s' -> wrote target want (tree s) o (tree s').
Proof.
  intros Hd [H1 H2 H3]. split; [|done]. intros q Hq Hv. destruct (tree s !! q) as [n|] eqn:E; [by apply H2|]. destruct Hv as [Hv|]; [|done].
  destruct (tree s' !! q) as [n|] eqn:E'; [|done]. destruct (H3 q n Hq E E') as [[-> Hin]|(_ & _ & Ht & _)]; [|congruence].
  rewrite Forall_forall in Hd. apply Hd in Hin. congruence.
Qed.

(** The paths whose content matters are not named like temporary files. *)
Hypothesis visible : forall e, e ∈ es -> temporary_like (e_target e) = false.

Lemma wrote_housed target want t o t' :
  wrote target want t o t' -> t !! target ≠ Some Dir -> housed directory es t -> housed directory es t'.
Proof.
  intros [Hk Hc] Ht [H1 H2 H3].
  assert (Hd : forall q, t !! q = Some Dir -> t' !! q = Some Dir).
  { intros q Hq. rewrite Hk; [done|by intros ->|by right; rewrite Hq]. }
  split; [by eapply Forall_impl|intros e He; by eapply Forall_impl; [by apply H2|]|].
  intros e He. destruct (decide (e_target e = target)) as [<-|Hne].
  - destruct Hc as [[_ ->]|(_ & c & _ & ->)]; auto.
  - rewrite Hk; auto.
Qed.

Lemma roll_forward_entry_wrote e s o s' :
  e ∈ es -> housed directory es (tree s) -> roll_forward_entry temporary_middle cwd (entry_dict e) s = (o, s') ->
  (forall q, q ≠ e_target e -> temporary_like q = false \/ tree s !! q ≠ None -> tree s' !! q = tree s !! q) /\
  (tree s' !! e_target e = tree s !! e_target e \/ digest_at (tree s') (e_target e) (e_new e)) /\
  (o = Ok tt -> digest_at (tree s') (e_target e) (e_new e)).
Proof.
  intros He Hh. destruct (ly_clean _ _ Hl e He) as (C1 & C2 & C3). destruct (entry_dict_paths e C1 C2 C3) as (P1 & P2 & P3).
  unfold roll_forward_entry. rewrite P1, P2. change (item_text "staged_hash" (entry_dict e)) with (Ok (e_new e)). unfold pbind, lift, gets, reads, ret, throw.
  destruct (file_matches_hash (e_target e) (e_new e) (tree s)) eqn:Em.
  { intros [= <- <-]. apply digest_matches in Em. auto. }
  destruct (file_matches_hash (e_staged e) (e_new e) (tree s)) eqn:Es; cbn [negb].
  2: { intros [= <- <-]. split_and!; [done|by left|intros [=]]. }
  apply digest_matches in Es as (c & Hc & Hd). destruct (atomic_copy_file temporary_middle (e_staged e) (e_target e) s) as [o1 s1] eqn:E1.
  apply (atomic_copy_file_replaced _ _ _ _ _ _ c) in E1; [|done|done]. apply replaced_wrote in E1 as [Hk [[[e1 ->] Ht]|(-> & c' & -> & Ht)]]; [| |by apply Hh].
  - intros [= <- <-]. split_and!; [done|by left|intros [=]].
  - assert (Hnew : digest_at (tree s1) (e_target e) (e_new e)) by (by exists c).
    rewrite (digest_read _ _ _ Hnew), str_eqb_refl. intros [= <- <-]. auto.
Qed.

(** However far it gets, rolling forward leaves what rolling forward needs. *)
Lemma roll_forward_wrote s o s' :
  housed directory es (tree s) -> forward_ready (tree s) -> roll_forward temporary_middle cwd (entry_dict <$> es) s = (o, s') ->
  housed directory es (tree s') /\ forward_ready (tree s') /\
  (forall q, q ∉ e_target <$> es -> temporary_like q = false \/ tree s !! q ≠ None -> tree s' !! q = tree s !! q) /\ (o = Ok tt -> all_new (tree s')).
Proof.
  unfold roll_forward.
  assert (H : forall rest s, rest ⊆ es -> housed directory es (tree s) -> forward_ready (tree s) ->
    for_each (roll_forward_entry temporary_middle cwd) (entry_dict <$> rest) s = (o, s') ->
    housed directory es (tree s') /\ forward_ready (tree s') /\
    (forall q, q ∉ e_target <$> es -> temporary_like q = false \/ tree s !! q ≠ None -> tree s' !! q = tree s !! q) /\
    (o = Ok tt -> (forall e, e ∈ es -> digest_at (tree s) (e_target e) (e_new e) \/ e ∈ rest) -> all_new (tree s'))).
  2: { intros Hh Hr E. destruct (H es s) as (? & ? & ? & Hn); [done..|]. split_and!; auto. }
  clear s. induction rest as [|e rest IH]; intros s Hsub Hh Hr; csimpl.
  - intros [= <- <-]. split_and!; [done..|]. intros _ Hn e He. destruct (Hn e He) as [?|[]%elem_of_nil]. done.
  - assert (He : e ∈ es) by set_solver. unfold pbind at 1. destruct (roll_forward_entry _ _ _ s) as [o1 s1] eqn:E1.
    apply (roll_forward_entry_wrote e) in E1 as (Hk & Hc & Hok); [|done..].
    assert (Hcase : tree s1 !! e_target e = tree s !! e_target e \/ exists c, tree s1 !! e_target e = Some (File c)).
    { destruct Hc as [?|(c & ? & _)]; eauto. }
    assert (Hsame : forall e', e' ∈ es -> digest_at (tree s) (e_staged e') (e_new e') -> digest_at (tree s1) (e_staged e') (e_new e')).
    { intros e' He' (c & Hc' & Hd'). exists c. rewrite Hk; [done| |right; by rewrite Hc']. apply target_not_inside; [done|]. by apply (ly_inside _ _ Hl). }
    assert (Htgt : forall e', e' ∈ es -> digest_at (tree s) (e_target e') (e_new e') -> digest_at (tree s1) (e_target e') (e_new e')).
    { intros e' He' Hd'. destruct (decide (e_target e' = e_target e)) as [Hx|Hx].
      - assert (e' = e) as -> by (by apply (NoDup_fmap_eq e_target es); [apply (ly_targets _ _ Hl)|..]). destruct Hc as [Hs|?]; [|done].
        destruct Hd' as (c & ? & ?). exists c. by rewrite Hs.
      - destruct Hd' as (c & ? & ?). exists c. rewrite Hk; auto. }
    assert (Hr1 : forward_ready (tree s1)) by (intros e' He'; destruct (Hr e' He'); auto).
    assert (Hh1 : housed directory es (tree s1)).
    { destruct Hcase as [Hs|[c Hs]].
      - apply (wrote_housed (e_target e) (fun _ => True) (tree s) (Raise os_error)); [|by apply Hh|done]. split; [done|left; eauto].
      - apply (wrote_housed (e_target e) (fun _ => True) (tree s) (Ok tt)); [|by apply Hh|done]. split; [done|right; eauto]. }
    assert (Hk1 : forall q, q ∉ e_target <$> es -> temporary_like q = false \/ tree s !! q ≠ None -> tree s1 !! q = tree s !! q).
    { intros q Hq. apply Hk. intros ->. apply Hq. by apply list_elem_of_fmap_2. }
    destruct o1 as [[]|ex].
    + intros E. destruct (IH s1) as (Ha & Hb & Hc' & Hd); [set_solver|done..|]. split_and!; [done..| |].
      * intros q Hq Hv. rewrite Hc'; [by apply Hk1|done|]. rewrite Hk1 by done. done.
      * intros Ho Hn. apply Hd; [done|]. intros e' He'. destruct (Hn e' He') as [?|[->|?]%elem_of_cons]; [left; auto|left; auto|by right].
    + intros [= <- <-]. split_and!; [done..|]. intros [=].
Qed.

Lemma deleted_or_same (p q : path) (t t' : gmap path node) : t' = t \/ t' = delete p t -> t' !! q = t !! q \/ q = p /\ t' !! q = None.
Proof.
  intros [->| ->]; [by left|]. destruct (decide (q = p)) as [->|Hq]; [right; split; [done|apply lookup_delete_eq]|left; by apply lookup_delete_ne].
Qed.

Lemma unlinks_wrote l s o s' : for_each unlink l s = (o, s') -> forall q, tree s' !! q = tree s !! q \/ q ∈ l /\ tree s' !! q = None.
Proof.
  revert s. induction l as [|p l IH]; intros s; [by intros [= <- <-]; left|]. simpl. unfold pbind. destruct (unlink p s) as [o1 s1] eqn:E1.
  assert (H1 : forall q, tree s1 !! q = tree s !! q \/ q = p /\ tree s1 !! q = None).
  { intros q. apply primitive_cases in E1 as [(e & _ & ->)|E1]; [by left|]. unfold unlink_tree in E1.
    assert (Hs : tree s1 = tree s \/ tree s1 = delete p (tree s)) by (repeat case_match; simplify_eq; auto).
    by apply deleted_or_same. }
  destruct o1 as [[]|e].
  - intros E q. destruct (IH _ E q) as [Hq|[Hin Hq]].
    + destruct (H1 q) as [Hq'|[-> Hq']]; [left; congruence|right; split; [left|congruence]].
    + right. split; [by right|done].
  - intros [= <- <-] q. destruct (H1 q) as [?|[-> ?]]; [by left|right; split; [left|done]].
Qed.

Lemma rmdir_wrote p s o s' : rmdir p s = (o, s') -> forall q, tree s' !! q = tree s !! q \/ q = p /\ tree s' !! q = None.
Proof.
  intros [(e & _ & ->)|E]%primitive_cases q; [by left|]. unfold rmdir_tree in E.
  assert (Hs : tree s' = tree s \/ tree s' = delete p (tree s)) by (repeat case_match; simplify_eq; auto).
  by apply deleted_or_same.
Qed.

(** The clean-up removes files of the transaction, and the directory after the journal. *)
Lemma discard_wrote s o s' :
  directory ≠ [] -> discard_transaction cwd directory (entry_dict <$> es) s = (o, s') ->
  (forall q, q ∉ discarded -> q ≠ directory -> tree s' !! q = tree s !! q) /\
  (tree s' !! recovery_journal directory = None \/
   tree s' !! recovery_journal directory = tree s !! recovery_journal directory /\ tree s' !! directory = tree s !! directory /\
   (exists e, o = Raise e) /\ forall q, q ∈ discarded -> tree s' !! q = tree s !! q \/ tree s' !! q = None).
Proof.
  intros Hne. unfold discard_transaction. unfold pbind at 1. rewrite discard_entries_unlink.
  destruct (for_each unlink (es ≫= fun e => [e_staged e; e_backup e]) s) as [o1 s1] eqn:E1. pose proof (unlinks_wrote _ _ _ _ E1) as H1.
  assert (Hd : directory ∉ discarded) by (intros Hp%discarded_inside; by apply (parent_ne directory)).
  assert (Hin : forall q, q ∈ (es ≫= fun e => [e_staged e; e_backup e]) -> q ∈ discarded) by (intros q Hq; unfold discarded; apply elem_of_app; by left).
  assert (Hkeep : forall q, q ∉ discarded -> tree s1 !! q = tree s !! q).
  { intros q Hq. destruct (H1 q) as [?|[?%Hin _]]; done. }
  assert (Hgone : forall q, tree s1 !! q = tree s !! q \/ tree s1 !! q = None) by (intros q; destruct (H1 q) as [?|[_ ?]]; auto).
  assert (Hjr : recovery_journal directory ∈ discarded) by (unfold discarded; set_solver).
  destruct o1 as [[]|e1].
  2: { intros [= <- <-]. split; [auto|]. destruct (Hgone (recovery_journal directory)) as [Hj|?]; [|by left]. right. split_and!; eauto. }
  unfold pbind. destruct (unlink (recovery_journal directory) s1) as [o2 s2] eqn:E2.
  assert (H2 : forall q, tree s2 !! q = tree s1 !! q \/ q = recovery_journal directory /\ tree s2 !! q = None).
  { intros q. destruct (unlinks_wrote [recovery_journal directory] s1 (match o2 with Ok _ => Ok tt | Raise e => Raise e end) s2) with (q := q) as [?|[Hq ?]];
      [simpl; unfold pbind; rewrite E2; by destruct o2 as [[]|]|by left|apply list_elem_of_singleton in Hq; by right]. }
  assert (Hkeep2 : forall q, q ∉ discarded -> tree s2 !! q = tree s !! q).
  { intros q Hq. destruct (H2 q) as [->|[-> _]]; [by apply Hkeep|done]. }
  destruct o2 as [[]|e2].
  - assert (Hj2 : tree s2 !! recovery_journal directory = None).
    { apply primitive_cases in E2 as [(e & [=] & _)|E2]. unfold unlink_tree in E2. destruct (tree s1 !! recovery_journal directory) as [[c|]|] eqn:Ej; try done;
        injection E2 as <-; apply lookup_delete_eq. }
    intros E3. pose proof (rmdir_wrote _ _ _ _ E3) as H3. split.
    + intros q Hq Hqd. destruct (H3 q) as [->|[-> _]]; [auto|done].
    + left. destruct (H3 (recovery_journal directory)) as [->|[_ ?]]; done.
  - intros [= <- <-]. split; [auto|]. destruct (H2 (recovery_journal directory)) as [Hj|[_ ?]]; [|by left].
    destruct (Hgone (recovery_journal directory)) as [Hj'|?]; [|left; congruence]. right. split_and!; [congruence|auto|eauto|].
    intros q Hq. destruct (H2 q) as [->|[_ ?]]; auto.
Qed.
End Entries.

(** ** A transaction that is killed *)

(** The whole of [commit_replacements] but its handler, which a killed process does not run. *)
Definition attempt (replacements : list (path * path)) : PyM FsState unit :=
  entries <- prepare_transaction temporary_middle directory stem replacements;;
  advance_journal temporary_middle cwd directory stem entries None;;
  discard_transaction cwd directory entries.

Section Killed.
Context (t0 : gmap path node).

Definition entry_at (index : nat) (r : path * path) : Entry :=
  {| e_target := r.1; e_staged := r.2; e_backup := backup_of directory index; e_existed := is_file r.1 t0;
     e_original := if is_file r.1 t0 then file_content_hash r.1 t0 else []; e_new := file_content_hash r.2 t0 |}.
Fixpoint entries_at (index : nat) (l : list (path * path)) : list Entry :=
  match l with [] => [] | r :: rest => entry_at index r :: entries_at (S index) rest end.

Lemma entries_at_backup index l e : e ∈ entries_at index l -> exists j, (index <= j)%nat /\ e_backup e = backup_of directory j.
Proof.
  revert index. induction l as [|r l IH]; intros index; simpl; [by intros ?%elem_of_nil|]. intros [->|(j & ? & ?)%IH]%elem_of_cons; [by exists index|].
  exists j. split; [lia|done].
Qed.

Lemma entries_at_entry index l e : e ∈ entries_at index l -> exists i r, e = entry_at i r.
Proof.
  revert index. induction l as [|r l IH]; intros index; simpl; [by intros ?%elem_of_nil|]. intros [->|?%IH]%elem_of_cons; eauto.
Qed.

Lemma backup_of_inj i j : backup_of directory i = backup_of directory j -> i = j.
Proof.
  unfold backup_of, child. intros H%(inj (app directory)). injection H as H. apply (inj (fun x => x ++ u ".backup")) in H.
  apply zero_pad_inj in H; lia.
Qed.

Lemma backup_visible i : temporary_like (backup_of directory i) = false.
Proof.
  unfold temporary_like, backup_of. rewrite path_name_child. pose proof (zero_pad_not_dot 3 (Z.of_nat i) (u ".backup")) as Hd.
  destruct (zero_pad 3 (Z.of_nat i) ++ u ".backup") as [|c ds]; [done|]. unfold startswith. cbn [u strip_prefix].
  change (strip_prefix (u ".") (c :: ds)) with (if (46 =? c)%N then Some ds else None). destruct (N.eqb_spec 46 c) as [<-|]; [|done].
  by destruct (Hd ds); [lia|].
Qed.

Context (replacements : list (path * path)).
Let es := entries_at 0 (merge_sort by_target replacements).
Context (Hl : layout directory es) (Hne : directory ≠ []) (Hh : housed directory es t0).
Hypothesis staged_there : forall e, e ∈ es -> is_file (e_staged e) t0 = true.
Hypothesis nothing_prepared : t0 !! recovery_journal directory = None.
Hypothesis no_directories : forall e, e ∈ es -> t0 !! e_backup e ≠ Some Dir.
Hypothesis visible : forall e, e ∈ es -> temporary_like (e_target e) = false /\ temporary_like (e_staged e) = false.

(** The targets and the staged files are as they were. *)
Definition sources_same (t : gmap path node) : Prop := forall e, e ∈ es -> t !! e_target e = t0 !! e_target e /\ t !! e_staged e = t0 !! e_staged e.

Lemma backup_entry_wrote index r s o s' :
  entry_at index r ∈ es -> sources_same (tree s) -> backup_entry directory index r.1 r.2 s = (o, s') ->
  (forall q, q ≠ backup_of directory index \/ tree s !! q = Some Dir -> tree s' !! q = tree s !! q) /\
  (tree s !! backup_of directory index ≠ Some Dir -> tree s' !! backup_of directory index ≠ Some Dir) /\
  (forall d, o = Ok d -> d = entry_dict (entry_at index r) /\
     (is_file r.1 t0 = true -> tree s' !! backup_of directory index = t0 !! r.1)).
Proof.
  intros He Hs. destruct (Hs _ He) as [Ht Hst]. pose proof (staged_there _ He) as Hf. cbn [entry_at e_target e_staged e_backup] in *.
  destruct r as [target staged]. cbn [fst snd] in *. unfold is_file in Hf. rewrite <- Hst in Hf.
  destruct (tree s !! staged) as [[cs|]|] eqn:Es; try done.
  unfold backup_entry, pbind, gets, reads, ret, throw, sha256_file, read_bytes, is_file. rewrite Es. cbn [negb]. rewrite Ht.
  assert (Hentry : forall x h, x = is_file target t0 -> h = (if is_file target t0 then file_content_hash target t0 else []) ->
    [(u "target", VStr (path_str target)); (u "staged", VStr (path_str staged)); (u "backup", VStr (path_str (backup_of directory index)));
     (u "existed", VBool x); (u "original_hash", VStr h); (u "staged_hash", VStr (sha256_hexdigest (content_bytes cs)))] = entry_dict (entry_at index (target, staged))).
  { intros x h -> ->. unfold entry_dict, entry_at. cbn [fst snd e_target e_staged e_backup e_existed e_original e_new]. assert (Hnew : file_content_hash staged t0 = sha256_hexdigest (content_bytes cs)) by (unfold file_content_hash; by rewrite <- Hst). by rewrite Hnew. }
  destruct (t0 !! target) as [[ct|]|] eqn:Et.
  2,3: rewrite Es; simpl; intros [= <- <-]; (split_and!; [done..|]); intros d [= <-]; (split; [apply Hentry; unfold is_file; by rewrite Et|done]).
  destruct (copy_file target (backup_of directory index) s) as [o1 s1] eqn:E1.
  assert (H1 : (exists e, o1 = Raise e) /\ tree s1 = tree s \/ o1 = Ok tt /\ tree s !! backup_of directory index ≠ Some Dir /\ tree s1 = <[backup_of directory index := File ct]> (tree s)).
  { apply primitive_cases in E1 as [(e & -> & ->)|E1]; [left; eauto|]. unfold copy_tree in E1. rewrite Ht in E1.
    apply write_tree_cases in E1 as [(e & -> & ->)|(-> & _ & ? & ->)]; [left; eauto|by right]. }
  destruct H1 as [[[e ->] Hs1]|(-> & Hnd & Hs1)].
  { intros [= <- <-]. rewrite Hs1. split_and!; [done..|intros d [=]]. }
  assert (Ho : forall q, q ≠ backup_of directory index -> tree s1 !! q = tree s !! q) by (intros q Hq; rewrite Hs1; by apply lookup_insert_ne).
  rewrite (Ho target), (Ho staged), Ht, Es.
  2: { intros E. by apply (ly_backups _ _ Hl _ _ He He). }
  2: { intros E. apply (target_not_inside _ Hl _ (backup_of directory index) He); [apply path_parent_child|]. done. }
  simpl. intros [= <- <-]. split_and!.
  - intros q [Hq|Hq]; [by apply Ho|]. apply Ho. by intros ->.
  - intros _. by rewrite Hs1, lookup_insert_eq.
  - intros d [= <-]. split; [|intros _; by rewrite Hs1, lookup_insert_eq]. apply Hentry; unfold is_file, file_content_hash; by rewrite Et.
Qed.

Lemma backup_not_source j e : e ∈ es -> backup_of directory j ≠ e_target e.
Proof. intros He. apply (target_not_inside _ Hl); [done|apply path_parent_child]. Qed.

Lemma backup_entries_wrote index l s o s' :
  (forall e, e ∈ entries_at index l -> e ∈ es) -> sources_same (tree s) -> backup_entries directory index l s = (o, s') ->
  (forall q, q ∉ e_backup <$> entries_at index l \/ tree s !! q = Some Dir -> tree s' !! q = tree s !! q) /\
  (forall q, tree s !! q ≠ Some Dir -> tree s' !! q ≠ Some Dir) /\
  (forall ds, o = Ok ds -> ds = entry_dict <$> entries_at index l /\
     forall e, e ∈ entries_at index l -> e_existed e = true -> tree s' !! e_backup e = t0 !! e_target e).
Proof.
  revert index s o s'. induction l as [|r l IH]; intros index s o s' Hin Hs; cbn [backup_entries].
  { intros [= <- <-]. split_and!; [done..|]. intros ds [= <-]. split; [done|by intros e ?%elem_of_nil]. }
  destruct r as [target staged]. unfold pbind at 1. destruct (backup_entry directory index target staged s) as [o1 s1] eqn:E1.
  apply (backup_entry_wrote index (target, staged)) in E1 as (Hk & Hd & Hok); [|apply Hin; left|done].
  assert (Hk1 : forall q, q ∉ e_backup <$> entries_at index ((target, staged) :: l) \/ tree s !! q = Some Dir -> tree s1 !! q = tree s !! q).
  { intros q [Hq|Hq]; apply Hk; [left|by right]. intros ->. apply Hq. csimpl. left. }
  assert (Hd1 : forall q, tree s !! q ≠ Some Dir -> tree s1 !! q ≠ Some Dir).
  { intros q Hq. destruct (decide (q = backup_of directory index)) as [->|Hx]; [auto|]. rewrite Hk; auto. }
  destruct o1 as [d|ex]; [|intros [= <- <-]; split_and!; [done..|intros ds [=]]].
  assert (Hs1 : sources_same (tree s1)).
  { intros e He. destruct (Hs e He) as [<- <-]. split; apply Hk; left; [intros E; by apply (backup_not_source index e)|].
    intros E. apply (ly_backups _ _ Hl (entry_at index (target, staged)) e); [apply Hin; left|done|done]. }
  unfold pbind. destruct (backup_entries directory (S index) l s1) as [o2 s2] eqn:E2.
  apply IH in E2 as (Hk2 & Hd2 & Hok2); [|intros e He; apply Hin; by right|done].
  assert (Ha : forall q, q ∉ e_backup <$> entries_at index ((target, staged) :: l) \/ tree s !! q = Some Dir -> tree s2 !! q = tree s !! q).
  { intros q Hq. rewrite <- Hk1 by done. apply Hk2. rewrite (Hk1 q Hq). destruct Hq as [Hq|Hq]; [left|by right]. csimpl in Hq. set_solver. }
  destruct o2 as [es2|ex]; intros [= <- <-]; (split_and!; [done|auto|]); [|intros ds [=]].
  intros ds [= <-]. destruct (Hok d eq_refl) as [-> Hb]. destruct (Hok2 es2 eq_refl) as [-> Hb2]. split; [done|].
  intros e [->|He]%elem_of_cons He'; [|auto]. specialize (Hb He'); cbn [fst] in Hb; cbn [entry_at e_target e_backup fst]; rewrite <- Hb. apply Hk2. left. intros (e' & E & (j & Hj & Hej)%entries_at_backup)%list_elem_of_fmap.
  cbn [entry_at e_backup] in E. rewrite Hej in E. apply backup_of_inj in E. lia.
Qed.

(** ** What a killed attempt leaves *)

Definition clear (t : gmap path node) : Prop := t !! recovery_journal directory = None /\ (all_old es t0 t \/ all_new es t).
Definition sound (t : gmap path node) : Prop := housed directory es t /\ forall p, p ∈ discarded es -> t !! p ≠ Some Dir.
Definition resumable (t : gmap path node) : Prop := sound t /\ exists phase, recoverable es phase t0 t.
Definition prepared (t : gmap path node) : Prop := sound t /\ sources_same t /\ back_ready es t0 t /\ journal_phase es t "prepared".

Lemma target_visible e : e ∈ es -> temporary_like (e_target e) = false.
Proof. intros He. by apply visible. Qed.

Lemma discarded_visible p : p ∈ discarded es -> temporary_like p = false.
Proof.
  unfold discarded. rewrite elem_of_app, list_elem_of_bind, list_elem_of_singleton. intros [(e & Hp & He)| ->].
  - apply elem_of_cons in Hp as [->|Hp%list_elem_of_singleton]; [by apply visible|]. subst p.
    apply entries_at_backup in He as (j & _ & ->). apply backup_visible.
  - unfold temporary_like, recovery_journal. by rewrite path_name_child.
Qed.

Lemma journal_discarded : recovery_journal directory ∈ discarded es.
Proof. unfold discarded. apply elem_of_app. right. by left. Qed.

(** Writing the journal. *)
Lemma journal_wrote phase s o s' :
  sound (tree s) -> write_recovery_journal temporary_middle (recovery_journal directory) (journal_at stem (entry_dict <$> es) phase) s = (o, s') ->
  sound (tree s') /\ (forall q, q ≠ recovery_journal directory -> temporary_like q = false -> tree s' !! q = tree s !! q) /\
  ((exists e, o = Raise e) /\ tree s' !! recovery_journal directory = tree s !! recovery_journal directory \/ o = Ok tt /\ journal_phase es (tree s') phase).
Proof.
  intros [H1 H2] E. apply atomic_write_json_replaced in E; [|done]. apply replaced_wrote in E as Hw.
  2: { unfold recovery_journal. rewrite path_parent_child. by apply H1. }
  assert (Hh' : housed directory es (tree s')).
  { apply (wrote_housed es target_visible _ _ _ _ _ Hw); [|done]. apply H2, journal_discarded. }
  destruct Hw as [Hk Hc]. split_and!; [split; [done|]|auto|].
  - intros p Hp. destruct (decide (p = recovery_journal directory)) as [->|Hpj].
    + destruct Hc as [[_ ->]|(_ & c & _ & ->)]; [|done]. by apply H2.
    + rewrite Hk; [by apply H2|done|left; by apply discarded_visible].
  - destruct Hc as [?|(-> & c & -> & Hj)]; [by left|by right].
Qed.

Lemma sources_visible_same (t t' : gmap path node) : (forall q, q ≠ recovery_journal directory -> temporary_like q = false -> t' !! q = t !! q) ->
  (forall e, e ∈ es -> t' !! e_target e = t !! e_target e /\ t' !! e_staged e = t !! e_staged e /\ t' !! e_backup e = t !! e_backup e).
Proof.
  intros Hk e He. assert (Hb : e_backup e ∈ discarded es) by (unfold discarded; apply elem_of_app; left; apply list_elem_of_bind; exists e; set_solver).
  split_and!; apply Hk.
  - intros E. apply (target_not_inside _ Hl e (recovery_journal directory) He); [apply path_parent_child|done].
  - by apply visible.
  - by apply (ly_journal _ _ Hl).
  - by apply visible.
  - by apply (ly_journal _ _ Hl).
  - by apply discarded_visible.
Qed.

Lemma prepare_leaves s o s' :
  tree s = t0 -> prepare_transaction temporary_middle directory stem replacements s = (o, s') ->
  (exists e, o = Raise e) /\ clear (tree s') \/ o = Ok (entry_dict <$> es) /\ prepared (tree s').
Proof.
  intros Et. assert (Hclear0 : clear t0) by (split; [done|by left]).
  unfold prepare_transaction, pbind at 1, lift. destruct (raise_if _ _) as [[]|e0]; [|intros [= <- <-]; left; rewrite Et; eauto].
  unfold pbind at 1. destruct (mkdir directory s) as [o1 s1] eqn:E1.
  assert (Ht1 : tree s1 = t0).
  { apply primitive_cases in E1 as [(e & _ & ->)|E1]; [done|]. rewrite mkdirs_all_dirs in E1 by (rewrite Et; apply Hh). congruence. }
  destruct o1 as [[]|e1]; [|intros [= <- <-]; left; rewrite Ht1; eauto].
  unfold pbind at 1, gets. unfold path_exists. rewrite Ht1, nothing_prepared.
  replace (bool_decide (recovery_journal directory = [])) with false by (symmetry; apply bool_decide_eq_false; unfold recovery_journal, child; by destruct directory).
  unfold pbind at 1. cbn [raise_if]. unfold pbind at 1. destruct (backup_entries directory 0 _ s1) as [o2 s2] eqn:E2.
  apply backup_entries_wrote in E2 as (Hk & Hd & Hok); [|done|by rewrite Ht1]. rewrite Ht1 in Hk, Hd. fold es in Hk, Hok.
  assert (Hsame : forall q, path_parent q ≠ directory -> tree s2 !! q = t0 !! q).
  { intros q Hq. apply Hk. left. intros (e & -> & He)%list_elem_of_fmap. apply Hq. by apply (ly_inside _ _ Hl). }
  assert (Hj2 : tree s2 !! recovery_journal directory = None).
  { rewrite Hk; [done|]. left. intros (e & E & He)%list_elem_of_fmap. by apply (ly_journal _ _ Hl) in He as [_ ?]. }
  destruct o2 as [ds|e2].
  2: { intros [= <- <-]. left. split; [eauto|]. split; [done|]. left. intros e He. apply Hsame. by apply (ly_outside _ _ Hl). }
  destruct (Hok ds eq_refl) as [-> Hb]. fold es.
  assert (Hs2 : sources_same (tree s2)).
  { intros e He. split; [apply Hsame; by apply (ly_outside _ _ Hl)|]. apply Hk. left. intros (e' & E & He')%list_elem_of_fmap. by apply (ly_backups _ _ Hl e' e). }
  assert (Hsound : sound (tree s2)).
  { split.
    - assert (Hdir : forall q, t0 !! q = Some Dir -> tree s2 !! q = Some Dir) by (intros q Hq; rewrite Hk; auto). destruct Hh as [A1 A2 A3].
      split; [by eapply Forall_impl|intros e He; eapply Forall_impl; [by apply A2|done]|]. intros e He. rewrite (proj1 (Hs2 e He)). by apply A3.
    - intros p. unfold discarded. rewrite elem_of_app, list_elem_of_bind, list_elem_of_singleton. intros [(e & Hp & He)| ->]; [|by rewrite Hj2].
      apply elem_of_cons in Hp as [->|Hp%list_elem_of_singleton].
      + rewrite (proj2 (Hs2 e He)). specialize (staged_there e He). unfold is_file in staged_there. by destruct (t0 !! e_staged e) as [[]|].
      + subst p. apply Hd. by apply no_directories. }
  unfold pbind, ret. destruct (write_recovery_journal _ _ _ s2) as [o3 s3] eqn:E3. apply journal_wrote in E3 as (Hsound3 & Hk3 & Hcase); [|done].
  pose proof (sources_visible_same _ _ Hk3) as Hv.
  destruct Hcase as [[[e ->] Hj3]|[-> Hj3]]; intros [= <- <-]; [left|right].
  - split; [eauto|]. split; [congruence|]. left. intros e' He'. rewrite (proj1 (Hv e' He')). by apply Hs2.
  - split; [done|]. split_and!; [done| | |done].
    + intros e He. destruct (Hv e He) as (-> & -> & _). by apply Hs2.
    + intros e He. destruct (Hv e He) as (_ & _ & ->). destruct (e_existed e) eqn:Ee.
      * rewrite (Hb e He Ee). assert (Hr : exists i r, e = entry_at i r) by (by eapply entries_at_entry). destruct Hr as (i & r & ->).
        cbn [entry_at e_existed e_target e_original] in *. rewrite Ee. unfold is_file, file_content_hash in *. destruct (t0 !! r.1) as [[c|]|]; try done. by exists c.
      * assert (Hr : exists i r, e = entry_at i r) by (by eapply entries_at_entry). destruct Hr as (i & r & ->).
        pose proof (hs_targets _ _ _ Hh _ He) as Hnd. cbn [entry_at e_existed e_target] in *. unfold is_file in Ee. by destruct (t0 !! r.1) as [[c|]|].
Qed.

(** Committing leaves a journal to resume, at whatever step it stops. *)
Lemma advance_leaves s o s' :
  prepared (tree s) -> advance_journal temporary_middle cwd directory stem (entry_dict <$> es) None s = (o, s') ->
  resumable (tree s') /\ (o = Ok tt -> sound (tree s') /\ journal_phase es (tree s') "committed" /\ all_new es (tree s')).
Proof.
  intros (Hs & Hsrc & Hb & Hj). unfold advance_journal. unfold pbind at 1, ret. unfold pbind at 1.
  destruct (write_recovery_journal _ _ (journal_at _ _ "committing") s) as [o1 s1] eqn:E1. apply journal_wrote in E1 as (Hs1 & Hk1 & Hc1); [|done].
  pose proof (sources_visible_same _ _ Hk1) as Hv1. destruct Hc1 as [[[e ->] Hj1]|[-> Hj1]].
  { intros [= <- <-]. split; [|intros [=]]. split; [done|]. exists "prepared". split; [unfold journal_phase; congruence|]. left. split; [done|].
    intros e' He'. specialize (Hb e' He'). destruct (Hv1 e' He') as (_ & _ & ->). done. }
  assert (Hf1 : forward_ready es (tree s1)).
  { intros e He. right. destruct (Hv1 e He) as (_ & Hst & _). unfold digest_at. rewrite Hst, (proj2 (Hsrc e He)).
    specialize (staged_there e He). assert (Hr : exists i r, e = entry_at i r) by (by eapply entries_at_entry). destruct Hr as (i & r & ->).
    cbn [entry_at e_staged e_new] in *. unfold is_file, file_content_hash in *. destruct (t0 !! r.2) as [[c|]|]; try done. by exists c. }
  unfold pbind at 1. destruct (roll_forward _ _ _ s1) as [o2 s2] eqn:E2.
  apply (roll_forward_wrote es Hl target_visible) in E2 as (Hh2 & Hf2 & Hk2 & Hn2); [|by apply Hs1|done].
  assert (Hin : forall p, p ∈ discarded es -> tree s2 !! p = tree s1 !! p).
  { intros p Hp. apply Hk2; [|left; by apply discarded_visible]. intros (e & E & He)%list_elem_of_fmap. apply (discarded_inside es Hl) in Hp. by apply (target_not_inside es Hl e p He). }
  assert (Hs2 : sound (tree s2)) by (split; [done|]; intros p Hp; rewrite Hin by done; by apply Hs1).
  assert (Hj2 : journal_phase es (tree s2) "committing") by (unfold journal_phase; rewrite Hin by apply journal_discarded; done).
  destruct o2 as [[]|e2].
  2: { intros [= <- <-]. split; [|intros [=]]. split; [done|]. exists "committing". split; [done|]. right. split; [by left|done]. }
  destruct (write_recovery_journal _ _ (journal_at _ _ "committed") s2) as [o3 s3] eqn:E3. apply journal_wrote in E3 as (Hs3 & Hk3 & Hc3); [|done].
  assert (Hn3 : all_new es (tree s3)).
  { intros e He. destruct (Hn2 eq_refl e He) as (c & Hc & Hd). exists c. split; [|done]. by rewrite (proj1 (sources_visible_same _ _ Hk3 e He)). }
  assert (Hf3 : forward_ready es (tree s3)) by (intros e He; left; by apply Hn3).
  intros [= <- <-]. split.
  - split; [done|]. destruct Hc3 as [[_ Hj3]|[_ Hj3]]; [exists "committing"|exists "committed"]; (split; [|right; split; [auto|done]]); [|done].
    unfold journal_phase in *. congruence.
  - intros ->. destruct Hc3 as [[[e [=]] _]|[_ ?]]. done.
Qed.

(** Wherever the attempt is killed, it leaves tables that are all as before or all repaired and no
    journal, or a journal to resume; if it returns they are all repaired. *)
Lemma attempt_leaves s o s' :
  tree s = t0 -> attempt replacements s = (o, s') ->
  (clear (tree s') \/ resumable (tree s')) /\ (o = Ok tt -> tree s' !! recovery_journal directory = None /\ all_new es (tree s')).
Proof.
  intros Et. unfold attempt. unfold pbind at 1. destruct (prepare_transaction _ _ _ _ s) as [o1 s1] eqn:E1.
  apply prepare_leaves in E1 as [[[e ->] Hc]|[-> Hp]]; [intros [= <- <-]; split; [by left|intros [=]]| |done].
  unfold pbind. destruct (advance_journal _ _ _ _ _ None s1) as [o2 s2] eqn:E2. apply advance_leaves in E2 as [Hr Hok]; [|done].
  destruct o2 as [[]|e2]; [|intros [= <- <-]; split; [by right|intros [=]]].
  destruct (Hok eq_refl) as ([Hh2 Hf2] & Hj2 & Hn2). destruct (discard_transaction _ _ _ s2) as [o3 s3] eqn:E3.
  apply (discard_wrote es Hl) in E3 as [Hk Hcase]; [|exact target_visible|done].
  assert (Hn3 : all_new es (tree s3)).
  { intros e He. destruct (Hn2 e He) as (c & Hc & Hd). exists c. split; [|done]. by rewrite (targets_kept es Hl _ _ Hk e He). }
  intros [= <- <-]. destruct Hcase as [Hj3|(Hj3 & Hd3 & [e ->] & Hfile)]; [split; [left; split; auto|by split]|]. split; [|intros [=]]. right. split.
  - assert (Hdir : forall q, tree s2 !! q = Some Dir -> tree s3 !! q = Some Dir).
    { intros q Hq. destruct (decide (q = directory)) as [->|]; [congruence|]. rewrite Hk; [done| |done]. intros Hin. by apply (Hf2 q Hin). }
    destruct Hh2 as [A1 A2 A3]. split; [split|].
    + by eapply Forall_impl.
    + intros e' He'. eapply Forall_impl; [by apply A2|done].
    + intros e' He'. destruct (Hn3 e' He') as (c & -> & _). done.
    + intros p Hpin. destruct (Hfile p Hpin) as [->| ->]; [by apply Hf2|done].
  - exists "committed". split; [unfold journal_phase in *; congruence|]. right. split; [by right|]. intros e' He'. left. by apply Hn3.
Qed.

Lemma killed_attempt_recovers s o s1 s2 :
  tree s = t0 -> attempt replacements s = (o, s1) -> calm s2 -> tree s2 = tree s1 ->
  exists o' s3, recover_transaction_directory temporary_middle cwd directory s2 = (o', s3) /\
    tree s3 !! recovery_journal directory = None /\ (all_old es t0 (tree s3) \/ all_new es (tree s3)) /\ (o = Ok tt -> all_new es (tree s3)).
Proof.
  intros Et E Hc E2. apply attempt_leaves in E as [Hcase Hok]; [|done].
  assert (Hnone : tree s1 !! recovery_journal directory = None -> recover_transaction_directory temporary_middle cwd directory s2 = (Ok None, s2)).
  { intros Hj. unfold recover_transaction_directory, pbind at 1, gets, is_file. by rewrite E2, Hj. }
  destruct Hcase as [[Hj Hall]|[[Hh2 Hf2] [phase Hr]]].
  - exists (Ok None), s2. rewrite E2. split_and!; [auto|done|done|]. intros Ho. by apply Hok.
  - destruct (recovery_calm es Hl phase t0 s2) as (o' & s3 & E3 & _ & Hj3 & Hset & _); [done|done|by rewrite E2..|].
    exists o', s3. split_and!; [done|done| |].
    + unfold settled in Hset. destruct (String.eqb phase "prepared"); auto.
    + intros Ho. destruct (Hok Ho) as [Hj _]. destruct Hr as [Hp _]. unfold journal_phase in Hp. congruence.
Qed.

Lemma entries_at_replacement index l r : r ∈ l -> exists j, entry_at j r ∈ entries_at index l.
Proof.
  revert index. induction l as [|r' l IH]; intros index; simpl; [by intros ?%elem_of_nil|]. intros [->|[j Hj]%(IH (S index))]%elem_of_cons; [exists index; left|].
  exists j. by right.
Qed.

Lemma replacement_entry r : r ∈ replacements -> exists j, entry_at j r ∈ es.
Proof. intros Hr. apply entries_at_replacement. by rewrite merge_sort_Permutation. Qed.
End Killed.
End Recovery.

(** * The repair of a region *)

(** What the staging of a repair has left: the transaction directory with the staged files and no
    journal, next to the targets, whose directories are there. *)
Record repair_staged `{Runtime} `{FileFormats} (directory : path) (replacements : list (path * path)) (t : gmap path node) : Prop := {
  rs_directory : directory ≠ [];
  rs_layout : layout directory (entries_at directory t 0 (merge_sort by_target replacements));
  rs_housed : housed directory (entries_at directory t 0 (merge_sort by_target replacements)) t;
  rs_staged : forall r, r ∈ replacements -> is_file r.2 t = true;
  rs_unprepared : t !! recovery_journal directory = None;
  rs_backups : forall i, t !! backup_of directory i ≠ Some Dir;
  rs_visible : forall r, r ∈ replacements -> temporary_like r.1 = false /\ temporary_like r.2 = false }.

Section RepairTheorems.
Context {RT : Runtime} {FF : FileFormats}.

(** Every target of the replacements as it was; or with the content of its staged file. *)
Definition none_replaced (replacements : list (path * path)) (t t' : gmap path node) : Prop :=
  forall r, r ∈ replacements -> t' !! r.1 = t !! r.1.
Definition all_replaced (replacements : list (path * path)) (t t' : gmap path node) : Prop :=
  forall r, r ∈ replacements -> file_matches_hash r.1 (file_content_hash r.2 t) t' = true.

Lemma entry_replacement directory t index l e : e ∈ entries_at directory t index l -> exists r j, r ∈ l /\ e = entry_at directory t j r.
Proof.
  revert index. induction l as [|r l IH]; intros index; simpl; [by intros ?%elem_of_nil|]. intros [->|(r' & j & ? & ->)%IH]%elem_of_cons; [exists r, index|exists r', j]; set_solver.
Qed.

Lemma repair_staged_entries directory replacements t e :
  repair_staged directory replacements t -> e ∈ entries_at directory t 0 (merge_sort by_target replacements) ->
  is_file (e_staged e) t = true /\ t !! e_backup e ≠ Some Dir /\ temporary_like (e_target e) = false /\ temporary_like (e_staged e) = false.
Proof.
  intros H (r & j & Hr & ->)%entry_replacement. rewrite merge_sort_Permutation in Hr. cbn [entry_at e_staged e_backup e_target].
  split_and!; [by apply H|by apply H|by apply H|by apply H].
Qed.

(** C22: A killed repair recovers.  Whatever primitive the commit of a staged repair is killed at,
    and whatever it then leaves, the next recovery without faults removes the journal and leaves
    every table of the region as it was before the repair or every one of them repaired, never a
    mixture; when the commit had returned they are the repaired ones. *)
Theorem killed_repair_recovers temporary_middle cwd directory stem replacements s o s1 s2 :
  (forall t p, t !! temporary_name temporary_middle p t = None) ->
  repair_staged directory replacements (tree s) ->
  attempt temporary_middle cwd directory stem replacements s = (o, s1) ->
  calm s2 -> tree s2 = tree s1 ->
  exists o' s3, recover_transaction_directory temporary_middle cwd directory s2 = (o', s3) /\
    tree s3 !! recovery_journal directory = None /\
    (none_replaced replacements (tree s) (tree s3) \/ all_replaced replacements (tree s) (tree s3)) /\
    (o = Ok tt -> all_replaced replacements (tree s) (tree s3)).
Proof.
  intros Hfresh Hs E Hc E2. pose proof (fun e => repair_staged_entries directory replacements (tree s) e Hs) as He. pose proof Hs as [H1 H2 H3 _ H5 _ _].
  assert (Hnew : forall t, all_new (entries_at directory (tree s) 0 (merge_sort by_target replacements)) t -> all_replaced replacements (tree s) t).
  { intros t Hn r (j & Hj)%(replacement_entry directory (tree s)). apply digest_matches. exact (Hn _ Hj). }
  destruct (killed_attempt_recovers temporary_middle cwd directory Hfresh stem (tree s) replacements H2 H1 H3) with (s := s) (o := o) (s1 := s1) (s2 := s2)
    as (o' & s3 & E3 & Hj & Hcase & Hok); [intros e Hin; by apply He|done|intros e Hin; by apply He|intros e Hin; by apply He|done|done|done|done|].
  exists o', s3. split_and!; [done|done| |auto]. destruct Hcase as [Hold|Hn]; [left|right; auto].
  intros r (j & Hr)%(replacement_entry directory (tree s)). exact (Hold _ Hr).
Qed.

(** What a repair that is not killed returns from is the attempt. *)
Lemma commit_returns temporary_middle cwd directory stem replacements s s' :
  replacements ≠ [] -> commit_replacements temporary_middle cwd directory stem replacements None s = (Ok tt, s') ->
  attempt temporary_middle cwd directory stem replacements s = (Ok tt, s').
Proof.
  intros Hne. destruct replacements as [|r rest]; [done|]. unfold commit_replacements, attempt, commit_or_rollback. intros E.
  unfold pbind at 1 in E. unfold pbind at 1. destruct (prepare_transaction _ _ _ _ s) as [[es|e] s1]; [|done].
  unfold pbind, on_error in *. destruct (advance_journal _ _ _ _ _ None s1) as [[[]|e] s2]; [done|].
  destruct (roll_back _ _ es s2) as [[[]|e'] s3]; [|done]. by destruct (discard_transaction _ _ es s3) as [[[]|e'] s4].
Qed.

(** A commit that returns, under any faults it survived, has replaced every table of the region by its
    staged content and left no journal behind. *)
Theorem returned_commit_is_complete temporary_middle cwd directory stem replacements s s' :
  (forall t p, t !! temporary_name temporary_middle p t = None) ->
  repair_staged directory replacements (tree s) -> replacements ≠ [] ->
  commit_replacements temporary_middle cwd directory stem replacements None s = (Ok tt, s') ->
  all_replaced replacements (tree s) (tree s') /\ tree s' !! recovery_journal directory = None.
Proof.
  intros Hfresh Hs Hne E%commit_returns; [|done]. pose proof (fun e => repair_staged_entries directory replacements (tree s) e Hs) as He. pose proof Hs as [H1 H2 H3 _ H5 _ _].
  destruct (attempt_leaves temporary_middle cwd directory Hfresh stem (tree s) replacements H2 H1 H3) with (s := s) (o := Ok tt) (s' := s')
    as [_ Hok]; [intros e Hin; by apply He|done|intros e Hin; by apply He|intros e Hin; by apply He|done|done|].
  destruct (Hok eq_refl) as [Hj Hn]. split; [|done]. intros r (j & Hr)%(replacement_entry directory (tree s)). apply digest_matches. exact (Hn _ Hr).
Qed.

Lemma recover_all_without_journals temporary_middle cwd ds s :
  (forall d, d ∈ ds -> is_file (recovery_journal d) (tree s) = false) -> recover_all temporary_middle cwd ds s = (Ok [], s).
Proof.
  induction ds as [|d ds IH]; intros H; [done|]. simpl. unfold recover_transaction_directory. unfold pbind at 1, pbind at 1, gets.
  rewrite H by left. cbn [negb]. unfold ret. unfold pbind. rewrite IH; [done|]. intros d' Hd'. apply H. by right.
Qed.

(** C32: An abandoned staging blocks its region.  A repair that stops between making its
    transaction directory and writing the journal leaves a directory that no recovery removes, and
    every later repair of the region fails on it, whatever it would stage, without a change. *)
Theorem abandoned_staging_blocks_its_region temporary_middle cwd root region directory s :
  calm s -> transaction_directory root (region_stem region) = Ok directory ->
  Forall (fun q => tree s !! q = Some Dir) (prefixes root) -> tree s !! directory = Some Dir ->
  (forall d, d ∈ transaction_directories root (tree s) -> is_file (recovery_journal d) (tree s) = false) ->
  recover_interrupted_transactions temporary_middle cwd root s = (Ok [], s) /\
  forall outputs stage before_commit record_receipt clear_checkpoints audit, changed outputs = true ->
    exists s', persist_repair_outputs temporary_middle cwd region outputs root stage before_commit record_receipt clear_checkpoints audit s =
      (Raise (exc FileExistsError []), s') /\ tree s' = tree s.
Proof.
  intros Hc Hd Hroot Hdir Hj. split.
  - unfold recover_interrupted_transactions, pbind at 1, gets. rewrite prefixes_is_dir by done. cbn [negb]. unfold pbind. by apply recover_all_without_journals.
  - intros. assert (Hp : path_parent directory = root).
    { unfold transaction_directory in Hd. destruct (require_safe_stem _ _ _) as [s0|]; [|done]. injection Hd as <-. apply path_parent_child. }
    destruct (primitive_calm (fun t : gmap path node =>
      match mkdirs (prefixes (path_parent directory)) t with
      | (Ok _, t') => if path_exists directory t' then (Raise (exc FileExistsError []), t') else (Ok tt, <[directory := Dir]> t')
      | r => r
      end) s Hc) as (s1 & E1 & Ht1 & Hc1). exists s1. rewrite Hp, mkdirs_all_dirs in E1, Ht1 by done.
    assert (Hx : path_exists directory (tree s) = true) by (unfold path_exists; by rewrite Hdir). rewrite Hx in E1, Ht1. split; [|done].
    unfold persist_repair_outputs. match goal with H : changed _ = true |- _ => rewrite H end. cbn [negb]. unfold pbind at 1, lift. rewrite Hd. unfold pbind, mkdir_new. rewrite Hp. by rewrite E1.
Qed.
End RepairTheorems.
