(* ===== verification/RecoveryTransactionExamples.v ===== *)
(** A concrete repair: one table that is there and one that is not, killed at different primitives;
    and a region with an abandoned staging. *)
From stdpp Require Import sorting.
From S2P Require Import Prelude Py PyStr PyText Fs Calm Artifacts Paths Atomic Sentences LinkTransaction RecoveryRows RecoveryMerge RecoveryTransaction RecoveryTransactionProofs.

#[local] Existing Instance example_runtime.
#[local] Existing Instance example_formats.

Definition tx_root : path := [u "p"; u "tx"].
Definition tx_directory : path := [u "p"; u "tx"; u "monaco"].
Definition tx_file (a b : string) : path := [u "p"; u a; u b].
Definition tx_staged (a : string) : path := tx_directory ++ [u a].
Definition tx_disk : gmap path node := list_to_map
  [([u "p"], Dir); ([u "p"; u "a"], Dir); ([u "p"; u "m"], Dir); (tx_root, Dir); (tx_directory, Dir);
   (tx_file "a" "x.parquet", File (CBytes [1%N]));
   (tx_staged "x.parquet", File (CBytes [3%N])); (tx_staged "y.json", File (CBytes [4%N; 4%N]))].
Definition tx_replacements : list (path * path) :=
  [(tx_file "m" "y.json", tx_staged "y.json"); (tx_file "a" "x.parquet", tx_staged "x.parquet")].

Lemma tx_repair_staged : repair_staged tx_directory tx_replacements tx_disk.
Proof.
  assert (Hes : entries_at tx_directory tx_disk 0 (merge_sort by_target tx_replacements) =
    [entry_at tx_directory tx_disk 0 (tx_file "a" "x.parquet", tx_staged "x.parquet"); entry_at tx_directory tx_disk 1 (tx_file "m" "y.json", tx_staged "y.json")]) by (vm_compute; reflexivity).
  split; [discriminate|rewrite Hes..| | | |].
  - split.
    + intros e He. repeat (apply elem_of_cons in He as [->|He]); [unfold clean_path, plain; by_evaluation..|by apply elem_of_nil in He].
    + intros e He. repeat (apply elem_of_cons in He as [->|He]); [by_evaluation..|by apply elem_of_nil in He].
    + intros e He. repeat (apply elem_of_cons in He as [->|He]); [by_evaluation..|by apply elem_of_nil in He].
    + by_evaluation.
    + intros e e' He He'. repeat (apply elem_of_cons in He as [->|He]); repeat (apply elem_of_cons in He' as [->|He']);
        (by apply elem_of_nil in He) || (by apply elem_of_nil in He') || by_evaluation.
    + intros e He. repeat (apply elem_of_cons in He as [->|He]); [by_evaluation..|by apply elem_of_nil in He].
  - split.
    + repeat constructor.
    + intros e He. repeat (apply elem_of_cons in He as [->|He]); [repeat constructor..|by apply elem_of_nil in He].
    + intros e He. repeat (apply elem_of_cons in He as [->|He]); [vm_compute; discriminate..|by apply elem_of_nil in He].
  - intros r Hr. repeat (apply elem_of_cons in Hr as [->|Hr]); [by_evaluation..|by apply elem_of_nil in Hr].
  - by_evaluation.
  - intros i H. apply elem_of_list_to_map_2 in H. unfold backup_of, tx_directory in H.
    repeat (apply elem_of_cons in H as [H|H]; [by apply (f_equal (fun x => (length x.1, x.2))) in H|]). by apply elem_of_nil in H.
  - intros r Hr. repeat (apply elem_of_cons in Hr as [->|Hr]); [by_evaluation..|by apply elem_of_nil in Hr].
Qed.

Definition tx_attempt (faults : list (option exn)) : outcome unit * FsState :=
  attempt long_middle [] tx_directory (u "monaco") tx_replacements (mkFs tx_disk faults).
Definition dead : option exn := Some (exc CRuntimeError (msg "killed")).

(** Killed after the first of the two tables was replaced: the recovery completes the second. *)
Definition tx_killed : outcome unit * FsState := tx_attempt (replicate 11 None ++ replicate 8 dead).

Lemma killed_repair_recovers_witness :
  let s := mkFs tx_disk (replicate 11 None ++ replicate 8 dead) in
  let s2 := mkFs (tree tx_killed.2) [] in
  exists o' s3, recover_transaction_directory long_middle [] tx_directory s2 = (o', s3) /\
    tree s3 !! recovery_journal tx_directory = None /\
    (none_replaced tx_replacements tx_disk (tree s3) \/ all_replaced tx_replacements tx_disk (tree s3)) /\
    (tx_killed.1 = Ok tt -> all_replaced tx_replacements tx_disk (tree s3)).
Proof.
  intros s s2. apply (killed_repair_recovers long_middle [] tx_directory (u "monaco") tx_replacements s tx_killed.1 tx_killed.2 s2).
  - exact temporary_name_fresh.
  - exact tx_repair_staged.
  - unfold tx_killed, tx_attempt. by destruct (attempt _ _ _ _ _ _).
  - constructor.
  - reflexivity.
Defined.

(** That run in numbers: one table is new and one is missing when the process dies, and a committing
    journal is there; afterwards both are new. *)
Example tx_killed_midway :
  let t := tree tx_killed.2 in
  file_matches_hash (tx_file "a" "x.parquet") (sha256_hexdigest [3%N]) t = true /\
  is_file (tx_file "m" "y.json") t = false /\ is_file (recovery_journal tx_directory) t = true /\
  let r := recover_transaction_directory long_middle [] tx_directory (mkFs t []) in
  r.1 = Ok (Some (u "monaco")) /\ file_matches_hash (tx_file "m" "y.json") (sha256_hexdigest [4%N; 4%N]) (tree r.2) = true.
Proof. vm_compute. repeat split. Qed.

Lemma returned_commit_is_complete_witness :
  let r := commit_replacements long_middle [] tx_directory (u "monaco") tx_replacements None (mkFs tx_disk []) in
  all_replaced tx_replacements tx_disk (tree r.2) /\ tree r.2 !! recovery_journal tx_directory = None.
Proof.
  intros r. apply (returned_commit_is_complete long_middle [] tx_directory (u "monaco") tx_replacements (mkFs tx_disk [])).
  - exact temporary_name_fresh.
  - exact tx_repair_staged.
  - discriminate.
  - apply pair_of_fst. vm_compute. reflexivity.
Defined.

(** The staging above, abandoned. *)
Definition tx_region : RegionAuditResult :=
  {| region_stem := u "monaco"; blocked_reason := []; classifications := []; polygon_ids_by_qid := []; affected_polygon_ids_by_qid := [];
     affected_qids := [u "Q1"]; orphan_fact_ids := []; region_orphan_document_ids := [] |}.

Lemma abandoned_staging_blocks_its_region_witness :
  let s := mkFs tx_disk [] in
  recover_interrupted_transactions long_middle [] tx_root s = (Ok [], s) /\
  forall outputs stage before_commit record_receipt clear_checkpoints audit, changed outputs = true ->
    exists s', persist_repair_outputs long_middle [] tx_region outputs tx_root stage before_commit record_receipt clear_checkpoints audit s =
      (Raise (exc FileExistsError []), s') /\ tree s' = tree s.
Proof.
  intros s. apply (abandoned_staging_blocks_its_region long_middle [] tx_root tx_region tx_directory s).
  - constructor.
  - reflexivity.
  - repeat constructor.
  - reflexivity.
  - intros d Hd. assert (E : transaction_directories tx_root (tree s) = [tx_directory]) by (vm_compute; reflexivity).
    rewrite E in Hd. apply list_elem_of_singleton in Hd as ->. vm_compute. reflexivity.
Defined.
