(* ===== verification/Tables.v ===== *)
(** Parquet tables on disk ([io/atomic.py], [io/parquet.py]): what is taken from [pyarrow], reading
    columns, writing a table atomically; and stable sorting. *)
From S2P Require Import Prelude Py PyStr PyText Fs Calm Artifacts Atomic PolygonLinks.

(** * [pyarrow] *)

Abbreviation table_schema := (list (str * column_type)).

#[export] Instance column_type_eq_dec : EqDecision column_type.
Proof. solve_decision. Defined.

(** The bytes of a table of some rows under a schema, and the schema and rows of some bytes; both
    may raise. *)
Class Parquet := {
  encode_table : table_schema -> list pydict -> outcome (list N);
  decode_table : list N -> outcome (table_schema * list pydict) }.

(** A value that a column of the type holds as it is; any column holds nulls. *)
Definition value_fits (ty : column_type) (v : pyval) : bool :=
  match v, ty with VNone, _ | VStr _, pa_string | VInt _, pa_int64 | VFloat _, pa_float64 | VBool _, pa_bool => true | _, _ => false end.
Definition fits (schema : table_schema) (row : pydict) : Prop :=
  Forall2 (fun (column : str * column_type) (cell : str * pyval) => cell.1 = column.1 /\ value_fits column.2 cell.2 = true) schema row.

(** Rows that fit the schema are read back as they were written; other values may be converted. *)
Class ParquetLaws `{Parquet} : Prop := {
  decode_encode_table : forall schema rows b, Forall (fits schema) rows -> encode_table schema rows = Ok b -> decode_table b = Ok (schema, rows) }.

(** [pa.ArrowInvalid]. *)
Definition ArrowInvalid : exn_class := CUser (u "ArrowInvalid") CValueError.

(** [{column: row.get(column) for column in columns}]. *)
Definition project_row (columns : list str) (row : pydict) : pydict := (fun c => (c, dget_none c row)) <$> columns.

Section Tables.
Context {RT : Runtime} {FF : FileFormats} {PQ : Parquet}.
Variable temporary_middle : gmap path node -> path -> str.

(** [pq.read_table(path)]. *)
Definition read_table (p : path) (t : gmap path node) : outcome (table_schema * list pydict) :=
  b ← read_bytes p t; decode_table b.

(** [pq.read_table(path, columns=columns).to_pylist()]: a column that is missing raises. *)
Definition read_columns (columns : list str) (p : path) (t : gmap path node) : outcome (list pydict) :=
  '(schema, rows) ← read_table p t;
  _ ← raise_if (negb (forallb (fun c => bool_decide (c ∈ (schema : table_schema).*1)) columns)) (exc ArrowInvalid (msg "No match for FieldRef"));
  mret (project_row columns <$> (rows : list pydict)).

(** [atomic_write_parquet] of a table made of rows. *)
Definition atomic_write_parquet (target : path) (schema : table_schema) (rows : list pydict) : PyM FsState unit :=
  b <- lift (encode_table schema rows);;
  atomic_replacement temporary_middle target (fun temporary => write_file temporary (CBytes b)).

(** ** Lemmas *)

Lemma project_row_id columns (row : pydict) : row.*1 = columns -> NoDup columns -> project_row columns row = row.
Proof.
  intros <- Hnd. unfold project_row. rewrite <- list_fmap_compose. rewrite <- (list_fmap_id row) at 2.
  apply list_fmap_ext. intros i [k v] Hi%list_elem_of_lookup_2. cbn. unfold dget_none. by rewrite (dget_NoDup k v).
Qed.

Lemma project_row_get columns row c : c ∈ columns -> dget_none c (project_row columns row) = dget_none c row.
Proof.
  intros Hc. unfold project_row, dget_none at 1. induction columns as [|d columns IH]; [by apply elem_of_nil in Hc|]. simpl.
  destruct (str_eqb_spec d c) as [->|Hne]; [done|]. apply IH. apply elem_of_cons in Hc as [->|?]; done.
Qed.

(** Whatever fails, the target has its old content and the write raised, or it holds the table. *)
Lemma atomic_write_parquet_replaced target schema rows s o s' :
  (forall t p, t !! temporary_name temporary_middle p t = None) ->
  atomic_write_parquet target schema rows s = (o, s') ->
  replaced target (fun c => exists b, encode_table schema rows = Ok b /\ c = CBytes b) s o s'.
Proof.
  intros Hfresh. unfold atomic_write_parquet, pbind, lift. destruct (encode_table schema rows) as [b|e] eqn:E.
  - intros H. eapply atomic_replacement_cases in H as (s1 & [Ht Ho Hn] & _); [|done|intros temporary; apply write_fills].
    split; [|done..]. destruct Ht as [?|(-> & c & -> & Hc)]; [by left|right]. split; [done|]. exists (CBytes b). eauto.
  - intros [= <- <-]. split; [left; eauto|done|congruence].
Qed.

Lemma calmly_atomic_write_parquet target schema rows b s :
  (forall t p, t !! temporary_name temporary_middle p t = None) -> encode_table schema rows = Ok b ->
  calm s -> Forall (fun q => tree s !! q = Some Dir) (prefixes (path_parent target)) -> tree s !! target ≠ Some Dir ->
  calmly (atomic_write_parquet target schema rows) s (fun _ t => t = <[target := File (CBytes b)]> (tree s)).
Proof.
  intros Hfresh Hb Hc Hd Ht. unfold atomic_write_parquet. eapply calmly_lift_then; [exact Hb|].
  apply calmly_atomic_replacement; [done..|]. intros tmp s1 Hc1 Htmp Hdir E.
  apply (calmly_primitive _ tt); [done|..]; unfold write_tree; rewrite Hdir, E, lookup_insert_eq; [done|by rewrite insert_insert_eq].
Qed.

Lemma fits_keys schema (row : pydict) : fits schema row -> row.*1 = schema.*1.
Proof. unfold fits. induction 1 as [|c k schema row [Hk _] _ IH]; csimpl; [done|]. by rewrite Hk, IH. Qed.

Lemma read_table_written {PL : ParquetLaws} target schema rows b t :
  Forall (fits schema) rows -> encode_table schema rows = Ok b -> t !! target = Some (File (CBytes b)) -> read_table target t = Ok (schema, rows).
Proof. intros Hf Hb Ht. unfold read_table, read_bytes. rewrite Ht. cbn. by apply decode_encode_table. Qed.

(** Rows that fit their schema are read back column by column. *)
Lemma read_columns_written {PL : ParquetLaws} target schema rows b t :
  encode_table schema rows = Ok b -> t !! target = Some (File (CBytes b)) -> NoDup schema.*1 ->
  Forall (fits schema) rows -> read_columns schema.*1 target t = Ok rows.
Proof.
  intros Hb Ht Hnd Hr. unfold read_columns. rewrite (read_table_written target schema rows b t) by done. cbn.
  replace (forallb _ _) with true by (symmetry; apply forallb_forall; intros c Hc; apply bool_decide_eq_true; by apply list_elem_of_In).
  cbn. f_equal. clear Hb. induction Hr as [|row rows Hrow _ IH]; [done|]. csimpl. f_equal; [by apply project_row_id, Hnd; apply fits_keys|exact IH].
Qed.
End Tables.

(** * Stable sorting *)

(** [sorted(l, key=...)]. *)
Section StableSort.
Context {A : Type} (leb : A -> A -> bool).

Fixpoint insert_stable (x : A) (l : list A) : list A :=
  match l with
  | [] => [x]
  | y :: rest => if leb x y then x :: l else y :: insert_stable x rest
  end.
Definition sort_stable (l : list A) : list A := foldr insert_stable [] l.

Lemma insert_stable_perm x l : insert_stable x l ≡ₚ x :: l.
Proof. induction l as [|y l IH]; simpl; [done|]. destruct (leb x y); [done|]. rewrite IH. constructor. Qed.

Lemma sort_stable_perm l : sort_stable l ≡ₚ l.
Proof. induction l as [|x l IH]; simpl; [done|]. by rewrite insert_stable_perm, IH. Qed.

Lemma sort_stable_sorted_id l : StronglySorted (fun a b => leb a b = true) l -> sort_stable l = l.
Proof.
  induction 1 as [|x l _ IH Hx]; simpl; [done|]. rewrite IH. destruct l as [|y l]; simpl; [done|]. inversion Hx as [|? ? Hxy]; subst. by rewrite Hxy.
Qed.

Context (leb_total : forall a b, leb a b = true \/ leb b a = true) (leb_trans : forall a b c, leb a b = true -> leb b c = true -> leb a c = true).

Lemma insert_stable_sorted x l : StronglySorted (fun a b => leb a b = true) l -> StronglySorted (fun a b => leb a b = true) (insert_stable x l).
Proof.
  induction 1 as [|y l Hl IH Hy]; simpl; [by repeat constructor|]. destruct (leb x y) eqn:E.
  - constructor; [by constructor|]. constructor; [done|]. eapply Forall_impl; [exact Hy|]. simpl. intros z. by apply leb_trans.
  - constructor; [done|]. apply Forall_forall. intros z Hz. rewrite insert_stable_perm in Hz. apply elem_of_cons in Hz as [->|Hz].
    + destruct (leb_total x y); congruence.
    + rewrite Forall_forall in Hy. by apply Hy.
Qed.

Lemma sort_stable_sorted l : StronglySorted (fun a b => leb a b = true) (sort_stable l).
Proof. induction l as [|x l IH]; simpl; [constructor|by apply insert_stable_sorted]. Qed.

Lemma sort_stable_idemp l : sort_stable (sort_stable l) = sort_stable l.
Proof. apply sort_stable_sorted_id, sort_stable_sorted. Qed.
End StableSort.
