(* ===== verification/Integrity.v ===== *)
(** The join integrity of published shards ([augmentation/integrity.py], [integrity_io.py],
    [polygon_articles_integrity.py], [_wikivoyage_membership.py], [integrity_models.py]): link rows
    that disagree with the polygon table and Wikivoyage documents without a polygon are rejected, and
    their sections with them. *)
From stdpp Require Import gmap sorting.
From S2P Require Import Prelude Py PyStr PyText Fs Artifacts Atomic PolygonLinks Tables.

Definition INTEGRITY_CONTRACT_VERSION : str := u "join-integrity-v1".
Definition REASON_POLYGON_ARTICLES_MISMATCH : str := u "wikidata_mismatch_with_polygon_master".
Definition REASON_WIKIVOYAGE_ABSENT : str := u "wikidata_absent_from_polygons".

(** * Schemas ([augmentation/schema.py]) *)

Definition DOCUMENT_COLUMNS : list str := u <$>
  ["document_id"; "article_id"; "wikidata"; "project"; "language"; "site"; "title"; "url"; "page_id"; "revision_id";
   "revision_timestamp"; "retrieved_at"; "full_text"; "full_text_format"; "article_length_chars"; "article_length_words";
   "article_length_tokens_estimate"; "license"; "attribution"; "source_api"; "fetch_status"; "fetch_error"; "content_hash"]%string.
Definition SECTION_COLUMNS : list str := u <$>
  ["section_id"; "document_id"; "article_id"; "wikidata"; "project"; "language"; "site"; "page_id"; "revision_id"; "section_index";
   "heading"; "anchor"; "level"; "parent_section_id"; "section_path"; "text"; "text_length_chars"; "text_length_words";
   "text_length_tokens_estimate"; "content_hash"; "license"; "attribution"]%string.
Definition POLYGON_ARTICLE_COLUMNS : list str := u <$>
  ["polygon_id"; "article_id"; "wikidata"; "language"; "source_pbf"; "region"; "osm_type"; "osm_id"; "page_id"; "revision_id";
   "is_best_language"]%string.

Definition integer_columns : list str := u <$>
  ["page_id"; "revision_id"; "section_index"; "level"; "article_length_chars"; "article_length_words"; "article_length_tokens_estimate";
   "text_length_chars"; "text_length_words"; "text_length_tokens_estimate"]%string.
Definition augmentation_schema (columns : list str) : table_schema :=
  (fun c => (c, if bool_decide (c ∈ integer_columns) then pa_int64 else if bool_decide (c = u "numeric_value") then pa_float64 else pa_string)) <$> columns.
Definition document_schema : table_schema := augmentation_schema DOCUMENT_COLUMNS.
Definition section_schema : table_schema := augmentation_schema SECTION_COLUMNS.

(** [_column_dtype] ([domain/schema.py]). *)
Definition is_integer_column (col : str) : bool :=
  existsb (fun suffix => endswith (u suffix) col) ["_count"; "_chars"; "_words"; "_tokens_estimate"]%string ||
  bool_decide (col ∈ u <$> ["page_id"; "revision_id"; "osm_id"; "thumbnail_width"; "thumbnail_height"]%string).
Definition is_boolean_column (col : str) : bool :=
  startswith (u "has_") col || bool_decide (col ∈ [u "is_best_language"; u "text_available"]).
Definition column_dtype (col : str) : column_type :=
  if is_integer_column col then pa_int64
  else if bool_decide (col ∈ u <$> ["lat"; "lon"; "area_m2"; "area_km2"]%string) then pa_float64
  else if is_boolean_column col then pa_bool else pa_string.
Definition arrow_schema (columns : list str) : table_schema := (fun c => (c, column_dtype c)) <$> columns.
Definition polygon_article_schema : table_schema := arrow_schema POLYGON_ARTICLE_COLUMNS.

(** * Records *)

(** [RejectionRecord] ([integrity_models.py]). *)
Record RejectionRecord := mkRejection {
  rj_shard : str; rj_source_table : str; rj_identifier : str; rj_wikidata : str; rj_expected : option str; rj_reason : str;
  rj_cascaded_sections : Z }.

Definition opt_str (v : option str) : pyval := match v with Some s => VStr s | None => VNone end.
Definition rejection_dict (r : RejectionRecord) : pydict :=
  [(u "shard", VStr (rj_shard r)); (u "source_table", VStr (rj_source_table r)); (u "identifier", VStr (rj_identifier r));
   (u "wikidata", VStr (rj_wikidata r)); (u "expected", opt_str (rj_expected r)); (u "reason", VStr (rj_reason r));
   (u "cascaded_sections", VInt (rj_cascaded_sections r))].

Record PolygonArticlesIntegrityResult := {
  pa_shard : str; pa_original : Z; pa_retained : Z; pa_rejected : Z; pa_rewritten : bool; pa_rejections : list RejectionRecord }.
Record WikivoyageIntegrityResult := {
  wv_shard : str; wv_original_documents : Z; wv_retained_documents : Z; wv_rejected_documents : Z; wv_original_sections : Z;
  wv_retained_sections : Z; wv_cascaded_sections : Z; wv_rewritten_documents : bool; wv_rewritten_sections : bool;
  wv_rejections : list RejectionRecord }.

Definition polygon_articles_dict (r : PolygonArticlesIntegrityResult) : pydict :=
  [(u "shard", VStr (pa_shard r)); (u "original_row_count", VInt (pa_original r)); (u "retained_row_count", VInt (pa_retained r));
   (u "rejected_row_count", VInt (pa_rejected r)); (u "rewritten", VBool (pa_rewritten r));
   (u "rejections", VList ((VDict ∘ rejection_dict) <$> pa_rejections r))].
Definition wikivoyage_dict (r : WikivoyageIntegrityResult) : pydict :=
  [(u "shard", VStr (wv_shard r)); (u "original_document_count", VInt (wv_original_documents r));
   (u "retained_document_count", VInt (wv_retained_documents r)); (u "rejected_document_count", VInt (wv_rejected_documents r));
   (u "original_section_count", VInt (wv_original_sections r)); (u "retained_section_count", VInt (wv_retained_sections r));
   (u "cascaded_section_count", VInt (wv_cascaded_sections r)); (u "rewritten_documents", VBool (wv_rewritten_documents r));
   (u "rewritten_sections", VBool (wv_rewritten_sections r)); (u "rejections", VList ((VDict ∘ rejection_dict) <$> wv_rejections r))].

(** [sorted(rejections, key=lambda record: (record.identifier, record.wikidata))]. *)
Definition rejection_leb (a b : RejectionRecord) : bool :=
  if str_eqb (rj_identifier a) (rj_identifier b) then str_leb (rj_wikidata a) (rj_wikidata b) else str_leb (rj_identifier a) (rj_identifier b).

Section Integrity.
Context {RT : Runtime} {FF : FileFormats} {PQ : Parquet}.
Variable temporary_middle : gmap path node -> path -> str.
Abbreviation M := (PyM FsState).

(** [str(row.get(key, ""))]. *)
Definition text_or (key : string) (row : pydict) : str := py_str (default (VStr []) (dget (u key) row)).

(** * Membership of Wikivoyage documents *)

Record Partition := { retained_rows : list pydict; rejected_documents : list (str * str) }.

Fixpoint partition_wikivoyage_documents (rows : list pydict) (valid_qids : gset str) : Partition :=
  match rows with
  | [] => {| retained_rows := []; rejected_documents := [] |}
  | row :: rest =>
      let p := partition_wikivoyage_documents rest valid_qids in
      if bool_decide (text_or "wikidata" row ∈ valid_qids)
      then {| retained_rows := project_row DOCUMENT_COLUMNS row :: retained_rows p; rejected_documents := rejected_documents p |}
      else {| retained_rows := retained_rows p; rejected_documents := (text_or "document_id" row, text_or "wikidata" row) :: rejected_documents p |}
  end.

Definition wikivoyage_rejections (stem : str) (p : Partition) : list RejectionRecord :=
  (fun d => mkRejection stem (u "wikivoyage_documents") d.1 d.2 None REASON_WIKIVOYAGE_ABSENT 0) <$> rejected_documents p.

(** Sections of rejected documents are dropped and counted, in all and by document. *)
Record SectionPartition := { kept_rows : list pydict; cascaded_count : Z; cascades_by_document : list (str * Z) }.

Definition cascade_step (rejected_ids : gset str) (acc : SectionPartition) (row : pydict) : SectionPartition :=
  let document_id := text_or "document_id" row in
  if bool_decide (document_id ∈ rejected_ids)
  then {| kept_rows := kept_rows acc; cascaded_count := cascaded_count acc + 1;
          cascades_by_document := dset document_id (default 0 (dget document_id (cascades_by_document acc)) + 1) (cascades_by_document acc) |}
  else {| kept_rows := kept_rows acc ++ [project_row SECTION_COLUMNS row]; cascaded_count := cascaded_count acc;
          cascades_by_document := cascades_by_document acc |}.
Definition partition_wikivoyage_sections (rows : list pydict) (rejected_ids : gset str) : SectionPartition :=
  foldl (cascade_step rejected_ids) {| kept_rows := []; cascaded_count := 0; cascades_by_document := [] |} rows.

Definition attach_cascade_counts (rejections : list RejectionRecord) (cascades : list (str * Z)) : list RejectionRecord :=
  (fun r => mkRejection (rj_shard r) (rj_source_table r) (rj_identifier r) (rj_wikidata r) (rj_expected r) (rj_reason r)
     (default 0 (dget (rj_identifier r) cascades))) <$> rejections.

(** * Reading ([integrity_io.py]) *)

Definition missing (label : str) (p : path) : exn := exc CFileNotFoundError [FStr (label ++ u " parquet missing: " ++ path_str p)].

Definition read_table_required (p : path) (label : string) (columns : list str) (t : gmap path node) : outcome (list pydict) :=
  if negb (is_file p t) then Raise (missing (u label) p) else read_columns columns p t.

(** The mapping and the polygons with conflicting values. *)
Definition record_polygon_wikidata (acc : list (str * str) * gset str) (polygon_id wikidata : str) : list (str * str) * gset str :=
  match dget polygon_id acc.1 with
  | Some known => if str_eqb known wikidata then (dset polygon_id wikidata acc.1, acc.2) else (acc.1, {[polygon_id]} ∪ acc.2)
  | None => (dset polygon_id wikidata acc.1, acc.2)
  end.

Definition first_five (ids : list str) : str := join (u ", ") (take 5 ids).

Definition read_polygon_wikidata_map (p : path) (t : gmap path node) : outcome (list (str * str)) :=
  if negb (is_file p t) then Raise (missing (u "Polygons") p)
  else
    rows ← read_columns [u "polygon_id"; u "wikidata"] p t;
    let '(mapping, duplicates) := foldl (fun acc (row : pydict) =>
      let qid := dget_none (u "wikidata") row in
      record_polygon_wikidata acc (py_str (dget_none (u "polygon_id") row)) (match qid with VNone => [] | _ => py_str qid end)) ([], ∅) rows in
    _ ← raise_if (negb (bool_decide (duplicates = ∅)))
      (exc CValueError [FStr (u "Polygons parquet has conflicting wikidata for polygon_id(s): " ++ first_five (sorted_strs (elements duplicates)))]);
    mret mapping.

Definition read_polygon_wikidata_set (p : path) (t : gmap path node) : outcome (gset str) :=
  if negb (is_file p t) then Raise (missing (u "Polygons") p)
  else
    rows ← read_columns [u "wikidata"] p t;
    mret (list_to_set (py_str <$> filter (fun v => py_truthy v = true) ((fun row => dget_none (u "wikidata") row) <$> (rows : list pydict)))).

(** * Wikivoyage ([integrity.py]) *)

Definition write_wikivoyage_integrity_tables (documents_path sections_path : path) (retained_documents retained_sections : list pydict)
    (rewrite_documents rewrite_sections : bool) : M unit :=
  (if rewrite_documents then atomic_write_parquet temporary_middle documents_path document_schema retained_documents else ret tt);;
  (if rewrite_sections then atomic_write_parquet temporary_middle sections_path section_schema retained_sections else ret tt).

Definition parquet_name (stem : str) : str := stem ++ u ".parquet".
Definition polygons_file (data_root : path) (stem : str) : path := child (processed_polygons data_root) (parquet_name stem).
Definition links_file (data_root : path) (stem : str) : path := child (processed_links data_root) (parquet_name stem).
Definition voyage_documents_file (data_root : path) (stem : str) : path := child (sub (processed data_root) "wikivoyage/documents") (parquet_name stem).
Definition voyage_sections_file (data_root : path) (stem : str) : path := child (sub (processed data_root) "wikivoyage/sections") (parquet_name stem).

(** The documents, the sections (none without their file) and the identifiers of the polygons. *)
Definition load_wikivoyage_integrity_inputs (data_root : path) (stem : str) (t : gmap path node) : outcome (list pydict * list pydict * gset str) :=
  valid_qids ← read_polygon_wikidata_set (polygons_file data_root stem) t;
  documents ← read_table_required (voyage_documents_file data_root stem) "wikivoyage/documents" DOCUMENT_COLUMNS t;
  sections ← (if is_file (voyage_sections_file data_root stem) t
              then read_table_required (voyage_sections_file data_root stem) "wikivoyage/sections" SECTION_COLUMNS t else mret []);
  mret (documents, sections, valid_qids).

Definition enforce_wikivoyage_integrity (data_root : path) (stem : str) (dry_run : bool) : M WikivoyageIntegrityResult :=
  inputs <- reads (load_wikivoyage_integrity_inputs data_root stem);;
  let '(documents, sections, valid_qids) := inputs in
  let p := partition_wikivoyage_documents documents valid_qids in
  let rejected_ids : gset str := list_to_set (rejected_documents p).*1 in
  let q := partition_wikivoyage_sections sections rejected_ids in
  let rejections := attach_cascade_counts (wikivoyage_rejections stem p) (cascades_by_document q) in
  let rewritten_documents := 0 <? len rejections in
  let rewritten_sections := 0 <? cascaded_count q in
  write_wikivoyage_integrity_tables (voyage_documents_file data_root stem) (voyage_sections_file data_root stem) (retained_rows p) (kept_rows q)
    (rewritten_documents && negb dry_run) (rewritten_sections && negb dry_run);;
  ret {| wv_shard := stem; wv_original_documents := len documents; wv_retained_documents := len (retained_rows p);
         wv_rejected_documents := len rejections; wv_original_sections := len sections; wv_retained_sections := len (kept_rows q);
         wv_cascaded_sections := cascaded_count q; wv_rewritten_documents := rewritten_documents; wv_rewritten_sections := rewritten_sections;
         wv_rejections := sort_stable rejection_leb rejections |}.

(** * Links of polygons and articles ([polygon_articles_integrity.py]) *)

Fixpoint partition_polygon_article_rows (stem : str) (rows : list pydict) (polygon_wikidata : list (str * str)) : list pydict * list RejectionRecord :=
  match rows with
  | [] => ([], [])
  | row :: rest =>
      let '(retained, rejections) := partition_polygon_article_rows stem rest polygon_wikidata in
      let polygon_id := text_or "polygon_id" row in
      let link_wikidata := text_or "wikidata" row in
      let expected := dget polygon_id polygon_wikidata in
      if bool_decide (expected = Some link_wikidata) then (project_row POLYGON_ARTICLE_COLUMNS row :: retained, rejections)
      else (retained, mkRejection stem (u "polygon_articles") polygon_id link_wikidata expected REASON_POLYGON_ARTICLES_MISMATCH 0 :: rejections)
  end.

Definition missing_polygon_ids (rows : list pydict) (polygon_wikidata : list (str * str)) : list str :=
  sorted_strs (elements (list_to_set (text_or "polygon_id" <$> rows) ∖ list_to_set polygon_wikidata.*1 : gset str)).
Definition ensure_polygon_ids_exist (stem : str) (missing_ids : list str) (rows : list pydict) : outcome unit :=
  let with_links := sorted_strs (filter (fun i => existsb (fun row => str_eqb (text_or "polygon_id" row) i) rows = true) missing_ids) in
  raise_if (negb (bool_decide (with_links = [])))
    (exc CValueError [FStr (u "polygon_articles rows reference polygon_id(s) absent from polygons parquet for shard "); FRepr (VStr stem);
                      FStr (u ": " ++ first_five with_links)]).

(** [write_table] ([io/parquet.py]) writes its target in place: opening it truncates it. *)
Definition fill_columns (rows : list pydict) (columns : list str) : list pydict := project_row columns <$> rows.
Definition write_table_in_place (p : path) (rows : list pydict) (columns : list str) (schema : table_schema) : M Z :=
  mkdir (path_parent p);;
  b <- lift (encode_table schema (fill_columns rows columns));;
  write_file p (CBytes []);;
  write_file p (CBytes b);;
  ret (len rows).
Definition write_polygon_articles (p : path) (rows : list pydict) : M Z := write_table_in_place p rows POLYGON_ARTICLE_COLUMNS polygon_article_schema.

Definition write_polygon_articles_if_needed (links_path : path) (retained : list pydict) (rewritten : bool) : M unit :=
  if rewritten then (write_polygon_articles links_path retained;; ret tt) else ret tt.

Definition enforce_polygon_articles_integrity (data_root : path) (stem : str) (dry_run : bool) : M PolygonArticlesIntegrityResult :=
  polygon_wikidata <- reads (read_polygon_wikidata_map (polygons_file data_root stem));;
  rows <- reads (read_table_required (links_file data_root stem) "polygon_articles" POLYGON_ARTICLE_COLUMNS);;
  let '(retained, rejections) := partition_polygon_article_rows stem rows polygon_wikidata in
  lift (ensure_polygon_ids_exist stem (missing_polygon_ids rows polygon_wikidata) rows);;
  let rewritten := 0 <? len rejections in
  write_polygon_articles_if_needed (links_file data_root stem) retained (rewritten && negb dry_run);;
  ret {| pa_shard := stem; pa_original := len rows; pa_retained := len retained; pa_rejected := len rejections; pa_rewritten := rewritten;
         pa_rejections := sort_stable rejection_leb rejections |}.

(** * Every region *)

Record IntegrityReport := {
  ir_polygon_articles : list PolygonArticlesIntegrityResult; ir_wikivoyage : list WikivoyageIntegrityResult; ir_audit_path : path }.

Definition total (ns : list Z) : Z := foldr Z.add 0 ns.

Fixpoint collect_integrity_results (data_root : path) (stems : list str) (dry_run : bool)
    : M (list PolygonArticlesIntegrityResult * list WikivoyageIntegrityResult) :=
  match stems with
  | [] => ret ([], [])
  | stem :: rest =>
      links_there <- gets (fun s => is_file (links_file data_root stem) (tree s));;
      polygon <- (if links_there : bool then r <- enforce_polygon_articles_integrity data_root stem dry_run;; ret [r] else ret []);;
      documents_there <- gets (fun s => is_file (voyage_documents_file data_root stem) (tree s));;
      voyage <- (if documents_there : bool then r <- enforce_wikivoyage_integrity data_root stem dry_run;; ret [r] else ret []);;
      others <- collect_integrity_results data_root rest dry_run;;
      ret (polygon ++ others.1, voyage ++ others.2)
  end.

Definition shards_with_rejections (report : IntegrityReport) : list str :=
  sorted_strs (elements (list_to_set
    ((pa_shard <$> filter (fun r => pa_rejections r ≠ []) (ir_polygon_articles report)) ++
     (wv_shard <$> filter (fun r => wv_rejections r ≠ []) (ir_wikivoyage report))) : gset str)).

Definition integrity_audit_payload (report : IntegrityReport) (generated_at : str) : pydict :=
  [(u "contract_version", VStr INTEGRITY_CONTRACT_VERSION); (u "generated_at", VStr generated_at);
   (u "polygon_articles", VList ((VDict ∘ polygon_articles_dict) <$> ir_polygon_articles report));
   (u "wikivoyage", VList ((VDict ∘ wikivoyage_dict) <$> ir_wikivoyage report));
   (u "totals", VDict
     [(u "polygon_articles_rejected", VInt (total (pa_rejected <$> ir_polygon_articles report)));
      (u "wikivoyage_documents_rejected", VInt (total (wv_rejected_documents <$> ir_wikivoyage report)));
      (u "wikivoyage_sections_cascaded", VInt (total (wv_cascaded_sections <$> ir_wikivoyage report)));
      (u "shards_with_rejections", VList (VStr <$> shards_with_rejections report))])].

(** [data_root.processed_polygons.glob("*.parquet")], as stems in order. *)
Definition polygon_stems (data_root : path) (t : gmap path node) : list str :=
  sorted_strs ((stem_of_name ∘ path_name) <$> glob (processed_polygons data_root) (u ".parquet") t).

(** [now] is the text of the current time; the JSON text is indented, another layout of the same document. *)
Definition enforce_all_regions (data_root : path) (stems : option (list str)) (audit_filename : str) (dry_run : bool) (now : str) : M IntegrityReport :=
  chosen <- (match stems with Some l => ret l | None => gets (fun s => polygon_stems data_root (tree s)) end);;
  results <- collect_integrity_results data_root chosen dry_run;;
  let report :=
    {| ir_polygon_articles := sort_stable (fun a b => str_leb (pa_shard a) (pa_shard b)) results.1;
       ir_wikivoyage := sort_stable (fun a b => str_leb (wv_shard a) (wv_shard b)) results.2;
       ir_audit_path := child (sub (processed data_root) "integrity") audit_filename |} in
  if dry_run then ret report
  else
    mkdir (path_parent (ir_audit_path report));;
    atomic_write_json temporary_middle (ir_audit_path report) (VDict (integrity_audit_payload report now));;
    ret report.
End Integrity.
