(* ===== verification/RejectionLedger.v ===== *)
(** The cumulative ledger of rejected rows ([augmentation/rejection_ledger.py]): validated records,
    their merge by identity, the files of a region and of the data root, and the normalization that
    feeds them. *)
From stdpp Require Import gmap sorting.
From S2P Require Import Prelude Py PyStr PyText KeyDict Fs Artifacts Atomic Linker PolygonLinks Tables Integrity.

Definition LEDGER_CONTRACT_VERSION : str := u "rejection-ledger-v1".
Definition LEDGER_FILENAME : str := u "rejection_ledger.json".
Definition SUPPORTED_SOURCE_TABLES : list str := [u "polygon_articles"; u "wikivoyage_documents"].

(** * Records *)

(** The validated [RejectionRecord] of this module; an observed identifier may be [None]. *)
Record LedgerRecord := mkLedgerRecord {
  lr_shard : str; lr_source_table : str; lr_identifier : str; lr_wikidata : option str; lr_expected : option str; lr_reason : str;
  lr_cascaded_sections : Z }.

Definition Identity : Type := str * str * str * option str * option str.
Definition identity (r : LedgerRecord) : Identity :=
  (lr_shard r, lr_source_table r, lr_identifier r, lr_wikidata r, lr_expected r).

Definition ledger_dict (r : LedgerRecord) : pydict :=
  [(u "shard", VStr (lr_shard r)); (u "source_table", VStr (lr_source_table r)); (u "identifier", VStr (lr_identifier r));
   (u "wikidata", opt_str (lr_wikidata r)); (u "expected", opt_str (lr_expected r)); (u "reason", VStr (lr_reason r));
   (u "cascaded_sections", VInt (lr_cascaded_sections r))].

Definition require_nonempty_string (value : pyval) (name : string) : outcome str :=
  match value with
  | VStr (c :: s) => mret (c :: s)
  | _ => Raise (exc CValueError [FStr (u "Rejection " ++ u name ++ u " must be a non-empty string, got "); FRepr value])
  end.

Definition validate_source_table (source_table : pyval) : outcome str :=
  _ ← raise_if (negb (hashable source_table)) (exc CTypeError [FStr (u "unhashable type: '" ++ type_name source_table ++ u "'")]);
  match source_table with
  | VStr s => if bool_decide (s ∈ SUPPORTED_SOURCE_TABLES) then mret s
              else Raise (exc CValueError [FStr (u "Unsupported source_table "); FRepr source_table; FStr (u "; must be one of ");
                                           FRepr (VList (VStr <$> sorted_strs SUPPORTED_SOURCE_TABLES))])
  | _ => Raise (exc CValueError [FStr (u "Unsupported source_table "); FRepr source_table; FStr (u "; must be one of ");
                                 FRepr (VList (VStr <$> sorted_strs SUPPORTED_SOURCE_TABLES))])
  end.

(** [_is_valid_qid]: [None] passes. *)
Definition rejection_qid (value : pyval) (role : string) (hint : string) : outcome (option str) :=
  let invalid := exc CValueError [FStr (u "Rejection " ++ u role ++ u " wikidata must be a valid QID" ++ u hint ++ u ", got "); FRepr value] in
  match value with
  | VNone => mret None
  | VStr s => if bool_decide (qids_from_osm_tag s = []) then Raise invalid else mret (Some s)
  | _ => Raise invalid
  end.

Definition validate_cascaded_sections (value : pyval) : outcome Z :=
  let invalid := exc CValueError [FStr (u "Rejection cascaded_sections must be a non-negative int, got "); FRepr value] in
  match as_int value with Some n => if n <? 0 then Raise invalid else mret n | None => Raise invalid end.

(** [RejectionRecord(...)] with its [__post_init__]. *)
Definition ledger_record (shard source_table identifier wikidata expected reason cascaded : pyval) : outcome LedgerRecord :=
  shard ← require_nonempty_string shard "shard";
  identifier ← require_nonempty_string identifier "identifier";
  reason ← require_nonempty_string reason "reason";
  source_table ← validate_source_table source_table;
  wikidata ← rejection_qid wikidata "observed" "";
  expected ← rejection_qid expected "expected" " or None";
  cascaded ← validate_cascaded_sections cascaded;
  mret (mkLedgerRecord shard source_table identifier wikidata expected reason cascaded).

(** * Merging *)

(** The order of [(shard, source_table, identifier, wikidata)]; [None] before text here, since a
    sort that would have to compare the two raises. *)
Definition str_ltb (a b : str) : bool := negb (str_leb b a).
Definition opt_leb (a b : option str) : bool :=
  match a, b with None, _ => true | Some _, None => false | Some x, Some y => str_leb x y end.
Definition ledger_leb (a b : LedgerRecord) : bool :=
  if negb (str_eqb (lr_shard a) (lr_shard b)) then str_ltb (lr_shard a) (lr_shard b)
  else if negb (str_eqb (lr_source_table a) (lr_source_table b)) then str_ltb (lr_source_table a) (lr_source_table b)
  else if negb (str_eqb (lr_identifier a) (lr_identifier b)) then str_ltb (lr_identifier a) (lr_identifier b)
  else opt_leb (lr_wikidata a) (lr_wikidata b).

(** Two records that differ first in an identifier that one of them does not have. *)
Definition incomparable (a b : LedgerRecord) : bool :=
  str_eqb (lr_shard a) (lr_shard b) && str_eqb (lr_source_table a) (lr_source_table b) && str_eqb (lr_identifier a) (lr_identifier b) &&
  negb (bool_decide (is_Some (lr_wikidata a) <-> is_Some (lr_wikidata b))).
Definition sort_records (records : list LedgerRecord) : outcome (list LedgerRecord) :=
  if existsb (fun a => existsb (incomparable a) records) records
  then Raise (exc CTypeError (msg "'<' not supported between instances of 'NoneType' and 'str'"))
  else mret (sort_stable ledger_leb records).

Definition merge_record (by_identity : list (Identity * LedgerRecord)) (record : LedgerRecord) : list (Identity * LedgerRecord) :=
  match kget (identity record) by_identity with
  | None => kset (identity record) record by_identity
  | Some existing =>
      kset (identity record)
        (mkLedgerRecord (lr_shard existing) (lr_source_table existing) (lr_identifier existing) (lr_wikidata existing) (lr_expected existing)
           (lr_reason existing) (Z.max (lr_cascaded_sections existing) (lr_cascaded_sections record))) by_identity
  end.
Definition merged_by_identity (records : list LedgerRecord) : list (Identity * LedgerRecord) := foldl merge_record [] records.
Definition merge_records (records : list LedgerRecord) : outcome (list LedgerRecord) := sort_records (merged_by_identity records).*2.

Section Ledger.
Context {RT : Runtime} {FF : FileFormats} {PQ : Parquet}.
Variable temporary_middle : gmap path node -> path -> str.
Abbreviation M := (PyM FsState).

(** * Files *)

Definition ledger_payload (ordered : list LedgerRecord) : pydict :=
  [(u "contract_version", VStr LEDGER_CONTRACT_VERSION); (u "records", VList ((VDict ∘ ledger_dict) <$> ordered))].

(** The JSON text is indented, another layout of the same document. *)
Definition save_ledger (p : path) (records : list LedgerRecord) : M unit :=
  mkdir (path_parent p);;
  ordered <- lift (sort_records records);;
  there <- gets (fun s => is_file p (tree s));;
  if there : bool then
    existing <- reads (read_json p);;
    if py_eqb existing (VDict (ledger_payload ordered)) then ret tt else atomic_write_json temporary_middle p (VDict (ledger_payload ordered))
  else atomic_write_json temporary_middle p (VDict (ledger_payload ordered)).

Definition iterable (v : pyval) : outcome (list pyval) :=
  match v with
  | VList l | VTuple l => mret l
  | VDict d => mret (VStr <$> d.*1)
  | VStr s => mret ((fun c => VStr [c]) <$> s)
  | _ => Raise (exc CTypeError [FStr (u "'" ++ type_name v ++ u "' object is not iterable")])
  end.

Definition load_entry (v : pyval) : outcome LedgerRecord :=
  match v with
  | VDict entry =>
      shard ← getitem_of "shard" entry;
      source_table ← getitem_of "source_table" entry;
      identifier ← getitem_of "identifier" entry;
      wikidata ← getitem_of "wikidata" entry;
      reason ← getitem_of "reason" entry;
      cascaded ← py_int (default (VInt 0) (dget (u "cascaded_sections") entry));
      ledger_record shard source_table identifier wikidata (dget_none (u "expected") entry) reason (VInt cascaded)
  | _ => Raise (exc CTypeError (msg "indices must be integers or slices, not str"))
  end.

Definition load_ledger (p : path) (t : gmap path node) : outcome (list LedgerRecord) :=
  if negb (is_file p t) then mret []
  else
    value ← read_json p t;
    raw ← as_entry value;
    _ ← raise_if (negb (py_eqb (dget_none (u "contract_version") raw) (VStr LEDGER_CONTRACT_VERSION)))
      (exc CValueError [FStr (u "Invalid ledger contract version: "); FRepr (dget_none (u "contract_version") raw)]);
    entries ← iterable (default (VList []) (dget (u "records") raw));
    mapM load_entry entries.

Fixpoint load_sources (sources : list path) (t : gmap path node) : outcome (list LedgerRecord) :=
  match sources with
  | [] => mret []
  | source :: rest =>
      records ← (if is_file source t then load_ledger source t else mret []);
      others ← load_sources rest t;
      mret (records ++ others)
  end.

Definition merge_ledger_files (sources : list path) (target : path) : M unit :=
  records <- reads (load_sources sources);;
  merged <- lift (merge_records records);;
  save_ledger target merged.

Definition integrity_dir (data_root : path) : path := sub (processed data_root) "integrity".
Definition cumulative_ledger (data_root : path) : path := child (integrity_dir data_root) LEDGER_FILENAME.
Definition stem_ledger (data_root : path) (stem : str) : path := child (integrity_dir data_root) (stem ++ u ".json").

Definition write_integrity_ledgers (data_root : path) (stem : str) (rejections : list LedgerRecord) : M unit :=
  save_ledger (stem_ledger data_root stem) rejections;;
  there <- gets (fun s => is_file (cumulative_ledger data_root) (tree s));;
  merge_ledger_files (stem_ledger data_root stem :: (if there : bool then [cumulative_ledger data_root] else [])) (cumulative_ledger data_root).

(** * Normalization *)

Record IntegrityPlan := {
  ip_stem : str; ip_retained_documents : list pydict; ip_retained_sections : list pydict; ip_rejections : list LedgerRecord }.

Definition read_sections (p : path) (t : gmap path node) : outcome (list pydict) :=
  if negb (is_file p t) then mret [] else read_columns SECTION_COLUMNS p t.

(** The identifiers of a polygon table whose values may name several. *)
Definition load_normalization_rows (data_root : path) (stem : str) (t : gmap path node) : outcome (gset str * list pydict * list pydict) :=
  let polygons := polygons_file data_root stem in
  let documents := voyage_documents_file data_root stem in
  _ ← raise_if (negb (is_file polygons t)) (missing (u "Polygons") polygons);
  rows ← read_columns [u "wikidata"] polygons t;
  _ ← raise_if (negb (is_file documents t)) (missing (u "wikivoyage/documents") documents);
  document_rows ← read_columns DOCUMENT_COLUMNS documents t;
  section_rows ← read_sections (voyage_sections_file data_root stem) t;
  mret (list_to_set (((rows : list pydict) ≫= fun row => qids_from_osm_tag (py_str (dget_none (u "wikidata") row))) : list str), document_rows, section_rows).

Definition retain_documents_ (stem : str) (valid_qids : gset str) (rows : list pydict) : outcome (Partition * list LedgerRecord) :=
  let p := partition_wikivoyage_documents rows valid_qids in
  rejections ← mapM (fun d => ledger_record (VStr stem) (VStr (u "wikivoyage_documents")) (VStr d.1) (VStr d.2) VNone
                                (VStr REASON_WIKIVOYAGE_ABSENT) (VInt 0)) (rejected_documents p);
  mret (p, rejections).

(** [replace(record, cascaded_sections=...)] validates again. *)
Definition with_cascades (cascades : list (str * Z)) (r : LedgerRecord) : outcome LedgerRecord :=
  ledger_record (VStr (lr_shard r)) (VStr (lr_source_table r)) (VStr (lr_identifier r)) (opt_str (lr_wikidata r)) (opt_str (lr_expected r))
    (VStr (lr_reason r)) (VInt (default 0 (dget (lr_identifier r) cascades))).

Definition plan_integrity_normalization (data_root : path) (stem : str) (t : gmap path node) : outcome IntegrityPlan :=
  '(valid_qids, documents, sections) ← load_normalization_rows data_root stem t;
  '(p, rejections) ← retain_documents_ stem valid_qids documents;
  let q := partition_wikivoyage_sections sections (list_to_set (rejected_documents p).*1) in
  counted ← mapM (with_cascades (cascades_by_document q)) rejections;
  merged ← merge_records counted;
  mret {| ip_stem := stem; ip_retained_documents := retained_rows p; ip_retained_sections := kept_rows q; ip_rejections := merged |}.

Definition apply_integrity_normalization (data_root : path) (plan : IntegrityPlan) : M unit :=
  atomic_write_parquet temporary_middle (voyage_documents_file data_root (ip_stem plan)) document_schema (ip_retained_documents plan);;
  atomic_write_parquet temporary_middle (voyage_sections_file data_root (ip_stem plan)) section_schema (ip_retained_sections plan);;
  write_integrity_ledgers data_root (ip_stem plan) (ip_rejections plan).
End Ledger.
