(* ===== verification/IntegrityProofs.v ===== *)
(** The integrity pass keeps exactly the rows that join and is idempotent; interrupted between its
    two tables it strands sections; and it is stricter than the plan of the migration about polygons
    whose tag names several items. *)
From stdpp Require Import gmap sorting.
From S2P Require Import Prelude Py PyStr PyText Fs Calm Artifacts Atomic KeyDict Linker PolygonLinks Tables Integrity RejectionLedger.

Lemma filter_all {A} (P : A -> Prop) `{!forall x, Decision (P x)} (l : list A) : (forall x, x ∈ l -> P x) -> filter P l = l.
Proof.
  induction l as [|x l IH]; intros Hall; [done|]. rewrite filter_cons_True by (apply Hall; left). f_equal. apply IH. intros y Hy. apply Hall. by right.
Qed.

Lemma filter_nothing {A} (P : A -> Prop) `{!forall x, Decision (P x)} (l : list A) : (forall x, x ∈ l -> ~ P x) -> filter P l = [].
Proof.
  induction l as [|x l IH]; intros Hall; [done|]. rewrite filter_cons_False by (apply Hall; left). apply IH. intros y Hy. apply Hall. by right.
Qed.

Lemma Forall_of_filter {A} (P Q : A -> Prop) `{!forall x, Decision (Q x)} (l : list A) : Forall P l -> Forall P (filter Q l).
Proof. rewrite !Forall_forall. intros HP x [_ Hx]%list_elem_of_filter. auto. Qed.

Section Integrity.
Context {RT : Runtime} {FF : FileFormats} {PQ : Parquet} {PL : ParquetLaws}.
Context (temporary_middle : gmap path node -> path -> str).
Hypothesis temporary_fresh : forall t p, t !! temporary_name temporary_middle p t = None.

(** * What the partitions keep *)

Definition belongs (valid_qids : gset str) (row : pydict) : Prop := text_or "wikidata" row ∈ valid_qids.
Definition of_document (ids : gset str) (row : pydict) : Prop := text_or "document_id" row ∈ ids.
#[local] Instance belongs_dec q row : Decision (belongs q row).
Proof. unfold belongs. apply _. Defined.
#[local] Instance of_document_dec ids row : Decision (of_document ids row).
Proof. unfold of_document. apply _. Defined.

Lemma partition_documents_filter rows q :
  partition_wikivoyage_documents rows q =
    {| retained_rows := project_row DOCUMENT_COLUMNS <$> filter (belongs q) rows;
       rejected_documents := (fun row => (text_or "document_id" row, text_or "wikidata" row)) <$> filter (fun row => ~ belongs q row) rows |}.
Proof.
  induction rows as [|row rows IH]; simpl; [done|]. rewrite IH. case_bool_decide as H; cbn [retained_rows rejected_documents].
  - rewrite filter_cons_True by done. rewrite filter_cons_False by (intros Hn; by apply Hn). done.
  - rewrite filter_cons_False by done. rewrite filter_cons_True by done. done.
Qed.

Lemma partition_sections_filter rows ids :
  kept_rows (partition_wikivoyage_sections rows ids) = project_row SECTION_COLUMNS <$> filter (fun row => ~ of_document ids row) rows /\
  cascaded_count (partition_wikivoyage_sections rows ids) = len (filter (of_document ids) rows).
Proof.
  unfold partition_wikivoyage_sections.
  assert (H : forall acc, kept_rows (foldl (cascade_step ids) acc rows) = kept_rows acc ++ (project_row SECTION_COLUMNS <$> filter (fun row => ~ of_document ids row) rows) /\
    cascaded_count (foldl (cascade_step ids) acc rows) = cascaded_count acc + len (filter (of_document ids) rows)); [|apply (H {| kept_rows := []; cascaded_count := 0; cascades_by_document := [] |})].
  induction rows as [|row rows IH]; intros acc; simpl; [split; [by rewrite app_nil_r|unfold len; simpl; lia]|].
  destruct (IH (cascade_step ids acc row)) as [-> ->]. unfold cascade_step. case_bool_decide as H; cbn [kept_rows cascaded_count].
  - rewrite filter_cons_False by (intros Hn; by apply Hn). rewrite filter_cons_True by done. split; [done|]. unfold len. simpl. lia.
  - rewrite filter_cons_True by done. rewrite filter_cons_False by done. csimpl. split; [by rewrite <- app_assoc|done].
Qed.

(** How many sections of a document were dropped. *)
Lemma cascade_counts rows ids d :
  default 0 (dget d (cascades_by_document (partition_wikivoyage_sections rows ids))) =
    len (filter (fun row => text_or "document_id" row = d /\ of_document ids row) rows).
Proof.
  unfold partition_wikivoyage_sections.
  assert (H : forall acc, default 0 (dget d (cascades_by_document (foldl (cascade_step ids) acc rows))) =
    default 0 (dget d (cascades_by_document acc)) + len (filter (fun row => text_or "document_id" row = d /\ of_document ids row) rows));
    [|apply (H {| kept_rows := []; cascaded_count := 0; cascades_by_document := [] |})].
  induction rows as [|row rows IH]; intros acc; simpl; [unfold len; simpl; lia|]. rewrite IH. unfold cascade_step.
  case_bool_decide as Hin; cbn [cascades_by_document].
  - destruct (decide (text_or "document_id" row = d)) as [<-|Hne].
    + rewrite dget_dset_eq, filter_cons_True by done. unfold len. simpl. lia.
    + rewrite dget_dset_ne, filter_cons_False by (done || tauto). done.
  - rewrite filter_cons_False by (unfold of_document; tauto). done.
Qed.

(** * Reading *)

Lemma read_columns_keys columns p t rows : read_columns columns p t = Ok rows -> Forall (fun row : pydict => row.*1 = columns) rows.
Proof.
  unfold read_columns. destruct (read_table p t) as [[schema all]|]; simpl; [|done]. destruct (negb _); simpl; [done|]. intros [= <-].
  apply Forall_fmap, Forall_true. intros row. simpl. unfold project_row. rewrite <- list_fmap_compose. apply list_fmap_id.
Qed.

Lemma project_read columns rows : NoDup columns -> Forall (fun row : pydict => row.*1 = columns) rows -> project_row columns <$> rows = rows.
Proof. intros Hn. induction 1 as [|row rows Hr _ IH]; [done|]. csimpl. f_equal; [by apply project_row_id|exact IH]. Qed.

Lemma document_columns_NoDup : NoDup DOCUMENT_COLUMNS.
Proof. by_evaluation. Qed.
Lemma section_columns_NoDup : NoDup SECTION_COLUMNS.
Proof. by_evaluation. Qed.
Lemma augmentation_schema_names columns : (augmentation_schema columns).*1 = columns.
Proof. unfold augmentation_schema. rewrite <- list_fmap_compose. apply list_fmap_id. Qed.

Lemma read_required_keys p label columns t rows : read_table_required p label columns t = Ok rows -> Forall (fun row : pydict => row.*1 = columns) rows.
Proof. unfold read_table_required. destruct (negb _); [done|]. apply read_columns_keys. Qed.

Lemma load_inputs_split data_root stem t documents sections q :
  load_wikivoyage_integrity_inputs data_root stem t = Ok (documents, sections, q) <->
  read_polygon_wikidata_set (polygons_file data_root stem) t = Ok q /\
  read_table_required (voyage_documents_file data_root stem) "wikivoyage/documents" DOCUMENT_COLUMNS t = Ok documents /\
  (if is_file (voyage_sections_file data_root stem) t
   then read_table_required (voyage_sections_file data_root stem) "wikivoyage/sections" SECTION_COLUMNS t else Ok []) = Ok sections.
Proof.
  unfold load_wikivoyage_integrity_inputs. destruct (read_polygon_wikidata_set _ t) as [q0|]; cbn [mbind outcome_bind]; [|split; [done|by intros [? _]]].
  destruct (read_table_required _ _ DOCUMENT_COLUMNS t) as [ds|]; cbn [mbind outcome_bind]; [|split; [done|by intros (_ & ? & _)]].
  change (mret (M := outcome) ([] : list pydict)) with (Ok ([] : list pydict)).
  destruct (if is_file _ t then _ else _) as [ss|]; cbn [mbind outcome_bind]; [|split; [done|by intros (_ & _ & ?)]].
  unfold mret, outcome_ret. split; [intros [= -> -> ->]; done|intros ([= ->] & [= ->] & [= ->]); done].
Qed.

Lemma load_inputs_keys data_root stem t documents sections q :
  load_wikivoyage_integrity_inputs data_root stem t = Ok (documents, sections, q) ->
  Forall (fun row : pydict => row.*1 = DOCUMENT_COLUMNS) documents /\ Forall (fun row : pydict => row.*1 = SECTION_COLUMNS) sections.
Proof.
  intros H. apply load_inputs_split in H as (_ & Hd & Hs). split; [by apply read_required_keys in Hd|].
  destruct (is_file _ t); [by apply read_required_keys in Hs|]. injection Hs as <-. constructor.
Qed.

(** * One pass *)

Section Pass.
Context (data_root : path) (stem : str).
Let documents_file := voyage_documents_file data_root stem.
Let sections_file := voyage_sections_file data_root stem.

Lemma files_distinct : documents_file ≠ sections_file /\ polygons_file data_root stem ≠ documents_file /\ polygons_file data_root stem ≠ sections_file.
Proof.
  unfold documents_file, sections_file, voyage_documents_file, voyage_sections_file, polygons_file, processed_polygons, sub, child.
  change (path_components (u "wikivoyage/documents")) with [u "wikivoyage"; u "documents"].
  change (path_components (u "wikivoyage/sections")) with [u "wikivoyage"; u "sections"].
  change (path_components (u "polygons")) with [u "polygons"]. rewrite <- !app_assoc.
  split_and!; intros H%(inj (app (processed data_root))); by vm_compute in H.
Qed.

Definition rejected (q : gset str) (documents : list pydict) : list pydict := filter (fun row => ~ belongs q row) documents.
Definition rejected_ids (q : gset str) (documents : list pydict) : gset str := list_to_set (text_or "document_id" <$> rejected q documents).
Definition joined (q : gset str) (documents : list pydict) : list pydict := filter (belongs q) documents.
Definition kept_sections (q : gset str) (documents sections : list pydict) : list pydict :=
  filter (fun row => ~ of_document (rejected_ids q documents) row) sections.
Definition cascaded (q : gset str) (documents sections : list pydict) : list pydict := filter (of_document (rejected_ids q documents)) sections.

(** The directories of the two tables are there. *)
Definition homes (t : gmap path node) : Prop :=
  Forall (fun p => t !! p = Some Dir) (prefixes (path_parent documents_file)) /\ Forall (fun p => t !! p = Some Dir) (prefixes (path_parent sections_file)).

Definition after_pass (q : gset str) (documents sections : list pydict) (b1 b2 : list N) (t : gmap path node) : gmap path node :=
  let t1 := if rejected q documents then t else <[documents_file := File (CBytes b1)]> t in
  if cascaded q documents sections then t1 else <[sections_file := File (CBytes b2)]> t1.

Lemma len_pos {A} (l : list A) : (0 <? len l) = match l with [] => false | _ => true end.
Proof. by destruct l. Qed.

Lemma read_required_file p label columns t rows : read_table_required p label columns t = Ok rows -> exists c, t !! p = Some (File c).
Proof. unfold read_table_required, is_file. destruct (t !! p) as [[c|]|]; [eauto|done|done]. Qed.

Lemma rejected_ids_partition (rows : list pydict) q :
  list_to_set (((fun row => (text_or "document_id" row, text_or "wikidata" row)) <$> filter (fun row => ~ belongs q row) rows).*1) = rejected_ids q rows.
Proof. unfold rejected_ids. by rewrite <- list_fmap_compose. Qed.

Lemma enforce_calm s documents sections q b1 b2 :
  calm s -> load_wikivoyage_integrity_inputs data_root stem (tree s) = Ok (documents, sections, q) ->
  (rejected q documents ≠ [] -> encode_table document_schema (joined q documents) = Ok b1 /\ homes (tree s)) ->
  (cascaded q documents sections ≠ [] -> encode_table section_schema (kept_sections q documents sections) = Ok b2) ->
  calmly (enforce_wikivoyage_integrity temporary_middle data_root stem false) s (fun r t =>
    t = after_pass q documents sections b1 b2 (tree s) /\ wv_rejected_documents r = len (rejected q documents) /\
    wv_cascaded_sections r = len (cascaded q documents sections) /\ (rejected q documents = [] -> wv_rejections r = [])).
Proof.
  intros Hc Hload H1 H2. destruct (load_inputs_keys _ _ _ _ _ _ Hload) as [Hdk Hsk]. apply load_inputs_split in Hload as Hload'.
  destruct Hload' as (_ & Hdoc & Hsec). destruct (read_required_file _ _ _ _ _ Hdoc) as [cd Hcd].
  unfold enforce_wikivoyage_integrity. eapply calmly_reads_then; [exact Hload|]. cbn iota beta zeta.
  rewrite partition_documents_filter. cbn [retained_rows rejected_documents]. rewrite rejected_ids_partition.
  destruct (partition_sections_filter sections (rejected_ids q documents)) as [Hkept Hcount]. rewrite Hkept, Hcount.
  fold (kept_sections q documents sections) (cascaded q documents sections). fold (joined q documents) (rejected q documents).
  rewrite project_read by (apply document_columns_NoDup || (by apply Forall_of_filter)).
  rewrite project_read by (apply section_columns_NoDup || (by apply Forall_of_filter)).
  assert (Hlen : forall cs, len (attach_cascade_counts (wikivoyage_rejections stem
    {| retained_rows := joined q documents; rejected_documents := (fun row => (text_or "document_id" row, text_or "wikidata" row)) <$> rejected q documents |}) cs) = len (rejected q documents)).
  { intros cs. unfold attach_cascade_counts, wikivoyage_rejections, len. cbn [rejected_documents]. by rewrite !length_fmap. }
  rewrite Hlen, !len_pos. cbn [negb]. unfold after_pass.
  eapply calmly_bind with (Q := fun _ t => t = after_pass q documents sections b1 b2 (tree s)).
  - unfold write_wikivoyage_integrity_tables, after_pass. destruct (rejected q documents) as [|r0 rs] eqn:Er.
    + assert (Hnone : cascaded q documents sections = []).
      { unfold cascaded, rejected_ids. rewrite Er. csimpl. clear. induction sections as [|x l IH]; [done|].
        rewrite filter_cons_False; [done|]. unfold of_document. set_solver. }
      rewrite Hnone. cbn [andb]. eapply calmly_bind; [by apply (calmly_ret tt s (fun _ t => t = tree s))|]. intros [] s1 Hc1 E1. simpl in E1. by apply calmly_ret.
    + destruct H1 as [Hb1 [Hh1 Hh2]]; [done|]. cbn [andb].
      eapply calmly_bind; [by apply (calmly_atomic_write_parquet _ _ _ _ b1); [done|done|done|done|rewrite Hcd]|].
      intros [] s1 Hc1 E1. simpl in E1. destruct (cascaded q documents sections) as [|c0 cs] eqn:Ec; cbn [andb]; [by apply calmly_ret|].
      eapply calmly_impl; [apply (calmly_atomic_write_parquet _ _ _ _ b2); [done|by apply H2|done| |]|].
      * rewrite E1. eapply Forall_impl; [exact Hh2|]. intros p Hp. simpl. rewrite lookup_insert_ne; [done|]. intros E. rewrite <- E in Hp. unfold documents_file in Hp. congruence.
      * rewrite E1, lookup_insert_ne by (apply files_distinct). fold sections_file in Hsec.
        destruct (is_file sections_file (tree s)) eqn:Ef; [intros Hdir; revert Ef; unfold is_file, sections_file in *; by rewrite Hdir|]. injection Hsec as <-. done.
      * intros _ t ->. by rewrite E1.
  - intros [] s1 Hc1 E1. simpl in E1. apply calmly_ret; [done|]. cbn [wv_rejected_documents wv_cascaded_sections wv_rejections]. split_and!; [done..|].
    intros Er. unfold wikivoyage_rejections, attach_cascade_counts. cbn [rejected_documents]. by rewrite Er.
Qed.

(** The inputs of the next pass. *)
Lemma load_after_pass s documents sections q b1 b2 :
  load_wikivoyage_integrity_inputs data_root stem (tree s) = Ok (documents, sections, q) ->
  Forall (fits document_schema) documents -> Forall (fits section_schema) sections ->
  (rejected q documents ≠ [] -> encode_table document_schema (joined q documents) = Ok b1) ->
  (cascaded q documents sections ≠ [] -> encode_table section_schema (kept_sections q documents sections) = Ok b2) ->
  load_wikivoyage_integrity_inputs data_root stem (after_pass q documents sections b1 b2 (tree s)) =
    Ok (joined q documents, kept_sections q documents sections, q).
Proof.
  intros Hload Hdf Hsf H1 H2. destruct (load_inputs_keys _ _ _ _ _ _ Hload) as [Hdk Hsk]. apply load_inputs_split in Hload as (Hq & Hdoc & Hsec).
  destruct files_distinct as (Hds & Hpd & Hps). set (t' := after_pass q documents sections b1 b2 (tree s)).
  assert (Hother : forall p, p ≠ documents_file -> p ≠ sections_file -> t' !! p = tree s !! p).
  { intros p Hp1 Hp2. unfold t', after_pass. destruct (cascaded _ _ _), (rejected q documents); rewrite ?lookup_insert_ne by done; done. }
  assert (Hd' : t' !! documents_file = if rejected q documents then tree s !! documents_file else Some (File (CBytes b1))).
  { unfold t', after_pass. destruct (cascaded _ _ _), (rejected q documents); rewrite ?(lookup_insert_ne _ sections_file), ?lookup_insert_eq by done; done. }
  assert (Hs' : t' !! sections_file = if cascaded q documents sections then tree s !! sections_file else Some (File (CBytes b2))).
  { unfold t', after_pass. destruct (cascaded _ _ _), (rejected q documents); rewrite ?lookup_insert_eq, ?(lookup_insert_ne _ documents_file) by done; done. }
  apply load_inputs_split. split_and!.
  - rewrite <- Hq. unfold read_polygon_wikidata_set, is_file, read_columns, read_table, read_bytes. by rewrite Hother.
  - unfold read_table_required, is_file. fold documents_file. rewrite Hd'. destruct (rejected q documents) as [|r0 rs] eqn:Er.
    + revert Hdoc. unfold read_table_required, is_file, read_columns, read_table, read_bytes. fold documents_file. rewrite Hd'. intros ->. f_equal.
      symmetry. apply filter_all. intros x Hx. destruct (decide (belongs q x)) as [|Hn]; [done|]. assert (x ∈ rejected q documents) by (by apply list_elem_of_filter).
      rewrite Er in *. set_solver.
    + cbn [negb]. rewrite <- (augmentation_schema_names DOCUMENT_COLUMNS) at 1.
      apply (read_columns_written _ document_schema _ b1); [by apply H1|by rewrite Hd'|unfold document_schema; rewrite augmentation_schema_names; apply document_columns_NoDup|].
      by apply Forall_of_filter.
  - unfold read_table_required, is_file. fold sections_file. rewrite Hs'. destruct (cascaded q documents sections) as [|c0 cs] eqn:Ec.
    + assert (Hk : kept_sections q documents sections = sections).
      { apply filter_all. intros x Hx Ho. assert (x ∈ cascaded q documents sections) by (by apply list_elem_of_filter). rewrite Ec in *. set_solver. }
      rewrite Hk. revert Hsec. unfold read_table_required, is_file, read_columns, read_table, read_bytes. fold sections_file. by rewrite Hs'.
    + cbn [negb]. rewrite <- (augmentation_schema_names SECTION_COLUMNS) at 1.
      apply (read_columns_written _ section_schema _ b2); [by apply H2|by rewrite Hs'|unfold section_schema; rewrite augmentation_schema_names; apply section_columns_NoDup|].
      by apply Forall_of_filter.
Qed.

Lemma rejected_joined q documents : rejected q (joined q documents) = [].
Proof. apply filter_nothing. intros x [Hx _]%list_elem_of_filter. auto. Qed.

Lemma cascaded_nothing q documents sections : rejected q documents = [] -> cascaded q documents sections = [].
Proof. intros Er. apply filter_nothing. intros x _. unfold of_document, rejected_ids. rewrite Er. set_solver. Qed.

(** Another pass over tables that join finds nothing. *)
Lemma enforce_nothing s documents sections q :
  calm s -> load_wikivoyage_integrity_inputs data_root stem (tree s) = Ok (documents, sections, q) -> rejected q documents = [] ->
  exists r s2, enforce_wikivoyage_integrity temporary_middle data_root stem false s = (Ok r, s2) /\ tree s2 = tree s /\
    wv_rejections r = [] /\ wv_cascaded_sections r = 0.
Proof.
  intros Hc Hload Er. pose proof (cascaded_nothing q documents sections Er) as Ec.
  destruct (enforce_calm s documents sections q [] []) as (r & s2 & E & _ & Ht & _ & Hcount & Hrej); [done|done|by rewrite Er|by rewrite Ec|].
  exists r, s2. split_and!; [done| |auto|by rewrite Hcount, Ec]. rewrite Ht. unfold after_pass. by rewrite Er, Ec.
Qed.

(** ** An interrupted pass *)

Lemma load_depends t t' :
  (forall p, p = polygons_file data_root stem \/ p = documents_file \/ p = sections_file -> t' !! p = t !! p) ->
  load_wikivoyage_integrity_inputs data_root stem t' = load_wikivoyage_integrity_inputs data_root stem t.
Proof.
  intros H. unfold load_wikivoyage_integrity_inputs, read_polygon_wikidata_set, read_table_required, read_columns, read_table, read_bytes, is_file.
  fold documents_file sections_file. rewrite !H by auto. done.
Qed.

Lemma interrupted_pass s documents sections q e s1 :
  load_wikivoyage_integrity_inputs data_root stem (tree s) = Ok (documents, sections, q) -> Forall (fits document_schema) documents ->
  cascaded q documents sections ≠ [] ->
  enforce_wikivoyage_integrity temporary_middle data_root stem false s = (Raise e, s1) -> tree s1 !! documents_file ≠ tree s !! documents_file ->
  load_wikivoyage_integrity_inputs data_root stem (tree s1) = Ok (joined q documents, sections, q).
Proof.
  intros Hload Hdf Hcas E Hchg. destruct (load_inputs_keys _ _ _ _ _ _ Hload) as [Hdk Hsk]. apply load_inputs_split in Hload as Hl'. destruct Hl' as (Hq & Hdoc & Hsec).
  destruct (read_required_file _ _ _ _ _ Hdoc) as [cd Hcd]. fold documents_file in Hcd. destruct files_distinct as (Hds & Hpd & Hps).
  assert (Hcs : exists c, tree s !! sections_file = Some (File c)).
  { fold sections_file in Hsec. unfold is_file in Hsec. destruct (tree s !! sections_file) as [[c|]|]; [eauto|..]; injection Hsec as <-; done. }
  assert (Hcp : exists c, tree s !! polygons_file data_root stem = Some (File c)).
  { unfold read_polygon_wikidata_set, is_file in Hq. destruct (tree s !! polygons_file data_root stem) as [[c|]|]; [eauto|done|done]. }
  destruct Hcs as [cs Hcs]. destruct Hcp as [cp Hcp].
  unfold enforce_wikivoyage_integrity, pbind at 1, reads in E. rewrite Hload in E. cbn iota beta zeta in E.
  rewrite partition_documents_filter in E. cbn [retained_rows rejected_documents] in E. rewrite rejected_ids_partition in E.
  destruct (partition_sections_filter sections (rejected_ids q documents)) as [Hkept Hcount]. rewrite Hkept, Hcount in E.
  fold (kept_sections q documents sections) (cascaded q documents sections) (joined q documents) in E.
  rewrite (project_read DOCUMENT_COLUMNS) in E by (apply document_columns_NoDup || (by apply Forall_of_filter)).
  unfold pbind at 1 in E. unfold write_wikivoyage_integrity_tables in E.
  match type of E with context [if ?b then atomic_write_parquet _ _ document_schema _ else _] => destruct b end.
  2: { exfalso. unfold pbind, ret in E. destruct (0 <? len (cascaded q documents sections)); cbn [andb negb] in E; [|done].
       destruct (atomic_write_parquet _ _ section_schema _ s) as [o2 s3] eqn:E2. apply atomic_write_parquet_replaced in E2 as [_ Ho _]; [|done].
       destruct o2; [done|]. injection E as <- <-. apply Hchg. rewrite Hcd. by apply Ho. }
  unfold pbind at 1 in E. destruct (atomic_write_parquet _ _ document_schema _ s) as [o1 s2] eqn:E1.
  apply atomic_write_parquet_replaced in E1 as [Ht1 Ho1 _]; [|done].
  destruct Ht1 as [[[e1 ->] Hsame]|(-> & c1 & (b1 & Hb1 & ->) & Hd1)]; [injection E as <- <-; done|].
  assert (Hs1 : tree s1 !! documents_file = Some (File (CBytes b1)) /\ tree s1 !! sections_file = Some (File cs) /\
    tree s1 !! polygons_file data_root stem = Some (File cp)).
  { destruct (0 <? len (cascaded q documents sections)); cbn [andb negb] in E; [|done].
    destruct (atomic_write_parquet _ _ section_schema _ s2) as [o2 s3] eqn:E2. apply atomic_write_parquet_replaced in E2 as [Ht2 Ho2 _]; [|done].
    destruct Ht2 as [[[e2 ->] Hsame2]|(-> & _)]; [|done]. injection E as <- <-. split_and!.
    - by apply Ho2.
    - fold sections_file in Hsame2. rewrite Hsame2. by apply Ho1.
    - apply Ho2; [done|]. by apply Ho1. }
  destruct Hs1 as (H1 & H2 & H3). set (t1 := <[documents_file := File (CBytes b1)]> (tree s)).
  rewrite (load_depends t1); [|intros p [->|[->| ->]]; unfold t1; rewrite ?lookup_insert_eq, ?lookup_insert_ne by done; congruence].
  destruct (rejected q documents) as [|r0 rs] eqn:Er; [by rewrite (cascaded_nothing q documents sections Er) in Hcas|].
  apply load_inputs_split. split_and!.
  - rewrite <- Hq. unfold read_polygon_wikidata_set, is_file, read_columns, read_table, read_bytes, t1. by rewrite lookup_insert_ne.
  - unfold read_table_required, is_file. fold documents_file. unfold t1 at 1. rewrite lookup_insert_eq. cbn [negb].
    rewrite <- (augmentation_schema_names DOCUMENT_COLUMNS) at 1.
    apply (read_columns_written _ document_schema _ b1); [done|unfold t1; by rewrite lookup_insert_eq|unfold document_schema; rewrite augmentation_schema_names; apply document_columns_NoDup|].
    by apply Forall_of_filter.
  - revert Hsec. unfold read_table_required, is_file, read_columns, read_table, read_bytes, t1. fold sections_file. by rewrite !lookup_insert_ne.
Qed.
End Pass.
End Integrity.

(** * Properties *)

Section IntegrityTheorems.
Context {RT : Runtime} {FF : FileFormats} {PQ : Parquet} {PL : ParquetLaws}.

(** C34: The integrity pass computes the join and is idempotent.  Without faults it leaves exactly the
    Wikivoyage documents whose item is in the polygon table and exactly the sections of documents that
    were not rejected, counts what it dropped, and leaves the files alone when nothing is rejected; a
    second pass rejects nothing and changes nothing. *)
Theorem enforcement_is_the_join temporary_middle data_root stem s documents sections q b1 b2 :
  (forall t p, t !! temporary_name temporary_middle p t = None) -> calm s ->
  load_wikivoyage_integrity_inputs data_root stem (tree s) = Ok (documents, sections, q) -> homes data_root stem (tree s) ->
  Forall (fits document_schema) documents -> Forall (fits section_schema) sections ->
  encode_table document_schema (joined q documents) = Ok b1 -> encode_table section_schema (kept_sections q documents sections) = Ok b2 ->
  exists r s1, enforce_wikivoyage_integrity temporary_middle data_root stem false s = (Ok r, s1) /\
    load_wikivoyage_integrity_inputs data_root stem (tree s1) = Ok (joined q documents, kept_sections q documents sections, q) /\
    wv_rejected_documents r = len (rejected q documents) /\ wv_cascaded_sections r = len (cascaded q documents sections) /\
    (rejected q documents = [] -> tree s1 = tree s) /\
    exists r2 s2, enforce_wikivoyage_integrity temporary_middle data_root stem false s1 = (Ok r2, s2) /\ tree s2 = tree s1 /\ wv_rejections r2 = [].
Proof.
  intros Hfresh Hc Hload Hh Hdf Hsf H1 H2.
  destruct (enforce_calm temporary_middle Hfresh data_root stem s documents sections q b1 b2 Hc Hload) as (r & s1 & E & Hc1 & Ht & Hn & Hm & Hr); [done..|].
  assert (Hload1 : load_wikivoyage_integrity_inputs data_root stem (after_pass data_root stem q documents sections b1 b2 (tree s)) =
    Ok (joined q documents, kept_sections q documents sections, q)) by (eapply load_after_pass; eauto).
  rewrite <- Ht in Hload1.
  exists r, s1. split_and!; [done..| |].
  - intros Er. assert (Ec : cascaded q documents sections = []) by (by eapply cascaded_nothing). rewrite Ht. unfold after_pass. by rewrite Er, Ec.
  - destruct (enforce_nothing temporary_middle Hfresh data_root stem s1 _ _ q Hc1 Hload1) as (r2 & s2 & E2 & Ht2 & Hr2 & _); [by eapply rejected_joined|]. by exists r2, s2.
Qed.

(** C35: An interrupted integrity pass strands sections for good.  When a pass that rejects documents
    with sections fails after it has replaced the document table, the next pass succeeds, reports no
    rejection and changes nothing, although the section table still has rows of the rejected documents. *)
Theorem interrupted_pass_strands_sections temporary_middle data_root stem s documents sections q e s1 s2 :
  (forall t p, t !! temporary_name temporary_middle p t = None) ->
  load_wikivoyage_integrity_inputs data_root stem (tree s) = Ok (documents, sections, q) ->
  Forall (fits document_schema) documents -> NoDup (text_or "document_id" <$> documents) -> cascaded q documents sections ≠ [] ->
  enforce_wikivoyage_integrity temporary_middle data_root stem false s = (Raise e, s1) ->
  tree s1 !! voyage_documents_file data_root stem ≠ tree s !! voyage_documents_file data_root stem ->
  calm s2 -> tree s2 = tree s1 ->
  (exists r s3, enforce_wikivoyage_integrity temporary_middle data_root stem false s2 = (Ok r, s3) /\ tree s3 = tree s1 /\
    wv_rejections r = [] /\ wv_cascaded_sections r = 0) /\
  load_wikivoyage_integrity_inputs data_root stem (tree s1) = Ok (joined q documents, sections, q) /\
  exists row, row ∈ sections /\ text_or "document_id" row ∉ text_or "document_id" <$> joined q documents.
Proof.
  intros Hfresh Hload Hdf Hnd Hcas E Hchg Hc2 Ht2. pose proof (interrupted_pass temporary_middle Hfresh data_root stem s documents sections q e s1 Hload Hdf Hcas E Hchg) as Hload1.
  split_and!; [|done|].
  - rewrite <- Ht2 in Hload1 |- *. apply (enforce_nothing temporary_middle Hfresh data_root stem s2 _ _ q Hc2 Hload1). by eapply rejected_joined.
  - destruct (cascaded q documents sections) as [|row rest] eqn:Ec; [done|]. assert (Hrow : row ∈ cascaded q documents sections) by (rewrite Ec; left).
    apply list_elem_of_filter in Hrow as [Hof Hin]. exists row. split; [done|]. intros (d & Ed & [Hb Hd]%list_elem_of_filter)%list_elem_of_fmap.
    unfold of_document, rejected_ids in Hof. apply elem_of_list_to_set, list_elem_of_fmap in Hof as (d' & Ed' & [Hb' Hd']%list_elem_of_filter).
    apply Hb'. rewrite <- (NoDup_fmap_eq (text_or "document_id") documents d d'); [done|done|done|done|congruence].
Qed.

(** C36: The integrity pass drops documents of polygons whose tag names several items.  The plan of
    the migration keeps a Wikivoyage document whose item is one of the items named by a polygon's tag;
    the integrity pass, which compares whole tags, rejects it unless some tag names it alone. *)
Theorem multivalued_tags_lose_documents data_root stem t documents sections q q' documents' sections' polygons document polygon :
  load_wikivoyage_integrity_inputs data_root stem t = Ok (documents, sections, q) ->
  load_normalization_rows data_root stem t = Ok (q', documents', sections') ->
  read_columns [u "wikidata"] (polygons_file data_root stem) t = Ok polygons ->
  document ∈ documents -> polygon ∈ polygons ->
  text_or "wikidata" document ∈ qids_from_osm_tag (py_str (dget_none (u "wikidata") polygon)) ->
  (forall p, p ∈ polygons -> py_str (dget_none (u "wikidata") p) ≠ text_or "wikidata" document) ->
  documents' = documents /\ document ∈ retained_rows (partition_wikivoyage_documents documents' q') /\ document ∈ rejected q documents.
Proof.
  intros Hload Hplan Hpol Hd Hp Hq Hno. destruct (load_inputs_keys _ _ _ _ _ _ Hload) as [Hdk _]. apply load_inputs_split in Hload as (Hset & Hdoc & _).
  unfold load_normalization_rows in Hplan. apply outcome_bind_Ok in Hplan as ([] & _ & Hplan). rewrite Hpol in Hplan. cbn [mbind outcome_bind] in Hplan.
  apply outcome_bind_Ok in Hplan as ([] & _ & Hplan). unfold read_table_required in Hdoc. destruct (negb _) in Hdoc; [done|].
  rewrite Hdoc in Hplan. cbn [mbind outcome_bind] in Hplan. apply outcome_bind_Ok in Hplan as (ss & _ & Hplan).
  injection Hplan as <- <- <-. split_and!; [done| |].
  - rewrite partition_documents_filter. cbn [retained_rows]. rewrite project_read by (apply document_columns_NoDup || (by apply Forall_of_filter)).
    apply list_elem_of_filter. split; [|done]. unfold belongs. apply elem_of_list_to_set, list_elem_of_bind. by exists polygon.
  - apply list_elem_of_filter. split; [|done]. unfold belongs, read_polygon_wikidata_set in *. destruct (negb _) in Hset; [done|]. rewrite Hpol in Hset. cbn [mbind outcome_bind] in Hset.
    injection Hset as <-. intros (v & Hv & [_ (p & -> & Hp')%list_elem_of_fmap]%list_elem_of_filter)%elem_of_list_to_set%list_elem_of_fmap. by apply (Hno p Hp').
Qed.
End IntegrityTheorems.

(** * The ledger

    The ledger of rejections never forgets: whatever fails while a region's rejections are recorded,
    every rejection recorded before is still in the cumulative ledger, once, with a count that did not
    shrink; and a ledger that is saved is read back. *)

(** * Merging *)

(** Every record has its identity in the other list, with a count that is at least as large. *)
Definition covers (out l : list LedgerRecord) : Prop :=
  forall r, r ∈ l -> exists r', r' ∈ out /\ identity r' = identity r /\ lr_cascaded_sections r <= lr_cascaded_sections r'.

Lemma covers_refl l : covers l l.
Proof. intros r Hr. exists r. split_and!; [done|done|lia]. Qed.

Lemma covers_perm out out' l : out ≡ₚ out' -> covers out l -> covers out' l.
Proof. intros Hp H r Hr. destruct (H r Hr) as (r' & Hr' & ?). exists r'. by rewrite <- Hp. Qed.

(** A record made of another one of the same identity with another count. *)
Definition same_but_count (a b : LedgerRecord) : Prop := identity a = identity b /\ lr_reason a = lr_reason b.

Record merged_from (d : list (Identity * LedgerRecord)) (l : list LedgerRecord) : Prop := {
  mf_unique : NoDup d.*1;
  mf_keys : forall k r, (k, r) ∈ d -> identity r = k;
  mf_covers : covers d.*2 l;
  mf_origin : forall k r, (k, r) ∈ d -> exists r1 r2, r1 ∈ l /\ r2 ∈ l /\ same_but_count r r1 /\ identity r2 = k /\ lr_cascaded_sections r = lr_cascaded_sections r2 }.

Lemma elem_of_kset_cases {K A : Type} `{!EqDecision K} (k k' : K) (v v' : A) d :
  (k', v') ∈ kset k v d -> (k' = k /\ v' = v) \/ (k', v') ∈ d.
Proof.
  induction d as [|[k1 w] d IH]; simpl; [intros ?%list_elem_of_singleton; simplify_eq; by left|].
  case_decide; rewrite !elem_of_cons; [intros [?|?]; simplify_eq; auto|intros [?|Hin]; [auto|destruct (IH Hin); auto]].
Qed.

Lemma kset_elem {K A : Type} `{!EqDecision K} (k : K) (v : A) d : (k, v) ∈ kset k v d.
Proof. apply kget_elem_of. rewrite kget_kset. by rewrite decide_True. Qed.

Lemma kset_elem_other {K A : Type} `{!EqDecision K} (k k' : K) (v v' : A) d : k ≠ k' -> (k', v') ∈ d -> (k', v') ∈ kset k v d.
Proof.
  intros Hne. induction d as [|[k1 w] d IH]; simpl; [by intros ?%elem_of_nil|]. case_decide; subst; rewrite !elem_of_cons; intros [?|?]; simplify_eq; auto.
Qed.

Lemma merge_record_from d l x : merged_from d l -> merged_from (merge_record d x) (l ++ [x]).
Proof.
  intros [H1 H2 H3 H4]. unfold merge_record.
  assert (Hgen : forall y, identity y = identity x -> lr_cascaded_sections x <= lr_cascaded_sections y ->
    (forall r, (identity x, r) ∈ d -> lr_cascaded_sections r <= lr_cascaded_sections y) ->
    (exists r1 r2, r1 ∈ l ++ [x] /\ r2 ∈ l ++ [x] /\ same_but_count y r1 /\ identity r2 = identity x /\ lr_cascaded_sections y = lr_cascaded_sections r2) ->
    merged_from (kset (identity x) y d) (l ++ [x])).
  { intros y Hy Hxy Hold Horig. split.
    - by apply kset_NoDup.
    - intros k r [[-> ->]|Hin]%elem_of_kset_cases; [done|by apply H2].
    - intros r [Hr|Hr%list_elem_of_singleton]%elem_of_app.
      + destruct (H3 r Hr) as (r' & ([k r''] & Er & Hin)%list_elem_of_fmap & Hid & Hle). simpl in Er. subst r''. pose proof (H2 _ _ Hin) as Hk.
        destruct (decide (identity x = k)) as [<-|Hne].
        * exists y. split_and!; [eapply elem_of_snd, kset_elem|congruence|]. specialize (Hold _ Hin). lia.
        * exists r'. split_and!; [by eapply elem_of_snd, kset_elem_other|done|done].
      + subst r. exists y. split_and!; [eapply elem_of_snd, kset_elem|done|done].
    - intros k r [[-> ->]|Hin]%elem_of_kset_cases; [done|]. destruct (H4 k r Hin) as (r1 & r2 & ? & ? & ? & ? & ?). exists r1, r2. rewrite !elem_of_app. auto 10. }
  destruct (kget (identity x) d) as [existing|] eqn:E.
  - apply kget_elem_of in E as Hin. pose proof (H2 _ _ Hin) as Hid. destruct existing as [s t i w e reason n]. unfold identity in Hid at 1. simpl in Hid.
    apply Hgen; cbn [lr_cascaded_sections]; [exact Hid|lia| |].
    + intros r Hr. apply (kget_NoDup _ _ _ H1) in Hr. rewrite E in Hr. injection Hr as <-. simpl. lia.
    + destruct (H4 _ _ Hin) as (r1 & r2 & Hr1 & Hr2 & [Hs1 Hs2] & Hi2 & Hn). simpl in Hn, Hs2. unfold identity in Hs1 at 1. simpl in Hs1.
      destruct (Z.max_spec n (lr_cascaded_sections x)) as [[Hlt ->]|[Hge ->]].
      * exists r1, x. rewrite !elem_of_app, !list_elem_of_singleton. split_and!; [by left|by right|split; [exact Hs1|exact Hs2]|done|done].
      * exists r1, r2. rewrite !elem_of_app. split_and!; [by left|by left|split; [exact Hs1|exact Hs2]|done|done].
  - apply kget_None in E. apply Hgen; [done|lia| |].
    + intros r Hr. exfalso. apply E. by eapply elem_of_fst.
    + exists x, x. rewrite !elem_of_app, !list_elem_of_singleton. split_and!; [by right|by right|by split|done|done].
Qed.

Lemma merged_by_identity_from l : merged_from (merged_by_identity l) l.
Proof.
  unfold merged_by_identity. induction l as [|x l IH] using rev_ind.
  - split; [constructor|by intros ? ? ?%elem_of_nil|by intros ? ?%elem_of_nil|by intros ? ? ?%elem_of_nil].
  - rewrite foldl_app. simpl. by apply merge_record_from.
Qed.

Lemma merge_records_spec l out : merge_records l = Ok out ->
  covers out l /\ NoDup (identity <$> out) /\
  forall r, r ∈ out -> exists r1 r2, r1 ∈ l /\ r2 ∈ l /\ same_but_count r r1 /\ identity r2 = identity r /\ lr_cascaded_sections r = lr_cascaded_sections r2.
Proof.
  unfold merge_records, sort_records. destruct (existsb _ _); [done|]. intros [= <-]. destruct (merged_by_identity_from l) as [H1 H2 H3 H4].
  set (d := merged_by_identity l) in *. pose proof (sort_stable_perm ledger_leb d.*2) as Hp. split_and!.
  - by eapply covers_perm; [symmetry; exact Hp|].
  - rewrite Hp. replace (identity <$> d.*2) with d.*1; [done|]. clear -H2. induction d as [|[k r] d IH]; [done|]. csimpl. f_equal.
    + symmetry. apply H2. by left.
    + apply IH. intros k' r' Hin. apply H2. by right.
  - intros r Hr. rewrite Hp in Hr. apply list_elem_of_fmap in Hr as ([k r'] & -> & Hin). simpl. rewrite (H2 _ _ Hin). by apply H4.
Qed.

(** * Records on disk *)

(** What the constructor accepts. *)
Definition valid_record (r : LedgerRecord) : Prop :=
  ledger_record (VStr (lr_shard r)) (VStr (lr_source_table r)) (VStr (lr_identifier r)) (opt_str (lr_wikidata r)) (opt_str (lr_expected r))
    (VStr (lr_reason r)) (VInt (lr_cascaded_sections r)) = Ok r.

Record valid_fields (r : LedgerRecord) : Prop := {
  vf_shard : lr_shard r ≠ []; vf_identifier : lr_identifier r ≠ []; vf_reason : lr_reason r ≠ [];
  vf_table : lr_source_table r ∈ SUPPORTED_SOURCE_TABLES;
  vf_wikidata : forall q, lr_wikidata r = Some q -> qids_from_osm_tag q ≠ [];
  vf_expected : forall q, lr_expected r = Some q -> qids_from_osm_tag q ≠ [];
  vf_count : 0 <= lr_cascaded_sections r }.

Lemma require_nonempty_Ok s name : s ≠ [] -> require_nonempty_string (VStr s) name = Ok s.
Proof. by destruct s. Qed.

Lemma rejection_qid_Ok v role hint : rejection_qid (opt_str v) role hint = Ok v <-> forall q, v = Some q -> qids_from_osm_tag q ≠ [].
Proof.
  destruct v as [q|]; simpl; [|split; [intros _ q; done|done]]. case_bool_decide as Hq; split; [done|intros H; by destruct (H q eq_refl)|intros _ q' [= <-]; done|done].
Qed.

Lemma valid_record_fields r : valid_record r <-> valid_fields r.
Proof.
  unfold valid_record, ledger_record. split.
  - intros H. apply outcome_bind_Ok in H as (s & Hs & H). apply outcome_bind_Ok in H as (i & Hi & H). apply outcome_bind_Ok in H as (re & Hre & H).
    apply outcome_bind_Ok in H as (t & Ht & H). apply outcome_bind_Ok in H as (w & Hw & H). apply outcome_bind_Ok in H as (e & He & H).
    apply outcome_bind_Ok in H as (c & Hc & H). apply mret_Ok in H. destruct r; simpl in *. injection H as -> -> -> -> -> -> ->. split; simpl.
    + intros ->. done.
    + intros ->. done.
    + intros ->. done.
    + unfold validate_source_table in Ht. simpl in Ht. by case_bool_decide.
    + exact (proj1 (rejection_qid_Ok _ _ _) Hw).
    + exact (proj1 (rejection_qid_Ok _ _ _) He).
    + unfold validate_cascaded_sections in Hc. simpl in Hc. case_match eqn:Elt; [done|lia].
  - intros [H1 H2 H3 H4 H5 H6 H7]. rewrite !require_nonempty_Ok by done. cbn [mbind outcome_bind]. unfold validate_source_table. cbn [hashable negb raise_if mbind outcome_bind].
    rewrite bool_decide_eq_true_2 by done. cbn [mbind outcome_bind]. unfold mret at 1, outcome_ret at 1. cbn [mbind outcome_bind].
    rewrite (proj2 (rejection_qid_Ok _ _ _) H5). cbn [mbind outcome_bind]. rewrite (proj2 (rejection_qid_Ok _ _ _) H6). cbn [mbind outcome_bind].
    unfold validate_cascaded_sections. cbn [as_int]. rewrite (proj2 (Z.ltb_ge _ _) H7). cbn [mbind outcome_bind]. by destruct r.
Qed.

Lemma valid_same_but_count r r1 r2 : same_but_count r r1 -> valid_record r1 -> valid_record r2 -> lr_cascaded_sections r = lr_cascaded_sections r2 -> valid_record r.
Proof.
  rewrite !valid_record_fields. intros [Hi Hr] [] [] Hn. destruct r, r1, r2. unfold identity in Hi. simpl in *. injection Hi as <- <- <- <- <-. subst. split; simpl; auto.
Qed.

Lemma load_entry_dict r : valid_record r -> load_entry (VDict (ledger_dict r)) = Ok r.
Proof. unfold valid_record. intros H. destruct r as [s t i w e re n]. exact H. Qed.

Section Ledger.
Context {RT : Runtime} {FF : FileFormats} {PQ : Parquet}.
Context (temporary_middle : gmap path node -> path -> str).
Hypothesis temporary_fresh : forall t p, t !! temporary_name temporary_middle p t = None.

Definition ledger_node (records : list LedgerRecord) : node := File (CJson (VDict (ledger_payload records))).

(** The ledger file is absent or was saved with these records. *)
Definition ledger_on_disk (p : path) (t : gmap path node) (records : list LedgerRecord) : Prop :=
  (t !! p = None /\ records = [] \/ t !! p = Some (ledger_node records)) /\ Forall valid_record records.

Lemma load_payload (records : list LedgerRecord) : Forall valid_record records -> mapM load_entry ((VDict ∘ ledger_dict) <$> records) = Ok records.
Proof. intros H. apply mapM_Forall2. induction H; csimpl; constructor; [by apply load_entry_dict|done]. Qed.

Lemma load_ledger_on_disk p t records : ledger_on_disk p t records -> load_ledger p t = Ok records.
Proof.
  intros [[[Hp ->]|Hp] Hv]; unfold load_ledger, is_file; rewrite Hp; [done|]. cbn [negb ledger_node]. unfold read_json. rewrite Hp. cbn [ledger_node mbind outcome_bind as_entry].
  change (mret (ledger_payload records)) with (Ok (ledger_payload records)). cbn [mbind outcome_bind].
  change (dget_none (u "contract_version") (ledger_payload records)) with (VStr LEDGER_CONTRACT_VERSION).
  change (py_eqb (VStr LEDGER_CONTRACT_VERSION) (VStr LEDGER_CONTRACT_VERSION)) with true. cbn [negb raise_if mbind outcome_bind].
  change (default (VList []) (dget (u "records") (ledger_payload records))) with (VList ((VDict ∘ ledger_dict) <$> records)). cbn [iterable].
  change (mret ((VDict ∘ ledger_dict) <$> records)) with (Ok ((VDict ∘ ledger_dict) <$> records)). cbn [mbind outcome_bind]. by apply load_payload.
Qed.

(** Payloads that are equal as values are payloads of the same records. *)
Lemma opt_str_eqb a b : py_eqb (opt_str a) (opt_str b) = true -> a = b.
Proof. destruct a, b; simpl; try done. unfold str_eqb. rewrite bool_decide_eq_true. by intros ->. Qed.

Lemma payload_eqb a b : py_eqb (VDict (ledger_payload a)) (VDict (ledger_payload b)) = true -> a = b.
Proof.
  intros H. assert (Hl : py_eqb (VList ((VDict ∘ ledger_dict) <$> a)) (VList ((VDict ∘ ledger_dict) <$> b)) = true).
  { change (true && (py_eqb (VList ((VDict ∘ ledger_dict) <$> a)) (VList ((VDict ∘ ledger_dict) <$> b)) && true) = true) in H. by rewrite andb_true_r in H. }
  clear H. revert b Hl. induction a as [|x a IH]; intros [|y b]; try done. csimpl. intros H. apply andb_true_iff in H as [Hx H]. f_equal; [|by apply IH].
  clear IH H.
  destruct x as [s1 t1 i1 w1 e1 r1 n1], y as [s2 t2 i2 w2 e2 r2 n2].
  change (str_eqb s1 s2 && (str_eqb t1 t2 && (str_eqb i1 i2 && (py_eqb (opt_str w1) (opt_str w2) && (py_eqb (opt_str e1) (opt_str e2) &&
    (str_eqb r1 r2 && (bool_decide (Some n1 = Some n2) && true)))))) = true) in Hx.
  rewrite !andb_true_iff in Hx. destruct Hx as (H1 & H2 & H3 & H4 & H5 & H6 & H7 & _). unfold str_eqb in *. rewrite bool_decide_eq_true in H1, H2, H3, H6, H7.
  apply opt_str_eqb in H4, H5. congruence.
Qed.

(** Saving, whatever fails: the file keeps its content or has the sorted records, other files stay. *)
Lemma save_ledger_wrote p records prev s o s' :
  ledger_on_disk p (tree s) prev -> save_ledger temporary_middle p records s = (o, s') ->
  (forall q, q ≠ p -> q ∉ prefixes (path_parent p) -> temporary_like q = false \/ tree s !! q ≠ None -> tree s' !! q = tree s !! q) /\
  ((exists e, o = Raise e) /\ tree s' !! p = tree s !! p \/
   o = Ok tt /\ exists ordered, sort_records records = Ok ordered /\ tree s' !! p = Some (ledger_node ordered)).
Proof.
  intros Hdisk. unfold save_ledger. unfold pbind at 1. destruct (mkdir (path_parent p) s) as [o1 s1] eqn:E1. apply mkdir_cases in E1 as (Hp & Hk & Hn & _).
  assert (H1 : forall q, q ∉ prefixes (path_parent p) -> tree s1 !! q = tree s !! q).
  { intros q Hq. destruct (tree s !! q) as [n|] eqn:E; [by apply Hk|]. destruct (tree s1 !! q) as [n|] eqn:E'; [|done]. by destruct (Hn q n E E'). }
  destruct o1 as [[]|e]; [|intros [= <- <-]; split; [auto|left; eauto]]. unfold pbind at 1, lift.
  destruct (sort_records records) as [ordered|e]; [|intros [= <- <-]; split; [auto|left; eauto]]. unfold pbind at 1, gets.
  assert (Hwrite : forall o s', atomic_write_json temporary_middle p (VDict (ledger_payload ordered)) s1 = (o, s') ->
    (forall q, q ≠ p -> q ∉ prefixes (path_parent p) -> temporary_like q = false \/ tree s !! q ≠ None -> tree s' !! q = tree s !! q) /\
    ((exists e, o = Raise e) /\ tree s' !! p = tree s !! p \/ o = Ok tt /\ exists ordered', Ok ordered = Ok ordered' /\ tree s' !! p = Some (ledger_node ordered'))).
  { clear o s'. intros o s' E. apply atomic_write_json_replaced in E as [Ht Ho Hnew]; [|done]. split.
    - intros q Hq Hpre Hv. rewrite <- (H1 q Hpre). destruct (tree s1 !! q) as [n|] eqn:Eq; [by apply Ho|]. destruct (tree s' !! q) as [n|] eqn:Eq'; [|done].
      destruct (Hnew q n Hq Eq Eq') as [[_ ?]|(_ & _ & Hl & _)]; [done|]. destruct Hv as [Hv|Hv]; [congruence|]. rewrite <- H1 in Hv by done. done.
    - rewrite <- Hp. destruct Ht as [?|(-> & c & -> & ?)]; [by left|]. right. split; [done|]. by exists ordered. }
  destruct (is_file p (tree s1)) eqn:Ef; [|apply Hwrite].
  destruct Hdisk as [[[Hnone _]|Hsome] _]; [unfold is_file in Ef; by rewrite Hp, Hnone in Ef|].
  unfold pbind at 1, reads, read_json. rewrite Hp, Hsome. cbn [ledger_node]. destruct (py_eqb _ _) eqn:Eq; [|rewrite <- Hsome; apply Hwrite].
  apply payload_eqb in Eq as <-. unfold ret. intros [= <- <-]. split; [auto|]. right. split; [done|]. exists prev. by rewrite Hp.
Qed.

Lemma valid_sorted records ordered : Forall valid_record records -> sort_records records = Ok ordered -> Forall valid_record ordered /\ ordered ≡ₚ records.
Proof.
  unfold sort_records. destruct (existsb _ _); [done|]. intros Hv [= <-]. pose proof (sort_stable_perm ledger_leb records) as Hp. split; [|done]. by rewrite Hp.
Qed.

Lemma valid_merged l out : Forall valid_record l -> merge_records l = Ok out -> Forall valid_record out.
Proof.
  intros Hv (_ & _ & Ho)%merge_records_spec. apply Forall_forall. intros r Hr. destruct (Ho r Hr) as (r1 & r2 & H1 & H2 & Hs & _ & Hn).
  rewrite Forall_forall in Hv. by eapply valid_same_but_count; [exact Hs|apply Hv|apply (Hv r2)|].
Qed.

Lemma ledger_on_disk_same p t t' records : t' !! p = t !! p -> ledger_on_disk p t records -> ledger_on_disk p t' records.
Proof. unfold ledger_on_disk. by intros ->. Qed.

Section Write.
Context (data_root : path) (stem : str).
Hypothesis stem_named : stem ++ u ".json" ≠ LEDGER_FILENAME.
Let stem_file := stem_ledger data_root stem.
Let cumulative := cumulative_ledger data_root.

Lemma ledger_files_apart : cumulative ≠ stem_file /\ cumulative ∉ prefixes (path_parent stem_file) /\ stem_file ∉ prefixes (path_parent cumulative).
Proof.
  assert (Hp : path_parent stem_file = path_parent cumulative) by (unfold stem_file, cumulative, stem_ledger, cumulative_ledger; by rewrite !path_parent_child).
  split_and!; [|rewrite Hp; apply not_parent|rewrite <- Hp; apply not_parent].
  unfold stem_file, cumulative, stem_ledger, cumulative_ledger, child. intros H%(inj (app (integrity_dir data_root))). apply stem_named. congruence.
Qed.

Lemma write_ledgers old prev rejections s o s' :
  ledger_on_disk cumulative (tree s) old -> ledger_on_disk stem_file (tree s) prev -> Forall valid_record rejections ->
  write_integrity_ledgers temporary_middle data_root stem rejections s = (o, s') ->
  exists new, ledger_on_disk cumulative (tree s') new /\ (exists now, ledger_on_disk stem_file (tree s') now) /\ covers new old /\
    (o = Ok tt -> covers new rejections /\ NoDup (identity <$> new)) /\
    forall r, r ∈ new -> r ∈ old \/ exists r', r' ∈ rejections ++ old /\ same_but_count r r'.
Proof.
  intros Hold Hprev Hv. destruct ledger_files_apart as (Hne & Hp1 & Hp2). unfold write_integrity_ledgers. fold stem_file cumulative.
  assert (Hvis : temporary_like cumulative = false) by (unfold temporary_like, cumulative, cumulative_ledger; by rewrite path_name_child).
  unfold pbind at 1. destruct (save_ledger _ stem_file rejections s) as [o1 s1] eqn:E1. apply (save_ledger_wrote _ _ prev) in E1 as [Hk1 Hc1]; [|done].
  assert (Hcum : tree s1 !! cumulative = tree s !! cumulative) by (apply Hk1; auto).
  assert (Hold1 : ledger_on_disk cumulative (tree s1) old) by (by eapply ledger_on_disk_same).
  destruct Hc1 as [[[e ->] Hs1]|(-> & ordered & Hord & Hs1)].
  { intros [= <- <-]. exists old. split_and!; [done|exists prev; by eapply ledger_on_disk_same|apply covers_refl|intros [=]|auto]. }
  destruct (valid_sorted _ _ Hv Hord) as [Hvo Hperm]. assert (Hstem1 : ledger_on_disk stem_file (tree s1) ordered) by (split; [by right|done]).
  unfold pbind at 1, gets. unfold merge_ledger_files. unfold pbind at 1, reads.
  assert (Hload : load_sources (stem_file :: (if is_file cumulative (tree s1) then [cumulative] else [])) (tree s1) = Ok (ordered ++ old)).
  { assert (Hf1 : is_file stem_file (tree s1) = true) by (unfold is_file; by rewrite Hs1).
    cbn [load_sources]. rewrite Hf1. rewrite (load_ledger_on_disk _ _ ordered) by done. cbn [mbind outcome_bind].
    destruct Hold1 as [[[Hn ->]|Hsome] Hvold].
    - unfold is_file. rewrite Hn. cbn. by rewrite app_nil_r.
    - assert (Hf : is_file cumulative (tree s1) = true) by (unfold is_file; by rewrite Hsome). rewrite Hf. cbn [load_sources]. rewrite Hf.
      rewrite (load_ledger_on_disk _ _ old) by (split; [by right|done]). cbn. by rewrite app_nil_r. }
  rewrite Hload. unfold pbind at 1, lift. destruct (merge_records (ordered ++ old)) as [merged|e] eqn:Em.
  2: { intros [= <- <-]. exists old. split_and!; [done|eauto|apply covers_refl|intros [=]|auto]. }
  intros E2. apply (save_ledger_wrote _ _ old) in E2 as [Hk2 Hc2]; [|done].
  assert (Hstem2 : exists now, ledger_on_disk stem_file (tree s') now).
  { exists ordered. eapply ledger_on_disk_same; [|exact Hstem1]. apply Hk2; [done|done|right; by rewrite Hs1]. }
  destruct Hc2 as [[[e ->] Hs2]|(-> & sorted & Hsort & Hs2)].
  { exists old. split_and!; [by eapply ledger_on_disk_same|done|apply covers_refl|intros [=]|auto]. }
  assert (Hvm : Forall valid_record merged). { eapply valid_merged; [|exact Em]. apply Forall_app. split; [done|by destruct Hold]. }
  destruct (valid_sorted _ _ Hvm Hsort) as [Hvs Hps]. destruct (merge_records_spec _ _ Em) as (Hcov & Hnd & Horig). exists sorted. split_and!.
  - split; [by right|done].
  - done.
  - intros r Hr. eapply (covers_perm merged); [by symmetry|exact Hcov|]. apply elem_of_app. by right.
  - intros _. split; [|by rewrite Hps]. intros r Hr. eapply (covers_perm merged); [by symmetry|exact Hcov|]. apply elem_of_app. left. by rewrite Hperm.
  - intros r Hr. rewrite Hps in Hr. right. destruct (Horig r Hr) as (r1 & _ & H1 & _ & Hs & _). exists r1. rewrite <- Hperm. done.
Qed.
End Write.
End Ledger.

(** C33: The ledger never forgets a rejection.  Whatever primitive fails while the rejections of a
    region are recorded, the cumulative ledger stays readable and has every rejection it had, with a
    count that did not shrink; when the recording returns it has the new ones as well, each identity
    once; and nothing else gets into it. *)
Theorem ledger_keeps_every_rejection `{Runtime} `{FileFormats} temporary_middle data_root stem old prev rejections s o s' :
  (forall t p, t !! temporary_name temporary_middle p t = None) -> stem ++ u ".json" ≠ LEDGER_FILENAME ->
  ledger_on_disk (cumulative_ledger data_root) (tree s) old -> ledger_on_disk (stem_ledger data_root stem) (tree s) prev ->
  Forall valid_record rejections ->
  write_integrity_ledgers temporary_middle data_root stem rejections s = (o, s') ->
  exists new, load_ledger (cumulative_ledger data_root) (tree s') = Ok new /\ ledger_on_disk (cumulative_ledger data_root) (tree s') new /\
    covers new old /\ (o = Ok tt -> covers new rejections /\ NoDup (identity <$> new)) /\
    forall r, r ∈ new -> r ∈ old \/ exists r', r' ∈ rejections ++ old /\ same_but_count r r'.
Proof.
  intros Hfresh Hstem Hold Hprev Hv E. destruct (write_ledgers temporary_middle Hfresh data_root stem Hstem old prev rejections s o s' Hold Hprev Hv E)
    as (new & Hn & _ & H1 & H2 & H3). exists new. split_and!; [by apply load_ledger_on_disk|done..].
Qed.
