(* ===== verification/IntegrityExamples.v ===== *)
(** A concrete region for the integrity pass and the rejection ledger, and a table codec that obeys
    the laws of [Parquet]. *)
From stdpp Require Import countable gmap sorting.
From S2P Require Import Prelude Py PyStr PyText Fs Calm Artifacts Atomic KeyDict Linker PolygonLinks Tables Integrity RejectionLedger IntegrityProofs.

#[local] Existing Instance example_runtime.
#[local] Existing Instance example_formats.

(** * A codec *)

Definition type_code (ty : column_type) : nat := match ty with pa_string => 0%nat | pa_int64 => 1%nat | pa_float64 => 2%nat | pa_bool => 3%nat end.
Definition type_of_code (n : nat) : column_type := match n with 0%nat => pa_string | 1%nat => pa_int64 | 2%nat => pa_float64 | _ => pa_bool end.
Lemma type_of_type_code ty : type_of_code (type_code ty) = ty.
Proof. by destruct ty. Qed.

Abbreviation cell := (option (str + (Z + bool))).
Definition cell_of (v : pyval) : option cell :=
  match v with VNone => Some None | VStr s => Some (Some (inl s)) | VInt z => Some (Some (inr (inl z))) | VBool b => Some (Some (inr (inr b))) | _ => None end.
Definition value_of (c : cell) : pyval :=
  match c with None => VNone | Some (inl s) => VStr s | Some (inr (inl z)) => VInt z | Some (inr (inr b)) => VBool b end.
Definition cells_of (row : pydict) : option (list (str * cell)) := mapM (fun kv : str * pyval => c ← cell_of kv.2; Some (kv.1, c)) row.
Definition values_of (row : list (str * cell)) : pydict := (fun kv => (kv.1, value_of kv.2)) <$> row.

Lemma values_of_cells_of row cells : cells_of row = Some cells -> values_of cells = row.
Proof.
  unfold cells_of. intros H%mapM_Some. induction H as [|[k v] [k' c] row cells Hkv _ IH]; [done|]. csimpl. rewrite IH.
  simpl in Hkv. destruct v; simplify_eq/=; done.
Qed.

Definition document : Type := list (str * nat) * list (list (str * cell)).
Definition codec : Parquet := {|
  encode_table schema rows :=
    match mapM cells_of rows with
    | Some rows => Ok [N.pos (encode (((fun c : str * column_type => (c.1, type_code c.2)) <$> schema, rows) : document))]
    | None => Raise (exc ArrowInvalid (msg "unsupported value"))
    end;
  decode_table b :=
    match b with
    | [N.pos p] =>
        match decode p : option document with
        | Some (schema, rows) => Ok ((fun c => (c.1, type_of_code c.2)) <$> schema, values_of <$> rows)
        | None => Raise (exc ArrowInvalid (msg "not a table"))
        end
    | _ => Raise (exc ArrowInvalid (msg "not a table"))
    end |}.
#[local] Existing Instance codec.

Lemma codec_laws : ParquetLaws.
Proof.
  split. intros schema rows b _. simpl. destruct (mapM cells_of rows) as [cells|] eqn:E; [|done]. intros [= <-].
  rewrite decode_encode. f_equal. f_equal.
  - rewrite <- list_fmap_compose. rewrite <- (list_fmap_id schema) at 2. apply list_fmap_ext. intros i [c ty] _. cbn. by rewrite type_of_type_code.
  - apply mapM_Some in E. induction E as [|row cs rows cells H _ IH]; csimpl; [done|]. rewrite IH. f_equal. by apply values_of_cells_of.
Qed.

(** * A region *)

Definition ex_root : path := [u "data"].
Definition ex_stem : str := u "monaco".
Definition ex_row (schema : table_schema) (values : list (str * pyval)) : pydict :=
  (fun c => (c.1, default (match c.2 with pa_int64 => VInt 1 | _ => VNone end) (dget c.1 values))) <$> schema.
Definition ex_document (id wikidata : string) : pydict :=
  ex_row document_schema [(u "document_id", VStr (u id)); (u "wikidata", VStr (u wikidata))].
Definition ex_section (id document_id : string) : pydict :=
  ex_row section_schema [(u "section_id", VStr (u id)); (u "document_id", VStr (u document_id))].
Definition polygon_schema : table_schema := [(u "polygon_id", pa_string); (u "wikidata", pa_string)].
Definition ex_polygon (id wikidata : string) : pydict := ex_row polygon_schema [(u "polygon_id", VStr (u id)); (u "wikidata", VStr (u wikidata))].

Definition ex_documents : list pydict := [ex_document "d1" "Q1"; ex_document "d2" "Q2"; ex_document "d9" "Q9"].
Definition ex_sections : list pydict := [ex_section "s1" "d1"; ex_section "s2" "d9"; ex_section "s3" "d9"].
Definition ex_polygons : list pydict := [ex_polygon "p1" "Q1"; ex_polygon "p2" "Q2;Q3"].
Definition ex_qids : gset str := {[u "Q1"; u "Q2;Q3"]}.

Definition bytes_of (schema : table_schema) (rows : list pydict) : list N := match encode_table schema rows with Ok b => b | Raise _ => [] end.
Definition table (schema : table_schema) (rows : list pydict) : node := File (CBytes (bytes_of schema rows)).
Definition ex_files : list (path * node) :=
  [(polygons_file ex_root ex_stem, table polygon_schema ex_polygons);
   (voyage_documents_file ex_root ex_stem, table document_schema ex_documents);
   (voyage_sections_file ex_root ex_stem, table section_schema ex_sections)].
Definition ex_disk : gmap path node := list_to_map (ex_files ++ ((fun p => (p, Dir)) <$> (ex_files ≫= fun f => prefixes (path_parent f.1)))).

Lemma ex_load : load_wikivoyage_integrity_inputs ex_root ex_stem ex_disk = Ok (ex_documents, ex_sections, ex_qids).
Proof. vm_compute. reflexivity. Qed.

Lemma fits_decide schema (row : pydict) :
  (length schema =? length row)%nat && forallb (fun ck => str_eqb ck.2.1 ck.1.1 && value_fits ck.1.2 ck.2.2) (zip schema row) = true -> fits schema row.
Proof.
  unfold fits. intros [Hl%Nat.eqb_eq H]%andb_true_iff. apply Forall2_same_length_lookup_2; [done|]. intros i c kv Hc Hkv.
  rewrite forallb_forall in H. specialize (H (c, kv)). simpl in H. apply andb_true_iff in H as [H1 H2].
  - split; [|done]. by destruct (str_eqb_spec kv.1 c.1).
  - apply list_elem_of_In, (list_elem_of_lookup_2 _ i). rewrite lookup_zip_with, Hc, Hkv. done.
Qed.

Lemma ex_documents_fit : Forall (fits document_schema) ex_documents.
Proof. repeat constructor; apply fits_decide; vm_compute; reflexivity. Qed.
Lemma ex_sections_fit : Forall (fits section_schema) ex_sections.
Proof. repeat constructor; apply fits_decide; vm_compute; reflexivity. Qed.

Lemma ex_homes : homes ex_root ex_stem ex_disk.
Proof.
  assert (H : forall l : list path, forallb (fun p => match ex_disk !! p with Some Dir => true | _ => false end) l = true -> Forall (fun p => ex_disk !! p = Some Dir) l).
  { intros l Hl. apply Forall_forall. intros p Hp%list_elem_of_In. rewrite forallb_forall in Hl. specialize (Hl p Hp). by destruct (ex_disk !! p) as [[]|]. }
  split; apply H; vm_compute; reflexivity.
Qed.

Lemma encode_bytes_of schema rows : forallb (fun row => match cells_of row with Some _ => true | None => false end) rows = true ->
  encode_table schema rows = Ok (bytes_of schema rows).
Proof.
  intros H. unfold bytes_of. simpl. destruct (mapM cells_of rows) as [cells|] eqn:E; [done|]. exfalso. apply mapM_None, Exists_exists in E as (row & Hin & Hn).
  rewrite forallb_forall in H. specialize (H row). rewrite Hn in H. by assert (false = true) by (apply H; by apply list_elem_of_In).
Qed.

(** The document of the item no polygon has is rejected, with its two sections. *)
Lemma enforcement_is_the_join_witness :
  exists r s1, enforce_wikivoyage_integrity long_middle ex_root ex_stem false (mkFs ex_disk []) = (Ok r, s1) /\
    load_wikivoyage_integrity_inputs ex_root ex_stem (tree s1) =
      Ok (joined ex_qids ex_documents, kept_sections ex_qids ex_documents ex_sections, ex_qids) /\
    wv_rejected_documents r = 2 /\ wv_cascaded_sections r = 2.
Proof.
  destruct (@enforcement_is_the_join example_runtime example_formats codec codec_laws long_middle ex_root ex_stem (mkFs ex_disk []) ex_documents ex_sections ex_qids
    (bytes_of document_schema (joined ex_qids ex_documents)) (bytes_of section_schema (kept_sections ex_qids ex_documents ex_sections)))
    as (r & s1 & E & Hl & Hd & Hs & _).
  - exact temporary_name_fresh.
  - constructor.
  - exact ex_load.
  - exact ex_homes.
  - exact ex_documents_fit.
  - exact ex_sections_fit.
  - apply encode_bytes_of. vm_compute. reflexivity.
  - apply encode_bytes_of. vm_compute. reflexivity.
  - exists r, s1. split_and!; [exact E|exact Hl|rewrite Hd; vm_compute; reflexivity|rewrite Hs; vm_compute; reflexivity].
Defined.

(** The disk fills up after the document table is replaced. *)
Definition ex_interrupted : FsState := mkFs ex_disk (replicate 5 None ++ [Some os_error]).
Definition ex_broken : outcome WikivoyageIntegrityResult * FsState := enforce_wikivoyage_integrity long_middle ex_root ex_stem false ex_interrupted.

Definition row_count (n : option node) : Z :=
  match n with Some (File (CBytes b)) => match decode_table b with Ok (_, rows) => len rows | Raise _ => 0 end | _ => 0 end.

Lemma tree_mkFs t l : tree (mkFs t l) = t.
Proof. done. Qed.
Lemma ex_rows_before : row_count (tree ex_interrupted !! voyage_documents_file ex_root ex_stem) = 3.
Proof. vm_compute. reflexivity. Qed.
Lemma ex_rows_after : row_count (tree ex_broken.2 !! voyage_documents_file ex_root ex_stem) = 1.
Proof. vm_compute. reflexivity. Qed.
Lemma ex_cascaded : length (cascaded ex_qids ex_documents ex_sections) = 2%nat.
Proof. vm_compute. reflexivity. Qed.

Lemma interrupted_pass_strands_sections_witness :
  ex_broken.1 = Raise os_error /\
  (exists r s3, enforce_wikivoyage_integrity long_middle ex_root ex_stem false (mkFs (tree ex_broken.2) []) = (Ok r, s3) /\ tree s3 = tree ex_broken.2 /\
    wv_rejections r = [] /\ wv_cascaded_sections r = 0) /\
  exists row, row ∈ ex_sections /\ text_or "document_id" row ∉ text_or "document_id" <$> joined ex_qids ex_documents.
Proof.
  assert (Hraise : ex_broken.1 = Raise os_error) by (vm_compute; reflexivity).
  assert (E : enforce_wikivoyage_integrity long_middle ex_root ex_stem false ex_interrupted = (Raise os_error, ex_broken.2)).
  { rewrite <- Hraise. unfold ex_broken. apply surjective_pairing. }
  destruct (@interrupted_pass_strands_sections example_runtime example_formats codec codec_laws long_middle ex_root ex_stem ex_interrupted ex_documents ex_sections
    ex_qids os_error ex_broken.2 (mkFs (tree ex_broken.2) [])) as (H1 & _ & H2).
  - exact temporary_name_fresh.
  - exact ex_load.
  - exact ex_documents_fit.
  - apply (bool_decide_unpack _). vm_compute. reflexivity.
  - intros Hnone. apply (f_equal length) in Hnone. rewrite ex_cascaded in Hnone. discriminate.
  - exact E.
  - intros Hsame. apply (f_equal row_count) in Hsame. rewrite ex_rows_after, ex_rows_before in Hsame. discriminate.
  - constructor.
  - exact (tree_mkFs _ _).
  - split_and!; [exact Hraise|exact H1|exact H2].
Defined.

(** The document of [Q2], one of the two items of a polygon. *)
Lemma multivalued_tags_lose_documents_witness :
  let q : gset str := {[u "Q1"; u "Q2"; u "Q3"]} in
  ex_document "d2" "Q2" ∈ retained_rows (partition_wikivoyage_documents ex_documents q) /\ ex_document "d2" "Q2" ∈ rejected ex_qids ex_documents.
Proof.
  intros q. refine (proj2 (@multivalued_tags_lose_documents example_runtime example_formats codec ex_root ex_stem ex_disk ex_documents ex_sections ex_qids q ex_documents ex_sections
    ((fun v => [(u "wikidata", VStr (u v))]) <$> ["Q1"; "Q2;Q3"]%string) (ex_document "d2" "Q2") [(u "wikidata", VStr (u "Q2;Q3"))] _ _ _ _ _ _ _)).
  - exact ex_load.
  - vm_compute. reflexivity.
  - vm_compute. reflexivity.
  - right. left.
  - right. left.
  - apply (bool_decide_unpack _). vm_compute. reflexivity.
  - intros p Hp. apply elem_of_cons in Hp as [->|Hp]; [vm_compute; discriminate|]. apply list_elem_of_singleton in Hp as ->. vm_compute. discriminate.
Defined.

(** * The ledger *)

Definition ex_rejection (id : string) (sections : Z) : LedgerRecord :=
  mkLedgerRecord ex_stem (u "wikivoyage_documents") (u id) (Some (u "Q9")) None REASON_WIKIVOYAGE_ABSENT sections.
Definition ex_ledger_disk : gmap path node := {[cumulative_ledger ex_root := ledger_node [ex_rejection "d1" 5; ex_rejection "d9" 2]]}.
Definition ex_recorded : outcome unit * FsState :=
  write_integrity_ledgers long_middle ex_root ex_stem [ex_rejection "d9" 0; ex_rejection "d3" 1] (mkFs ex_ledger_disk []).

Lemma ledger_keeps_every_rejection_witness :
  exists new, load_ledger (cumulative_ledger ex_root) (tree ex_recorded.2) = Ok new /\
    covers new [ex_rejection "d1" 5; ex_rejection "d9" 2] /\ covers new [ex_rejection "d9" 0; ex_rejection "d3" 1] /\ NoDup (identity <$> new).
Proof.
  destruct (ledger_keeps_every_rejection long_middle ex_root ex_stem [ex_rejection "d1" 5; ex_rejection "d9" 2] [] [ex_rejection "d9" 0; ex_rejection "d3" 1]
    (mkFs ex_ledger_disk []) ex_recorded.1 ex_recorded.2) as (new & Hl & _ & Hc & Hok & _).
  - exact temporary_name_fresh.
  - vm_compute. discriminate.
  - split; [right; reflexivity|repeat constructor].
  - split; [left; split; reflexivity|constructor].
  - repeat constructor.
  - unfold ex_recorded. apply surjective_pairing.
  - destruct Hok as [H1 H2]; [vm_compute; reflexivity|]. exists new. split_and!; [exact Hl|exact Hc|exact H1|exact H2].
Defined.

(** The counts of that run. *)
Example ex_recorded_counts :
  ((fun r => (lr_identifier r, lr_cascaded_sections r)) <$> match load_ledger (cumulative_ledger ex_root) (tree ex_recorded.2) with Ok l => l | Raise _ => [] end) =
  [(u "d1", 5); (u "d3", 1); (u "d9", 2)].
Proof. vm_compute. reflexivity. Qed.
