(* ===== verification/DocumentMigration.v ===== *)
(** The migration of the articles of a region to its table of Wikipedia documents: the conversion
    ([augmentation/wikipedia_documents.py]), the read-only plan and its application
    ([augmentation/_wikipedia_document_migration]), and the migration that runs before the plan of a
    synchronization ([pipeline/sync_planning.py]). *)
From stdpp Require Import gmap sorting.
From S2P Require Import Prelude Py PyStr PyText Fs Artifacts Atomic Linker PolygonLinks Tables Integrity Pending UploadState Reconciliation Retirement.

Abbreviation table := (prod table_schema (list pydict)).
Abbreviation strs l := (VList (VStr <$> l)).

(** [p in s]. *)
Fixpoint contains (p s : str) : bool :=
  startswith p s || match s with [] => false | _ :: r => contains p r end.

(** * Schemas *)

(** [ARTICLE_COLUMNS] ([domain/schema.py]). *)
Definition ARTICLE_COLUMNS : list str := u <$>
  ["article_id"; "wikidata"; "language"; "site"; "title"; "url"; "page_id"; "revision_id"; "revision_timestamp"; "retrieved_at";
   "wikidata_label"; "wikidata_description"; "wikidata_aliases"; "lead_text"; "extract"; "full_text"; "full_text_format";
   "article_length_chars"; "article_length_words"; "article_length_tokens_estimate"; "thumbnail_url"; "thumbnail_width";
   "thumbnail_height"; "categories"; "license"; "attribution"; "source_api"; "fetch_status"; "fetch_error"; "content_hash"]%string.
Definition article_schema : table_schema := arrow_schema ARTICLE_COLUMNS.

Definition WIKIPEDIA_DOCUMENT_COLUMNS : list str :=
  u "document_id" :: take 2 ARTICLE_COLUMNS ++ u "project" :: drop 2 ARTICLE_COLUMNS.
Definition wikipedia_document_schema : table_schema :=
  (fun c => (c, if bool_decide (c ∈ [u "document_id"; u "project"]) then pa_string else column_dtype c)) <$> WIKIPEDIA_DOCUMENT_COLUMNS.

Definition WikipediaDocumentConversionError : exn_class := CUser (u "WikipediaDocumentConversionError") CException.
Definition conversion_error (m : pymsg) : exn := exc WikipediaDocumentConversionError m.

(** * Validation of a field *)

Definition require_exact_str (value : pyval) (field : str) : outcome str :=
  match value with
  | VStr s => Ok s
  | _ => Raise (conversion_error [FStr (u "Field '" ++ field ++ u "': expected str, got " ++ type_name value)])
  end.

Definition require_exact_int (value : pyval) (field : str) : outcome Z :=
  match value with
  | VInt z => Ok z
  | _ => Raise (conversion_error [FStr (u "Field '" ++ field ++ u "': expected int (not bool), got " ++ type_name value)])
  end.

Definition require_optional_int (value : pyval) (field : str) : outcome (option Z) :=
  match value with
  | VNone => Ok None
  | VInt z => Ok (Some z)
  | _ => Raise (conversion_error [FStr (u "Field '" ++ field ++ u "': expected int | None (not bool), got " ++ type_name value)])
  end.

Definition validate_qid (value : pyval) (field : str) : outcome str :=
  qid ← require_exact_str value field;
  _ ← raise_if (negb (is_valid_qid qid))
    (conversion_error [FStr (u "Field '" ++ field ++ u "': invalid Wikidata QID '" ++ qid ++ u "' (must match Q[1-9][0-9]*)")]);
  mret qid.

Definition validate_language_whitespace (value field : str) : outcome unit :=
  raise_if (bool_decide (value = []) || negb (str_eqb (strip value) value) || existsb is_space value)
    (conversion_error [FStr (u "Field '" ++ field ++ u "': language must be non-empty and have no whitespace, got "); FRepr (VStr value)]).
Definition validate_language_colon (value field : str) : outcome unit :=
  raise_if (existsb (N.eqb 58) value)
    (conversion_error [FStr (u "Field '" ++ field ++ u "': language must not contain ':', got '" ++ value ++ u "'")]).
Definition validate_language (value : pyval) (field : str) : outcome str :=
  language ← require_exact_str value field;
  _ ← validate_language_whitespace language field;
  _ ← validate_language_colon language field;
  mret language.

Definition validate_positive_int (value : pyval) (field : str) : outcome Z :=
  z ← require_exact_int value field;
  _ ← raise_if (z <=? 0) (conversion_error [FStr (u "Field '" ++ field ++ u "': must be positive, got "); FInt z]);
  mret z.

(** * Conversion of a row *)

Definition make_document_id (wikidata language : str) (page_id revision_id : Z) : str :=
  join (u ":") [wikidata; u "wikipedia"; language; str_of_Z page_id; str_of_Z revision_id].
Definition make_article_id (wikidata language : str) (page_id revision_id : Z) : str :=
  join (u ":") [wikidata; language; str_of_Z page_id; str_of_Z revision_id].

(** The fields that are not part of the identity are validated by their type. *)
Definition validate_field (row : pydict) (field : str) : outcome unit :=
  let value := dget_none field row in
  if bool_decide (field ∈ u <$> ["article_length_chars"; "article_length_words"; "article_length_tokens_estimate"]%string)
  then _ ← require_exact_int value field; mret tt
  else if bool_decide (field ∈ u <$> ["thumbnail_width"; "thumbnail_height"]%string)
  then _ ← require_optional_int value field; mret tt
  else _ ← require_exact_str value field; mret tt.
Definition remaining_fields : list str := take 3 (drop 3 ARTICLE_COLUMNS) ++ drop 8 ARTICLE_COLUMNS.

(** [WikipediaDocument.to_dict] of the document of a row: its values as they are, in the order of the
    columns. *)
Definition document_dict (document_id : str) (row : pydict) : pydict :=
  (fun c => (c, if str_eqb c (u "document_id") then VStr document_id
                else if str_eqb c (u "project") then VStr (u "wikipedia") else dget_none c row)) <$> WIKIPEDIA_DOCUMENT_COLUMNS.

Definition validate_row_keys (row : pydict) : outcome unit :=
  let extra_keys := sorted_strs (filter (fun k => k ∉ ARTICLE_COLUMNS) row.*1) in
  _ ← raise_if (bool_decide (extra_keys ≠ []))
    (conversion_error [FStr (u "Unknown extra key(s) in article row: "); FRepr (strs extra_keys);
                       FStr (u ". Only ARTICLE_COLUMNS keys are accepted.")]);
  let missing := sorted_strs (filter (fun k => k ∉ row.*1) ARTICLE_COLUMNS) in
  raise_if (bool_decide (missing ≠ []))
    (conversion_error [FStr (u "Missing required field(s) in article row: "); FRepr (strs missing)]).

(** The document of a row as its identifier and its dictionary. *)
Definition wikipedia_document_from_article_row (row : pydict) : outcome (str * pydict) :=
  _ ← validate_row_keys row;
  wikidata ← validate_qid (dget_none (u "wikidata") row) (u "wikidata");
  language ← validate_language (dget_none (u "language") row) (u "language");
  page_id ← validate_positive_int (dget_none (u "page_id") row) (u "page_id");
  revision_id ← validate_positive_int (dget_none (u "revision_id") row) (u "revision_id");
  article_id ← require_exact_str (dget_none (u "article_id") row) (u "article_id");
  let expected_article_id := make_article_id wikidata language page_id revision_id in
  _ ← raise_if (negb (str_eqb article_id expected_article_id))
    (conversion_error [FStr (u "Inconsistent article_id: expected '" ++ expected_article_id ++ u "', got '" ++ article_id ++ u "'")]);
  _ ← fold_outcome (fun _ field => validate_field row field) tt remaining_fields;
  let document_id := make_document_id wikidata language page_id revision_id in
  mret (document_id, document_dict document_id row).

(** * Conversion of a table *)

(** The strings that occur more than once. *)
Definition repeated (l : list str) : list str := filter (fun x => (1 < length (filter (eq x) l))%nat) (fromkeys l).

Definition validate_no_duplicate_columns (actual : table_schema) : outcome unit :=
  let duplicated := sorted_strs (repeated actual.*1) in
  raise_if (bool_decide (duplicated ≠ []))
    (conversion_error [FStr (u "Duplicate column name(s) in input table: "); FRepr (strs duplicated)]).

Definition validate_expected_columns (actual expected : table_schema) : outcome unit :=
  let extra := sorted_strs (filter (fun c => c ∉ expected.*1) actual.*1) in
  _ ← raise_if (bool_decide (extra ≠ []))
    (conversion_error [FStr (u "Unknown extra column(s) in input table: "); FRepr (strs extra)]);
  let missing := sorted_strs (filter (fun c => c ∉ actual.*1) expected.*1) in
  raise_if (bool_decide (missing ≠ []))
    (conversion_error [FStr (u "Missing required column(s) in input table: "); FRepr (strs missing)]).

Definition validate_column_order (actual expected : table_schema) : outcome unit :=
  raise_if (bool_decide (actual.*1 ≠ expected.*1))
    (conversion_error [FStr (u "Input table column order does not match article_schema(). Expected ");
                       FRepr (strs expected.*1); FStr (u ", got "); FRepr (strs actual.*1)]).

Definition validate_column_fields (actual expected : table_schema) : outcome unit :=
  fold_outcome (fun _ (fields : (str * column_type) * (str * column_type)) =>
    raise_if (negb (bool_decide (fields.1.2 = fields.2.2)))
      (conversion_error [FStr (u "Type mismatch for column '" ++ fields.2.1 ++ u "'")])) tt (zip actual expected).

Definition validate_article_table_schema (actual expected : table_schema) : outcome unit :=
  _ ← validate_no_duplicate_columns actual;
  _ ← validate_expected_columns actual expected;
  _ ← validate_column_order actual expected;
  validate_column_fields actual expected.

(** [sorted(l)] of strings and nulls, which cannot be compared with each other. *)
Definition sorted_values (l : list pyval) : outcome (list pyval) :=
  match mapM (fun v => match v with VStr s => Some s | _ => None end) l with
  | Some ss => Ok (VStr <$> sorted_strs ss)
  | None => if (1 <? length l)%nat then Raise (exc CTypeError (msg "'<' not supported between instances of 'NoneType' and 'str'")) else Ok l
  end.

(** The values that occur more than once. *)
Definition duplicates (l : list pyval) : list pyval :=
  filter (fun v => (1 <? length (List.filter (py_eqb v) l))%nat = true) (distinct l).

Definition validate_unique_article_ids (rows : list pydict) : outcome unit :=
  match duplicates (dget_none (u "article_id") <$> rows) with
  | [] => Ok tt
  | l => l' ← sorted_values l; Raise (conversion_error [FStr (u "Duplicate article_id values found: "); FRepr (VList l')])
  end.

Definition convert_article_row (acc : list str * list pydict) (row : pydict) : outcome (list str * list pydict) :=
  '(document_id, doc) ← wikipedia_document_from_article_row row;
  _ ← raise_if (bool_decide (document_id ∈ acc.1)) (conversion_error [FStr (u "Duplicate document_id generated: '" ++ document_id ++ u "'")]);
  mret (acc.1 ++ [document_id], acc.2 ++ [doc]).
Definition convert_article_rows (rows : list pydict) : outcome (list pydict) :=
  r ← fold_outcome convert_article_row ([], []) rows; mret r.2.

Definition document_id_of (row : pydict) : str := match dget_none (u "document_id") row with VStr s => s | _ => [] end.

Definition sort_documents (rows : list pydict) : list pydict :=
  sort_stable (fun a b => str_leb (document_id_of a) (document_id_of b)) rows.

Definition build_wikipedia_document_table (article_table : table) : outcome table :=
  let '(schema, rows) := article_table in
  _ ← validate_article_table_schema schema article_schema;
  if bool_decide (rows = []) then mret (wikipedia_document_schema, [])
  else
    _ ← validate_unique_article_ids rows;
    docs ← convert_article_rows rows;
    mret (wikipedia_document_schema, sort_documents docs).

(** * Plans ([models.py]) *)

Inductive MigrationOperation := CREATE_MISSING | UPGRADE_LEGACY | ALREADY_CANONICAL | BLOCKED.
#[export] Instance migration_operation_eq_dec : EqDecision MigrationOperation.
Proof. solve_decision. Defined.

Record StemPlan := mkStemPlan {
  sp_stem : str; sp_operation : MigrationOperation; sp_reason : str; sp_article_hash : str; sp_document_hash : option str;
  sp_row_count : Z; sp_canonical_digest : option str }.
#[export] Instance stem_plan_eq_dec : EqDecision StemPlan.
Proof. solve_decision. Defined.

Record MigrationPlan := mkMigrationPlan { mp_processed_dir : path; mp_stems : list StemPlan }.

Definition is_safe_to_apply (plan : MigrationPlan) : bool :=
  forallb (fun s => negb (bool_decide (sp_operation s = BLOCKED))) (mp_stems plan).
Definition blocked_stems (plan : MigrationPlan) : list str :=
  sp_stem <$> filter (fun s => sp_operation s = BLOCKED) (mp_stems plan).

Record ApplyResult := mkApplyResult {
  ar_planned : Z; ar_created : Z; ar_upgraded : Z; ar_skipped : Z; ar_blocked : Z;
  ar_created_stems : list str; ar_upgraded_stems : list str; ar_skipped_stems : list str; ar_blocked_stems : list str }.

Definition MigrationError : exn_class := CUser (u "MigrationError") CException.
Definition migration_error (stem text : str) : exn := exc MigrationError [FStr (u "Stem '" ++ stem ++ u "': " ++ text)].

(** [pa.ArrowException]. *)
Definition ArrowException : exn_class := CUser (u "ArrowException") CException.
Definition unreadable_class (e : exn) : bool := isinstance e COSError || isinstance e ArrowException || isinstance e ArrowInvalid.

Section Migration.
Context {RT : Runtime} {FF : FileFormats} {PQ : Parquet}.
Variable temporary_middle : gmap path node -> path -> str.
(** The digest of a table's Arrow serialization. *)
Variable table_digest : table -> str.

(** [repr(v)]: the text of the list of the value alone, without its brackets. *)
Definition py_repr (v : pyval) : str := removelast (drop 1 (str_of_nonstr (VList [v]))).
(** [str(exc)]. *)
Definition str_of_exn (e : exn) : str :=
  mjoin ((fun f => match f with FStr s => s | FInt z => str_of_Z z | FRepr v => py_repr v end) <$> exn_msg e).

(** * Planning ([planning.py]) *)

Definition file_content_hash (p : path) (t : gmap path node) : outcome str := sha256_file p t.

Definition blocked_plan (stem reason article_hash : str) (document_hash : option str) : StemPlan :=
  mkStemPlan stem BLOCKED reason article_hash document_hash 0 None.
Definition ready_plan (stem : str) (operation : MigrationOperation) (canonical_table : table) (article_hash : str)
    (document_hash : option str) : StemPlan :=
  mkStemPlan stem operation [] article_hash document_hash (len canonical_table.2) (Some (table_digest canonical_table)).

Definition articles_dir (processed_dir : path) : path := sub processed_dir "articles".
Definition documents_dir (processed_dir : path) : path := sub processed_dir "wikipedia/documents".
Definition article_path (processed_dir : path) (stem : str) : path := child (articles_dir processed_dir) (stem ++ u ".parquet").
Definition document_path (processed_dir : path) (stem : str) : path := child (documents_dir processed_dir) (stem ++ u ".parquet").

Definition discover_all_stems (processed_dir : path) (t : gmap path node) : list str :=
  let stems_in (dir : path) := if is_dir dir t then (fun p => stem_of_name (path_name p)) <$> glob dir (u ".parquet") t else [] in
  sorted_strs (elements (list_to_set (stems_in (articles_dir processed_dir) ++ stems_in (documents_dir processed_dir)) : gset str)).

Definition read_article_table (p : path) (stem : str) (t : gmap path node) : outcome table :=
  match read_table p t with
  | Raise e => if unreadable_class e
               then Raise (exc_from MigrationError [FStr (u "Stem '" ++ stem ++ u "': unreadable article file (" ++ class_name (exn_cls e) ++ u ")")] e)
               else Raise e
  | Ok tab => _ ← raise_if (negb (bool_decide (tab.1 = article_schema))) (migration_error stem (u "article schema does not match article_schema()"));
              mret tab
  end.

(** The rows of a table by identifier: the last row of an identifier. *)
Definition row_by_id (rows : list pydict) (id : pyval) : option pydict :=
  find (fun row => py_eqb (dget_none (u "document_id") row) id) (reverse rows).

Definition validate_shared_identities (legacy_ids canonical_ids : list pyval) (stem : str) : outcome unit :=
  _ ← raise_if (negb (length legacy_ids =? length canonical_ids)%nat)
    (migration_error stem (u "row count mismatch (document has " ++ str_of_Z (len legacy_ids) ++ u ", canonical has " ++
                           str_of_Z (len canonical_ids) ++ u ")"));
  _ ← raise_if (negb (length (distinct legacy_ids) =? length legacy_ids)%nat)
    (migration_error stem (u "duplicate document_id in existing document"));
  if set_eqb legacy_ids canonical_ids then mret tt
  else
    diff ← sorted_values (List.filter (fun v => negb (py_in v canonical_ids)) (distinct legacy_ids) ++
                          List.filter (fun v => negb (py_in v legacy_ids)) (distinct canonical_ids));
    Raise (exc MigrationError [FStr (u "Stem '" ++ stem ++ u "': document_id set mismatch (symmetric difference: ");
                               FRepr (VList diff); FStr (u ")")]).

Definition validate_shared_row (stem : str) (document_id : pyval) (shared_cols : list str) (legacy_row canonical_row : pydict) : outcome unit :=
  fold_outcome (fun _ column =>
    raise_if (negb (py_eqb (dget_none column legacy_row) (dget_none column canonical_row)))
      (migration_error stem (u "shared-value conflict for document_id '" ++ py_str document_id ++ u "' in column '" ++ column ++ u "'"))) tt shared_cols.

Definition check_shared_values (legacy_table canonical_table : table) (stem : str) : outcome unit :=
  let ids (rows : list pydict) := dget_none (u "document_id") <$> rows in
  _ ← validate_shared_identities (ids legacy_table.2) (ids canonical_table.2) stem;
  let shared_cols := sorted_strs (filter (fun c => c ∈ canonical_table.1.*1 /\ c ≠ u "document_id") (fromkeys legacy_table.1.*1)) in
  doc_ids ← sorted_values (distinct (ids canonical_table.2));
  fold_outcome (fun _ doc_id =>
    match row_by_id legacy_table.2 doc_id, row_by_id canonical_table.2 doc_id with
    | Some legacy_row, Some canonical_row => validate_shared_row stem doc_id shared_cols legacy_row canonical_row
    | _, _ => Raise (exc CKeyError [FRepr doc_id])
    end) tt doc_ids.

Definition str_id (row : pydict) : str := py_str (dget_none (u "document_id") row).

Definition assert_canonical_preserves_legacy (canonical_table legacy_canonical_table : table) (stem : str) : outcome unit :=
  let canonical_rows := canonical_table.2 in
  let canonical_by_id := foldl (fun d row => dset (str_id row) row d) [] canonical_rows in
  _ ← raise_if (negb (length canonical_by_id =? length canonical_rows)%nat)
    (migration_error stem (u "duplicate document_id in canonical document"));
  fold_outcome (fun _ (expected_row : pydict) =>
    raise_if (match dget (str_id expected_row) canonical_by_id with
              | Some row => negb (py_eqb (VDict row) (VDict expected_row))
              | None => true
              end)
      (migration_error stem (u "canonical documents do not preserve legacy document '" ++ str_id expected_row ++ u "'")))
    tt legacy_canonical_table.2.

Definition validate_stem_name (stem : str) : outcome unit :=
  if is_safe_stem (VStr stem) then mret tt
  else if bool_decide (stem = []) || bool_decide (stem ∈ [u "."; u ".."])
  then Raise (exc MigrationError [FStr (u "Invalid stem name: '" ++ stem ++ u "'")])
  else Raise (migration_error stem (u "must not contain path separators")).

Definition validate_target_inside_docs (stem : str) (target docs_dir : path) : outcome unit :=
  match relative_to (resolve target) (resolve docs_dir) with
  | Some _ => mret tt
  | None => Raise (migration_error stem (u "target path escapes documents directory"))
  end.

Definition validate_stem_path (stem : str) (docs_dir : path) : outcome path :=
  _ ← validate_stem_name stem;
  let target := child docs_dir (stem ++ u ".parquet") in
  _ ← validate_target_inside_docs stem target docs_dir;
  mret target.

Definition unreadable (what : string) (e : exn) : str := u "unreadable " ++ u what ++ u " file (" ++ class_name (exn_cls e) ++ u ")".

(** [None]: both sources are to be read. *)
Definition missing_stem_plan (stem : str) (article_path doc_path : path) (t : gmap path node) : outcome (option StemPlan) :=
  let has_article := is_file article_path t in
  let has_doc := is_file doc_path t in
  if has_doc && negb has_article
  then match file_content_hash doc_path t with
       | Ok doc_hash => mret (Some (blocked_plan stem (u "document exists without corresponding article") [] (Some doc_hash)))
       | Raise e => if isinstance e COSError then mret (Some (blocked_plan stem (unreadable "document" e) [] None)) else Raise e
       end
  else if negb has_article then mret (Some (blocked_plan stem (u "no article file found") [] None))
  else mret None.

Definition article_plan_inputs (stem : str) (article_path : path) (t : gmap path node) : outcome (StemPlan + str * table) :=
  match read_article_table article_path stem t with
  | Raise e => if isinstance e MigrationError then mret (inl (blocked_plan stem (str_of_exn e) [] None)) else Raise e
  | Ok article_table =>
      match file_content_hash article_path t with
      | Raise e => if isinstance e COSError then mret (inl (blocked_plan stem (unreadable "article" e) [] None)) else Raise e
      | Ok article_hash =>
          match build_wikipedia_document_table article_table with
          | Raise e => if isinstance e WikipediaDocumentConversionError
                       then mret (inl (blocked_plan stem (u "article conversion failed: " ++ str_of_exn e) article_hash None))
                       else Raise e
          | Ok canonical_table => mret (inr (article_hash, canonical_table))
          end
      end
  end.

(** [try: check / except MigrationError] of the two kinds of existing documents. *)
Definition checked_plan (check : outcome unit) (stem article_hash document_hash : str) (plan : StemPlan) : outcome StemPlan :=
  match check with
  | Ok _ => mret plan
  | Raise e => if isinstance e MigrationError then mret (blocked_plan stem (str_of_exn e) article_hash (Some document_hash)) else Raise e
  end.

Definition canonical_document_plan (stem : str) (document_table canonical_table : table) (article_hash document_hash : str) : outcome StemPlan :=
  checked_plan (assert_canonical_preserves_legacy document_table canonical_table stem) stem article_hash document_hash
    (ready_plan stem ALREADY_CANONICAL document_table article_hash (Some document_hash)).

Definition legacy_document_plan (stem : str) (document_table canonical_table : table) (article_hash document_hash : str) : outcome StemPlan :=
  checked_plan (check_shared_values document_table canonical_table stem) stem article_hash document_hash
    (ready_plan stem UPGRADE_LEGACY canonical_table article_hash (Some document_hash)).

Definition existing_document_plan (stem : str) (doc_path : path) (canonical_table : table) (article_hash : str) (t : gmap path node)
    : outcome StemPlan :=
  match file_content_hash doc_path t with
  | Raise e => if isinstance e COSError then mret (blocked_plan stem (unreadable "document" e) article_hash None) else Raise e
  | Ok doc_hash =>
      match read_table doc_path t with
      | Raise e => if unreadable_class e then mret (blocked_plan stem (unreadable "document" e) article_hash (Some doc_hash)) else Raise e
      | Ok document_table =>
          if bool_decide (document_table.1 = wikipedia_document_schema)
          then canonical_document_plan stem document_table canonical_table article_hash doc_hash
          else if bool_decide (document_table.1 = document_schema)
          then legacy_document_plan stem document_table canonical_table article_hash doc_hash
          else mret (blocked_plan stem (u "unexpected document schema (" ++ str_of_Z (len document_table.1) ++ u " columns)")
                       article_hash (Some doc_hash))
      end
  end.

Definition classify_stem (processed_dir : path) (t : gmap path node) (stem : str) : outcome StemPlan :=
  missing ← missing_stem_plan stem (article_path processed_dir stem) (document_path processed_dir stem) t;
  match missing with
  | Some plan => mret plan
  | None =>
      inputs ← article_plan_inputs stem (article_path processed_dir stem) t;
      match inputs with
      | inl plan => mret plan
      | inr (article_hash, canonical_table) =>
          if negb (is_file (document_path processed_dir stem) t)
          then mret (ready_plan stem CREATE_MISSING canonical_table article_hash None)
          else existing_document_plan stem (document_path processed_dir stem) canonical_table article_hash t
      end
  end.

Definition plan_migration (processed_dir : path) (stems : option (gset str)) (t : gmap path node) : outcome MigrationPlan :=
  let discovered := discover_all_stems processed_dir t in
  let scoped := match stems with Some wanted => filter (fun s => s ∈ wanted) discovered | None => discovered end in
  stems_data ← mapM (classify_stem processed_dir t) scoped;
  mret (mkMigrationPlan processed_dir stems_data).

(** * Application ([application.py]) *)

Inductive ApplyAction := APPLY_WRITE | APPLY_SKIP.

Definition validate_documents_root (processed_dir docs_dir : path) : outcome unit :=
  match relative_to (resolve docs_dir) (resolve processed_dir) with
  | Some _ => mret tt
  | None => Raise (exc MigrationError (msg "Wikipedia documents directory escapes processed directory"))
  end.

Definition became_canonical (planned current : StemPlan) : bool :=
  bool_decide (sp_operation planned = CREATE_MISSING \/ sp_operation planned = UPGRADE_LEGACY) &&
  bool_decide (sp_operation current = ALREADY_CANONICAL) &&
  str_eqb (sp_article_hash planned) (sp_article_hash current) &&
  (sp_row_count planned =? sp_row_count current) &&
  bool_decide (sp_canonical_digest planned = sp_canonical_digest current).

(** The first conflict found after planning again. *)
Definition transition_conflict (planned current : StemPlan) : str :=
  if negb (str_eqb (sp_article_hash planned) (sp_article_hash current)) then u "article file changed after planning"
  else if bool_decide (sp_operation current = BLOCKED) && contains (u "unreadable") (sp_reason current) then sp_reason current
  else if bool_decide (sp_operation planned = CREATE_MISSING) && bool_decide (sp_document_hash current ≠ None)
  then u "conflicting target appeared after planning"
  else if negb (bool_decide (sp_document_hash planned = sp_document_hash current)) then u "document file changed after planning"
  else u "migration plan changed after validation".

Definition transition_action (planned current : StemPlan) : outcome ApplyAction :=
  if bool_decide (planned = current)
  then mret (if bool_decide (sp_operation current = ALREADY_CANONICAL) then APPLY_SKIP else APPLY_WRITE)
  else if became_canonical planned current then mret APPLY_SKIP
  else Raise (migration_error (sp_stem planned) (transition_conflict planned current)).

(** [dict[str, Path]]: a later stem plan replaces an earlier one of the same stem. *)
Definition safe_target (docs_dir : path) (targets : list (str * path)) (sp : StemPlan) : outcome (list (str * path)) :=
  target ← validate_stem_path (sp_stem sp) docs_dir; mret (dset (sp_stem sp) target targets).
Definition validate_apply_inputs (plan : MigrationPlan) (processed_dir docs_dir : path) : outcome (list (str * path)) :=
  _ ← raise_if (negb (is_safe_to_apply plan))
    (exc MigrationError [FStr (u "Plan is not safe to apply: "); FInt (len (blocked_stems plan));
       FStr (u " blocked stem(s): "); FRepr (strs (blocked_stems plan))]);
  _ ← validate_documents_root processed_dir docs_dir;
  fold_outcome (safe_target docs_dir) [] (mp_stems plan).

Definition ensure_plan_stems_match (plan current_plan : MigrationPlan) : outcome unit :=
  raise_if (bool_decide (sp_stem <$> mp_stems current_plan ≠ sp_stem <$> mp_stems plan))
    (exc MigrationError (msg "Migration plan stem set changed after validation")).

Definition transition_actions (plan current_plan : MigrationPlan) : outcome (list ApplyAction) :=
  mapM (fun pc : StemPlan * StemPlan => transition_action pc.1 pc.2) (zip (mp_stems plan) (mp_stems current_plan)).

Definition revalidated_actions (plan : MigrationPlan) (processed_dir : path) (t : gmap path node)
    : outcome (MigrationPlan * list ApplyAction) :=
  current_plan ← plan_migration processed_dir (Some (list_to_set (sp_stem <$> mp_stems plan))) t;
  _ ← ensure_plan_stems_match plan current_plan;
  actions ← transition_actions plan current_plan;
  mret (current_plan, actions).

Definition validate_article_before_write (sp : StemPlan) (article_path : path) (t : gmap path node) : outcome unit :=
  match file_content_hash article_path t with
  | Ok hash => raise_if (negb (str_eqb hash (sp_article_hash sp))) (migration_error (sp_stem sp) (u "article file changed before write"))
  | Raise e => if isinstance e COSError
               then Raise (exc_from MigrationError [FStr (u "Stem '" ++ sp_stem sp ++ u "': article file unreadable before write (" ++ class_name (exn_cls e) ++ u ")")] e)
               else Raise e
  end.

Definition validate_upgrade_target (sp : StemPlan) (target : path) (t : gmap path node) : outcome unit :=
  _ ← raise_if (negb (is_file target t)) (migration_error (sp_stem sp) (u "document disappeared before write"));
  match file_content_hash target t with
  | Ok current_hash => raise_if (negb (bool_decide (Some current_hash = sp_document_hash sp))) (migration_error (sp_stem sp) (u "document changed before write"))
  | Raise e => if isinstance e COSError
               then Raise (exc_from MigrationError [FStr (u "Stem '" ++ sp_stem sp ++ u "': document unreadable before write (" ++ class_name (exn_cls e) ++ u ")")] e)
               else Raise e
  end.

Definition validate_target_before_write (sp : StemPlan) (target : path) (t : gmap path node) : outcome unit :=
  match sp_operation sp with
  | CREATE_MISSING => raise_if (path_exists target t) (migration_error (sp_stem sp) (u "target appeared before write"))
  | UPGRADE_LEGACY => validate_upgrade_target sp target t
  | ALREADY_CANONICAL | BLOCKED => mret tt
  end.

Definition validate_canonical_output (sp : StemPlan) (tab : table) : outcome unit :=
  raise_if (negb (len tab.2 =? sp_row_count sp) || negb (bool_decide (Some (table_digest tab) = sp_canonical_digest sp)))
    (migration_error (sp_stem sp) (u "canonical output changed before write")).

Definition rebuild_table_for_write (sp : StemPlan) (processed_dir target : path) (t : gmap path node) : outcome table :=
  let article := article_path processed_dir (sp_stem sp) in
  _ ← validate_article_before_write sp article t;
  _ ← validate_target_before_write sp target t;
  rows ← read_article_table article (sp_stem sp) t;
  tab ← build_wikipedia_document_table rows;
  _ ← validate_canonical_output sp tab;
  mret tab.

(** The stems created, upgraded and skipped so far. *)
Definition record_applied_stem (sp : StemPlan) (done : list str * list str * list str) : list str * list str * list str :=
  let '(created, upgraded, skipped) := done in
  match sp_operation sp with
  | CREATE_MISSING => (created ++ [sp_stem sp], upgraded, skipped)
  | _ => (created, upgraded ++ [sp_stem sp], skipped)
  end.
Definition record_skipped_stem (sp : StemPlan) (done : list str * list str * list str) : list str * list str * list str :=
  (done.1, done.2 ++ [sp_stem sp]).

Definition execute_action (processed_dir : path) (safe_targets : list (str * path)) (sp : StemPlan) (action : ApplyAction)
    (done : list str * list str * list str) : PyM FsState (list str * list str * list str) :=
  match action with
  | APPLY_SKIP => ret (record_skipped_stem sp done)
  | APPLY_WRITE =>
      match dget (sp_stem sp) safe_targets with
      | None => throw (exc CKeyError [FRepr (VStr (sp_stem sp))])
      | Some target =>
          tab <- reads (rebuild_table_for_write sp processed_dir target);;
          atomic_write_parquet temporary_middle target tab.1 tab.2;;
          ret (record_applied_stem sp done)
      end
  end.

Fixpoint execute_actions (processed_dir : path) (safe_targets : list (str * path)) (work : list (StemPlan * ApplyAction))
    (done : list str * list str * list str) : PyM FsState (list str * list str * list str) :=
  match work with
  | [] => ret done
  | (sp, action) :: rest =>
      done <- execute_action processed_dir safe_targets sp action done;;
      execute_actions processed_dir safe_targets rest done
  end.

Definition apply_migration (plan : MigrationPlan) : PyM FsState ApplyResult :=
  let processed_dir := mp_processed_dir plan in
  let docs_dir := documents_dir processed_dir in
  safe_targets <- lift (validate_apply_inputs plan processed_dir docs_dir);;
  current <- reads (revalidated_actions plan processed_dir);;
  done <- execute_actions processed_dir safe_targets (zip (mp_stems current.1) current.2) ([], [], []);;
  let '(created_stems, upgraded_stems, skipped_stems) := done in
  ret (mkApplyResult (len (mp_stems plan)) (len created_stems) (len upgraded_stems) (len skipped_stems) 0
         created_stems upgraded_stems skipped_stems []).

(** * The checks of a retirement ([augmentation/wikipedia_retirement.py]) *)

Definition assert_legacy_rows_preserved (canonical_path legacy_path : path) (stem : str) (t : gmap path node) : outcome unit :=
  canonical ← read_table canonical_path t;
  legacy ← read_table legacy_path t;
  expected ← build_wikipedia_document_table legacy;
  match assert_canonical_preserves_legacy canonical expected stem with
  | Raise e => if isinstance e MigrationError
               then Raise (exc_from MigrationError [FStr (u "Stem "); FRepr (VStr stem); FStr (u " is not safe to retire: " ++ str_of_exn e)] e)
               else Raise e
  | Ok _ => mret tt
  end.

Definition unresolved_article_links (links_path : path) (article_ids : list pyval) (t : gmap path node) : outcome bool :=
  links ← read_columns [u "article_id"] links_path t;
  mret (existsb (fun row => negb (py_in (dget_none (u "article_id") row) article_ids)) links).

Definition unresolved_document_links (links_path : path) (document_ids : list pyval) (t : gmap path node) : outcome bool :=
  links ← read_columns [u "document_id"; u "project"] links_path t;
  mret (existsb (fun row => py_eqb (dget_none (u "project") row) (VStr (u "wikipedia")) &&
                            negb (py_in (dget_none (u "document_id") row) document_ids)) links).

Definition assert_link_references_resolve (links_path : path) (article_ids document_ids : list pyval) (stem : str) (t : gmap path node)
    : outcome unit :=
  if negb (path_exists links_path t) then mret tt
  else
    '(link_schema, _) ← read_table links_path t;
    unresolved ← (if bool_decide (u "article_id" ∈ (link_schema : table_schema).*1) then unresolved_article_links links_path article_ids t
                  else unresolved_document_links links_path document_ids t);
    raise_if unresolved (exc MigrationError [FStr (u "Stem "); FRepr (VStr stem); FStr (u " has polygon links unresolved by canonical documents")]).

Definition assert_section_references_resolve (sections_path : path) (document_ids : list pyval) (stem : str) (t : gmap path node)
    : outcome unit :=
  if negb (path_exists sections_path t) then mret tt
  else
    sections ← read_columns [u "document_id"] sections_path t;
    raise_if (existsb (fun row => negb (py_in (dget_none (u "document_id") row) document_ids)) sections)
      (exc MigrationError [FStr (u "Stem "); FRepr (VStr stem); FStr (u " has sections unresolved by canonical documents")]).

Definition assert_references_resolve (data_root : path) (stem : str) (t : gmap path node) : outcome unit :=
  documents ← read_columns [u "article_id"; u "document_id"] (document_path (processed data_root) stem) t;
  let article_ids := dget_none (u "article_id") <$> documents in
  let document_ids := dget_none (u "document_id") <$> documents in
  _ ← assert_link_references_resolve (child (processed_links data_root) (stem ++ u ".parquet")) article_ids document_ids stem t;
  assert_section_references_resolve (child (sub (processed data_root) "wikipedia/sections") (stem ++ u ".parquet")) document_ids stem t.

Definition validate_retirement_inputs (data_root : path) (stem : str) (t : gmap path node) : outcome unit :=
  let canonical := document_path (processed data_root) stem in
  let legacy := article_path (processed data_root) stem in
  let refused := exc MigrationError [FStr (u "Stem "); FRepr (VStr stem); FStr (u " has no valid canonical Wikipedia document")] in
  _ ← raise_if (negb (path_exists canonical t)) refused;
  '(schema, _) ← read_table canonical t;
  _ ← raise_if (negb (bool_decide (schema = wikipedia_document_schema))) refused;
  _ ← (if path_exists legacy t then assert_legacy_rows_preserved canonical legacy stem t else mret tt);
  assert_references_resolve data_root stem t.

(** * The migration before the plan ([pipeline/sync_planning.py]) *)

Definition migration_stems_to_persist (stems : list StemPlan) : gset str :=
  list_to_set (sp_stem <$> filter (fun s => sp_operation s = CREATE_MISSING \/ sp_operation s = UPGRADE_LEGACY) stems).

Variable data_root : path.

Definition legacy_stems (t : gmap path node) : gset str :=
  list_to_set ((fun p => stem_of_name (path_name p)) <$> glob (processed_articles data_root) (u ".parquet") t).

(** The migration is planned and the intent to publish what it changes is recorded. *)
Definition record_migration_intent (input : gset str) : PyM FsState (MigrationPlan * gset str) :=
  pending_stems <- reads (load_pending_publications data_root);;
  plan <- reads (fun t => plan_migration (processed data_root) (Some ((input ∪ pending_stems) ∩ legacy_stems t)) t);;
  lift (raise_if (negb (is_safe_to_apply plan))
    (exc MigrationError [FStr (u "Plan is not safe to apply: "); FInt (len (blocked_stems plan));
       FStr (u " blocked stem(s): "); FRepr (strs (blocked_stems plan))]));;
  add_pending_publications temporary_middle data_root (migration_stems_to_persist (mp_stems plan));;
  ret (plan, migration_stems_to_persist (mp_stems plan)).

Definition run_pre_publication_migration (input : gset str) : PyM FsState unit :=
  intent <- record_migration_intent input;;
  apply_migration intent.1;;
  for_each (prepare_local_retirement temporary_middle data_root (validate_retirement_inputs data_root)) (sorted_strs (elements intent.2)).

End Migration.
