(* ===== verification/DocumentMigrationProofs.v ===== *)
(** The migration before the plan: no document is migrated whose publication is not recorded. *)
From stdpp Require Import gmap.
From S2P Require Import Prelude Py PyStr Fs Keeps Artifacts Atomic Paths Pending PendingProofs PendingThreads PolygonLinks Tables UploadState UploadFrame Retirement RetirementProofs DocumentMigration.

Section Migration.
Context {RT : Runtime} {FF : FileFormats} {PQ : Parquet}.
Variable temporary_middle : gmap path node -> path -> str.
Variable table_digest : table -> str.
Variable data_root : path.
Hypothesis temporary_is_fresh : forall t p, t !! temporary_name temporary_middle p t = None.

Abbreviation documents := (document_path (processed data_root)).

(** * Frames *)

Lemma document_in_processed stem : documents stem = processed data_root ++ [u "wikipedia"; u "documents"; stem ++ u ".parquet"].
Proof. unfold document_path, documents_dir, child. by rewrite in_processed, <- app_assoc. Qed.

Lemma document_parent stem : path_parent (documents stem) = processed data_root ++ [u "wikipedia"; u "documents"].
Proof. unfold document_path. by rewrite path_parent_child. Qed.

Lemma envelope_in_processed : manifest_path data_root = processed data_root ++ [u "manifests"; FILENAME].
Proof. unfold manifest_path, processed_manifests, child. by rewrite in_processed, <- app_assoc. Qed.

Lemma document_path_inj d stem stem' : document_path d stem = document_path d stem' -> stem = stem'.
Proof. unfold document_path, child. intros H%app_inj_tail. destruct H as [_ H]. by apply (inj (.++ u ".parquet")) in H. Qed.

(** A path below [processed] in another directory than the one of a manifest. *)
Lemma elsewhere q a :
  q = processed data_root ++ a -> length a = 3%nat -> head a = Some (u "wikipedia") -> not_a_manifest temporary_middle data_root q.
Proof.
  intros Hq Hl Hh. destruct a as [|a0 [|a1 [|a2 []]]]; try done. injection Hh as ->.
  split; intros body Hb; (eapply other_directory; [exact Hq| | | | |exact Hb]).
  - unfold processed_manifest. rewrite path_parent_child. apply in_processed.
  - intros r. by intros [= ?].
  - by intros [= ?].
  - done.
  - instantiate (1 := [u "augmentation"; u "manifests"]). unfold augmentation_manifest, path_parent. rewrite in_processed.
    change (path_components (u "augmentation/manifests/augmentation_manifest.json"))
      with ([u "augmentation"; u "manifests"] ++ [u "augmentation_manifest.json"]).
    by rewrite app_assoc, removelast_last.
  - intros r. by intros [= ?].
  - by intros [= ?].
  - done.
Qed.

Lemma untouched_write_table q target schema rows :
  (forall body, (forall t, t ≠ q -> untouched q (body t)) -> untouched q (atomic_replacement temporary_middle target body)) ->
  untouched q (atomic_write_parquet temporary_middle target schema rows).
Proof.
  intros H. apply untouched_bind; [auto with untouched|]. intros b. apply H. intros t Ht. by apply untouched_write_file.
Qed.

Lemma envelope_write_table stem schema rows : untouched (manifest_path data_root) (atomic_write_parquet temporary_middle (documents stem) schema rows).
Proof.
  apply untouched_write_table. eapply (other_directory _ _ _ [u "manifests"; FILENAME] [u "wikipedia"; u "documents"]).
  - apply envelope_in_processed.
  - apply document_parent.
  - intros r. by intros [= ?].
  - by intros [= ?].
  - done.
Qed.

(** A temporary file is never a table of documents. *)
Lemma document_not_temporary stem : temporary_like (documents stem) = false.
Proof.
  unfold temporary_like, document_path. rewrite path_name_child. apply andb_false_iff. right.
  unfold endswith, startswith. apply bool_decide_eq_false. rewrite reverse_app. vm_compute. by intros [? ?].
Qed.

Lemma documents_write_table stem stem' schema rows :
  stem ≠ stem' -> untouched (documents stem) (atomic_write_parquet temporary_middle (documents stem') schema rows).
Proof.
  intros Hne. apply untouched_write_table. intros body Hb. apply untouched_atomic_replacement; [| | |done].
  - intros [r Hr]%prefixes_prefix. rewrite document_parent, document_in_processed, <- app_assoc in Hr. by apply app_inv_head in Hr.
  - by intros ->%document_path_inj.
  - intros t E. pose proof (temporary_name_like temporary_middle (documents stem') t) as [H _].
    rewrite E, document_not_temporary in H. done.
Qed.

(** * What the application writes *)

Lemma safe_target_paths docs_dir stems targets r :
  fold_outcome (safe_target docs_dir) targets stems = Ok r ->
  (forall stem target, dget stem targets = Some target -> target = child docs_dir (stem ++ u ".parquet")) ->
  forall stem target, dget stem r = Some target -> target = child docs_dir (stem ++ u ".parquet").
Proof.
  intros H Ht. apply (fold_outcome_invariant (fun ts => forall stem target, dget stem ts = Some target -> target = child docs_dir (stem ++ u ".parquet")) _ _ _ _ H Ht).
  clear. intros ts sp ts' _ Ht H. unfold safe_target in H. outcome_inv H. unfold validate_stem_path in E. outcome_inv E.
  injection E as <-. injection H as <-. intros stem target. destruct (decide (stem = sp_stem sp)) as [->|Hne].
  - rewrite dget_dset_eq. by intros [= <-].
  - rewrite dget_dset_ne by done. apply Ht.
Qed.

Lemma transition_write planned current : transition_action planned current = Ok APPLY_WRITE -> planned = current /\ sp_operation current ≠ ALREADY_CANONICAL.
Proof.
  unfold transition_action. case_bool_decide as E; [|by destruct (became_canonical _ _)].
  unfold mret, outcome_ret. case_bool_decide; [done|]. done.
Qed.

(** Only stems that are planned to be created or upgraded are written. *)
Lemma written_is_planned plan processed_dir t current actions sp :
  revalidated_actions table_digest plan processed_dir t = Ok (current, actions) ->
  (sp, APPLY_WRITE) ∈ zip (mp_stems current) actions -> sp ∈ mp_stems plan /\ sp_operation sp ≠ ALREADY_CANONICAL.
Proof.
  unfold revalidated_actions. intros H Hin. outcome_inv H. injection H as -> ->.
  unfold ensure_plan_stems_match in E0. passed E0. apply bool_decide_eq_false, dec_stable in E0.
  unfold transition_actions in E1. apply outcome_mapM_Forall2 in E1.
  apply list_elem_of_lookup in Hin as [i Hi]. apply lookup_zip_Some in Hi as [Hc Ha].
  assert (is_Some (mp_stems plan !! i)) as [planned Hp].
  { apply lookup_lt_is_Some. apply (f_equal length) in E0. rewrite !length_fmap in E0. rewrite <- E0. eapply lookup_lt_Some, Hc. }
  assert (Hz : zip (mp_stems plan) (mp_stems current) !! i = Some (planned, sp)) by (by apply lookup_zip_Some).
  destruct (Forall2_lookup_l _ _ _ _ _ E1 Hz) as (a & Ha' & Ht). simplify_eq. simpl in Ht. apply transition_write in Ht as [-> Ht].
  split; [by eapply list_elem_of_lookup_2|done].
Qed.

Lemma untouched_execute_actions q processed_dir targets work done :
  (forall sp target schema rows, (sp, APPLY_WRITE) ∈ work -> dget (sp_stem sp) targets = Some target ->
     untouched q (atomic_write_parquet temporary_middle target schema rows)) ->
  untouched q (execute_actions temporary_middle table_digest processed_dir targets work done).
Proof.
  revert done. induction work as [|[sp a] work IH]; intros done Hw; simpl; [auto with untouched|].
  apply untouched_bind; [|intros; apply IH; intros; eapply Hw; [by right|done]].
  destruct a; simpl; [|auto with untouched]. destruct (dget (sp_stem sp) targets) as [target|] eqn:E; [|auto with untouched].
  apply untouched_bind; [auto with untouched|]. intros tab. apply untouched_bind; [|auto with untouched].
  eapply Hw; [by left|done].
Qed.

Lemma untouched_apply q plan :
  (forall sp schema rows, sp ∈ mp_stems plan -> sp_operation sp ≠ ALREADY_CANONICAL ->
     untouched q (atomic_write_parquet temporary_middle (document_path (mp_processed_dir plan) (sp_stem sp)) schema rows)) ->
  untouched q (apply_migration temporary_middle table_digest plan).
Proof.
  intros Hw s o s'. unfold apply_migration, pbind at 1, lift.
  destruct (validate_apply_inputs _ _ _) as [targets|e] eqn:Ei; [|by intros [= <- <-]].
  unfold validate_apply_inputs in Ei. outcome_inv Ei. pose proof (safe_target_paths _ _ _ _ Ei) as Ht.
  unfold pbind at 1, reads. destruct (revalidated_actions _ _ _ _) as [[current actions]|e] eqn:Ec; [|by intros [= <- <-]].
  apply untouched_bind; [|intros [[??]?]; auto with untouched].
  apply untouched_execute_actions. intros sp target schema rows Hin Hd.
  destruct (written_is_planned _ _ _ _ _ _ Ec Hin) as [Hp Ho]. apply Ht in Hd as ->; [by apply Hw|done].
Qed.

Lemma plan_migration_dir processed_dir stems t plan : plan_migration table_digest processed_dir stems t = Ok plan -> mp_processed_dir plan = processed_dir.
Proof. unfold plan_migration. intros H. outcome_inv H. by injection H as <-. Qed.

Lemma elem_of_persisted plan sp :
  is_safe_to_apply plan = true -> sp ∈ mp_stems plan -> sp_operation sp ≠ ALREADY_CANONICAL -> sp_stem sp ∈ migration_stems_to_persist (mp_stems plan).
Proof.
  intros Hs Hin Ho. unfold is_safe_to_apply in Hs. rewrite forallb_forall in Hs. specialize (Hs sp (proj1 (list_elem_of_In _ _) Hin)).
  apply negb_true_iff, bool_decide_eq_false in Hs. unfold migration_stems_to_persist. apply elem_of_list_to_set, list_elem_of_fmap_2, list_elem_of_filter.
  split; [|done]. destruct (sp_operation sp); auto; done.
Qed.

(** * The intent *)

Lemma documents_not_a_manifest stem : not_a_manifest temporary_middle data_root (documents stem).
Proof. by eapply elsewhere; [apply document_in_processed|..]. Qed.

Lemma documents_add stem S : untouched (documents stem) (add_pending_publications temporary_middle data_root S).
Proof.
  unfold add_pending_publications. case_bool_decide; [auto with untouched|].
  apply untouched_bind; [auto with untouched|]. intros current. unfold save_pending_publications, replace_pending_stems.
  apply untouched_bind; [|intros _; do 2 (apply untouched_bind; [auto with untouched|intros])].
  - apply untouched_mkdir. intros [r Hr]%prefixes_prefix. rewrite document_in_processed, <- app_assoc in Hr.
    unfold manifest_path in Hr. rewrite path_parent_child in Hr. by apply app_inv_head in Hr.
  - eapply (other_directory _ _ _ _ [u "manifests"]); [apply document_in_processed|..].
    + unfold manifest_path. rewrite path_parent_child. apply in_processed.
    + intros r. by intros [= ?].
    + by intros [= ?].
    + done.
    + intros. by apply untouched_write_file.
Qed.

Lemma untouched_prepare_all q l :
  not_a_manifest temporary_middle data_root q ->
  untouched q (for_each (prepare_local_retirement temporary_middle data_root (validate_retirement_inputs data_root)) l).
Proof.
  intros Hq. induction l as [|x l IH]; simpl; [auto with untouched|]. apply untouched_bind; [by apply untouched_prepare|]. intros _. apply IH.
Qed.

(** What is on the disk once the intent is recorded. *)
Lemma recorded_intent input s o s' i :
  represents data_root (tree s) i ->
  record_migration_intent temporary_middle table_digest data_root input s = (o, s') ->
  (forall stem, tree s' !! documents stem = tree s !! documents stem) /\
  match o with
  | Ok (plan, stems) =>
      is_safe_to_apply plan = true /\ mp_processed_dir plan = processed data_root /\ stems = migration_stems_to_persist (mp_stems plan) /\
      represents data_root (tree s') (with_pending (pending i ∪ stems) i)
  | Raise _ => True
  end.
Proof.
  intros Hi. unfold record_migration_intent, pbind, reads, lift.
  rewrite (load_pending_represents data_root _ _ Hi).
  destruct (plan_migration _ _ _ _) as [plan|e] eqn:Ep; [|intros; by simplify_eq].
  unfold raise_if. destruct (is_safe_to_apply plan) eqn:Es; simpl; [|intros; by simplify_eq].
  destruct (add_pending_publications _ _ _ s) as [oa sa] eqn:Ea.
  pose proof (fun stem => documents_add stem _ _ _ _ Ea) as Hd.
  pose proof (turns_request temporary_middle data_root temporary_is_fresh (AddPending (migration_stems_to_persist (mp_stems plan))) i _ _ _ Hi Ea) as Ht.
  destruct oa as [[]|e]; intros [= <- <-]; (split; [exact Hd|]); [|exact I].
  split; [exact Es|]. split; [by eapply plan_migration_dir|]. split; [done|exact Ht].
Qed.

Abbreviation run := (run_pre_publication_migration temporary_middle table_digest data_root).

(** C16: No migration without a durable intent.  However the migration before the plan ends - it
    returned, it was refused, or it stopped anywhere with any error - every region whose canonical
    document table differs from before is listed among the pending publications on disk; and when
    some region is blocked the migration is refused with a [MigrationError] before anything is
    written. *)
Theorem migrated_documents_are_pending input s i :
  represents data_root (tree s) i ->
  let '(o, s') := run input s in
  (forall stem, tree s' !! documents stem ≠ tree s !! documents stem ->
     exists P, load_pending_publications data_root (tree s') = Ok P /\ stem ∈ P) /\
  (forall plan sp, plan_migration table_digest (processed data_root)
       (Some ((input ∪ pending i) ∩ legacy_stems data_root (tree s))) (tree s) = Ok plan ->
     sp ∈ mp_stems plan -> sp_operation sp = BLOCKED -> s' = s /\ exists e, o = Raise e /\ exn_cls e = MigrationError).
Proof.
  intros Hi. destruct (run input s) as [o s'] eqn:E. unfold run_pre_publication_migration in E.
  unfold pbind at 1 in E. destruct (record_migration_intent _ _ _ input s) as [or sr] eqn:Er.
  pose proof (recorded_intent _ _ _ _ _ Hi Er) as [Hdoc Hr]. split.
  - intros stem Hne. destruct or as [[plan stems]|e]; [|simplify_eq; by rewrite Hdoc in Hne].
    destruct Hr as (Hsafe & Hdir & -> & Hr). simpl in E. unfold pbind in E.
    destruct (apply_migration _ _ plan sr) as [oa sa] eqn:Ea.
    assert (Hsa : tree sa !! manifest_path data_root = tree sr !! manifest_path data_root).
    { revert Ea. apply untouched_apply. intros. rewrite Hdir. apply envelope_write_table. }
    assert (tree s' !! manifest_path data_root = tree sr !! manifest_path data_root /\ tree s' !! documents stem = tree sa !! documents stem)
      as [Hm Hdoc'].
    { destruct oa as [r|e]; [|by simplify_eq]. rewrite <- Hsa. split; (eapply untouched_prepare_all; [|exact E]);
        [apply envelope_not_a_manifest|apply documents_not_a_manifest]. }
    exists (pending i ∪ migration_stems_to_persist (mp_stems plan)).
    split; [apply (load_pending_represents data_root _ _ (represents_same data_root _ _ _ Hm Hr))|].
    apply elem_of_union_r. destruct (decide (stem ∈ migration_stems_to_persist (mp_stems plan))) as [|Hn]; [done|].
    exfalso. apply Hne. rewrite Hdoc', <- Hdoc. revert Ea. apply untouched_apply. intros sp schema rows Hin Ho. rewrite Hdir.
    apply documents_write_table. intros ->. by apply Hn, elem_of_persisted.
  - intros plan sp Hp Hin Hb. unfold record_migration_intent, pbind, reads, lift in Er.
    rewrite (load_pending_represents data_root _ _ Hi), Hp in Er.
    assert (Hu : is_safe_to_apply plan = false).
    { apply not_true_iff_false. unfold is_safe_to_apply. rewrite forallb_forall. intros H. specialize (H sp (proj1 (list_elem_of_In _ _) Hin)).
      by rewrite Hb in H. }
    rewrite Hu in Er. simpl in Er. simplify_eq. split; [done|]. by eexists.
Qed.

End Migration.

(** * An example

    Malta has articles only, Monaco has a legacy table of documents as well: one table is created,
    the other upgraded. *)

#[local] Existing Instance example_runtime.
#[local] Existing Instance example_formats.

Definition the_article : pydict :=
  (fun c : str * column_type =>
     (c.1, if str_eqb c.1 (u "article_id") then VStr (u "Q1:en:1:2")
           else if str_eqb c.1 (u "wikidata") then VStr (u "Q1")
           else if str_eqb c.1 (u "language") then VStr (u "en")
           else if str_eqb c.1 (u "page_id") then VInt 1
           else if str_eqb c.1 (u "revision_id") then VInt 2
           else match c.2 with pa_int64 => VInt 0 | _ => VStr [] end)) <$> article_schema.
Definition the_legacy_document : pydict :=
  project_row Integrity.DOCUMENT_COLUMNS (document_dict (u "Q1:wikipedia:en:1:2") the_article).

(** The tables that are there are the bytes 0, 1 and 2: articles, a legacy and a canonical table. *)
#[local] Instance example_parquet : Parquet := {|
  encode_table schema rows := if bool_decide (schema = wikipedia_document_schema) then Ok [2%N] else Raise os_error;
  decode_table b := match b with
                    | [0%N] => Ok (article_schema, [the_article])
                    | [1%N] => Ok (Integrity.document_schema, [the_legacy_document])
                    | [2%N] => Ok (wikipedia_document_schema, [document_dict (u "Q1:wikipedia:en:1:2") the_article])
                    | _ => Raise os_error
                    end |}.
Definition example_digest (tab : table) : str := Z.to_N (len tab.2) :: concat (document_id_of <$> tab.2).

Definition legacy_dirs : list (path * node) :=
  (fun p => (p, Dir)) <$> (prefixes (processed_articles pending_root) ++ prefixes (documents_dir (processed pending_root))).
Definition legacy_fs : FsState :=
  mkFs (list_to_map ((article_path (processed pending_root) (u "malta"), File (CBytes [0%N])) ::
                     (article_path (processed pending_root) (u "monaco"), File (CBytes [0%N])) ::
                     (document_path (processed pending_root) (u "monaco"), File (CBytes [1%N])) :: legacy_dirs)) [].
Definition migrated : outcome unit * FsState :=
  run_pre_publication_migration long_middle example_digest pending_root {[u "malta"; u "monaco"]} legacy_fs.
Definition migrated_document (stem : str) : option node := tree migrated.2 !! document_path (processed pending_root) stem.

(** Both tables are migrated, and the publication of both regions is recorded. *)
Lemma migrated_documents_are_pending_witness :
  migrated.1 = Ok tt /\
  forall stem, stem = u "malta" \/ stem = u "monaco" ->
  migrated_document stem = Some (File (CBytes [2%N])) /\
  exists P, load_pending_publications pending_root (tree migrated.2) = Ok P /\ stem ∈ P.
Proof.
  assert (E : migrated.1 = Ok tt) by (vm_compute; reflexivity). split; [exact E|].
  pose proof (migrated_documents_are_pending long_middle example_digest pending_root temporary_name_fresh
    {[u "malta"; u "monaco"]} legacy_fs no_intent eq_refl) as H.
  fold migrated in H. rewrite (surjective_pairing migrated) in H. destruct H as [H _].
  intros stem [->| ->]; (split; [vm_compute; reflexivity|]; apply H; vm_compute; discriminate).
Defined.
