(* ===== verification/Checkpoints.v ===== *)
(** The restart checkpoints of the V2 workflow ([v2/checkpoints.py]) and the extraction that uses
    them ([v2/extractor.py]): append-only chunks of rows, and the results of a region's fetches. *)
From stdpp Require Import gmap sorting.
From S2P Require Import Prelude Py PyStr PyText Fs Artifacts Atomic LinkTransaction PolygonLinks RecoveryMerge Tables Integrity.

Definition CHECKPOINT_CONTRACT_VERSION : str := u "wikipedia-tags-v2-checkpoints-v2".
Definition V2_CONTRACT_VERSION : str := u "wikipedia-tags-v2".

(** [FileStatFingerprint]; what [stat] reports is the environment. *)
Record FileStatFingerprint := {
  st_size : Z; st_mtime_ns : Z; st_ctime_ns : Z; st_inode : Z; st_device : Z; st_birthtime_ns : Z }.
Definition checkpoint_fingerprint (f : FileStatFingerprint) (name : str) : pydict :=
  [(u "name", VStr name); (u "size", VInt (st_size f)); (u "mtime_ns", VInt (st_mtime_ns f)); (u "ctime_ns", VInt (st_ctime_ns f));
   (u "inode", VInt (st_inode f))].

(** The columns of V2 polygons ([domain/schema.py], [v2/schema.py]). *)
Definition POLYGON_COLUMNS : list str := u <$>
  ["polygon_id"; "region"; "source_pbf"; "osm_type"; "osm_id"; "wikidata"; "name"; "tags"; "tag_keys"; "tag_count"; "osm_primary_tag";
   "centroid"; "lat"; "lon"; "bbox"; "geometry"; "area_m2"; "area_km2"; "area_bucket"; "has_name"; "has_wikidata"; "has_wikipedia";
   "wikipedia_language_count"; "wikipedia_languages"; "wikipedia_article_count"; "has_english_wikipedia"; "has_french_wikipedia";
   "text_available"; "best_language"; "extraction_version"; "extracted_at"]%string.
Definition V2_EXTRA_COLUMNS : list str := u <$> ["wikipedia_tag_refs"; "wikipedia_tag_rejections"; "discovery_sources"]%string.
Definition polygon_v2_schema : table_schema := arrow_schema POLYGON_COLUMNS ++ ((fun c => (c, pa_string)) <$> V2_EXTRA_COLUMNS).

(** The patterns of [glob] that are used: [<prefix>*<suffix>] or a plain name. *)
Inductive pattern := Around (prefix suffix : string) | Named (name : string).
Definition matches (p : pattern) (name : str) : bool :=
  match p with
  | Around prefix suffix => startswith (u prefix) name && endswith (u suffix) name && (len (u prefix) + len (u suffix) <=? len name)
  | Named n => str_eqb (u n) name
  end.
(** [p.glob(pattern)], sorted. *)
Definition glob_pattern (p : path) (what : pattern) (t : gmap path node) : list path :=
  child p <$> sorted_strs (omap (fun kv =>
    match relative_to kv.1 p with
    | Some [name] => if matches what name then Some name else None
    | _ => None
    end) (map_to_list t)).

(** A read that may fail like any other system call. *)
Definition reading {A} (f : gmap path node -> outcome A) : PyM FsState A := primitive (fun t => (f t, t)).

(** [with suppress(OSError): ...]. *)
Definition suppress_os_error (m : PyM FsState unit) : PyM FsState unit :=
  try_except m (fun e => if isinstance e COSError then Some (ret tt) else None).

(** Files that match any of the patterns, listed before the first is removed. *)
Definition remove_matching (p : path) (patterns : list pattern) : PyM FsState unit :=
  found <- gets (fun s => patterns ≫= fun what => glob_pattern p what (tree s));;
  for_each unlink found.
Definition temporary_patterns : list pattern := [Around "" ".tmp"; Around "." ".tmp"].

(** What a reader of a source does when it is asked for its candidates: it ends, raises, or delivers
    one and goes on. *)
Inductive Reader (candidate : Type) := Exhausted | Raising (e : exn) | Delivering (c : candidate) (rest : Reader candidate).
Arguments Exhausted {candidate}.
Arguments Raising {candidate} e.
Arguments Delivering {candidate} c rest.

Section Checkpoints.
Context {RT : Runtime} {FF : FileFormats} {PQ : Parquet}.
Variable temporary_middle : gmap path node -> path -> str.

(** [json_loads(path.read_text(...))], where any failure to read or decode means no document. *)
Definition read_document (p : path) : PyM FsState pyval :=
  try_except (reading (read_json p)) (fun e =>
    if isinstance e COSError || isinstance e CValueError || isinstance e CTypeError then Some (ret VNone) else None).

Definition atomic_write_table (target : path) (rows : list pydict) (schema : table_schema) : PyM FsState unit :=
  atomic_replacement temporary_middle target (fun temporary =>
    b <- lift (encode_table schema (project_row schema.*1 <$> rows));;
    write_file temporary (CBytes b)).

(** * Extraction *)

Definition extraction_directory (root source : path) : path :=
  root ++ [u "extraction"; removesuffix (u ".osm.pbf") (path_name source)].
Definition extraction_identity (source : path) (f : FileStatFingerprint) (limit : option Z) : pydict :=
  [(u "contract_version", VStr CHECKPOINT_CONTRACT_VERSION);
   (u "source", VDict (checkpoint_fingerprint f (path_name source)));
   (u "limit", match limit with Some n => VInt n | None => VNone end)].

(** The object: its metadata and the number of its next chunk. *)
Record Extraction := mkExtraction { x_fs : FsState; x_metadata : pydict; x_next_chunk : Z }.
Definition with_fs (fs : FsState) (x : Extraction) : Extraction := mkExtraction fs (x_metadata x) (x_next_chunk x).
Definition with_metadata (m : pydict) (x : Extraction) : Extraction := mkExtraction (x_fs x) m (x_next_chunk x).
Definition with_next_chunk (n : Z) (x : Extraction) : Extraction := mkExtraction (x_fs x) (x_metadata x) n.
Definition on_fs {A} (m : PyM FsState A) : PyM Extraction A := fun x =>
  let '(o, fs) := m (x_fs x) in (o, with_fs fs x).

Section Extraction.
Variable directory : path.
Variable identity : pydict.
Definition extraction_metadata : path := child directory (u "metadata.json").

Definition fresh_metadata : pydict :=
  [(u "identity", VDict identity); (u "complete", VBool false); (u "next_chunk", VInt 0); (u "chunk_count", VInt 0); (u "row_count", VInt 0)].

Definition clear_files : PyM FsState unit :=
  remove_matching directory [Around "chunk-" ".parquet"];;
  remove_matching directory temporary_patterns.

Definition prepare_extraction : PyM FsState pydict :=
  raw <- read_document extraction_metadata;;
  match (match raw with VDict d => if py_eqb (dget_none (u "identity") d) (VDict identity) then Some d else None | _ => None end) with
  | Some d => ret d
  | None =>
      clear_files;;
      atomic_write_json temporary_middle extraction_metadata (VDict fresh_metadata);;
      ret fresh_metadata
  end.

Definition chunk_files (t : gmap path node) : list path := glob_pattern directory (Around "chunk-" ".parquet") t.
Definition chunk_index (p : path) : outcome Z := py_int (VStr (removeprefix (u "chunk-") (stem_of_name (path_name p)))).
Definition chunk_file (n : Z) : path := child directory (u "chunk-" ++ zero_pad 8 n ++ u ".parquet").

(** [max(indices, default=-1) + 1]. *)
Definition next_chunk_after (indices : list Z) : Z :=
  match indices with [] => 0 | i :: rest => foldl Z.max i rest + 1 end.

(** [ExtractionCheckpoint(...)] after its identity was taken. *)
Definition open_extraction : PyM FsState (pydict * Z) :=
  mkdir directory;;
  metadata <- prepare_extraction;;
  indices <- reads (fun t => mapM chunk_index (chunk_files t));;
  ret (metadata, next_chunk_after indices).

Definition complete (metadata : pydict) : bool := py_truthy (default (VBool false) (dget (u "complete") metadata)).

Definition read_chunk (schema : table_schema) (t : gmap path node) (p : path) : outcome (list pydict) :=
  '(s, rows) ← read_table p t;
  _ ← raise_if (negb (bool_decide ((s : table_schema) = schema))) (exc CValueError [FStr (u "Invalid extraction checkpoint schema: " ++ path_str p)]);
  mret (rows : list pydict).
Definition read_extraction_rows (chunks : list path) (schema : table_schema) (t : gmap path node) : outcome (list pydict) :=
  indices ← mapM chunk_index chunks;
  _ ← raise_if (negb (bool_decide (indices = Z.of_nat <$> seq 0 (length indices)))) (exc CValueError (msg "Extraction checkpoint chunks are not contiguous"));
  rows ← mapM (read_chunk schema t) chunks;
  mret (mjoin rows).

Definition extraction_accounting_matches (metadata : pydict) (chunks : list path) (rows : list pydict) : bool :=
  match as_int (dget_none (u "chunk_count") metadata), as_int (dget_none (u "row_count") metadata) with
  | Some c, Some r => (c =? len chunks) && (r =? len rows)
  | _, _ => false
  end.
Definition validate_complete_extraction_accounting (metadata : pydict) (chunks : list path) (rows : list pydict) : outcome unit :=
  raise_if (complete metadata && negb (extraction_accounting_matches metadata chunks rows))
    (exc CValueError (msg "Complete extraction checkpoint accounting is invalid")).

Definition ArrowException : exn_class := CUser (u "ArrowException") CException.
Definition unreadable (e : exn) : bool := isinstance e COSError || isinstance e CValueError || isinstance e ArrowException.

Abbreviation X := (PyM Extraction).
Definition save_metadata (metadata : pydict) : X unit :=
  modify (with_metadata metadata);;
  on_fs (atomic_write_json temporary_middle extraction_metadata (VDict metadata)).

(** The rows are given up and the extraction starts again. *)
Definition start_over : X (option (list pydict)) :=
  on_fs clear_files;;
  modify (with_metadata fresh_metadata);;
  modify (with_next_chunk 0);;
  on_fs (atomic_write_json temporary_middle extraction_metadata (VDict fresh_metadata));;
  ret None.

Definition load_rows : X (list pydict) :=
  chunks <- gets (fun x => chunk_files (tree (x_fs x)));;
  metadata <- gets x_metadata;;
  loaded <- try_except
    (rows <- on_fs (reading (read_extraction_rows chunks polygon_v2_schema));;
     lift (validate_complete_extraction_accounting metadata chunks rows);;
     ret (Some rows))
    (fun e => if unreadable e then Some start_over else None);;
  match loaded with
  | None => ret []
  | Some rows =>
      (if complete metadata then ret tt
       else save_metadata (dupdate metadata [(u "next_chunk", VInt (len chunks)); (u "chunk_count", VInt (len chunks)); (u "row_count", VInt (len (rows : list pydict)))]));;
      ret rows
  end.

Definition append (rows : list pydict) : X unit :=
  if bool_decide (rows = []) then ret tt
  else
    next_chunk <- gets x_next_chunk;;
    on_fs (atomic_write_table (chunk_file next_chunk) rows polygon_v2_schema);;
    modify (with_next_chunk (next_chunk + 1));;
    metadata <- gets x_metadata;;
    let previous_rows := default 0 (as_int (default (VInt 0) (dget (u "row_count") metadata))) in
    save_metadata (dupdate metadata
      [(u "complete", VBool false); (u "next_chunk", VInt (next_chunk + 1)); (u "chunk_count", VInt (next_chunk + 1)); (u "row_count", VInt (previous_rows + len rows))]).

Definition mark_complete : X unit :=
  chunks <- gets (fun x => chunk_files (tree (x_fs x)));;
  metadata <- gets x_metadata;;
  save_metadata (dupdate metadata [(u "complete", VBool true); (u "chunk_count", VInt (len chunks))]).

Definition clear_extraction : PyM FsState unit :=
  clear_files;;
  unlink extraction_metadata;;
  suppress_os_error (rmdir directory);;
  suppress_os_error (rmdir (path_parent directory)).
End Extraction.

(** * The scan of a source *)

Section Scan.
Context {candidate : Type}.
(** [candidate_to_v2_row] for this source, and the settings of the extraction. *)
Variable to_row : candidate -> outcome (option pydict).
Variable limit : option Z.
Variable checkpointed : bool.
Variable directory : path.
Variable identity : pydict.
Variable checkpoint_every : Z.

Record Scan := mkScan { sc_checkpoint : Extraction; sc_rows : list pydict; sc_seen : gset str; sc_pending : list pydict }.
Definition on_checkpoint {A} (m : PyM Extraction A) : PyM Scan A := fun s =>
  let '(o, x) := m (sc_checkpoint s) in (o, mkScan x (sc_rows s) (sc_seen s) (sc_pending s)).
Definition with_rows (rows : list pydict) (seen : gset str) (s : Scan) : Scan := mkScan (sc_checkpoint s) rows seen (sc_pending s).
Definition with_pending (pending : list pydict) (s : Scan) : Scan := mkScan (sc_checkpoint s) (sc_rows s) (sc_seen s) pending.
Definition keep_row (row : pydict) (key : str) (s : Scan) : Scan :=
  mkScan (sc_checkpoint s) (sc_rows s ++ [row]) ({[key]} ∪ sc_seen s) (sc_pending s ++ [row]).

Definition limit_reached (row_count : Z) : bool := match limit with Some n => n <=? row_count | None => false end.

Definition flush_checkpoint : PyM Scan unit :=
  pending <- gets sc_pending;;
  if checkpointed then on_checkpoint (append directory pending) else ret tt.
Definition finish_checkpoint : PyM Scan unit :=
  pending <- gets sc_pending;;
  if checkpointed then (on_checkpoint (append directory pending);; on_checkpoint (mark_complete directory)) else ret tt.

Definition checkpoint_if_due : PyM Scan unit :=
  pending <- gets sc_pending;;
  if negb checkpointed || (len pending <? Z.max 1 checkpoint_every) then ret tt
  else
    on_checkpoint (append directory pending);;
    modify (with_pending []).

Definition append_extraction_row (c : candidate) : PyM Scan unit :=
  rows <- gets sc_rows;;
  if limit_reached (len rows) then ret tt
  else
    row <- lift (to_row c);;
    match row with
    | None => ret tt
    | Some row =>
        id <- lift (getitem_of "polygon_id" row);;
        seen <- gets sc_seen;;
        if bool_decide (py_str id ∈ seen) then ret tt
        else
          modify (keep_row row (py_str id));;
          checkpoint_if_due
    end.

(** The reader hands its candidates to [add] one after the other; it may raise after any of them. *)
Fixpoint consume_candidates (reader : Reader candidate) : PyM Scan unit :=
  match reader with
  | Exhausted => ret tt
  | Raising e => throw e
  | Delivering c rest => append_extraction_row c;; consume_candidates rest
  end.

Definition scan_source (reader : Reader candidate) : PyM Scan (list pydict) :=
  rows <- (if checkpointed then on_checkpoint (load_rows directory identity) else ret []);;
  modify (with_rows rows (list_to_set (text_or "polygon_id" <$> rows)));;
  metadata <- gets (fun s => x_metadata (sc_checkpoint s));;
  if checkpointed && complete metadata then ret rows
  else
    on_error (consume_candidates reader) flush_checkpoint;;
    finish_checkpoint;;
    gets sc_rows.

(** The rows that [extract_v2_pbf] returns, and the files it leaves. *)
Definition extract_v2_pbf (reader : Reader candidate) : PyM FsState (list pydict) := fun fs =>
  let run metadata next fs := let '(o, s) := scan_source reader (mkScan (mkExtraction fs metadata next) [] ∅ []) in (o, x_fs (sc_checkpoint s)) in
  if checkpointed then
    match open_extraction directory identity fs with
    | (Ok (metadata, next), fs') => run metadata next fs'
    | (Raise e, fs') => (Raise e, fs')
    end
  else run [] 0 fs.
End Scan.

(** * Fetches of a region *)

(** [WikipediaTagRef], [DirectWikipediaStatus] and [DirectEnrichmentResult]. *)
Record WikipediaTagRef := { tr_language : str; tr_title : str; tr_raw_key : str; tr_raw_value : str }.
Record DirectWikipediaStatus := { ds_ref : WikipediaTagRef; ds_status : str; ds_error : str; ds_reused_v1 : bool }.
Record DirectEnrichmentResult := {
  dr_documents : list pydict; dr_links : list pydict; dr_statuses : list DirectWikipediaStatus; dr_deferred_errors : list (Z * exn) }.

(** [region_input_fingerprint]. *)
Fixpoint strs_leb (a b : list str) : bool :=
  match a, b with
  | [], _ => true
  | _ :: _, [] => false
  | x :: a, y :: b => if str_eqb x y then strs_leb a b else str_leb x y
  end.
Definition context_fields : list string := ["polygon_id"; "wikipedia_tag_refs"; "wikidata"; "source_pbf"; "region"; "osm_type"; "osm_id"]%string.
Definition context_values (polygons : list pydict) : list (list str) :=
  sort_stable strs_leb ((fun row => (fun field => text_or field row) <$> context_fields) <$> polygons).
Definition dumps_str_lists (values : list (list str)) : str := [91%N] ++ join [44%N] (dumps_strs <$> values) ++ [93%N].
Definition sha256_text (value : str) : outcome str := b ← utf8_encode value; mret (sha256_hexdigest b).
Definition region_input_fingerprint (polygons : list pydict) : outcome str := sha256_text (dumps_str_lists (context_values polygons)).

(** One region's checkpoint: its directory, the fingerprint of its inputs and whether full texts are fetched. *)
Record RegionFetch := mkRegionFetch { f_directory : path; f_fingerprint : option str; f_full_text : bool }.
Definition fetch_directory (root : path) (stem : str) : path := root ++ [u "fetch"; stem].

Section Fetch.
Variable region : RegionFetch.
Definition fetch_metadata : path := child (f_directory region) (u "metadata.json").
Definition direct_root : path := child (f_directory region) (u "direct").
Definition sections_root : path := child (f_directory region) (u "sections").

Definition metadata_payload : pydict :=
  [(u "contract_version", VStr CHECKPOINT_CONTRACT_VERSION); (u "v2_contract_version", VStr V2_CONTRACT_VERSION);
   (u "input_fingerprint", opt_str (f_fingerprint region)); (u "fetch_full_text", VBool (f_full_text region))].

Definition metadata_is_valid (raw : pyval) : bool :=
  match raw with
  | VDict d => py_eqb (dget_none (u "contract_version") d) (VStr CHECKPOINT_CONTRACT_VERSION) &&
               py_eqb (dget_none (u "v2_contract_version") d) (VStr V2_CONTRACT_VERSION) &&
               py_eqb (dget_none (u "fetch_full_text") d) (VBool (f_full_text region))
  | _ => false
  end.
Definition fingerprint_changed (d : pydict) : bool :=
  match f_fingerprint region with
  | None => false
  | Some fingerprint => negb (py_eqb (dget_none (u "input_fingerprint") d) (VStr fingerprint))
  end.
Definition needs_reset (raw : pyval) : bool :=
  negb (metadata_is_valid raw) || match raw with VDict d => fingerprint_changed d | _ => false end.

Definition fetch_patterns : list pattern := [Around "" ".json"; Around "" ".tmp"; Around "." ".tmp"].
Definition clear_fetch_directory (p : path) : PyM FsState unit :=
  there <- gets (fun s => path_exists p (tree s));;
  if negb there then ret tt
  else
    remove_matching p fetch_patterns;;
    suppress_os_error (rmdir p).
Definition clear_fetch : PyM FsState unit :=
  for_each clear_fetch_directory [direct_root; sections_root];;
  remove_matching (f_directory region) temporary_patterns;;
  unlink fetch_metadata;;
  suppress_os_error (rmdir (f_directory region));;
  suppress_os_error (rmdir (path_parent (f_directory region))).

(** The parents of the two inner directories exist when they are made. *)
Definition make_fetch_directories : PyM FsState unit :=
  mkdir (f_directory region);;
  mkdir direct_root;;
  mkdir sections_root.
Definition reset_metadata : PyM FsState unit :=
  clear_fetch;;
  make_fetch_directories;;
  atomic_write_json temporary_middle fetch_metadata (VDict metadata_payload).

(** [RegionFetchCheckpoint(...)]. *)
Definition open_fetch : PyM FsState unit :=
  make_fetch_directories;;
  raw <- read_document fetch_metadata;;
  if needs_reset raw then reset_metadata else ret tt.

Definition has_work (t : gmap path node) : bool :=
  negb (bool_decide (glob_pattern direct_root (Around "" ".json") t = [])) || negb (bool_decide (glob_pattern sections_root (Around "" ".json") t = [])).

Definition key_of (value : str) : outcome str := sha256_text value.
Definition document_file (directory : path) (key : str) : path := child directory (key ++ u ".json").

Definition ref_payload (r : WikipediaTagRef) : pydict :=
  [(u "language", VStr (tr_language r)); (u "title", VStr (tr_title r)); (u "raw_key", VStr (tr_raw_key r)); (u "raw_value", VStr (tr_raw_value r))].
Definition expected_direct_refs (refs : list WikipediaTagRef) : list pyval := (VDict ∘ ref_payload) <$> refs.
Definition status_payload (s : DirectWikipediaStatus) : pydict :=
  [(u "ref", VDict (ref_payload (ds_ref s))); (u "status", VStr (ds_status s)); (u "error", VStr (ds_error s)); (u "reused_v1", VBool (ds_reused_v1 s))].
Definition direct_payload (polygon_id : str) (refs : list WikipediaTagRef) (r : DirectEnrichmentResult) : pydict :=
  [(u "polygon_id", VStr polygon_id); (u "refs", VList (expected_direct_refs refs)); (u "documents", VList (VDict <$> dr_documents r));
   (u "links", VList (VDict <$> dr_links r)); (u "statuses", VList ((VDict ∘ status_payload) <$> dr_statuses r))].

(** A result with deferred errors is not kept. *)
Definition save_direct (polygon_id : str) (refs : list WikipediaTagRef) (r : DirectEnrichmentResult) : PyM FsState unit :=
  if negb (bool_decide (length (dr_deferred_errors r) = 0%nat)) then ret tt
  else
    key <- lift (key_of polygon_id);;
    atomic_write_json temporary_middle (document_file direct_root key) (VDict (direct_payload polygon_id refs r)).

Definition direct_payload_matches (payload : pyval) (polygon_id : str) (expected_refs : list pyval) : bool :=
  match payload with
  | VDict d => py_eqb (dget_none (u "polygon_id") d) (VStr polygon_id) && py_eqb (dget_none (u "refs") d) (VList expected_refs)
  | _ => false
  end.
Definition direct_status (raw : pyval) (ref : WikipediaTagRef) : option DirectWikipediaStatus :=
  match raw with
  | VDict d => Some {| ds_ref := ref; ds_status := text_or "status" d; ds_error := text_or "error" d;
                       ds_reused_v1 := py_truthy (default (VBool false) (dget (u "reused_v1") d)) |}
  | _ => None
  end.
Fixpoint decode_direct_statuses (raws : list pyval) (refs : list WikipediaTagRef) : option (list DirectWikipediaStatus) :=
  match raws, refs with
  | [], [] => Some []
  | raw :: raws, ref :: refs => status ← direct_status raw ref; statuses ← decode_direct_statuses raws refs; Some (status :: statuses)
  | _, _ => None
  end.
Definition load_direct_statuses (payload : pyval) (refs : list WikipediaTagRef) : option (list DirectWikipediaStatus) :=
  match payload with
  | VDict d => match dget_none (u "statuses") d with VList raws => decode_direct_statuses raws refs | _ => None end
  | _ => None
  end.
Definition direct_rows (value : pyval) : option (list pydict) :=
  match value with VList l => mapM (fun v => match v with VDict d => Some d | _ => None end) l | _ => None end.
Definition load_direct_rows (payload : pyval) : option (list pydict * list pydict) :=
  match payload with
  | VDict d => documents ← direct_rows (default (VList []) (dget (u "documents") d));
               links ← direct_rows (default (VList []) (dget (u "links") d)); Some (documents, links)
  | _ => None
  end.
Definition decode_direct (payload : pyval) (polygon_id : str) (refs : list WikipediaTagRef) : option DirectEnrichmentResult :=
  if negb (direct_payload_matches payload polygon_id (expected_direct_refs refs)) then None
  else
    statuses ← load_direct_statuses payload refs;
    '(documents, links) ← load_direct_rows payload;
    Some {| dr_documents := documents; dr_links := links; dr_statuses := statuses; dr_deferred_errors := [] |}.

Definition load_direct (polygon_id : str) (refs : list WikipediaTagRef) : PyM FsState (option DirectEnrichmentResult) :=
  key <- lift (key_of polygon_id);;
  payload <- read_document (document_file direct_root key);;
  ret (decode_direct payload polygon_id refs).

(** ** Sections *)

Definition save_sections (document_id : str) (rows : list pydict) : PyM FsState unit :=
  if existsb (fun row => negb (str_eqb (text_or "document_id" row) document_id)) rows
  then throw (exc CValueError [FStr (u "Section checkpoint rows do not match document "); FRepr (VStr document_id)])
  else
    key <- lift (key_of document_id);;
    atomic_write_json temporary_middle (document_file sections_root key) (VDict [(u "document_id", VStr document_id); (u "rows", VList (VDict <$> rows))]).

Definition section_payload_parts (payload : pyval) : option (str * list pyval) :=
  match payload with
  | VDict d => match dget_none (u "document_id") d, dget_none (u "rows") d with
               | VStr (c :: id), VList rows => Some (c :: id, rows)
               | _, _ => None
               end
  | _ => None
  end.
Definition section_rows_match_document (rows : list pyval) (document_id : str) : option (list pydict) :=
  mapM (fun v => match v with VDict row => if str_eqb (text_or "document_id" row) document_id then Some row else None | _ => None end) rows.
Definition parse_section_payload (payload : pyval) : option (str * list pydict) :=
  '(document_id, rows) ← section_payload_parts payload;
  rows ← section_rows_match_document rows document_id;
  Some (document_id, rows).

Fixpoint load_section_files (files : list path) : PyM FsState (list pydict * gset str) :=
  match files with
  | [] => ret ([], ∅)
  | p :: rest =>
      payload <- read_document p;;
      others <- load_section_files rest;;
      match parse_section_payload payload with
      | Some (document_id, rows) => ret (rows ++ others.1, {[document_id]} ∪ others.2)
      | None => ret others
      end
  end.
Definition load_section_state : PyM FsState (list pydict * gset str) :=
  files <- gets (fun s => glob_pattern sections_root (Around "" ".json") (tree s));;
  load_section_files files.
Definition load_sections : PyM FsState (list pydict) := loaded <- load_section_state;; ret loaded.1.
Definition section_document_ids : PyM FsState (gset str) := loaded <- load_section_state;; ret loaded.2.
End Fetch.

(** [open_fetch_checkpoint] ([v2/reuse_load.py]). *)
Definition open_fetch_checkpoint (checkpoint_dir : path) (stem : str) (polygons : list pydict) (fetch_full_text : bool) : PyM FsState RegionFetch :=
  fingerprint <- lift (region_input_fingerprint polygons);;
  let region := mkRegionFetch (fetch_directory checkpoint_dir stem) (Some fingerprint) fetch_full_text in
  open_fetch region;;
  ret region.

(** * Removing both checkpoints of a region *)

Definition clear_checkpoint_directory (p : path) (patterns : list pattern) : PyM FsState unit :=
  for_each (fun what => remove_matching p [what]) patterns;;
  suppress_os_error (rmdir p).
Definition clear_v2_checkpoints (root : path) (stem : str) : PyM FsState unit :=
  let extraction_root := root ++ [u "extraction"; stem] in
  let fetch_root := fetch_directory root stem in
  clear_checkpoint_directory extraction_root [Around "chunk-" ".parquet"; Around "" ".tmp"; Around "." ".tmp"; Named "metadata.json"];;
  suppress_os_error (rmdir (path_parent extraction_root));;
  for_each (fun p => clear_checkpoint_directory p fetch_patterns) [child fetch_root (u "direct"); child fetch_root (u "sections")];;
  clear_checkpoint_directory fetch_root [Around "" ".tmp"; Around "." ".tmp"; Named "metadata.json"];;
  suppress_os_error (rmdir (path_parent fetch_root)).
End Checkpoints.
