(* ===== verification/CheckpointProofs.v ===== *)
(** An extraction that is interrupted any number of times ends with the polygons of an uninterrupted
    one: what the chunks on disk always hold, whatever primitive fails. *)
From stdpp Require Import gmap sorting.
From S2P Require Import Prelude Py PyStr PyText Decimal Fs Keeps Calm Artifacts Paths Atomic LinkTransaction PolygonLinks RecoveryMerge Tables Integrity Checkpoints.

(** * First occurrences *)

Fixpoint firsts (seen : gset str) (l : list str) : list str :=
  match l with
  | [] => []
  | x :: l => if bool_decide (x ∈ seen) then firsts seen l else x :: firsts ({[x]} ∪ seen) l
  end.

Lemma elem_of_firsts seen l x : x ∈ firsts seen l <-> x ∈ l /\ x ∉ seen.
Proof.
  revert seen. induction l as [|y l IH]; intros seen; simpl; [split; [by intros ?%elem_of_nil|by intros [?%elem_of_nil _]]|].
  case_bool_decide as Hy.
  - rewrite IH, elem_of_cons. split; [tauto|]. intros [[->|?] ?]; [done|tauto].
  - rewrite elem_of_cons, IH, elem_of_cons, elem_of_union, elem_of_singleton. destruct (decide (x = y)) as [->|]; naive_solver.
Qed.

Lemma firsts_app seen a b : firsts seen (a ++ b) = firsts seen a ++ firsts (list_to_set a ∪ seen) b.
Proof.
  revert seen. induction a as [|x a IH]; intros seen; simpl; [f_equal; set_solver|]. case_bool_decide as Hx.
  - rewrite IH. do 2 f_equal. set_solver.
  - rewrite IH. simpl. do 3 f_equal. set_solver.
Qed.

Lemma firsts_NoDup seen l : NoDup (firsts seen l).
Proof.
  revert seen. induction l as [|x l IH]; intros seen; simpl; [constructor|]. case_bool_decide; [done|]. constructor; [|done].
  rewrite elem_of_firsts. set_solver.
Qed.

Lemma firsts_nothing seen l : (forall x, x ∈ l -> x ∈ seen) -> firsts seen l = [].
Proof. induction l as [|x l IH]; intros H; simpl; [done|]. rewrite bool_decide_eq_true_2 by set_solver. apply IH. set_solver. Qed.

Lemma firsts_snoc l x : firsts ∅ (l ++ [x]) = firsts ∅ l ++ (if decide (x ∈ l) then [] else [x]).
Proof.
  rewrite firsts_app. f_equal. simpl. destruct (decide (x ∈ l)); [rewrite bool_decide_eq_true_2 by set_solver|rewrite bool_decide_eq_false_2 by set_solver]; done.
Qed.

(** Repeating the end adds nothing. *)
Lemma firsts_repeat a b : firsts ∅ (a ++ b ++ b) = firsts ∅ (a ++ b).
Proof. rewrite app_assoc, (firsts_app ∅ (a ++ b)). rewrite (firsts_nothing _ b); [by rewrite app_nil_r|]. set_solver. Qed.

Lemma firsts_prefix a b : firsts ∅ a `prefix_of` firsts ∅ (a ++ b).
Proof. rewrite firsts_app. by eexists. Qed.

(** A list whose first occurrences begin [wanted], seen up to a point, is continued by the next value. *)
Lemma firsts_step (wanted have done_ : list str) (x : str) (n : nat) :
  firsts ∅ have = take n wanted -> firsts ∅ done_ `prefix_of` take n wanted -> firsts ∅ (done_ ++ [x]) `prefix_of` wanted -> NoDup wanted ->
  (forall y, y ∈ done_ -> y ∈ have) ->
  if decide (x ∈ have) then firsts ∅ (done_ ++ [x]) `prefix_of` take n wanted
  else firsts ∅ (have ++ [x]) = take (S n) wanted /\ firsts ∅ (done_ ++ [x]) `prefix_of` take (S n) wanted.
Proof.
  intros Hn [r Hr] [w Hw] Hnd Hsub. rewrite firsts_snoc in Hw. rewrite !firsts_snoc. destruct (decide (x ∈ have)) as [Hx|Hx].
  - destruct (decide (x ∈ done_)) as [Hd|Hd]; [rewrite app_nil_r; by exists r|].
    assert (Hin : x ∈ take n wanted) by (rewrite <- Hn, elem_of_firsts; set_solver). rewrite Hr in Hin. apply elem_of_app in Hin as [Hin|Hin].
    { rewrite elem_of_firsts in Hin. tauto. }
    assert (Hpre : take n wanted = firsts ∅ done_ ++ take (n - length (firsts ∅ done_)) ([x] ++ w)).
    { rewrite Hw, <- app_assoc at 1. apply take_app_ge. apply (f_equal length) in Hr. rewrite length_take, length_app in Hr. lia. }
    rewrite Hpre. destruct (n - length (firsts ∅ done_))%nat as [|k] eqn:E; [|exists (take k w); by rewrite <- app_assoc].
    simpl in Hpre. rewrite app_nil_r in Hpre. rewrite Hpre in Hr. apply (f_equal length) in Hr. rewrite length_app in Hr. destruct r; [by apply elem_of_nil in Hin|simpl in Hr; lia].
  - rewrite decide_False in Hw |- * by set_solver.
    assert (Hlen : length (firsts ∅ done_) = length (take n wanted)).
    { destruct r as [|y r]; [rewrite app_nil_r in Hr; by rewrite Hr|]. exfalso. apply Hx.
      assert (Hl : wanted !! length (firsts ∅ done_) = Some x) by (rewrite Hw, <- app_assoc; by apply list_lookup_middle).
      assert (Hl2 : take n wanted !! length (firsts ∅ done_) = Some y) by (rewrite Hr; by apply list_lookup_middle).
      apply lookup_take_Some in Hl2 as [Hl2 _]. assert (x = y) as -> by congruence.
      assert (Hy : y ∈ take n wanted) by (rewrite Hr; set_solver). rewrite <- Hn, elem_of_firsts in Hy. tauto. }
    assert (Hsame : firsts ∅ done_ = take n wanted).
    { rewrite Hr in Hlen. rewrite length_app in Hlen. destruct r; [by rewrite app_nil_r in Hr|simpl in Hlen; lia]. }
    assert (Hnext : take n wanted ++ [x] = take (S n) wanted).
    { assert (Hw' : wanted = take n wanted ++ [x] ++ w) by (rewrite Hw at 1; by rewrite Hsame, <- app_assoc).
      rewrite Hw' at 2. rewrite take_app_ge by (rewrite length_take; lia).
      assert (Hle : (length (take n wanted) = n)%nat).
      { rewrite length_take. apply (f_equal length) in Hw. rewrite !length_app, Hsame, length_take in Hw. simpl in Hw. lia. }
      rewrite Hle. replace (S n - n)%nat with 1%nat by lia. done. }
    rewrite Hn, Hsame, Hnext. done.
Qed.

(** * Files *)

Lemma elem_of_glob p what t q : q ∈ glob_pattern p what t <-> exists name, q = child p name /\ matches what name = true /\ t !! q ≠ None.
Proof.
  unfold glob_pattern. rewrite list_elem_of_fmap. split.
  - intros (name & -> & Hq). rewrite elem_of_sorted_strs in Hq. apply list_elem_of_omap in Hq as ([x n] & Hin & Hx). simpl in Hx.
    destruct (relative_to x p) as [[|name' []]|] eqn:E; [done| |done|done]. apply relative_to_spec in E. subst. destruct (matches what name') eqn:Em; [|done].
    injection Hx as <-. apply elem_of_map_to_list in Hin. exists name'. split_and!; [done|done|]. unfold child. by rewrite Hin.
  - intros (name & -> & Hm & Hn). exists name. split; [done|]. rewrite elem_of_sorted_strs. destruct (t !! child p name) as [n|] eqn:E; [|done].
    apply list_elem_of_omap. exists (child p name, n). split; [by apply elem_of_map_to_list|]. simpl. unfold child. by rewrite relative_to_app, Hm.
Qed.

Lemma unlinks_subset l s o s' : for_each unlink l s = (o, s') -> forall q, tree s' !! q = tree s !! q \/ tree s' !! q = None /\ q ∈ l.
Proof.
  revert s. induction l as [|p l IH]; intros s; cbn [for_each]; [unfold ret; intros [= _ <-] q; by left|].
  unfold pbind. destruct (unlink p s) as [o1 s1] eqn:E.
  assert (H1 : forall q, tree s1 !! q = tree s !! q \/ tree s1 !! q = None /\ q = p).
  { intros q. apply primitive_cases in E as [(e & _ & ->)|E]; [by left|]. unfold unlink_tree in E.
    destruct (decide (q = p)) as [->|Hne]; [|left; destruct (tree s !! p) as [[c|]|]; injection E as _ <-; by rewrite ?lookup_delete_ne].
    destruct (tree s !! p) as [[c|]|] eqn:Ep; injection E as _ <-; [right; by rewrite lookup_delete_eq|by left|left; by rewrite lookup_delete_eq]. }
  destruct o1 as [[]|e].
  - intros H q. destruct (IH _ H q) as [Hq|[Hq Hin]]; [|right; split; [done|by right]]. rewrite Hq.
    destruct (H1 q) as [?|[? ->]]; [by left|right; split; [done|by left]].
  - intros [= _ <-] q. destruct (H1 q) as [?|[? ->]]; [by left|right; split; [done|by left]].
Qed.

Lemma remove_matching_subset p patterns s o s' :
  remove_matching p patterns s = (o, s') ->
  (forall q, tree s' !! q = tree s !! q \/ tree s' !! q = None /\ exists what, what ∈ patterns /\ q ∈ glob_pattern p what (tree s)) /\
  (o = Ok tt -> forall what q, what ∈ patterns -> q ∈ glob_pattern p what (tree s') -> False).
Proof.
  unfold remove_matching, pbind at 1, gets. intros E. split.
  - intros q. destruct (unlinks_subset _ _ _ _ E q) as [?|[Hq Hin]]; [by left|right]. split; [done|]. apply list_elem_of_bind in Hin as (what & ? & ?). by exists what.
  - intros -> what q Hw Hq. apply elem_of_glob in Hq as (name & -> & Hm & Hn). pose proof (unlinks_ok _ _ _ E (child p name)) as Hu.
    case_decide as Hd; [congruence|]. apply Hd, list_elem_of_bind. exists what. split; [|done]. apply elem_of_glob. exists name. split_and!; [done|done|congruence].
Qed.

Lemma remove_matching_calm p patterns s :
  calm s -> (forall name, tree s !! child p name ≠ Some Dir) -> exists s', remove_matching p patterns s = (Ok tt, s') /\ calm s'.
Proof.
  intros Hc Hd. unfold remove_matching, pbind at 1, gets.
  destruct (unlinks_calm (patterns ≫= fun what => glob_pattern p what (tree s)) s Hc) as (s' & E & Hc' & _); [|by exists s'].
  apply Forall_forall. intros q (what & Hq & _)%list_elem_of_bind. apply elem_of_glob in Hq as (name & -> & _). apply Hd.
Qed.

(** A read changes nothing. *)
Lemma reading_cases {A} (f : gmap path node -> outcome A) s o s' :
  reading f s = (o, s') -> tree s' = tree s /\ (o = f (tree s) \/ exists e, o = Raise e) /\ (calm s -> calm s' /\ o = f (tree s)).
Proof.
  unfold reading. intros E. split_and!.
  - apply primitive_cases in E as [(e & _ & ->)|E]; [done|]. by injection E.
  - apply primitive_cases in E as [(e & -> & _)|E]; [right; eauto|left]. by injection E.
  - intros Hc. destruct (primitive_calm (fun t => (f t, t)) s Hc) as (s1 & E1 & _ & Hc1). rewrite E in E1. by injection E1 as -> ->.
Qed.

Lemma read_document_cases `{Runtime} `{FileFormats} p s o s' :
  read_document p s = (o, s') -> tree s' = tree s /\ (forall v, o = Ok v -> v = VNone \/ read_json p (tree s) = Ok v) /\
    (calm s -> calm s' /\ match read_json p (tree s) with Ok v => o = Ok v | Raise _ => True end).
Proof.
  unfold read_document, try_except. destruct (reading (read_json p) s) as [o1 s1] eqn:E. apply reading_cases in E as (Ht & Ho & Hc).
  destruct o1 as [v|e].
  - intros [= <- <-]. split_and!; [done| |].
    + intros v' [= <-]. right. destruct Ho as [<-|[e ?]]; done.
    + intros Hcalm. destruct (Hc Hcalm) as [? <-]. done.
  - destruct (_ || _).
    + unfold ret. intros [= <- <-]. split_and!; [done| |].
      * intros v [= <-]. by left.
      * intros Hcalm. destruct (Hc Hcalm) as [? <-]. done.
    + intros [= <- <-]. split_and!; [done|done|]. intros Hcalm. destruct (Hc Hcalm) as [? <-]. done.
Qed.

(** * Readers *)

(** A reader of a source with these candidates: it delivers them in order, and it ends only when it
    has delivered them all; it may raise after any of them. *)
Inductive reads_source {candidate} : Reader candidate -> list candidate -> Prop :=
  | reads_end : reads_source Exhausted []
  | reads_raise e rest : reads_source (Raising e) rest
  | reads_next c reader rest : reads_source reader rest -> reads_source (Delivering c reader) (c :: rest).

(** The reader that delivers everything. *)
Definition reader_of {candidate} (candidates : list candidate) : Reader candidate := foldr Delivering Exhausted candidates.

Lemma reader_of_reads {candidate} (candidates : list candidate) : reads_source (reader_of candidates) candidates.
Proof. induction candidates; by constructor. Qed.

Section Extraction.
Context {RT : Runtime} {FF : FileFormats} {PQ : Parquet} {PL : ParquetLaws}.
Context (temporary_middle : gmap path node -> path -> str).
Hypothesis temporary_fresh : forall t p, t !! temporary_name temporary_middle p t = None.
Context (directory : path) (identity : pydict).
Hypothesis identity_equal : py_eqb (VDict identity) (VDict identity) = true.
(** Rows that can be stored and the identifiers the source has, in order. *)
Context (good : pydict -> Prop) (wanted : list str).
Hypothesis good_fits : forall r, good r -> fits polygon_v2_schema r.

Let metadata_file := extraction_metadata directory.
Definition ids (rows : list pydict) : list str := text_or "polygon_id" <$> rows.
Definition row_total (batches : list (list pydict)) : Z := len (mjoin batches : list pydict).

Lemma chunk_index_file n : 0 <= n -> chunk_index (chunk_file directory n) = Ok n.
Proof.
  intros Hn. unfold chunk_index, chunk_file. rewrite path_name_child, app_assoc, last_dot_stem by done. unfold removeprefix. rewrite strip_prefix_app.
  simpl. destruct (zero_pad_digits 8 n Hn) as [Hd Hne]. by rewrite (int_of_str_digits n).
Qed.

Lemma chunk_file_inj m n : 0 <= m -> 0 <= n -> chunk_file directory m = chunk_file directory n -> m = n.
Proof. intros Hm Hn H. apply (f_equal chunk_index) in H. rewrite !chunk_index_file in H by done. congruence. Qed.

(** A document on disk that passes for this extraction's metadata. *)
Definition metadata_at (t : gmap path node) (m : pydict) : Prop :=
  read_json metadata_file t = Ok (VDict m) /\ py_eqb (dget_none (u "identity") m) (VDict identity) = true.
Definition accounts (m : pydict) (batches : list (list pydict)) : Prop :=
  as_int (dget_none (u "chunk_count") m) = Some (len batches) /\ as_int (dget_none (u "row_count") m) = Some (row_total batches).

(** The failures of reading that count as no document. *)
Definition caught (e : exn) : bool := isinstance e COSError || isinstance e CValueError || isinstance e CTypeError.

(** The chunks on disk are some of the batches, every run of first batches has identifiers the
    source starts with, and metadata that says complete accounts for all of them. *)
Record stored (t : gmap path node) (batches : list (list pydict)) : Prop := {
  st_chunks : forall q, q ∈ chunk_files directory t -> exists i b bytes, batches !! i = Some b /\ q = chunk_file directory (Z.of_nat i) /\
    encode_table polygon_v2_schema b = Ok bytes /\ t !! q = Some (File (CBytes bytes));
  st_good : Forall (Forall good) batches;
  st_prefix : forall k, firsts ∅ (ids (mjoin (take k batches))) `prefix_of` wanted;
  st_complete : forall m, metadata_at t m -> complete m = true -> accounts m batches /\ firsts ∅ (ids (mjoin batches)) = wanted;
  st_no_directories : forall name, t !! child directory name ≠ Some Dir;
  st_path : forall p c, p ∈ prefixes directory -> t !! p ≠ Some (File c);
  st_readable : forall e, read_json metadata_file t = Raise e -> caught e = true }.

Definition incomplete (t : gmap path node) : Prop := forall m, metadata_at t m -> complete m = false.
Definition directories (t : gmap path node) : Prop := Forall (fun p => t !! p = Some Dir) (prefixes directory).

Lemma metadata_parent : path_parent metadata_file = directory.
Proof. apply path_parent_child. Qed.
Lemma chunk_parent n : path_parent (chunk_file directory n) = directory.
Proof. apply path_parent_child. Qed.
Lemma chunk_not_metadata n : chunk_file directory n ≠ metadata_file.
Proof. unfold chunk_file, metadata_file, extraction_metadata, child. intros H%(inj (app directory)). by injection H. Qed.
Lemma prefixes_nonempty (p : path) : [] ∉ prefixes p.
Proof.
  unfold prefixes. assert (H : forall acc, [] ∉ prefixes_from acc p); [|apply H]. induction p as [|c p IH]; intros acc; simpl; [by apply not_elem_of_nil|].
  rewrite elem_of_cons. intros [H|H]; [by destruct acc|by apply IH in H].
Qed.
Lemma inside_not_prefix name : child directory name ∉ prefixes directory.
Proof. rewrite <- (path_parent_child directory name) at 2. apply not_parent. Qed.

Lemma chunk_files_elem t q : q ∈ chunk_files directory t -> t !! q ≠ None /\ q ≠ metadata_file /\ temporary_like q = false /\ exists name, q = child directory name.
Proof.
  intros (name & -> & Hm & Hn)%elem_of_glob. simpl in Hm. apply andb_true_iff in Hm as [Hm _]. apply andb_true_iff in Hm as [Hp _]. split_and!; [done| | |eauto].
  - unfold metadata_file, extraction_metadata, child. intros H%(inj (app directory)). injection H as ->. done.
  - unfold temporary_like. rewrite path_name_child. unfold startswith in Hp. apply bool_decide_eq_true in Hp as [r Hp%strip_prefix_Some]. by rewrite Hp.
Qed.

Lemma glob_other t t' q : t' !! q = t !! q -> q ∈ chunk_files directory t' -> q ∈ chunk_files directory t.
Proof. intros H (name & -> & Hm & Hn)%elem_of_glob. apply elem_of_glob. exists name. split_and!; [done|done|congruence]. Qed.

(** Removing files other than the metadata. *)
Lemma stored_removed t t' batches :
  stored t batches -> t' !! metadata_file = t !! metadata_file -> (forall q, t' !! q = t !! q \/ t' !! q = None) -> stored t' batches.
Proof.
  intros [H1 H2 H3 H4 H5 H6 H7] Hm Hsub. split; [|done|done| | | |intros e; unfold read_json; rewrite Hm; apply H7].
  - intros q Hq. destruct (chunk_files_elem _ _ Hq) as (Hn & _). destruct (Hsub q) as [E|E]; [|congruence].
    destruct (H1 q) as (i & b & bytes & ? & ? & ? & ?); [by eapply glob_other|]. exists i, b, bytes. split_and!; [done..|congruence].
  - intros m [Hr Hi]. apply H4. split; [|done]. unfold read_json in *. by rewrite <- Hm.
  - intros name. destruct (Hsub (child directory name)) as [->| ->]; [apply H5|done].
  - intros p c Hp. destruct (Hsub p) as [->| ->]; [by apply H6|done].
Qed.

(** Making directories on the way to this one. *)
Lemma stored_grown t t' batches :
  stored t batches -> (forall q n, t !! q = Some n -> t' !! q = Some n) -> (forall q n, t !! q = None -> t' !! q = Some n -> n = Dir /\ q ∈ prefixes directory) ->
  stored t' batches.
Proof.
  intros [H1 H2 H3 H4 H5 H6 H7] Hk Hn. assert (Hchild : forall name, t' !! child directory name = t !! child directory name).
  { intros name. destruct (t !! child directory name) as [n|] eqn:E; [by apply Hk|]. destruct (t' !! child directory name) as [n|] eqn:E'; [|done].
    destruct (Hn _ _ E E') as [_ Hin]. by apply inside_not_prefix in Hin. }
  split; [|done|done| | | |intros e; unfold read_json, metadata_file, extraction_metadata; rewrite Hchild; apply H7].
  - intros q Hq. destruct (chunk_files_elem _ _ Hq) as (_ & _ & _ & name & ->). destruct (H1 (child directory name)) as (i & b & bytes & ? & ? & ? & ?).
    { eapply (glob_other _ t'); [apply Hchild|done]. } exists i, b, bytes. split_and!; [done..|]. by rewrite Hchild.
  - intros m [Hr Hi]. apply H4. split; [|done]. unfold read_json in *. unfold metadata_file, extraction_metadata in *. by rewrite <- Hchild.
  - intros name. by rewrite Hchild.
  - intros p c Hp Hf. destruct (t !! p) as [n|] eqn:E; [|by destruct (Hn _ _ E Hf)]. rewrite (Hk _ _ E) in Hf. injection Hf as ->. by apply (H6 p c).
Qed.

(** What a replacement of one child leaves of the other children. *)
Lemma replaced_children name want s o s' q :
  replaced (child directory name) want s o s' -> q ≠ child directory name -> tree s' !! q = tree s !! q \/
    (exists n, tree s !! q = None /\ tree s' !! q = Some n /\ (n = Dir /\ q ∈ prefixes directory \/ temporary_like q = true)).
Proof.
  intros [_ Ho Hn] Hq. rewrite path_parent_child in Hn. destruct (tree s !! q) as [n|] eqn:E; [left; by apply Ho|]. destruct (tree s' !! q) as [n|] eqn:E'; [|by left].
  right. exists n. split_and!; [done|done|]. destruct (Hn q n Hq E E') as [?|(_ & _ & Hl & _)]; auto.
Qed.

Definition identified (m : pydict) : Prop := py_eqb (dget_none (u "identity") m) (VDict identity) = true.

Lemma directories_kept name want s o s' : replaced (child directory name) want s o s' -> directories (tree s) -> directories (tree s').
Proof.
  intros [_ Ho _] Hd. unfold directories in *. rewrite Forall_forall in Hd |- *. intros p Hin. apply Ho; [|by apply Hd]. intros ->. by apply inside_not_prefix in Hin.
Qed.

Lemma replaced_chunk_files name want s o s' q :
  replaced (child directory name) want s o s' -> q ≠ child directory name -> q ∈ chunk_files directory (tree s') ->
  q ∈ chunk_files directory (tree s) /\ tree s' !! q = tree s !! q.
Proof.
  intros H Hq Hin. destruct (chunk_files_elem _ _ Hin) as (_ & _ & Hl & name' & ->).
  destruct (replaced_children _ _ _ _ _ _ H Hq) as [E|(n & _ & _ & [[_ Hp]|Ht])]; [split; [by eapply glob_other|done]|by apply inside_not_prefix in Hp|congruence].
Qed.

Lemma path_kept name want s o s' :
  replaced (child directory name) want s o s' -> (forall p c, p ∈ prefixes directory -> tree s !! p ≠ Some (File c)) ->
  forall p c, p ∈ prefixes directory -> tree s' !! p ≠ Some (File c).
Proof.
  intros [_ Ho Hn] H p c Hp Hf. assert (Hne : p ≠ child directory name) by (intros ->; by apply inside_not_prefix in Hp).
  destruct (tree s !! p) as [n|] eqn:E; [rewrite (Ho _ _ Hne E) in Hf; injection Hf as ->; by apply (H p c)|].
  destruct (Hn _ _ Hne E Hf) as [[? _]|(_ & _ & _ & Hpar)]; [done|]. rewrite path_parent_child in Hpar.
  destruct (decide (p = [])) as [->|Hp0].
  { by apply prefixes_nonempty in Hp. }
  rewrite (path_eta p Hp0), Hpar in Hp. by apply inside_not_prefix in Hp.
Qed.

Lemma makes_only_atomic target body ds :
  prefixes (path_parent target) ⊆ ds -> (forall temporary, makes_only ds (body temporary)) -> makes_only ds (atomic_replacement temporary_middle target body).
Proof.
  intros Hd Hb. unfold atomic_replacement. apply makes_only_bind; [by apply makes_only_mkdir|]. intros _.
  apply makes_only_bind; [apply makes_only_temporary|]. intros temporary. apply makes_only_on_error; [|apply makes_only_unlink].
  apply makes_only_bind; [apply Hb|]. intros _. apply makes_only_replace.
Qed.

Lemma no_directories_made {A} (m : PyM FsState A) s o s' :
  makes_only (prefixes directory) m -> m s = (o, s') -> (forall n, tree s !! child directory n ≠ Some Dir) -> forall n, tree s' !! child directory n ≠ Some Dir.
Proof. intros Hm E Hd n Hn. destruct (Hm _ _ _ _ E Hn) as [?|Hin]; [by apply (Hd n)|by apply inside_not_prefix in Hin]. Qed.

Lemma makes_only_metadata m : makes_only (prefixes directory) (atomic_write_json temporary_middle metadata_file (VDict m)).
Proof. apply makes_only_atomic; [by rewrite metadata_parent|]. intros. apply makes_only_write. Qed.

Lemma makes_only_chunk n rows : makes_only (prefixes directory) (atomic_write_table temporary_middle (chunk_file directory n) rows polygon_v2_schema).
Proof.
  apply makes_only_atomic; [by rewrite chunk_parent|]. intros temporary. apply makes_only_bind; [by apply makes_only_pure|]. intros. apply makes_only_write.
Qed.

(** ** Writing the metadata *)

Lemma write_metadata s o s' m batches :
  stored (tree s) batches -> (complete m = true -> accounts m batches /\ firsts ∅ (ids (mjoin batches)) = wanted) ->
  atomic_write_json temporary_middle metadata_file (VDict m) s = (o, s') ->
  stored (tree s') batches /\ (o = Ok tt -> read_json metadata_file (tree s') = Ok (VDict m)) /\ (directories (tree s) -> directories (tree s')) /\
  (incomplete (tree s) -> complete m = false -> incomplete (tree s')) /\
  (forall q, q ∈ chunk_files directory (tree s') -> q ∈ chunk_files directory (tree s)).
Proof.
  intros [H1 H2 H3 H4 H5 H6 H7] Hm E. pose proof (no_directories_made _ _ _ _ (makes_only_metadata m) E H5) as Hnd.
  apply atomic_write_json_replaced in E; [|done]. pose proof (path_kept _ _ _ _ _ E H6) as Hpk. assert (Hchunks : forall q, q ∈ chunk_files directory (tree s') ->
    q ∈ chunk_files directory (tree s) /\ tree s' !! q = tree s !! q).
  { intros q Hq. destruct (chunk_files_elem _ _ Hq) as (_ & Hne & _). by apply (replaced_chunk_files _ _ _ _ _ _ E). }
  assert (Hread : read_json metadata_file (tree s') = read_json metadata_file (tree s) \/ read_json metadata_file (tree s') = Ok (VDict m)).
  { destruct E as [[[_ Ht]|(_ & c & -> & Ht)] _ _]; unfold read_json, metadata_file in *; rewrite Ht; auto. }
  split_and!; [split| | | |].
  - intros q Hq. destruct (Hchunks q Hq) as [Hin Ht]. destruct (H1 q Hin) as (i & b & bytes & ? & ? & ? & ?). exists i, b, bytes. split_and!; [done..|congruence].
  - done.
  - done.
  - intros m' [Hr Hi] Hc. destruct Hread as [Hs|Hs]; [by apply H4; [split; [by rewrite <- Hs|]|]|]. rewrite Hs in Hr. injection Hr as ->. auto.
  - done.
  - exact Hpk.
  - intros e He. destruct Hread as [Hs|Hs]; [apply H7; by rewrite <- Hs|]. by rewrite Hs in He.
  - intros ->. destruct E as [[[[e He] _]|(_ & c & -> & Ht)] _ _]; [done|]. unfold read_json, metadata_file in *. by rewrite Ht.
  - by eapply directories_kept.
  - intros Hinc Hc m' [Hr Hi]. destruct Hread as [Hs|Hs]; [apply Hinc; split; [by rewrite <- Hs|done]|]. rewrite Hs in Hr. by injection Hr as ->.
  - intros q Hq. by apply Hchunks.
Qed.

(** ** Writing a chunk *)

Lemma polygon_columns_NoDup : NoDup polygon_v2_schema.*1.
Proof. apply (bool_decide_unpack _). vm_compute. exact I. Qed.

Lemma encode_fills (rows : list pydict) temporary :
  fills (fun q => b <- lift (encode_table polygon_v2_schema rows);; write_file q (CBytes b))
    (fun _ c => exists b, encode_table polygon_v2_schema rows = Ok b /\ c = CBytes b) temporary.
Proof.
  intros s o s' E [c0 Hc0]. unfold pbind, lift in E. destruct (encode_table polygon_v2_schema rows) as [b|e].
  - destruct (write_fills (CBytes b) temporary s o s' E) as (H1 & (c & Hc & Hw) & H3); [eauto|]. split_and!; [done| |done].
    exists c. split; [done|]. intros Ho. exists b. split; [done|by apply Hw].
  - injection E as <- <-. split_and!; [done| |done]. exists c0. by split.
Qed.

Lemma project_good (rows : list pydict) : Forall good rows -> project_row polygon_v2_schema.*1 <$> rows = rows.
Proof.
  intros H. induction H as [|r rows Hr _ IH]; [done|]. rewrite fmap_cons, IH. f_equal. apply project_row_id; [|apply polygon_columns_NoDup]. by apply fits_keys, good_fits.
Qed.

Lemma write_chunk s o s' batches rows :
  stored (tree s) batches -> incomplete (tree s) -> directories (tree s) -> Forall good rows -> firsts ∅ (ids (mjoin (batches ++ [rows]))) `prefix_of` wanted ->
  atomic_write_table temporary_middle (chunk_file directory (len batches)) rows polygon_v2_schema s = (o, s') ->
  stored (tree s') (match o with Ok _ => batches ++ [rows] | Raise _ => batches end) /\ incomplete (tree s') /\ directories (tree s') /\
  (forall q, tree s !! q ≠ None -> tree s' !! q ≠ None) /\ (o = Ok tt -> tree s' !! chunk_file directory (len batches) ≠ None).
Proof.
  intros [H1 H2 H3 H4 H5 H6 H7] Hinc Hdir Hgood Hpre E. pose proof (no_directories_made _ _ _ _ (makes_only_chunk _ _) E H5) as Hnd.
  unfold atomic_write_table in E. rewrite project_good in E by done.
  eapply atomic_replacement_cases in E as (s1 & E & _); [|done|intros; apply encode_fills]. cbn beta in E.
  pose proof (path_kept _ _ _ _ _ E H6) as Hpk.
  assert (Hread : read_json metadata_file (tree s') = read_json metadata_file (tree s)).
  { unfold chunk_file in E. destruct (replaced_children _ _ _ _ _ metadata_file E) as [Hs|(n & Hnone & Hsome & [[_ Hp]|Ht])].
    - intros Hq. by apply (chunk_not_metadata (len batches)).
    - unfold read_json. by rewrite Hs.
    - by apply inside_not_prefix in Hp.
    - unfold temporary_like, metadata_file, extraction_metadata in Ht. by rewrite path_name_child in Ht. }
  assert (Hinc' : incomplete (tree s')) by (intros m [Hr Hi]; apply Hinc; split; [by rewrite <- Hread|done]).
  assert (Hother : forall q, q ≠ chunk_file directory (len batches) -> q ∈ chunk_files directory (tree s') ->
    q ∈ chunk_files directory (tree s) /\ tree s' !! q = tree s !! q) by (intros; by eapply (replaced_chunk_files _ _ _ _ _ _ E)).
  assert (Hdir' : directories (tree s')) by (by eapply directories_kept).
  assert (Hold : forall q, q ≠ chunk_file directory (len batches) -> q ∈ chunk_files directory (tree s') -> exists i b bytes, batches !! i = Some b /\
    q = chunk_file directory (Z.of_nat i) /\ encode_table polygon_v2_schema b = Ok bytes /\ tree s' !! q = Some (File (CBytes bytes))).
  { intros q Hne Hq. destruct (Hother q Hne Hq) as [Hin Ht]. destruct (H1 q Hin) as (i & b & bytes & ? & ? & ? & ?). exists i, b, bytes. split_and!; [done..|congruence]. }
  split_and!; [|done|done| |].
  - destruct E as [[[[e ->] Ht]|(-> & c & (bytes & Hb & ->) & Ht)] _ _].
    + split; [|done|done|intros m Hm Hc; by rewrite (Hinc' m Hm) in Hc|done|done|by rewrite Hread]. intros q Hq. destruct (decide (q = chunk_file directory (len batches))) as [->|Hne]; [|by apply Hold].
      destruct (H1 (chunk_file directory (len batches))) as (i & b & bytes & Hi & Heq & ? & ?); [by eapply glob_other|].
      exists i, b, bytes. split_and!; [done..|congruence].
    + split.
      * intros q Hq. destruct (decide (q = chunk_file directory (len batches))) as [->|Hne].
        -- exists (length batches), rows, bytes. split_and!; [by apply list_lookup_middle|done|done|done].
        -- destruct (Hold q Hne Hq) as (i & b & bytes' & Hi & ?). exists i, b, bytes'. split; [|done]. by apply lookup_app_l_Some.
      * apply Forall_app. split; [done|by repeat constructor].
      * intros k. destruct (decide (k <= length batches)%nat) as [Hk|Hk]; [rewrite take_app_le by lia; apply H3|].
        rewrite take_ge; [done|]. rewrite length_app. simpl. lia.
      * intros m Hm Hc. by rewrite (Hinc' m Hm) in Hc.
      * done.
      * done.
      * by rewrite Hread.
  - intros q Hq. destruct E as [Ht Ho _]. destruct (decide (q = chunk_file directory (len batches))) as [->|Hne].
    + destruct Ht as [[_ ->]|(_ & c & _ & ->)]; done.
    + destruct (tree s !! q) as [n|] eqn:Eq; [|done]. by rewrite (Ho _ _ Hne Eq).
  - intros ->. destruct E as [[[[e ?] _]|(_ & c & _ & ->)] _ _]; done.
Qed.

(** ** Clearing and starting over *)

Lemma remove_children patterns s o s' batches :
  Forall (fun what => matches what (u "metadata.json") = false) patterns ->
  stored (tree s) batches -> remove_matching directory patterns s = (o, s') ->
  stored (tree s') batches /\ (directories (tree s) -> directories (tree s')) /\ (forall q, tree s' !! q = tree s !! q \/ tree s' !! q = None) /\
  (o = Ok tt -> forall what q, what ∈ patterns -> q ∉ glob_pattern directory what (tree s')).
Proof.
  intros Hpat Hst E. apply remove_matching_subset in E as [Hsub Hok].
  assert (Hchild : forall q, (forall what name, what ∈ patterns -> matches what name = true -> q ≠ child directory name) -> tree s' !! q = tree s !! q).
  { intros q Hq. destruct (Hsub q) as [?|[_ (what & Hw & (name & -> & Hm & _)%elem_of_glob)]]; [done|]. by destruct (Hq what name Hw Hm). }
  split_and!; [eapply stored_removed; [exact Hst| |]| | |].
  - apply Hchild. intros what name Hw Hm Heq. unfold metadata_file, extraction_metadata, child in Heq. apply (inj (app directory)) in Heq. injection Heq as <-.
    rewrite Forall_forall in Hpat. by rewrite (Hpat what Hw) in Hm.
  - intros q. destruct (Hsub q) as [?|[? _]]; auto.
  - intros Hd. unfold directories in *. rewrite Forall_forall in Hd |- *. intros p Hp. rewrite Hchild; [by apply Hd|]. intros what name _ _ ->. by apply inside_not_prefix in Hp.
  - intros q. destruct (Hsub q) as [?|[? _]]; auto.
  - intros Ho what q Hw Hq. by apply (Hok Ho what q).
Qed.

Lemma clear_files_spec s o s' batches :
  stored (tree s) batches -> clear_files directory s = (o, s') ->
  stored (tree s') batches /\ (directories (tree s) -> directories (tree s')) /\ (o = Ok tt -> forall q, q ∉ chunk_files directory (tree s')).
Proof.
  intros Hst. unfold clear_files, pbind. destruct (remove_matching directory [Around "chunk-" ".parquet"] s) as [o1 s1] eqn:E1.
  apply (remove_children _ _ _ _ batches) in E1 as (H1 & H2 & _ & H3); [|by repeat constructor|done].
  destruct o1 as [[]|e]; [|intros [= <- <-]; done]. intros E2.
  apply (remove_children _ _ _ _ batches) in E2 as (H4 & H5 & H6 & _); [|by repeat constructor|done]. split_and!; [done|auto|].
  intros _ q Hq. apply (H3 eq_refl (Around "chunk-" ".parquet") q); [left|]. destruct (H6 q) as [E|E]; [by eapply glob_other|].
  by destruct (chunk_files_elem _ _ Hq).
Qed.

Lemma stored_nothing t : (forall q, q ∉ chunk_files directory t) -> incomplete t -> (forall name, t !! child directory name ≠ Some Dir) ->
  (forall p c, p ∈ prefixes directory -> t !! p ≠ Some (File c)) -> (forall e, read_json metadata_file t = Raise e -> caught e = true) -> stored t [].
Proof.
  intros Hno Hinc Hd Hp Hr. split; [intros q Hq; by apply Hno in Hq|done| |intros m Hm Hc; by rewrite (Hinc m Hm) in Hc|done|done|done]. intros k. rewrite take_nil. apply prefix_nil.
Qed.

Lemma write_fresh s o s' batches :
  stored (tree s) batches -> (forall q, q ∉ chunk_files directory (tree s)) ->
  atomic_write_json temporary_middle metadata_file (VDict (fresh_metadata identity)) s = (o, s') ->
  (directories (tree s) -> directories (tree s')) /\
  match o with
  | Ok _ => stored (tree s') [] /\ metadata_at (tree s') (fresh_metadata identity) /\ incomplete (tree s') /\ (forall q, q ∉ chunk_files directory (tree s'))
  | Raise _ => stored (tree s') batches
  end.
Proof.
  intros Hst Hno E. apply (write_metadata _ _ _ _ batches) in E as (H1 & H2 & H3 & _ & H5); [|done|done]. split; [done|].
  destruct o as [[]|e]; [|done]. specialize (H2 eq_refl). assert (Hinc : incomplete (tree s')).
  { intros m [Hr _]. rewrite H2 in Hr. by injection Hr as <-. }
  split_and!; [|split; [done|exact identity_equal]|done|intros q Hq; by apply (Hno q), H5]. apply stored_nothing; [intros q Hq; by apply (Hno q), H5|done|by destruct H1|by destruct H1|by destruct H1].
Qed.

(** ** Opening *)

Lemma open_spec s o s' batches :
  stored (tree s) batches -> open_extraction temporary_middle directory identity s = (o, s') ->
  exists batches', stored (tree s') batches' /\
    match o with
    | Ok (m, n) => directories (tree s') /\ metadata_at (tree s') m /\
        exists l, mapM chunk_index (chunk_files directory (tree s')) = Ok l /\ n = next_chunk_after l
    | Raise _ => True
    end.
Proof.
  intros Hst. unfold open_extraction. unfold pbind at 1. destruct (mkdir directory s) as [o1 s1] eqn:E1.
  assert (H1 : stored (tree s1) batches).
  { rewrite <- metadata_parent in E1. apply mkdir_cases in E1 as (_ & Hk & Hn & _). rewrite metadata_parent in Hn. by eapply stored_grown. }
  destruct o1 as [[]|e]; [|intros [= <- <-]; by exists batches].
  assert (Hd1 : directories (tree s1)). { apply primitive_cases in E1 as [(e & ? & _)|E1]; [done|]. by eapply mkdirs_dirs. }
  unfold pbind at 1. destruct (prepare_extraction _ _ _ s1) as [o2 s2] eqn:E2.
  assert (H2 : exists batches', stored (tree s2) batches' /\ directories (tree s2) /\ forall m, o2 = Ok m -> metadata_at (tree s2) m).
  { unfold prepare_extraction in E2. unfold pbind at 1 in E2. destruct (read_document _ s1) as [o3 s3] eqn:E3.
    apply read_document_cases in E3 as (Ht3 & Hv & _). rewrite <- Ht3 in H1, Hd1. destruct o3 as [v|e]; [|injection E2 as <- <-; by exists batches].
    specialize (Hv v eq_refl). destruct (match v with VDict d => _ | _ => None end) as [d|] eqn:Ed.
    - assert (Hd : v = VDict d /\ identified d).
      { destruct v; try done. unfold identified. destruct (py_eqb _ _) eqn:Eq in Ed; [|done]. by injection Ed as ->. }
      destruct Hd as [-> Hd]. unfold ret in E2. injection E2 as <- <-. exists batches.
      split_and!; [done|done|]. intros m [= <-]. split; [|done]. rewrite Ht3. by destruct Hv.
    - unfold pbind at 1 in E2. destruct (clear_files directory s3) as [o4 s4] eqn:E4. apply (clear_files_spec _ _ _ batches) in E4 as (H4 & Hd4 & Hno); [|done].
      destruct o4 as [[]|e]; [|injection E2 as <- <-; exists batches; split_and!; [done|auto|done]].
      unfold pbind at 1 in E2. destruct (atomic_write_json _ _ _ s4) as [o5 s5] eqn:E5. apply (write_fresh _ _ _ batches) in E5 as (Hd5 & H5); [|done|auto].
      destruct o5 as [[]|e]; [|injection E2 as <- <-; exists batches; split_and!; [done|auto|done]].
      unfold ret in E2. injection E2 as <- <-. exists []. destruct H5 as (H5 & Hm & _). split_and!; [done|auto|]. by intros m [= <-]. }
  destruct H2 as (batches' & H2 & Hd2 & Hm2). destruct o2 as [m|e]; [|intros [= <- <-]; by exists batches'].
  unfold pbind, reads. destruct (mapM chunk_index _) as [l|e] eqn:El; [|intros [= <- <-]; by exists batches'].
  unfold ret. intros [= <- <-]. exists batches'. split_and!; [done|done|auto|]. by exists l.
Qed.

(** ** Reading the chunks *)

Lemma read_rows_spec t batches rows :
  stored t batches -> read_extraction_rows (chunk_files directory t) polygon_v2_schema t = Ok rows ->
  let n := length (chunk_files directory t) in
  rows = mjoin (take n batches) /\ (n <= length batches)%nat /\ chunk_files directory t = (fun i => chunk_file directory (Z.of_nat i)) <$> seq 0 n /\
  mapM chunk_index (chunk_files directory t) = Ok (Z.of_nat <$> seq 0 n).
Proof.
  intros [H1 Hg _ _ _ _ _] H. unfold read_extraction_rows in H. apply outcome_bind_Ok in H as (indices & Hi & H). apply outcome_bind_Ok in H as ([] & Hc & H).
  apply outcome_bind_Ok in H as (read & Hr & H). apply mret_Ok in H as <-. apply raise_if_Ok, negb_false_iff, bool_decide_eq_true in Hc.
  assert (Hlen : length indices = length (chunk_files directory t)) by (apply mapM_Forall2 in Hi; by apply Forall2_length in Hi). rewrite Hlen in Hc.
  set (n := length (chunk_files directory t)) in *. apply mapM_Forall2 in Hi as Hi2.
  assert (Hat : forall j q, chunk_files directory t !! j = Some q -> q = chunk_file directory (Z.of_nat j) /\
    exists b bytes, batches !! j = Some b /\ encode_table polygon_v2_schema b = Ok bytes /\ t !! q = Some (File (CBytes bytes))).
  { intros j q Hj. destruct (H1 q) as (i & b & bytes & Hb & Hq & He & Ht); [by eapply list_elem_of_lookup_2|].
    assert (Hjn : (j < n)%nat) by (by eapply lookup_lt_Some).
    assert (Hz : indices !! j = Some (Z.of_nat j)) by (rewrite Hc, list_lookup_fmap, lookup_seq_lt by done; done).
    pose proof (Forall2_lookup_lr _ _ _ _ _ _ Hi2 Hj Hz) as Hx. rewrite Hq, chunk_index_file in Hx by lia. injection Hx as Hx. apply Nat2Z.inj in Hx as ->.
    split; [done|]. exists b, bytes. done. }
  assert (Hn : (n <= length batches)%nat).
  { destruct (decide (n <= length batches)%nat) as [|Hn]; [done|]. exfalso. destruct (chunk_files directory t !! length batches) as [q|] eqn:E.
    - destruct (Hat _ _ E) as (_ & b & _ & Hb & _). apply lookup_lt_Some in Hb. lia.
    - apply lookup_ge_None in E. unfold n in Hn. lia. }
  split_and!; [|done| |by rewrite Hi, Hc].
  - f_equal. apply list_eq_same_length with n; [by rewrite length_take, Nat.min_l| |].
    + apply mapM_Forall2 in Hr. apply Forall2_length in Hr. by rewrite <- Hr.
    + intros j x y Hj Hx Hy. rewrite lookup_take_lt in Hy by done. apply mapM_Forall2 in Hr.
      destruct (lookup_lt_is_Some_2 (chunk_files directory t) j Hj) as [q Hq]. destruct (Hat _ _ Hq) as (_ & b & bytes & Hb & He & Ht).
      pose proof (Forall2_lookup_lr _ _ _ _ _ _ Hr Hq Hx) as Hread. unfold read_chunk in Hread.
      rewrite (read_table_written _ polygon_v2_schema b bytes) in Hread; [|by eapply Forall_impl; [by eapply Forall_lookup_1|]|done|done]. cbn [mbind outcome_bind] in Hread.
      apply outcome_bind_Ok in Hread as ([] & _ & Hread). apply mret_Ok in Hread. congruence.
  - apply list_eq_same_length with n; [by rewrite length_fmap, length_seq|done|]. intros j x y Hj Hx Hy. destruct (Hat _ _ Hx) as [-> _].
    rewrite list_lookup_fmap, lookup_seq_lt in Hy by done. simpl in Hy. congruence.
Qed.

Lemma stored_take t batches n :
  stored t batches -> incomplete t -> chunk_files directory t = (fun i => chunk_file directory (Z.of_nat i)) <$> seq 0 n -> stored t (take n batches).
Proof.
  intros [H1 H2 H3 H4 H5 H6 H7] Hinc Hc. split; [|by apply Forall_take| |intros m Hm Hcm; by rewrite (Hinc m Hm) in Hcm|done|done|done].
  - intros q Hq. destruct (H1 q Hq) as (i & b & bytes & Hb & -> & He & Ht). exists i, b, bytes. split_and!; [|done..].
    rewrite Hc in Hq. apply list_elem_of_fmap in Hq as (j & Hj & [_ Hin]%elem_of_seq). apply chunk_file_inj in Hj; [|lia..]. rewrite lookup_take_lt by lia. done.
  - intros k. rewrite take_take. apply H3.
Qed.

Lemma next_chunk_seq n : next_chunk_after (Z.of_nat <$> seq 0 n) = Z.of_nat n.
Proof.
  destruct n as [|n]; [done|]. cbn [seq fmap list_fmap next_chunk_after]. assert (H : forall k a, 0 <= a -> foldl Z.max a (Z.of_nat <$> seq (S (Z.to_nat a)) k) = a + Z.of_nat k).
  { induction k as [|k IH]; intros a Ha; [simpl; lia|]. cbn [seq fmap list_fmap foldl]. replace (Z.max a (Z.of_nat (S (Z.to_nat a)))) with (a + 1) by lia.
    replace (S (S (Z.to_nat a))) with (S (Z.to_nat (a + 1))) by lia. change (list_fmap nat Z Z.of_nat) with (fmap (M := list) Z.of_nat). rewrite IH by lia. lia. }
  specialize (H n 0 ltac:(lia)). etrans; [exact (f_equal (fun z => z + 1) H)|]. lia.
Qed.

(** ** An object over its files *)

(** Appends go to the next number, and metadata on disk does not claim completeness. *)
Record weak (x : Extraction) (batches : list (list pydict)) : Prop := {
  wk_stored : stored (tree (x_fs x)) batches;
  wk_next : x_next_chunk x = len batches;
  wk_incomplete : incomplete (tree (x_fs x));
  wk_directories : directories (tree (x_fs x)) }.

(** The object also knows how many rows and chunks there are. *)
Record exact (x : Extraction) (batches : list (list pydict)) : Prop := {
  ex_weak : weak x batches;
  ex_rows : as_int (dget_none (u "row_count") (x_metadata x)) = Some (row_total batches);
  ex_chunks : forall i, (i < length batches)%nat -> tree (x_fs x) !! chunk_file directory (Z.of_nat i) ≠ None;
  ex_identified : identified (x_metadata x);
  ex_complete : complete (x_metadata x) = false }.

Lemma dupdate_identified m kvs : identified m -> u "identity" ∉ kvs.*1 -> identified (dupdate m kvs).
Proof. unfold identified, dget_none. intros H Hn. by rewrite dget_dupdate_other. Qed.

Lemma on_fs_run {A} (m : PyM FsState A) x : on_fs m x = let '(o, fs) := m (x_fs x) in (o, mkExtraction fs (x_metadata x) (x_next_chunk x)).
Proof. done. Qed.

Lemma save_metadata_spec m x o x' batches :
  stored (tree (x_fs x)) batches -> (complete m = true -> accounts m batches /\ firsts ∅ (ids (mjoin batches)) = wanted) ->
  save_metadata temporary_middle directory m x = (o, x') ->
  stored (tree (x_fs x')) batches /\ x_metadata x' = m /\ x_next_chunk x' = x_next_chunk x /\
  (directories (tree (x_fs x)) -> directories (tree (x_fs x'))) /\ (incomplete (tree (x_fs x)) -> complete m = false -> incomplete (tree (x_fs x'))) /\
  (forall q, q ≠ metadata_file -> tree (x_fs x) !! q ≠ None -> tree (x_fs x') !! q = tree (x_fs x) !! q) /\
  (o = Ok tt -> read_json metadata_file (tree (x_fs x')) = Ok (VDict m)).
Proof.
  intros Hst Hm. unfold save_metadata, pbind, modify. rewrite on_fs_run. cbn [with_metadata x_fs x_metadata x_next_chunk].
  destruct (atomic_write_json _ _ _ (x_fs x)) as [o1 fs] eqn:E. intros [= <- <-]. cbn [x_fs x_metadata x_next_chunk].
  pose proof (atomic_write_json_replaced _ _ _ _ _ _ temporary_fresh E) as [_ Ho _].
  apply (write_metadata _ _ _ _ batches) in E as (H1 & H2 & H3 & H4 & _); [|done|done]. split_and!; [done..| |done].
  intros q Hq Hn. destruct (tree (x_fs x) !! q) as [n|] eqn:E; [|done]. by apply Ho.
Qed.

(** ** Loading *)

(** What a loaded checkpoint is: finished with every identifier, or ready to be continued. *)
Definition loaded (x : Extraction) (rows : list pydict) : Prop :=
  complete (x_metadata x) = true /\ firsts ∅ (ids rows) = wanted /\ (exists batches, stored (tree (x_fs x)) batches) \/
  exists batches, exact x batches /\ rows = mjoin batches.

Lemma start_over_spec x o x' batches :
  stored (tree (x_fs x)) batches -> directories (tree (x_fs x)) -> start_over temporary_middle directory identity x = (o, x') ->
  (exists batches', stored (tree (x_fs x')) batches') /\ forall r, o = Ok r -> r = None /\ exact x' [].
Proof.
  intros Hst Hdir. unfold start_over. unfold pbind at 1. rewrite on_fs_run.
  destruct (clear_files directory (x_fs x)) as [o2 fs2] eqn:E2. apply (clear_files_spec _ _ _ batches) in E2 as (H2 & Hd2 & Hno); [|done].
  destruct o2 as [[]|e]; [|intros [= <- <-]; split; [by exists batches|done]]. unfold pbind at 1, modify at 1. unfold pbind at 1, modify at 1. unfold pbind at 1. rewrite on_fs_run.
  cbn [with_metadata with_next_chunk x_fs x_metadata x_next_chunk]. fold metadata_file.
  destruct (atomic_write_json _ _ _ fs2) as [o3 fs3] eqn:E3. apply (write_fresh _ _ _ batches) in E3 as (Hd3 & H3); [|done|auto].
  destruct o3 as [[]|e]; [|intros [= <- <-]; split; [by exists batches|done]]. destruct H3 as (H3 & Hm3 & Hinc & _).
  unfold ret. intros [= <- <-]. split; [by exists []|]. intros r [= <-]. split; [done|]. split; [split; simpl; auto|done|simpl; lia|exact identity_equal|done].
Qed.

Lemma load_rows_spec x o x' batches l :
  stored (tree (x_fs x)) batches -> directories (tree (x_fs x)) -> metadata_at (tree (x_fs x)) (x_metadata x) ->
  mapM chunk_index (chunk_files directory (tree (x_fs x))) = Ok l -> x_next_chunk x = next_chunk_after l ->
  load_rows temporary_middle directory identity x = (o, x') ->
  (exists batches', stored (tree (x_fs x')) batches') /\ (forall rows, o = Ok rows -> loaded x' rows).
Proof.
  intros Hst Hdir Hmeta Hl Hnext. unfold load_rows. unfold pbind at 1, gets at 1. unfold pbind at 1, gets at 1. unfold pbind at 1. unfold try_except.
  unfold pbind at 1. rewrite on_fs_run. destruct (reading _ (x_fs x)) as [o1 fs1] eqn:E1. apply reading_cases in E1 as (Ht1 & Ho1 & _).
  rewrite <- Ht1 in Hst, Hdir, Hmeta, Hl |- *.
  assert (Hreset : forall o x', start_over temporary_middle directory identity (mkExtraction fs1 (x_metadata x) (x_next_chunk x)) = (o, x') ->
    (exists batches', stored (tree (x_fs x')) batches') /\ forall r, o = Ok r -> r = None /\ exact x' []) by (intros ? ? E; exact (start_over_spec (mkExtraction fs1 _ _) _ _ batches Hst Hdir E)).
  destruct o1 as [rows|e].
  - destruct Ho1 as [Hread|[e ?]]; [|done]. symmetry in Hread. rewrite <- Ht1 in Hread. destruct (read_rows_spec _ _ _ Hst Hread) as (Hrows & Hn & Hchunks & Hidx).
    set (n := length (chunk_files directory (tree fs1))) in *. rewrite Hl in Hidx. injection Hidx as ->.
    unfold pbind at 1, lift. destruct (validate_complete_extraction_accounting _ _ rows) as [[]|e] eqn:Ev.
    + unfold ret at 1. destruct (complete (x_metadata x)) eqn:Ec.
      * unfold pbind, ret. intros [= <- <-]. cbn [x_fs x_metadata]. split; [by exists batches|]. intros r [= <-]. left.
        apply raise_if_Ok in Ev. rewrite Ec in Ev. simpl in Ev. apply negb_false_iff in Ev. destruct (st_complete _ _ Hst _ Hmeta Ec) as [[Ha1 Ha2] Hf].
        unfold extraction_accounting_matches in Ev. rewrite Ha1, Ha2 in Ev. apply andb_true_iff in Ev as [Ev1 Ev2]. apply Z.eqb_eq in Ev1. unfold len in Ev1. fold n in Ev1.
        split_and!; [done| |by exists batches]. rewrite Hrows, take_ge by lia. exact Hf.
      * assert (Hinc : incomplete (tree fs1)). { intros m [Hm _]. destruct Hmeta as [Hm' _]. rewrite Hm in Hm'. by injection Hm' as ->. }
        pose proof (stored_take _ _ _ Hst Hinc Hchunks) as Hst'. unfold pbind at 1. destruct (save_metadata _ _ _ _) as [o2 x2] eqn:E2.
        apply (save_metadata_spec _ _ _ _ (take n batches)) in E2 as (Hs2 & Hm2 & Hn2 & Hd2 & Hi2 & Hk2 & _); [|done|].
        2: { unfold complete. rewrite dget_dupdate_other by (apply (bool_decide_unpack _); vm_compute; exact I). unfold complete in Ec. by rewrite Ec. }
        destruct o2 as [[]|e]; [|intros [= <- <-]; split; [by exists (take n batches)|done]].
        unfold ret. intros [= <- <-]. split; [by exists (take n batches)|]. intros r [= <-]. right. exists (take n batches). split; [|exact Hrows].
        assert (Hcm : complete (x_metadata x2) = false).
        { rewrite Hm2. unfold complete. rewrite dget_dupdate_other by (apply (bool_decide_unpack _); vm_compute; exact I). exact Ec. }
        split; [split| | | |].
        -- done.
        -- rewrite Hn2. simpl. rewrite Hnext. unfold len. rewrite length_take, Nat.min_l by done. apply next_chunk_seq.
        -- rewrite Hm2 in Hcm. by apply Hi2.
        -- by apply Hd2.
        -- rewrite Hm2. unfold dget_none. rewrite (dget_dupdate _ (VInt (len rows))); [|apply (bool_decide_unpack _); vm_compute; exact I|set_solver]. simpl. unfold row_total. by rewrite Hrows.
        -- intros i Hi. rewrite length_take, Nat.min_l in Hi by done. rewrite Hk2; [|apply chunk_not_metadata|]; simpl;
             (assert (Hin : chunk_file directory (Z.of_nat i) ∈ chunk_files directory (tree fs1)) by (rewrite Hchunks; apply list_elem_of_fmap; exists i; rewrite elem_of_seq; split; [done|lia]);
              by apply chunk_files_elem in Hin as [? _]).
        -- rewrite Hm2. apply dupdate_identified; [apply Hmeta|]. apply (bool_decide_unpack _). vm_compute. exact I.
        -- done.
    + destruct (unreadable e).
      * destruct (start_over _ _ _ _) as [o2 x2] eqn:E2. destruct (Hreset _ _ eq_refl) as [Hs2 Hr2].
        destruct o2 as [r|e2]; [|intros [= <- <-]; done]. destruct (Hr2 r eq_refl) as [-> Hx2]. unfold ret. intros [= <- <-]. split; [done|].
        intros rows' [= <-]. right. by exists [].
      * unfold pbind. intros [= <- <-]. split; [by exists batches|done].
  - destruct (unreadable e).
    + destruct (start_over _ _ _ _) as [o2 x2] eqn:E2. destruct (Hreset _ _ eq_refl) as [Hs2 Hr2].
      destruct o2 as [r|e2]; [|intros [= <- <-]; done]. destruct (Hr2 r eq_refl) as [-> Hx2]. unfold ret. intros [= <- <-]. split; [done|].
      intros rows' [= <-]. right. by exists [].
    + unfold pbind. intros [= <- <-]. split; [by exists batches|done].
Qed.

(** ** Appending *)

Lemma as_int_default k d z : as_int (dget_none k d) = Some z -> as_int (default (VInt 0) (dget k d)) = Some z.
Proof. unfold dget_none. by destruct (dget k d). Qed.

Lemma row_total_snoc batches rows : row_total (batches ++ [rows]) = row_total batches + len rows.
Proof. unfold row_total, len. rewrite join_app. simpl. rewrite app_nil_r, length_app. lia. Qed.

(** The chunks of all batches are on disk. *)
Definition present (x : Extraction) (batches : list (list pydict)) : Prop :=
  forall i, (i < length batches)%nat -> tree (x_fs x) !! chunk_file directory (Z.of_nat i) ≠ None.

Lemma append_spec x o x' batches rows :
  weak x batches -> Forall good rows -> firsts ∅ (ids (mjoin (batches ++ [rows]))) `prefix_of` wanted ->
  append temporary_middle directory rows x = (o, x') ->
  exists batches', (batches' = batches \/ batches' = batches ++ [rows]) /\ weak x' batches' /\
    (present x batches -> present x' batches') /\
    (o = Ok tt -> mjoin batches' = mjoin batches ++ rows /\ (exact x batches -> exact x' batches')).
Proof.
  intros [Hst Hnext Hinc Hdir] Hgood Hpre. unfold append. case_bool_decide as Hr.
  { unfold ret. intros [= <- <-]. exists batches. split_and!; [by left|done|done|]. intros _. split; [by rewrite Hr, app_nil_r|done]. }
  unfold pbind at 1, gets. unfold pbind at 1. rewrite on_fs_run, Hnext. destruct (atomic_write_table _ _ _ _ (x_fs x)) as [o1 fs1] eqn:E1.
  apply (write_chunk _ _ _ batches) in E1 as (H1 & Hi1 & Hd1 & Hk1 & Hnew); [|done..].
  destruct o1 as [[]|e]; [|intros [= <- <-]; exists batches; split_and!; [by left|by split| |done]; intros Hp i Hi; by apply Hk1, Hp].
  specialize (Hnew eq_refl). unfold pbind at 1, modify. unfold pbind at 1, gets. cbn [with_next_chunk x_fs x_metadata x_next_chunk].
  set (m' := dupdate (x_metadata x) _). assert (Hc' : complete m' = false).
  { unfold complete, m'. rewrite (dget_dupdate _ (VBool false)); [done|apply (bool_decide_unpack _); vm_compute; exact I|left]. }
  intros E2. apply (save_metadata_spec _ _ _ _ (batches ++ [rows])) in E2 as (H2 & Hm2 & Hn2 & Hd2 & Hi2 & Hk2 & _); [|done|by rewrite Hc'].
  assert (Hweak : weak x' (batches ++ [rows])).
  { split; [done| |by apply Hi2|by apply Hd2]. rewrite Hn2. simpl. unfold len. rewrite length_app. simpl. lia. }
  assert (Hpresent : present x batches -> present x' (batches ++ [rows])).
  { intros Hchunks i Hi. assert (Hp : tree fs1 !! chunk_file directory (Z.of_nat i) ≠ None).
    { destruct (decide (i < length batches)%nat) as [Hlt|Hge]; [by apply Hk1, Hchunks|]. rewrite length_app in Hi. simpl in Hi. by replace i with (length batches) by lia. }
    rewrite Hk2; [done|apply chunk_not_metadata|done]. }
  exists (batches ++ [rows]). split_and!; [by right|done|done|]. intros _. split; [rewrite join_app; simpl; by rewrite app_nil_r|].
  intros [_ Hrows Hchunks Hid _]. split; [done| |by apply Hpresent| |].
  - rewrite Hm2. unfold m', dget_none. rewrite (dget_dupdate _ (VInt (row_total batches + len rows))); [simpl; by rewrite row_total_snoc|apply (bool_decide_unpack _); vm_compute; exact I|].
    apply as_int_default in Hrows. rewrite Hrows. simpl. right. right. right. left.
  - rewrite Hm2. apply dupdate_identified; [done|]. apply (bool_decide_unpack _). vm_compute. exact I.
  - by rewrite Hm2.
Qed.

(** ** Completing *)

Lemma NoDup_glob p what t : NoDup (glob_pattern p what t).
Proof.
  unfold glob_pattern. apply NoDup_fmap_2; [intros a b H; unfold child in H; apply (inj (app p)) in H; congruence|]. rewrite sorted_strs_perm.
  assert (Hf : forall (l : list (path * node)), NoDup l.*1 -> NoDup (omap (fun kv : path * node => match relative_to kv.1 p with
    | Some [name] => if matches what name then Some name else None | _ => None end) l)); [|apply Hf, NoDup_fst_map_to_list].
  induction l as [|[q n] l IH]; intros Hnd; [constructor|]. inversion Hnd as [|? ? Hq Hnd']; subst. csimpl.
  destruct (relative_to q p) as [[|name []]|] eqn:Er; [by apply IH| |by apply IH|by apply IH]. destruct (matches what name); [|by apply IH].
  constructor; [|by apply IH]. intros ([q' n'] & Hin & Hx)%list_elem_of_omap. apply relative_to_spec in Er. simpl in Hx.
  destruct (relative_to q' p) as [[|name' []]|] eqn:Er'; [done| |done|done]. destruct (matches what name'); [|done]. injection Hx as ->. apply relative_to_spec in Er'.
  apply Hq. rewrite Er, <- Er'. by eapply elem_of_fst.
Qed.

Lemma elem_of_chunk_files t n : t !! chunk_file directory n ≠ None -> chunk_file directory n ∈ chunk_files directory t.
Proof.
  intros Hn. apply elem_of_glob. exists (u "chunk-" ++ zero_pad 8 n ++ u ".parquet"). split_and!; [done| |done].
  unfold matches. rewrite startswith_app, app_assoc, endswith_app. cbn [andb]. apply Z.leb_le. unfold len. rewrite !length_app. lia.
Qed.

Lemma present_chunk_files x batches :
  stored (tree (x_fs x)) batches -> present x batches ->
  chunk_files directory (tree (x_fs x)) ≡ₚ (fun i => chunk_file directory (Z.of_nat i)) <$> seq 0 (length batches).
Proof.
  intros Hst Hchunks. apply NoDup_Permutation; [apply NoDup_glob| |].
  - apply NoDup_fmap_2_strong; [|apply NoDup_seq]. intros i j _ _ H. apply chunk_file_inj in H; lia.
  - intros q. split.
    + intros Hq. destruct (st_chunks _ _ Hst q Hq) as (i & b & bytes & Hb & -> & _). apply list_elem_of_fmap. exists i. split; [done|]. apply elem_of_seq.
      apply lookup_lt_Some in Hb. lia.
    + intros (i & -> & [_ Hi]%elem_of_seq)%list_elem_of_fmap. apply elem_of_chunk_files, Hchunks. lia.
Qed.

Lemma exact_count x batches : exact x batches -> len (chunk_files directory (tree (x_fs x))) = len batches.
Proof.
  intros [[Hst _ _ _] _ Hchunks _ _]. unfold len. f_equal. rewrite (Permutation_length (present_chunk_files x batches Hst Hchunks)).
  by rewrite length_fmap, length_seq.
Qed.

Lemma mark_complete_spec x o x' batches :
  exact x batches -> firsts ∅ (ids (mjoin batches)) = wanted -> mark_complete temporary_middle directory x = (o, x') ->
  exists batches', stored (tree (x_fs x')) batches'.
Proof.
  intros Hx Hf. pose proof (exact_count x batches Hx) as Hcount. destruct Hx as [[Hst _ _ _] Hrows _ _ _].
  unfold mark_complete. unfold pbind at 1, gets. unfold pbind at 1. intros E. apply (save_metadata_spec _ _ _ _ batches) in E as (H1 & _); [by exists batches|done|].
  intros _. split; [|done]. rewrite Hcount. split.
  - unfold dget_none. rewrite (dget_dupdate _ (VInt (len batches))); [done|apply (bool_decide_unpack _); vm_compute; exact I|right; left].
  - unfold dget_none in *. rewrite dget_dupdate_other by (apply (bool_decide_unpack _); vm_compute; exact I). exact Hrows.
Qed.

(** ** The scan *)

Section Scan.
Context {candidate : Type} (key : candidate -> option str) (candidates : list candidate).
Hypothesis wanted_is : wanted = firsts ∅ (omap key candidates).
Context (to_row : candidate -> outcome (option pydict)) (checkpoint_every : Z).
(** A conversion of this run raises, or gives a storable row with the identifier of the source. *)
Hypothesis converts : forall c r, c ∈ candidates -> to_row c = Ok r -> text_or "polygon_id" <$> r = key c /\ (forall row, r = Some row -> good row).

Record session (s : Scan) (done_ : list candidate) (batches : list (list pydict)) : Prop := {
  se_exact : exact (sc_checkpoint s) batches;
  se_rows : sc_rows s = mjoin batches ++ sc_pending s;
  se_seen : sc_seen s = list_to_set (ids (sc_rows s));
  se_pending : Forall good (sc_pending s);
  se_done : forall x, x ∈ omap key done_ -> x ∈ ids (sc_rows s);
  se_firsts : exists n, firsts ∅ (ids (sc_rows s)) = take n wanted /\ firsts ∅ (omap key done_) `prefix_of` take n wanted }.

(** Where a failure leaves the scan: flushing the pending rows is still sound. *)
Definition failed (s : Scan) : Prop := exists batches, weak (sc_checkpoint s) batches /\ Forall good (sc_pending s) /\
  firsts ∅ (ids (mjoin (batches ++ [sc_pending s]))) `prefix_of` wanted.

Lemma ids_app a b : ids (a ++ b) = ids a ++ ids b.
Proof. apply fmap_app. Qed.
Lemma mjoin_snoc (batches : list (list pydict)) rows : mjoin (batches ++ [rows]) = mjoin batches ++ rows.
Proof. rewrite join_app. simpl. by rewrite app_nil_r. Qed.
Lemma prefix_of_take {A} n (l : list A) : take n l `prefix_of` l.
Proof. exists (drop n l). by rewrite take_drop. Qed.

Lemma session_failed s done_ batches : session s done_ batches -> failed s.
Proof.
  intros [[Hw _ _ _ _] Hr _ Hp _ (n & Hn & _)]. exists batches. split_and!; [done|done|]. rewrite mjoin_snoc, <- Hr, Hn. apply prefix_of_take.
Qed.

Lemma on_checkpoint_run {A} (m : PyM Extraction A) s :
  on_checkpoint m s = let '(o, x) := m (sc_checkpoint s) in (o, mkScan x (sc_rows s) (sc_seen s) (sc_pending s)).
Proof. done. Qed.

Lemma flush_pending s o x' :
  failed s -> append temporary_middle directory (sc_pending s) (sc_checkpoint s) = (o, x') -> exists batches, stored (tree (x_fs x')) batches.
Proof. intros (batches & Hw & Hg & Hp) E. apply (append_spec _ _ _ batches) in E as (batches' & _ & [? _ _ _] & _ & _); [by exists batches'|done..]. Qed.

Lemma checkpoint_if_due_spec s done_ batches o s' :
  session s done_ batches -> checkpoint_if_due temporary_middle true directory checkpoint_every s = (o, s') ->
  match o with Ok _ => exists batches', session s' done_ batches' | Raise _ => failed s' end.
Proof.
  intros Hs. destruct Hs as [Hex Hrows Hseen Hpend Hdone (n & Hn & Hd)] eqn:Es. unfold checkpoint_if_due. unfold pbind at 1, gets. cbn [negb orb].
  destruct (_ <? _); [unfold ret; intros [= <- <-]; by exists batches|]. unfold pbind at 1. rewrite on_checkpoint_run.
  assert (Hpre : firsts ∅ (ids (mjoin (batches ++ [sc_pending s]))) `prefix_of` wanted) by (rewrite mjoin_snoc, <- Hrows, Hn; apply prefix_of_take).
  destruct (append _ _ _ _) as [o1 x1] eqn:E1. apply (append_spec _ _ _ batches) in E1 as (b' & Hb' & Hw' & _ & Hok); [|by destruct Hex|done|done].
  destruct o1 as [[]|e].
  - destruct (Hok eq_refl) as [Hj Hx]. unfold modify. intros [= <- <-]. exists b'. split; cbn [sc_checkpoint sc_rows sc_seen sc_pending with_pending]; [by apply Hx| |done|done|done|by exists n].
    by rewrite Hj, app_nil_r.
  - intros [= <- <-]. exists b'. cbn [sc_checkpoint sc_pending]. split_and!; [done|done|]. destruct Hb' as [->| ->]; [done|].
    rewrite mjoin_snoc. rewrite mjoin_snoc in Hpre |- *. rewrite !ids_app, <- app_assoc, firsts_repeat. by rewrite <- ids_app.
Qed.

Lemma good_polygon_id row : good row -> exists v, getitem_of "polygon_id" row = Ok v /\ text_or "polygon_id" row = py_str v.
Proof.
  intros Hg. apply good_fits, fits_keys in Hg. destruct (dget (u "polygon_id") row) as [v|] eqn:E.
  - exists v. unfold getitem_of, text_or. by rewrite E.
  - apply dget_None in E. rewrite Hg in E. exfalso. apply E. apply (bool_decide_unpack _). vm_compute. exact I.
Qed.

Lemma omap_snoc (l : list candidate) c : omap key (l ++ [c]) = omap key l ++ match key c with Some x => [x] | None => [] end.
Proof. induction l as [|d l IH]; csimpl; [by destruct (key c)|]. destruct (key d); by rewrite ?IH. Qed.

Lemma omap_app_prefix (l k : list candidate) : omap key l `prefix_of` omap key (l ++ k).
Proof. induction l as [|d l [r IH]]; csimpl; [by exists (omap key k)|]. destruct (key d); exists r; by rewrite IH. Qed.

Lemma append_row_spec s done_ c rest batches o s' :
  candidates = done_ ++ c :: rest -> session s done_ batches ->
  append_extraction_row temporary_middle to_row None true directory checkpoint_every c s = (o, s') ->
  match o with Ok _ => exists batches', session s' (done_ ++ [c]) batches' | Raise _ => failed s' end.
Proof.
  intros Hc Hs. pose proof Hs as Hs0.
  destruct Hs as [Hex Hrows Hseen Hpend Hdone (n & Hn & Hd)]. unfold append_extraction_row. unfold pbind at 1, gets at 1. cbn [limit_reached].
  unfold pbind at 1, lift at 1. destruct (to_row c) as [r|e] eqn:Hr; [|intros [= <- <-]; by eapply session_failed].
  destruct (converts c r) as (Hk & Hg); [rewrite Hc; set_solver|done|]. destruct r as [row|]; cbn [option_fmap option_map fmap] in Hk.
  2: { unfold ret. intros [= <- <-]. exists batches. assert (Hsame : omap key (done_ ++ [c]) = omap key done_) by (rewrite omap_snoc, <- Hk; apply app_nil_r).
       split; [done..| |]; rewrite Hsame; [done|by exists n]. }
  destruct (good_polygon_id row (Hg row eq_refl)) as (v & Hv & Ht). unfold pbind at 1, lift at 1. rewrite Hv. unfold pbind at 1, gets at 1.
  assert (Hkey : omap key (done_ ++ [c]) = omap key done_ ++ [py_str v]) by (rewrite omap_snoc, <- Hk; simpl; by rewrite Ht).
  pose proof (firsts_step wanted (ids (sc_rows s)) (omap key done_) (py_str v) n Hn Hd) as Hstep. rewrite <- Hkey in Hstep.
  assert (Hpre : firsts ∅ (omap key (done_ ++ [c])) `prefix_of` wanted).
  { rewrite wanted_is, Hc, (cons_middle c done_ rest), app_assoc. destruct (omap_app_prefix (done_ ++ [c]) rest) as [w ->]. apply firsts_prefix. }
  specialize (Hstep Hpre). rewrite wanted_is in Hstep at 1. specialize (Hstep (firsts_NoDup _ _) Hdone).
  case_bool_decide as Hin; rewrite Hseen, elem_of_list_to_set in Hin; destruct (decide (py_str v ∈ ids (sc_rows s))) as [Hi|Hi]; try done.
  - unfold ret. intros [= <- <-]. exists batches. split; [done..| |by exists n]. rewrite Hkey. intros x. rewrite elem_of_app, list_elem_of_singleton. intros [?| ->]; auto.
  - destruct Hstep as [Hf Hp]. unfold pbind at 1, modify. intros E. eapply checkpoint_if_due_spec; [|exact E]. unfold keep_row.
    assert (Hids : ids (sc_rows s ++ [row]) = ids (sc_rows s) ++ [py_str v]) by (rewrite ids_app; simpl; by rewrite Ht).
    split; cbn [sc_checkpoint sc_rows sc_seen sc_pending]; [exact Hex|by rewrite Hrows, app_assoc| | | |].
    + rewrite Hids, Hseen, list_to_set_app_L. set_solver.
    + apply Forall_app. split; [done|]. constructor; [by apply Hg|done].
    + rewrite Hids, Hkey. set_solver.
    + exists (S n). by rewrite Hids.
Qed.

Lemma consume_spec reader done_ rest s batches o s' :
  reads_source reader rest -> candidates = done_ ++ rest -> session s done_ batches ->
  consume_candidates temporary_middle to_row None true directory checkpoint_every reader s = (o, s') ->
  match o with Ok _ => exists batches', session s' candidates batches' | Raise _ => failed s' end.
Proof.
  intros Hr. revert done_ s batches. induction Hr as [|e rest|c reader rest Hr IH]; intros done_ s batches Hc Hs; cbn [consume_candidates].
  - rewrite app_nil_r in Hc. subst done_. intros [= <- <-]. by exists batches.
  - intros [= <- <-]. by eapply session_failed.
  - unfold pbind. destruct (append_extraction_row _ _ _ _ _ _ c s) as [o1 s1] eqn:E1.
    apply (append_row_spec _ done_ _ rest batches) in E1; [|done|done]. destruct o1 as [[]|e]; [|by intros [= <- <-]].
    destruct E1 as [b1 H1]. apply (IH (done_ ++ [c]) s1 b1); [by rewrite <- app_assoc|done].
Qed.

Lemma finish_checkpoint_spec s batches o s' :
  session s candidates batches -> (finish_checkpoint temporary_middle true directory;; gets sc_rows) s = (o, s') ->
  (exists batches', stored (tree (x_fs (sc_checkpoint s'))) batches') /\ forall rows, o = Ok rows -> firsts ∅ (ids rows) = wanted.
Proof.
  intros Hs. pose proof (session_failed _ _ _ Hs) as Hfail. destruct Hs as [Hex Hrows Hseen Hpend Hdone (n & Hn & Hd)].
  assert (Hall : firsts ∅ (ids (sc_rows s)) = wanted).
  { rewrite Hn. rewrite <- wanted_is in Hd. destruct Hd as [r Hr]. assert (Hl : (length wanted <= n)%nat).
    { apply (f_equal length) in Hr. rewrite length_take, length_app in Hr. lia. } by apply take_ge. }
  assert (Hpre : firsts ∅ (ids (mjoin (batches ++ [sc_pending s]))) `prefix_of` wanted) by (rewrite mjoin_snoc, <- Hrows, Hall; done).
  unfold finish_checkpoint. unfold pbind at 1. unfold pbind at 1, gets at 1. cbn iota. unfold pbind at 1. rewrite on_checkpoint_run.
  destruct (append _ _ _ _) as [o1 x1] eqn:E1. apply (append_spec _ _ _ batches) in E1 as (b' & _ & Hw' & _ & Hok); [|by destruct Hex|done|done].
  destruct o1 as [[]|e]; [|intros [= <- <-]; split; [exists b'; by destruct Hw'|done]]. destruct (Hok eq_refl) as [Hj Hx]. specialize (Hx Hex).
  rewrite on_checkpoint_run. cbn [sc_checkpoint sc_rows sc_seen sc_pending]. destruct (mark_complete _ _ x1) as [o2 x2] eqn:E2.
  apply (mark_complete_spec _ _ _ b') in E2; [|done|by rewrite Hj, <- Hrows]. destruct o2 as [[]|e]; [|intros [= <- <-]; split; [done|done]].
  unfold gets. intros [= <- <-]. split; [done|]. by intros rows [= <-].
Qed.

Lemma session_start x batches rows :
  exact x batches -> rows = mjoin batches -> session (mkScan x rows (list_to_set (text_or "polygon_id" <$> rows)) []) [] batches.
Proof.
  intros Hex Hrows. split; cbn [sc_checkpoint sc_rows sc_seen sc_pending]; [done|by rewrite app_nil_r|done|done|by intros y ?%elem_of_nil|].
  pose proof (st_prefix _ _ (wk_stored _ _ (ex_weak _ _ Hex)) (length batches)) as [r Hr]. rewrite take_ge in Hr by done. rewrite <- Hrows in Hr.
  exists (length (firsts ∅ (ids rows))). rewrite Hr, take_app_length. split; [done|]. apply prefix_nil.
Qed.

Lemma scan_spec reader x batches l o s' :
  reads_source reader candidates -> stored (tree (x_fs x)) batches -> directories (tree (x_fs x)) -> metadata_at (tree (x_fs x)) (x_metadata x) ->
  mapM chunk_index (chunk_files directory (tree (x_fs x))) = Ok l -> x_next_chunk x = next_chunk_after l ->
  scan_source temporary_middle to_row None true directory identity checkpoint_every reader (mkScan x [] ∅ []) = (o, s') ->
  (exists batches', stored (tree (x_fs (sc_checkpoint s'))) batches') /\ forall rows, o = Ok rows -> firsts ∅ (ids rows) = wanted.
Proof.
  intros Hreads Hst Hdir Hmeta Hl Hnext. unfold scan_source. unfold pbind at 1. rewrite on_checkpoint_run. cbn [sc_checkpoint sc_rows sc_seen sc_pending].
  destruct (load_rows _ _ _ x) as [o1 x1] eqn:E1. apply (load_rows_spec _ _ _ batches l) in E1 as [Hs1 Hload]; [|done..].
  destruct o1 as [rows|e]; [|intros [= <- <-]; done]. specialize (Hload rows eq_refl). unfold pbind at 1, modify. unfold pbind at 1, gets at 1.
  cbn [with_rows sc_checkpoint sc_rows sc_seen sc_pending andb].
  destruct Hload as [(Hc & Hf & _)|(b1 & Hex & Hrows)].
  - rewrite Hc. unfold ret. intros [= <- <-]. split; [done|]. by intros r [= <-].
  - rewrite (ex_complete _ _ Hex).
    pose proof (session_start x1 b1 rows Hex Hrows) as Hsess.
    unfold pbind at 1, on_error. destruct (consume_candidates _ _ _ _ _ _ reader _) as [o2 s2] eqn:E2.
    apply (consume_spec reader [] candidates _ b1) in E2; [|done..]. destruct o2 as [[]|e].
    + destruct E2 as [b2 H2]. by apply finish_checkpoint_spec with b2.
    + unfold flush_checkpoint. unfold pbind at 1, gets at 1. cbn iota. rewrite on_checkpoint_run.
      destruct (append _ _ _ _) as [o3 x3] eqn:E3. apply flush_pending in E3; [|done]. destruct o3; intros [= <- <-]; done.
Qed.

Lemma extract_spec reader s o s' batches :
  reads_source reader candidates -> stored (tree s) batches ->
  extract_v2_pbf temporary_middle to_row None true directory identity checkpoint_every reader s = (o, s') ->
  (exists batches', stored (tree s') batches') /\ forall rows, o = Ok rows -> firsts ∅ (ids rows) = wanted.
Proof.
  intros Hreads Hst. unfold extract_v2_pbf. destruct (open_extraction _ _ _ s) as [o1 s1] eqn:E1. apply (open_spec _ _ _ batches) in E1 as (b1 & H1 & Ho); [|done].
  destruct o1 as [[m n]|e]; [|intros [= <- <-]; split; [by exists b1|done]]. destruct Ho as (Hd & Hm & l & Hl & Hn).
  destruct (scan_source _ _ _ _ _ _ _ _ _) as [o2 s2] eqn:E2. apply (scan_spec _ _ b1 l) in E2 as [H2 H3]; [|done..]. intros [= <- <-]. done.
Qed.
End Scan.

(** ** Runs without faults return *)

Hypothesis encodes : forall rows, Forall good rows -> exists b, encode_table polygon_v2_schema rows = Ok b.

Definition quiet {A} (m : PyM FsState A) (s : FsState) : Prop := exists a s', m s = (Ok a, s') /\ calm s'.
Definition quiet_x {A} (m : PyM Extraction A) (x : Extraction) : Prop := exists a x', m x = (Ok a, x') /\ calm (x_fs x').

Lemma mkdirs_no_files ps t : (forall p c, p ∈ ps -> t !! p ≠ Some (File c)) -> exists t', mkdirs ps t = (Ok tt, t').
Proof.
  revert t. induction ps as [|p ps IH]; intros t H; simpl; [eauto|]. destruct (t !! p) as [[c|]|] eqn:E.
  - exfalso. apply (H p c); [left|done].
  - apply IH. intros q c Hq. apply H. by right.
  - apply IH. intros q c Hq. destruct (decide (p = q)) as [->|Hne]; [by rewrite lookup_insert_eq|]. rewrite lookup_insert_ne by done. apply H. by right.
Qed.

Lemma quiet_metadata s batches m :
  calm s -> stored (tree s) batches -> directories (tree s) -> quiet (atomic_write_json temporary_middle metadata_file (VDict m)) s.
Proof.
  intros Hc Hst Hd. destruct (calmly_atomic_write_json temporary_middle metadata_file (VDict m) s temporary_fresh Hc) as ([] & s' & E & Hc' & _).
  - by rewrite metadata_parent.
  - apply (st_no_directories _ _ Hst).
  - by exists tt, s'.
Qed.

Lemma quiet_chunk s batches n rows :
  calm s -> stored (tree s) batches -> directories (tree s) -> Forall good rows -> quiet (atomic_write_table temporary_middle (chunk_file directory n) rows polygon_v2_schema) s.
Proof.
  intros Hc Hst Hd Hg. destruct (encodes rows Hg) as [b Hb].
  destruct (calmly_atomic_replacement temporary_middle (chunk_file directory n)
    (fun temporary => b <- lift (encode_table polygon_v2_schema rows);; write_file temporary (CBytes b)) (CBytes b) s temporary_fresh Hc) as ([] & s' & E & Hc' & _).
  - by rewrite chunk_parent.
  - apply (st_no_directories _ _ Hst).
  - intros tmp s1 Hc1 Htmp Hdir E. eapply calmly_lift_then; [exact Hb|].
    apply (calmly_primitive _ tt); [done|..]; unfold write_tree; rewrite Hdir, E, lookup_insert_eq; [done|by rewrite insert_insert_eq].
  - exists tt, s'. unfold atomic_write_table. by rewrite project_good.
Qed.

Lemma quiet_clear s batches : calm s -> stored (tree s) batches -> quiet (clear_files directory) s.
Proof.
  intros Hc Hst. destruct (remove_matching_calm directory [Around "chunk-" ".parquet"] s Hc (st_no_directories _ _ Hst)) as (s1 & E1 & Hc1).
  pose proof E1 as E1'. apply (remove_children _ _ _ _ batches) in E1' as (H1 & _); [|by repeat constructor|done].
  destruct (remove_matching_calm directory temporary_patterns s1 Hc1 (st_no_directories _ _ H1)) as (s2 & E2 & Hc2).
  exists tt, s2. unfold clear_files, pbind. by rewrite E1, E2.
Qed.

Lemma quiet_read_document s batches : calm s -> stored (tree s) batches -> quiet (read_document metadata_file) s.
Proof.
  intros Hc Hst. unfold quiet, read_document, try_except. destruct (reading (read_json metadata_file) s) as [o1 s1] eqn:E1.
  apply reading_cases in E1 as (_ & _ & Hcalm). destruct (Hcalm Hc) as [Hc1 ->].
  destruct (read_json metadata_file (tree s)) as [v|e] eqn:Er; [by exists v, s1|]. pose proof (st_readable _ _ Hst e Er) as Hcaught.
  unfold caught in Hcaught. rewrite Hcaught. by exists VNone, s1.
Qed.

Lemma chunk_indices_stored t batches : stored t batches -> exists l, mapM chunk_index (chunk_files directory t) = Ok l.
Proof.
  intros Hst. assert (H : Forall (fun q => exists i : nat, q = chunk_file directory (Z.of_nat i)) (chunk_files directory t)).
  { apply Forall_forall. intros q Hq. destruct (st_chunks _ _ Hst q Hq) as (i & _ & _ & _ & -> & _). by exists i. }
  induction H as [|q l [i ->] _ [k IH]]; [by exists []|]. exists (Z.of_nat i :: k). simpl. rewrite chunk_index_file by lia. simpl. by rewrite IH.
Qed.

Lemma quiet_open s batches : calm s -> stored (tree s) batches -> quiet (open_extraction temporary_middle directory identity) s.
Proof.
  intros Hc Hst. destruct (mkdirs_no_files (prefixes directory) (tree s)) as [t1 Ht1]; [apply (st_path _ _ Hst)|].
  destruct (primitive_calm (mkdirs (prefixes directory)) s Hc) as (s1 & E1 & Ets1 & Hc1). rewrite Ht1 in E1, Ets1. simpl in E1, Ets1.
  assert (H1 : stored (tree s1) batches /\ directories (tree s1)).
  { assert (E1' : mkdir (path_parent metadata_file) s = (Ok tt, s1)) by (by rewrite metadata_parent).
    apply mkdir_cases in E1' as (_ & Hk & Hn & _). rewrite metadata_parent in Hn. split; [by eapply stored_grown|]. rewrite Ets1. by eapply mkdirs_dirs. }
  destruct H1 as [H1 Hd1]. destruct (quiet_read_document s1 batches Hc1 H1) as (v & s2 & E2 & Hc2). pose proof E2 as E2'. apply read_document_cases in E2' as (Ht2 & _).
  rewrite <- Ht2 in H1, Hd1.
  assert (Hp : exists m s3, prepare_extraction temporary_middle directory identity s1 = (Ok m, s3) /\ calm s3 /\ exists b, stored (tree s3) b).
  { unfold prepare_extraction. unfold pbind at 1. fold metadata_file. rewrite E2. destruct (match v with VDict d => _ | _ => None end) as [d|]; [exists d, s2; eauto|].
    destruct (quiet_clear s2 batches Hc2 H1) as ([] & s3 & E3 & Hc3). unfold pbind at 1. rewrite E3. apply (clear_files_spec _ _ _ batches) in E3 as (H3 & Hd3 & Hno3); [|done].
    destruct (quiet_metadata s3 batches (fresh_metadata identity) Hc3 H3 (Hd3 Hd1)) as ([] & s4 & E4 & Hc4). unfold pbind at 1. rewrite E4.
    apply (write_fresh _ _ _ batches) in E4 as (_ & H4 & _); [|done|auto]. exists (fresh_metadata identity), s4. split_and!; [done|done|by exists []]. }
  destruct Hp as (m & s3 & E3 & Hc3 & b & H3). destruct (chunk_indices_stored _ _ H3) as [l Hl].
  exists (m, next_chunk_after l), s3. split; [|done]. unfold open_extraction, mkdir. unfold pbind at 1. rewrite E1. unfold pbind at 1. rewrite E3. unfold pbind, reads. by rewrite Hl.
Qed.

Lemma chunks_read t batches : stored t batches -> exists rows, mapM (read_chunk polygon_v2_schema t) (chunk_files directory t) = Ok rows.
Proof.
  intros Hst. assert (HF : Forall (fun q => exists rows, read_chunk polygon_v2_schema t q = Ok rows) (chunk_files directory t)).
  { apply Forall_forall. intros q Hq. destruct (st_chunks _ _ Hst q Hq) as (i & b & bytes & Hb & -> & He & Ht). exists b. unfold read_chunk.
    rewrite (read_table_written _ polygon_v2_schema b bytes); [|eapply Forall_impl; [by eapply Forall_lookup_1; [apply (st_good _ _ Hst)|]|done]|done|done].
    cbn [mbind outcome_bind]. by rewrite bool_decide_eq_true_2. }
  induction HF as [|q qs [rows Hq] _ [rest IH]]; [by exists []|]. exists (rows :: rest). simpl. rewrite Hq. simpl. by rewrite IH.
Qed.

Lemma read_rows_outcome t batches e : stored t batches -> read_extraction_rows (chunk_files directory t) polygon_v2_schema t = Raise e -> unreadable e = true.
Proof.
  intros Hst H. destruct (chunk_indices_stored t batches Hst) as [l Hl]. unfold read_extraction_rows in H. rewrite Hl in H. cbn [mbind outcome_bind] in H.
  destruct (negb _) in H; [cbn [raise_if mbind outcome_bind] in H; by injection H as <-|]. cbn [raise_if mbind outcome_bind mret outcome_ret] in H.
  destruct (chunks_read t batches Hst) as [rows Hr]. by rewrite Hr in H.
Qed.

Lemma quiet_start_over x batches :
  calm (x_fs x) -> stored (tree (x_fs x)) batches -> directories (tree (x_fs x)) -> quiet_x (start_over temporary_middle directory identity) x.
Proof.
  intros Hc Hst Hd. destruct (quiet_clear (x_fs x) batches Hc Hst) as ([] & s1 & E1 & Hc1). pose proof E1 as E1'. apply (clear_files_spec _ _ _ batches) in E1' as (H1 & Hd1 & _); [|done].
  destruct (quiet_metadata s1 batches (fresh_metadata identity) Hc1 H1 (Hd1 Hd)) as ([] & s2 & E2 & Hc2).
  eexists None, _. unfold start_over. unfold pbind at 1. rewrite on_fs_run, E1. unfold pbind at 1, modify at 1. unfold pbind at 1, modify at 1. unfold pbind at 1. rewrite on_fs_run.
  cbn [with_metadata with_next_chunk x_fs x_metadata x_next_chunk]. fold metadata_file. rewrite E2. unfold ret. split; [done|done].
Qed.

Lemma quiet_save_metadata m x batches :
  calm (x_fs x) -> stored (tree (x_fs x)) batches -> directories (tree (x_fs x)) -> quiet_x (save_metadata temporary_middle directory m) x.
Proof.
  intros Hc Hst Hd. destruct (quiet_metadata (x_fs x) batches m Hc Hst Hd) as ([] & s1 & E1 & Hc1). eexists tt, _. unfold save_metadata, pbind, modify. rewrite on_fs_run.
  cbn [with_metadata x_fs x_metadata x_next_chunk]. fold metadata_file. rewrite E1. split; [done|done].
Qed.

Lemma quiet_load x batches l :
  calm (x_fs x) -> stored (tree (x_fs x)) batches -> directories (tree (x_fs x)) -> metadata_at (tree (x_fs x)) (x_metadata x) ->
  mapM chunk_index (chunk_files directory (tree (x_fs x))) = Ok l -> quiet_x (load_rows temporary_middle directory identity) x.
Proof.
  intros Hc Hst Hd Hm Hl. unfold quiet_x, load_rows. unfold pbind at 1, gets at 1. unfold pbind at 1, gets at 1. unfold pbind at 1. unfold try_except.
  unfold pbind at 1. rewrite on_fs_run. destruct (reading _ (x_fs x)) as [o1 s1] eqn:E1. apply reading_cases in E1 as (Ht1 & _ & Hcalm). destruct (Hcalm Hc) as [Hc1 ->].
  pose proof Hst as Hst1. pose proof Hd as Hd1. rewrite <- Ht1 in Hst1, Hd1.
  assert (Hreset : exists x', start_over temporary_middle directory identity (mkExtraction s1 (x_metadata x) (x_next_chunk x)) = (Ok None, x') /\ calm (x_fs x')).
  { destruct (quiet_start_over (mkExtraction s1 (x_metadata x) (x_next_chunk x)) batches Hc1 Hst1 Hd1) as (r & x2 & E2 & Hc2).
    pose proof E2 as E2'. apply (start_over_spec _ _ _ batches) in E2' as [_ Hr]; [|done|done]. destruct (Hr r eq_refl) as [-> _]. by exists x2. }
  destruct Hreset as (x2 & E2 & Hc2). destruct (read_extraction_rows _ _ _) as [rows|e] eqn:Er.
  - unfold pbind at 1, lift. destruct (validate_complete_extraction_accounting _ _ rows) as [[]|e] eqn:Ev.
    + unfold ret at 1. destruct (complete (x_metadata x)).
      * unfold pbind, ret. eexists _, _. split; [done|done].
      * unfold pbind at 1. destruct (quiet_save_metadata (dupdate (x_metadata x)
          [(u "next_chunk", VInt (len (chunk_files directory (tree (x_fs x))))); (u "chunk_count", VInt (len (chunk_files directory (tree (x_fs x))))); (u "row_count", VInt (len rows))])
          (mkExtraction s1 (x_metadata x) (x_next_chunk x)) batches Hc1 Hst1 Hd1) as ([] & x3 & E3 & Hc3). rewrite E3. unfold ret. by exists rows, x3.
    + assert (Hu : unreadable e = true). { unfold validate_complete_extraction_accounting in Ev. destruct (_ && _); [by injection Ev as <-|done]. }
      rewrite Hu, E2. unfold ret. by exists [], x2.
  - rewrite (read_rows_outcome _ _ _ Hst Er), E2. unfold ret. by exists [], x2.
Qed.

Lemma quiet_append x batches rows :
  calm (x_fs x) -> weak x batches -> Forall good rows -> firsts ∅ (ids (mjoin (batches ++ [rows]))) `prefix_of` wanted ->
  quiet_x (append temporary_middle directory rows) x.
Proof.
  intros Hc [Hst Hnext Hinc Hd] Hg Hpre. unfold quiet_x, append. case_bool_decide; [unfold ret; by exists tt, x|].
  unfold pbind at 1, gets. unfold pbind at 1. rewrite on_fs_run, Hnext. destruct (quiet_chunk (x_fs x) batches (len batches) rows) as ([] & s1 & E1 & Hc1); [done..|].
  rewrite E1. apply (write_chunk _ _ _ batches) in E1 as (H1 & _ & Hd1 & _); [|done..]. unfold pbind at 1, modify. unfold pbind at 1, gets.
  eapply quiet_save_metadata; [done|exact H1|done].
Qed.

Lemma quiet_mark_complete x batches : calm (x_fs x) -> exact x batches -> quiet_x (mark_complete temporary_middle directory) x.
Proof. intros Hc [[Hst _ _ Hd] _ _ _ _]. unfold quiet_x, mark_complete. unfold pbind at 1, gets. unfold pbind at 1. by eapply quiet_save_metadata. Qed.

(** ** All chunks are there

    As long as the numbers of the chunks have the eight digits of their names, the chunks are listed
    in their order, and a resumed run reads all of them. *)

Lemma str_leb_prefix p a b : str_leb a b = true -> str_leb (p ++ a) (p ++ b) = true.
Proof. intros H. induction p as [|c p IH]; [done|]. simpl app. apply str_leb_cons. by right. Qed.

Definition chunk_name (i : nat) : str := u "chunk-" ++ zero_pad 8 (Z.of_nat i) ++ u ".parquet".

Lemma chunk_names_sorted k n : Z.of_nat (k + n) <= 10 ^ 8 -> StronglySorted str_le (chunk_name <$> seq k n).
Proof.
  revert k. induction n as [|n IH]; intros k Hk; simpl; [constructor|]. constructor; [apply IH; lia|].
  apply Forall_forall. intros y (i & -> & Hi%elem_of_seq)%list_elem_of_fmap. unfold str_le, chunk_name. apply str_leb_prefix, zero_pad_leb; [lia..|].
  change (10 ^ Z.of_nat 8) with (10 ^ 8). lia.
Qed.

Lemma chunk_files_ordered x batches :
  stored (tree (x_fs x)) batches -> present x batches -> len batches <= 10 ^ 8 ->
  chunk_files directory (tree (x_fs x)) = (fun i => chunk_file directory (Z.of_nat i)) <$> seq 0 (length batches).
Proof.
  intros Hst Hp Hlen. pose proof (present_chunk_files x batches Hst Hp) as Hperm. unfold chunk_files, glob_pattern in Hperm |- *.
  set (names := sorted_strs _) in *.
  assert (Hn : names = chunk_name <$> seq 0 (length batches)).
  { apply (StronglySorted_unique str_le); [apply sorted_strs_sorted|apply chunk_names_sorted; unfold len in Hlen; lia|].
    apply (fmap_Permutation path_name) in Hperm. rewrite <- !list_fmap_compose in Hperm.
    assert (E1 : (path_name ∘ child directory) <$> names = names).
    { rewrite <- (list_fmap_id names) at 2. apply list_fmap_ext. intros i y _. apply path_name_child. }
    rewrite E1 in Hperm. rewrite Hperm. apply reflexive_eq, list_fmap_ext. intros i y _. cbn. unfold chunk_file, chunk_name. apply path_name_child. }
  rewrite Hn, <- list_fmap_compose. apply list_fmap_ext. by intros i y _.
Qed.

Lemma append_metadata x o x' rows :
  rows ≠ [] -> identified (x_metadata x) -> append temporary_middle directory rows x = (o, x') ->
  identified (x_metadata x') /\ (o = Ok tt -> read_json metadata_file (tree (x_fs x')) = Ok (VDict (x_metadata x'))).
Proof.
  intros Hr Hid. unfold append. rewrite bool_decide_eq_false_2 by done. unfold pbind at 1, gets. unfold pbind at 1. rewrite on_fs_run.
  destruct (atomic_write_table _ _ _ _ (x_fs x)) as [[[]|e] fs1]; [|intros [= <- <-]; done].
  unfold pbind at 1, modify. unfold pbind at 1, gets. cbn [with_next_chunk x_fs x_metadata x_next_chunk].
  set (m' := dupdate (x_metadata x) _).
  assert (Hm' : identified m') by (apply dupdate_identified; [done|]; apply (bool_decide_unpack _); vm_compute; exact I). clearbody m'.
  unfold save_metadata, pbind, modify. rewrite on_fs_run. cbn [with_metadata with_next_chunk x_fs x_metadata x_next_chunk]. fold metadata_file.
  destruct (atomic_write_json _ _ _ fs1) as [o2 fs2] eqn:E. intros [= <- <-]. cbn [x_fs x_metadata]. split; [done|].
  intros ->. apply atomic_write_json_replaced in E; [|done]. destruct E as [[[[e ?] _]|(_ & c & -> & Ht)] _ _]; [done|]. unfold read_json. by rewrite Ht.
Qed.

(** A process that opens what another one left of these batches, without faults, loads their rows. *)
Lemma resumed_rows x batches :
  weak x batches -> present x batches -> len batches <= 10 ^ 8 -> metadata_at (tree (x_fs x)) (x_metadata x) ->
  exists m n fs x', open_extraction temporary_middle directory identity (mkFs (tree (x_fs x)) []) = (Ok (m, n), fs) /\
    load_rows temporary_middle directory identity (mkExtraction fs m n) = (Ok (mjoin batches), x').
Proof.
  intros [Hst _ Hinc Hdir] Hp Hlen [Hread Hid]. set (t := tree (x_fs x)) in *. pose proof (chunk_files_ordered x batches Hst Hp Hlen) as Hfiles. fold t in Hfiles.
  destruct (primitive_calm (mkdirs (prefixes directory)) (mkFs t []) (Forall_nil_2 _)) as (s1 & E1 & Et1 & Hc1). simpl in E1, Et1.
  rewrite mkdirs_all_dirs in E1, Et1 by done. simpl in Et1.
  destruct (read_document metadata_file s1) as [ov s2] eqn:E2. pose proof E2 as E2'. apply read_document_cases in E2' as (Et2 & _ & Hcalm).
  destruct (Hcalm Hc1) as [Hc2 Hv]. rewrite Et1, Hread in Hv. subst ov. rewrite Et1 in Et2.
  destruct (chunk_indices_stored t batches Hst) as [l Hl].
  exists (x_metadata x), (next_chunk_after l), s2.
  assert (Hopen : open_extraction temporary_middle directory identity (mkFs t []) = (Ok (x_metadata x, next_chunk_after l), s2)).
  { unfold open_extraction, mkdir. unfold pbind at 1. rewrite E1. unfold pbind at 1, prepare_extraction. fold metadata_file. unfold pbind at 1. rewrite E2.
    unfold identified in Hid. rewrite Hid. unfold pbind, ret, reads. by rewrite Et2, Hl. }
  assert (Hrows : read_extraction_rows (chunk_files directory t) polygon_v2_schema t = Ok (mjoin batches)).
  { destruct (read_extraction_rows (chunk_files directory t) polygon_v2_schema t) as [rows|e] eqn:Er.
    - destruct (read_rows_spec t batches rows Hst Er) as (-> & _). by rewrite Hfiles, length_fmap, length_seq, take_ge.
    - unfold read_extraction_rows in Er. rewrite Hfiles in Er at 1. destruct (chunks_read t batches Hst) as [rows Hr].
      assert (Hi : mapM chunk_index ((fun i => chunk_file directory (Z.of_nat i)) <$> seq 0 (length batches)) = Ok (Z.of_nat <$> seq 0 (length batches))).
      { apply mapM_Forall2. apply Forall2_fmap. apply Forall_Forall2_diag, Forall_forall. intros i _. apply chunk_index_file. lia. }
      rewrite Hi in Er. cbn [mbind outcome_bind] in Er. rewrite length_fmap, length_seq, bool_decide_eq_true_2 in Er by done.
      cbn [negb raise_if mbind outcome_bind] in Er. by rewrite Hr in Er. }
  assert (Hcm : complete (x_metadata x) = false) by (apply Hinc; by split).
  unfold load_rows. unfold pbind at 1, gets at 1. unfold pbind at 1, gets at 1. unfold pbind at 1. unfold try_except. unfold pbind at 1. rewrite on_fs_run.
  cbn [x_fs x_metadata x_next_chunk]. destruct (reading _ s2) as [o3 s3] eqn:E3. apply reading_cases in E3 as (Et3 & _ & Hcalm3). destruct (Hcalm3 Hc2) as [Hc3 ->].
  rewrite Et2, Hrows. unfold pbind at 1, lift. unfold validate_complete_extraction_accounting. rewrite Hcm. cbn [andb raise_if]. unfold ret at 1.
  unfold pbind at 1. rewrite Et2 in Et3. destruct (quiet_save_metadata (dupdate (x_metadata x)
    [(u "next_chunk", VInt (len (chunk_files directory t))); (u "chunk_count", VInt (len (chunk_files directory t))); (u "row_count", VInt (len (mjoin batches : list pydict)))])
    (mkExtraction s3 (x_metadata x) (next_chunk_after l)) batches Hc3) as ([] & x4 & E4 & _); [simpl; by rewrite Et3..|].
  exists x4. split; [exact Hopen|]. by rewrite E4.
Qed.

(** C40: A batch can be stored twice.  The scan has a batch of rows that are pending; its checkpoint
    is in step with the chunks on disk, which are the batches before it.  When writing the batch
    raises although its chunk is already in place - the write of the metadata that follows it failed -
    and the handler of the scan then flushes what is pending, a process that opens the checkpoint
    again and loads it, without any fault, gets the earlier rows and then the rows of the batch
    twice. *)
Theorem failed_metadata_write_repeats_rows every s s1 s2 e batches :
  exact (sc_checkpoint s) batches -> Forall good (sc_pending s) ->
  firsts ∅ (ids (mjoin batches ++ sc_pending s)) `prefix_of` wanted -> len batches + 2 <= 10 ^ 8 ->
  checkpoint_if_due temporary_middle true directory every s = (Raise e, s1) ->
  tree (x_fs (sc_checkpoint s1)) !! chunk_file directory (len batches) ≠ None ->
  flush_checkpoint temporary_middle true directory s1 = (Ok tt, s2) ->
  exists m n fs x', open_extraction temporary_middle directory identity (mkFs (tree (x_fs (sc_checkpoint s2))) []) = (Ok (m, n), fs) /\
    load_rows temporary_middle directory identity (mkExtraction fs m n) = (Ok (mjoin batches ++ sc_pending s ++ sc_pending s), x').
Proof.
  intros Hex Hgood Hpre Hlen. rewrite <- mjoin_snoc in Hpre. unfold checkpoint_if_due. unfold pbind at 1, gets. cbn [negb orb].
  destruct (_ <? _); [done|]. unfold pbind at 1. rewrite on_checkpoint_run.
  destruct (append _ _ _ (sc_checkpoint s)) as [[[]|e1] x1] eqn:E1; [done|]. intros [= -> <-]. cbn [sc_checkpoint].
  assert (Hne : sc_pending s ≠ []) by (intros H0; unfold append in E1; by rewrite bool_decide_eq_true_2 in E1).
  destruct (append_metadata _ _ _ _ Hne (ex_identified _ _ Hex) E1) as [Hid1 _].
  destruct (append_spec _ _ _ batches _ (ex_weak _ _ Hex) Hgood Hpre E1) as (b1 & Hb1 & Hw1 & Hp1 & _). specialize (Hp1 (ex_chunks _ _ Hex)).
  intros Hchunk. assert (b1 = batches ++ [sc_pending s]) as ->.
  { destruct Hb1 as [->|]; [|done]. exfalso. destruct (st_chunks _ _ (wk_stored _ _ Hw1) _ (elem_of_chunk_files _ _ Hchunk)) as (i & b & _ & Hi & Heq & _).
    apply lookup_lt_Some in Hi. apply chunk_file_inj in Heq; unfold len in *; lia. }
  unfold flush_checkpoint. unfold pbind at 1, gets. cbn iota. rewrite on_checkpoint_run. cbn [sc_checkpoint sc_pending].
  destruct (append _ _ _ x1) as [o2 x2] eqn:E2. intros [= -> <-]. cbn [sc_checkpoint].
  destruct (append_metadata _ _ _ _ Hne Hid1 E2) as [Hid2 Hread]. specialize (Hread eq_refl).
  assert (Hpre2 : firsts ∅ (ids (mjoin ((batches ++ [sc_pending s]) ++ [sc_pending s]))) `prefix_of` wanted).
  { rewrite mjoin_snoc. rewrite mjoin_snoc in Hpre |- *. rewrite !ids_app, <- app_assoc, firsts_repeat. by rewrite <- ids_app. }
  destruct (append_spec _ _ _ _ _ Hw1 Hgood Hpre2 E2) as (b2 & Hb2 & Hw2 & Hp2 & Hok). specialize (Hp2 Hp1).
  destruct (Hok eq_refl) as [Hj _]. rewrite mjoin_snoc, <- app_assoc in Hj. rewrite <- Hj. apply (resumed_rows x2 b2); [done|done| |by split].
  unfold len in *. destruct Hb2 as [->| ->]; rewrite !length_app; simpl; lia.
Qed.

Section QuietScan.
Context {candidate : Type} (key : candidate -> option str) (candidates : list candidate).
Hypothesis wanted_is : wanted = firsts ∅ (omap key candidates).
Context (to_row : candidate -> outcome (option pydict)) (checkpoint_every : Z).
Hypothesis converts : forall c, c ∈ candidates -> exists r, to_row c = Ok r /\ text_or "polygon_id" <$> r = key c /\ (forall row, r = Some row -> good row).

Lemma converts_or_raises c r : c ∈ candidates -> to_row c = Ok r -> text_or "polygon_id" <$> r = key c /\ (forall row, r = Some row -> good row).
Proof. intros Hc Hr. destruct (converts c Hc) as (r' & Hr' & ?). rewrite Hr in Hr'. by injection Hr' as <-. Qed.

Lemma quiet_row s done_ c rest batches :
  calm (x_fs (sc_checkpoint s)) -> candidates = done_ ++ c :: rest -> session key s done_ batches ->
  exists s', append_extraction_row temporary_middle to_row None true directory checkpoint_every c s = (Ok tt, s') /\ calm (x_fs (sc_checkpoint s')).
Proof.
  intros Hc Hcs Hs. destruct (append_extraction_row temporary_middle to_row None true directory checkpoint_every c s) as [o s'] eqn:E. exists s'.
  revert E. destruct (converts c) as (r & Hr & Hk & Hg); [rewrite Hcs; set_solver|]. pose proof Hs as [Hex Hrows Hseen Hpend Hdone (n & Hn & Hd)].
  pose proof (firsts_step wanted (ids (sc_rows s)) (omap key done_)) as Hstep.
  unfold append_extraction_row. unfold pbind at 1, gets at 1. cbn [limit_reached]. unfold pbind at 1, lift at 1. rewrite Hr.
  destruct r as [row|]; [|unfold ret; by intros [= <- <-]]. destruct (good_polygon_id row (Hg row eq_refl)) as (v & Hv & Ht). unfold pbind at 1, lift at 1. rewrite Hv.
  unfold pbind at 1, gets at 1. case_bool_decide as Hin; [unfold ret; by intros [= <- <-]|]. unfold pbind at 1, modify. unfold checkpoint_if_due. unfold pbind at 1, gets. cbn [negb orb].
  destruct (_ <? _); [unfold ret; by intros [= <- <-]|]. unfold pbind at 1. rewrite on_checkpoint_run. unfold keep_row at 1. cbn [sc_checkpoint sc_pending keep_row].
  rewrite Hseen, elem_of_list_to_set in Hin. cbn [option_fmap option_map fmap] in Hk.
  assert (Hkey : omap key (done_ ++ [c]) = omap key done_ ++ [py_str v]) by (rewrite omap_snoc, <- Hk; simpl; by rewrite Ht).
  specialize (Hstep (py_str v) n Hn Hd). rewrite <- Hkey in Hstep.
  assert (Hpre : firsts ∅ (omap key (done_ ++ [c])) `prefix_of` wanted).
  { rewrite wanted_is, Hcs, (cons_middle c done_ rest), app_assoc. destruct (omap_app_prefix key (done_ ++ [c]) rest) as [w ->]. apply firsts_prefix. }
  specialize (Hstep Hpre). rewrite wanted_is in Hstep at 1. specialize (Hstep (firsts_NoDup _ _) Hdone). rewrite decide_False in Hstep by done. destruct Hstep as [Hf _].
  destruct (quiet_append (sc_checkpoint s) batches (sc_pending s ++ [row])) as ([] & x1 & E1 & Hc1); [done|by destruct Hex| | |].
  - apply Forall_app. split; [done|]. constructor; [by apply Hg|done].
  - rewrite mjoin_snoc, app_assoc, <- Hrows, ids_app. simpl. rewrite Ht, Hf. apply prefix_of_take.
  - rewrite E1. unfold modify. by intros [= <- <-].
Qed.

Lemma quiet_consume done_ rest s batches :
  calm (x_fs (sc_checkpoint s)) -> candidates = done_ ++ rest -> session key s done_ batches ->
  exists s', consume_candidates temporary_middle to_row None true directory checkpoint_every (reader_of rest) s = (Ok tt, s') /\ calm (x_fs (sc_checkpoint s')).
Proof.
  revert done_ s batches. induction rest as [|c rest IH]; intros done_ s batches Hc Hcs Hs; [by exists s|]. cbn [reader_of foldr consume_candidates]. unfold pbind.
  destruct (quiet_row s done_ c rest batches Hc Hcs Hs) as (s1 & E1 & Hc1). rewrite E1.
  apply (append_row_spec key candidates wanted_is to_row checkpoint_every converts_or_raises _ done_ _ rest batches) in E1 as [b1 H1]; [|done|done].
  apply (IH (done_ ++ [c]) s1 b1); [done|by rewrite <- app_assoc|done].
Qed.

Lemma quiet_extract s batches :
  calm s -> stored (tree s) batches ->
  exists rows s', extract_v2_pbf temporary_middle to_row None true directory identity checkpoint_every (reader_of candidates) s = (Ok rows, s').
Proof.
  intros Hc Hst. unfold extract_v2_pbf. destruct (quiet_open s batches Hc Hst) as ([m n] & s1 & E1 & Hc1). rewrite E1.
  apply (open_spec _ _ _ batches) in E1 as (b1 & H1 & Hd & Hm & l & Hl & Hn); [|done]. unfold scan_source. unfold pbind at 1. rewrite on_checkpoint_run.
  cbn [sc_checkpoint sc_rows sc_seen sc_pending]. destruct (quiet_load (mkExtraction s1 m n) b1 l) as (rows & x1 & E2 & Hc2); [done..|]. rewrite E2.
  apply (load_rows_spec _ _ _ b1 l) in E2 as [_ Hload]; [|done..]. specialize (Hload rows eq_refl).
  unfold pbind at 1, modify. unfold pbind at 1, gets at 1. cbn [with_rows sc_checkpoint sc_rows sc_seen sc_pending andb].
  destruct Hload as [(Hcm & _)|(b2 & Hex & Hrows)]; [rewrite Hcm; unfold ret; eauto|]. rewrite (ex_complete _ _ Hex).
  set (s0 := mkScan x1 rows (list_to_set (text_or "polygon_id" <$> rows)) []). pose proof (session_start key x1 b2 rows Hex Hrows : session key s0 [] b2) as Hsess.
  change (with_rows _ _ _) with s0. destruct (quiet_consume [] candidates s0 b2 Hc2 eq_refl Hsess) as (s2 & E3 & Hc3). unfold pbind at 1, on_error. rewrite E3.
  destruct (consume_spec key candidates wanted_is to_row checkpoint_every converts_or_raises (reader_of candidates) [] candidates s0 b2 (Ok tt) s2
    (reader_of_reads candidates) eq_refl Hsess E3) as [b3 H3]. pose proof H3 as [Hex3 Hrows3 _ Hpend3 _ (k & Hk & _)].
  unfold finish_checkpoint. unfold pbind at 1. unfold pbind at 1, gets at 1. unfold pbind at 1. rewrite on_checkpoint_run.
  assert (Hpre : firsts ∅ (ids (mjoin (b3 ++ [sc_pending s2]))) `prefix_of` wanted) by (rewrite mjoin_snoc, <- Hrows3, Hk; apply prefix_of_take).
  destruct (quiet_append (sc_checkpoint s2) b3 (sc_pending s2)) as ([] & x3 & E4 & Hc4); [done|by destruct Hex3|done|done|]. rewrite E4.
  apply (append_spec _ _ _ b3) in E4 as (b4 & _ & _ & _ & Hok); [|by destruct Hex3|done|done]. destruct (Hok eq_refl) as [_ Hx]. specialize (Hx Hex3).
  rewrite on_checkpoint_run. cbn [sc_checkpoint sc_rows sc_seen sc_pending]. destruct (quiet_mark_complete x3 b4 Hc4 Hx) as ([] & x5 & E5 & _). rewrite E5.
  unfold gets. eauto.
Qed.
End QuietScan.

(** A directory without files holds no batches. *)
Lemma stored_initially t :
  (forall name, t !! child directory name = None) -> (forall p c, p ∈ prefixes directory -> t !! p ≠ Some (File c)) -> stored t [].
Proof.
  intros Hno Hp. apply stored_nothing; [| |by intros name; rewrite Hno|done|].
  - intros q Hq. destruct (chunk_files_elem _ _ Hq) as (Hn & _ & _ & name & ->). by rewrite Hno in Hn.
  - intros m [Hr _]. unfold read_json, metadata_file, extraction_metadata in Hr. by rewrite Hno in Hr.
  - intros e. unfold read_json, metadata_file, extraction_metadata. rewrite Hno. intros [= <-]. reflexivity.
Qed.
End Extraction.

Lemma extraction_identity_equal source f limit : py_eqb (VDict (extraction_identity source f limit)) (VDict (extraction_identity source f limit)) = true.
Proof.
  change (str_eqb CHECKPOINT_CONTRACT_VERSION CHECKPOINT_CONTRACT_VERSION && (py_eqb (VDict (checkpoint_fingerprint f (path_name source))) (VDict (checkpoint_fingerprint f (path_name source))) &&
    (py_eqb (match limit with Some n => VInt n | None => VNone end) (match limit with Some n => VInt n | None => VNone end) && true)) = true).
  change (py_eqb (VDict (checkpoint_fingerprint f (path_name source))) (VDict (checkpoint_fingerprint f (path_name source)))) with
    (str_eqb (path_name source) (path_name source) && (bool_decide (Some (st_size f) = Some (st_size f)) && (bool_decide (Some (st_mtime_ns f) = Some (st_mtime_ns f)) &&
      (bool_decide (Some (st_ctime_ns f) = Some (st_ctime_ns f)) && (bool_decide (Some (st_inode f) = Some (st_inode f)) && true))))).
  unfold str_eqb. rewrite !bool_decide_eq_true_2 by done. destruct limit; simpl; [by rewrite bool_decide_eq_true_2|done].
Qed.

(** * Any number of interrupted runs *)

(** A run: its conversion of candidates, its batch size, what its reader delivers and how it ends, and
    what fails on disk. *)
Record Attempt (candidate : Type) := {
  at_row : candidate -> outcome (option pydict); at_every : Z; at_reader : Reader candidate; at_faults : list (option exn) }.
Arguments at_row {candidate}.
Arguments at_every {candidate}.
Arguments at_reader {candidate}.
Arguments at_faults {candidate}.

Section Attempts.
Context {RT : Runtime} {FF : FileFormats} {PQ : Parquet} {candidate : Type}.
Context (temporary_middle : gmap path node -> path -> str) (directory : path) (identity : pydict).

Definition attempt_tree (a : Attempt candidate) (t : gmap path node) : gmap path node :=
  tree (extract_v2_pbf temporary_middle (at_row a) None true directory identity (at_every a) (at_reader a) (mkFs t (at_faults a))).2.
Definition after_attempts (attempts : list (Attempt candidate)) (t : gmap path node) : gmap path node := foldl (fun t a => attempt_tree a t) t attempts.
End Attempts.

(** C37: An interrupted extraction loses no polygon.  A source is extracted without a limit by any
    number of runs, each with its own conversion and batch size, with a reader that delivers the
    candidates in order and may raise after any of them (or a conversion that raises), and with any
    failing system calls; whatever they leave on disk, a last run without faults whose reader delivers
    everything returns, and its rows have exactly the identifiers of the source, in the order of an
    uninterrupted run; only repetitions are possible.  (With a limit the repetitions count towards it,
    so that polygons can be missing: see [limited_extraction_misses_a_polygon].) *)
Theorem interrupted_extraction_completes `{Runtime} `{FileFormats} `{ParquetLaws} {candidate : Type} temporary_middle root source stat
    (good : pydict -> Prop) (key : candidate -> option str) candidates (attempts : list (Attempt candidate)) to_row every t :
  let directory := extraction_directory root source in
  let identity := extraction_identity source stat None in
  let converted := fun c r => text_or "polygon_id" <$> r = key c /\ (forall row, r = Some row -> good row) in
  (forall t p, t !! temporary_name temporary_middle p t = None) ->
  (forall r, good r -> fits polygon_v2_schema r) -> (forall rows, Forall good rows -> exists b, encode_table polygon_v2_schema rows = Ok b) ->
  (forall name, t !! child directory name = None) -> (forall p c, p ∈ prefixes directory -> t !! p ≠ Some (File c)) ->
  Forall (fun a => reads_source (at_reader a) candidates /\ forall c r, c ∈ candidates -> at_row a c = Ok r -> converted c r) attempts ->
  (forall c, c ∈ candidates -> exists r, to_row c = Ok r /\ converted c r) ->
  exists rows s', extract_v2_pbf temporary_middle to_row None true directory identity every (reader_of candidates)
      (mkFs (after_attempts temporary_middle directory identity attempts t) []) = (Ok rows, s') /\
    firsts ∅ (ids rows) = firsts ∅ (omap key candidates).
Proof.
  intros directory identity converted Hfresh Hfits Henc Hno Hpath Hall Hlast.
  set (wanted := firsts ∅ (omap key candidates)).
  pose proof (stored_initially directory identity good wanted t Hno Hpath) as Hst. revert Hst. generalize ([] : list (list pydict)) as batches.
  clear Hno Hpath. revert t. induction Hall as [|a attempts [Hreads Ha] _ IH]; intros t batches Hst.
  - destruct (quiet_extract temporary_middle Hfresh directory identity (extraction_identity_equal _ _ _) good wanted Hfits Henc key candidates eq_refl to_row every Hlast
      (mkFs t []) batches) as (rows & s' & E); [constructor|done|]. exists rows, s'. split; [done|].
    by eapply (extract_spec temporary_middle Hfresh directory identity (extraction_identity_equal _ _ _) good wanted Hfits key candidates eq_refl to_row every
      (converts_or_raises good key candidates to_row Hlast) (reader_of candidates) (mkFs t []) _ _ batches (reader_of_reads candidates) Hst E).
  - unfold after_attempts. cbn [foldl]. unfold attempt_tree at 2. destruct (extract_v2_pbf _ (at_row a) _ _ _ _ _ _ _) as [o s1] eqn:E.
    destruct (extract_spec temporary_middle Hfresh directory identity (extraction_identity_equal _ _ _) good wanted Hfits key candidates eq_refl (at_row a) (at_every a) Ha (at_reader a)
      (mkFs t (at_faults a)) _ _ batches Hreads Hst E) as [[b1 Hb1] _]. by apply (IH (tree s1) b1).
Qed.
