(* ===== verification/FetchProofs.v ===== *)
(** The fetch checkpoint of a region: over any sequence of openings with different inputs, saves and
    clearings, each failing anywhere, a result that is loaded was saved for the inputs of the open
    checkpoint; and a saved result is loaded after a restart. *)
From stdpp Require Import gmap sorting.
From S2P Require Import Prelude Py PyStr PyText Fs Keeps Calm Artifacts Paths Atomic LinkTransaction PolygonLinks RecoveryMerge Tables Integrity Checkpoints CheckpointProofs.

(** * Directories and files *)

Lemma mkdir_grown p s o s' : mkdir p s = (o, s') ->
  (forall q n, tree s !! q = Some n -> tree s' !! q = Some n) /\ (forall q n, tree s !! q = None -> tree s' !! q = Some n -> n = Dir /\ q ∈ prefixes p) /\
  (o = Ok tt -> Forall (fun q => tree s' !! q = Some Dir) (prefixes p)).
Proof.
  intros [(e & -> & ->)|E]%primitive_cases; [split_and!; [done|congruence|done]|]. split_and!.
  - intros q n Hq. destruct (mkdirs_lookup _ _ _ _ q E) as [->|(? & _)]; congruence.
  - intros q n Hq Hn. destruct (mkdirs_lookup _ _ _ _ q E) as [?|(_ & ? & ?)]; [congruence|]. split; [congruence|done].
  - intros ->. by eapply mkdirs_dirs.
Qed.

Lemma rmdir_cases p s o s' : suppress_os_error (rmdir p) s = (o, s') ->
  tree s' = tree s \/ tree s !! p = Some Dir /\ tree s' = delete p (tree s) /\ forall name, tree s !! child p name = None.
Proof.
  unfold suppress_os_error, try_except. destruct (rmdir p s) as [o1 s1] eqn:E. intros H. assert (Hs : s1 = s').
  { destruct o1; [by injection H|]. destruct (isinstance e COSError); by injection H. }
  subst s1. apply primitive_cases in E as [(e & _ & ->)|E]; [by left|]. unfold rmdir_tree in E. destruct (tree s !! p) as [[c|]|] eqn:Ep; [injection E as _ <-; by left| |injection E as _ <-; by left].
  case_bool_decide as Hi; [|injection E as _ <-; by left]. injection E as _ <-. right. split_and!; [done|done|]. intros name.
  destruct (tree s !! child p name) eqn:En; [|done]. exfalso. assert (Hin : child p name ∈ iterdir p (tree s)) by (apply elem_of_iterdir; exists name; by rewrite En).
  rewrite Hi in Hin. by apply elem_of_nil in Hin.
Qed.

Lemma json_not_temporary name : endswith (u ".json") name = true -> endswith (u ".tmp") name = false.
Proof.
  unfold endswith, startswith. intros [r Hr]%bool_decide_eq_true. apply strip_prefix_Some in Hr. apply bool_decide_eq_false. intros [r' Hr'].
  apply strip_prefix_Some in Hr'. rewrite Hr in Hr'. by injection Hr'.
Qed.

Lemma json_matches name : endswith (u ".json") name = true -> matches (Around "" ".json") name = true.
Proof.
  intros He. unfold matches. apply andb_true_iff. split; [by rewrite He, andb_true_r|]. apply Z.leb_le. unfold endswith, startswith in He.
  apply bool_decide_eq_true in He as [r Hr]. apply strip_prefix_Some in Hr. apply (f_equal length) in Hr. rewrite length_app, !length_reverse in Hr.
  unfold len. change (length (u "")) with 0%nat. lia.
Qed.

(** Only removing: files that are there afterwards were there. *)
Definition shrinks (t t' : gmap path node) : Prop := forall q n, t' !! q = Some n -> t !! q = Some n.
Lemma shrinks_refl t : shrinks t t.
Proof. by intros q n. Qed.
Lemma shrinks_trans t1 t2 t3 : shrinks t1 t2 -> shrinks t2 t3 -> shrinks t1 t3.
Proof. intros H1 H2 q n Hq. by apply H1, H2. Qed.

Lemma shrinks_matching p patterns s o s' : remove_matching p patterns s = (o, s') -> shrinks (tree s) (tree s').
Proof. intros [H _]%remove_matching_subset q n Hq. destruct (H q) as [<-|[? _]]; congruence. Qed.
Lemma shrinks_rmdir p s o s' : suppress_os_error (rmdir p) s = (o, s') -> shrinks (tree s) (tree s').
Proof. intros [->|(_ & -> & _)]%rmdir_cases; [apply shrinks_refl|]. intros q n [_ ?]%lookup_delete_Some. done. Qed.
Lemma unlink_tree_cases p s o s' : unlink p s = (o, s') -> tree s' = tree s \/ tree s' = delete p (tree s).
Proof.
  intros [(e & _ & ->)|E]%primitive_cases; [by left|]. unfold unlink_tree in E. destruct (tree s !! p) as [[c|]|]; injection E as _ <-; auto.
Qed.

(** * Payloads *)

#[global] Instance WikipediaTagRef_eq_dec : EqDecision WikipediaTagRef.
Proof. solve_decision. Defined.

Lemma ref_payload_eqb a b : py_eqb (VDict (ref_payload a)) (VDict (ref_payload b)) = bool_decide (a = b).
Proof.
  change (str_eqb (tr_language a) (tr_language b) && (str_eqb (tr_title a) (tr_title b) && (str_eqb (tr_raw_key a) (tr_raw_key b) && (str_eqb (tr_raw_value a) (tr_raw_value b) && true))) = bool_decide (a = b)).
  unfold str_eqb. destruct a, b. simpl. repeat (destruct (bool_decide _) eqn:E at 1; [apply bool_decide_eq_true in E as ->|apply bool_decide_eq_false in E; symmetry; apply bool_decide_eq_false; congruence]).
  symmetry. by apply bool_decide_eq_true.
Qed.

Lemma refs_eqb a b : py_eqb (VList (expected_direct_refs a)) (VList (expected_direct_refs b)) = bool_decide (a = b).
Proof.
  revert b. induction a as [|x a IH]; intros [|y b]; [done..|].
  change (py_eqb (VDict (ref_payload x)) (VDict (ref_payload y)) && py_eqb (VList (expected_direct_refs a)) (VList (expected_direct_refs b)) = bool_decide (x :: a = y :: b)).
  rewrite ref_payload_eqb, IH. destruct (bool_decide (x = y)) eqn:E1, (bool_decide (a = b)) eqn:E2; symmetry;
    rewrite ?bool_decide_eq_true, ?bool_decide_eq_false in *; try apply bool_decide_eq_true; try apply bool_decide_eq_false; congruence.
Qed.

Lemma direct_rows_of l : direct_rows (VList (VDict <$> l)) = Some l.
Proof. unfold direct_rows. induction l as [|x l IH]; [done|]. rewrite fmap_cons. cbn [mapM]. simpl. by rewrite IH. Qed.

(** What comes back of a result: its statuses belong to the references that were asked for. *)
Definition restored (refs : list WikipediaTagRef) (r : DirectEnrichmentResult) : DirectEnrichmentResult :=
  {| dr_documents := dr_documents r; dr_links := dr_links r; dr_deferred_errors := [];
     dr_statuses := zip_with (fun s ref => {| ds_ref := ref; ds_status := ds_status s; ds_error := ds_error s; ds_reused_v1 := ds_reused_v1 s |}) (dr_statuses r) refs |}.

Lemma decode_statuses_of `{Runtime} l refs :
  decode_direct_statuses ((VDict ∘ status_payload) <$> l) refs =
    if bool_decide (length l = length refs) then Some (dr_statuses (restored refs (Build_DirectEnrichmentResult [] [] l []))) else None.
Proof.
  revert refs. induction l as [|x l IH]; intros [|ref refs]; [done..|]. cbn [fmap list_fmap decode_direct_statuses].
  change (direct_status ((VDict ∘ status_payload) x) ref) with (Some {| ds_ref := ref; ds_status := ds_status x; ds_error := ds_error x; ds_reused_v1 := ds_reused_v1 x |}).
  simpl. rewrite IH. destruct (bool_decide (length l = length refs)) eqn:E; simpl.
  - apply bool_decide_eq_true in E. by rewrite bool_decide_eq_true_2 by congruence.
  - apply bool_decide_eq_false in E. by rewrite bool_decide_eq_false_2 by congruence.
Qed.

Lemma decode_rows_of id refs r : load_direct_rows (VDict (direct_payload id refs r)) = Some (dr_documents r, dr_links r).
Proof.
  change (load_direct_rows (VDict (direct_payload id refs r))) with
    (documents ← direct_rows (VList (VDict <$> dr_documents r)); links ← direct_rows (VList (VDict <$> dr_links r)); Some (documents, links)).
  by rewrite !direct_rows_of.
Qed.

Lemma decode_payload `{Runtime} id' refs' r id refs :
  decode_direct (VDict (direct_payload id' refs' r)) id refs =
    if bool_decide (id' = id) && bool_decide (refs' = refs) && bool_decide (length (dr_statuses r) = length refs) then Some (restored refs r) else None.
Proof.
  unfold decode_direct. change (direct_payload_matches (VDict (direct_payload id' refs' r)) id (expected_direct_refs refs))
    with (str_eqb id' id && py_eqb (VList (expected_direct_refs refs')) (VList (expected_direct_refs refs))). rewrite refs_eqb. unfold str_eqb.
  destruct (bool_decide (id' = id)), (bool_decide (refs' = refs)); cbn [negb andb]; [|done..].
  change (load_direct_statuses (VDict (direct_payload id' refs' r)) refs) with (decode_direct_statuses ((VDict ∘ status_payload) <$> dr_statuses r) refs).
  rewrite decode_statuses_of, decode_rows_of. by destruct (bool_decide (length _ = _)).
Qed.

(** * One region's directory *)

Section Region.
Context {RT : Runtime} {FF : FileFormats}.
Context (temporary_middle : gmap path node -> path -> str).
Hypothesis temporary_fresh : forall t p, t !! temporary_name temporary_middle p t = None.
Context (d : path).

(** Checkpoints of this region, as [open_fetch_checkpoint] makes them. *)
Definition fetch_of (fingerprint : str) (full_text : bool) : RegionFetch := mkRegionFetch d (Some fingerprint) full_text.
Let metadata_file := child d (u "metadata.json").
Let direct := child d (u "direct").
Let sections := child d (u "sections").
Definition roots : list path := [direct; sections].

(** The files that hold results. *)
Definition data_file (q : path) : Prop := exists root name, root ∈ roots /\ q = child root name /\ endswith (u ".json") name = true.

Lemma root_cases root : root ∈ roots -> root = direct \/ root = sections.
Proof. unfold roots. rewrite elem_of_cons, list_elem_of_singleton. done. Qed.

Lemma child_injective a b x y : child a x = child b y -> a = b /\ x = y.
Proof. unfold child. intros H. apply app_inj_tail in H. done. Qed.

Lemma data_file_deep q : data_file q -> (length q = length d + 2)%nat.
Proof. intros (root & name & Hr & -> & _). destruct (root_cases _ Hr) as [->| ->]; unfold direct, sections, child; rewrite !length_app; simpl; lia. Qed.

Lemma data_file_metadata q : data_file q -> q ≠ metadata_file.
Proof. intros H%data_file_deep ->. unfold metadata_file, child in H. rewrite length_app in H. simpl in H. lia. Qed.

Lemma data_file_not_prefix q p : data_file q -> p ∈ roots \/ p = d -> q ∉ prefixes p.
Proof.
  intros Hq%data_file_deep Hp Hin%prefixes_shorter. assert (length p <= length d + 1)%nat; [|lia].
  destruct Hp as [Hp| ->]; [|lia]. destruct (root_cases _ Hp) as [->| ->]; unfold direct, sections, child; rewrite length_app; simpl; lia.
Qed.

Lemma data_file_not_temporary q : data_file q -> temporary_like q = false.
Proof.
  intros (root & name & _ & -> & He). unfold temporary_like. rewrite path_name_child, (json_not_temporary _ He). apply andb_false_r.
Qed.

(** A directory with results exists. *)
Definition rooted (t : gmap path node) : Prop := forall root name, root ∈ roots -> endswith (u ".json") name = true -> t !! child root name ≠ None -> t !! root ≠ None.
Definition no_data (t : gmap path node) : Prop := forall q, data_file q -> t !! q = None.
(** Results only disappear. *)
Definition keeps_data (t t' : gmap path node) : Prop := forall q n, data_file q -> t' !! q = Some n -> t !! q = Some n.

Lemma clear_directory_spec p s o s' :
  p ∈ roots -> rooted (tree s) -> clear_fetch_directory p s = (o, s') ->
  shrinks (tree s) (tree s') /\ rooted (tree s') /\ tree s' !! metadata_file = tree s !! metadata_file /\
  (o = Ok tt -> forall name, endswith (u ".json") name = true -> tree s' !! child p name = None).
Proof.
  intros Hp Hr. unfold clear_fetch_directory, pbind at 1, gets. destruct (path_exists p (tree s)) eqn:Ep; cbn [negb].
  2: { unfold ret. intros [= <- <-]. split_and!; [apply shrinks_refl|done|done|]. intros _ name He. destruct (tree s !! child p name) eqn:En; [|done].
       exfalso. apply (Hr p name Hp He); [by rewrite En|]. unfold path_exists in Ep. by destruct (tree s !! p). }
  unfold pbind. destruct (remove_matching p fetch_patterns s) as [o1 s1] eqn:E1. pose proof (shrinks_matching _ _ _ _ _ E1) as Hsh1.
  apply remove_matching_subset in E1 as [Hsub1 Hok1].
  assert (Hchild : forall q, (forall name, q ≠ child p name) -> tree s1 !! q = tree s !! q).
  { intros q Hq. destruct (Hsub1 q) as [?|[_ (what & _ & (name & -> & _)%elem_of_glob)]]; [done|]. by destruct (Hq name). }
  assert (Hlen : forall q, (length q ≤ length d + 1)%nat -> forall name, q ≠ child p name).
  { intros q Hq name ->. unfold child in Hq. rewrite length_app in Hq. simpl in Hq. destruct (root_cases _ Hp) as [->| ->]; unfold direct, sections, child in Hq; rewrite length_app in Hq; simpl in Hq; lia. }
  assert (Hm1 : tree s1 !! metadata_file = tree s !! metadata_file) by (apply Hchild, Hlen; unfold metadata_file, child; rewrite length_app; simpl; lia).
  assert (Hr1 : rooted (tree s1)).
  { intros root name Hroot He Hn. rewrite Hchild.
    - apply (Hr root name Hroot He). destruct (tree s1 !! child root name) eqn:En; [|done]. apply Hsh1 in En. by rewrite En.
    - apply Hlen. destruct (root_cases _ Hroot) as [->| ->]; unfold direct, sections, child; rewrite length_app; simpl; lia. }
  destruct o1 as [[]|e]; [|intros [= <- <-]; done].
  assert (Hno : forall name, endswith (u ".json") name = true -> tree s1 !! child p name = None).
  { intros name He. destruct (tree s1 !! child p name) eqn:En; [|done]. exfalso. apply (Hok1 eq_refl (Around "" ".json") (child p name)); [left|].
    apply elem_of_glob. exists name. split_and!; [done|by apply json_matches|by rewrite En]. }
  intros E2. pose proof (shrinks_rmdir _ _ _ _ E2) as Hsh2. apply rmdir_cases in E2 as [E2|(Hdir & E2 & Hempty)].
  - rewrite E2. split_and!; [done|done|done|auto].
  - split_and!; [by eapply shrinks_trans| | |].
    + intros root name Hroot He Hn. rewrite E2 in Hn |- *. destruct (decide (p = root)) as [->|Hne].
      * exfalso. destruct (decide (root = child root name)) as [Heq|Hc]; [by rewrite <- Heq, lookup_delete_eq in Hn|]. rewrite lookup_delete_ne in Hn by done. by rewrite Hempty in Hn.
      * rewrite lookup_delete_ne by done. apply (Hr1 root name Hroot He). intros Hnone. apply Hn. by rewrite lookup_delete_None; right.
    + rewrite E2, lookup_delete_ne; [done|]. intros Heq. destruct (root_cases _ Hp) as [->| ->]; unfold metadata_file, direct, sections in Heq; by apply child_injective in Heq as [_ Heq].
    + intros _ name He. rewrite E2. rewrite lookup_delete_None. right. by apply Hno.
Qed.

Lemma root_not_metadata root : root ∈ roots -> root ≠ metadata_file.
Proof. intros Hr Heq. destruct (root_cases _ Hr) as [->| ->]; unfold metadata_file, direct, sections in Heq; by apply child_injective in Heq as [_ Heq]. Qed.

(** Deletions that spare the two directories, or find them empty. *)
Lemma rooted_shrinks t t' : rooted t -> shrinks t t' -> (forall root, root ∈ roots -> t' !! root = t !! root) -> rooted t'.
Proof.
  intros Hr Hs Hroot root name Hin He Hn. rewrite Hroot by done. apply (Hr root name Hin He). destruct (t' !! child root name) eqn:E; [|done]. by rewrite (Hs _ _ E).
Qed.

Lemma rooted_rmdir p s o s' : rooted (tree s) -> suppress_os_error (rmdir p) s = (o, s') -> rooted (tree s').
Proof.
  intros Hr E. pose proof (shrinks_rmdir _ _ _ _ E) as Hs. apply rmdir_cases in E as [->|(Hdir & E & Hempty)]; [done|].
  intros root name Hin He Hn. destruct (decide (p = root)) as [->|Hne].
  - exfalso. destruct (tree s' !! child root name) eqn:En; [|done]. apply Hs in En. by rewrite Hempty in En.
  - rewrite E, lookup_delete_ne by done. apply (Hr root name Hin He). destruct (tree s' !! child root name) eqn:En; [|done]. apply Hs in En. by rewrite En.
Qed.

Lemma clear_fetch_spec region s o s' :
  f_directory region = d -> rooted (tree s) -> clear_fetch region s = (o, s') ->
  shrinks (tree s) (tree s') /\ rooted (tree s') /\ (o = Ok tt -> no_data (tree s')).
Proof.
  intros Hd Hr. unfold clear_fetch, direct_root, sections_root, fetch_metadata. rewrite Hd. fold direct sections metadata_file. cbn [for_each].
  unfold pbind at 1. unfold pbind at 1. destruct (clear_fetch_directory direct s) as [o1 s1] eqn:E1.
  apply clear_directory_spec in E1 as (H1 & R1 & _ & N1); [|left|done]. destruct o1 as [[]|e]; [|intros [= <- <-]; done].
  unfold pbind at 1. destruct (clear_fetch_directory sections s1) as [o2 s2] eqn:E2. apply clear_directory_spec in E2 as (H2 & R2 & _ & N2); [|right; left|done].
  assert (H12 : shrinks (tree s) (tree s2)) by (by eapply shrinks_trans). destruct o2 as [[]|e]; [|intros [= <- <-]; done].
  assert (Hno : no_data (tree s2)).
  { intros q (root & name & Hroot & -> & He). destruct (tree s2 !! child root name) eqn:En; [|done]. exfalso. destruct (root_cases _ Hroot) as [->| ->].
    - apply H2 in En. by rewrite N1 in En.
    - by rewrite N2 in En. }
  assert (Hnos : forall t', shrinks (tree s2) t' -> no_data t').
  { intros t' Hs q Hq. destruct (t' !! q) eqn:E; [|done]. apply Hs in E. by rewrite Hno in E. }
  unfold ret at 1. unfold pbind at 1. destruct (remove_matching d temporary_patterns s2) as [o3 s3] eqn:E3. pose proof (shrinks_matching _ _ _ _ _ E3) as H3.
  apply remove_matching_subset in E3 as [Hsub3 _].
  assert (R3 : rooted (tree s3)).
  { apply (rooted_shrinks (tree s2)); [done|done|]. intros root Hroot. destruct (Hsub3 root) as [?|[_ (what & Hw & (name & Heq & Hm & _)%elem_of_glob)]]; [done|exfalso].
    assert (Hb : matches what name = false); [|congruence]. destruct (root_cases _ Hroot) as [->| ->]; unfold direct, sections in Heq; apply child_injective in Heq as [_ <-];
      unfold temporary_patterns in Hw; (apply elem_of_cons in Hw as [->|Hw]; [done|]); (apply elem_of_cons in Hw as [->|Hw]; [done|]); by apply elem_of_nil in Hw. }
  pose proof (shrinks_trans _ _ _ H12 H3) as H13. destruct o3 as [[]|e]; [|intros [= <- <-]; done].
  unfold pbind at 1. destruct (unlink metadata_file s3) as [o4 s4] eqn:E4.
  assert (H4 : shrinks (tree s3) (tree s4) /\ rooted (tree s4)).
  { apply unlink_tree_cases in E4 as [->| ->]; [split; [apply shrinks_refl|done]|]. assert (Hs : shrinks (tree s3) (delete metadata_file (tree s3))) by (intros q n [_ ?]%lookup_delete_Some; done).
    split; [done|]. apply (rooted_shrinks (tree s3)); [done|done|]. intros root Hroot. rewrite lookup_delete_ne; [done|]. intros Heq. by apply (root_not_metadata root). }
  destruct H4 as [H4 R4]. pose proof (shrinks_trans _ _ _ H13 H4) as H14. destruct o4 as [[]|e]; [|intros [= <- <-]; done].
  unfold pbind at 1. destruct (suppress_os_error (rmdir d) s4) as [o5 s5] eqn:E5. pose proof (shrinks_rmdir _ _ _ _ E5) as H5. apply rooted_rmdir in E5 as R5; [|done].
  pose proof (shrinks_trans _ _ _ H14 H5) as H15. destruct o5 as [[]|e]; [|intros [= <- <-]; done].
  intros E6. pose proof (shrinks_rmdir _ _ _ _ E6) as H6. apply rooted_rmdir in E6 as R6; [|done]. split_and!; [by eapply shrinks_trans|done|].
  intros _. apply Hnos. eapply shrinks_trans; [exact H3|]. eapply shrinks_trans; [exact H4|]. by eapply shrinks_trans.
Qed.

(** ** Making the directories *)

Lemma in_prefixes (q p : path) : q ∈ prefixes p -> q `prefix_of` p.
Proof.
  unfold prefixes. assert (H : forall acc, q ∈ prefixes_from acc p -> q `prefix_of` acc ++ p); [|apply H]. induction p as [|c p IH]; intros acc; simpl; [by intros ?%elem_of_nil|].
  rewrite elem_of_cons. intros [->|Hq]; [exists p; by rewrite <- app_assoc|]. apply IH in Hq. by rewrite <- app_assoc in Hq.
Qed.

Lemma metadata_not_prefix p : p ∈ roots \/ p = d -> metadata_file ∉ prefixes p.
Proof.
  intros Hp [r Hr]%in_prefixes. assert (H : p = d \/ exists x, p = d ++ [x] /\ x ≠ u "metadata.json").
  { destruct Hp as [Hp| ->]; [right|by left]. destruct (root_cases _ Hp) as [->| ->]; eexists; split; [reflexivity|done|reflexivity|done]. }
  unfold metadata_file, child in Hr. destruct H as [->|(x & -> & Hx)].
  - apply (f_equal length) in Hr. rewrite !length_app in Hr. simpl in Hr. lia.
  - rewrite <- app_assoc in Hr. apply (inj (app d)) in Hr. by injection Hr.
Qed.

(** Only directories are new. *)
Definition grows (t t' : gmap path node) : Prop :=
  (forall q n, t !! q = Some n -> t' !! q = Some n) /\ (forall q n, t !! q = None -> t' !! q = Some n -> q ≠ metadata_file /\ ~ data_file q).

Lemma grows_nothing t : grows t t.
Proof. split; [done|congruence]. Qed.
Lemma grows_twice t1 t2 t3 : grows t1 t2 -> grows t2 t3 -> grows t1 t3.
Proof.
  intros [K1 N1] [K2 N2]. split; [auto|]. intros q n H1 H3. destruct (t2 !! q) as [m|] eqn:E2; [by eapply N1|by eapply N2].
Qed.
Lemma grows_mkdir p s o s' : p ∈ roots \/ p = d -> mkdir p s = (o, s') -> grows (tree s) (tree s').
Proof.
  intros Hp (Hk & Hn & _)%mkdir_grown. split; [done|]. intros q n H1 H2. destruct (Hn q n H1 H2) as [_ Hin].
  split; [intros ->; by apply (metadata_not_prefix p)|intros Hd; by apply (data_file_not_prefix q p)].
Qed.
Lemma grows_lookup t t' q : grows t t' -> data_file q \/ q = metadata_file -> t' !! q = t !! q.
Proof.
  intros [Hk Hn] Hq. destruct (t !! q) as [n|] eqn:E; [by apply Hk|]. destruct (t' !! q) as [n|] eqn:E'; [|done]. destruct (Hn q n E E') as [? ?]. by destruct Hq.
Qed.
Lemma rooted_grows t t' : rooted t -> grows t t' -> rooted t'.
Proof.
  intros Hr Hg root name Hroot He Hn. rewrite (grows_lookup _ _ _ Hg) in Hn by (left; by exists root, name). specialize (Hr root name Hroot He Hn).
  destruct (t !! root) as [n|] eqn:E; [|done]. by rewrite (proj1 Hg _ _ E).
Qed.

Definition ready (t : gmap path node) : Prop := forall root, root ∈ roots -> Forall (fun p => t !! p = Some Dir) (prefixes root).

Lemma make_directories_spec region s o s' :
  f_directory region = d -> make_fetch_directories region s = (o, s') -> grows (tree s) (tree s') /\ (o = Ok tt -> ready (tree s')).
Proof.
  intros Hd. unfold make_fetch_directories, direct_root, sections_root. rewrite Hd. fold direct sections.
  unfold pbind at 1. destruct (mkdir d s) as [o1 s1] eqn:E1. apply grows_mkdir in E1 as G1; [|by right]. destruct o1 as [[]|e]; [|intros [= <- <-]; done].
  unfold pbind at 1. destruct (mkdir direct s1) as [o2 s2] eqn:E2. apply grows_mkdir in E2 as G2; [|left; left]. pose proof (grows_twice _ _ _ G1 G2) as G12.
  destruct o2 as [[]|e]; [|intros [= <- <-]; done]. intros E3. apply grows_mkdir in E3 as G3; [|left; right; left].
  split; [by eapply grows_twice|]. intros -> root Hroot. apply mkdir_grown in E2 as (_ & _ & D2). apply mkdir_grown in E3 as (K3 & _ & D3). destruct (root_cases _ Hroot) as [->| ->]; [|by apply D3].
  eapply Forall_impl; [by apply D2|]. intros p Hp. by apply K3.
Qed.

(** ** What the files hold *)

(** Results that were saved: the inputs of the checkpoint, what was asked for and what was found. *)
Inductive event :=
  | SavedDirect (fingerprint : str) (full_text : bool) (polygon_id : str) (refs : list WikipediaTagRef) (r : DirectEnrichmentResult)
  | SavedSections (fingerprint : str) (full_text : bool) (document_id : str) (rows : list pydict).
Definition event_inputs (ev : event) : str * bool :=
  match ev with SavedDirect fp full _ _ _ | SavedSections fp full _ _ => (fp, full) end.
Definition event_root (ev : event) : path := match ev with SavedDirect _ _ _ _ _ => direct | SavedSections _ _ _ _ => sections end.
Definition event_id (ev : event) : str := match ev with SavedDirect _ _ id _ _ | SavedSections _ _ id _ => id end.
Definition event_payload (ev : event) : pydict :=
  match ev with
  | SavedDirect _ _ id refs r => direct_payload id refs r
  | SavedSections _ _ id rows => [(u "document_id", VStr id); (u "rows", VList (VDict <$> rows))]
  end.
Definition event_at (ev : event) (q : path) : Prop := exists key, key_of (event_id ev) = Ok key /\ q = document_file (event_root ev) key.

Definition metadata_is (t : gmap path node) (fp : str) (full : bool) : Prop :=
  t !! metadata_file = Some (File (CJson (VDict (metadata_payload (fetch_of fp full))))).
Definition data_from (t : gmap path node) (log : list event) (fp : str) (full : bool) : Prop := forall q n, data_file q -> t !! q = Some n ->
  exists ev, ev ∈ log /\ event_inputs ev = (fp, full) /\ event_at ev q /\ n = File (CJson (VDict (event_payload ev))).

Record inv (t : gmap path node) (log : list event) : Prop := {
  inv_rooted : rooted t;
  inv_data : t !! metadata_file = None \/ exists fp full, metadata_is t fp full /\ data_from t log fp full }.
Definition current (t : gmap path node) (fp : str) (full : bool) : Prop := metadata_is t fp full /\ ready t.

Lemma metadata_is_inj t fp full fp' full' : metadata_is t fp full -> metadata_is t fp' full' -> fp = fp' /\ full = full'.
Proof. unfold metadata_is. intros -> [= -> ->]. done. Qed.

Lemma inv_current t log fp full : inv t log -> current t fp full -> data_from t log fp full.
Proof.
  intros [_ [Hn|(fp' & full' & Hm & Hd)]] [H _]; [unfold metadata_is in H; congruence|]. by destruct (metadata_is_inj _ _ _ _ _ H Hm) as [-> ->].
Qed.

Lemma inv_shrinks t t' log : inv t log -> shrinks t t' -> rooted t' -> inv t' log.
Proof.
  intros [_ Hi] Hs Hr. split; [done|]. destruct (t' !! metadata_file) as [n|] eqn:E; [right|by left]. apply Hs in E as Et.
  destruct Hi as [?|(fp & full & Hm & Hd)]; [congruence|]. exists fp, full. unfold metadata_is in *. split; [congruence|]. intros q m Hq Hm'. by apply Hd, Hs.
Qed.

Lemma inv_grows t t' log : inv t log -> grows t t' -> inv t' log.
Proof.
  intros [Hr Hi] Hg. split; [by eapply rooted_grows|]. unfold metadata_is, data_from in *. rewrite (grows_lookup _ _ _ Hg) by auto.
  destruct Hi as [?|(fp & full & Hm & Hd)]; [by left|right]. exists fp, full. split; [done|]. intros q n Hq. rewrite (grows_lookup _ _ _ Hg) by auto. by apply Hd.
Qed.

(** A write of the metadata or of a result touches nothing else that matters. *)
Lemma replaced_frame target want s o s' :
  target = metadata_file \/ data_file target -> replaced target want s o s' ->
  (forall q, q = metadata_file \/ data_file q -> q ≠ target -> tree s' !! q = tree s !! q) /\ (ready (tree s) -> ready (tree s')) /\
  (ready (tree s) -> rooted (tree s) -> rooted (tree s')).
Proof.
  intros Htarget [_ Hk Hn]. assert (Hparent : path_parent target ∈ roots \/ path_parent target = d).
  { destruct Htarget as [->|(root & name & ? & -> & _)]; [right; apply path_parent_child|left; by rewrite path_parent_child]. }
  assert (Hframe : forall q, q = metadata_file \/ data_file q -> q ≠ target -> tree s' !! q = tree s !! q).
  { intros q Hq Hne. destruct (tree s !! q) as [n|] eqn:E; [by apply Hk|]. destruct (tree s' !! q) as [n|] eqn:E'; [exfalso|done].
    destruct (Hn q n Hne E E') as [[_ Hin]|(_ & _ & Hlike & _)].
    - destruct Hq as [->|Hq]; [by apply (metadata_not_prefix _ Hparent)|by apply (data_file_not_prefix _ _ Hq Hparent)].
    - destruct Hq as [->|Hq]; [|by rewrite data_file_not_temporary in Hlike]. unfold temporary_like, metadata_file in Hlike. by rewrite path_name_child in Hlike. }
  assert (Hready : ready (tree s) -> ready (tree s')).
  { intros Hr root Hroot. specialize (Hr root Hroot). rewrite Forall_forall in Hr |- *. intros p Hp. apply Hk; [|by apply Hr].
    intros ->. destruct Htarget as [->|Hq]; [apply (metadata_not_prefix root); auto|apply (data_file_not_prefix target root); auto]. }
  split_and!; [done|done|]. intros Hr _ root name Hroot _ _. specialize (Hready Hr root Hroot). rewrite Forall_forall in Hready.
  rewrite (Hready root); [done|]. apply (prefixes_from_last []). destruct (root_cases _ Hroot) as [->| ->]; unfold direct, sections, child; intros [_ ?]%app_eq_nil; discriminate.
Qed.

Lemma document_file_data root key : root ∈ roots -> data_file (document_file root key).
Proof. intros Hr. exists root, (key ++ u ".json"). split_and!; [done|done|]. unfold endswith, startswith. rewrite reverse_app, strip_prefix_app. done. Qed.

Lemma event_file ev q : event_at ev q -> data_file q.
Proof. intros (key & _ & ->). apply document_file_data. destruct ev; [left|right; left]. Qed.

Lemma write_metadata_inv log fp full s o s' :
  inv (tree s) log -> ready (tree s) -> no_data (tree s) ->
  atomic_write_json temporary_middle metadata_file (VDict (metadata_payload (fetch_of fp full))) s = (o, s') ->
  inv (tree s') log /\ (o = Ok tt -> current (tree s') fp full).
Proof.
  intros [Hr Hi] Hready Hno E. apply atomic_write_json_replaced in E; [|done]. pose proof (replaced_frame _ _ _ _ _ (or_introl eq_refl) E) as (Hf & Hrd & Hro).
  assert (Hno' : no_data (tree s')) by (intros q Hq; rewrite Hf; auto using data_file_metadata).
  destruct E as [[[[e ->] Ht]|(-> & c & -> & Ht)] _ _]; (split; [split; [auto|]|]); [|done|right; exists fp, full|split; auto].
  - destruct Hi as [Hn|(fp' & full' & Hm & _)]; [left; congruence|right]. exists fp', full'. split; [unfold metadata_is in *; congruence|].
    intros q n Hq Hn. by rewrite Hno' in Hn.
  - split; [done|]. intros q n Hq Hn. by rewrite Hno' in Hn.
Qed.

Lemma write_event_inv log ev fp full q s o s' :
  event_inputs ev = (fp, full) -> event_at ev q -> inv (tree s) log -> current (tree s) fp full ->
  atomic_write_json temporary_middle q (VDict (event_payload ev)) s = (o, s') ->
  inv (tree s') (match o with Ok _ => log ++ [ev] | Raise _ => log end) /\ current (tree s') fp full /\ (o = Ok tt -> tree s' !! q = Some (File (CJson (VDict (event_payload ev))))).
Proof.
  intros Hev Hat Hi [Hm Hready] E. pose proof (event_file _ _ Hat) as Hq. apply atomic_write_json_replaced in E; [|done].
  pose proof (replaced_frame _ _ _ _ _ (or_intror Hq) E) as (Hf & Hrd & Hro). pose proof (inv_current _ _ _ _ Hi (conj Hm Hready)) as Hd. destruct Hi as [Hr _].
  assert (Hm' : metadata_is (tree s') fp full) by (unfold metadata_is; rewrite Hf; auto; intros Heq; by apply (data_file_metadata q)).
  destruct E as [[[[e ->] Ht]|(-> & c & -> & Ht)] _ _]; (split_and!; [split; [auto|right; exists fp, full; split; [done|]]|split; auto|done]); intros q' n Hq' Hn'.
  - apply Hd; [done|]. destruct (decide (q' = q)) as [->|Hne]; [congruence|]. rewrite <- Hf; auto.
  - destruct (decide (q' = q)) as [->|Hne].
    + exists ev. rewrite elem_of_app, list_elem_of_singleton. split_and!; [auto|done|done|]. rewrite Ht in Hn'. by injection Hn' as <-.
    + rewrite Hf in Hn' by auto. destruct (Hd q' n Hq' Hn') as (ev' & ? & ?). exists ev'. rewrite elem_of_app. auto.
Qed.

(** ** Opening *)

Lemma clear_inv region log s o s' : f_directory region = d -> inv (tree s) log -> clear_fetch region s = (o, s') -> inv (tree s') log.
Proof. intros Hd Hi (Hs & Hr & _)%clear_fetch_spec; [|done|apply Hi]. by eapply inv_shrinks. Qed.

Lemma reset_inv log fp full s o s' :
  inv (tree s) log -> reset_metadata temporary_middle (fetch_of fp full) s = (o, s') -> inv (tree s') log /\ (o = Ok tt -> current (tree s') fp full).
Proof.
  intros Hi. unfold reset_metadata, pbind. destruct (clear_fetch (fetch_of fp full) s) as [o1 s1] eqn:E1. pose proof (clear_inv (fetch_of fp full) log s o1 s1 eq_refl Hi E1) as H1.
  apply clear_fetch_spec in E1 as (_ & _ & Hno); [|done|apply Hi]. destruct o1 as [[]|e]; [|by intros [= <- <-]]. specialize (Hno eq_refl).
  destruct (make_fetch_directories (fetch_of fp full) s1) as [o2 s2] eqn:E2. apply make_directories_spec in E2 as [Hg Hready]; [|done].
  pose proof (inv_grows _ _ _ H1 Hg) as H2. destruct o2 as [[]|e]; [|by intros [= <- <-]]. apply write_metadata_inv; [done|auto|].
  intros q Hq. rewrite (grows_lookup _ _ _ Hg) by auto. by apply Hno.
Qed.

Lemma needs_reset_payload fp full fp' full' :
  needs_reset (fetch_of fp full) (VDict (metadata_payload (fetch_of fp' full'))) = negb (str_eqb fp' fp && bool_decide (full' = full)).
Proof.
  unfold needs_reset, metadata_is_valid, fingerprint_changed. cbn [f_fingerprint f_full_text fetch_of].
  change (py_eqb (dget_none (u "contract_version") _) (VStr CHECKPOINT_CONTRACT_VERSION)) with true.
  change (py_eqb (dget_none (u "v2_contract_version") _) (VStr V2_CONTRACT_VERSION)) with true.
  change (py_eqb (dget_none (u "fetch_full_text") _) (VBool full)) with (bool_decide (Some (if full' then 1 else 0) = Some (if full then 1 else 0 : Z))).
  change (py_eqb (dget_none (u "input_fingerprint") _) (VStr fp)) with (str_eqb fp' fp). by destruct full', full, (str_eqb fp' fp).
Qed.

Lemma read_metadata t log v : inv t log -> read_json metadata_file t = Ok v -> exists fp full, v = VDict (metadata_payload (fetch_of fp full)) /\ metadata_is t fp full.
Proof.
  intros [_ [Hn|(fp & full & Hm & _)]]; unfold read_json; [by rewrite Hn|]. pose proof Hm as Hm'. unfold metadata_is in Hm'. rewrite Hm'. intros [= <-]. by exists fp, full.
Qed.

Lemma open_inv log fp full s o s' :
  inv (tree s) log -> open_fetch temporary_middle (fetch_of fp full) s = (o, s') -> inv (tree s') log /\ (o = Ok tt -> current (tree s') fp full).
Proof.
  intros Hi. unfold open_fetch. unfold pbind at 1. destruct (make_fetch_directories (fetch_of fp full) s) as [o1 s1] eqn:E1.
  apply make_directories_spec in E1 as [Hg Hready]; [|done]. pose proof (inv_grows _ _ _ Hi Hg) as H1. destruct o1 as [[]|e]; [|by intros [= <- <-]].
  unfold pbind. change (fetch_metadata (fetch_of fp full)) with metadata_file. destruct (read_document metadata_file s1) as [o2 s2] eqn:E2.
  apply read_document_cases in E2 as (Ht2 & Hv & _). rewrite <- Ht2 in H1, Hready, Hv. destruct o2 as [v|e]; [|by intros [= <- <-]].
  destruct (needs_reset (fetch_of fp full) v) eqn:En; [by apply reset_inv|]. unfold ret. intros [= <- <-]. split; [done|]. intros _.
  destruct (Hv v eq_refl) as [->|Hr]; [done|]. destruct (read_metadata _ _ _ H1 Hr) as (fp' & full' & -> & Hm). rewrite needs_reset_payload in En.
  apply negb_false_iff, andb_true_iff in En as [->%bool_decide_eq_true ->%bool_decide_eq_true]. split; auto.
Qed.

(** ** Saving *)

(** A call that returned has saved its result, unless parts of it are still owed. *)
Definition record_event (o : outcome unit) (ev : event) (log : list event) : list event :=
  match o, ev with
  | Raise _, _ => log
  | Ok _, SavedDirect _ _ _ _ r => if bool_decide (length (dr_deferred_errors r) = 0%nat) then log ++ [ev] else log
  | Ok _, SavedSections _ _ _ _ => log ++ [ev]
  end.

Lemma save_direct_inv log fp full id refs r s o s' :
  inv (tree s) log -> current (tree s) fp full -> save_direct temporary_middle (fetch_of fp full) id refs r s = (o, s') ->
  inv (tree s') (record_event o (SavedDirect fp full id refs r) log) /\ current (tree s') fp full /\
  (o = Ok tt -> dr_deferred_errors r = [] -> exists key, key_of id = Ok key /\ tree s' !! document_file direct key = Some (File (CJson (VDict (direct_payload id refs r))))).
Proof.
  intros Hi Hc. unfold save_direct, record_event. destruct (bool_decide _) eqn:Eb; cbn [negb].
  - unfold pbind, lift. destruct (key_of id) as [key|e] eqn:Ek; [|by intros [= <- <-]]. intros E.
    destruct (write_event_inv log (SavedDirect fp full id refs r) fp full (document_file direct key) s o s') as (H1 & H2 & H3); [done|by exists key|done|done|exact E|].
    split_and!; [by destruct o|done|]. intros Ho _. exists key. auto.
  - unfold ret. intros [= <- <-]. split_and!; [done|done|]. intros _ He. apply bool_decide_eq_false in Eb. by rewrite He in Eb.
Qed.

Lemma save_sections_inv log fp full id rows s o s' :
  inv (tree s) log -> current (tree s) fp full -> save_sections temporary_middle (fetch_of fp full) id rows s = (o, s') ->
  inv (tree s') (record_event o (SavedSections fp full id rows) log) /\ current (tree s') fp full.
Proof.
  intros Hi Hc. unfold save_sections, record_event. destruct (existsb _ _); [unfold throw; by intros [= <- <-]|].
  unfold pbind, lift. destruct (key_of id) as [key|e] eqn:Ek; [|by intros [= <- <-]]. intros E.
  destruct (write_event_inv log (SavedSections fp full id rows) fp full (document_file sections key) s o s') as (H1 & H2 & H3); [done|by exists key|done|done|exact E|by destruct o].
Qed.

(** ** Loading *)

Lemma read_data_file t log fp full q v :
  data_from t log fp full -> data_file q -> read_json q t = Ok v -> exists ev, ev ∈ log /\ event_inputs ev = (fp, full) /\ event_at ev q /\ v = VDict (event_payload ev).
Proof.
  intros Hd Hq. unfold read_json. destruct (t !! q) as [n|] eqn:E; [|done]. destruct (Hd q n Hq E) as (ev & ? & ? & ? & ->). intros [= <-]. by exists ev.
Qed.

Lemma load_direct_spec log fp full id refs s o s' :
  inv (tree s) log -> current (tree s) fp full -> load_direct (fetch_of fp full) id refs s = (o, s') ->
  tree s' = tree s /\ (forall r, o = Ok (Some r) -> exists r', SavedDirect fp full id refs r' ∈ log /\ length (dr_statuses r') = length refs /\ r = restored refs r').
Proof.
  intros Hi Hc. unfold load_direct, pbind, lift. destruct (key_of id) as [key|e] eqn:Ek; [|by intros [= <- <-]].
  change (direct_root (fetch_of fp full)) with direct. destruct (read_document (document_file direct key) s) as [o1 s1] eqn:E1.
  apply read_document_cases in E1 as (Ht & Hv & _). destruct o1 as [v|e]; [|by intros [= <- <-]]. unfold ret. intros [= <- <-]. split; [done|].
  intros r [= Hr]. destruct (Hv v eq_refl) as [->|Hread]; [done|].
  apply (read_data_file _ log fp full) in Hread as (ev & Hev & Hin & (key' & Hk & Hp) & ->); [|by eapply inv_current|by apply document_file_data; left].
  apply child_injective in Hp as [Hroot _]. destruct ev as [fp' full' id' refs' r'|fp' full' id' rows]; [|by apply child_injective in Hroot as [_ Hroot]].
  injection Hin as -> ->. cbn [event_payload] in Hr. rewrite decode_payload in Hr. destruct (bool_decide (id' = id)) eqn:E1; [apply bool_decide_eq_true in E1 as ->|done].
  destruct (bool_decide (refs' = refs)) eqn:E2; [apply bool_decide_eq_true in E2 as ->|done]. destruct (bool_decide (length _ = _)) eqn:E3; [apply bool_decide_eq_true in E3|done].
  injection Hr as <-. by exists r'.
Qed.

Lemma section_rows_of rows id rows' : section_rows_match_document (VDict <$> rows) id = Some rows' -> rows' = rows.
Proof.
  revert rows'. unfold section_rows_match_document. induction rows as [|x rows IH]; intros rows'; [by intros [= <-]|].
  cbn [fmap list_fmap mapM]. destruct (str_eqb _ id); [|done]. simpl. destruct (mapM _ _) as [k|] eqn:E; [|done]. intros [= <-]. by rewrite (IH k).
Qed.

Lemma parse_event ev id rows : parse_section_payload (VDict (event_payload ev)) = Some (id, rows) -> exists fp full, ev = SavedSections fp full id rows.
Proof.
  destruct ev as [fp full id' refs r|fp full id' rows']; [done|]. intros H. exists fp, full. unfold parse_section_payload in H.
  change (section_payload_parts _) with (match id' with c :: t => Some (c :: t, VDict <$> rows') | [] => None end) in H. destruct id' as [|c id']; [done|].
  cbn [mbind option_bind] in H. destruct (section_rows_match_document _ _) as [k|] eqn:E; [|done]. apply section_rows_of in E as ->. simpl in H. by injection H as <- <-.
Qed.

Lemma load_files_spec log fp full files s o s' :
  data_from (tree s) log fp full -> NoDup files -> Forall data_file files -> load_section_files files s = (o, s') ->
  tree s' = tree s /\ (forall rows ids, o = Ok (rows, ids) -> exists saved : list (str * list pydict),
    Forall (fun kv => SavedSections fp full kv.1 kv.2 ∈ log) saved /\ NoDup saved.*1 /\ rows = mjoin saved.*2 /\ ids = list_to_set saved.*1 /\
    forall id, id ∈ saved.*1 -> exists key, key_of id = Ok key /\ document_file sections key ∈ files).
Proof.
  intros Hd Hnd Hall. revert s o s' Hd. induction Hall as [|p files Hp Hall IH]; intros s o s' Hd; cbn [load_section_files].
  - unfold ret. intros [= <- <-]. split; [done|]. intros rows ids [= <- <-]. exists []. split_and!; [constructor|constructor|done|done|]. by intros id ?%elem_of_nil.
  - apply NoDup_cons in Hnd as [Hnew Hnd]. unfold pbind. destruct (read_document p s) as [o1 s1] eqn:E1. apply read_document_cases in E1 as (Ht1 & Hv & _).
    destruct o1 as [v|e]; [|by intros [= <- <-]]. destruct (load_section_files files s1) as [o2 s2] eqn:E2. rewrite <- Ht1 in Hd.
    destruct (IH Hnd s1 o2 s2 Hd E2) as [Ht2 Hsaved]. destruct o2 as [[rows ids]|e]; [|intros [= <- <-]; split; [congruence|done]].
    destruct (Hsaved rows ids eq_refl) as (saved & H1 & H2 & -> & -> & H5).
    assert (Hweak : forall id, id ∈ saved.*1 -> exists key, key_of id = Ok key /\ document_file sections key ∈ p :: files).
    { intros id (key & ? & ?)%H5. exists key. split; [done|by right]. }
    destruct (parse_section_payload v) as [[id rows]|] eqn:Ep; unfold ret; intros [= <- <-]; (split; [congruence|]); intros ? ? [= <- <-]; [|by exists saved].
    destruct (Hv v eq_refl) as [->|Hread]; [done|]. rewrite <- Ht1 in Hread. apply (read_data_file _ log fp full) in Hread as (ev & Hev & Hin & (key & Hk & Hat) & ->); [|done|done].
    apply parse_event in Ep as (fp' & full' & ->). injection Hin as -> ->. cbn [event_root event_id] in Hat, Hk.
    exists ((id, rows) :: saved). split_and!; [by constructor| |done|done|].
    + constructor; [|done]. intros (key' & Hk' & Hf)%H5. cbn [fst] in Hk'. apply Hnew. rewrite Hat. by replace key with key' by congruence.
    + intros id' [->|Hid]%elem_of_cons; [|by apply Hweak]. exists key. split; [done|]. rewrite Hat. left.
Qed.

Lemma load_sections_spec log fp full s o s' :
  inv (tree s) log -> current (tree s) fp full -> load_section_state (fetch_of fp full) s = (o, s') ->
  tree s' = tree s /\ (forall rows ids, o = Ok (rows, ids) -> exists saved : list (str * list pydict),
    Forall (fun kv => SavedSections fp full kv.1 kv.2 ∈ log) saved /\ NoDup saved.*1 /\ rows = mjoin saved.*2 /\ ids = list_to_set saved.*1).
Proof.
  intros Hi Hc. unfold load_section_state, pbind, gets. intros E. apply (load_files_spec log fp full) in E as [Ht H]; [|by eapply inv_current|apply NoDup_glob|].
  - split; [done|]. intros rows ids Ho. destruct (H rows ids Ho) as (saved & ? & ? & ? & ? & _). by exists saved.
  - apply Forall_forall. intros q (name & -> & Hm & _)%elem_of_glob. exists sections, name. split_and!; [right; left|done|].
    unfold matches in Hm. by apply andb_true_iff in Hm as [[_ ?]%andb_true_iff _].
Qed.

(** * The life of a region's checkpoint *)

Record FetchState := mkFetchState { fx_disk : FsState; fx_open : option (str * bool); fx_log : list event }.

(** Each operation may fail at any system call; a restart changes what will fail. *)
Inductive fetch_step : FetchState -> FetchState -> Prop :=
  | step_open fp full s region log o s' : open_fetch temporary_middle (fetch_of fp full) s = (o, s') ->
      fetch_step (mkFetchState s region log) (mkFetchState s' (match o with Ok _ => Some (fp, full) | Raise _ => None end) log)
  | step_save_direct fp full id refs r s log o s' : save_direct temporary_middle (fetch_of fp full) id refs r s = (o, s') ->
      fetch_step (mkFetchState s (Some (fp, full)) log) (mkFetchState s' (Some (fp, full)) (record_event o (SavedDirect fp full id refs r) log))
  | step_save_sections fp full id rows s log o s' : save_sections temporary_middle (fetch_of fp full) id rows s = (o, s') ->
      fetch_step (mkFetchState s (Some (fp, full)) log) (mkFetchState s' (Some (fp, full)) (record_event o (SavedSections fp full id rows) log))
  | step_clear fp full s region log o s' : clear_fetch (fetch_of fp full) s = (o, s') ->
      fetch_step (mkFetchState s region log) (mkFetchState s' None log)
  | step_restart s region log faults : fetch_step (mkFetchState s region log) (mkFetchState (mkFs (tree s) faults) None log).

Definition consistent (x : FetchState) : Prop :=
  inv (tree (fx_disk x)) (fx_log x) /\ forall fp full, fx_open x = Some (fp, full) -> current (tree (fx_disk x)) fp full.

Lemma fetch_step_consistent x x' : fetch_step x x' -> consistent x -> consistent x'.
Proof.
  intros Hstep [Hi Hc]. destruct Hstep as [fp full s region log o s' E|fp full id refs r s log o s' E|fp full id rows s log o s' E|fp full s region log o s' E|]; cbn in Hi, Hc.
  - destruct (open_inv log _ _ _ _ _ Hi E) as [H1 H2]. split; [done|]. cbn. destruct o as [[]|]; [|done]. intros ? ? [= <- <-]. auto.
  - destruct (save_direct_inv log _ _ _ _ _ _ _ _ Hi (Hc _ _ eq_refl) E) as (H1 & H2 & _). split; [done|]. by intros ? ? [= <- <-].
  - destruct (save_sections_inv log _ _ _ _ _ _ _ Hi (Hc _ _ eq_refl) E) as [H1 H2]. split; [done|]. by intros ? ? [= <- <-].
  - split; [|done]. by apply (clear_inv (fetch_of fp full) log s o s').
  - split; [|done]. by destruct Hi as [? ?].
Qed.

Lemma reachable_consistent x x' : rtc fetch_step x x' -> consistent x -> consistent x'.
Proof. induction 1; eauto using fetch_step_consistent. Qed.

Lemma consistent_initially t faults : (forall q, d `prefix_of` q -> q ≠ d -> t !! q = None) -> consistent (mkFetchState (mkFs t faults) None []).
Proof.
  intros Hno. split; [|done]. split.
  - intros root name Hroot _ Hn. exfalso. apply Hn. apply Hno; destruct (root_cases _ Hroot) as [->| ->]; unfold direct, sections, child; rewrite <- app_assoc; try (by eexists).
    all: intros Heq; apply (f_equal length) in Heq; rewrite !length_app in Heq; simpl in Heq; lia.
  - left. apply Hno; unfold metadata_file, child; [by eexists|]. intros Heq. apply (f_equal length) in Heq. rewrite length_app in Heq. simpl in Heq. lia.
Qed.

(** ** Without faults *)

Lemma prefixes_below p a b : p ∈ prefixes a -> p ∈ prefixes (a ++ b).
Proof.
  unfold prefixes. generalize (@nil str). induction a as [|c a IH]; intros acc; simpl; [by intros ?%elem_of_nil|]. rewrite !elem_of_cons. intros [->|Hp]; [by left|right; by apply IH].
Qed.

Lemma ready_directory t : ready t -> Forall (fun p => t !! p = Some Dir) (prefixes d).
Proof.
  intros H. specialize (H direct ltac:(left)). rewrite Forall_forall in H |- *. intros p Hp. apply H. by apply prefixes_below.
Qed.

Lemma read_document_calm p v s : calm s -> read_json p (tree s) = Ok v -> exists s', read_document p s = (Ok v, s') /\ calm s' /\ tree s' = tree s.
Proof.
  intros Hc Hv. destruct (read_document p s) as [o s'] eqn:E. apply read_document_cases in E as (Ht & _ & H). destruct (H Hc) as [Hc' Ho]. rewrite Hv in Ho. subst. by exists s'.
Qed.

Lemma open_calm fp full s : calm s -> current (tree s) fp full -> exists s', open_fetch temporary_middle (fetch_of fp full) s = (Ok tt, s') /\ calm s' /\ tree s' = tree s.
Proof.
  intros Hc [Hm Hr]. assert (Hall : calmly (make_fetch_directories (fetch_of fp full)) s (fun _ t => t = tree s)); [clear Hm|].
  { unfold make_fetch_directories. change (f_directory (fetch_of fp full)) with d. change (direct_root (fetch_of fp full)) with direct. change (sections_root (fetch_of fp full)) with sections.
    apply calmly_mkdir_then; [done|by apply ready_directory|]. intros s1 Hc1 Hs1. rewrite <- Hs1 in Hr |- *. apply calmly_mkdir_then; [done|apply Hr; left|]. intros s2 Hc2 Hs2. rewrite <- Hs2 in Hr |- *.
    apply calmly_mkdir; [done|apply Hr; right; left|done]. }
  destruct Hall as ([] & s1 & E1 & Hc1 & Ht1). assert (Hv : read_json metadata_file (tree s1) = Ok (VDict (metadata_payload (fetch_of fp full)))) by (unfold read_json; rewrite Ht1, Hm; done).
  destruct (read_document_calm _ _ s1 Hc1 Hv) as (s2 & E2 & Hc2 & Ht2). exists s2. split_and!; [|done|congruence].
  unfold open_fetch, pbind. rewrite E1. change (fetch_metadata (fetch_of fp full)) with metadata_file. rewrite E2, needs_reset_payload.
  unfold str_eqb. by rewrite !bool_decide_eq_true_2 by done.
Qed.
End Region.

(** C38: Whatever is loaded is current.  Over any sequence of openings with different inputs, saves,
    clearings and restarts of one region's checkpoint, in which any system call may fail, a direct
    result that the open checkpoint loads was saved for the same fingerprint, the same full-text
    setting, the same polygon and the same references, whatever hashes collide; and the sections it
    loads are those saved for these inputs, no document twice. *)
Theorem fetch_checkpoint_is_current `{Runtime} `{FileFormats} temporary_middle d t faults x fp full :
  (forall t p, t !! temporary_name temporary_middle p t = None) ->
  (forall q, d `prefix_of` q -> q ≠ d -> t !! q = None) ->
  rtc (fetch_step temporary_middle d) (mkFetchState (mkFs t faults) None []) x -> fx_open x = Some (fp, full) ->
  (forall id refs r s', load_direct (fetch_of d fp full) id refs (fx_disk x) = (Ok (Some r), s') ->
     exists r', SavedDirect fp full id refs r' ∈ fx_log x /\ length (dr_statuses r') = length refs /\ r = restored refs r') /\
  (forall rows ids s', load_section_state (fetch_of d fp full) (fx_disk x) = (Ok (rows, ids), s') ->
     exists saved : list (str * list pydict), Forall (fun kv => SavedSections fp full kv.1 kv.2 ∈ fx_log x) saved /\ NoDup saved.*1 /\
       rows = mjoin saved.*2 /\ ids = list_to_set saved.*1).
Proof.
  intros Hfresh Hno Hreach Ho. destruct (reachable_consistent temporary_middle Hfresh d _ _ Hreach (consistent_initially d t faults Hno)) as [Hi Hc].
  specialize (Hc fp full Ho). split.
  - intros id refs r s' E. by apply (load_direct_spec d (fx_log x)) in E as [_ Hr]; [apply Hr|..].
  - intros rows ids s' E. by apply (load_sections_spec d (fx_log x)) in E as [_ Hr]; [apply Hr|..].
Qed.

Lemma restored_same refs r : dr_deferred_errors r = [] -> ds_ref <$> dr_statuses r = refs -> restored refs r = r.
Proof.
  destruct r as [documents links statuses deferred]. simpl. intros -> <-. unfold restored. simpl. f_equal.
  induction statuses as [|[] l IH]; [done|]. cbn. by rewrite IH.
Qed.

(** C39: A saved result survives a restart.  In any state the checkpoint can reach, a complete result
    whose save returned is there for the next process: opening for the same inputs returns and
    loads exactly the result. *)
Theorem saved_direct_is_loaded `{Runtime} `{FileFormats} temporary_middle d t faults x fp full id refs r s' :
  (forall t p, t !! temporary_name temporary_middle p t = None) ->
  (forall q, d `prefix_of` q -> q ≠ d -> t !! q = None) ->
  rtc (fetch_step temporary_middle d) (mkFetchState (mkFs t faults) None []) x -> fx_open x = Some (fp, full) ->
  dr_deferred_errors r = [] -> ds_ref <$> dr_statuses r = refs ->
  save_direct temporary_middle (fetch_of d fp full) id refs r (fx_disk x) = (Ok tt, s') ->
  exists s1 s2, open_fetch temporary_middle (fetch_of d fp full) (mkFs (tree s') []) = (Ok tt, s1) /\
    load_direct (fetch_of d fp full) id refs s1 = (Ok (Some r), s2).
Proof.
  intros Hfresh Hno Hreach Ho Hdef Hrefs E. destruct (reachable_consistent temporary_middle Hfresh d _ _ Hreach (consistent_initially d t faults Hno)) as [Hi Hc].
  destruct (save_direct_inv temporary_middle Hfresh d _ _ _ _ _ _ _ _ _ Hi (Hc fp full Ho) E) as (_ & Hcur & Hfile). destruct (Hfile eq_refl Hdef) as (key & Hkey & Hk).
  destruct (open_calm temporary_middle d fp full (mkFs (tree s') [])) as (s1 & E1 & Hc1 & Ht1); [constructor|done|]. cbn [tree] in Ht1.
  destruct (read_document_calm (document_file (child d (u "direct")) key) (VDict (direct_payload id refs r)) s1) as (s2 & E2 & _); [done|unfold read_json; by rewrite Ht1, Hk|].
  exists s1, s2. split; [done|]. unfold load_direct, pbind, lift. rewrite Hkey. change (direct_root (fetch_of d fp full)) with (child d (u "direct")). rewrite E2.
  rewrite decode_payload, !bool_decide_eq_true_2 by (rewrite <- ?Hrefs, ?length_fmap; done). unfold ret. do 3 f_equal. by apply restored_same.
Qed.
