(* ===== verification/CheckpointExamples.v ===== *)
(** A small source whose extraction is interrupted, and a region whose fetches are resumed. *)
From stdpp Require Import gmap sorting.
From S2P Require Import Prelude Py PyStr PyText Fs Calm Artifacts Atomic Sentences LinkTransaction Tables Integrity Checkpoints CheckpointProofs FetchProofs IntegrityExamples.

#[local] Existing Instance example_runtime.
#[local] Existing Instance example_formats.
#[local] Existing Instance codec.

(** * Extraction *)

Definition ck_root : path := [u "work"].
Definition ck_source : path := [u "pbf"; u "monaco.osm.pbf"].
Definition ck_stat : FileStatFingerprint :=
  {| st_size := 7; st_mtime_ns := 1; st_ctime_ns := 2; st_inode := 3; st_device := 4; st_birthtime_ns := 0 |}.
Definition ck_directory : path := extraction_directory ck_root ck_source.
Definition ck_identity : pydict := extraction_identity ck_source ck_stat None.
Definition ck_candidates : list str := u <$> ["p1"; "p2"; "p1"; "p3"]%string.
Definition ck_polygon (c : str) : pydict := ex_row polygon_v2_schema [(u "polygon_id", VStr c)].
(** The third polygon has no usable tag. *)
Definition ck_key (c : str) : option str := if str_eqb c (u "p3") then None else Some c.
Definition ck_row (c : str) : outcome (option pydict) := Ok (ck_polygon <$> ck_key c).
Definition ck_good (row : pydict) : Prop := row = ck_polygon (u "p1") \/ row = ck_polygon (u "p2").

Definition ck_extract (limit : option Z) (reader : Reader str) (faults : list (option exn)) (t : gmap path node) : outcome (list pydict) * FsState :=
  extract_v2_pbf long_middle ck_row limit true ck_directory (extraction_identity ck_source ck_stat limit) 1 reader (mkFs t faults).
Definition ck_ids (limit : option Z) (t : gmap path node) : option (list str) :=
  match ck_extract limit (reader_of ck_candidates) [] t with (Ok rows, _) => Some (ids rows) | _ => None end.
Definition ck_interrupted (limit : option Z) (reader : Reader str) (faults : list (option exn)) : gmap path node := tree (ck_extract limit reader faults ∅).2.

(** The system call after the first chunk was renamed into place fails. *)
Definition ck_interruption : list (option exn) := replicate 15 None ++ [Some os_error].

(** A reader that fails after two candidates. *)
Definition ck_failing : Reader str := Delivering (u "p1") (Delivering (u "p2") (Raising os_error)).

Example ck_uninterrupted : ck_ids None ∅ = Some (u <$> ["p1"; "p2"]%string).
Proof. vm_compute. reflexivity. Qed.
(** The rows of a partial scan are kept, and the scan is not taken for complete. *)
Example ck_partial : ck_ids None (ck_interrupted None ck_failing []) = Some (u <$> ["p1"; "p2"]%string) /\
  match ck_extract None ck_failing [] ∅ with (Raise _, _) => True | _ => False end.
Proof. split; [vm_compute; reflexivity|]. vm_compute. exact I. Qed.
Example ck_resumed : ck_ids None (ck_interrupted None (reader_of ck_candidates) ck_interruption) = Some (u <$> ["p1"; "p1"; "p2"]%string).
Proof. vm_compute. reflexivity. Qed.

(** With a limit of two the repeated polygon takes the place of the second one. *)
Example limited_extraction_misses_a_polygon :
  ck_ids (Some 2) ∅ = Some (u <$> ["p1"; "p2"]%string) /\
  ck_ids (Some 2) (ck_interrupted (Some 2) (reader_of ck_candidates) ck_interruption) = Some (u <$> ["p1"; "p1"]%string).
Proof. split; vm_compute; reflexivity. Qed.

Lemma ck_good_cells rows : Forall ck_good rows -> exists b, encode_table polygon_v2_schema rows = Ok b.
Proof.
  intros H. assert (Hc : exists cells, mapM cells_of rows = Some cells).
  { induction H as [|row rows Hrow _ [cells IH]]; [by exists []|]. simpl. rewrite IH.
    destruct Hrow as [->| ->]; (destruct (cells_of _) as [c|] eqn:E; [by exists (c :: cells)|exfalso; revert E; vm_compute; discriminate]). }
  destruct Hc as [cells Hc]. eexists. simpl. rewrite Hc. reflexivity.
Qed.

Lemma ck_good_fits row : ck_good row -> fits polygon_v2_schema row.
Proof. intros [->| ->]; apply fits_decide; vm_compute; reflexivity. Qed.

Lemma ck_converts c : c ∈ ck_candidates ->
  exists r, ck_row c = Ok r /\ text_or "polygon_id" <$> r = ck_key c /\ (forall row, r = Some row -> ck_good row).
Proof.
  intros H. exists (ck_polygon <$> ck_key c). split; [done|]. unfold ck_candidates in H. cbn [fmap list_fmap] in H.
  repeat (apply elem_of_cons in H as [->|H]; [split; [vm_compute; reflexivity|]; intros row; vm_compute (ck_key _); cbn; intros [= <-]; by (left + right)|]);
    try (by apply elem_of_nil in H).
Qed.

Lemma ck_converts_or_raises c r : c ∈ ck_candidates -> ck_row c = Ok r ->
  text_or "polygon_id" <$> r = ck_key c /\ (forall row, r = Some row -> ck_good row).
Proof. intros Hc Hr. destruct (ck_converts c Hc) as (r' & Hr' & H). rewrite Hr in Hr'. by injection Hr' as <-. Qed.

(** A run whose reader fails after two candidates, and one whose reader delivers everything while the
    system call after the first chunk fails. *)
Definition ck_attempts : list (Attempt str) :=
  [{| at_row := ck_row; at_every := 1; at_reader := ck_failing; at_faults := [] |};
   {| at_row := ck_row; at_every := 2; at_reader := reader_of ck_candidates; at_faults := ck_interruption |}].

Lemma ck_failing_reads : reads_source ck_failing ck_candidates.
Proof. exact (reads_next _ _ _ (reads_next _ _ _ (reads_raise _ _))). Qed.

Lemma interrupted_extraction_completes_witness :
  exists rows s', extract_v2_pbf long_middle ck_row None true ck_directory ck_identity 1 (reader_of ck_candidates)
      (mkFs (after_attempts long_middle ck_directory ck_identity ck_attempts ∅) []) = (Ok rows, s') /\
    firsts ∅ (ids rows) = u <$> ["p1"; "p2"]%string.
Proof.
  apply (@interrupted_extraction_completes example_runtime example_formats codec codec_laws str long_middle ck_root ck_source ck_stat ck_good ck_key ck_candidates
    ck_attempts ck_row 1 ∅).
  - exact temporary_name_fresh.
  - exact ck_good_fits.
  - exact ck_good_cells.
  - intros name. apply lookup_empty.
  - intros p c _. by rewrite lookup_empty.
  - constructor; [split; [exact ck_failing_reads|exact ck_converts_or_raises]|].
    constructor; [split; [exact (reader_of_reads ck_candidates)|exact ck_converts_or_raises]|constructor].
  - exact ck_converts.
Defined.

(** A checkpoint that was just created, and a pending polygon; the write of the metadata fails after
    the chunk was stored. *)
Definition ck_started : Extraction :=
  (start_over long_middle ck_directory ck_identity (mkExtraction (mkFs (list_to_map ((fun p => (p, Dir)) <$> prefixes ck_directory)) []) [] 0)).2.
Definition ck_pending : Scan :=
  mkScan (with_fs (mkFs (tree (x_fs ck_started)) (replicate 4 None ++ [Some os_error])) ck_started) [ck_polygon (u "p1")] {[u "p1"]} [ck_polygon (u "p1")].
Definition ck_failed : outcome unit * Scan := checkpoint_if_due long_middle true ck_directory 1 ck_pending.
Definition ck_flushed : outcome unit * Scan := flush_checkpoint long_middle true ck_directory ck_failed.2.

Lemma ck_started_exact : exact ck_directory ck_identity ck_good (u <$> ["p1"]%string) (sc_checkpoint ck_pending) [].
Proof.
  set (x0 := mkExtraction (mkFs (list_to_map ((fun p => (p, Dir)) <$> prefixes ck_directory)) []) [] 0).
  assert (Hx : exact ck_directory ck_identity ck_good (u <$> ["p1"]%string) ck_started []).
  { destruct (start_over_spec long_middle temporary_name_fresh ck_directory ck_identity (extraction_identity_equal _ _ _) ck_good (u <$> ["p1"]%string)
      x0 (Ok None) ck_started []) as [_ H].
    - apply stored_initially.
      + intros name. apply not_elem_of_list_to_map_1. rewrite <- list_fmap_compose. intros (p & Hq & Hp)%list_elem_of_fmap.
        change (child ck_directory name = p) in Hq. rewrite <- Hq in Hp. by apply inside_not_prefix in Hp.
      + intros p c Hp H%elem_of_list_to_map_2. apply list_elem_of_fmap in H as (q & [= _] & _).
    - apply Forall_forall. intros p Hp. apply elem_of_list_to_map_1.
      + rewrite <- list_fmap_compose, list_fmap_id. by_evaluation.
      + apply list_elem_of_fmap. by exists p.
    - unfold ck_started. fold x0. rewrite (surjective_pairing (start_over _ _ _ x0)) at 1. apply (f_equal2 pair); [vm_compute; reflexivity|reflexivity].
    - exact (proj2 (H None eq_refl)). }
  destruct Hx as [[H1 H2 H3 H4] H5 H6 H7 H8].
  split; [split; [exact H1|exact H2|exact H3|exact H4]|exact H5|exact H6|exact H7|exact H8].
Qed.

Lemma failed_metadata_write_repeats_rows_witness :
  ck_failed.1 = Raise os_error /\ ck_flushed.1 = Ok tt /\
  exists m n fs x', open_extraction long_middle ck_directory ck_identity (mkFs (tree (x_fs (sc_checkpoint ck_flushed.2))) []) = (Ok (m, n), fs) /\
    load_rows long_middle ck_directory ck_identity (mkExtraction fs m n) = (Ok [ck_polygon (u "p1"); ck_polygon (u "p1")], x').
Proof.
  assert (Hf : ck_failed.1 = Raise os_error) by (vm_compute; reflexivity). assert (Ho : ck_flushed.1 = Ok tt) by (vm_compute; reflexivity).
  split; [exact Hf|]. split; [exact Ho|].
  apply (@failed_metadata_write_repeats_rows example_runtime example_formats codec codec_laws long_middle temporary_name_fresh ck_directory ck_identity
    ck_good (u <$> ["p1"]%string) ck_good_fits 1 ck_pending ck_failed.2 ck_flushed.2 os_error []).
  - exact ck_started_exact.
  - constructor; [by left|constructor].
  - exists []. vm_compute. reflexivity.
  - by_evaluation.
  - rewrite <- Hf. apply surjective_pairing.
  - apply not_eq_None_Some. by_evaluation.
  - rewrite <- Ho. apply surjective_pairing.
Defined.

(** * Fetches *)

Definition ft_directory : path := fetch_directory ck_root (u "monaco").
Definition ft_region : RegionFetch := fetch_of ft_directory (u "f1") true.
Definition ft_ref : WikipediaTagRef := {| tr_language := u "fr"; tr_title := u "Monaco"; tr_raw_key := u "wikipedia"; tr_raw_value := u "fr:Monaco" |}.
Definition ft_result : DirectEnrichmentResult :=
  {| dr_documents := [ex_document "d1" "Q1"]; dr_links := []; dr_statuses := [{| ds_ref := ft_ref; ds_status := u "ok"; ds_error := []; ds_reused_v1 := false |}];
     dr_deferred_errors := [] |}.

Definition ft_opened : FsState := (open_fetch long_middle ft_region (mkFs ∅ [])).2.
Definition ft_saved : FsState := (save_direct long_middle ft_region (u "p1") [ft_ref] ft_result ft_opened).2.
Definition ft_log : list event := [SavedDirect (u "f1") true (u "p1") [ft_ref] ft_result].

Lemma ft_open_ok : open_fetch long_middle ft_region (mkFs ∅ []) = (Ok tt, ft_opened).
Proof. rewrite (surjective_pairing (open_fetch _ _ _)). apply (f_equal2 pair); [vm_compute; reflexivity|reflexivity]. Qed.
Lemma ft_save_ok : save_direct long_middle ft_region (u "p1") [ft_ref] ft_result ft_opened = (Ok tt, ft_saved).
Proof. rewrite (surjective_pairing (save_direct _ _ _ _ _ _)). apply (f_equal2 pair); [vm_compute; reflexivity|reflexivity]. Qed.

Lemma ft_reach_opened : rtc (fetch_step long_middle ft_directory) (mkFetchState (mkFs ∅ []) None []) (mkFetchState ft_opened (Some (u "f1", true)) []).
Proof. apply rtc_once. exact (step_open long_middle ft_directory (u "f1") true (mkFs ∅ []) None [] (Ok tt) ft_opened ft_open_ok). Qed.
Lemma ft_reach_saved : rtc (fetch_step long_middle ft_directory) (mkFetchState (mkFs ∅ []) None []) (mkFetchState ft_saved (Some (u "f1", true)) ft_log).
Proof.
  eapply rtc_r; [exact ft_reach_opened|].
  exact (step_save_direct long_middle ft_directory (u "f1") true (u "p1") [ft_ref] ft_result ft_opened [] (Ok tt) ft_saved ft_save_ok).
Qed.

(** The saved result is loaded; with the constant hash of this runtime every polygon has the same
    file, and yet another polygon's result is not taken for it. *)
Lemma fetch_checkpoint_is_current_witness :
  exists r s', load_direct ft_region (u "p1") [ft_ref] ft_saved = (Ok (Some r), s') /\ (load_direct ft_region (u "p2") [ft_ref] ft_saved).1 = Ok None /\
    exists r', SavedDirect (u "f1") true (u "p1") [ft_ref] r' ∈ ft_log /\ length (dr_statuses r') = 1%nat /\ r = restored [ft_ref] r'.
Proof.
  destruct (@fetch_checkpoint_is_current example_runtime example_formats long_middle ft_directory ∅ [] (mkFetchState ft_saved (Some (u "f1", true)) ft_log) (u "f1") true)
    as [Hdirect _]; [exact temporary_name_fresh|intros; apply lookup_empty|exact ft_reach_saved|reflexivity|].
  destruct (load_direct ft_region (u "p1") [ft_ref] ft_saved) as [o s'] eqn:E. assert (Ho : o = Ok (Some ft_result)).
  { apply (f_equal fst) in E. cbn [fst] in E. rewrite <- E. vm_compute. reflexivity. }
  subst o. exists ft_result, s'. split_and!; [reflexivity|vm_compute; reflexivity|]. exact (Hdirect (u "p1") [ft_ref] ft_result s' E).
Defined.

Lemma saved_direct_is_loaded_witness :
  exists s1 s2, open_fetch long_middle ft_region (mkFs (tree ft_saved) []) = (Ok tt, s1) /\
    load_direct ft_region (u "p1") [ft_ref] s1 = (Ok (Some ft_result), s2).
Proof.
  apply (@saved_direct_is_loaded example_runtime example_formats long_middle ft_directory ∅ [] (mkFetchState ft_opened (Some (u "f1", true)) []) (u "f1") true
    (u "p1") [ft_ref] ft_result ft_saved); [exact temporary_name_fresh|intros; apply lookup_empty|exact ft_reach_opened|reflexivity|reflexivity|reflexivity|exact ft_save_ok].
Defined.
