(* ===== verification/SentenceRun.v ===== *)
(** The restart-safe sentence pass over a region: batches on disk ([v2/sentence_checkpoints.py]) and
    the runner that fills them, assembles the output and keeps the manifest
    ([v2/sentence_runner.py]). *)
From stdpp Require Import gmap sorting.
From S2P Require Import Prelude Py PyStr PyText Fs Artifacts Atomic LinkTransaction PolygonLinks RecoveryMerge Sentences Tables Integrity RejectionLedger Checkpoints.

Definition SENTENCE_CHECKPOINT_CONTRACT_VERSION : str := u "v2-sentence-checkpoints-v1".

(** The schema of the sentence tables ([v2/sentence_logic.py]). *)
Definition SENTENCE_COLUMNS : list str := u <$>
  ["sentence_id"; "section_id"; "document_id"; "article_id"; "wikidata"; "project"; "language"; "site"; "page_id"; "revision_id";
   "section_index"; "heading"; "anchor"; "level"; "parent_section_id"; "section_path"; "sentence_index"; "start_char"; "end_char";
   "text"; "text_length_chars"; "text_length_words"; "text_length_tokens_estimate"; "content_hash"; "source_content_hash"; "segmenter";
   "segmenter_version"; "model_id"; "segmentation_status"; "license"; "attribution"]%string.
Definition INTEGER_COLUMNS : list str := u <$>
  ["page_id"; "revision_id"; "section_index"; "level"; "sentence_index"; "start_char"; "end_char"; "text_length_chars";
   "text_length_words"; "text_length_tokens_estimate"]%string.
Definition sentence_schema : table_schema :=
  (fun column => (column, if bool_decide (column ∈ INTEGER_COLUMNS) then pa_int64 else pa_string)) <$> SENTENCE_COLUMNS.
Definition SAT_MODEL_ID : str := u "segment-any-text/sat-3l-sm".

(** What [(OSError, pa.ArrowException)] catches; [ArrowInvalid] is an [ArrowException] besides a
    [ValueError]. *)
Definition unreadable_table (e : exn) : bool := isinstance e COSError || isinstance e ArrowException || isinstance e ArrowInvalid.

Section SentenceRun.
Context {RT : Runtime} {FF : FileFormats} {PQ : Parquet}.
Variable temporary_middle : gmap path node -> path -> str.

(** * The checkpoint *)

(** The object: the files and the metadata it holds. *)
Record SentenceCheckpoint := mkSentenceCheckpoint { sp_fs : FsState; sp_metadata : pydict }.
Abbreviation C := (PyM SentenceCheckpoint).
Definition on_files {A} (m : PyM FsState A) : C A := fun c =>
  let '(o, fs) := m (sp_fs c) in (o, mkSentenceCheckpoint fs (sp_metadata c)).
Definition hold_metadata (m : pydict) (c : SentenceCheckpoint) : SentenceCheckpoint := mkSentenceCheckpoint (sp_fs c) m.

Definition sentence_directory (root : path) (stem project : str) : path := root ++ [stem; project].
Definition sentence_identity (stem project fingerprint model revision : str) (batch_size : Z) : pydict :=
  [(u "contract_version", VStr SENTENCE_CHECKPOINT_CONTRACT_VERSION); (u "stem", VStr stem); (u "project", VStr project);
   (u "input_fingerprint", VStr fingerprint); (u "model_id", VStr model); (u "model_revision", VStr revision); (u "batch_size", VInt batch_size)].

(** The checks of the constructor. *)
Definition validate_checkpoint (stem project : str) (batch_size : Z) : outcome unit :=
  _ ← require_safe_stem stem (u "sentence checkpoint stem") CValueError;
  _ ← raise_if (negb (bool_decide (project ∈ [u "wikipedia"; u "wikivoyage"])))
        (exc CValueError [FStr (u "Unsupported sentence project: "); FRepr (VStr project)]);
  raise_if (batch_size <? 1) (exc CValueError (msg "batch_size must be positive")).

Section Checkpoint.
Variable directory : path.
Variable identity : pydict.
Definition batch_metadata : path := child directory (u "metadata.json").
Definition payload_patterns : list pattern := [Around "batch-" ".parquet"; Around "" ".tmp"; Around "." ".tmp"].
Definition remove_payloads : PyM FsState unit := for_each (fun what => remove_matching directory [what]) payload_patterns.

Definition first_metadata : pydict :=
  [(u "identity", VDict identity); (u "complete", VBool false); (u "batch_count", VInt 0); (u "row_count", VInt 0)].
Definition initial_metadata : PyM FsState pydict :=
  atomic_write_json temporary_middle batch_metadata (VDict first_metadata);;
  ret first_metadata.
Definition prepare_sentences : PyM FsState pydict :=
  raw <- read_document batch_metadata;;
  match (match raw with VDict d => if py_eqb (dget_none (u "identity") d) (VDict identity) then Some d else None | _ => None end) with
  | Some d => ret d
  | None => remove_payloads;; initial_metadata
  end.
Definition open_sentences : PyM FsState pydict := mkdir directory;; prepare_sentences.

Definition batch_file (index : Z) : path := child directory (u "batch-" ++ zero_pad 8 index ++ u ".parquet").
Definition batch_path (index : Z) : outcome path :=
  _ ← raise_if (index <? 0) (exc CValueError (msg "batch index must be non-negative")); mret (batch_file index).
Definition batch_index (p : path) : option Z :=
  match py_int (VStr (removeprefix (u "batch-") (stem_of_name (path_name p)))) with Ok z => Some z | Raise _ => None end.

(** The rows of a batch, if its file is a table with the schema. *)
Definition load_batch_table (index : Z) : PyM FsState (option (list pydict)) :=
  p <- lift (batch_path index);;
  try_except
    (table <- reading (read_table p);;
     ret (if bool_decide (table.1 = sentence_schema) then Some table.2 else None))
    (fun e => if unreadable_table e then Some (ret None) else None).
Definition batch_row_count (index : Z) : PyM FsState (option Z) :=
  rows <- load_batch_table index;; ret ((fun l => len (l : list pydict)) <$> rows).

Definition batch_files (t : gmap path node) : list path := glob_pattern directory (Around "batch-" ".parquet") t.
Fixpoint valid_batches (files : list path) : PyM FsState (list Z) :=
  match files with
  | [] => ret []
  | p :: files =>
      match batch_index p with
      | None => valid_batches files
      | Some index =>
          count <- batch_row_count index;;
          indexes <- valid_batches files;;
          ret (match count with Some _ => index :: indexes | None => indexes end)
      end
  end.
Definition completed_batches : PyM FsState (list Z) :=
  files <- gets (fun s => batch_files (tree s));; valid_batches files.

Definition is_complete (metadata : pydict) : bool := py_truthy (default (VBool false) (dget (u "complete") metadata)).

Definition requested_batch_count (requested : option Z) (metadata : pydict) (indexes : list Z) : pyval :=
  match requested with
  | Some n => VInt n
  | None => if is_complete metadata then dget_none (u "batch_count") metadata else VInt (next_chunk_after indexes)
  end.
Definition validated_batch_indexes (indexes : list Z) (expected : pyval) : outcome (list Z) :=
  match as_int expected with
  | Some n =>
      if n <? 0 then Raise (exc CValueError (msg "Invalid sentence checkpoint batch count"))
      else if bool_decide (indexes = Z.of_nat <$> seq 0 (Z.to_nat n)) then mret indexes
      else Raise (exc CValueError (msg "Sentence checkpoint batches are not contiguous"))
  | None => Raise (exc CValueError (msg "Invalid sentence checkpoint batch count"))
  end.
Fixpoint load_checkpoint_rows (indexes : list Z) : PyM FsState (list pydict) :=
  match indexes with
  | [] => ret []
  | index :: indexes =>
      batch <- load_batch_table index;;
      match batch with
      | None => throw (exc CValueError [FStr (u "Invalid sentence checkpoint batch: "); FInt index])
      | Some rows => others <- load_checkpoint_rows indexes;; ret (rows ++ others)
      end
  end.
Definition load_sentence_rows (requested : option Z) : C (list pydict) :=
  metadata <- gets sp_metadata;;
  on_files (
    indexes <- completed_batches;;
    indexes <- lift (validated_batch_indexes indexes (requested_batch_count requested metadata indexes));;
    load_checkpoint_rows indexes).

Definition save_sentences (metadata : pydict) : C unit :=
  modify (hold_metadata metadata);;
  on_files (atomic_write_json temporary_middle batch_metadata (VDict metadata)).

Definition write_batch (index : Z) (rows : list pydict) : C unit :=
  p <- lift (batch_path index);;
  on_files (atomic_write_table temporary_middle p rows sentence_schema);;
  metadata <- gets sp_metadata;;
  save_sentences (dupdate metadata [(u "complete", VBool false)]).

(** [pq.read_metadata(path).num_rows]. *)
Definition row_count_of (index : Z) : PyM FsState Z :=
  p <- lift (batch_path index);;
  table <- reading (read_table p);;
  ret (len (table.2 : list pydict)).
Fixpoint sum_row_counts (indexes : list Z) : PyM FsState Z :=
  match indexes with
  | [] => ret 0
  | index :: indexes => n <- row_count_of index;; m <- sum_row_counts indexes;; ret (n + m)
  end.
Definition mark_sentences_complete (batch_count row_count : Z) : C unit :=
  indexes <- on_files completed_batches;;
  (if bool_decide (indexes = Z.of_nat <$> seq 0 (Z.to_nat batch_count)) then ret tt
   else throw (exc CValueError (msg "Sentence checkpoint batches are not contiguous")));;
  actual <- on_files (sum_row_counts indexes);;
  (if actual =? row_count then ret tt else throw (exc CValueError (msg "Sentence checkpoint row accounting is invalid")));;
  metadata <- gets sp_metadata;;
  save_sentences (dupdate metadata [(u "complete", VBool true); (u "batch_count", VInt batch_count); (u "row_count", VInt row_count)]).

Definition finalize_sentences (output : path) (output_hash : str) (summary : pydict) : C unit :=
  metadata <- gets sp_metadata;;
  (if is_complete metadata then ret tt else throw (exc CValueError (msg "Cannot finalize an incomplete sentence checkpoint")));;
  save_sentences (dupdate metadata [(u "output_path", VStr (path_str output)); (u "output_hash", VStr output_hash); (u "summary", VDict summary)]);;
  on_files remove_payloads.

(** The conjuncts are evaluated from the left. *)
Definition output_matches (output : path) (output_hash : str) : C bool :=
  metadata <- gets sp_metadata;;
  there <- gets (fun c => is_file output (tree (sp_fs c)));;
  let stored := dget_none (u "output_hash") metadata in
  if is_complete metadata && py_eqb (dget_none (u "output_path") metadata) (VStr (path_str output)) && py_eqb stored (VStr output_hash) && there
  then digest <- on_files (reading (sha256_file output));; ret (py_eqb (VStr digest) stored)
  else ret false.

Definition reset_sentences : C unit :=
  on_files remove_payloads;;
  metadata <- on_files initial_metadata;;
  modify (hold_metadata metadata).
Definition clear_sentences : PyM FsState unit :=
  remove_payloads;;
  unlink batch_metadata;;
  suppress_os_error (rmdir directory);;
  suppress_os_error (rmdir (path_parent directory));;
  suppress_os_error (rmdir (path_parent (path_parent directory))).
End Checkpoint.

(** * The runner *)

Definition DEFAULT_SENTENCE_BATCH_SIZE : Z := 256.
Definition SENTENCE_SPLIT_CONTRACT_VERSION : str := u "v2-sentence-splitting-v1".

Record SentenceRegionSummary := mkRegionSummary {
  rs_stem : str; rs_project : str; rs_sections : Z; rs_split_sections : Z; rs_unsplit_sections : Z; rs_sentence_rows : Z;
  rs_supported_languages : list str; rs_unsupported_languages : list str }.
Record Counters := {
  ct_sections : Z; ct_split_sections : Z; ct_unsplit_sections : Z; ct_supported : gset str; ct_unsupported : gset str }.
Definition no_counters : Counters := {| ct_sections := 0; ct_split_sections := 0; ct_unsplit_sections := 0; ct_supported := ∅; ct_unsupported := ∅ |}.

Section Runner.
(** [SAT_SUPPORTED_LANGUAGES]; the adapter and its [revision], if it has one; and
    [ParquetFile.iter_batches] of the bytes of a table. *)
Variable SAT_SUPPORTED_LANGUAGES : list str.
Variable seg : SentenceSegmenter.
Variable revision : option str.
Variable iter_batches : list N -> Z -> outcome (list (list pydict)).
Variable data_root : path.
Variable batch_size : Z.

Definition add_section (c : Counters) (section : pydict) : Counters :=
  let language := language_of section in
  if is_sat_supported_language SAT_SUPPORTED_LANGUAGES language
  then {| ct_sections := ct_sections c + 1; ct_split_sections := ct_split_sections c + 1; ct_unsplit_sections := ct_unsplit_sections c;
          ct_supported := {[language]} ∪ ct_supported c; ct_unsupported := ct_unsupported c |}
  else {| ct_sections := ct_sections c + 1; ct_split_sections := ct_split_sections c; ct_unsplit_sections := ct_unsplit_sections c + 1;
          ct_supported := ct_supported c; ct_unsupported := {[language]} ∪ ct_unsupported c |}.
Definition add_sections (c : Counters) (sections : list pydict) : Counters := foldl add_section c sections.
Definition region_summary (c : Counters) (sentence_rows : Z) (stem project : str) : SentenceRegionSummary :=
  mkRegionSummary stem project (ct_sections c) (ct_split_sections c) (ct_unsplit_sections c) sentence_rows
    (sorted_strs (elements (ct_supported c))) (sorted_strs (elements (ct_unsupported c))).

(** [asdict]; tuples become arrays in the document. *)
Definition summary_dict (s : SentenceRegionSummary) : pydict :=
  [(u "stem", VStr (rs_stem s)); (u "project", VStr (rs_project s)); (u "sections", VInt (rs_sections s));
   (u "split_sections", VInt (rs_split_sections s)); (u "unsplit_sections", VInt (rs_unsplit_sections s));
   (u "sentence_rows", VInt (rs_sentence_rows s)); (u "supported_languages", VList (VStr <$> rs_supported_languages s));
   (u "unsupported_languages", VList (VStr <$> rs_unsupported_languages s))].
Definition summary_from (raw : pydict) : outcome SentenceRegionSummary :=
  stem ← getitem_of "stem" raw; project ← getitem_of "project" raw;
  sections ← (getitem_of "sections" raw ≫= py_int);
  split ← (getitem_of "split_sections" raw ≫= py_int);
  unsplit ← (getitem_of "unsplit_sections" raw ≫= py_int);
  rows ← (getitem_of "sentence_rows" raw ≫= py_int);
  supported ← (getitem_of "supported_languages" raw ≫= iterable);
  unsupported ← (getitem_of "unsupported_languages" raw ≫= iterable);
  mret (mkRegionSummary (py_str stem) (py_str project) sections split unsplit rows (py_str <$> supported) (py_str <$> unsupported)).
(** [_summary_from_mapping]. *)
Definition summary_from_mapping (raw : pydict) (error : list frag) : outcome SentenceRegionSummary :=
  match summary_from raw with
  | Raise e => if isinstance e CKeyError || isinstance e CTypeError || isinstance e CValueError then Raise (exc_from CValueError error e) else Raise e
  | r => r
  end.

Definition model_revision : str := default (u "unknown") revision.
Definition section_path (stem project : str) : path := processed_v2 data_root ++ [project; u "sections"; stem ++ u ".parquet"].
Definition sentence_path (stem project : str) : path := processed_v2 data_root ++ [project; u "sentences"; stem ++ u ".parquet"].
Definition validate_schema (p : path) (schema : table_schema) : PyM FsState unit :=
  table <- reading (read_table p);;
  if bool_decide (table.1 = schema) then ret tt else throw (exc CValueError [FStr (u "Unexpected Parquet schema: " ++ path_str p)]).

Definition recorded_output_matches (output : path) : C bool :=
  metadata <- gets sp_metadata;;
  match dget_none (u "output_hash") metadata with
  | VStr output_hash => output_matches output output_hash
  | _ => ret false
  end.
Definition summary_from_checkpoint (metadata : pydict) : outcome SentenceRegionSummary :=
  match dget_none (u "summary") metadata with
  | VDict raw => summary_from_mapping raw (msg "Completed sentence checkpoint has an invalid summary")
  | _ => Raise (exc CValueError (msg "Completed sentence checkpoint has no summary"))
  end.

(** The loop of [_process_source]: each batch of sections is read from the source, counted, and split
    unless its rows are there. *)
Fixpoint process_batches (directory : path) (index : Z) (batches : list (list pydict)) (counters : Counters) (row_count : Z) : C (Z * Counters * Z) :=
  match batches with
  | [] => ret (index, counters, row_count)
  | sections :: batches =>
      on_files (reading (fun _ => Ok tt));;
      let counters := add_sections counters sections in
      there <- on_files (batch_row_count directory index);;
      match there with
      | Some n => process_batches directory (index + 1) batches counters (row_count + n)
      | None =>
          result <- lift (split_sections SAT_SUPPORTED_LANGUAGES sections seg batch_size);;
          write_batch directory index result.1;;
          process_batches directory (index + 1) batches counters (row_count + len (result.1 : list pydict))
      end
  end.
Definition process_source (directory source : path) (stem project : str) : C (Z * Z * SentenceRegionSummary) :=
  batches <- on_files (reading (fun t => b ← read_bytes source t; iter_batches b batch_size));;
  counted <- process_batches directory 0 batches no_counters 0;;
  let '(batch_count, counters, row_count) := counted in
  ret (batch_count, row_count, region_summary counters row_count stem project).

(** The tables of the batches, in order. *)
Fixpoint checkpoint_batches (directory : path) (indexes : list Z) : PyM FsState (list pydict) :=
  match indexes with
  | [] => ret []
  | index :: indexes =>
      table <- load_batch_table directory index;;
      match table with
      | None => throw (exc CValueError [FStr (u "Invalid sentence checkpoint batch: "); FInt index])
      | Some rows => others <- checkpoint_batches directory indexes;; ret (rows ++ others)
      end
  end.
Definition write_output (directory output : path) (batch_count : Z) : PyM FsState unit :=
  atomic_replacement temporary_middle output (fun temporary =>
    rows <- checkpoint_batches directory (Z.of_nat <$> seq 0 (Z.to_nat batch_count));;
    b <- lift (encode_table sentence_schema rows);;
    write_file temporary (CBytes b);;
    validate_schema temporary sentence_schema).

Definition split_project (directory source output : path) (stem project : str) : C SentenceRegionSummary :=
  known <- recorded_output_matches output;;
  if known : bool then
    metadata <- gets sp_metadata;;
    lift (summary_from_checkpoint metadata)
  else
    processed <- process_source directory source stem project;;
    let '(batch_count, row_count, summary) := processed in
    mark_sentences_complete directory batch_count row_count;;
    on_files (write_output directory output batch_count);;
    digest <- on_files (reading (sha256_file output));;
    finalize_sentences directory output digest (summary_dict summary);;
    ret summary.

(** [_run_project]. *)
Definition run_project (stem project : str) : PyM FsState SentenceRegionSummary :=
  let source := section_path stem project in
  let directory := sentence_directory (sub (v2_cache data_root) "sentence-checkpoints") stem project in
  there <- gets (fun s => is_file source (tree s));;
  (if there : bool then ret tt else throw (exc CFileNotFoundError [FStr (u "V2 section source is missing: " ++ path_str source)]));;
  validate_schema source section_schema;;
  fingerprint <- reading (sha256_file source);;
  lift (validate_checkpoint stem project batch_size);;
  metadata <- open_sentences directory (sentence_identity stem project fingerprint (model_id seg) model_revision batch_size);;
  fun s => let '(o, c) := split_project directory source (sentence_path stem project) stem project (mkSentenceCheckpoint s metadata) in (o, sp_fs c).

(** ** The manifest *)

Definition manifest_metadata : pydict :=
  [(u "contract_version", VStr SENTENCE_SPLIT_CONTRACT_VERSION); (u "segmenter", VStr SAT_MODEL_NAME); (u "model_id", VStr (model_id seg));
   (u "model_revision", VStr model_revision); (u "segmenter_version", VStr (version seg))].
Definition manifest_payload (summaries : list SentenceRegionSummary) : pydict :=
  dupdate manifest_metadata
    [(u "supported_languages", VList (VStr <$> SAT_SUPPORTED_LANGUAGES));
     (u "unsupported_languages", VList (VStr <$> sorted_strs (elements (list_to_set (summaries ≫= rs_unsupported_languages) : gset str))));
     (u "unsupported_language_policy", VStr (u "one unsplit row; never passed to SaT"));
     (u "regions", VList ((VDict ∘ summary_dict) <$> summaries))].
Definition manifest_uses_segmenter (payload : pydict) : bool :=
  forallb (fun kv => py_eqb (dget_none kv.1 payload) kv.2) manifest_metadata.
Definition manifest_region_summary (p : path) (region : pyval) : outcome SentenceRegionSummary :=
  let error := [FStr (u "Invalid sentence manifest region: " ++ path_str p)] in
  match region with VDict d => summary_from_mapping d error | _ => Raise (exc CValueError error) end.
Definition load_manifest_payload (p : path) (t : gmap path node) : outcome pydict :=
  let error := [FStr (u "Invalid sentence manifest: " ++ path_str p)] in
  match read_json p t with
  | Ok (VDict d) => mret d
  | Ok _ => Raise (exc CValueError error)
  | Raise e => if isinstance e COSError || isinstance e CTypeError || isinstance e CUnicodeError || isinstance e CValueError
               then Raise (exc_from CValueError error e) else Raise e
  end.
Definition load_manifest_summaries (p : path) (t : gmap path node) : outcome (list SentenceRegionSummary) :=
  if negb (is_file p t) then mret []
  else
    payload ← load_manifest_payload p t;
    _ ← raise_if (negb (manifest_uses_segmenter payload)) (exc CValueError [FStr (u "Sentence manifest uses a different segmenter: " ++ path_str p)]);
    match dget_none (u "regions") payload with
    | VList regions => mapM (manifest_region_summary p) regions
    | _ => Raise (exc CValueError [FStr (u "Invalid sentence manifest regions: " ++ path_str p)])
    end.

(** The summaries by [(stem, project)], the later ones last; sorted by their keys. *)
Definition summary_key (s : SentenceRegionSummary) : str * str := (rs_stem s, rs_project s).
Definition merge_summaries (old new : list SentenceRegionSummary) : gmap (str * str) SentenceRegionSummary :=
  foldl (fun m s => <[summary_key s := s]> m) ∅ (old ++ new).
Definition key_leb (a b : (str * str) * SentenceRegionSummary) : bool :=
  if str_eqb a.1.1 b.1.1 then str_leb a.1.2 b.1.2 else str_leb a.1.1 b.1.1.
Definition ordered_summaries (old new : list SentenceRegionSummary) : list SentenceRegionSummary :=
  (sort_stable key_leb (map_to_list (merge_summaries old new))).*2.
Definition write_sentence_manifest (p : path) (summaries : list SentenceRegionSummary) : PyM FsState unit :=
  old <- reads (load_manifest_summaries p);;
  atomic_write_json temporary_middle p (VDict (manifest_payload (ordered_summaries old summaries))).

(** ** All regions *)

Definition requested_stems (manifest : list (str * pydict)) (stems : option (list str)) : list str :=
  sorted_strs (elements (list_to_set (default manifest.*1 stems) : gset str)).
Definition selected_stems (manifest : list (str * pydict)) (stems : option (list str)) : outcome (list str) :=
  _ ← raise_if (bool_decide (manifest = [])) (exc CFileNotFoundError (msg "No finalized V2 regions found in manifests/processed_pbfs.json"));
  let selected := requested_stems manifest stems in
  let missing := filter (fun s => s ∉ manifest.*1) selected in
  _ ← raise_if (negb (bool_decide (missing = [])))
        (exc CValueError [FStr (u "Sentence split region(s) are not finalized in V2: "); FRepr (VList (VStr <$> missing))]);
  _ ← raise_if (bool_decide (selected = [])) (exc CValueError (msg "At least one V2 region is required for sentence splitting"));
  mapM (fun stem => require_safe_stem stem (u "V2 stem") CValueError) selected.

Fixpoint run_stems (stems : list str) : PyM FsState (list SentenceRegionSummary) :=
  match stems with
  | [] => ret []
  | stem :: stems =>
      wikipedia <- run_project stem (u "wikipedia");;
      there <- gets (fun s => is_file (section_path stem (u "wikivoyage")) (tree s));;
      wikivoyage <- (if there : bool then (s <- run_project stem (u "wikivoyage");; ret [s]) else ret []);;
      others <- run_stems stems;;
      ret (wikipedia :: wikivoyage ++ others)
  end.
Definition run_v2_sentence_split (stems : option (list str)) : PyM FsState (path * list SentenceRegionSummary) :=
  lift (raise_if (batch_size <? 1) (exc CValueError (msg "batch_size must be positive")));;
  lift (raise_if (negb (str_eqb (model_id seg) SAT_MODEL_ID)) (exc CValueError [FStr (u "Only " ++ SAT_MODEL_NAME ++ u " is supported by this stage")]));;
  manifest <- reads (load_v2_manifest (processed_v2 data_root));;
  selected <- lift (selected_stems manifest stems);;
  summaries <- run_stems selected;;
  let p := sub (processed_v2 data_root) "manifests/sentence_splitting.json" in
  write_sentence_manifest p summaries;;
  ret (p, summaries).
End Runner.
End SentenceRun.
